(* ===== verification/_CoqProject ===== *)
-Q . S2P
Prelude.v
Text.v
StringMap.v
Doubles.v
Wire.v
Faults.v
Model.v
SensorBroker.v
BrokerRouter.v
WindowsBroker.v
Crypto.v
NapSequence.v
OutboundQueue.v
Dispatcher.v
ProcessGraph.v
History.v
Tracker.v
NameResolution.v
TlsSession.v
Scheduler.v
UpgradeText.v
UpgradeStore.v
UpgradeWorker.v
Updater.v
Json.v
JsonGrammar.v
Rules.v
RulesValid.v
ProcessFindings.v
Verdict.v
ContextRules.v
Behavior.v
RuleUpdate.v
JsonPrint.v
Announcement.v
Cooldown.v
HistoryEvidence.v
HistoryRecords.v
HistoryEnvironment.v
Session.v
SessionTrack.v
SessionLife.v
SessionRun.v
FindingStore.v
HistoryPrune.v
Artifacts.v
Transfer.v
Reporting.v
FindingRuntime.v
