(* ===== verification/Prelude.v ===== *)
(** * The NETA agent: a verification of its core logic

    The agent observes network connections and processes on a host, keeps their
    history in a local database, judges them, and reports findings to a coordinator
    through a durable outbox.  This library is a shallow embedding of the parts that
    carry that logic, translated from the C++ sources (paths below are relative to the
    repository), with the theorems that make them correct.

    ** Parts, files and correspondence

    - [Prelude]: the result type of throwing code ([Ok], [Throw]), machine integers as [Z]
      with [wrap_u] and [wrap_s], options, loops over vectors, tactics.
    - [Text]: characters and [std::string] operations ([find], [substr], [std::stoull],
      [std::from_chars], [std::to_string], [c_str], sorting).
    - [Wire]: little-endian packed structs as codecs, with the class [CodecLaws].
    - [Model]: the enumerations and records of [include/neta/model.hpp], [lifecycle.hpp] and
      [process_exec.hpp] with their text forms, and the connection admission policy
      ([connection_filter.cpp], [connection_admission_policy.cpp]).
    - [SensorBroker]: the frames of [include/neta/sensor_broker.hpp] (registration,
      lifecycle and process events, endpoint mappings).
    - [BrokerRouter]: its bounded queues and router, and the broker's threads as a step
      relation [broker_step].
    - [Crypto]: hexadecimal SHA-256 ([src/core/crypto.cpp]); the digest is a parameter.
    - [NapSequence]: the durable message sequence ([src/core/nap_sequence.cpp]), as a monad
      over a directory of four files in which every file operation may fail, or be cut short
      by a crash, as a fault schedule says.
    - [OutboundQueue]: the outbox ([src/core/outbound_queue.cpp]); each SQL statement is a
      function on the table's rows.
    - [Dispatcher]: acknowledgements ([coordinator_ack.cpp]) and the delivery loop
      ([outbound_dispatcher.cpp]) over the outbox and the sequence.
    - [ProcessGraph]: the process graph ([src/core/process_graph.cpp], first half).
    - [History]: the database statements connection tracking uses ([history_store.cpp],
      [history_reconciliation.cpp]), which can break a foreign key, and their interface, the
      classes [HistoryOps], [HistoryLaws] and [StatementLaws].
    - [Tracker]: connection tracking ([connection_tracker.cpp]), proved against
      [HistoryLaws]; over the database it never breaks a foreign key
      ([history_supports_tracking]).
    - [NameResolution], [TlsSession]: correlating lookups and TLS sessions with connections
      ([name_resolution.cpp], [tls_session.cpp]).
    - [Scheduler]: when evidence is sampled ([evidence_scheduler.cpp]).
    - [WindowsBroker]: the Windows sensor broker ([platform/windows/sensor_broker_*.cpp]):
      its frames, the attribution of processes, its router and server.
    - [StringMap], [Doubles]: [std::map<std::string, V>] as a sorted association list;
      [double] and [long double] arithmetic, conversions, [strtod] and printing.
    - [Json]: the JSON values and parser ([include/neta/rules/json_value.hpp],
      [json_parser.hpp]); [JsonGrammar]: the grammar it implements.
    - [Rules]: exclusions, rule definitions and the loader ([rules/rule_exclusion.hpp],
      [rule_definition.hpp], [rule_set.hpp], [rule_set_loader.hpp]); [RulesValid]: what a
      loaded rule set satisfies.
    - [ProcessFindings]: the process finding engine ([process_findings.hpp],
      [process_graph.cpp], second half).
    - [Verdict]: performance and trust verdicts ([verdict.cpp]).
    - [ContextRules]: rules over one connection ([context_rule_engine.cpp]).
    - [Behavior]: periodic outbound connections ([behavior_detection.hpp]).
    - [Faults]: programs over a store whose operations can fail or be the point where the
      process is killed, with their triples, and the way the agent replaces a file (a
      temporary file closed without a check, then renamed); the sequence, the upgrade, the
      rule update and the pruning use it.
    - [UpgradeText], [UpgradeStore] ([upgrade.cpp]): the texts, addresses and bodies of an
      upgrade; its instruction, durable state and download. [UpgradeWorker]
      ([upgrade_runtime.cpp]): extracting and activating a version on Linux, with the
      rollback. [Updater] ([updater_main.cpp]): the launch and the updater process.
    - [RuleUpdate]: central rules and YARA content ([rule_fleet_client.cpp],
      [rule_convergence.cpp]), from the heartbeat response to the restarted service.
    - [JsonPrint]: the JSON texts the agent assembles by hand, as trees; [Announcement]:
      findings on their way to the coordinator ([reliable_fleet_client.cpp]).
    - [Cooldown], [Transfer], [Reporting]: cooldown files, transfer evidence
      ([transfer_assurance.hpp]) and the reporters that write findings and announce them
      ([fleet_reporting.hpp], [behavior_reporting.hpp], [rm2_reporting.hpp]).
    - [HistoryRecords], [HistoryEvidence], [HistoryEnvironment]: the other tables of the
      history ([history_store.cpp]; [history_name_resolution.cpp],
      [history_tls_session.cpp]; [history_environment.cpp] with
      [host_network_environment.hpp]), with their keys and foreign keys, and everything that
      is read back.
    - [HistoryPrune]: keeping the database within its budget ([history_maintenance.cpp],
      [storage_maintenance.cpp]), over all of these tables.
    - [Session]: the observation session ([observation_session.cpp]), the loop that puts the
      policy, the tracker, the scheduler, the correlations and the database together, as
      programs of a state monad over everything outside it; [SessionTrack], [SessionLife],
      [SessionRun]: what the tracker does for it, the life of a connection as an automaton,
      and its theorems.
    - [FindingStore], [Artifacts], [FindingRuntime]: stored processes and findings
      ([process_finding_store.cpp]), antimalware evidence of what is executed
      ([antimalware.cpp], [exec_antimalware_monitor.cpp]) and the runtime that observes,
      stores and reports them ([process_finding_runtime.cpp]); it uses the graph, the
      engine, the stores and the outbox.

    ** What the theorems show

    - Frames: encoding and decoding of events, registrations and mappings are inverse on
      values that fit the wire format; every queued frame belongs to the endpoint it was
      routed to, whatever the interleaving; queues drop only their oldest frames and count
      them.
    - Sequence numbers (of the Windows builds): never used twice, under every fault and
      crash; recoverable after every crash once two slots exist; the health report predicts
      the next allocation. Two scenarios in which the code does less than this (a crash
      while migrating, a torn write on POSIX) are theorems too.
    - Outbox: identifiers are unique and never reused, the byte budget holds, states are
      consistent, over every history of operations; making room removes only what may be
      removed; delivery is by priority and age; dropped telemetry is reported. The
      dispatcher acknowledges a message only for a response that names its attempt, keeps
      the invariant, and replays a stored attempt unchanged.
    - Process graph, tracker: their indexes agree with their maps after every call;
      ambiguous correlation is refused; closing, admission and snapshot passes do exactly
      what they should.
    - Correlation: a lookup or a TLS session is attributed exactly when one candidate
      satisfies the declarative condition, independent of order.
    - Windows broker: frames round-trip; what an endpoint's clients are sent, and who may be
      one, descends from its root processes; a theorem shows that the number of an exited
      root stays trusted.
    - Rules: the parser accepts exactly the grammar and refuses with a position; a loaded
      rule set is valid, and because of that the finding engine and the context rules never
      throw; fan-out, context rules, trust and degradation verdicts and periodic connections
      are exact against declarative conditions. Theorems also show two DNS rules that do not
      match on what is attached and an integer limit that is one too large.
    - Upgrades: only trusted addresses are asked, bodies are decoded exactly; a state that
      says [VERIFIED] names an artifact whose digest was checked, whatever fails, and what
      is stored is a prefix of what was written; a worker that returns has installed and
      started it, one that fails has left the old version in place, restored it or says so,
      and an unhealthy version is rolled back with its metadata. Theorems also show an
      instruction that blocks all others, a failed switch that leaves the agent stopped, and
      an interrupted activation that is never resumed.
    - Central rules: an update installs exactly the fetched bundle or leaves the rules as
      they were, whatever fails, the active rules can always be loaded unless an unnoticed
      flush failed, and one worker is launched for a wanted rule set; a theorem shows YARA
      content that an interrupted update makes unusable. Every finding is printed so that
      the JSON parser reads its fields back.
    - Reporting: transfer evidence is the peak of every counter and decides about large
      downloads; announcements of a finding keep the cooldown over any calls and restarts.
    - History: rows refer to rows that exist, over every sequence of operations; a verdict
      is read the same everywhere unless storing it was cut in two; evidence and
      environments are read back as they were stored, and theorems show what is lost or
      changes. Pruning always ends, at nine tenths of the budget, with nothing left to
      remove, or with the error of a statement, and, wherever it fails, thins out nothing it
      keeps, and gives up anomalous connections and unsent findings last.
    - Observation: whatever the observers report and whenever the loop is left, every
      connection is admitted, routed, closed and reported in the order of its automaton,
      none that ended is left unreported, and late TLS evidence has it reported again;
      buffers are bounded, and the polling loop ends in time. This is stated for a session
      whose storage maintenance has nothing to do ([maintenance_idle]): a maintenance that
      prunes can delete connections that are still observed ([active_connection_pruned]).
    - Stored findings: finding something again counts it and makes it pending exactly when
      the evidence is new; a finding is always about a process that is stored, as long as
      storing processes does not fail; a finding is marked as reported only after an
      acknowledgement; artifacts are scanned once, counted, and told once.

    ** Bounds, fuel and modelling choices

    - Loops are structural recursion. [remove_low_loop] has fuel equal to the number of
      rows: every round deletes one, and [remove_low_loop_spec] shows it never runs out.
      [drain_loop] recurses on the maximal number of messages, as the code's loop condition
      does. The JSON parser recurses with fuel one more than the number of bytes left, and
      [json_parse_exact] and [json_error_located] show that it never runs out. The scanners
      of [UpgradeText] have fuel one more than the text is long, which their input uses up,
      and [redirect_loop] makes the six attempts of the code. Pruning has fuel one more than
      the rows that can be removed, one of which goes in every round ([prune_bounded]). The
      loop of a session has the fuel it is given: its theorems hold after any number of
      rounds, and [session_ends] says how many are enough.
    - [unordered_map]s are [gmap]s, their iteration order that of [map_to_list]; multimaps
      are association lists. [ORDER BY ... LIMIT 1] picks the first row in insertion order
      among equals, which SQLite leaves open.
    - Strings stored by SQLite are cut at their first NUL ([c_str]), [length()] counts UTF-8
      characters, 64-bit values are stored signed.
    - Bytes that do not name an enumerator are kept ([EventTypeRaw] and the like), as the
      [static_cast] of the decoders does.
    - Files are replaced as on POSIX; on Windows a failed rename is tried again after
      removing the target. The files of the upgrade and of the rules are never synced: what
      a loss of power leaves of them is not modelled, only a process that is killed and a
      flush that fails.
    - SHA-256, the clock, random bytes, HTTP and process lookup are parameters.

    ** Not modelled

    Operating-system interfaces (netlink, procfs, eBPF, event tracing, named pipes,
    sockets), HTTP and TLS, the command line, YARA-X, and the
    upgrade of databases of older versions: they are input and output around the logic above.
    So are the Windows branch of the upgrade, the TLS connection of downloads and the HTTP
    request of progress reports; the Windows fallback for a failed rename and a loss of power
    are left out of the files that are replaced. *)

From stdpp Require Export base tactics numbers list strings gmap pretty.
From Stdlib Require Export ZArith Lia.

#[global] Open Scope Z_scope.
#[export] Set Warnings "-clear-no-such-hyp".

(** ** Exceptions

    Throwing C++ code is modelled by a sum of a value and the message of the
    [std::runtime_error] that leaves the function. *)
Inductive result (A : Type) : Type :=
| Ok (a : A)
| Throw (message : string).
Arguments Ok {A} a.
Arguments Throw {A} message.

Definition rbind {A B} (r : result A) (k : A -> result B) : result B :=
  match r with Ok a => k a | Throw m => Throw m end.

(** [throw_if c m] is the guard [if (c) throw std::runtime_error(m)]. *)
Definition throw_if (condition : bool) (message : string) : result unit :=
  if condition then Throw message else Ok tt.

Definition is_ok {A} (r : result A) : bool :=
  match r with Ok _ => true | Throw _ => false end.

Declare Scope neta_scope.
Delimit Scope neta_scope with neta.
Notation "'let?' x := c 'in' k" := (rbind c (fun x => k))
  (at level 10, x pattern, c at level 100, k at level 200) : neta_scope.
#[global] Open Scope neta_scope.

(** ** Machine integers

    An unsigned (signed) [w]-bit integer is a [Z] in the range below; the
    operations that can leave the range are written with their wrap-around. *)
Definition in_u (w : Z) (z : Z) : Prop := 0 <= z < 2 ^ w.
Definition in_s (w : Z) (z : Z) : Prop := - 2 ^ (w - 1) <= z < 2 ^ (w - 1).
Definition wrap_u (w : Z) (z : Z) : Z := z mod 2 ^ w.
Definition wrap_s (w : Z) (z : Z) : Z := (z + 2 ^ (w - 1)) mod 2 ^ w - 2 ^ (w - 1).
Definition u64_max : Z := 2 ^ 64 - 1.

#[global] Instance in_u_dec w z : Decision (in_u w z).
Proof. unfold in_u. apply _. Defined.
#[global] Instance in_s_dec w z : Decision (in_s w z).
Proof. unfold in_s. apply _. Defined.

Lemma wrap_u_in w z : 0 <= w -> in_u w (wrap_u w z).
Proof. intros. apply Z.mod_pos_bound. lia. Qed.

Lemma wrap_u_id w z : in_u w z -> wrap_u w z = z.
Proof. apply Z.mod_small. Qed.

Lemma wrap_s_id w z : 0 < w -> in_s w z -> wrap_s w z = z.
Proof.
  unfold in_s, wrap_s. intros Hw Hz.
  assert (E : 2 ^ w = 2 * 2 ^ (w - 1)).
  { rewrite <- Z.pow_succ_r by lia. f_equal. lia. }
  rewrite Z.mod_small; lia.
Qed.

Lemma wrap_s_wrap_u w z : 0 < w -> in_s w z -> wrap_s w (wrap_u w z) = z.
Proof.
  intros Hw Hz. rewrite <- (wrap_s_id w z Hw Hz) at 2.
  unfold wrap_s, wrap_u. by rewrite Zplus_mod_idemp_l.
Qed.

Lemma wrap_u_wrap_s z : in_u 64 z -> wrap_u 64 (wrap_s 64 z) = z.
Proof.
  intros Hz. unfold wrap_u, wrap_s. rewrite Zminus_mod_idemp_l, Z.add_simpl_r. by apply Z.mod_small.
Qed.

(** [std::to_string] on an integer. *)
Definition to_string (z : Z) : string := pretty z.

Lemma to_string_inj a b : to_string a = to_string b -> a = b.
Proof. apply (inj pretty). Qed.

(** ** Options *)

(** [o.value_or(d)] *)
Definition value_or {A} (o : option A) (d : A) : A := default d o.

(** An optional used as a condition: [o.has_value()]. *)
Definition has {A} (o : option A) : bool := match o with Some _ => true | None => false end.

(** ** Loops over a vector *)

(** A loop that counts the elements that pass a test and keeps the first of them. *)
Definition count_first {A} (p : A -> bool) (l : list A) : Z * option A :=
  fold_left (fun '(n, m) a => if p a then (n + 1, match m with Some _ => m | None => Some a end) else (n, m))
    l (0, None).

Definition passing {A} (p : A -> bool) (l : list A) : list A := filter (fun a => p a = true) l.

Lemma count_first_passing {A} (p : A -> bool) (l : list A) :
  count_first p l = (Z.of_nat (length (passing p l)), head (passing p l)).
Proof.
  unfold count_first, passing.
  enough (G : forall n m, fold_left (fun '(n, m) a => if p a then (n + 1, match m with Some _ => m | None => Some a end)
      else (n, m)) l (n, m) =
    (n + Z.of_nat (length (filter (fun a => p a = true) l)),
     match m with Some _ => m | None => head (filter (fun a => p a = true) l) end)).
  { by rewrite G. }
  induction l as [|a l IH]; intros n m; simpl; [rewrite Z.add_0_r; by destruct m|].
  destruct (p a) eqn:E.
  - rewrite filter_cons_True by done. rewrite IH. cbn [length head]. f_equal; [lia|by destruct m].
  - rewrite filter_cons_False by congruence. by rewrite IH.
Qed.

Lemma elem_of_passing {A} (p : A -> bool) (l : list A) a : a ∈ passing p l <-> a ∈ l /\ p a = true.
Proof. unfold passing. rewrite list_elem_of_filter. tauto. Qed.

#[global] Instance passing_perm {A} (p : A -> bool) : Proper (Permutation ==> Permutation) (passing p).
Proof. intros l l' Hp. by apply filter_Permutation. Qed.

Lemma passing_nil {A} (p : A -> bool) (l : list A) : passing p l = [] -> forall a, a ∈ l -> p a = false.
Proof.
  intros E a Ha. destruct (p a) eqn:Ep; [|done].
  assert (Hin : a ∈ passing p l) by by apply elem_of_passing. rewrite E in Hin. by apply not_elem_of_nil in Hin.
Qed.

Lemma passing_cons {A} (p : A -> bool) (l : list A) a r :
  passing p l = a :: r ->
  exists l1 l2, l = l1 ++ a :: l2 /\ p a = true /\ (forall b, b ∈ l1 -> p b = false) /\ passing p l2 = r.
Proof.
  unfold passing. induction l as [|x l IH]; intros E; [done|]. destruct (p x) eqn:Ex.
  - rewrite filter_cons_True in E by done. injection E as -> E. exists [], l. split_and!; [done..| |done].
    intros b Hb. by apply not_elem_of_nil in Hb.
  - rewrite filter_cons_False in E by congruence. destruct (IH E) as (l1 & l2 & -> & Ha & H1 & H2).
    exists (x :: l1), l2. split_and!; [done..| |done]. intros b [->|Hb]%elem_of_cons; auto.
Qed.

Lemma two_or_more n : (Z.of_nat (S (S n)) =? 0) = false /\ (Z.of_nat (S (S n)) =? 1) = false.
Proof. rewrite !Z.eqb_neq. lia. Qed.

(** A chain of guards [if (b) return false; ...]. *)
Lemma guard_true (b c : bool) : (if b then false else c) = true <-> b = false /\ c = true.
Proof. destruct b; naive_solver. Qed.

(** ** Automation *)

Create HintDb neta.

(** Split hypotheses, substitute equations between constructors, reduce
    [match]es on known values. *)
Ltac crush_step :=
  match goal with
  | H : Ok _ = Ok _ |- _ => injection H as H
  | H : Some _ = Some _ |- _ => injection H as H
  | H : Throw _ = Ok _ |- _ => discriminate H
  | H : Ok _ = Throw _ |- _ => discriminate H
  | H : ?x = _ |- _ => is_var x; subst x
  | H : _ = ?x |- _ => is_var x; subst x
  | H : context [match ?x with _ => _ end] |- _ => destruct x eqn:?
  | |- context [match ?x with _ => _ end] => destruct x eqn:?
  end.
Ltac crush := repeat (crush_step; simpl in *); try done; try congruence.

(** Turn the boolean tests of the code into propositions. *)
Ltac to_prop :=
  repeat match goal with
  | H : _ && _ = true |- _ => apply andb_true_iff in H as [? ?]
  | H : _ || _ = false |- _ => apply orb_false_iff in H as [? ?]
  | H : negb _ = true |- _ => apply negb_true_iff in H
  | H : negb _ = false |- _ => apply negb_false_iff in H
  | H : bool_decide _ = true |- _ => apply bool_decide_eq_true in H
  | H : bool_decide _ = false |- _ => apply bool_decide_eq_false in H
  | H : (_ =? _) = true |- _ => apply Z.eqb_eq in H
  | H : (_ =? _) = false |- _ => apply Z.eqb_neq in H
  | H : (_ <? _) = true |- _ => apply Z.ltb_lt in H
  | H : (_ <? _) = false |- _ => apply Z.ltb_ge in H
  | H : (_ <=? _) = true |- _ => apply Z.leb_le in H
  | H : (_ <=? _) = false |- _ => apply Z.leb_gt in H
  end.

Lemma rbind_ok {A B} (r : result A) (k : A -> result B) b :
  rbind r k = Ok b <-> exists a, r = Ok a /\ k a = Ok b.
Proof. destruct r; simpl; naive_solver. Qed.

Lemma throw_if_ok c m : throw_if c m = Ok tt <-> c = false.
Proof. destruct c; simpl; naive_solver. Qed.

(** Open every [let?] of a hypothesis that says the code returned normally. *)
Ltac ok_inv H :=
  repeat match type of H with
  | rbind _ _ = Ok _ =>
      let a := fresh "v" in let E := fresh "E" in
      apply rbind_ok in H as (a & E & H); try (destruct a; apply throw_if_ok in E)
  | (if ?c then Throw _ else _) = Ok _ => destruct c eqn:?; [discriminate H|]
  end; simpl in H; simplify_eq.
