(* ===== verification/Text.v ===== *)
(** The parts of the C and C++ standard library on character strings that the
    agent uses: character classes of the "C" locale, searching and slicing of
    [std::string], decimal printing and parsing ([std::to_string],
    [std::from_chars], [std::stoull]), with the print/parse round trips. *)

From Stdlib Require Export Ascii.
From stdpp Require Import sorting.
From S2P Require Import Prelude.

#[local] Arguments String.append !_ _ /.

(** ** Character classes *)

Definition code (c : ascii) : Z := Z.of_N (N_of_ascii c).

Definition isdigit (c : ascii) : bool := (48 <=? code c) && (code c <=? 57).
Definition isspace (c : ascii) : bool := ((9 <=? code c) && (code c <=? 13)) || (code c =? 32).
Definition isupper (c : ascii) : bool := (65 <=? code c) && (code c <=? 90).
Definition isxdigit (c : ascii) : bool :=
  isdigit c || ((65 <=? code c) && (code c <=? 70)) || ((97 <=? code c) && (code c <=? 102)).
Definition is_char (n : Z) (c : ascii) : bool := code c =? n.
Definition char_of (z : Z) : ascii := ascii_of_N (Z.to_N z).
Definition tolower (c : ascii) : ascii := if isupper c then char_of (code c + 32) else c.

(** ** Strings *)

Fixpoint string_all (p : ascii -> bool) (s : string) : bool :=
  match s with EmptyString => true | String c s' => p c && string_all p s' end.

Fixpoint string_map (f : ascii -> ascii) (s : string) : string :=
  match s with EmptyString => EmptyString | String c s' => String (f c) (string_map f s') end.

Fixpoint drop_while (p : ascii -> bool) (s : string) : string :=
  match s with
  | EmptyString => EmptyString
  | String c s' => if p c then drop_while p s' else s
  end.

Fixpoint take_while (p : ascii -> bool) (s : string) : string :=
  match s with
  | EmptyString => EmptyString
  | String c s' => if p c then String c (take_while p s') else EmptyString
  end.

(** What a function that takes [s.c_str()] sees: the characters before the first NUL. *)
Definition c_str (s : string) : string := take_while (fun c => negb (code c =? 0)) s.

(** [s.find(needle, from)] and [s.substr(pos, len)], [s.substr(pos)]. *)
Definition find_from (s needle : string) (from : nat) : option nat := String.index from needle s.
Definition substr (s : string) (pos len : nat) : string := String.substring pos len s.
Definition substr_from (s : string) (pos : nat) : string :=
  String.substring pos (String.length s - pos) s.
Definition starts_with (prefix s : string) : bool := String.prefix prefix s.

Lemma string_length_app a b : String.length (a +:+ b) = (String.length a + String.length b)%nat.
Proof. induction a; simpl; congruence. Qed.

Lemma string_app_assoc a b c : (a +:+ b) +:+ c = a +:+ (b +:+ c).
Proof. induction a; simpl; congruence. Qed.

Lemma string_app_nil_r a : a +:+ "" = a.
Proof. induction a; simpl; congruence. Qed.

Lemma string_app_inv_l a b c : a +:+ b = a +:+ c -> b = c.
Proof. induction a; simpl; naive_solver. Qed.

Lemma string_app_eq_inv a b c d :
  a +:+ b = c +:+ d -> String.length a = String.length c -> a = c /\ b = d.
Proof.
  revert c. induction a as [|x a IH]; intros [|y c]; simpl; try done.
  intros [= -> H] Hl. destruct (IH c H) as [-> ->]; [lia|done].
Qed.

Lemma starts_with_app p s : starts_with p (p +:+ s) = true.
Proof.
  unfold starts_with. induction p as [|c p IH]; simpl; [by destruct s|].
  by destruct (ascii_dec c c).
Qed.

Lemma starts_with_spec p s : starts_with p s = true <-> exists rest, s = p +:+ rest.
Proof.
  split; [|intros [rest ->]; apply starts_with_app].
  unfold starts_with. revert s. induction p as [|c p IH]; intros s; simpl; [intros _; by exists s|].
  destruct s as [|d s]; [discriminate|]. simpl. destruct (ascii_dec c d) as [->|]; [|discriminate].
  intros H. destruct (IH s H) as [rest ->]. by exists rest.
Qed.

Lemma substring_0_full s : String.substring 0 (String.length s) s = s.
Proof. induction s; simpl; congruence. Qed.

Lemma substring_0_app a b : String.substring 0 (String.length a) (a +:+ b) = a.
Proof. induction a; simpl; [by destruct b|congruence]. Qed.

Lemma substring_app_skip a b n :
  String.substring (String.length a) n (a +:+ b) = String.substring 0 n b.
Proof. induction a; simpl; [done|congruence]. Qed.

Lemma substr_mid a b c :
  substr (a +:+ (b +:+ c)) (String.length a) (String.length b) = b.
Proof. unfold substr. rewrite substring_app_skip. apply substring_0_app. Qed.

(** ** Searching *)

(** [absent needle text]: no occurrence of [needle] starts inside [text] when
    followed by [rest]. *)
Fixpoint absent (needle text rest : string) : bool :=
  match text with
  | EmptyString => true
  | String _ text' => negb (starts_with needle (text +:+ rest)) && absent needle text' rest
  end.

Lemma find_absent needle text rest :
  needle <> "" -> absent needle text (needle +:+ rest) = true ->
  find_from (text +:+ (needle +:+ rest)) needle 0 = Some (String.length text).
Proof.
  intros Hne. unfold find_from. induction text as [|c text IH].
  - intros _. pose proof (starts_with_app needle rest) as H. unfold starts_with in H.
    destruct needle as [|n needle]; [done|]. cbn [String.append String.index] in *. by rewrite H.
  - cbn [absent]. intros [H1 H2]%andb_true_iff. apply negb_true_iff in H1. unfold starts_with in H1.
    cbn [String.append String.index String.length] in *.
    rewrite H1. by rewrite (IH H2).
Qed.

(** Skipping a known prefix before searching. *)
Lemma find_from_skip prefix s needle :
  find_from (prefix +:+ s) needle (String.length prefix) =
  (fun n => (String.length prefix + n)%nat) <$> find_from s needle 0.
Proof.
  unfold find_from. induction prefix as [|c prefix IH].
  - cbn [String.append String.length]. by destruct (String.index 0 needle s).
  - cbn [String.append String.index String.length]. rewrite IH.
    by destruct (String.index 0 needle s).
Qed.

Lemma absent_char n text rest :
  string_all (fun c => negb (Ascii.eqb c n)) text = true ->
  absent (String n "") text rest = true.
Proof.
  induction text as [|c text IH]; [done|]. cbn [string_all absent].
  intros [H1 H2]%andb_true_iff. rewrite IH by done. rewrite andb_true_r.
  apply negb_true_iff in H1. apply Ascii.eqb_neq in H1.
  unfold starts_with. cbn [String.append String.prefix].
  destruct (ascii_dec n c); [congruence|done].
Qed.

(** ** Decimal numbers *)

Definition digit_value (c : ascii) : Z := code c - 48.

Fixpoint digits_value (acc : Z) (s : string) : Z :=
  match s with
  | EmptyString => acc
  | String c s' => digits_value (10 * acc + digit_value c) s'
  end.

Lemma pretty_N_char_digit x : (x < 10)%N ->
  isdigit (pretty_N_char x) = true /\ digit_value (pretty_N_char x) = Z.of_N x.
Proof.
  intros H. assert (x = 0 \/ x = 1 \/ x = 2 \/ x = 3 \/ x = 4 \/ x = 5 \/ x = 6 \/ x = 7 \/ x = 8 \/ x = 9)%N
    as Hx by lia. by repeat destruct Hx as [->|Hx]; [..|subst].
Qed.

Lemma pretty_N_go_digits x s :
  string_all isdigit (pretty_N_go x s) = string_all isdigit s /\
  digits_value 0 (pretty_N_go x s) = digits_value (Z.of_N x) s.
Proof.
  revert s. induction (N.lt_wf_0 x) as [x _ IH]; intros s.
  destruct (decide (x = 0)%N) as [->|Hx]; [by rewrite pretty_N_go_0|].
  rewrite pretty_N_go_step by lia.
  destruct (pretty_N_char_digit (x `mod` 10)) as [D1 D2]; [by apply N.mod_lt|].
  destruct (IH (x `div` 10)%N) with (s := String (pretty_N_char (x `mod` 10)) s) as [E1 E2];
    [by apply N.div_lt; lia|].
  rewrite E1, E2. cbn [string_all digits_value]. rewrite D1, D2. split; [done|]. f_equal.
  pose proof (N.div_mod x 10). lia.
Qed.

Lemma pretty_N_go_nonempty x s : (0 < x)%N \/ s <> "" -> pretty_N_go x s <> "".
Proof.
  revert s. induction (N.lt_wf_0 x) as [x _ IH]; intros s H.
  destruct (decide (x = 0)%N) as [->|Hx]; [rewrite pretty_N_go_0; naive_solver lia|].
  rewrite pretty_N_go_step by lia. apply IH; [by apply N.div_lt; lia|]. by right.
Qed.

(** Printing a non-negative integer gives a non-empty digit string that reads back. *)
Lemma to_string_digits z : 0 <= z ->
  string_all isdigit (to_string z) = true /\ to_string z <> "" /\ digits_value 0 (to_string z) = z.
Proof.
  intros Hz. destruct z as [|p|p]; [done| |lia].
  unfold to_string, pretty, pretty_Z, pretty, pretty_positive, pretty, pretty_N.
  rewrite decide_False by done. destruct (pretty_N_go_digits (Npos p) "") as [E1 E2].
  rewrite E1, E2. split_and!; [done| |done]. apply pretty_N_go_nonempty. left. lia.
Qed.

Lemma digits_value_app acc a b :
  digits_value acc (a +:+ b) = digits_value (digits_value acc a) b.
Proof. revert acc. induction a; intros acc; cbn [String.append digits_value]; [done|apply IHa]. Qed.

Lemma digits_value_lower acc s :
  0 <= acc -> string_all isdigit s = true -> acc <= digits_value acc s.
Proof.
  revert acc. induction s as [|c s IH]; intros acc Hacc; cbn [string_all digits_value]; [lia|].
  intros [Hc Hs]%andb_true_iff. unfold isdigit in Hc. to_prop. unfold digit_value.
  etrans; [|apply IH; [lia|done]]. lia.
Qed.

Lemma take_while_all p s rest :
  string_all p s = true -> take_while p (s +:+ rest) = s +:+ take_while p rest.
Proof.
  induction s as [|c s IH]; [done|]. cbn [string_all String.append take_while].
  intros [H1 H2]%andb_true_iff. by rewrite H1, IH.
Qed.

Lemma take_while_string_all p s : string_all p (take_while p s) = true.
Proof. induction s as [|c s IH]; [done|]. cbn. destruct (p c) eqn:E; [cbn; by rewrite E|done]. Qed.

(** [std::stoull(s)]: leading white space, an optional sign, the longest run of
    digits; no conversion and out-of-range values throw, what follows the digits
    is ignored, and a minus sign negates modulo [2^64]. *)
Definition stoull (s : string) : result Z :=
  let s := drop_while isspace s in
  let '(negative, s) :=
    match s with
    | String c s' => if code c =? 45 then (true, s') else if code c =? 43 then (false, s') else (false, s)
    | EmptyString => (false, s)
    end in
  let digits := take_while isdigit s in
  if bool_decide (digits = "") then Throw "stoull"
  else
    let value := digits_value 0 digits in
    if u64_max <? value then Throw "stoull"
    else Ok (if negative : bool then wrap_u 64 (- value) else value).

Lemma isdigit_not_space c : isdigit c = true -> isspace c = false.
Proof. unfold isdigit, isspace. intros. to_prop. apply orb_false_iff. split; [apply andb_false_iff; right; apply Z.leb_gt|apply Z.eqb_neq]; lia. Qed.

Lemma stoull_to_string z : in_u 64 z -> stoull (to_string z) = Ok z.
Proof.
  intros Hz. destruct (to_string_digits z) as (D1 & D2 & D3); [destruct Hz; lia|].
  unfold stoull. destruct (to_string z) as [|c s] eqn:E; [done|].
  pose proof D1 as [Hc _]%andb_true_iff.
  cbn [drop_while]. rewrite (isdigit_not_space c Hc).
  assert (Hd : 48 <= code c) by (unfold isdigit in Hc; to_prop; lia).
  rewrite (proj2 (Z.eqb_neq (code c) 45)), (proj2 (Z.eqb_neq (code c) 43)) by lia.
  replace (take_while isdigit (String c s)) with (String c s).
  - rewrite bool_decide_eq_false_2 by done. rewrite D3.
    rewrite (proj2 (Z.ltb_ge _ _)); [done|]. unfold in_u, u64_max in *. lia.
  - rewrite <- (string_app_nil_r (String c s)) at 2. rewrite take_while_all by done. cbn.
    by rewrite string_app_nil_r.
Qed.

Lemma string_all_app p a b : string_all p (a +:+ b) = string_all p a && string_all p b.
Proof.
  induction a as [|c a IH]; [done|]. cbn [String.append string_all]. rewrite IH. apply andb_assoc.
Qed.

Lemma string_all_impl p q s :
  (forall c, p c = true -> q c = true) -> string_all p s = true -> string_all q s = true.
Proof.
  intros Hpq. induction s as [|c s IH]; [done|]. cbn [string_all].
  intros [H1 H2]%andb_true_iff. by rewrite Hpq, IH.
Qed.

(** A needle whose first character does not occur in a text is absent from it. *)
Lemma absent_first n needle text rest :
  string_all (fun c => negb (Ascii.eqb c n)) text = true ->
  absent (String n needle) text rest = true.
Proof.
  induction text as [|c text IH]; [done|]. cbn [string_all absent].
  intros [H1 H2]%andb_true_iff. rewrite IH by done. rewrite andb_true_r.
  apply negb_true_iff in H1. apply Ascii.eqb_neq in H1.
  unfold starts_with. cbn [String.append String.prefix].
  destruct (ascii_dec n c); [congruence|done].
Qed.

Lemma find_first_free n text :
  string_all (fun c => negb (Ascii.eqb c n)) text = true -> find_from text (String n "") 0 = None.
Proof.
  unfold find_from. induction text as [|c text IH]; [done|]. cbn [string_all String.index].
  intros [H1 H2]%andb_true_iff. rewrite (IH H2). apply negb_true_iff in H1. apply Ascii.eqb_neq in H1.
  cbn [String.prefix]. destruct (ascii_dec n c); [congruence|done].
Qed.

(** The first [n] characters of a string are a prefix of it. *)
Lemma substr_prefix s n : exists rest, s = substr s 0 n +:+ rest.
Proof.
  unfold substr. revert n. induction s as [|c s IH]; intros [|n]; cbn; [by exists ""..|by eexists|].
  destruct (IH n) as [rest E]. exists rest. cbn. by rewrite <- E.
Qed.

(** The number of digits of a printed number. *)
Lemma pretty_N_go_length n x s :
  (x < 10 ^ N.of_nat n)%N -> (String.length (pretty_N_go x s) <= n + String.length s)%nat.
Proof.
  revert x s. induction n as [|n IH]; intros x s Hx.
  - replace x with 0%N by (simpl in Hx; lia). by rewrite pretty_N_go_0.
  - destruct (decide (x = 0)%N) as [->|]; [rewrite pretty_N_go_0; lia|].
    rewrite pretty_N_go_step by lia. etrans; [apply IH|cbn [String.length]; lia].
    apply N.Div0.div_lt_upper_bound. rewrite <- N.pow_succ_r'.
    by replace (N.succ (N.of_nat n)) with (N.of_nat (S n)) by lia.
Qed.

Lemma to_string_length z : in_u 64 z -> (String.length (to_string z) <= 20)%nat.
Proof.
  intros [H1 H2]. destruct z as [|p|p]; [cbn; lia| |lia].
  unfold to_string, pretty, pretty_Z, pretty, pretty_positive, pretty, pretty_N.
  rewrite decide_False by done. etrans; [apply (pretty_N_go_length 20)|cbn; lia].
  apply N2Z.inj_lt. etrans; [exact H2|]. reflexivity.
Qed.

(** [s.back()] and [s.pop_back()]. *)
Definition back (s : string) : option ascii := String.get (String.length s - 1) s.
Definition pop_back (s : string) : string := String.substring 0 (String.length s - 1) s.

(** [a / b] of [std::filesystem::path]. *)
Definition path_join (a b : string) : string :=
  if starts_with "/" b then b
  else match back a with
       | None => b
       | Some c => if code c =? 47 then a +:+ b else a +:+ "/" +:+ b
       end.

Lemma back_snoc s c : back (s +:+ String c "") = Some c.
Proof.
  unfold back. rewrite string_length_app. cbn [String.length].
  replace (String.length s + 1 - 1)%nat with (String.length s) by lia.
  induction s as [|d s IH]; [done|]. exact IH.
Qed.

Lemma pop_back_snoc s c : pop_back (s +:+ String c "") = s.
Proof.
  unfold pop_back. rewrite string_length_app. cbn [String.length].
  replace (String.length s + 1 - 1)%nat with (String.length s) by lia. apply substring_0_app.
Qed.

Lemma back_all p s c : string_all p s = true -> back s = Some c -> p c = true.
Proof.
  unfold back. induction s as [|d s IH]; [done|]. cbn [string_all String.length].
  intros [H1 H2]%andb_true_iff. replace (S (String.length s) - 1)%nat with (String.length s) by lia.
  destruct s as [|e s]; [cbn; by intros [= <-]|]. cbn [String.length String.get] in *.
  replace (S (String.length s) - 1)%nat with (String.length s) in IH by lia. by apply IH.
Qed.

(** [std::from_chars] to a [std::uint64_t] on a whole string of digits. *)
Definition from_chars_u64 (digits : string) : option Z :=
  let value := digits_value 0 digits in
  if bool_decide (digits = "") || negb (string_all isdigit digits) || (u64_max <? value) then None
  else Some value.

Lemma from_chars_to_string z : in_u 64 z -> from_chars_u64 (to_string z) = Some z.
Proof.
  intros Hz. destruct (to_string_digits z) as (D1 & D2 & D3); [destruct Hz; lia|].
  unfold from_chars_u64. rewrite bool_decide_eq_false_2 by done. rewrite D1, D3. cbn.
  rewrite (proj2 (Z.ltb_ge _ _)); [done|]. unfold in_u, u64_max in *. lia.
Qed.

Lemma from_chars_range s z : from_chars_u64 s = Some z -> in_u 64 z.
Proof.
  unfold from_chars_u64. intros H. destruct (_ || _) eqn:E; [done|]. injection H as <-. to_prop.
  pose proof (digits_value_lower 0 s ltac:(lia) ltac:(done)). unfold in_u, u64_max in *. lia.
Qed.

Lemma substr_length s n : String.length (substr s 0 n) = Nat.min n (String.length s).
Proof.
  unfold substr. revert n. induction s as [|c s IH]; intros [|n]; cbn; [done..|]. by rewrite IH.
Qed.

(** ** Sorted strings *)

(** [std::sort] of strings, whose order is that of their bytes. *)
Definition sort_strings (l : list string) : list string := merge_sort String.le l.

Lemma sort_strings_perm l l' : l ≡ₚ l' -> sort_strings l = sort_strings l'.
Proof.
  intros Hp. apply (Sorted_unique String.le); [apply Sorted_merge_sort, _..|].
  unfold sort_strings. by rewrite !merge_sort_Permutation.
Qed.

Lemma sort_strings_inv l l' : sort_strings l = sort_strings l' -> l ≡ₚ l'.
Proof.
  intros E. rewrite <- (merge_sort_Permutation String.le l), <- (merge_sort_Permutation String.le l').
  unfold sort_strings in E. by rewrite E.
Qed.
