(* ===== verification/StringMap.v ===== *)
(** [std::map<std::string, V>]: an association list in the strict order of its
    keys, which is the order of iteration, with [emplace], [find], the node of an
    iterator loop, and [std::set<std::string>] as the map to [unit]. *)

From Stdlib Require Import Sorted.
From stdpp Require Import sorting.
From S2P Require Import Prelude Text.

(** ** Order of strings *)

Definition string_lt (a b : string) : Prop := String.compare a b = Lt.

Lemma string_compare_refl a : String.compare a a = Eq.
Proof. induction a as [|c a IH]; [done|]. cbn. unfold Ascii.compare. by rewrite N.compare_refl. Qed.

Lemma string_lt_irrefl a : ~ string_lt a a.
Proof. unfold string_lt. by rewrite string_compare_refl. Qed.

Lemma ascii_compare_trans a b c : Ascii.compare a b = Lt -> Ascii.compare b c = Lt -> Ascii.compare a c = Lt.
Proof. unfold Ascii.compare. rewrite !N.compare_lt_iff. lia. Qed.

#[global] Instance string_lt_trans : Transitive string_lt.
Proof.
  intros a. unfold string_lt. induction a as [|x a IH]; intros [|y b] [|z c]; simpl; try done.
  destruct (Ascii.compare x y) eqn:E1; [| |done]; destruct (Ascii.compare y z) eqn:E2; try done.
  - apply Ascii.compare_eq_iff in E1 as ->. rewrite E2. apply IH.
  - apply Ascii.compare_eq_iff in E1 as ->. by rewrite E2.
  - apply Ascii.compare_eq_iff in E2 as ->. by rewrite E1.
  - by rewrite (ascii_compare_trans _ _ _ E1 E2).
Qed.

Lemma string_compare_gt a b : String.compare a b = Gt -> string_lt b a.
Proof. unfold string_lt. rewrite String.compare_antisym. by destruct (String.compare b a). Qed.

(** ** Maps *)

Section map.
Context {V : Type}.
Notation smap := (list (string * V)).

(** [m.find(key)] *)
Fixpoint map_find (m : smap) (key : string) : option V :=
  match m with
  | [] => None
  | (k, v) :: m' => if bool_decide (k = key) then Some v else map_find m' key
  end.

(** [m.emplace(key, value)]: [None] when the key is there. *)
Fixpoint map_emplace (m : smap) (key : string) (value : V) : option smap :=
  match m with
  | [] => Some [(key, value)]
  | (k, v) :: m' =>
      match String.compare key k with
      | Lt => Some ((key, value) :: m)
      | Eq => None
      | Gt => cons (k, v) <$> map_emplace m' key value
      end
  end.

Definition keys_sorted (m : smap) : Prop := StronglySorted string_lt (map fst m).

Lemma map_find_none m key : map_find m key = None <-> key ∉ map fst m.
Proof.
  induction m as [|[k v] m IH]; cbn; [by split; [set_solver|]|].
  destruct (bool_decide_reflect (k = key)) as [->|Hk]; [set_solver|]. rewrite IH. set_solver.
Qed.

Lemma map_find_elem m key v : keys_sorted m -> map_find m key = Some v <-> (key, v) ∈ m.
Proof.
  unfold keys_sorted. induction m as [|[k w] m IH]; cbn; intros Hs; [set_solver|].
  inversion Hs as [|? ? Hs' Hall]; subst.
  destruct (bool_decide_reflect (k = key)) as [->|Hk].
  - rewrite elem_of_cons. split; [intros [= ->]; by left|]. intros [[= ->]|Hin]; [done|].
    exfalso. apply (string_lt_irrefl key). rewrite Forall_forall in Hall. apply Hall.
    by apply (list_elem_of_fmap_2 fst) in Hin.
  - rewrite IH, elem_of_cons by done. naive_solver.
Qed.

(** Insertion keeps the order, adds the one binding and refuses a key that is bound. *)
Lemma map_emplace_spec m key value :
  keys_sorted m ->
  match map_emplace m key value with
  | Some m' => keys_sorted m' /\ map_find m key = None /\ m' ≡ₚ (key, value) :: m
  | None => is_Some (map_find m key)
  end.
Proof.
  unfold keys_sorted. induction m as [|[k v] m IH]; cbn; intros Hs.
  { split_and!; [by repeat constructor|done|done]. }
  inversion Hs as [|? ? Hs' Hall]; subst. specialize (IH Hs').
  destruct (String.compare key k) eqn:E.
  - apply String.compare_eq_iff in E as ->. by rewrite bool_decide_eq_true_2.
  - assert (Hne : k <> key) by (intros ->; by apply (string_lt_irrefl key)).
    rewrite bool_decide_eq_false_2 by done. cbn. split_and!; [|apply map_find_none|done].
    + constructor; [done|]. constructor; [done|]. eapply Forall_impl; [exact Hall|].
      intros x Hx. by etrans.
    + intros Hin. apply (string_lt_irrefl key). rewrite Forall_forall in Hall.
      etrans; [exact E|]. by apply Hall.
  - apply string_compare_gt in E.
    assert (Hne : k <> key) by (intros ->; by apply (string_lt_irrefl key)).
    rewrite bool_decide_eq_false_2 by done.
    destruct (map_emplace m key value) as [m'|] eqn:Em; cbn; [|done].
    destruct IH as (I1 & I2 & I3). split_and!; [|done|].
    + constructor; [done|]. rewrite I3. cbn. by constructor.
    + rewrite I3. constructor.
Qed.

(** The values of the bindings, under a function that can throw, in key order. *)
Definition map_iter (f : string -> V -> result unit) (m : smap) : result unit :=
  fold_left (fun r '(k, v) => let? _ := r in f k v) m (Ok tt).

End map.

(** Two sorted maps with the same bindings are the same list. *)
Lemma keys_sorted_unique {V} (m m' : list (string * V)) : keys_sorted m -> keys_sorted m' -> m ≡ₚ m' -> m = m'.
Proof.
  unfold keys_sorted. revert m'. induction m as [|[k v] m IH]; intros m' H1 H2 Hp.
  { by apply Permutation_nil_l in Hp as ->. }
  destruct m' as [|[k' v'] m']; [by apply Permutation_nil_r in Hp|].
  assert (E : (k, v) = (k', v')).
  { assert (Hin : (k, v) ∈ (k', v') :: m') by (rewrite <- Hp; set_solver).
    assert (Hin' : (k', v') ∈ (k, v) :: m) by (rewrite Hp; set_solver).
    apply elem_of_cons in Hin as [?|Hin]; [done|]. apply elem_of_cons in Hin' as [?|Hin']; [done|].
    exfalso. apply (string_lt_irrefl k).
    cbn in H1, H2. inversion H1 as [|? ? _ A1]; inversion H2 as [|? ? _ A2]; subst.
    rewrite Forall_forall in A1, A2.
    etrans; [apply A1; by apply (list_elem_of_fmap_2 fst) in Hin'|].
    apply A2. by apply (list_elem_of_fmap_2 fst) in Hin. }
  injection E as -> ->. f_equal. cbn in H1, H2. inversion H1; inversion H2; subst.
  apply IH; [done..|]. by apply Permutation_cons_inv in Hp.
Qed.
