(* ===== verification/Doubles.v ===== *)
(** Floating-point numbers: the IEEE double and [long double] operations the agent
    uses, on the Standard Library's [spec_float], with [std::strtod] on decimal
    text, [std::floor], the conversion to [std::uint64_t] and the stream output
    with 17 significant digits.

    A conversion of a value that does not fit the integer type is undefined
    behaviour: what the compiled program yields there is the parameter
    [cast_undefined].  The format of [long double] depends on the platform (64-bit
    significand on Linux, a double on Windows): it is the parameter [LongDouble]. *)

From Stdlib Require Export SpecFloat.
From S2P Require Import Prelude Text.

#[local] Arguments String.append !_ _ /.

(** ** Doubles *)

Definition dprec : Z := 53.
Definition demax : Z := 1024.
Definition double_of_Z (z : Z) : spec_float := binary_normalize dprec demax z 0 false.
Definition double_div (a b : spec_float) : spec_float := SFdiv dprec demax a b.
Definition double_mul (a b : spec_float) : spec_float := SFmul dprec demax a b.
Definition double_add (a b : spec_float) : spec_float := SFadd dprec demax a b.
(** [a >= b], [a > b], [a < b], [a <= b], [a == b]; all false on a NaN. *)
Definition double_geb (a b : spec_float) : bool := SFleb b a.
Definition double_gtb (a b : spec_float) : bool := SFltb b a.
Definition double_ltb (a b : spec_float) : bool := SFltb a b.
Definition double_leb (a b : spec_float) : bool := SFleb a b.
Definition double_eqb (a b : spec_float) : bool := SFeqb a b.

Definition isfinite (d : spec_float) : bool :=
  match d with S754_zero _ | S754_finite _ _ _ => true | _ => false end.

(** [static_cast] of an integer to [long double], and the arithmetic on it. *)
Class LongDouble := { ld_prec : Z; ld_emax : Z }.
Definition ld_of_Z `{LongDouble} (z : Z) : spec_float := binary_normalize ld_prec ld_emax z 0 false.
Definition ld_of_double `{LongDouble} (d : spec_float) : spec_float :=
  match d with
  | S754_finite s m e => binary_normalize ld_prec ld_emax (if s then Zneg m else Zpos m) e s
  | _ => d
  end.
Definition ld_div `{LongDouble} (a b : spec_float) : spec_float := SFdiv ld_prec ld_emax a b.
Definition ld_mul `{LongDouble} (a b : spec_float) : spec_float := SFmul ld_prec ld_emax a b.

(** The two formats in use: the x87 extended format and the double. *)
Definition long_double_x87 : LongDouble := {| ld_prec := 64; ld_emax := 16384 |}.
Definition long_double_msvc : LongDouble := {| ld_prec := dprec; ld_emax := demax |}.

(** ** Integers *)

(** The integer part, toward zero, and the greatest integer below. *)
Definition trunc_Z (d : spec_float) : Z :=
  match d with
  | S754_finite s m e =>
      let q := if 0 <=? e then Zpos m * 2 ^ e else Zpos m / 2 ^ (- e) in
      if s then - q else q
  | _ => 0
  end.

(** [std::floor] *)
Definition double_floor (d : spec_float) : spec_float :=
  match d with
  | S754_finite s m e =>
      if 0 <=? e then d
      else binary_normalize dprec demax ((if s then Zneg m else Zpos m) / 2 ^ (- e)) 0 s
  | _ => d
  end.

(** [static_cast<std::uint64_t>(d)] *)
Class CastUndefined := cast_undefined : spec_float -> Z.
Definition cast_u64 `{CastUndefined} (d : spec_float) : Z :=
  if isfinite d && bool_decide (in_u 64 (trunc_Z d)) then trunc_Z d else cast_undefined d.

(** The value a double stands for, as a fraction [(n, d)] with [d > 0]. *)
Definition double_fraction (d : spec_float) : Z * Z :=
  match d with
  | S754_finite s m e =>
      let n := if s then Zneg m else Zpos m in
      if 0 <=? e then (n * 2 ^ e, 1) else (n, 2 ^ (- e))
  | _ => (0, 1)
  end.

(** ** Decimal text *)

(** The double nearest to [(-1)^s * m * 10^e10]. *)
Definition decimal_value (s : bool) (m e10 : Z) : spec_float :=
  if m =? 0 then S754_zero s
  else if 0 <=? e10 then
    binary_normalize dprec demax ((if s then -1 else 1) * (m * 10 ^ e10)) 0 s
  else SFdiv dprec demax (S754_finite s (Z.to_pos m) 0) (S754_finite false (Z.to_pos (10 ^ (- e10))) 0).


(** [std::strtod] on decimal text ("C" locale): an optional sign, digits with an
    optional fraction, an optional exponent; the number and what follows it.  No
    digits: no conversion. *)
Definition strtod_exponent (s : string) : Z * string :=
  match s with
  | String c s1 =>
      if is_char 101 c || is_char 69 c then
        let '(negative, s2) :=
          match s1 with
          | String d s2 => if is_char 45 d then (true, s2) else if is_char 43 d then (false, s2) else (false, s1)
          | EmptyString => (false, s1)
          end in
        let digits := take_while isdigit s2 in
        if bool_decide (digits = "") then (0, s)
        else ((if negative : bool then - digits_value 0 digits else digits_value 0 digits), drop_while isdigit s2)
      else (0, s)
  | EmptyString => (0, s)
  end.

Definition strtod_fraction (s : string) : string * string :=
  match s with
  | String c s1 => if is_char 46 c then (take_while isdigit s1, drop_while isdigit s1) else ("", s)
  | EmptyString => ("", s)
  end.

Definition strtod (text : string) : option spec_float * string :=
  let '(negative, s) :=
    match text with
    | String c s => if is_char 45 c then (true, s) else if is_char 43 c then (false, s) else (false, text)
    | EmptyString => (false, text)
    end in
  let int := take_while isdigit s in
  let '(frac, s) := strtod_fraction (drop_while isdigit s) in
  if bool_decide (int +:+ frac = "") then (None, text)
  else
    let '(exponent, s) := strtod_exponent s in
    (Some (decimal_value negative (digits_value 0 (int +:+ frac))
             (exponent - Z.of_nat (String.length frac))), s).

(** [out << std::setprecision(p) << value]: the shorter of the fixed and the
    scientific notation with [p] significant digits, without trailing zeros. *)
Definition decimal_exponent (num den : Z) : Z :=
  let x := Z.of_nat (String.length (to_string num)) - Z.of_nat (String.length (to_string den)) in
  let at_least := if 0 <=? x then den * 10 ^ x <=? num else den <=? num * 10 ^ (- x) in
  if at_least then x else x - 1.

Definition round_half_even (num den : Z) : Z :=
  let q := num / den in let r := num mod den in
  if (2 * r <? den) || ((2 * r =? den) && Z.even q) then q else q + 1.

Definition scale10 (num den k : Z) : Z * Z := if 0 <=? k then (num * 10 ^ k, den) else (num, den * 10 ^ (- k)).

Fixpoint pad_zeros (n : nat) (s : string) : string :=
  match n with O => s | S n => String (char_of 48) (pad_zeros n s) end.

Definition strip_zeros (s : string) : string :=
  String.rev (drop_while (is_char 48) (String.rev s)).

Definition with_fraction (int frac : string) : string :=
  let frac := strip_zeros frac in if bool_decide (frac = "") then int else int +:+ "." +:+ frac.

Definition general_text (precision : Z) (d : spec_float) : string :=
  match d with
  | S754_nan => "nan"
  | S754_infinity s => (if s then "-" else "") +:+ "inf"
  | S754_zero s => (if s then "-" else "") +:+ "0"
  | S754_finite s m e =>
      let '(num, den) := double_fraction (S754_finite false m e) in
      let x := decimal_exponent num den in
      let '(n, d) := scale10 num den (precision - 1 - x) in
      let r := round_half_even n d in
      let '(digits, x) := if 10 ^ precision <=? r then (to_string (r / 10), x + 1) else (to_string r, x) in
      let body :=
        if (x <? -4) || (precision <=? x) then
          let e := to_string (Z.abs x) in
          with_fraction (substr digits 0 1) (substr_from digits 1) +:+ "e" +:+
            (if x <? 0 then "-" else "+") +:+ (if (String.length e <? 2)%nat then "0" +:+ e else e)
        else if x <? 0 then with_fraction "0" (pad_zeros (Z.to_nat (- x - 1)) digits)
        else with_fraction (substr digits 0 (Z.to_nat (x + 1))) (substr_from digits (Z.to_nat (x + 1))) in
      (if s then "-" else "") +:+ body
  end.

Definition number_text : spec_float -> string := general_text 17.

(** [out << std::fixed << std::setprecision(p) << value], and [std::to_string(value)] with six
    digits. *)
Definition fixed_text (p : nat) (d : spec_float) : string :=
  match d with
  | S754_nan => "nan"
  | S754_infinity s => (if s then "-" else "") +:+ "inf"
  | S754_zero s => (if s then "-" else "") +:+ "0." +:+ pad_zeros p ""
  | S754_finite s m e =>
      let '(num, den) := double_fraction (S754_finite false m e) in
      let digits := to_string (round_half_even (num * 10 ^ Z.of_nat p) den) in
      let digits := pad_zeros (S p - String.length digits) digits in
      let cut := (String.length digits - p)%nat in
      (if s then "-" else "") +:+ substr digits 0 cut +:+ "." +:+ substr_from digits cut
  end.

Example fixed_text_examples :
  map (fun t => fixed_text 2 (default S754_nan (strtod t).1)) ["1"; "0.9"; "0.7"; "0.004"; "0.125"; "12.345"] =
    ["1.00"; "0.90"; "0.70"; "0.00"; "0.12"; "12.35"] /\
  map (fun t => general_text 6 (default S754_nan (strtod t).1)) ["1"; "0.9"; "0.857142857"; "1234567"] = ["1"; "0.9"; "0.857143"; "1.23457e+06"].
Proof. vm_compute. split; reflexivity. Qed.

(** ** Ranges *)

Definition is_double (d : spec_float) : Prop := valid_binary dprec demax d = true.

Lemma digits2_bounds m : 2 ^ (Zpos (digits2_pos m) - 1) <= Zpos m < 2 ^ Zpos (digits2_pos m).
Proof.
  induction m as [m IH|m IH|]; cbn [digits2_pos]; [| |done].
  all: rewrite Pos2Z.inj_succ; replace (Z.succ (Zpos (digits2_pos m)) - 1) with (Zpos (digits2_pos m)) by lia.
  all: rewrite Z.pow_succ_r by lia.
  all: replace (2 ^ Zpos (digits2_pos m)) with (2 * 2 ^ (Zpos (digits2_pos m) - 1)) in *
         by (rewrite <- Z.pow_succ_r by lia; f_equal; lia).
  all: lia.
Qed.

Lemma canonical_digits s m e :
  is_double (S754_finite s m e) -> Z.max (Zpos (digits2_pos m) + e - 53) (-1074) = e.
Proof.
  unfold is_double. cbn. unfold bounded. intros [H _]%andb_true_iff. unfold canonical_mantissa in H.
  apply Zeq_is_eq_bool in H. unfold fexp, emin, dprec, demax in H. lia.
Qed.

(** A finite positive double that is an integer and is not above the double nearest
    to the largest [std::uint64_t] is in range, or is [2^64] itself. *)
Lemma double_u64_range v :
  is_double v -> isfinite v = true -> double_leb v (double_of_Z 0) = false ->
  double_eqb (double_floor v) v = true -> double_gtb v (double_of_Z u64_max) = false ->
  0 < trunc_Z v < 2 ^ 64 \/ v = double_of_Z (2 ^ 64).
Proof.
  intros Hv Hf H0 Hfl Hmax. destruct v as [s|s| |s m e]; try done.
  destruct s; [done|]. pose proof (canonical_digits _ _ _ Hv) as Hc. pose proof (digits2_bounds m) as Hd.
  change (double_of_Z u64_max) with (S754_finite false 4503599627370496 12) in Hmax.
  change (double_of_Z (2 ^ 64)) with (S754_finite false 4503599627370496 12).
  assert (Hle : e < 12 \/ e = 12 /\ Zpos m <= 4503599627370496).
  { unfold double_gtb, SFltb in Hmax. cbn [SFcompare] in Hmax. destruct (12 ?= e) eqn:E.
    - apply Z.compare_eq in E. right. split; [lia|].
      change (Pos.compare_cont Eq 4503599627370496 m) with (4503599627370496 ?= m)%positive in Hmax.
      destruct (4503599627370496 ?= m)%positive eqn:Em; [apply Pos.compare_eq in Em; by rewrite <- Em|discriminate Hmax|].
      apply Pos.compare_gt_iff in Em. by apply Z.lt_le_incl.
    - discriminate Hmax.
    - apply Z.compare_gt_iff in E. by left. }
  destruct (Z.eq_dec e 12) as [->|Hne].
  { right. assert (Hdg : Zpos (digits2_pos m) = 53) by lia. rewrite Hdg in Hd. cbn in Hd.
    destruct Hle as [?|[_ Hle]]; [lia|]. f_equal. lia. }
  left. assert (He : e < 12) by lia. assert (Hdg : Zpos (digits2_pos m) <= 53) by lia.
  assert (Hm : Zpos m < 2 ^ 53).
  { eapply Z.lt_le_trans; [apply Hd|]. apply Z.pow_le_mono_r; lia. }
  unfold trunc_Z, double_floor in *. destruct (0 <=? e) eqn:Ee; to_prop.
  - assert (1 <= 2 ^ e <= 2 ^ 11) by (split; [apply (Z.pow_le_mono_r 2 0); lia|apply Z.pow_le_mono_r; lia]).
    change (2 ^ 64) with (2 ^ 53 * 2 ^ 11). nia.
  - assert (Hp : 0 < 2 ^ (- e)) by (apply Z.pow_pos_nonneg; lia).
    split.
    + destruct (Z.eq_dec (Zpos m / 2 ^ (- e)) 0) as [Ez|Hnz]; [by rewrite Ez in Hfl|].
      pose proof (Z.div_pos (Zpos m) (2 ^ (- e))). lia.
    + apply Z.div_lt_upper_bound; [done|]. change (2 ^ 64) with (2 ^ 53 * 2 ^ 11). nia.
Qed.

(** ** Exact products *)

Lemma digits2_unique m k : 2 ^ (k - 1) <= Zpos m < 2 ^ k -> Zpos (digits2_pos m) = k.
Proof.
  intros [H1 H2]. pose proof (digits2_bounds m) as [H3 H4].
  assert (0 < k) by (destruct (Z.lt_ge_cases 0 k); [done|]; rewrite (Z.pow_neg_r 2 (k - 1)) in H1 by lia;
    destruct (Z.eq_dec k 0) as [->|]; [cbn in H2; lia|rewrite Z.pow_neg_r in H2 by lia; lia]).
  destruct (Z.lt_trichotomy (Zpos (digits2_pos m)) k) as [Hlt|[Heq|Hgt]]; [exfalso|done|exfalso].
  - assert (2 ^ Zpos (digits2_pos m) <= 2 ^ (k - 1)) by (apply Z.pow_le_mono_r; lia). lia.
  - assert (2 ^ k <= 2 ^ (Zpos (digits2_pos m) - 1)) by (apply Z.pow_le_mono_r; lia). lia.
Qed.

Definition exact_record (m : Z) : shr_record := {| shr_m := m; shr_r := false; shr_s := false |}.

Lemma shr_1_double x : 0 < x -> shr_1 (exact_record (2 * x)) = exact_record x.
Proof. by destruct x. Qed.

Lemma iter_shr_exact p x : 0 < x -> SpecFloat.iter_pos shr_1 p (exact_record (x * 2 ^ Zpos p)) = exact_record x.
Proof.
  revert x. induction p as [p IH|p IH|]; intros x Hx; cbn [SpecFloat.iter_pos].
  - assert (0 < 2 ^ Zpos p) by (apply Z.pow_pos_nonneg; lia).
    replace (x * 2 ^ Zpos p~1) with (2 * (x * 2 ^ Zpos p * 2 ^ Zpos p)).
    + rewrite shr_1_double, !IH by nia. done.
    + rewrite (Pos2Z.inj_xI p), Z.pow_add_r, Z.pow_twice_r, Z.pow_1_r by lia. ring.
  - assert (0 < 2 ^ Zpos p) by (apply Z.pow_pos_nonneg; lia).
    replace (x * 2 ^ Zpos p~0) with (x * 2 ^ Zpos p * 2 ^ Zpos p).
    + by rewrite !IH by nia.
    + rewrite (Pos2Z.inj_xO p), Z.pow_twice_r. ring.
  - rewrite Z.pow_1_r, Z.mul_comm. by apply shr_1_double.
Qed.

(** Rounding a significand of 53 bits and some trailing zeros is exact. *)
Lemma round_exact s m e k :
  2 ^ 52 <= Zpos m < 2 ^ 53 -> 0 <= k -> -1074 <= e + k <= 971 ->
  binary_round_aux dprec demax s (Zpos m * 2 ^ k) e loc_Exact = S754_finite s m (e + k).
Proof.
  intros Hm Hk He. unfold binary_round_aux.
  assert (Hpow : 0 < 2 ^ k) by (apply Z.pow_pos_nonneg; lia).
  assert (D : Zdigits2 (Zpos m * 2 ^ k) = 53 + k).
  { destruct (Zpos m * 2 ^ k) as [|q|q] eqn:E; [lia| |lia]. cbn [Zdigits2]. apply digits2_unique. rewrite <- E.
    replace (53 + k - 1) with (52 + k) by lia. rewrite !Z.pow_add_r by lia. nia. }
  assert (F1 : shr_fexp dprec demax (Zpos m * 2 ^ k) e loc_Exact = (exact_record (Zpos m), e + k)).
  { unfold shr_fexp. rewrite D. unfold fexp, emin, dprec, demax.
    replace (Z.max (53 + k + e - 53) (3 - 1024 - 53) - e) with k by lia.
    change (shr_record_of_loc ?x loc_Exact) with (exact_record x). unfold shr. destruct k as [|p|p]; [|by rewrite (iter_shr_exact p (Zpos m))|lia].
    rewrite Z.pow_0_r, Z.mul_1_r, Z.add_0_r. done. }
  assert (F2 : shr_fexp dprec demax (Zpos m) (e + k) loc_Exact = (exact_record (Zpos m), e + k)).
  { unfold shr_fexp. cbn [Zdigits2]. rewrite (digits2_unique m 53) by lia. unfold fexp, emin, dprec, demax.
    replace (Z.max (53 + (e + k) - 53) (3 - 1024 - 53) - (e + k)) with 0 by lia. done. }
  rewrite F1. cbn [exact_record shr_m loc_of_shr_record shr_r shr_s round_nearest_even]. rewrite F2.
  cbn [exact_record shr_m]. by rewrite Zle_imp_le_bool by (unfold dprec, demax; lia).
Qed.

Lemma iter_xO d p : Zpos (Pos.iter xO p d) = Zpos p * 2 ^ Zpos d.
Proof.
  induction d as [|d IH] using Pos.peano_ind; [cbn; lia|].
  rewrite Pos.iter_succ, Pos2Z.inj_succ, Z.pow_succ_r by lia. rewrite (Pos2Z.inj_xO (Pos.iter xO p d)), IH. ring.
Qed.

(** An integer of at most 53 bits is exact as a double. *)
Lemma double_of_Z_exact n : 0 < n < 2 ^ 53 ->
  exists m e, double_of_Z n = S754_finite false m e /\ 2 ^ 52 <= Zpos m < 2 ^ 53 /\ -52 <= e <= 0 /\ Zpos m = n * 2 ^ (- e).
Proof.
  intros [H0 H1]. destruct n as [|p|p]; [lia| |lia].
  pose proof (digits2_bounds p) as Hd. set (d := Zpos (digits2_pos p)) in *.
  assert (Hd53 : d <= 53).
  { destruct (Z.le_gt_cases d 53); [done|]. assert (2 ^ 53 <= 2 ^ (d - 1)) by (apply Z.pow_le_mono_r; lia). lia. }
  assert (Hd1 : 1 <= d) by (subst d; lia).
  assert (E : exists m, shl_align p 0 (fexp dprec demax (d + 0)) = (m, d - 53) /\ Zpos m = Zpos p * 2 ^ (53 - d)).
  { unfold fexp, emin, dprec, demax.
    replace (Z.max (d + 0 - 53) (3 - 1024 - 53)) with (d - 53) by lia. unfold shl_align.
    destruct (d - 53 - 0) as [|q|q] eqn:Eq; [|lia|].
    - exists p. replace d with 53 by lia. split; [done|]. cbn. lia.
    - exists (Pos.iter xO p q). split; [done|]. rewrite iter_xO. by replace (53 - d) with (Zpos q) by lia. }
  destruct E as (m & Em & Hm).
  assert (Hmb : 2 ^ 52 <= Zpos m < 2 ^ 53).
  { assert (P1 : 2 ^ 52 = 2 ^ (d - 1) * 2 ^ (53 - d)) by (rewrite <- Z.pow_add_r by lia; f_equal; lia).
    assert (P2 : 2 ^ 53 = 2 ^ d * 2 ^ (53 - d)) by (rewrite <- Z.pow_add_r by lia; f_equal; lia).
    assert (0 < 2 ^ (53 - d)) by (apply Z.pow_pos_nonneg; lia). rewrite Hm, P1, P2. nia. }
  exists m, (d - 53). split_and!; [|lia..|by replace (- (d - 53)) with (53 - d) by lia].
  unfold double_of_Z, binary_normalize, binary_round. fold d. rewrite Em.
  rewrite <- (Z.mul_1_r (Zpos m)). change 1 with (2 ^ 0). rewrite (round_exact false m (d - 53) 0) by lia.
  f_equal. lia.
Qed.

(** Twice such an integer, as a double product, converts back exactly. *)
Lemma double_twice `{CastUndefined} n : 0 < n < 2 ^ 53 ->
  cast_u64 (double_mul (double_of_Z n) (double_of_Z 2)) = 2 * n.
Proof.
  intros Hn. destruct (double_of_Z_exact n Hn) as (m & e & -> & Hm & He & Em).
  change (double_of_Z 2) with (S754_finite false 4503599627370496 (-51)).
  unfold double_mul, SFmul. cbn [xorb].
  replace (Zpos (m * 4503599627370496)) with (Zpos m * 2 ^ 52) by (rewrite Pos2Z.inj_mul; reflexivity).
  rewrite (round_exact false m (e + -51) 52) by lia. replace (e + -51 + 52) with (e + 1) by lia.
  assert (T : trunc_Z (S754_finite false m (e + 1)) = 2 * n).
  { unfold trunc_Z. destruct (0 <=? e + 1) eqn:E0; to_prop.
    - rewrite Em. assert (e = -1 \/ e = 0) as [->| ->] by lia; cbn; lia.
    - rewrite Em. replace (- e) with (- (e + 1) + 1) by lia. rewrite Z.pow_add_r by lia.
      rewrite Z.pow_1_r, Z.mul_assoc, Z.mul_shuffle0. rewrite Z.div_mul; [lia|]. apply Z.pow_nonzero; lia. }
  unfold cast_u64. rewrite T. cbn [isfinite andb]. rewrite bool_decide_eq_true_2; [done|].
  unfold in_u. assert (2 ^ 53 < 2 ^ 64) by (apply Z.pow_lt_mono_r; lia).
  change (2 ^ 64) with (2 ^ 53 * 2048). lia.
Qed.
