(* ===== verification/Wire.v ===== *)
(** Byte-level codecs: how a C++ packed struct is copied to and from a byte
    buffer with [memcpy].  A [Codec] is a size, a serializer and a reader that
    takes the first [c_size] bytes of a buffer; [CodecLaws] is the contract every
    client (the sensor-broker frames) relies on, discharged once per combinator.
    Integers are little-endian, the layout of the supported hosts. *)

From Stdlib Require Export Strings.Byte.
From S2P Require Import Prelude.

Definition Z_of_byte (b : byte) : Z := Z.of_N (Byte.to_N b).

Definition byte_of_Z (z : Z) : byte :=
  match Byte.of_N (Z.to_N (z mod 256)) with Some b => b | None => x00 end.

Lemma Z_of_byte_range b : 0 <= Z_of_byte b < 256.
Proof. unfold Z_of_byte. pose proof (Byte.to_N_bounded b). lia. Qed.

Lemma Z_of_byte_of_Z z : Z_of_byte (byte_of_Z z) = z mod 256.
Proof.
  unfold Z_of_byte, byte_of_Z.
  pose proof (Z.mod_pos_bound z 256 eq_refl).
  destruct (Byte.of_N _) eqn:E.
  - apply Byte.to_of_N in E. rewrite E. lia.
  - apply Byte.of_N_None_iff in E. lia.
Qed.

Fixpoint le_bytes (n : nat) (z : Z) : list byte :=
  match n with
  | O => []
  | S n' => byte_of_Z z :: le_bytes n' (z / 256)
  end.

Fixpoint le_value (bs : list byte) : Z :=
  match bs with
  | [] => 0
  | b :: bs' => Z_of_byte b + 256 * le_value bs'
  end.

Lemma length_le_bytes n z : length (le_bytes n z) = n.
Proof. revert z. induction n; simpl; auto. Qed.

Lemma pow256_succ n : 256 ^ Z.of_nat (S n) = 256 * 256 ^ Z.of_nat n.
Proof. rewrite Nat2Z.inj_succ, Z.pow_succ_r by lia. done. Qed.

Lemma le_value_bytes n z : 0 <= z < 256 ^ Z.of_nat n -> le_value (le_bytes n z) = z.
Proof.
  revert z. induction n as [|n IH]; intros z Hz; [simpl in *; lia|].
  rewrite pow256_succ in Hz. cbn [le_bytes le_value].
  rewrite Z_of_byte_of_Z, IH.
  - pose proof (Z.div_mod z 256). lia.
  - split; [apply Z.div_pos; lia|]. apply Z.div_lt_upper_bound; lia.
Qed.

Lemma le_value_range bs : 0 <= le_value bs < 256 ^ Z.of_nat (length bs).
Proof.
  induction bs as [|b bs IH]; [simpl; lia|].
  cbn [le_value length]. rewrite pow256_succ. pose proof (Z_of_byte_range b). lia.
Qed.

Lemma pow256 n : 256 ^ Z.of_nat n = 2 ^ (8 * Z.of_nat n).
Proof. change 256 with (2 ^ 8). rewrite <- Z.pow_mul_r by lia. done. Qed.

(** ** Codecs *)

Record Codec (A : Type) := MkCodec {
  c_size : nat;
  c_put : A -> list byte;
  c_get : list byte -> A;
  c_ok : A -> Prop }.
Arguments MkCodec {A}.
Arguments c_size {A} c.
Arguments c_put {A} c a.
Arguments c_get {A} c bs.
Arguments c_ok {A} c a.

Class CodecLaws {A} (c : Codec A) : Prop := {
  put_length a : c_ok c a -> length (c_put c a) = c_size c;
  get_put a rest : c_ok c a -> c_get c (c_put c a ++ rest) = a }.

Definition uint_codec (n : nat) : Codec Z := {|
  c_size := n;
  c_put := le_bytes n;
  c_get bs := le_value (take n bs);
  c_ok := in_u (8 * Z.of_nat n) |}.

Definition sint_codec (n : nat) : Codec Z := {|
  c_size := n;
  c_put z := le_bytes n (wrap_u (8 * Z.of_nat n) z);
  c_get bs := wrap_s (8 * Z.of_nat n) (le_value (take n bs));
  c_ok := in_s (8 * Z.of_nat n) |}.

Definition chars_codec (n : nat) : Codec (list byte) := {|
  c_size := n;
  c_put l := l;
  c_get bs := take n bs;
  c_ok l := length l = n |}.

Definition pair_codec {A B} (ca : Codec A) (cb : Codec B) : Codec (A * B) := {|
  c_size := c_size ca + c_size cb;
  c_put p := c_put ca p.1 ++ c_put cb p.2;
  c_get bs := (c_get ca bs, c_get cb (drop (c_size ca) bs));
  c_ok p := c_ok ca p.1 /\ c_ok cb p.2 |}.

(** A struct is read through its tuple of members. *)
Definition struct_codec {A B} (of_tuple : A -> B) (to_tuple : B -> A) (c : Codec A) : Codec B := {|
  c_size := c_size c;
  c_put b := c_put c (to_tuple b);
  c_get bs := of_tuple (c_get c bs);
  c_ok b := c_ok c (to_tuple b) |}.

#[global] Instance uint_codec_laws n : CodecLaws (uint_codec n).
Proof.
  split; simpl; intros a.
  - intros _. apply length_le_bytes.
  - intros rest Ha. rewrite take_app_length' by (symmetry; apply length_le_bytes).
    apply le_value_bytes. by rewrite pow256.
Qed.

#[global] Instance sint_codec_laws n : TCEq (Nat.ltb 0 n) true -> CodecLaws (sint_codec n).
Proof.
  intros Hn. assert (0 < n)%nat by (apply Nat.ltb_lt; by inversion Hn).
  split; simpl; intros a.
  - intros _. apply length_le_bytes.
  - intros rest Ha. rewrite take_app_length' by (symmetry; apply length_le_bytes).
    rewrite le_value_bytes.
    + apply wrap_s_wrap_u; [lia|done].
    + rewrite pow256. apply wrap_u_in. lia.
Qed.

#[global] Instance chars_codec_laws n : CodecLaws (chars_codec n).
Proof. split; simpl; [done|]. intros a rest <-. by rewrite take_app_length. Qed.

#[global] Instance pair_codec_laws {A B} (ca : Codec A) (cb : Codec B) :
  CodecLaws ca -> CodecLaws cb -> CodecLaws (pair_codec ca cb).
Proof.
  intros La Lb. split; simpl; intros [a b]; simpl.
  - intros [Ha Hb]. rewrite length_app, !put_length; done.
  - intros rest [Ha Hb]. rewrite <- app_assoc. f_equal; [by apply get_put|].
    rewrite drop_app_length' by (by rewrite put_length). by apply get_put.
Qed.

Lemma struct_codec_laws {A B} (f : A -> B) (g : B -> A) (c : Codec A) :
  (forall b, f (g b) = b) -> CodecLaws c -> CodecLaws (struct_codec f g c).
Proof.
  intros Hfg L. split; simpl; intros b.
  - intros Hb. by apply put_length.
  - intros rest Hb. rewrite get_put; [apply Hfg|done].
Qed.

(** ** Fixed-size character arrays *)

Fixpoint take_until_nul (l : list byte) : list byte :=
  match l with
  | [] => []
  | b :: l' => if Byte.eqb b x00 then [] else b :: take_until_nul l'
  end.

Definition nul_free (l : list byte) : Prop := Forall (fun b => b <> x00) l.

Lemma take_until_nul_app_nul l n :
  (0 < n)%nat -> nul_free l -> take_until_nul (l ++ repeat x00 n) = l.
Proof.
  intros Hn. induction 1 as [|b l Hb Hl IH]; simpl.
  - destruct n; [lia|done].
  - destruct (Byte.eqb b x00) eqn:E; [by apply Byte.byte_dec_bl in E|]. by rewrite IH.
Qed.

Lemma take_until_nul_nul_free l : nul_free (take_until_nul l).
Proof.
  induction l as [|b l IH]; simpl; [constructor|].
  destruct (Byte.eqb b x00) eqn:E; constructor; [|done].
  intros ->. discriminate.
Qed.
