(* ===== verification/Faults.v ===== *)
(** Computations that change a store and can be interrupted.

    A program over a store of type [W] (a directory, a host) runs under a schedule of
    [io_fault]s: each operation on the store takes the next one, which lets it complete, report an
    error, or be the point where the program is cut off.  [raise] and [catch] are the exceptions of
    the code; [triple] states what holds of the store however a program ends, with one rule for each
    combinator.

    [replace_file] is the way the agent replaces a file: the code writes a temporary file, closes it
    without looking at the result, and renames it.  Nothing is synced, so that for files replaced
    like this being cut off means that the process is killed; what a loss of power leaves of them is
    not modelled. *)

From S2P Require Import Prelude.

(** An interrupted write has not touched the file ([None]) or has kept a part of it, of the given
    size. *)
Inductive io_fault :=
| IoDone
| IoThrows (message : string) (kept : option nat)
| IoCrashes (kept : option nat).

Inductive outcome (A : Type) : Type :=
| Done (a : A)
| Threw (message : string)
| Crashed.
Arguments Done {A} a.
Arguments Threw {A} message.
Arguments Crashed {A}.

Definition IO (W A : Type) : Type := list io_fault -> W -> outcome A * list io_fault * W.

Section IO.
Context {W : Type}.

Definition ret {A} (a : A) : IO W A := fun fs w => (Done a, fs, w).
Definition raise {A} (message : string) : IO W A := fun fs w => (Threw message, fs, w).
Definition bind {A B} (m : IO W A) (k : A -> IO W B) : IO W B := fun fs w =>
  match m fs w with
  | (Done a, fs', w') => k a fs' w'
  | (Threw message, fs', w') => (Threw message, fs', w')
  | (Crashed, fs', w') => (Crashed, fs', w')
  end.
Definition lift {A} (r : result A) : IO W A :=
  match r with Ok a => ret a | Throw message => raise message end.

(** [try { m } catch (const std::exception& error) { h(error.what()); }] *)
Definition catch {A} (m : IO W A) (h : string -> IO W A) : IO W A := fun fs w =>
  match m fs w with
  | (Threw message, fs', w') => h message fs' w'
  | r => r
  end.

(** [m] with the exception it ends with as a value. *)
Definition trying {A} (m : IO W A) : IO W (result A) := fun fs w =>
  match m fs w with
  | (Done a, fs', w') => (Done (Ok a), fs', w')
  | (Threw message, fs', w') => (Done (Throw message), fs', w')
  | (Crashed, fs', w') => (Crashed, fs', w')
  end.

Definition next_fault (fs : list io_fault) : io_fault * list io_fault :=
  match fs with [] => (IoDone, []) | f :: fs' => (f, fs') end.

(** An operation that leaves the store as it is. *)
Definition io_step : IO W unit := fun fs w =>
  match next_fault fs with
  | (IoDone, fs') => (Done tt, fs', w)
  | (IoThrows message _, fs') => (Threw message, fs', w)
  | (IoCrashes _, fs') => (Crashed, fs', w)
  end.

(** An operation that takes effect as a whole or not at all; the program may be cut off before or
    after it. *)
Definition io_update (f : W -> W) : IO W unit := fun fs w =>
  match next_fault fs with
  | (IoDone, fs') => (Done tt, fs', f w)
  | (IoThrows message _, fs') => (Threw message, fs', w)
  | (IoCrashes None, fs') => (Crashed, fs', w)
  | (IoCrashes (Some _), fs') => (Crashed, fs', f w)
  end.

(** The same for an operation that returns something. *)
Definition io_change {A} (f : W -> A * W) : IO W A := fun fs w =>
  match next_fault fs with
  | (IoDone, fs') => (Done (f w).1, fs', (f w).2)
  | (IoThrows message _, fs') => (Threw message, fs', w)
  | (IoCrashes None, fs') => (Crashed, fs', w)
  | (IoCrashes (Some _), fs') => (Crashed, fs', (f w).2)
  end.

(** The end of the block of an [std::ofstream]: its buffer is flushed and the file closed by the
    destructor, which reports no error.  [None]: everything is in the file; [Some n]: flushing
    failed, unnoticed, after [n] bytes. *)
Definition io_flush : IO W (option nat) := fun fs w =>
  match next_fault fs with
  | (IoDone, fs') => (Done None, fs', w)
  | (IoThrows _ kept, fs') => (Done (Some (default 0%nat kept)), fs', w)
  | (IoCrashes _, fs') => (Crashed, fs', w)
  end.

(** Reading the store. *)
Definition io_read {A} (f : W -> A) : IO W A := fun fs w =>
  match next_fault fs with
  | (IoDone, fs') => (Done (f w), fs', w)
  | (IoThrows message _, fs') => (Threw message, fs', w)
  | (IoCrashes _, fs') => (Crashed, fs', w)
  end.

End IO.

Declare Scope io_scope.
Notation "'let*' x := c 'in' k" := (bind c (fun x => k))
  (at level 10, x pattern, c at level 100, k at level 200) : io_scope.
#[local] Open Scope io_scope.

(** ** Replacing a file

    The directories are created, the temporary file is opened, written and closed, made private to
    the owner ([owner_only]), and renamed; [install] is the effect of the rename, for the part of
    the content that has reached the file.  When the rename fails, the temporary file is removed.
    Temporary files are never read and are not part of the store.  This is the code of the POSIX
    builds: on Windows there are no permissions, and a failed rename is tried again after removing
    the target. *)
Definition replace_file {W} (owner_only : bool) (failure : string) (install : option nat -> W -> W) : IO W unit :=
  let* _ := io_step in
  let* _ := io_step in
  let* _ := io_step in
  let* cut := io_flush in
  let* _ := if owner_only then io_step else ret tt in
  let* renamed := trying (io_update (install cut)) in
  match renamed with
  | Ok _ => ret tt
  | Throw error => let* _ := io_step in raise (failure +:+ error)
  end.

(** ** Triples

    Over every fault schedule: [Q] after a normal return, [T] after an error, [C] after a crash. *)
Section triples.
Context {W : Type}.
Implicit Types (P C E : W -> Prop) (fs : list io_fault) (w : W).

Definition triple {A} P (m : IO W A) (Q : A -> W -> Prop) (T : string -> W -> Prop) C : Prop :=
  forall fs w, P w ->
    match m fs w with
    | (Done a, _, w') => Q a w'
    | (Threw message, _, w') => T message w'
    | (Crashed, _, w') => C w'
    end.

Lemma triple_ret {A} (a : A) P (Q : A -> W -> Prop) T C : (forall w, P w -> Q a w) -> triple P (ret a) Q T C.
Proof. intros H fs w Hp. by apply H. Qed.

Lemma triple_raise {A} message P (Q : A -> W -> Prop) (T : string -> W -> Prop) C :
  (forall w, P w -> T message w) -> triple P (raise message) Q T C.
Proof. intros H fs w Hp. by apply H. Qed.

Lemma triple_bind {A B} (m : IO W A) (k : A -> IO W B) P Q R T C :
  triple P m Q T C -> (forall a, triple (Q a) (k a) R T C) -> triple P (bind m k) R T C.
Proof.
  intros Hm Hk fs w Hp. specialize (Hm fs w Hp). unfold bind.
  destruct (m fs w) as [[[a|msg|] fs'] w']; [by apply Hk|done..].
Qed.

Lemma triple_catch {A} (m : IO W A) (h : string -> IO W A) P Q T T' C :
  triple P m Q T' C -> (forall message, triple (T' message) (h message) Q T C) -> triple P (catch m h) Q T C.
Proof.
  intros Hm Hh fs w Hp. specialize (Hm fs w Hp). unfold catch.
  destruct (m fs w) as [[[a|msg|] fs'] w']; [done|by apply Hh|done].
Qed.

Lemma triple_trying {A} (m : IO W A) P Q T T' C :
  triple P m Q T' C -> triple P (trying m) (fun r w => match r with Ok a => Q a w | Throw message => T' message w end) T C.
Proof.
  intros Hm fs w Hp. specialize (Hm fs w Hp). unfold trying. by destruct (m fs w) as [[[a|msg|] fs'] w'].
Qed.

Lemma triple_lift {A} (r : result A) P (Q : A -> W -> Prop) (T : string -> W -> Prop) C :
  (forall a w, r = Ok a -> P w -> Q a w) -> (forall message w, r = Throw message -> P w -> T message w) ->
  triple P (lift r) Q T C.
Proof. intros H1 H2 fs w Hp. destruct r; cbn; auto. Qed.

Lemma triple_weaken {A} (m : IO W A) P P' (Q Q' : A -> W -> Prop) (T T' : string -> W -> Prop) C C' :
  triple P' m Q' T' C' -> (forall w, P w -> P' w) -> (forall a w, Q' a w -> Q a w) ->
  (forall message w, T' message w -> T message w) -> (forall w, C' w -> C w) -> triple P m Q T C.
Proof.
  intros Hm H1 H2 H3 H4 fs w Hp. specialize (Hm fs w (H1 w Hp)).
  destruct (m fs w) as [[[a|msg|] fs'] w']; auto.
Qed.

(** A fact about the program's arguments may be used as a precondition. *)
Lemma triple_pure {A} (m : IO W A) (X : Prop) P Q T C :
  (X -> triple P m Q T C) -> triple (fun w => X /\ P w) m Q T C.
Proof. intros H fs w [Hx Hp]. by apply H. Qed.

(** The rules for one operation: what holds before also holds after an interruption. *)
Lemma triple_step P (T : string -> W -> Prop) C :
  (forall message w, P w -> T message w) -> (forall w, P w -> C w) -> triple P io_step (fun _ => P) T C.
Proof. intros HT HC fs w Hp. unfold io_step. destruct (next_fault fs) as [[] fs']; auto. Qed.

Lemma triple_update f P (Q : unit -> W -> Prop) (T : string -> W -> Prop) C :
  (forall w, P w -> Q tt (f w)) -> (forall message w, P w -> T message w) -> (forall w, P w -> C w /\ C (f w)) ->
  triple P (io_update f) Q T C.
Proof.
  intros HQ HT HC fs w Hp. destruct (HC w Hp). unfold io_update. destruct (next_fault fs) as [[| |[]] fs']; auto.
Qed.

(** Replacing a file: an error leaves the store alone, and so does an end before the rename. *)
Lemma triple_replace owner_only failure install P (Q : unit -> W -> Prop) (T : string -> W -> Prop) C :
  (forall message w, P w -> T message w) -> (forall w, P w -> C w) ->
  (forall cut w, P w -> Q tt (install cut w) /\ C (install cut w)) ->
  triple P (replace_file owner_only failure install) Q T C.
Proof.
  intros HT HC HQ. assert (Hs : triple P io_step (fun _ => P) T C) by (by apply triple_step).
  unfold replace_file. do 3 (eapply triple_bind; [exact Hs|]; intros []).
  eapply (triple_bind _ _ _ (fun _ => P)).
  { intros fs w Hp. unfold io_flush. destruct (next_fault fs) as [[] fs']; auto. }
  intros cut. eapply (triple_bind _ _ _ (fun _ => P)); [destruct owner_only; [exact Hs|by apply triple_ret]|]. intros [].
  eapply (triple_bind _ _ _ (fun r w => match r with Ok _ => Q tt w | Throw _ => P w end)).
  { apply (triple_trying _ _ (fun _ => Q tt) T (fun _ => P)). apply triple_update; [|done|]; intros w Hp; destruct (HQ cut w Hp); auto. }
  intros [[]|e]; [by apply triple_ret|]. eapply triple_bind; [exact Hs|]. intros []. apply triple_raise. auto.
Qed.

Lemma triple_replace_keep owner_only failure install P :
  (forall cut w, P w -> P (install cut w)) -> triple P (replace_file owner_only failure install) (fun _ => P) (fun _ => P) P.
Proof. intros HP. apply triple_replace; auto. Qed.

Lemma triple_read {A} (f : W -> A) P (T : string -> W -> Prop) C :
  (forall message w, P w -> T message w) -> (forall w, P w -> C w) ->
  triple P (io_read f) (fun a w => a = f w /\ P w) T C.
Proof. intros HT HC fs w Hp. unfold io_read. destruct (next_fault fs) as [[] fs']; auto. Qed.

Lemma triple_look {A} (f : W -> A) P : triple P (io_read f) (fun _ => P) (fun _ => P) P.
Proof. intros fs w Hp. unfold io_read. by destruct (next_fault fs) as [[] fs']. Qed.

Lemma triple_keep f P : (forall w, P w -> P (f w)) -> triple P (io_update f) (fun _ => P) (fun _ => P) P.
Proof. intros Hf. apply triple_update; auto. Qed.

(** Triples with one postcondition for every abnormal end. *)
Definition hoare {A} P (m : IO W A) (Q : A -> W -> Prop) E : Prop := triple P m Q (fun _ => E) E.

Lemma hoare_ret {A} (a : A) P (Q : A -> W -> Prop) E : (forall w, P w -> Q a w) -> hoare P (ret a) Q E.
Proof. apply triple_ret. Qed.

Lemma hoare_raise {A} message P (Q : A -> W -> Prop) E : (forall w, P w -> E w) -> hoare P (raise message) Q E.
Proof. intros H fs w Hp. by apply H. Qed.

Lemma hoare_bind {A B} (m : IO W A) (k : A -> IO W B) P Q R E :
  hoare P m Q E -> (forall a, hoare (Q a) (k a) R E) -> hoare P (bind m k) R E.
Proof. apply triple_bind. Qed.

Lemma hoare_any {A} (m : IO W A) : hoare (fun _ => True) m (fun _ _ => True) (fun _ => True).
Proof. intros fs w _. by destruct (m fs w) as [[[] ?] ?]. Qed.

Lemma hoare_weaken {A} (m : IO W A) P P' (Q Q' : A -> W -> Prop) E E' :
  hoare P' m Q' E' -> (forall w, P w -> P' w) -> (forall a w, Q' a w -> Q a w) ->
  (forall w, E' w -> E w) -> hoare P m Q E.
Proof. intros H1 H2 H3 H4. eapply triple_weaken; [exact H1|auto..]. Qed.

Lemma hoare_step P E : (forall w, P w -> E w) -> hoare P io_step (fun _ => P) E.
Proof. intros HE. by apply triple_step. Qed.

(** ** Blame

    Triples over the schedules in which operations fail only with messages that satisfy [B]: they
    tell the errors the program raises itself from those of its operations. *)
Definition fails_with (B : string -> Prop) (fs : list io_fault) : Prop := forall message kept, IoThrows message kept ∈ fs -> B message.

Definition blame {A} (B : string -> Prop) P (m : IO W A) (Q : A -> W -> Prop) (T : string -> W -> Prop) C : Prop :=
  forall fs w, fails_with B fs -> P w ->
    fails_with B (m fs w).1.2 /\
    match m fs w with
    | (Done a, _, w') => Q a w'
    | (Threw message, _, w') => T message w'
    | (Crashed, _, w') => C w'
    end.

Lemma blame_ret {A} (a : A) B P (Q : A -> W -> Prop) T C : (forall w, P w -> Q a w) -> blame B P (ret a) Q T C.
Proof. intros H fs w Hb Hp. split; [done|]. by apply H. Qed.

Lemma blame_raise {A} message B P (Q : A -> W -> Prop) (T : string -> W -> Prop) C :
  (forall w, P w -> T message w) -> blame B P (raise message) Q T C.
Proof. intros H fs w Hb Hp. split; [done|]. by apply H. Qed.

Lemma blame_bind {A A'} (m : IO W A) (k : A -> IO W A') B P Q R T C :
  blame B P m Q T C -> (forall a, blame B (Q a) (k a) R T C) -> blame B P (bind m k) R T C.
Proof.
  intros Hm Hk fs w Hb Hp. destruct (Hm fs w Hb Hp) as [Hb' H]. unfold bind. destruct (m fs w) as [[[a|msg|] fs'] w']; [by apply Hk|done..].
Qed.

Lemma blame_weaken {A} (m : IO W A) B P P' (Q Q' : A -> W -> Prop) (T T' : string -> W -> Prop) C C' :
  blame B P' m Q' T' C' -> (forall w, P w -> P' w) -> (forall a w, Q' a w -> Q a w) ->
  (forall message w, T' message w -> T message w) -> (forall w, C' w -> C w) -> blame B P m Q T C.
Proof.
  intros Hm H1 H2 H3 H4 fs w Hb Hp. destruct (Hm fs w Hb (H1 w Hp)) as [Hb' H]. split; [done|].
  destruct (m fs w) as [[[a|msg|] fs'] w']; auto.
Qed.

Lemma next_fails_with B fs : fails_with B fs -> fails_with B (next_fault fs).2 /\ fails_with B [(next_fault fs).1].
Proof.
  intros Hb. destruct fs as [|f fs]; split; try done; intros message kept Hin; apply (Hb message kept); set_solver.
Qed.

Lemma blame_change {A} (f : W -> A * W) B P (Q : A -> W -> Prop) (T : string -> W -> Prop) C :
  (forall w, P w -> Q (f w).1 (f w).2) -> (forall message w, B message -> P w -> T message w) -> (forall w, P w -> C w /\ C (f w).2) ->
  blame B P (io_change f) Q T C.
Proof.
  intros HQ HT HC fs w Hb Hp. destruct (HC w Hp). destruct (next_fails_with B fs Hb) as [Hn Hf]. unfold io_change.
  destruct (next_fault fs) as [[|message kept|[]] fs']; split; auto. apply HT; [|done]. apply (Hf message kept). set_solver.
Qed.

Lemma blame_update f B P (Q : unit -> W -> Prop) (T : string -> W -> Prop) C :
  (forall w, P w -> Q tt (f w)) -> (forall message w, B message -> P w -> T message w) -> (forall w, P w -> C w /\ C (f w)) ->
  blame B P (io_update f) Q T C.
Proof. apply (blame_change (fun w => (tt, f w))). Qed.

Lemma blame_step B P (T : string -> W -> Prop) C :
  (forall message w, B message -> P w -> T message w) -> (forall w, P w -> C w) -> blame B P io_step (fun _ => P) T C.
Proof.
  intros HT HC fs w Hb Hp. destruct (next_fails_with B fs Hb) as [Hn Hf]. unfold io_step.
  destruct (next_fault fs) as [[|message kept|kept] fs']; split; auto. apply HT; [|done]. apply (Hf message kept). set_solver.
Qed.

(** ** Running *)

Lemma bind_done {A B} (m : IO W A) (k : A -> IO W B) fs w a fs' w' :
  m fs w = (Done a, fs', w') -> bind m k fs w = k a fs' w'.
Proof. intros E. unfold bind. by rewrite E. Qed.

Lemma next_fault_cons fs : next_fault (IoDone :: fs) = (IoDone, fs).
Proof. done. Qed.

Lemma io_step_done fs fs' w : next_fault fs = (IoDone, fs') -> io_step fs w = (Done tt, fs', w).
Proof. intros E. unfold io_step. by rewrite E. Qed.

Lemma replace_runs owner_only failure install w :
  replace_file owner_only failure install [] w = (Done tt, [], install None w).
Proof. by destruct owner_only. Qed.

End triples.
