(* ===== verification/Model.v ===== *)
(** The semantic data model of the agent: the enumerations and structs of
    [include/neta/model.hpp], [lifecycle.hpp], [process_exec.hpp],
    [tcp_state.hpp], [connection_direction.hpp] and [route_semantics.hpp], with
    the text conversions of their [.cpp] files.

    Integers are [Z] at the width of the member; [std::optional] is [option].  A
    scoped enumeration that is also read from the wire by a [static_cast] can
    hold a value that is not an enumerator; such a value is the [..Raw n]
    constructor, which is what the statement after each [switch] handles. *)

From S2P Require Import Prelude.

(** ** Enumerations *)

Inductive EvidenceFidelity := Exact | StronglyCorrelated | Supporting | Contextual.
Inductive PerformanceState := Normal | Degraded | Failed | InsufficientEvidence.
Inductive TrustState := Stable | Changed | Suspicious | Unverified.
Inductive ConnectionDirection := Outbound | Inbound | DirectionUnknown.
Inductive RouteRelation := OutboundSelectedRoute | InboundResponseRoute | RouteRelationUnknown.

Inductive TcpEndpointKind :=
| EndpointUnknown | Connection | Listener | LifecycleTail | EndpointRaw (n : Z).
Inductive ConnectionLifecycleEventType := Connect | Accept | Close | EventTypeRaw (n : Z).
Inductive NetworkAddressFamily := FamilyUnknown | IPv4 | IPv6 | FamilyRaw (n : Z).
Inductive TransportProtocol := ProtocolUnknown | Tcp | ProtocolRaw (n : Z).
Inductive LifecycleProvenance := EbpfCore | WindowsEtw | DeterministicTest | ProvenanceRaw (n : Z).
Inductive ProcessExecEventType := Start | Exit | ExecTypeRaw (n : Z).

#[global] Instance EvidenceFidelity_eq_dec : EqDecision EvidenceFidelity.
Proof. solve_decision. Defined.
#[global] Instance PerformanceState_eq_dec : EqDecision PerformanceState.
Proof. solve_decision. Defined.
#[global] Instance TrustState_eq_dec : EqDecision TrustState.
Proof. solve_decision. Defined.
#[global] Instance ConnectionDirection_eq_dec : EqDecision ConnectionDirection.
Proof. solve_decision. Defined.
#[global] Instance RouteRelation_eq_dec : EqDecision RouteRelation.
Proof. solve_decision. Defined.
#[global] Instance TcpEndpointKind_eq_dec : EqDecision TcpEndpointKind.
Proof. solve_decision. Defined.
#[global] Instance ConnectionLifecycleEventType_eq_dec : EqDecision ConnectionLifecycleEventType.
Proof. solve_decision. Defined.
#[global] Instance NetworkAddressFamily_eq_dec : EqDecision NetworkAddressFamily.
Proof. solve_decision. Defined.
#[global] Instance TransportProtocol_eq_dec : EqDecision TransportProtocol.
Proof. solve_decision. Defined.
#[global] Instance LifecycleProvenance_eq_dec : EqDecision LifecycleProvenance.
Proof. solve_decision. Defined.
#[global] Instance ProcessExecEventType_eq_dec : EqDecision ProcessExecEventType.
Proof. solve_decision. Defined.

(** ** Text of the enumerations *)

Definition fidelity_to_string (value : EvidenceFidelity) : string :=
  match value with
  | Exact => "EXACT"
  | StronglyCorrelated => "STRONGLY_CORRELATED"
  | Supporting => "SUPPORTING"
  | Contextual => "CONTEXTUAL"
  end.

Definition performance_to_string (value : PerformanceState) : string :=
  match value with
  | Normal => "NORMAL"
  | Degraded => "DEGRADED"
  | Failed => "FAILED"
  | InsufficientEvidence => "INSUFFICIENT_EVIDENCE"
  end.

Definition trust_to_string (value : TrustState) : string :=
  match value with
  | Stable => "STABLE"
  | Changed => "CHANGED"
  | Suspicious => "SUSPICIOUS"
  | Unverified => "UNVERIFIED"
  end.

Definition performance_state_from_string (value : string) : PerformanceState :=
  if bool_decide (value = "NORMAL") then Normal
  else if bool_decide (value = "DEGRADED") then Degraded
  else if bool_decide (value = "FAILED") then Failed
  else InsufficientEvidence.

Definition trust_state_from_string (value : string) : TrustState :=
  if bool_decide (value = "STABLE") then Stable
  else if bool_decide (value = "CHANGED") then Changed
  else if bool_decide (value = "SUSPICIOUS") then Suspicious
  else Unverified.

Definition direction_to_string (direction : ConnectionDirection) : string :=
  match direction with
  | Outbound => "OUTBOUND"
  | Inbound => "INBOUND"
  | DirectionUnknown => "UNKNOWN"
  end.

Definition connection_direction_from_string (value : string) : ConnectionDirection :=
  if bool_decide (value = "OUTBOUND") then Outbound
  else if bool_decide (value = "INBOUND") then Inbound
  else DirectionUnknown.

Definition route_relation_to_string (relation : RouteRelation) : string :=
  match relation with
  | OutboundSelectedRoute => "OUTBOUND_SELECTED_ROUTE"
  | InboundResponseRoute => "INBOUND_RESPONSE_ROUTE"
  | RouteRelationUnknown => "UNKNOWN"
  end.

Definition route_relation_from_string (value : string) : RouteRelation :=
  if bool_decide (value = "OUTBOUND_SELECTED_ROUTE") then OutboundSelectedRoute
  else if bool_decide (value = "INBOUND_RESPONSE_ROUTE") then InboundResponseRoute
  else RouteRelationUnknown.

Definition event_type_to_string (value : ConnectionLifecycleEventType) : string :=
  match value with
  | Connect => "CONNECT"
  | Accept => "ACCEPT"
  | Close => "CLOSE"
  | EventTypeRaw _ => "UNKNOWN"
  end.

Definition provenance_to_string (value : LifecycleProvenance) : string :=
  match value with
  | EbpfCore => "EBPF_CORE"
  | WindowsEtw => "WINDOWS_ETW"
  | DeterministicTest => "DETERMINISTIC_TEST"
  | ProvenanceRaw _ => "UNKNOWN"
  end.

Definition endpoint_kind_to_string (kind : TcpEndpointKind) : string :=
  match kind with
  | Connection => "CONNECTION"
  | Listener => "LISTENER"
  | LifecycleTail => "LIFECYCLE_TAIL"
  | EndpointUnknown => "UNKNOWN"
  | EndpointRaw _ => "UNKNOWN"
  end.

Definition eligible_connection_seed (kind : TcpEndpointKind) : bool :=
  bool_decide (kind = Connection).

(** ** Structs *)

Record ProcessIdentity := MkProcessIdentity {
  pi_pid : Z;                     (* int64 *)
  pi_uid : Z;                     (* uint32 *)
  pi_start_ticks : option Z;      (* uint64 *)
  pi_comm : string;
  pi_executable_path : string }.

Record TcpSnapshot := MkTcpSnapshot {
  ts_observed_ns : Z;
  ts_state : Z;
  ts_rtt_us : Z;
  ts_rtt_variance_us : Z;
  ts_total_retrans : Z;
  ts_lost : Z;
  ts_unacked : Z;
  ts_snd_cwnd : Z;
  ts_snd_ssthresh : Z;
  ts_snd_mss : Z;
  ts_rcv_mss : Z;
  ts_send_queue_bytes : Z;
  ts_recv_queue_bytes : Z;
  ts_bytes_sent : option Z;
  ts_bytes_received : option Z;
  ts_transfer_source : string;
  ts_transfer_fidelity : EvidenceFidelity }.

(** A value-initialised [TcpSnapshot{}]. *)
Definition empty_snapshot : TcpSnapshot :=
  MkTcpSnapshot 0 0 0 0 0 0 0 0 0 0 0 0 0 None None "" Contextual.

Record SocketObservation := MkSocketObservation {
  so_socket_cookie : Z;
  so_socket_inode : Z;
  so_network_namespace_inode : option Z;
  so_owning_pid : option Z;
  so_uid : Z;
  so_local_ip : string;
  so_local_port : Z;
  so_remote_ip : string;
  so_remote_port : Z;
  so_endpoint_kind : TcpEndpointKind;
  so_transport : TcpSnapshot }.

Record NetworkEndpoint := MkNetworkEndpoint {
  ne_address : string;
  ne_port : option Z }.

Record LifecycleProcessIds := MkLifecycleProcessIds {
  lpi_pid : option Z;
  lpi_tgid : option Z }.

Record ProcessNamespaceIdentity := MkProcessNamespaceIdentity {
  pni_device : Z;
  pni_inode : Z }.

Record LifecycleProcessContext := MkLifecycleProcessContext {
  lpc_agent_visible : LifecycleProcessIds;
  lpc_kernel : LifecycleProcessIds;
  lpc_agent_pid_namespace : option ProcessNamespaceIdentity;
  lpc_uid : option Z;
  lpc_start_ticks : option Z;
  lpc_comm : option string }.

Record ConnectionLifecycleEvent := MkLifecycleEvent {
  le_type : ConnectionLifecycleEventType;
  le_timestamp_ns : Z;
  le_provenance : LifecycleProvenance;
  le_process : LifecycleProcessContext;
  le_network_namespace_inode : option Z;
  le_address_family : NetworkAddressFamily;
  le_protocol : TransportProtocol;
  le_endpoint_kind : TcpEndpointKind;
  le_local : option NetworkEndpoint;
  le_remote : option NetworkEndpoint;
  le_socket_cookie : option Z;
  le_platform_connection_id : option Z;
  le_tcp_state : option Z }.

Record ProcessExecEvent := MkProcessExecEvent {
  pe_type : ProcessExecEventType;
  pe_timestamp_ns : Z;
  pe_pid : option Z;
  pe_tgid : option Z;
  pe_parent_pid : option Z;
  pe_parent_tgid : option Z;
  pe_uid : option Z;
  pe_gid : option Z;
  pe_process_start_time_ns : option Z;
  pe_platform_process_key : option Z;
  pe_parent_process_start_time_ns : option Z;
  pe_parent_platform_process_key : option Z;
  pe_session_id : option Z;
  pe_user_identity : string;
  pe_integrity_level : string;
  pe_elevated : option bool;
  pe_exit_code : option Z;
  pe_cgroup_id : option Z;
  pe_comm : string;
  pe_executable_path : string;
  pe_command_line : string;
  pe_working_directory : string }.

Record ConnectionSummary := MkConnectionSummary {
  cs_id : Z;
  cs_first_seen_ns : Z;
  cs_last_seen_ns : Z;
  cs_captured_at_ns : option Z;
  cs_direction : ConnectionDirection;
  cs_socket_cookie : Z;
  cs_socket_inode : Z;
  cs_network_namespace_inode : option Z;
  cs_process : ProcessIdentity;
  cs_local_ip : string;
  cs_local_port : Z;
  cs_remote_ip : string;
  cs_remote_port : Z;
  cs_target_host : string;
  cs_lifecycle_state : string;
  cs_performance : PerformanceState;
  cs_trust : TrustState }.

(** ** Connection admission policy
    ([connection_filter.cpp], [connection_admission_policy.cpp]) *)

Record ConnectionFilter := MkConnectionFilter {
  cf_local_port : option Z;
  cf_remote_port : option Z;
  cf_include_processes : gset string;
  cf_exclude_processes : gset string }.

Definition matches_filter (filter : ConnectionFilter) (local_port remote_port : option Z)
    (process_name : option string) : bool :=
  if has (cf_local_port filter) && negb (bool_decide (local_port = cf_local_port filter)) then false
  else if has (cf_remote_port filter) && negb (bool_decide (remote_port = cf_remote_port filter)) then false
  else if negb (bool_decide (cf_include_processes filter = ∅)) &&
          match process_name with
          | None => true
          | Some name => negb (bool_decide (name ∈ cf_include_processes filter))
          end then false
  else if negb (bool_decide (cf_exclude_processes filter = ∅)) && negb (has process_name) then false
  else match process_name with
       | None => true
       | Some name => negb (bool_decide (name ∈ cf_exclude_processes filter))
       end.

Inductive ObservationMode := ModeTarget | ModeOutbound | ModeInbound | ModeAll.
#[global] Instance ObservationMode_eq_dec : EqDecision ObservationMode.
Proof. solve_decision. Defined.

Record AdmissionPolicyConfig := MkAdmissionPolicyConfig {
  ap_mode : ObservationMode;
  ap_filter : ConnectionFilter;
  ap_target_addresses : gset string;
  ap_target_port : Z }.

Record AdmissionDecision := MkAdmissionDecision {
  ad_admit : bool;
  ad_direction : ConnectionDirection }.

(** [AdmissionDecision{}] *)
Definition refuse : AdmissionDecision := MkAdmissionDecision false DirectionUnknown.

Definition permits (config : AdmissionPolicyConfig) (direction : ConnectionDirection) : bool :=
  match ap_mode config with
  | ModeTarget => bool_decide (direction = Outbound)
  | ModeOutbound => bool_decide (direction = Outbound)
  | ModeInbound => bool_decide (direction = Inbound)
  | ModeAll => bool_decide (direction = Outbound) || bool_decide (direction = Inbound)
  end.

Definition policy_evaluate (config : AdmissionPolicyConfig) (event : ConnectionLifecycleEvent)
    : AdmissionDecision :=
  if bool_decide (le_type event = Close) then MkAdmissionDecision true DirectionUnknown
  else
    match eligible_connection_seed (le_endpoint_kind event), le_local event, le_remote event with
    | true, Some local, Some remote =>
        let direction := match le_type event with
                         | Connect => Outbound
                         | Accept => Inbound
                         | _ => DirectionUnknown
                         end in
        if negb (permits config direction) then refuse
        else if bool_decide (ap_mode config = ModeTarget) &&
                (negb (bool_decide (ne_port remote = Some (ap_target_port config))) ||
                 negb (bool_decide (ne_address remote ∈ ap_target_addresses config)))
        then refuse
        else if negb (matches_filter (ap_filter config) (ne_port local) (ne_port remote)
                        (lpc_comm (le_process event)))
        then refuse
        else MkAdmissionDecision true direction
    | _, _, _ => refuse
    end.

Definition evaluate_new_socket (config : AdmissionPolicyConfig) (socket : SocketObservation)
    (process_name : option string) : AdmissionDecision :=
  if negb (eligible_connection_seed (so_endpoint_kind socket)) then refuse
  else if negb (bool_decide (ap_mode config = ModeTarget)) ||
          negb (so_remote_port socket =? ap_target_port config) ||
          negb (bool_decide (so_remote_ip socket ∈ ap_target_addresses config)) ||
          negb (matches_filter (ap_filter config) (Some (so_local_port socket))
                  (Some (so_remote_port socket)) process_name)
  then refuse
  else MkAdmissionDecision true DirectionUnknown.

Definition evaluate_reconciliation_socket (config : AdmissionPolicyConfig)
    (socket : SocketObservation) (process_name : option string) : AdmissionDecision :=
  if negb (eligible_connection_seed (so_endpoint_kind socket)) then refuse
  else if negb (matches_filter (ap_filter config) (Some (so_local_port socket))
                  (Some (so_remote_port socket)) process_name) then refuse
  else match ap_mode config with
       | ModeTarget =>
           if negb (so_remote_port socket =? ap_target_port config) ||
              negb (bool_decide (so_remote_ip socket ∈ ap_target_addresses config))
           then refuse
           else MkAdmissionDecision true DirectionUnknown
       | ModeAll => MkAdmissionDecision true DirectionUnknown
       | _ => refuse
       end.

(** A directional claim is made only from lifecycle evidence of that direction
    that the mode asks for: an admitted non-close event is a connect or an
    accept, and its direction is the one the mode permits. *)
Lemma policy_evaluate_sound config event :
  ad_admit (policy_evaluate config event) = true ->
  le_type event <> Close ->
  permits config (ad_direction (policy_evaluate config event)) = true /\
  (ad_direction (policy_evaluate config event) = Outbound /\ le_type event = Connect \/
   ad_direction (policy_evaluate config event) = Inbound /\ le_type event = Accept) /\
  eligible_connection_seed (le_endpoint_kind event) = true /\
  is_Some (le_local event) /\ is_Some (le_remote event).
Proof.
  unfold policy_evaluate. case_bool_decide; [done|]. intros Hadm _.
  destruct (eligible_connection_seed _) eqn:He; [|done].
  destruct (le_local event); [|done]. destruct (le_remote event) as [remote|]; [|done].
  destruct (permits config _) eqn:Hp; simpl in *; [|done].
  destruct (bool_decide (ap_mode config = ModeTarget) && _); [done|].
  destruct (matches_filter _ _ _ _); simpl in *; [|done].
  repeat split; eauto.
  unfold permits in Hp. destruct (le_type event), (ap_mode config); naive_solver.
Qed.

(** A port filter, when set, fixes the port. *)
Lemma port_filter_spec (wanted port : option Z) :
  has wanted && negb (bool_decide (port = wanted)) = false <->
  (forall p, wanted = Some p -> port = Some p).
Proof. destruct wanted; simpl; [case_bool_decide|]; naive_solver. Qed.

Lemma include_filter_spec (names : gset string) (name : option string) :
  negb (bool_decide (names = ∅)) &&
    match name with None => true | Some n => negb (bool_decide (n ∈ names)) end = false <->
  (names <> ∅ -> exists n, name = Some n /\ n ∈ names).
Proof. destruct name; repeat case_bool_decide; naive_solver. Qed.

Lemma exclude_filter_spec (names : gset string) (name : option string) :
  (if negb (bool_decide (names = ∅)) && negb (has name) then false
   else match name with None => true | Some n => negb (bool_decide (n ∈ names)) end) = true <->
  (names <> ∅ -> exists n, name = Some n /\ n ∉ names).
Proof. destruct name; repeat case_bool_decide; simpl; set_solver. Qed.

(** The admitted local and remote ports pass the port filters, and the process
    name the include and exclude lists. *)
Lemma matches_filter_spec filter local_port remote_port process_name :
  matches_filter filter local_port remote_port process_name = true <->
  (forall p, cf_local_port filter = Some p -> local_port = Some p) /\
  (forall p, cf_remote_port filter = Some p -> remote_port = Some p) /\
  (cf_include_processes filter <> ∅ ->
     exists name, process_name = Some name /\ name ∈ cf_include_processes filter) /\
  (cf_exclude_processes filter <> ∅ ->
     exists name, process_name = Some name /\ name ∉ cf_exclude_processes filter).
Proof.
  unfold matches_filter.
  rewrite <- !port_filter_spec, <- include_filter_spec, <- exclude_filter_spec.
  destruct (has (cf_local_port filter) && _), (has (cf_remote_port filter) && _),
    (negb (bool_decide (cf_include_processes filter = ∅)) && _); naive_solver.
Qed.
