(* ===== verification/SensorBroker.v ===== *)
(** The wire protocol of the Linux sensor broker
    ([include/neta/sensor_broker.hpp], lines 40-470 and 737-760): packed frame
    header and payload structs, the fixed-size text fields, the presence flags,
    the encoders and decoders of the three messages, and the parser of a
    [--map SLOT:NETNS:CGROUP] argument. *)

From S2P Require Import Prelude Text Wire Model.

(** ** Constants *)

Definition kMagic : Z := 0x4e534231.
Definition kProtocolVersion : Z := 1.
Definition kSlotLength : nat := 64.
Definition kAddressLength : nat := 64.
Definition kCommLength : nat := 64.
Definition kPathLength : nat := 512.
Definition kCommandLineLength : nat := 1024.
Definition kWorkingDirectoryLength : nat := 512.
Definition kIdentityLength : nat := 128.
Definition kIntegrityLength : nat := 64.
Definition kMaxFrameSize : Z := 8192.

Inductive EventKind := KindLifecycle | KindProcessExec.
Inductive MessageType := MsgRegister | MsgLifecycle | MsgProcessExec.
#[global] Instance EventKind_eq_dec : EqDecision EventKind.
Proof. solve_decision. Defined.

Definition event_kind_code (k : EventKind) : Z :=
  match k with KindLifecycle => 1 | KindProcessExec => 2 end.
Definition message_type_code (t : MessageType) : Z :=
  match t with MsgRegister => 1 | MsgLifecycle => 2 | MsgProcessExec => 3 end.
Definition message_type (k : EventKind) : MessageType :=
  match k with KindLifecycle => MsgLifecycle | KindProcessExec => MsgProcessExec end.

(** ** Text fields *)

(** [copy_text(char (&target)[n], value)]: zero the array, copy at most [n-1] bytes. *)
Definition copy_text (n : nat) (value : string) : list byte :=
  let bytes := String.list_byte_of_string value in
  let count := Nat.min (length bytes) (n - 1) in
  take count bytes ++ repeat x00 (n - count).

(** [read_text(const char (&value)[n])]: the bytes before the first NUL. *)
Definition read_text (value : list byte) : string :=
  String.string_of_list_byte (take_until_nul value).

#[global] Arguments copy_text : simpl never.
#[global] Arguments read_text : simpl never.

(** ** Packed structs *)

Record FrameHeader := MkFrameHeader {
  fh_magic : Z; fh_version : Z; fh_type : Z; fh_sequence : Z;
  fh_payload_size : Z; fh_reserved : Z }.

Definition frame_header_codec : Codec FrameHeader :=
  struct_codec
    (fun '(a, (b, (c, (d, (e, f))))) => MkFrameHeader a b c d e f)
    (fun h => (fh_magic h, (fh_version h, (fh_type h, (fh_sequence h,
              (fh_payload_size h, fh_reserved h))))))
    (pair_codec (uint_codec 4) (pair_codec (uint_codec 2) (pair_codec (uint_codec 2)
    (pair_codec (uint_codec 8) (pair_codec (uint_codec 4) (uint_codec 4)))))).

Record RegistrationPayload := MkRegistrationPayload {
  rp_event_kind : Z; rp_reserved : Z; rp_endpoint_slot : list byte }.

Definition registration_codec : Codec RegistrationPayload :=
  struct_codec
    (fun '(a, (b, c)) => MkRegistrationPayload a b c)
    (fun p => (rp_event_kind p, (rp_reserved p, rp_endpoint_slot p)))
    (pair_codec (uint_codec 2) (pair_codec (uint_codec 2) (chars_codec kSlotLength))).

Record LifecyclePayload := MkLifecyclePayload {
  lp_flags : Z; lp_event_type : Z; lp_provenance : Z; lp_address_family : Z;
  lp_protocol : Z; lp_endpoint_kind : Z; lp_tcp_state : Z; lp_reserved : Z;
  lp_timestamp_ns : Z; lp_agent_pid : Z; lp_agent_tgid : Z; lp_kernel_pid : Z;
  lp_kernel_tgid : Z; lp_pid_namespace_device : Z; lp_pid_namespace_inode : Z;
  lp_uid : Z; lp_reserved2 : Z; lp_start_ticks : Z; lp_network_namespace_inode : Z;
  lp_socket_cookie : Z; lp_platform_connection_id : Z; lp_local_port : Z; lp_remote_port : Z;
  lp_comm : list byte; lp_local_address : list byte; lp_remote_address : list byte }.

Definition lifecycle_codec : Codec LifecyclePayload :=
  struct_codec
    (fun '(flags, (event_type, (provenance, (family, (protocol, (kind, (tcp_state, (reserved,
           (timestamp, (agent_pid, (agent_tgid, (kernel_pid, (kernel_tgid, (device, (inode,
           (uid, (reserved2, (ticks, (netns, (cookie, (platform_id, (local_port, (remote_port,
           (comm, (local_address, remote_address))))))))))))))))))))))))) =>
       MkLifecyclePayload flags event_type provenance family protocol kind tcp_state reserved
         timestamp agent_pid agent_tgid kernel_pid kernel_tgid device inode uid reserved2 ticks
         netns cookie platform_id local_port remote_port comm local_address remote_address)
    (fun p =>
       (lp_flags p, (lp_event_type p, (lp_provenance p, (lp_address_family p, (lp_protocol p,
       (lp_endpoint_kind p, (lp_tcp_state p, (lp_reserved p, (lp_timestamp_ns p, (lp_agent_pid p,
       (lp_agent_tgid p, (lp_kernel_pid p, (lp_kernel_tgid p, (lp_pid_namespace_device p,
       (lp_pid_namespace_inode p, (lp_uid p, (lp_reserved2 p, (lp_start_ticks p,
       (lp_network_namespace_inode p, (lp_socket_cookie p, (lp_platform_connection_id p,
       (lp_local_port p, (lp_remote_port p, (lp_comm p, (lp_local_address p,
        lp_remote_address p))))))))))))))))))))))))))
    (pair_codec (uint_codec 4) (pair_codec (uint_codec 1) (pair_codec (uint_codec 1)
    (pair_codec (uint_codec 1) (pair_codec (uint_codec 1) (pair_codec (uint_codec 1)
    (pair_codec (uint_codec 1) (pair_codec (uint_codec 2) (pair_codec (uint_codec 8)
    (pair_codec (sint_codec 8) (pair_codec (sint_codec 8) (pair_codec (sint_codec 8)
    (pair_codec (sint_codec 8) (pair_codec (uint_codec 8) (pair_codec (uint_codec 8)
    (pair_codec (uint_codec 4) (pair_codec (uint_codec 4) (pair_codec (uint_codec 8)
    (pair_codec (uint_codec 8) (pair_codec (uint_codec 8) (pair_codec (uint_codec 8)
    (pair_codec (uint_codec 2) (pair_codec (uint_codec 2) (pair_codec (chars_codec kCommLength)
    (pair_codec (chars_codec kAddressLength) (chars_codec kAddressLength)))))))))))))))))))))))))).

Record ProcessExecPayload := MkProcessExecPayload {
  pp_flags : Z; pp_event_type : Z; pp_elevated : Z; pp_reserved : Z; pp_timestamp_ns : Z;
  pp_pid : Z; pp_tgid : Z; pp_parent_pid : Z; pp_parent_tgid : Z; pp_uid : Z; pp_gid : Z;
  pp_process_start_time_ns : Z; pp_platform_process_key : Z;
  pp_parent_process_start_time_ns : Z; pp_parent_platform_process_key : Z;
  pp_session_id : Z; pp_exit_code : Z; pp_cgroup_id : Z;
  pp_comm : list byte; pp_executable_path : list byte; pp_command_line : list byte;
  pp_working_directory : list byte; pp_user_identity : list byte; pp_integrity_level : list byte }.

Definition process_exec_codec : Codec ProcessExecPayload :=
  struct_codec
    (fun '(flags, (event_type, (elevated, (reserved, (timestamp, (pid, (tgid, (parent_pid,
           (parent_tgid, (uid, (gid, (start, (key, (parent_start, (parent_key, (session, (code,
           (cgroup, (comm, (path, (command, (directory, (user, integrity))))))))))))))))))))))) =>
       MkProcessExecPayload flags event_type elevated reserved timestamp pid tgid parent_pid
         parent_tgid uid gid start key parent_start parent_key session code cgroup comm path
         command directory user integrity)
    (fun p =>
       (pp_flags p, (pp_event_type p, (pp_elevated p, (pp_reserved p, (pp_timestamp_ns p,
       (pp_pid p, (pp_tgid p, (pp_parent_pid p, (pp_parent_tgid p, (pp_uid p, (pp_gid p,
       (pp_process_start_time_ns p, (pp_platform_process_key p,
       (pp_parent_process_start_time_ns p, (pp_parent_platform_process_key p, (pp_session_id p,
       (pp_exit_code p, (pp_cgroup_id p, (pp_comm p, (pp_executable_path p, (pp_command_line p,
       (pp_working_directory p, (pp_user_identity p, pp_integrity_level p))))))))))))))))))))))))
    (pair_codec (uint_codec 4) (pair_codec (uint_codec 1) (pair_codec (uint_codec 1)
    (pair_codec (uint_codec 2) (pair_codec (uint_codec 8) (pair_codec (sint_codec 8)
    (pair_codec (sint_codec 8) (pair_codec (sint_codec 8) (pair_codec (sint_codec 8)
    (pair_codec (uint_codec 4) (pair_codec (uint_codec 4) (pair_codec (uint_codec 8)
    (pair_codec (uint_codec 8) (pair_codec (uint_codec 8) (pair_codec (uint_codec 8)
    (pair_codec (uint_codec 4) (pair_codec (sint_codec 4) (pair_codec (uint_codec 8)
    (pair_codec (chars_codec kCommLength) (pair_codec (chars_codec kPathLength)
    (pair_codec (chars_codec kCommandLineLength) (pair_codec (chars_codec kWorkingDirectoryLength)
    (pair_codec (chars_codec kIdentityLength) (chars_codec kIntegrityLength)))))))))))))))))))))))).

(** ** Presence flags *)

Definition LifecycleAgentPid : Z := 2 ^ 0.
Definition LifecycleKernelPid : Z := 2 ^ 1.
Definition LifecyclePidNamespace : Z := 2 ^ 2.
Definition LifecycleUid : Z := 2 ^ 3.
Definition LifecycleStartTicks : Z := 2 ^ 4.
Definition LifecycleNetns : Z := 2 ^ 5.
Definition LifecycleSocketCookie : Z := 2 ^ 6.
Definition LifecyclePlatformConnectionId : Z := 2 ^ 7.
Definition LifecycleTcpState : Z := 2 ^ 8.
Definition LifecycleLocal : Z := 2 ^ 9.
Definition LifecycleLocalPort : Z := 2 ^ 10.
Definition LifecycleRemote : Z := 2 ^ 11.
Definition LifecycleRemotePort : Z := 2 ^ 12.

Definition ProcessPid : Z := 2 ^ 0.
Definition ProcessParent : Z := 2 ^ 1.
Definition ProcessUid : Z := 2 ^ 2.
Definition ProcessGid : Z := 2 ^ 3.
Definition ProcessStart : Z := 2 ^ 4.
Definition ProcessPlatformKey : Z := 2 ^ 5.
Definition ProcessParentStart : Z := 2 ^ 6.
Definition ProcessParentPlatformKey : Z := 2 ^ 7.
Definition ProcessSession : Z := 2 ^ 8.
Definition ProcessElevated : Z := 2 ^ 9.
Definition ProcessExitCode : Z := 2 ^ 10.
Definition ProcessCgroup : Z := 2 ^ 11.

(** [if (present) flags |= bit] and [(flags & bit) != 0U]. *)
Definition set_flag (present : bool) (bit flags : Z) : Z :=
  if present then Z.lor flags bit else flags.
Definition test_flag (flags bit : Z) : bool := negb (Z.land flags bit =? 0).
#[global] Arguments test_flag : simpl never.

(** ** Frames *)

Definition make_frame {P} (codec : Codec P) (type : MessageType) (sequence : Z) (payload : P)
    : list byte :=
  let header := MkFrameHeader kMagic kProtocolVersion (message_type_code type) sequence
                  (Z.of_nat (c_size codec)) 0 in
  c_put frame_header_codec header ++ c_put codec payload.

Definition frame_header (bytes : list byte) : option FrameHeader :=
  if bool_decide (length bytes < c_size frame_header_codec)%nat then None
  else
    let header := c_get frame_header_codec bytes in
    if negb (fh_magic header =? kMagic) || negb (fh_version header =? kProtocolVersion) then None
    else
      let payload := fh_payload_size header in
      if (kMaxFrameSize <? payload) ||
         negb (Z.of_nat (length bytes) =? Z.of_nat (c_size frame_header_codec) + payload) then None
      else Some header.

Definition frame_payload {P} (codec : Codec P) (bytes : list byte) (type : MessageType) : option P :=
  match frame_header bytes with
  | None => None
  | Some header =>
      if negb (fh_type header =? message_type_code type) ||
         negb (fh_payload_size header =? Z.of_nat (c_size codec)) then None
      else Some (c_get codec (drop (c_size frame_header_codec) bytes))
  end.

(** ** Registration *)

Definition encode_registration (slot : string) (kind : EventKind) : result (list byte) :=
  if bool_decide (slot = "") || bool_decide (kSlotLength <= String.length slot)%nat
  then Throw "broker endpoint slot must contain 1-63 bytes"
  else Ok (make_frame registration_codec MsgRegister 0
             (MkRegistrationPayload (event_kind_code kind) 0 (copy_text kSlotLength slot))).

Record Registration := MkRegistration { rg_endpoint_slot : string; rg_event_kind : EventKind }.

Definition decode_registration (bytes : list byte) : option Registration :=
  match frame_payload registration_codec bytes MsgRegister with
  | None => None
  | Some payload =>
      let kind :=
        if rp_event_kind payload =? event_kind_code KindLifecycle then Some KindLifecycle
        else if rp_event_kind payload =? event_kind_code KindProcessExec then Some KindProcessExec
        else None in
      match kind with
      | None => None
      | Some kind =>
          let slot := read_text (rp_endpoint_slot payload) in
          if bool_decide (slot = "") then None else Some (MkRegistration slot kind)
      end
  end.

(** ** Enumerators on the wire: [static_cast] to and from [std::uint8_t] *)

Definition event_type_code (t : ConnectionLifecycleEventType) : Z :=
  match t with Connect => 0 | Accept => 1 | Close => 2 | EventTypeRaw n => wrap_u 8 n end.
Definition event_type_of (n : Z) : ConnectionLifecycleEventType :=
  if n =? 0 then Connect else if n =? 1 then Accept else if n =? 2 then Close else EventTypeRaw n.

Definition provenance_code (p : LifecycleProvenance) : Z :=
  match p with EbpfCore => 0 | WindowsEtw => 1 | DeterministicTest => 2 | ProvenanceRaw n => wrap_u 8 n end.
Definition provenance_of (n : Z) : LifecycleProvenance :=
  if n =? 0 then EbpfCore else if n =? 1 then WindowsEtw else if n =? 2 then DeterministicTest
  else ProvenanceRaw n.

Definition family_code (f : NetworkAddressFamily) : Z :=
  match f with FamilyUnknown => 0 | IPv4 => 1 | IPv6 => 2 | FamilyRaw n => wrap_u 8 n end.
Definition family_of (n : Z) : NetworkAddressFamily :=
  if n =? 0 then FamilyUnknown else if n =? 1 then IPv4 else if n =? 2 then IPv6 else FamilyRaw n.

Definition protocol_code (p : TransportProtocol) : Z :=
  match p with ProtocolUnknown => 0 | Tcp => 1 | ProtocolRaw n => wrap_u 8 n end.
Definition protocol_of (n : Z) : TransportProtocol :=
  if n =? 0 then ProtocolUnknown else if n =? 1 then Tcp else ProtocolRaw n.

Definition endpoint_kind_code (k : TcpEndpointKind) : Z :=
  match k with
  | EndpointUnknown => 0 | Connection => 1 | Listener => 2 | LifecycleTail => 3
  | EndpointRaw n => wrap_u 8 n
  end.
Definition endpoint_kind_of (n : Z) : TcpEndpointKind :=
  if n =? 0 then EndpointUnknown else if n =? 1 then Connection else if n =? 2 then Listener
  else if n =? 3 then LifecycleTail else EndpointRaw n.

Definition exec_type_code (t : ProcessExecEventType) : Z :=
  match t with Start => 0 | Exit => 1 | ExecTypeRaw n => wrap_u 8 n end.
Definition exec_type_of (n : Z) : ProcessExecEventType :=
  if n =? 0 then Start else if n =? 1 then Exit else ExecTypeRaw n.

(** ** Lifecycle events *)

(** Both members of a pid pair, or nothing. *)
Definition both_ids (ids : LifecycleProcessIds) : option (Z * Z) :=
  match lpi_pid ids, lpi_tgid ids with
  | Some pid, Some tgid => Some (pid, tgid)
  | _, _ => None
  end.

Definition endpoint_port (endpoint : option NetworkEndpoint) : option Z :=
  match endpoint with Some e => ne_port e | None => None end.

Definition lifecycle_flags (event : ConnectionLifecycleEvent) : Z :=
  let p := le_process event in
  set_flag (has (endpoint_port (le_remote event))) LifecycleRemotePort
  (set_flag (has (le_remote event)) LifecycleRemote
  (set_flag (has (endpoint_port (le_local event))) LifecycleLocalPort
  (set_flag (has (le_local event)) LifecycleLocal
  (set_flag (has (le_tcp_state event)) LifecycleTcpState
  (set_flag (has (le_platform_connection_id event)) LifecyclePlatformConnectionId
  (set_flag (has (le_socket_cookie event)) LifecycleSocketCookie
  (set_flag (has (le_network_namespace_inode event)) LifecycleNetns
  (set_flag (has (lpc_start_ticks p)) LifecycleStartTicks
  (set_flag (has (lpc_uid p)) LifecycleUid
  (set_flag (has (lpc_agent_pid_namespace p)) LifecyclePidNamespace
  (set_flag (has (both_ids (lpc_kernel p))) LifecycleKernelPid
  (set_flag (has (both_ids (lpc_agent_visible p))) LifecycleAgentPid 0)))))))))))).

Definition endpoint_text (endpoint : option NetworkEndpoint) : list byte :=
  match endpoint with
  | Some e => copy_text kAddressLength (ne_address e)
  | None => repeat x00 kAddressLength
  end.

Definition lifecycle_payload (event : ConnectionLifecycleEvent) : LifecyclePayload :=
  let p := le_process event in
  let agent := value_or (both_ids (lpc_agent_visible p)) (0, 0) in
  let kernel := value_or (both_ids (lpc_kernel p)) (0, 0) in
  let ns := value_or (lpc_agent_pid_namespace p) (MkProcessNamespaceIdentity 0 0) in
  {| lp_flags := lifecycle_flags event;
     lp_event_type := event_type_code (le_type event);
     lp_provenance := provenance_code (le_provenance event);
     lp_address_family := family_code (le_address_family event);
     lp_protocol := protocol_code (le_protocol event);
     lp_endpoint_kind := endpoint_kind_code (le_endpoint_kind event);
     lp_tcp_state := value_or (le_tcp_state event) 0;
     lp_reserved := 0;
     lp_timestamp_ns := le_timestamp_ns event;
     lp_agent_pid := agent.1;
     lp_agent_tgid := agent.2;
     lp_kernel_pid := kernel.1;
     lp_kernel_tgid := kernel.2;
     lp_pid_namespace_device := pni_device ns;
     lp_pid_namespace_inode := pni_inode ns;
     lp_uid := value_or (lpc_uid p) 0;
     lp_reserved2 := 0;
     lp_start_ticks := value_or (lpc_start_ticks p) 0;
     lp_network_namespace_inode := value_or (le_network_namespace_inode event) 0;
     lp_socket_cookie := value_or (le_socket_cookie event) 0;
     lp_platform_connection_id := value_or (le_platform_connection_id event) 0;
     lp_local_port := value_or (endpoint_port (le_local event)) 0;
     lp_remote_port := value_or (endpoint_port (le_remote event)) 0;
     lp_comm := copy_text kCommLength (value_or (lpc_comm p) "");
     lp_local_address := endpoint_text (le_local event);
     lp_remote_address := endpoint_text (le_remote event) |}.

Definition encode_lifecycle (sequence : Z) (event : ConnectionLifecycleEvent) : list byte :=
  make_frame lifecycle_codec MsgLifecycle sequence (lifecycle_payload event).

Definition when {A} (present : bool) (a : A) : option A := if present then Some a else None.

Definition decode_lifecycle (bytes : list byte) : option ConnectionLifecycleEvent :=
  match frame_payload lifecycle_codec bytes MsgLifecycle with
  | None => None
  | Some payload =>
      let flag := test_flag (lp_flags payload) in
      let comm := read_text (lp_comm payload) in
      Some {|
        le_type := event_type_of (lp_event_type payload);
        le_timestamp_ns := lp_timestamp_ns payload;
        le_provenance := provenance_of (lp_provenance payload);
        le_process := {|
          lpc_agent_visible :=
            MkLifecycleProcessIds (when (flag LifecycleAgentPid) (lp_agent_pid payload))
                                  (when (flag LifecycleAgentPid) (lp_agent_tgid payload));
          lpc_kernel :=
            MkLifecycleProcessIds (when (flag LifecycleKernelPid) (lp_kernel_pid payload))
                                  (when (flag LifecycleKernelPid) (lp_kernel_tgid payload));
          lpc_agent_pid_namespace :=
            when (flag LifecyclePidNamespace)
              (MkProcessNamespaceIdentity (lp_pid_namespace_device payload)
                                          (lp_pid_namespace_inode payload));
          lpc_uid := when (flag LifecycleUid) (lp_uid payload);
          lpc_start_ticks := when (flag LifecycleStartTicks) (lp_start_ticks payload);
          lpc_comm := when (negb (bool_decide (comm = ""))) comm |};
        le_network_namespace_inode := when (flag LifecycleNetns) (lp_network_namespace_inode payload);
        le_address_family := family_of (lp_address_family payload);
        le_protocol := protocol_of (lp_protocol payload);
        le_endpoint_kind := endpoint_kind_of (lp_endpoint_kind payload);
        le_local := when (flag LifecycleLocal)
          (MkNetworkEndpoint (read_text (lp_local_address payload))
                             (when (flag LifecycleLocalPort) (lp_local_port payload)));
        le_remote := when (flag LifecycleRemote)
          (MkNetworkEndpoint (read_text (lp_remote_address payload))
                             (when (flag LifecycleRemotePort) (lp_remote_port payload)));
        le_socket_cookie := when (flag LifecycleSocketCookie) (lp_socket_cookie payload);
        le_platform_connection_id :=
          when (flag LifecyclePlatformConnectionId) (lp_platform_connection_id payload);
        le_tcp_state := when (flag LifecycleTcpState) (lp_tcp_state payload) |}
  end.

(** ** Process events *)

Definition both {A B} (a : option A) (b : option B) : option (A * B) :=
  match a, b with Some x, Some y => Some (x, y) | _, _ => None end.

Definition process_exec_flags (event : ProcessExecEvent) : Z :=
  set_flag (has (pe_cgroup_id event)) ProcessCgroup
  (set_flag (has (pe_exit_code event)) ProcessExitCode
  (set_flag (has (pe_elevated event)) ProcessElevated
  (set_flag (has (pe_session_id event)) ProcessSession
  (set_flag (has (pe_parent_platform_process_key event)) ProcessParentPlatformKey
  (set_flag (has (pe_parent_process_start_time_ns event)) ProcessParentStart
  (set_flag (has (pe_platform_process_key event)) ProcessPlatformKey
  (set_flag (has (pe_process_start_time_ns event)) ProcessStart
  (set_flag (has (pe_gid event)) ProcessGid
  (set_flag (has (pe_uid event)) ProcessUid
  (set_flag (has (both (pe_parent_pid event) (pe_parent_tgid event))) ProcessParent
  (set_flag (has (both (pe_pid event) (pe_tgid event))) ProcessPid 0))))))))))).

Definition process_exec_payload (event : ProcessExecEvent) : ProcessExecPayload :=
  let ids := value_or (both (pe_pid event) (pe_tgid event)) (0, 0) in
  let parents := value_or (both (pe_parent_pid event) (pe_parent_tgid event)) (0, 0) in
  {| pp_flags := process_exec_flags event;
     pp_event_type := exec_type_code (pe_type event);
     pp_elevated := if value_or (pe_elevated event) false then 1 else 0;
     pp_reserved := 0;
     pp_timestamp_ns := pe_timestamp_ns event;
     pp_pid := ids.1;
     pp_tgid := ids.2;
     pp_parent_pid := parents.1;
     pp_parent_tgid := parents.2;
     pp_uid := value_or (pe_uid event) 0;
     pp_gid := value_or (pe_gid event) 0;
     pp_process_start_time_ns := value_or (pe_process_start_time_ns event) 0;
     pp_platform_process_key := value_or (pe_platform_process_key event) 0;
     pp_parent_process_start_time_ns := value_or (pe_parent_process_start_time_ns event) 0;
     pp_parent_platform_process_key := value_or (pe_parent_platform_process_key event) 0;
     pp_session_id := value_or (pe_session_id event) 0;
     pp_exit_code := value_or (pe_exit_code event) 0;
     pp_cgroup_id := value_or (pe_cgroup_id event) 0;
     pp_comm := copy_text kCommLength (pe_comm event);
     pp_executable_path := copy_text kPathLength (pe_executable_path event);
     pp_command_line := copy_text kCommandLineLength (pe_command_line event);
     pp_working_directory := copy_text kWorkingDirectoryLength (pe_working_directory event);
     pp_user_identity := copy_text kIdentityLength (pe_user_identity event);
     pp_integrity_level := copy_text kIntegrityLength (pe_integrity_level event) |}.

Definition encode_process_exec (sequence : Z) (event : ProcessExecEvent) : list byte :=
  make_frame process_exec_codec MsgProcessExec sequence (process_exec_payload event).

Definition decode_process_exec (bytes : list byte) : option ProcessExecEvent :=
  match frame_payload process_exec_codec bytes MsgProcessExec with
  | None => None
  | Some payload =>
      let flag := test_flag (pp_flags payload) in
      Some {|
        pe_type := exec_type_of (pp_event_type payload);
        pe_timestamp_ns := pp_timestamp_ns payload;
        pe_pid := when (flag ProcessPid) (pp_pid payload);
        pe_tgid := when (flag ProcessPid) (pp_tgid payload);
        pe_parent_pid := when (flag ProcessParent) (pp_parent_pid payload);
        pe_parent_tgid := when (flag ProcessParent) (pp_parent_tgid payload);
        pe_uid := when (flag ProcessUid) (pp_uid payload);
        pe_gid := when (flag ProcessGid) (pp_gid payload);
        pe_process_start_time_ns := when (flag ProcessStart) (pp_process_start_time_ns payload);
        pe_platform_process_key := when (flag ProcessPlatformKey) (pp_platform_process_key payload);
        pe_parent_process_start_time_ns :=
          when (flag ProcessParentStart) (pp_parent_process_start_time_ns payload);
        pe_parent_platform_process_key :=
          when (flag ProcessParentPlatformKey) (pp_parent_platform_process_key payload);
        pe_session_id := when (flag ProcessSession) (pp_session_id payload);
        pe_user_identity := read_text (pp_user_identity payload);
        pe_integrity_level := read_text (pp_integrity_level payload);
        pe_elevated := when (flag ProcessElevated) (negb (pp_elevated payload =? 0));
        pe_exit_code := when (flag ProcessExitCode) (pp_exit_code payload);
        pe_cgroup_id := when (flag ProcessCgroup) (pp_cgroup_id payload);
        pe_comm := read_text (pp_comm payload);
        pe_executable_path := read_text (pp_executable_path payload);
        pe_command_line := read_text (pp_command_line payload);
        pe_working_directory := read_text (pp_working_directory payload) |}
  end.

(** ** Laws of the wire format *)

#[global] Instance frame_header_codec_laws : CodecLaws frame_header_codec.
Proof. apply struct_codec_laws; [by intros []|apply _]. Qed.
#[global] Instance registration_codec_laws : CodecLaws registration_codec.
Proof. apply struct_codec_laws; [by intros []|apply _]. Qed.
#[global] Instance lifecycle_codec_laws : CodecLaws lifecycle_codec.
Proof. apply struct_codec_laws; [by intros []|apply _]. Qed.
#[global] Instance process_exec_codec_laws : CodecLaws process_exec_codec.
Proof. apply struct_codec_laws; [by intros []|apply _]. Qed.

(** What a text field of [n] bytes keeps of a string. *)
Definition text_image (n : nat) (s : string) : string :=
  String.string_of_list_byte (take_until_nul (take (n - 1) (String.list_byte_of_string s))).

Lemma length_list_byte_of_string s : length (String.list_byte_of_string s) = String.length s.
Proof. induction s as [|c s IH]; [done|]. simpl. f_equal. exact IH. Qed.

Lemma length_copy_text n s : (0 < n)%nat -> length (copy_text n s) = n.
Proof.
  intros Hn. unfold copy_text. rewrite length_app, length_take, repeat_length. lia.
Qed.

Lemma take_until_nul_pad l n : (0 < n)%nat ->
  take_until_nul (l ++ repeat x00 n) = take_until_nul l.
Proof.
  intros Hn. induction l as [|b l IH]; simpl.
  - destruct n; [lia|done].
  - destruct (Byte.eqb b x00); [done|]. by rewrite IH.
Qed.

Lemma read_copy_text n s : (0 < n)%nat -> read_text (copy_text n s) = text_image n s.
Proof.
  intros Hn. unfold read_text, copy_text, text_image. f_equal.
  rewrite take_until_nul_pad by lia.
  destruct (Nat.min_spec (length (String.list_byte_of_string s)) (n - 1)) as [[? ->]|[? ->]]; [|done].
  rewrite !take_ge by lia. done.
Qed.

(** A string without NUL that leaves room for the terminator is kept whole. *)
Definition fits (n : nat) (s : string) : Prop :=
  (String.length s < n)%nat /\ nul_free (String.list_byte_of_string s).

Lemma text_image_fits n s : fits n s -> text_image n s = s.
Proof.
  intros [Hlen Hnul]. unfold text_image.
  rewrite take_ge by (rewrite length_list_byte_of_string; lia).
  rewrite <- (app_nil_r (String.list_byte_of_string s)).
  transitivity (String.string_of_list_byte (String.list_byte_of_string s));
    [|apply String.string_of_list_byte_of_string]. f_equal.
  rewrite <- (take_until_nul_app_nul (String.list_byte_of_string s) 1) at 2 by (done || lia).
  rewrite app_nil_r. by rewrite take_until_nul_pad by lia.
Qed.

Lemma test_set_flag present i j flags :
  0 <= i -> 0 <= j ->
  test_flag (set_flag present (2 ^ j) flags) (2 ^ i) =
  if i =? j then present || test_flag flags (2 ^ i) else test_flag flags (2 ^ i).
Proof.
  assert (T : forall f k, 0 <= k -> test_flag f (2 ^ k) = Z.testbit f k).
  { intros f k Hk. unfold test_flag. destruct (Z.testbit f k) eqn:E.
    - destruct (Z.land f (2 ^ k) =? 0) eqn:Z0; [|done]. to_prop.
      assert (Z.testbit (Z.land f (2 ^ k)) k = true) as B
        by (rewrite Z.land_spec, E, Z.pow2_bits_true; done).
      by rewrite Z0, Z.bits_0 in B.
    - replace (Z.land f (2 ^ k)) with 0; [done|].
      symmetry. apply Z.bits_inj'. intros m Hm. rewrite Z.bits_0, Z.land_spec, Z.pow2_bits_eqb by done.
      destruct (Z.eqb_spec k m) as [->|]; [by rewrite E|by rewrite andb_false_r]. }
  intros Hi Hj. rewrite !T by done. unfold set_flag.
  destruct present; simpl; [|by destruct (i =? j)].
  rewrite Z.lor_spec, Z.pow2_bits_eqb by done. rewrite (Z.eqb_sym j i).
  destruct (i =? j); [by rewrite orb_true_r|by rewrite orb_false_r].
Qed.

Lemma test_flag_0 bit : test_flag 0 bit = false.
Proof. done. Qed.

Lemma set_flag_in_u32 present k flags :
  0 <= k < 32 -> in_u 32 flags -> in_u 32 (set_flag present (2 ^ k) flags).
Proof.
  unfold in_u, set_flag. intros Hk Hf. destruct present; [|done].
  split; [apply Z.lor_nonneg; split; [lia|apply Z.pow_nonneg; lia]|].
  destruct (Z.eq_dec flags 0) as [->|]; [rewrite Z.lor_0_l; apply Z.pow_lt_mono_r; lia|].
  assert (0 < Z.lor flags (2 ^ k)).
  { assert (0 <= Z.lor flags (2 ^ k)) by (apply Z.lor_nonneg; split; [lia|apply Z.pow_nonneg; lia]).
    assert (Z.lor flags (2 ^ k) <> 0) by (intros E; apply Z.lor_eq_0_l in E; lia). lia. }
  apply Z.log2_lt_pow2; [done|]. rewrite Z.log2_lor by (lia || (apply Z.pow_nonneg; lia)).
  rewrite Z.log2_pow2 by lia. apply Z.max_lub_lt; [|lia].
  apply Z.log2_lt_pow2; lia.
Qed.

#[export] Hint Resolve set_flag_in_u32 : neta.

(** Decoding a frame gives back the payload it was made from. *)
Lemma frame_payload_make_frame {P} (codec : Codec P) type sequence payload :
  CodecLaws codec -> c_ok codec payload -> in_u 64 sequence ->
  Z.of_nat (c_size codec) <= kMaxFrameSize ->
  frame_payload codec (make_frame codec type sequence payload) type = Some payload.
Proof.
  intros L Hp Hs Hsize. unfold frame_payload, frame_header, make_frame.
  set (h := MkFrameHeader _ _ _ _ _ _).
  assert (Hh : c_ok frame_header_codec h).
  { unfold kMaxFrameSize, in_u in *.
    repeat split; simpl; unfold kMagic, kProtocolVersion; try (destruct type; simpl); lia. }
  rewrite length_app, (put_length h Hh), (put_length payload Hp), (get_put h _ Hh).
  rewrite bool_decide_eq_false_2 by lia. cbn [fh_magic fh_version fh_payload_size fh_type h].
  rewrite !Z.eqb_refl. cbn [negb orb].
  rewrite (proj2 (Z.ltb_ge _ _)) by lia.
  rewrite (proj2 (Z.eqb_eq (Z.of_nat (_ + _)) _)) by lia. cbn [negb orb].
  rewrite !Z.eqb_refl. cbn [negb orb].
  rewrite drop_app_length' by (by rewrite (put_length h Hh)). f_equal.
  rewrite <- (app_nil_r (c_put codec payload)). by apply get_put.
Qed.

(** A frame is accepted only if it carries the magic and the version, and its
    length is exactly the header plus the declared payload. *)
Lemma frame_header_spec bytes header :
  frame_header bytes = Some header <->
  (c_size frame_header_codec <= length bytes)%nat /\
  header = c_get frame_header_codec bytes /\
  fh_magic header = kMagic /\ fh_version header = kProtocolVersion /\
  fh_payload_size header <= kMaxFrameSize /\
  Z.of_nat (length bytes) = Z.of_nat (c_size frame_header_codec) + fh_payload_size header.
Proof.
  unfold frame_header. case_bool_decide as Hlen.
  { split; [done|]. intros (? & _). lia. }
  remember (c_get frame_header_codec bytes) as h eqn:Eh.
  destruct (fh_magic h =? kMagic) eqn:E1, (fh_version h =? kProtocolVersion) eqn:E2; simpl; to_prop;
    try (split; [done|]; intros (_ & -> & ? & ? & _); done).
  destruct (kMaxFrameSize <? fh_payload_size h) eqn:E3; simpl; to_prop;
    try (split; [done|]; intros (_ & -> & _ & _ & ? & _); lia).
  destruct (_ =? _) eqn:E4; simpl; to_prop.
  - split; [intros [= <-]; split_and!; first [assumption | done | apply Nat.nlt_ge; assumption] |]. by intros (_ & -> & _).
  - split; [done|]. by intros (_ & -> & _ & _ & _ & ?).
Qed.

(** ** Round trips *)

Definition opt_all {A} (P : A -> Prop) (o : option A) : Prop :=
  match o with Some a => P a | None => True end.

#[global] Instance opt_all_dec {A} (P : A -> Prop) `{forall a, Decision (P a)} o :
  Decision (opt_all P o).
Proof. destruct o; simpl; apply _. Defined.

Lemma opt_all_value_or w o : 0 <= w -> opt_all (in_u w) o -> in_u w (value_or o 0).
Proof. destruct o; simpl; [done|]. unfold in_u. intros. lia. Qed.

Lemma when_has {A} (o : option A) d : when (has o) (value_or o d) = o.
Proof. by destruct o. Qed.

(** The members of a lifecycle event are in the range of their C++ type, and
    its enumerators are representable in one byte. *)
Definition raw_ok (first n : Z) : Prop := first <= n < 256.

Definition lifecycle_wf (e : ConnectionLifecycleEvent) : Prop :=
  match le_type e with EventTypeRaw n => raw_ok 3 n | _ => True end /\
  match le_provenance e with ProvenanceRaw n => raw_ok 3 n | _ => True end /\
  match le_address_family e with FamilyRaw n => raw_ok 3 n | _ => True end /\
  match le_protocol e with ProtocolRaw n => raw_ok 2 n | _ => True end /\
  match le_endpoint_kind e with EndpointRaw n => raw_ok 4 n | _ => True end /\
  in_u 64 (le_timestamp_ns e) /\
  opt_all (fun ids => in_s 64 ids.1 /\ in_s 64 ids.2) (both_ids (lpc_agent_visible (le_process e))) /\
  opt_all (fun ids => in_s 64 ids.1 /\ in_s 64 ids.2) (both_ids (lpc_kernel (le_process e))) /\
  opt_all (fun ns => in_u 64 (pni_device ns) /\ in_u 64 (pni_inode ns))
    (lpc_agent_pid_namespace (le_process e)) /\
  opt_all (in_u 32) (lpc_uid (le_process e)) /\
  opt_all (in_u 64) (lpc_start_ticks (le_process e)) /\
  opt_all (in_u 64) (le_network_namespace_inode e) /\
  opt_all (in_u 64) (le_socket_cookie e) /\
  opt_all (in_u 64) (le_platform_connection_id e) /\
  opt_all (in_u 8) (le_tcp_state e) /\
  opt_all (in_u 16) (endpoint_port (le_local e)) /\
  opt_all (in_u 16) (endpoint_port (le_remote e)).

(** What the wire keeps of an event: a pid pair survives only when both ids are
    present, texts are cut at the field size or the first NUL, and an empty
    command name is not distinguished from a missing one. *)
Definition ids_image (ids : LifecycleProcessIds) : LifecycleProcessIds :=
  match both_ids ids with
  | Some (pid, tgid) => MkLifecycleProcessIds (Some pid) (Some tgid)
  | None => MkLifecycleProcessIds None None
  end.

Definition endpoint_image (e : NetworkEndpoint) : NetworkEndpoint :=
  MkNetworkEndpoint (text_image kAddressLength (ne_address e)) (ne_port e).

Definition comm_image (comm : option string) : option string :=
  let text := text_image kCommLength (value_or comm "") in
  when (negb (bool_decide (text = ""))) text.

Definition lifecycle_image (e : ConnectionLifecycleEvent) : ConnectionLifecycleEvent :=
  let p := le_process e in
  {| le_type := le_type e; le_timestamp_ns := le_timestamp_ns e;
     le_provenance := le_provenance e;
     le_process := {| lpc_agent_visible := ids_image (lpc_agent_visible p);
                      lpc_kernel := ids_image (lpc_kernel p);
                      lpc_agent_pid_namespace := lpc_agent_pid_namespace p;
                      lpc_uid := lpc_uid p; lpc_start_ticks := lpc_start_ticks p;
                      lpc_comm := comm_image (lpc_comm p) |};
     le_network_namespace_inode := le_network_namespace_inode e;
     le_address_family := le_address_family e; le_protocol := le_protocol e;
     le_endpoint_kind := le_endpoint_kind e;
     le_local := endpoint_image <$> le_local e; le_remote := endpoint_image <$> le_remote e;
     le_socket_cookie := le_socket_cookie e;
     le_platform_connection_id := le_platform_connection_id e;
     le_tcp_state := le_tcp_state e |}.

(** Reading one presence flag of a built mask. *)
Ltac solve_flag :=
  cbv zeta delta [LifecycleAgentPid LifecycleKernelPid LifecyclePidNamespace LifecycleUid
    LifecycleStartTicks LifecycleNetns LifecycleSocketCookie LifecyclePlatformConnectionId
    LifecycleTcpState LifecycleLocal LifecycleLocalPort LifecycleRemote LifecycleRemotePort
    ProcessPid ProcessParent ProcessUid ProcessGid ProcessStart ProcessPlatformKey
    ProcessParentStart ProcessParentPlatformKey ProcessSession ProcessElevated
    ProcessExitCode ProcessCgroup];
  repeat (rewrite test_set_flag by (compute; discriminate); cbn [Z.eqb Pos.eqb]);
  by rewrite test_flag_0, ?orb_false_r.

Section LifecycleFlags.
Context (e : ConnectionLifecycleEvent).
Let p := le_process e.
Let flag := test_flag (lifecycle_flags e).

Lemma lifecycle_flags_spec :
  flag LifecycleAgentPid = has (both_ids (lpc_agent_visible p)) /\
  flag LifecycleKernelPid = has (both_ids (lpc_kernel p)) /\
  flag LifecyclePidNamespace = has (lpc_agent_pid_namespace p) /\
  flag LifecycleUid = has (lpc_uid p) /\
  flag LifecycleStartTicks = has (lpc_start_ticks p) /\
  flag LifecycleNetns = has (le_network_namespace_inode e) /\
  flag LifecycleSocketCookie = has (le_socket_cookie e) /\
  flag LifecyclePlatformConnectionId = has (le_platform_connection_id e) /\
  flag LifecycleTcpState = has (le_tcp_state e) /\
  flag LifecycleLocal = has (le_local e) /\
  flag LifecycleLocalPort = has (endpoint_port (le_local e)) /\
  flag LifecycleRemote = has (le_remote e) /\
  flag LifecycleRemotePort = has (endpoint_port (le_remote e)).
Proof. unfold flag, lifecycle_flags. split_and!; solve_flag. Qed.

Lemma lifecycle_flags_in_u32 : in_u 32 (lifecycle_flags e).
Proof. unfold lifecycle_flags. repeat apply set_flag_in_u32; unfold in_u; lia. Qed.
End LifecycleFlags.

(** Enumerators fit in a byte and survive the two casts. *)
Ltac solve_enum :=
  intros t Ht; destruct t;
  try (split; [unfold in_u; simpl; lia|reflexivity]);
  unfold raw_ok in Ht; cbn [event_type_code provenance_code family_code protocol_code
    endpoint_kind_code exec_type_code]; rewrite wrap_u_id by (unfold in_u; lia);
  (split; [unfold in_u; lia|]);
  unfold event_type_of, provenance_of, family_of, protocol_of, endpoint_kind_of, exec_type_of;
  repeat match goal with |- context [?a =? ?b] => destruct (Z.eqb_spec a b); [lia|] end; reflexivity.

Lemma event_type_wire : forall t, match t with EventTypeRaw n => raw_ok 3 n | _ => True end ->
  in_u 8 (event_type_code t) /\ event_type_of (event_type_code t) = t.
Proof. solve_enum. Qed.
Lemma provenance_wire : forall t, match t with ProvenanceRaw n => raw_ok 3 n | _ => True end ->
  in_u 8 (provenance_code t) /\ provenance_of (provenance_code t) = t.
Proof. solve_enum. Qed.
Lemma family_wire : forall t, match t with FamilyRaw n => raw_ok 3 n | _ => True end ->
  in_u 8 (family_code t) /\ family_of (family_code t) = t.
Proof. solve_enum. Qed.
Lemma protocol_wire : forall t, match t with ProtocolRaw n => raw_ok 2 n | _ => True end ->
  in_u 8 (protocol_code t) /\ protocol_of (protocol_code t) = t.
Proof. solve_enum. Qed.
Lemma endpoint_kind_wire : forall t, match t with EndpointRaw n => raw_ok 4 n | _ => True end ->
  in_u 8 (endpoint_kind_code t) /\ endpoint_kind_of (endpoint_kind_code t) = t.
Proof. solve_enum. Qed.
Lemma exec_type_wire : forall t, match t with ExecTypeRaw n => raw_ok 2 n | _ => True end ->
  in_u 8 (exec_type_code t) /\ exec_type_of (exec_type_code t) = t.
Proof. solve_enum. Qed.

Lemma length_endpoint_text ep : length (endpoint_text ep) = kAddressLength.
Proof. destruct ep; [apply length_copy_text; unfold kAddressLength; lia|done]. Qed.

(** Proves the members of a payload in range, one by one. *)
Ltac solve_member :=
  simpl Z.mul; first
  [ assumption
  | apply lifecycle_flags_in_u32
  | apply event_type_wire; assumption | apply provenance_wire; assumption
  | apply family_wire; assumption | apply protocol_wire; assumption
  | apply endpoint_kind_wire; assumption | apply exec_type_wire; assumption
  | apply opt_all_value_or; [lia|assumption]
  | apply length_endpoint_text
  | apply length_copy_text; compute; lia
  | match goal with H : opt_all _ ?o |- context [value_or ?o _] =>
      destruct o; simpl in *; [tauto|unfold in_u, in_s; simpl; lia] end
  | unfold in_u, in_s; simpl; lia ].

Lemma lifecycle_payload_ok e : lifecycle_wf e -> c_ok lifecycle_codec (lifecycle_payload e).
Proof.
  intros (Ht & Hp & Hf & Hpr & Hk & Hts & Ha & Hke & Hns & Hu & Hst & Hnet & Hco & Hpc & Htcp & Hlo & Hre).
  cbn [c_ok lifecycle_codec struct_codec pair_codec uint_codec sint_codec chars_codec fst snd
       lifecycle_payload lp_flags lp_event_type lp_provenance lp_address_family lp_protocol
       lp_endpoint_kind lp_tcp_state lp_reserved lp_timestamp_ns lp_agent_pid lp_agent_tgid
       lp_kernel_pid lp_kernel_tgid lp_pid_namespace_device lp_pid_namespace_inode lp_uid
       lp_reserved2 lp_start_ticks lp_network_namespace_inode lp_socket_cookie
       lp_platform_connection_id lp_local_port lp_remote_port lp_comm lp_local_address
       lp_remote_address].
  split_and!; solve_member.
Qed.

Lemma decode_encode_lifecycle sequence event :
  in_u 64 sequence -> lifecycle_wf event ->
  decode_lifecycle (encode_lifecycle sequence event) = Some (lifecycle_image event).
Proof.
  intros Hs Hwf. unfold decode_lifecycle, encode_lifecycle.
  rewrite frame_payload_make_frame by (apply _ || by apply lifecycle_payload_ok || done).
  destruct (lifecycle_flags_spec event) as
    (F1 & F2 & F3 & F4 & F5 & F6 & F7 & F8 & F9 & F10 & F11 & F12 & F13).
  destruct Hwf as (Ht & Hp & Hf & Hpr & Hk & _).
  unfold lifecycle_image. f_equal. cbn -[lifecycle_flags].
  rewrite F1, F2, F3, F4, F5, F6, F7, F8, F9, F10, F11, F12, F13.
  rewrite (proj2 (event_type_wire _ Ht)), (proj2 (provenance_wire _ Hp)),
    (proj2 (family_wire _ Hf)), (proj2 (protocol_wire _ Hpr)), (proj2 (endpoint_kind_wire _ Hk)).
  rewrite !when_has, read_copy_text by (compute; lia).
  unfold ids_image, comm_image, value_or.
  f_equal; [f_equal|..].
  all: repeat match goal with
       | |- context [both_ids ?i] => destruct (both_ids i) as [[? ?]|]
       | |- context [lpc_agent_pid_namespace ?i] => destruct (lpc_agent_pid_namespace i) as [[? ?]|]
       | |- context [le_local ?i] => destruct (le_local i) as [[? [?|]]|]
       | |- context [le_remote ?i] => destruct (le_remote i) as [[? [?|]]|]
       end; try done.
  all: simpl; unfold endpoint_image; simpl; by rewrite read_copy_text by (compute; lia).
Qed.

(** An event whose texts fit their fields and whose pid pairs are complete or
    empty is its own wire image. *)
Definition lifecycle_exact (e : ConnectionLifecycleEvent) : Prop :=
  (is_Some (lpi_pid (lpc_agent_visible (le_process e))) <->
     is_Some (lpi_tgid (lpc_agent_visible (le_process e)))) /\
  (is_Some (lpi_pid (lpc_kernel (le_process e))) <->
     is_Some (lpi_tgid (lpc_kernel (le_process e)))) /\
  opt_all (fun comm => fits kCommLength comm /\ comm <> "") (lpc_comm (le_process e)) /\
  opt_all (fun ep => fits kAddressLength (ne_address ep)) (le_local e) /\
  opt_all (fun ep => fits kAddressLength (ne_address ep)) (le_remote e).

Lemma ids_image_id ids :
  (is_Some (lpi_pid ids) <-> is_Some (lpi_tgid ids)) -> ids_image ids = ids.
Proof.
  unfold ids_image, both_ids. destruct ids as [[pid|] [tgid|]]; simpl; intros [H1 H2]; try done.
  - by destruct H1.
  - by destruct H2.
Qed.

Lemma endpoint_image_id ep :
  opt_all (fun ep => fits kAddressLength (ne_address ep)) ep -> endpoint_image <$> ep = ep.
Proof.
  destruct ep as [[address port]|]; simpl; [|done]. intros H. f_equal.
  unfold endpoint_image. simpl. by rewrite text_image_fits.
Qed.

Lemma comm_image_id comm :
  opt_all (fun comm => fits kCommLength comm /\ comm <> "") comm -> comm_image comm = comm.
Proof.
  unfold comm_image. destruct comm as [comm|]; simpl; [|done]. intros [H1 H2].
  rewrite text_image_fits by done. by rewrite bool_decide_eq_false_2.
Qed.

Lemma lifecycle_image_exact e : lifecycle_exact e -> lifecycle_image e = e.
Proof.
  intros (H1 & H2 & H3 & H4 & H5). unfold lifecycle_image.
  rewrite !ids_image_id, comm_image_id, !endpoint_image_id by done.
  by destruct e as [? ? ? [? ? ? ? ? ?]].
Qed.

Definition sample_event : ConnectionLifecycleEvent :=
  {| le_type := Accept; le_timestamp_ns := 1700000000000000000; le_provenance := EbpfCore;
     le_process := {| lpc_agent_visible := MkLifecycleProcessIds (Some 4242) (Some 4240);
                      lpc_kernel := MkLifecycleProcessIds (Some 7) (Some 7);
                      lpc_agent_pid_namespace := None; lpc_uid := Some 1000;
                      lpc_start_ticks := Some 99; lpc_comm := Some "nginx" |};
     le_network_namespace_inode := Some 4026531840; le_address_family := IPv4; le_protocol := Tcp;
     le_endpoint_kind := Connection; le_local := Some (MkNetworkEndpoint "10.0.0.1" (Some 443));
     le_remote := Some (MkNetworkEndpoint "10.0.0.2" (Some 51000));
     le_socket_cookie := Some 77; le_platform_connection_id := None; le_tcp_state := Some 1 |}.

(** C31: The broker's lifecycle frames round-trip: every event with in-range
    members is decoded by the agent to its wire image (all integers, enumerators,
    optional members and endpoints preserved, texts cut to their field, an empty
    command name arriving as a missing one), and an event whose texts fit, whose
    command name, if it has one, is not empty, and whose pid pairs are complete
    arrives unchanged. *)
Theorem lifecycle_round_trip sequence event :
  in_u 64 sequence -> lifecycle_wf event ->
  decode_lifecycle (encode_lifecycle sequence event) = Some (lifecycle_image event) /\
  (lifecycle_exact event -> decode_lifecycle (encode_lifecycle sequence event) = Some event).
Proof.
  intros Hs Hwf. rewrite decode_encode_lifecycle by done. split; [done|].
  intros Hex. by rewrite lifecycle_image_exact.
Qed.

Lemma lifecycle_round_trip_witness :
  (in_u 64 12 /\ lifecycle_wf sample_event /\ lifecycle_exact sample_event) /\
  decode_lifecycle (encode_lifecycle 12 sample_event) = Some sample_event.
Proof.
  assert (H1 : in_u 64 12) by (unfold in_u; lia).
  assert (H2 : lifecycle_wf sample_event)
    by (unfold lifecycle_wf, opt_all, in_u, in_s; simpl; lia).
  assert (H3 : lifecycle_exact sample_event).
  { split_and!; try done; simpl; split; try done;
      repeat split; try (compute; lia); repeat (constructor; [discriminate|]); constructor. }
  split; [exact (conj H1 (conj H2 H3))|].
  exact (proj2 (lifecycle_round_trip 12 sample_event H1 H2) H3).
Defined.

(** *** Process events *)

Definition process_exec_wf (e : ProcessExecEvent) : Prop :=
  match pe_type e with ExecTypeRaw n => raw_ok 2 n | _ => True end /\
  in_u 64 (pe_timestamp_ns e) /\
  opt_all (fun ids => in_s 64 ids.1 /\ in_s 64 ids.2) (both (pe_pid e) (pe_tgid e)) /\
  opt_all (fun ids => in_s 64 ids.1 /\ in_s 64 ids.2) (both (pe_parent_pid e) (pe_parent_tgid e)) /\
  opt_all (in_u 32) (pe_uid e) /\ opt_all (in_u 32) (pe_gid e) /\
  opt_all (in_u 64) (pe_process_start_time_ns e) /\
  opt_all (in_u 64) (pe_platform_process_key e) /\
  opt_all (in_u 64) (pe_parent_process_start_time_ns e) /\
  opt_all (in_u 64) (pe_parent_platform_process_key e) /\
  opt_all (in_u 32) (pe_session_id e) /\ opt_all (in_s 32) (pe_exit_code e) /\
  opt_all (in_u 64) (pe_cgroup_id e).

Definition process_exec_image (e : ProcessExecEvent) : ProcessExecEvent :=
  let ids := both (pe_pid e) (pe_tgid e) in
  let parents := both (pe_parent_pid e) (pe_parent_tgid e) in
  {| pe_type := pe_type e; pe_timestamp_ns := pe_timestamp_ns e;
     pe_pid := fst <$> ids; pe_tgid := snd <$> ids;
     pe_parent_pid := fst <$> parents; pe_parent_tgid := snd <$> parents;
     pe_uid := pe_uid e; pe_gid := pe_gid e;
     pe_process_start_time_ns := pe_process_start_time_ns e;
     pe_platform_process_key := pe_platform_process_key e;
     pe_parent_process_start_time_ns := pe_parent_process_start_time_ns e;
     pe_parent_platform_process_key := pe_parent_platform_process_key e;
     pe_session_id := pe_session_id e;
     pe_user_identity := text_image kIdentityLength (pe_user_identity e);
     pe_integrity_level := text_image kIntegrityLength (pe_integrity_level e);
     pe_elevated := pe_elevated e; pe_exit_code := pe_exit_code e; pe_cgroup_id := pe_cgroup_id e;
     pe_comm := text_image kCommLength (pe_comm e);
     pe_executable_path := text_image kPathLength (pe_executable_path e);
     pe_command_line := text_image kCommandLineLength (pe_command_line e);
     pe_working_directory := text_image kWorkingDirectoryLength (pe_working_directory e) |}.

Section ProcessExecFlags.
Context (e : ProcessExecEvent).
Let flag := test_flag (process_exec_flags e).

Lemma process_exec_flags_spec :
  flag ProcessPid = has (both (pe_pid e) (pe_tgid e)) /\
  flag ProcessParent = has (both (pe_parent_pid e) (pe_parent_tgid e)) /\
  flag ProcessUid = has (pe_uid e) /\ flag ProcessGid = has (pe_gid e) /\
  flag ProcessStart = has (pe_process_start_time_ns e) /\
  flag ProcessPlatformKey = has (pe_platform_process_key e) /\
  flag ProcessParentStart = has (pe_parent_process_start_time_ns e) /\
  flag ProcessParentPlatformKey = has (pe_parent_platform_process_key e) /\
  flag ProcessSession = has (pe_session_id e) /\
  flag ProcessElevated = has (pe_elevated e) /\
  flag ProcessExitCode = has (pe_exit_code e) /\
  flag ProcessCgroup = has (pe_cgroup_id e).
Proof. unfold flag, process_exec_flags. split_and!; solve_flag. Qed.

Lemma process_exec_flags_in_u32 : in_u 32 (process_exec_flags e).
Proof. unfold process_exec_flags. repeat apply set_flag_in_u32; unfold in_u; lia. Qed.
End ProcessExecFlags.

Lemma process_exec_payload_ok e :
  process_exec_wf e -> c_ok process_exec_codec (process_exec_payload e).
Proof.
  intros (Ht & Hts & Hi & Hp & Hu & Hg & Hst & Hk & Hps & Hpk & Hse & Hex & Hcg).
  assert (He : in_u 8 (if value_or (pe_elevated e) false then 1 else 0))
    by (destruct (value_or _ _); unfold in_u; lia).
  pose proof (process_exec_flags_in_u32 e) as Hfl.
  cbn [c_ok process_exec_codec struct_codec pair_codec uint_codec sint_codec chars_codec fst snd
       process_exec_payload pp_flags pp_event_type pp_elevated pp_reserved pp_timestamp_ns pp_pid
       pp_tgid pp_parent_pid pp_parent_tgid pp_uid pp_gid pp_process_start_time_ns
       pp_platform_process_key pp_parent_process_start_time_ns pp_parent_platform_process_key
       pp_session_id pp_exit_code pp_cgroup_id pp_comm pp_executable_path pp_command_line
       pp_working_directory pp_user_identity pp_integrity_level].
  split_and!; solve_member.
Qed.

Lemma when_fst {A B} (o : option (A * B)) d : when (has o) ((value_or o d).1) = fst <$> o.
Proof. by destruct o. Qed.
Lemma when_snd {A B} (o : option (A * B)) d : when (has o) ((value_or o d).2) = snd <$> o.
Proof. by destruct o. Qed.
Lemma when_bool (o : option bool) :
  when (has o) (negb ((if value_or o false then 1 else 0) =? 0)) = o.
Proof. by destruct o as [[]|]. Qed.

Lemma decode_encode_process_exec sequence event :
  in_u 64 sequence -> process_exec_wf event ->
  decode_process_exec (encode_process_exec sequence event) = Some (process_exec_image event).
Proof.
  intros Hs Hwf. unfold decode_process_exec, encode_process_exec.
  rewrite frame_payload_make_frame by (apply _ || by apply process_exec_payload_ok || done).
  destruct (process_exec_flags_spec event) as
    (F1 & F2 & F3 & F4 & F5 & F6 & F7 & F8 & F9 & F10 & F11 & F12).
  destruct Hwf as (Ht & _).
  unfold process_exec_image. f_equal. cbn -[process_exec_flags].
  rewrite F1, F2, F3, F4, F5, F6, F7, F8, F9, F10, F11, F12, (proj2 (exec_type_wire _ Ht)).
  by rewrite !when_fst, !when_snd, !when_has, when_bool, !read_copy_text by (compute; lia).
Qed.

Definition process_exec_exact (e : ProcessExecEvent) : Prop :=
  (is_Some (pe_pid e) <-> is_Some (pe_tgid e)) /\
  (is_Some (pe_parent_pid e) <-> is_Some (pe_parent_tgid e)) /\
  fits kCommLength (pe_comm e) /\ fits kPathLength (pe_executable_path e) /\
  fits kCommandLineLength (pe_command_line e) /\
  fits kWorkingDirectoryLength (pe_working_directory e) /\
  fits kIdentityLength (pe_user_identity e) /\ fits kIntegrityLength (pe_integrity_level e).

Lemma both_fst_snd {A B} (a : option A) (b : option B) :
  (is_Some a <-> is_Some b) -> fst <$> both a b = a /\ snd <$> both a b = b.
Proof. destruct a, b; simpl; intros [H1 H2]; try done; exfalso; naive_solver. Qed.

Lemma process_exec_image_exact e : process_exec_exact e -> process_exec_image e = e.
Proof.
  intros (H1 & H2 & H3 & H4 & H5 & H6 & H7 & H8). unfold process_exec_image.
  destruct (both_fst_snd _ _ H1) as [-> ->], (both_fst_snd _ _ H2) as [-> ->].
  rewrite !text_image_fits by done. by destruct e.
Qed.

(** The broker's process frames round-trip: every event with in-range members
    decodes to its wire image, and one whose texts fit and whose pid pairs are
    complete arrives unchanged. *)
Theorem process_exec_round_trip sequence event :
  in_u 64 sequence -> process_exec_wf event ->
  decode_process_exec (encode_process_exec sequence event) = Some (process_exec_image event) /\
  (process_exec_exact event ->
   decode_process_exec (encode_process_exec sequence event) = Some event).
Proof.
  intros Hs Hwf. rewrite decode_encode_process_exec by done. split; [done|].
  intros Hex. by rewrite process_exec_image_exact.
Qed.

Definition sample_exec : ProcessExecEvent :=
  {| pe_type := Exit; pe_timestamp_ns := 5000; pe_pid := Some 10; pe_tgid := Some 10;
     pe_parent_pid := None; pe_parent_tgid := None; pe_uid := Some 0; pe_gid := None;
     pe_process_start_time_ns := Some 4000; pe_platform_process_key := None;
     pe_parent_process_start_time_ns := None; pe_parent_platform_process_key := None;
     pe_session_id := None; pe_user_identity := "root"; pe_integrity_level := "";
     pe_elevated := Some true; pe_exit_code := Some (-1); pe_cgroup_id := Some 31;
     pe_comm := "sh"; pe_executable_path := "/bin/sh"; pe_command_line := "sh -c true";
     pe_working_directory := "/" |}.

Lemma process_exec_round_trip_witness :
  (in_u 64 3 /\ process_exec_wf sample_exec /\ process_exec_exact sample_exec) /\
  decode_process_exec (encode_process_exec 3 sample_exec) = Some sample_exec.
Proof.
  assert (H1 : in_u 64 3) by (unfold in_u; lia).
  assert (H2 : process_exec_wf sample_exec)
    by (unfold process_exec_wf, opt_all, in_u, in_s; simpl; lia).
  assert (H3 : process_exec_exact sample_exec).
  { split; [split; intros _; eexists; reflexivity|].
    split; [split; intros [x Hx]; discriminate Hx|].
    split_and!; split; try (compute; lia); repeat (constructor; [discriminate|]); constructor. }
  split; [exact (conj H1 (conj H2 H3))|].
  exact (proj2 (process_exec_round_trip 3 sample_exec H1 H2) H3).
Defined.

(** *** Registration *)

(** Registration round-trips and its slot limit is enforced: a slot of 1 to 63
    NUL-free bytes is decoded as sent with its event kind; an empty or longer
    slot is refused by the encoder. *)
Theorem registration_round_trip slot kind :
  (fits kSlotLength slot -> slot <> "" ->
   exists frame, encode_registration slot kind = Ok frame /\
     decode_registration frame = Some (MkRegistration slot kind)) /\
  (slot = "" \/ (kSlotLength <= String.length slot)%nat ->
   is_ok (encode_registration slot kind) = false).
Proof.
  unfold encode_registration. split.
  - intros Hfit Hne. rewrite !bool_decide_eq_false_2 by (done || (destruct Hfit; lia)). simpl.
    eexists. split; [done|]. unfold decode_registration.
    rewrite frame_payload_make_frame; [|apply _| |unfold in_u; lia|done].
    + simpl. rewrite read_copy_text, text_image_fits by (done || compute; lia).
      rewrite bool_decide_eq_false_2 by done. by destruct kind.
    + cbn [c_ok registration_codec struct_codec pair_codec uint_codec chars_codec fst snd
           rp_event_kind rp_reserved rp_endpoint_slot].
      split_and!; [destruct kind; unfold in_u; simpl; lia|unfold in_u; simpl; lia|].
      apply length_copy_text. compute. lia.
  - intros [->|Hlen]; [done|]. rewrite (bool_decide_eq_true_2 (_ <= _)%nat) by done.
    by rewrite orb_true_r.
Qed.

Lemma registration_round_trip_witness :
  exists frame, encode_registration "slot-7" KindProcessExec = Ok frame /\
    decode_registration frame = Some (MkRegistration "slot-7" KindProcessExec).
Proof.
  apply (proj1 (registration_round_trip "slot-7" KindProcessExec)); [|discriminate].
  split; [compute; lia|]. repeat (constructor; [discriminate|]). constructor.
Defined.

(** ** Endpoint mappings *)

Record EndpointMapping := MkEndpointMapping {
  em_slot : string; em_netns_inode : Z; em_cgroup_id : Z }.

Definition parse_mapping (value : string) : result EndpointMapping :=
  let shape := Throw "--map must be SLOT:NETNS_INODE:CGROUP_ID" in
  match find_from value ":" 0 with
  | None => shape
  | Some first =>
      match find_from value ":" (first + 1) with
      | None => shape
      | Some second =>
          match find_from value ":" (second + 1) with
          | Some _ => shape
          | None =>
              let slot := substr value 0 first in
              match stoull (substr value (first + 1) (second - first - 1)),
                    stoull (substr_from value (second + 1)) with
              | Ok netns_inode, Ok cgroup_id =>
                  if bool_decide (slot = "") || bool_decide (kSlotLength <= String.length slot)%nat ||
                     (netns_inode =? 0) || (cgroup_id =? 0)
                  then Throw "--map requires a non-empty slot and non-zero namespace/cgroup identifiers"
                  else Ok (MkEndpointMapping slot netns_inode cgroup_id)
              | _, _ => Throw "--map namespace and cgroup values must be unsigned integers"
              end
          end
      end
  end.

Definition print_mapping (m : EndpointMapping) : string :=
  em_slot m +:+ (":" +:+ (to_string (em_netns_inode m) +:+ (":" +:+ to_string (em_cgroup_id m)))).

Definition mapping_wf (m : EndpointMapping) : Prop :=
  em_slot m <> "" /\ (String.length (em_slot m) < kSlotLength)%nat /\
  string_all (fun c => negb (Ascii.eqb c ":"%char)) (em_slot m) = true /\
  in_u 64 (em_netns_inode m) /\ em_netns_inode m <> 0 /\
  in_u 64 (em_cgroup_id m) /\ em_cgroup_id m <> 0.

Lemma digits_no_colon s : string_all isdigit s = true ->
  string_all (fun c => negb (Ascii.eqb c ":"%char)) s = true.
Proof.
  induction s as [|c s IH]; [done|]. cbn [string_all]. intros [H1 H2]%andb_true_iff.
  rewrite IH by done. rewrite andb_true_r. destruct (Ascii.eqb_spec c ":"%char) as [->|]; done.
Qed.

Lemma find_char_none n s : string_all (fun c => negb (Ascii.eqb c n)) s = true ->
  find_from s (String n "") 0 = None.
Proof.
  unfold find_from. induction s as [|c s IH]; [done|]. cbn [string_all]. intros [H1 H2]%andb_true_iff.
  apply negb_true_iff, Ascii.eqb_neq in H1. cbn [String.index String.prefix].
  destruct (ascii_dec n c); [congruence|]. by rewrite IH.
Qed.

(** Where the two colons of a printed mapping are, and what lies between them. *)
Section MappingText.
Context (slot tn tc : string).
Hypothesis no_colon_slot : string_all (fun c => negb (Ascii.eqb c ":"%char)) slot = true.
Hypothesis no_colon_tn : string_all (fun c => negb (Ascii.eqb c ":"%char)) tn = true.
Hypothesis no_colon_tc : string_all (fun c => negb (Ascii.eqb c ":"%char)) tc = true.
Let text := slot +:+ (":" +:+ (tn +:+ (":" +:+ tc))).
Let second := (String.length slot + 1 + String.length tn)%nat.

Lemma text_split : text = (slot +:+ ":") +:+ (tn +:+ (":" +:+ tc)).
Proof. unfold text. by rewrite string_app_assoc. Qed.
Lemma text_split_tail : text = (slot +:+ (":" +:+ (tn +:+ ":"))) +:+ tc.
Proof. unfold text. by rewrite !string_app_assoc. Qed.
Lemma length_head : (String.length slot + 1)%nat = String.length (slot +:+ ":").
Proof. by rewrite string_length_app. Qed.
Lemma length_head_tail : (second + 1)%nat = String.length (slot +:+ (":" +:+ (tn +:+ ":"))).
Proof. unfold second. rewrite !string_length_app. simpl. lia. Qed.

Lemma mapping_first : find_from text ":" 0 = Some (String.length slot).
Proof. apply find_absent; [done|by apply absent_char]. Qed.

Lemma mapping_second : find_from text ":" (String.length slot + 1) = Some second.
Proof.
  rewrite text_split, length_head, find_from_skip, find_absent by (done || by apply absent_char).
  unfold second. by rewrite <- length_head.
Qed.

Lemma mapping_third : find_from text ":" (second + 1) = None.
Proof. by rewrite text_split_tail, length_head_tail, find_from_skip, find_char_none. Qed.

Lemma mapping_slot : substr text 0 (String.length slot) = slot.
Proof. apply substring_0_app. Qed.

Lemma mapping_netns :
  substr text (String.length slot + 1) (second - String.length slot - 1) = tn.
Proof.
  replace (second - String.length slot - 1)%nat with (String.length tn) by (unfold second; lia).
  rewrite text_split, length_head. apply substr_mid.
Qed.

Lemma mapping_cgroup : substr_from text (second + 1) = tc.
Proof.
  unfold substr_from. rewrite text_split_tail, length_head_tail.
  rewrite substring_app_skip, string_length_app.
  replace (_ + String.length tc - _)%nat with (String.length tc) by lia.
  apply substring_0_full.
Qed.
End MappingText.

(** A printed endpoint mapping with a slot of 1-63 bytes without colon and
    non-zero 64-bit identifiers is parsed back to itself. *)
Theorem parse_print_mapping m : mapping_wf m -> parse_mapping (print_mapping m) = Ok m.
Proof.
  intros (S1 & S2 & S3 & N1 & N2 & C1 & C2). destruct m as [slot netns cgroup]; simpl in *.
  destruct (to_string_digits netns) as (DN & _ & _); [destruct N1; lia|].
  destruct (to_string_digits cgroup) as (DC & _ & _); [destruct C1; lia|].
  apply digits_no_colon in DN, DC.
  unfold print_mapping, parse_mapping. cbn [em_slot em_netns_inode em_cgroup_id].
  rewrite mapping_first, mapping_second, mapping_third, mapping_slot, mapping_netns, mapping_cgroup
    by done.
  rewrite !stoull_to_string by done. rewrite !bool_decide_eq_false_2 by (done || lia).
  by rewrite (proj2 (Z.eqb_neq netns 0)), (proj2 (Z.eqb_neq cgroup 0)) by done.
Qed.

Lemma parse_print_mapping_witness :
  mapping_wf (MkEndpointMapping "ep-1" 4026531840 31) /\
  parse_mapping "ep-1:4026531840:31" = Ok (MkEndpointMapping "ep-1" 4026531840 31).
Proof.
  assert (H : mapping_wf (MkEndpointMapping "ep-1" 4026531840 31))
    by (repeat split; (discriminate || (compute; lia) || (unfold in_u; simpl; lia) || reflexivity)).
  split; [exact H|]. exact (parse_print_mapping (MkEndpointMapping "ep-1" 4026531840 31) H).
Defined.

(** The two numeric fields are read by [std::stoull], which ignores what follows
    the digits and accepts a minus sign. *)
Lemma parse_mapping_lenient :
  parse_mapping "ep:-1:12xyz" = Ok (MkEndpointMapping "ep" u64_max 12).
Proof. reflexivity. Qed.
