(* ===== verification/BrokerRouter.v ===== *)
(** The bounded queues and the event router of the Linux sensor broker
    ([include/neta/sensor_broker.hpp], lines 470-605 and 737-890).

    [BoundedQueue] and [EventRouter] are mutex-protected; each method is one
    atomic operation of the model.  The running broker (two sensor threads that
    draw a sequence number and then route, and one thread per client that takes
    frames) is the step relation [broker_step]. *)

From S2P Require Import Prelude Text Wire Model SensorBroker.

(** ** Bounded queues *)

Record BoundedQueue (T : Type) := MkBoundedQueue {
  bq_capacity : nat;
  bq_queue : list T;
  bq_dropped : Z }.
Arguments MkBoundedQueue {T}.
Arguments bq_capacity {T} _.
Arguments bq_queue {T} _.
Arguments bq_dropped {T} _.

Section Queue.
Context {T : Type}.

Definition new_queue (capacity : nat) : BoundedQueue T :=
  MkBoundedQueue (Nat.max 1 capacity) [] 0.

Definition push (value : T) (q : BoundedQueue T) : BoundedQueue T :=
  if bool_decide (bq_capacity q <= length (bq_queue q))%nat
  then MkBoundedQueue (bq_capacity q) (tail (bq_queue q) ++ [value]) (wrap_u 64 (bq_dropped q + 1))
  else MkBoundedQueue (bq_capacity q) (bq_queue q ++ [value]) (bq_dropped q).

(** [pop_for]: the wait ends with the front element, or times out on an empty queue. *)
Definition pop_for (q : BoundedQueue T) : option T * BoundedQueue T :=
  match bq_queue q with
  | [] => (None, q)
  | value :: rest => (Some value, MkBoundedQueue (bq_capacity q) rest (bq_dropped q))
  end.

Definition queue_inv (q : BoundedQueue T) : Prop :=
  (1 <= bq_capacity q)%nat /\ (length (bq_queue q) <= bq_capacity q)%nat.

Lemma new_queue_inv capacity : queue_inv (new_queue capacity).
Proof. unfold queue_inv, new_queue; simpl; lia. Qed.

Lemma push_inv value q : queue_inv q -> queue_inv (push value q).
Proof.
  unfold queue_inv, push. intros [H1 H2].
  destruct (bq_queue q) as [|x l] eqn:E; case_bool_decide; simpl in *;
    rewrite ?length_app; simpl; lia.
Qed.

Lemma pop_inv q : queue_inv q -> queue_inv (pop_for q).2.
Proof.
  unfold queue_inv, pop_for. destruct (bq_queue q) eqn:E; simpl; rewrite ?E; simpl; lia.
Qed.

Lemma push_elem x value q : x ∈ bq_queue (push value q) -> x = value \/ x ∈ bq_queue q.
Proof.
  unfold push. case_bool_decide; simpl; rewrite elem_of_app, list_elem_of_singleton;
    destruct (bq_queue q); set_solver.
Qed.

(** A run of the queue by producers and consumers. *)
Inductive queue_op := OpPush (value : T) | OpPop.

Fixpoint run_queue (ops : list queue_op) (q : BoundedQueue T) : list T * BoundedQueue T :=
  match ops with
  | [] => ([], q)
  | OpPush value :: ops' => run_queue ops' (push value q)
  | OpPop :: ops' =>
      let '(taken, q') := pop_for q in
      let '(popped, q'') := run_queue ops' q' in
      (option_list taken ++ popped, q'')
  end.

Definition pushes (ops : list queue_op) : list T :=
  omap (fun op => match op with OpPush value => Some value | OpPop => None end) ops.

(** What one operation does to the record of everything pushed so far and
    everything taken so far. *)
Record accounted (pushed taken : list T) (q : BoundedQueue T) : Prop := {
  acc_inv : queue_inv q;
  acc_order : (taken ++ bq_queue q) `sublist_of` pushed;
  acc_recent : bq_queue q `suffix_of` pushed;
  acc_count : Z.of_nat (length pushed) =
    Z.of_nat (length taken) + Z.of_nat (length (bq_queue q)) + bq_dropped q;
  acc_dropped : 0 <= bq_dropped q }.

Lemma accounted_push pushed taken q value :
  accounted pushed taken q -> Z.of_nat (length pushed) < u64_max ->
  accounted (pushed ++ [value]) taken (push value q).
Proof.
  intros [Hinv Hord Hrec Hcnt Hd] Hlt.
  pose proof (push_inv value q Hinv) as Hinv'. unfold push in *.
  case_bool_decide as Hcap; split; try done; simpl in *.
  - rewrite app_assoc. apply sublist_app; [|done].
    etrans; [|exact Hord]. apply sublist_app; [done|]. destruct (bq_queue q); [done|by constructor].
  - destruct Hrec as [k Hk]. destruct (bq_queue q) as [|x l] eqn:E.
    + destruct Hinv. rewrite E in *. simpl in *. lia.
    + exists (k ++ [x]). rewrite Hk. simpl. by rewrite <- !app_assoc.
  - destruct (bq_queue q) as [|x l] eqn:E; [destruct Hinv; rewrite E in *; simpl in *; lia|].
    simpl in *. rewrite !length_app. simpl.
    rewrite wrap_u_id; [lia|]. unfold in_u, u64_max in *. lia.
  - apply wrap_u_in. lia.
  - rewrite app_assoc. by apply sublist_app.
  - destruct Hrec as [k ->]. exists k. by rewrite app_assoc.
  - rewrite !length_app. simpl. lia.
Qed.

Lemma accounted_pop pushed taken q :
  accounted pushed taken q ->
  accounted pushed (taken ++ option_list (pop_for q).1) (pop_for q).2.
Proof.
  intros [Hinv Hord Hrec Hcnt Hd]. pose proof (pop_inv q Hinv). unfold pop_for in *.
  destruct (bq_queue q) as [|x l] eqn:E; simpl in *.
  - rewrite app_nil_r. split; rewrite ?E; done.
  - split; simpl; try done.
    + by rewrite <- app_assoc.
    + etrans; [|exact Hrec]. by exists [x].
    + rewrite length_app. simpl in *. lia.
Qed.

Lemma accounted_run ops pushed taken q :
  accounted pushed taken q -> Z.of_nat (length pushed + length (pushes ops)) <= u64_max ->
  accounted (pushed ++ pushes ops) (taken ++ (run_queue ops q).1) (run_queue ops q).2.
Proof.
  revert pushed taken q. induction ops as [|[value|] ops IH]; intros pushed taken q Hacc Hlen; simpl in *.
  - by rewrite !app_nil_r.
  - rewrite cons_middle, app_assoc. apply IH; [|rewrite length_app; simpl; lia].
    apply accounted_push; [done|]. lia.
  - pose proof (accounted_pop pushed taken q Hacc) as Hpop.
    destruct (pop_for q) as [o q'] eqn:Ep. simpl in Hpop. specialize (IH _ _ _ Hpop Hlen).
    destruct (run_queue ops q') as [popped q'']. simpl in *. by rewrite app_assoc.
Qed.

(** Bounded, ordered, accounted: for any run of pushes and pops on a fresh
    queue, the queue never exceeds its capacity (at least one), the elements
    taken followed by those still queued are a subsequence of the pushes in
    order, those still queued are the most recent pushes, and every push is
    either taken, still queued or counted as dropped. *)
Theorem bounded_queue_accounting capacity ops :
  Z.of_nat (length (pushes ops)) <= u64_max ->
  let '(taken, q) := run_queue ops (new_queue capacity) in
  (length (bq_queue q) <= Nat.max 1 capacity)%nat /\
  (taken ++ bq_queue q) `sublist_of` pushes ops /\
  bq_queue q `suffix_of` pushes ops /\
  Z.of_nat (length (pushes ops)) =
    Z.of_nat (length taken) + Z.of_nat (length (bq_queue q)) + bq_dropped q.
Proof.
  intros Hlen.
  destruct (accounted_run ops [] [] (new_queue capacity)) as [Hinv Hord Hrec Hcnt _].
  { split; [apply new_queue_inv|done|done|done|done]. }
  { done. }
  assert (Hcap : bq_capacity (run_queue ops (new_queue capacity)).2 = Nat.max 1 capacity).
  { change (Nat.max 1 capacity) with (bq_capacity (new_queue capacity)).
    generalize (new_queue capacity). clear. induction ops as [|[value|] ops IH]; intros q; simpl; [done| |].
    - rewrite IH. unfold push. by case_bool_decide.
    - unfold pop_for. destruct (bq_queue q) eqn:E; simpl.
      + specialize (IH q). by destruct (run_queue ops q).
      + specialize (IH (MkBoundedQueue (bq_capacity q) l (bq_dropped q))).
        by destruct (run_queue ops _). }
  destruct (run_queue ops (new_queue capacity)) as [taken q]; simpl in *.
  destruct Hinv as [_ Hle]. rewrite Hcap in Hle. split_and!; try done. 
Qed.
End Queue.

(** Two pushes on a queue of capacity one drop the older element. *)
Lemma bounded_queue_accounting_witness :
  Z.of_nat (length (pushes [OpPush 1; OpPush 2; OpPop])) <= u64_max /\
  let '(taken, q) := run_queue [OpPush 1; OpPush 2; OpPop] (new_queue 0) in
  (length (bq_queue q) <= Nat.max 1 0)%nat /\
  (taken ++ bq_queue q) `sublist_of` pushes [OpPush 1; OpPush 2; OpPop] /\
  bq_queue q `suffix_of` pushes [OpPush 1; OpPush 2; OpPop] /\
  Z.of_nat (length (pushes [OpPush 1; OpPush 2; OpPop])) =
    Z.of_nat (length taken) + Z.of_nat (length (bq_queue q)) + bq_dropped q.
Proof.
  assert (H : Z.of_nat (length (pushes [OpPush 1; OpPush 2; OpPop])) <= u64_max)
    by (compute; discriminate).
  split; [exact H|exact (bounded_queue_accounting 0 [OpPush 1; OpPush 2; OpPop] H)].
Defined.

(** ** The event router *)

Abbreviation frame := (list byte).

Record EndpointQueues := MkEndpointQueues {
  eq_lifecycle : BoundedQueue frame;
  eq_process_exec : BoundedQueue frame }.

Record EventRouter := MkEventRouter {
  er_queue_capacity : nat;
  er_queues : gmap string EndpointQueues;
  er_netns_to_slot : gmap Z string;
  er_cgroup_to_slot : gmap Z string;
  er_unroutable : Z }.

Definition new_router (capacity : nat) : EventRouter := MkEventRouter capacity ∅ ∅ ∅ 0.

(** [if (key != 0) map.emplace(key, slot)] *)
Definition emplace_nonzero (key : Z) (slot : string) (m : gmap Z string) : gmap Z string :=
  if key =? 0 then m else match m !! key with Some _ => m | None => <[key := slot]> m end.

Definition register_endpoint (slot : string) (netns_inode cgroup_id : Z) (router : EventRouter)
    : result EventRouter :=
  let? _ := throw_if (bool_decide (slot = "")) "broker endpoint slot cannot be empty" in
  let? _ := throw_if (has (er_queues router !! slot)) ("duplicate broker endpoint slot: " +:+ slot) in
  let? _ := throw_if (negb (netns_inode =? 0) && has (er_netns_to_slot router !! netns_inode))
              "duplicate broker network namespace mapping" in
  let? _ := throw_if (negb (cgroup_id =? 0) && has (er_cgroup_to_slot router !! cgroup_id))
              "duplicate broker cgroup mapping" in
  let queues := MkEndpointQueues (new_queue (er_queue_capacity router))
                                 (new_queue (er_queue_capacity router)) in
  Ok (MkEventRouter (er_queue_capacity router)
        (<[slot := queues]> (er_queues router))
        (emplace_nonzero netns_inode slot (er_netns_to_slot router))
        (emplace_nonzero cgroup_id slot (er_cgroup_to_slot router))
        (er_unroutable router)).

Definition has_endpoint (slot : string) (router : EventRouter) : bool :=
  has (er_queues router !! slot).

Definition queue_of (kind : EventKind) (q : EndpointQueues) : BoundedQueue frame :=
  match kind with KindLifecycle => eq_lifecycle q | KindProcessExec => eq_process_exec q end.

Definition with_queue (kind : EventKind) (queue : BoundedQueue frame) (q : EndpointQueues)
    : EndpointQueues :=
  match kind with
  | KindLifecycle => MkEndpointQueues queue (eq_process_exec q)
  | KindProcessExec => MkEndpointQueues (eq_lifecycle q) queue
  end.

(** [queue_for(slot, kind)]: null when the slot has no queues. *)
Definition queue_for (slot : string) (kind : EventKind) (router : EventRouter)
    : option (BoundedQueue frame) :=
  queue_of kind <$> er_queues router !! slot.

Definition set_queue (slot : string) (kind : EventKind) (queue : BoundedQueue frame)
    (router : EventRouter) : EventRouter :=
  MkEventRouter (er_queue_capacity router)
    (alter (with_queue kind queue) slot (er_queues router))
    (er_netns_to_slot router) (er_cgroup_to_slot router) (er_unroutable router).

Definition count_unroutable (router : EventRouter) : EventRouter :=
  MkEventRouter (er_queue_capacity router) (er_queues router) (er_netns_to_slot router)
    (er_cgroup_to_slot router) (wrap_u 64 (er_unroutable router + 1)).

(** [queue_for(slot, kind)->push(bytes)]; [None] is the dereference of a null pointer. *)
Definition push_to (slot : string) (kind : EventKind) (bytes : frame) (router : EventRouter)
    : option EventRouter :=
  match queue_for slot kind router with
  | None => None
  | Some queue => Some (set_queue slot kind (push bytes queue) router)
  end.

Definition route_lifecycle (event : ConnectionLifecycleEvent) (sequence : Z) (router : EventRouter)
    : option (bool * EventRouter) :=
  match le_network_namespace_inode event with
  | None => Some (false, count_unroutable router)
  | Some netns =>
      match er_netns_to_slot router !! netns with
      | None => Some (false, count_unroutable router)
      | Some slot =>
          (fun r => (true, r)) <$>
            push_to slot KindLifecycle (encode_lifecycle sequence event) router
      end
  end.

Definition route_process_exec (event : ProcessExecEvent) (sequence : Z) (router : EventRouter)
    : option (bool * EventRouter) :=
  match pe_cgroup_id event with
  | None => Some (false, count_unroutable router)
  | Some cgroup =>
      match er_cgroup_to_slot router !! cgroup with
      | None => Some (false, count_unroutable router)
      | Some slot =>
          (fun r => (true, r)) <$>
            push_to slot KindProcessExec (encode_process_exec sequence event) router
      end
  end.

Definition take (slot : string) (kind : EventKind) (router : EventRouter)
    : option frame * EventRouter :=
  match queue_for slot kind router with
  | None => (None, router)
  | Some queue => let '(value, queue') := pop_for queue in (value, set_queue slot kind queue' router)
  end.

Definition dropped (slot : string) (kind : EventKind) (router : EventRouter) : Z :=
  match queue_for slot kind router with Some queue => bq_dropped queue | None => 0 end.

(** [handle_client], up to its delivery loop: the registration that opens it. *)
Definition handle_client (bytes : frame) (router : EventRouter) : option Registration :=
  match decode_registration bytes with
  | None => None
  | Some registration =>
      if has_endpoint (rg_endpoint_slot registration) router then Some registration else None
  end.

(** Start-up of [run_linux_sensor_broker]: at least one mapping, all registered. *)
Fixpoint register_all (mappings : list EndpointMapping) (router : EventRouter) : result EventRouter :=
  match mappings with
  | [] => Ok router
  | m :: rest =>
      let? router := register_endpoint (em_slot m) (em_netns_inode m) (em_cgroup_id m) router in
      register_all rest router
  end.

Definition start_broker (queue_capacity : nat) (mappings : list EndpointMapping) : result EventRouter :=
  let? _ := throw_if (Nat.eqb (length mappings) 0) "sensor-broker requires at least one --map" in
  register_all mappings (new_router queue_capacity).

(** ** Invariant of the router *)

Record router_inv (r : EventRouter) : Prop := {
  ri_netns n s : er_netns_to_slot r !! n = Some s -> n <> 0 /\ is_Some (er_queues r !! s);
  ri_cgroup n s : er_cgroup_to_slot r !! n = Some s -> n <> 0 /\ is_Some (er_queues r !! s);
  ri_netns_inj n1 n2 s :
    er_netns_to_slot r !! n1 = Some s -> er_netns_to_slot r !! n2 = Some s -> n1 = n2;
  ri_cgroup_inj n1 n2 s :
    er_cgroup_to_slot r !! n1 = Some s -> er_cgroup_to_slot r !! n2 = Some s -> n1 = n2;
  ri_slot s : is_Some (er_queues r !! s) -> s <> "";
  ri_queues s q kind : er_queues r !! s = Some q -> queue_inv (queue_of kind q) }.

Lemma new_router_inv capacity : router_inv (new_router capacity).
Proof. split; simpl; intros; simplify_map_eq; try done; by destruct H. Qed.

Lemma emplace_nonzero_lookup key slot m n s :
  m !! key = None \/ key = 0 ->
  emplace_nonzero key slot m !! n = Some s <->
  (key <> 0 /\ n = key /\ s = slot) \/ m !! n = Some s.
Proof.
  unfold emplace_nonzero. intros Hk. destruct (Z.eqb_spec key 0) as [->|Hne]; [naive_solver|].
  destruct Hk as [Hk|]; [|done]. rewrite Hk.
  destruct (decide (n = key)) as [->|]; simplify_map_eq; naive_solver.
Qed.

(** The guards of a successful registration. *)
Lemma register_endpoint_ok slot netns cgroup r r' :
  register_endpoint slot netns cgroup r = Ok r' <->
  (slot <> "" /\ er_queues r !! slot = None /\
   (er_netns_to_slot r !! netns = None \/ netns = 0) /\
   (er_cgroup_to_slot r !! cgroup = None \/ cgroup = 0)) /\
  r' = MkEventRouter (er_queue_capacity r)
         (<[slot := MkEndpointQueues (new_queue (er_queue_capacity r)) (new_queue (er_queue_capacity r))]>
            (er_queues r))
         (emplace_nonzero netns slot (er_netns_to_slot r))
         (emplace_nonzero cgroup slot (er_cgroup_to_slot r)) (er_unroutable r).
Proof.
  unfold register_endpoint, throw_if.
  case_bool_decide; simpl; [naive_solver|].
  destruct (er_queues r !! slot); simpl; [naive_solver|].
  destruct (Z.eqb_spec netns 0), (Z.eqb_spec cgroup 0),
    (er_netns_to_slot r !! netns), (er_cgroup_to_slot r !! cgroup); simpl; naive_solver.
Qed.

Lemma register_endpoint_inv slot netns cgroup r r' :
  register_endpoint slot netns cgroup r = Ok r' -> router_inv r -> router_inv r'.
Proof.
  intros [(Hs & Hq & Hn & Hc) ->]%register_endpoint_ok [I1 I2 I3 I4 I5 I6].
  assert (Old : forall s, is_Some (er_queues r !! s) -> s <> slot) by (intros s [q Eq] ->; congruence).
  split; simpl.
  - intros n s [(? & -> & ->)|H]%emplace_nonzero_lookup; [| |done]; [by simplify_map_eq|].
    destruct (I1 n s H) as [? Hsome]. split; [done|].
    rewrite lookup_insert_ne; [done|]. intros ->. by apply (Old s).
  - intros n s [(? & -> & ->)|H]%emplace_nonzero_lookup; [| |done]; [by simplify_map_eq|].
    destruct (I2 n s H) as [? Hsome]. split; [done|].
    rewrite lookup_insert_ne; [done|]. intros ->. by apply (Old s).
  - intros n1 n2 s. rewrite !emplace_nonzero_lookup by done.
    intros [(? & -> & ->)|H1] [(? & -> & E)|H2]; try done.
    + destruct (I1 _ _ H2) as [_ ?]. by destruct (Old slot).
    + subst. destruct (I1 _ _ H1) as [_ ?]. by destruct (Old slot).
    + by apply (I3 _ _ s).
  - intros n1 n2 s. rewrite !emplace_nonzero_lookup by done.
    intros [(? & -> & ->)|H1] [(? & -> & E)|H2]; try done.
    + destruct (I2 _ _ H2) as [_ ?]. by destruct (Old slot).
    + subst. destruct (I2 _ _ H1) as [_ ?]. by destruct (Old slot).
    + by apply (I4 _ _ s).
  - intros s. destruct (decide (s = slot)) as [->|]; [done|].
    rewrite lookup_insert_ne by done. apply I5.
  - intros s q kind. destruct (decide (s = slot)) as [->|].
    + rewrite lookup_insert_eq. intros [= <-]. destruct kind; apply new_queue_inv.
    + rewrite lookup_insert_ne by done. apply I6.
Qed.

Lemma set_queue_lookup slot kind queue r s :
  er_queues (set_queue slot kind queue r) !! s =
  if decide (s = slot) then with_queue kind queue <$> er_queues r !! s else er_queues r !! s.
Proof.
  simpl. rewrite lookup_alter. repeat case_decide; subst; done.
Qed.

Lemma set_queue_inv slot kind queue r :
  router_inv r -> queue_inv queue -> router_inv (set_queue slot kind queue r).
Proof.
  intros [I1 I2 I3 I4 I5 I6] Hq.
  assert (D : forall s, is_Some (er_queues (set_queue slot kind queue r) !! s) <->
                        is_Some (er_queues r !! s)).
  { intros s. rewrite set_queue_lookup. case_decide; [|done]. by rewrite fmap_is_Some. }
  split; try (intros; rewrite ?D; by eauto).
  - intros s Hs. apply I5. by apply D.
  - intros s q k. rewrite set_queue_lookup. case_decide; [|by apply I6].
    intros (q0 & E & ->)%fmap_Some. pose proof (I6 s q0 k E). by destruct kind, k.
Qed.

Lemma push_to_some slot kind bytes r :
  is_Some (er_queues r !! slot) -> is_Some (push_to slot kind bytes r).
Proof. unfold push_to, queue_for. intros [q ->]. simpl. eauto. Qed.

Lemma push_to_inv slot kind bytes r r' :
  push_to slot kind bytes r = Some r' -> router_inv r -> router_inv r'.
Proof.
  unfold push_to, queue_for. destruct (er_queues r !! slot) as [q|] eqn:E; simpl; [|done].
  intros [= <-] Hinv. apply set_queue_inv; [done|]. apply push_inv. by apply (ri_queues r Hinv slot).
Qed.

Lemma take_inv slot kind r : router_inv r -> router_inv (take slot kind r).2.
Proof.
  intros Hinv. unfold take, queue_for. destruct (er_queues r !! slot) as [q|] eqn:E; simpl; [|done].
  pose proof (pop_inv _ (ri_queues r Hinv slot q kind E)).
  destruct (pop_for _) as [v q']. by apply set_queue_inv.
Qed.

Lemma count_unroutable_inv r : router_inv r -> router_inv (count_unroutable r).
Proof. intros [I1 I2 I3 I4 I5 I6]. by split. Qed.

Lemma route_lifecycle_inv event sequence r b r' :
  route_lifecycle event sequence r = Some (b, r') -> router_inv r -> router_inv r'.
Proof.
  unfold route_lifecycle. intros H Hinv.
  repeat case_match; simplify_eq; try by apply count_unroutable_inv.
  apply fmap_Some in H as (r0 & Hp & [= -> ->]). by eapply push_to_inv.
Qed.

Lemma route_process_exec_inv event sequence r b r' :
  route_process_exec event sequence r = Some (b, r') -> router_inv r -> router_inv r'.
Proof.
  unfold route_process_exec. intros H Hinv.
  repeat case_match; simplify_eq; try by apply count_unroutable_inv.
  apply fmap_Some in H as (r0 & Hp & [= -> ->]). by eapply push_to_inv.
Qed.

(** Routing never dereferences a missing queue. *)
Lemma route_defined r : router_inv r ->
  (forall event sequence, is_Some (route_lifecycle event sequence r)) /\
  (forall event sequence, is_Some (route_process_exec event sequence r)).
Proof.
  intros Hinv. unfold route_lifecycle, route_process_exec. split; intros event sequence.
  - destruct (le_network_namespace_inode event) as [n|]; [|eauto].
    destruct (er_netns_to_slot r !! n) as [s|] eqn:E; [|eauto].
    rewrite fmap_is_Some. apply push_to_some. by apply (ri_netns r Hinv n s).
  - destruct (pe_cgroup_id event) as [n|]; [|eauto].
    destruct (er_cgroup_to_slot r !! n) as [s|] eqn:E; [|eauto].
    rewrite fmap_is_Some. apply push_to_some. by apply (ri_cgroup r Hinv n s).
Qed.

(** ** Start-up *)

Definition mapping_ids_ok (m : EndpointMapping) : Prop :=
  em_slot m <> "" /\ em_netns_inode m <> 0 /\ em_cgroup_id m <> 0.

(** A mapping clashes with a router that already knows its slot or one of its ids. *)
Definition fresh_for (r : EventRouter) (m : EndpointMapping) : Prop :=
  er_queues r !! em_slot m = None /\ er_netns_to_slot r !! em_netns_inode m = None /\
  er_cgroup_to_slot r !! em_cgroup_id m = None.

Definition disjoint_mappings (ms : list EndpointMapping) : Prop :=
  NoDup (em_slot <$> ms) /\ NoDup (em_netns_inode <$> ms) /\ NoDup (em_cgroup_id <$> ms).

Lemma emplace_nonzero_insert key slot m :
  key <> 0 -> m !! key = None -> emplace_nonzero key slot m = <[key := slot]> m.
Proof. unfold emplace_nonzero. intros H ->. by rewrite (proj2 (Z.eqb_neq _ _)). Qed.

Lemma not_elem_of_fmap {A B} (f : A -> B) (l : list A) (b : B) :
  b ∉ f <$> l <-> forall a, a ∈ l -> b <> f a.
Proof. rewrite list_elem_of_fmap. naive_solver. Qed.

Lemma register_all_ok ms r :
  Forall mapping_ids_ok ms ->
  is_ok (register_all ms r) = true <-> Forall (fresh_for r) ms /\ disjoint_mappings ms.
Proof.
  unfold disjoint_mappings. revert r. induction ms as [|m ms IH]; intros r Hok; simpl.
  { split; [intros _; split_and!; constructor|done]. }
  apply Forall_cons in Hok as [(S1 & S2 & S3) Hok]. rewrite !NoDup_cons, Forall_cons.
  destruct (register_endpoint _ _ _ r) as [r'|msg] eqn:E; simpl.
  - apply register_endpoint_ok in E as [(_ & Q & N & C) ->].
    assert (F : fresh_for r m) by (split; naive_solver). destruct F as (_ & FN & FC).
    rewrite IH by done. unfold fresh_for; simpl.
    rewrite !emplace_nonzero_insert by done. rewrite !not_elem_of_fmap, !Forall_forall.
    setoid_rewrite lookup_insert_None. split.
    + intros [H (D1 & D2 & D3)]. split_and!; try done; intros x Hx; by destruct (H x Hx) as ([] & [] & []).
    + intros [[_ H] ((N1 & ?) & (N2 & ?) & (N3 & ?))]. split; [|done].
      intros x Hx. destruct (H x Hx) as (? & ? & ?). split_and!; eauto.
  - split; [done|]. intros [[(Q & N & C) _] _].
    assert (exists r', register_endpoint (em_slot m) (em_netns_inode m) (em_cgroup_id m) r = Ok r')
      as [r' E'] by (eexists; apply register_endpoint_ok; eauto 10). congruence.
Qed.

Lemma register_all_maps ms r r' :
  Forall mapping_ids_ok ms -> register_all ms r = Ok r' -> router_inv r ->
  router_inv r' /\
  (forall n s, er_netns_to_slot r' !! n = Some s <->
     er_netns_to_slot r !! n = Some s \/ exists m, m ∈ ms /\ em_netns_inode m = n /\ em_slot m = s) /\
  (forall n s, er_cgroup_to_slot r' !! n = Some s <->
     er_cgroup_to_slot r !! n = Some s \/ exists m, m ∈ ms /\ em_cgroup_id m = n /\ em_slot m = s).
Proof.
  revert r. induction ms as [|m ms IH]; intros r Hok H Hinv; simpl in H.
  { injection H as <-. split; [done|]. split; intros; set_solver. }
  apply Forall_cons in Hok as [(S1 & S2 & S3) Hok].
  apply rbind_ok in H as (r1 & E & H).
  pose proof (register_endpoint_inv _ _ _ _ _ E Hinv) as Hinv1.
  destruct (IH r1 Hok H Hinv1) as (I & HN & HC).
  apply register_endpoint_ok in E as [(_ & Q & N & C) ->]. simpl in *.
  split; [done|]. split; intros n s.
  - rewrite HN, emplace_nonzero_lookup by done. set_solver.
  - rewrite HC, emplace_nonzero_lookup by done. set_solver.
Qed.

(** Start-up of the broker succeeds exactly when there is a mapping and no
    two mappings share a slot, a network namespace or a cgroup; the router then
    maps each namespace and each cgroup to the slot it was given, and nothing else. *)
Theorem start_broker_spec capacity ms :
  Forall mapping_ids_ok ms ->
  (is_ok (start_broker capacity ms) = true <-> ms <> [] /\ disjoint_mappings ms) /\
  (forall r, start_broker capacity ms = Ok r ->
     router_inv r /\
     (forall n s, er_netns_to_slot r !! n = Some s <->
        exists m, m ∈ ms /\ em_netns_inode m = n /\ em_slot m = s) /\
     (forall n s, er_cgroup_to_slot r !! n = Some s <->
        exists m, m ∈ ms /\ em_cgroup_id m = n /\ em_slot m = s)).
Proof.
  intros Hok. unfold start_broker. destruct ms as [|m ms].
  { split; [naive_solver|done]. }
  cbn [length Nat.eqb throw_if rbind]. split.
  - rewrite register_all_ok by done. split; [naive_solver|].
    intros [_ H]. split; [|done]. apply Forall_forall. by intros ? _.
  - intros r H. destruct (register_all_maps _ _ _ Hok H (new_router_inv capacity)) as (I & HN & HC).
    split; [done|]. simpl in HN, HC.
    split; intros; [rewrite HN|rewrite HC]; rewrite lookup_empty; naive_solver.
Qed.

Definition two_mappings : list EndpointMapping :=
  [MkEndpointMapping "a" 11 21; MkEndpointMapping "b" 12 22].

Lemma start_broker_spec_witness :
  Forall mapping_ids_ok two_mappings /\ is_ok (start_broker 4 two_mappings) = true.
Proof.
  assert (H : Forall mapping_ids_ok two_mappings)
    by (repeat constructor; simpl; discriminate).
  split; [exact H|]. apply (proj1 (start_broker_spec 4 two_mappings H)).
  split; [discriminate|]. unfold disjoint_mappings.
  split_and!; apply (bool_decide_unpack _); reflexivity.
Defined.

(** ** The running broker *)

Record Broker := MkBroker {
  br_router : EventRouter;
  br_sequence : Z;
  br_lifecycle : option (ConnectionLifecycleEvent * Z);
  br_process : option (ProcessExecEvent * Z);
  br_sent : list (string * EventKind * frame) }.

(** One step of a thread: a sensor thread draws the next sequence number for an
    event and later routes it; a client thread sends the next frame of its slot. *)
Inductive broker_step : Broker -> Broker -> Prop :=
| step_draw_lifecycle b event :
    br_lifecycle b = None ->
    broker_step b (MkBroker (br_router b) (wrap_u 64 (br_sequence b + 1))
                     (Some (event, br_sequence b)) (br_process b) (br_sent b))
| step_route_lifecycle b event n ok r :
    br_lifecycle b = Some (event, n) -> route_lifecycle event n (br_router b) = Some (ok, r) ->
    broker_step b (MkBroker r (br_sequence b) None (br_process b) (br_sent b))
| step_draw_process b event :
    br_process b = None ->
    broker_step b (MkBroker (br_router b) (wrap_u 64 (br_sequence b + 1))
                     (br_lifecycle b) (Some (event, br_sequence b)) (br_sent b))
| step_route_process b event n ok r :
    br_process b = Some (event, n) -> route_process_exec event n (br_router b) = Some (ok, r) ->
    broker_step b (MkBroker r (br_sequence b) (br_lifecycle b) None (br_sent b))
| step_deliver b slot kind bytes r :
    take slot kind (br_router b) = (Some bytes, r) ->
    broker_step b (MkBroker r (br_sequence b) (br_lifecycle b) (br_process b)
                     (br_sent b ++ [(slot, kind, bytes)])).

Definition broker_init (r : EventRouter) : Broker := MkBroker r 1 None None [].

Inductive broker_reachable (r : EventRouter) : Broker -> Prop :=
| reach_init : broker_reachable r (broker_init r)
| reach_step b b' : broker_reachable r b -> broker_step b b' -> broker_reachable r b'.

(** The frame belongs to the endpoint: it encodes an event of its namespace or cgroup. *)
Definition belongs (r : EventRouter) (slot : string) (kind : EventKind) (bytes : frame) : Prop :=
  match kind with
  | KindLifecycle =>
      exists event n netns, bytes = encode_lifecycle n event /\
        le_network_namespace_inode event = Some netns /\ er_netns_to_slot r !! netns = Some slot
  | KindProcessExec =>
      exists event n cgroup, bytes = encode_process_exec n event /\
        pe_cgroup_id event = Some cgroup /\ er_cgroup_to_slot r !! cgroup = Some slot
  end.

(** Every queued frame belongs to the endpoint of its queue. *)
Definition queued_belong (r0 r : EventRouter) : Prop :=
  forall slot q kind bytes, er_queues r !! slot = Some q -> bytes ∈ bq_queue (queue_of kind q) ->
    belongs r0 slot kind bytes.

Definition same_tables (r0 r : EventRouter) : Prop :=
  er_netns_to_slot r = er_netns_to_slot r0 /\ er_cgroup_to_slot r = er_cgroup_to_slot r0.

Lemma queue_of_with_queue kind k queue q :
  queue_of k (with_queue kind queue q) = if decide (k = kind) then queue else queue_of k q.
Proof. by destruct kind, k. Qed.

Lemma push_to_belong r0 r r' slot kind bytes :
  push_to slot kind bytes r = Some r' -> belongs r0 slot kind bytes ->
  queued_belong r0 r -> same_tables r0 r -> queued_belong r0 r' /\ same_tables r0 r'.
Proof.
  unfold push_to, queue_for. intros H Hb Hq Ht.
  destruct (er_queues r !! slot) as [q|] eqn:E; simpl in H; [|done]. injection H as <-.
  split; [|done]. intros s q' k b. rewrite set_queue_lookup. case_decide as Hs; [|by apply Hq]. subst s.
  rewrite E. simpl. intros [= <-]. rewrite queue_of_with_queue. case_decide as Hk.
  - subst k. intros [->|Hin]%push_elem; [done|]. by eapply Hq.
  - by eapply Hq.
Qed.

Lemma take_belong r0 r slot kind v r' :
  take slot kind r = (v, r') -> queued_belong r0 r -> same_tables r0 r ->
  queued_belong r0 r' /\ same_tables r0 r' /\ opt_all (belongs r0 slot kind) v.
Proof.
  unfold take, queue_for. intros H Hq Ht.
  destruct (er_queues r !! slot) as [q|] eqn:E; simpl in H; [|by simplify_eq].
  unfold pop_for in H. destruct (bq_queue (queue_of kind q)) as [|x l] eqn:El; simplify_eq.
  - split; [|done]. intros s q' k b. rewrite set_queue_lookup. case_decide as Hs; [|by apply Hq]. subst s.
    rewrite E. simpl. intros [= <-]. rewrite queue_of_with_queue. case_decide as Hk; [subst k|]; by eapply Hq.
  - split; [|split; [done|simpl; eapply Hq; [exact E|rewrite El; set_solver]]].
    intros s q' k b. rewrite set_queue_lookup. case_decide as Hs; [|by apply Hq]. subst s.
    rewrite E. simpl. intros [= <-]. rewrite queue_of_with_queue. case_decide as Hk; [subst k|by eapply Hq].
    simpl. intros Hin. eapply Hq; [exact E|]. rewrite El. set_solver.
Qed.

Lemma route_lifecycle_belong r0 event n r ok r' :
  route_lifecycle event n r = Some (ok, r') ->
  queued_belong r0 r -> same_tables r0 r -> queued_belong r0 r' /\ same_tables r0 r'.
Proof.
  unfold route_lifecycle. intros H Hq Ht.
  destruct (le_network_namespace_inode event) as [netns|] eqn:En; [|by simplify_eq].
  destruct (er_netns_to_slot r !! netns) as [slot|] eqn:Es; [|by simplify_eq].
  apply fmap_Some in H as (r1 & Hp & [= -> ->]). eapply push_to_belong; [exact Hp| |done|done].
  exists event, n, netns. destruct Ht as [<- _]. done.
Qed.

Lemma route_process_belong r0 event n r ok r' :
  route_process_exec event n r = Some (ok, r') ->
  queued_belong r0 r -> same_tables r0 r -> queued_belong r0 r' /\ same_tables r0 r'.
Proof.
  unfold route_process_exec. intros H Hq Ht.
  destruct (pe_cgroup_id event) as [cgroup|] eqn:En; [|by simplify_eq].
  destruct (er_cgroup_to_slot r !! cgroup) as [slot|] eqn:Es; [|by simplify_eq].
  apply fmap_Some in H as (r1 & Hp & [= -> ->]). eapply push_to_belong; [exact Hp| |done|done].
  exists event, n, cgroup. destruct Ht as [_ <-]. done.
Qed.

Record broker_inv (r0 : EventRouter) (b : Broker) : Prop := {
  bi_router : router_inv (br_router b);
  bi_queued : queued_belong r0 (br_router b);
  bi_tables : same_tables r0 (br_router b);
  bi_sent : forall slot kind bytes, (slot, kind, bytes) ∈ br_sent b -> belongs r0 slot kind bytes }.

Lemma broker_step_inv r0 b b' : broker_step b b' -> broker_inv r0 b -> broker_inv r0 b'.
Proof.
  intros Hstep [Hr Hq Ht Hs]. destruct Hstep as [b e Hn|b e n ok r Hn H|b e Hn|b e n ok r Hn H|b slot kind bytes r H].
  - by split.
  - destruct (route_lifecycle_belong r0 e n _ ok r H Hq Ht). split; try done. by eapply route_lifecycle_inv.
  - by split.
  - destruct (route_process_belong r0 e n _ ok r H Hq Ht). split; try done. by eapply route_process_exec_inv.
  - destruct (take_belong r0 _ slot kind _ r H Hq Ht) as (? & ? & Hb).
    pose proof (take_inv slot kind _ Hr) as Hr'. rewrite H in Hr'. split; try done.
    intros s k b0 [Hin|[= -> -> ->]%list_elem_of_singleton]%elem_of_app; [by apply Hs|done].
Qed.

Lemma broker_reachable_inv r b :
  router_inv r -> (forall slot q kind, er_queues r !! slot = Some q -> bq_queue (queue_of kind q) = []) ->
  broker_reachable r b -> broker_inv r b.
Proof.
  intros Hinv Hempty. induction 1 as [|b b' _ IH Hstep]; [|by eapply broker_step_inv].
  split; simpl; [done| |done|].
  - intros slot q kind bytes E Hin. rewrite (Hempty slot q kind E) in Hin. by apply not_elem_of_nil in Hin.
  - intros ? ? ? Hin. by apply not_elem_of_nil in Hin.
Qed.

Lemma register_all_empty ms r r' :
  register_all ms r = Ok r' ->
  (forall slot q kind, er_queues r !! slot = Some q -> bq_queue (queue_of kind q) = []) ->
  forall slot q kind, er_queues r' !! slot = Some q -> bq_queue (queue_of kind q) = [].
Proof.
  revert r. induction ms as [|m ms IH]; intros r H Hr; simpl in H; [by simplify_eq|].
  apply rbind_ok in H as (r1 & E & H). apply (IH r1 H).
  apply register_endpoint_ok in E as [_ ->]. simpl. intros slot q kind.
  rewrite lookup_insert. case_decide; [|apply Hr]. intros [= <-]. by destruct kind.
Qed.

(** C7: Endpoint isolation of the running broker: from a successful start-up,
    under every interleaving of the sensor and client threads, every frame sent to
    a client of a slot is the encoding of an event of the network namespace
    (lifecycle) or cgroup (process) mapped to that slot on the command line, and
    routing never dereferences a missing queue. *)
Theorem broker_isolation capacity ms r b :
  Forall mapping_ids_ok ms -> start_broker capacity ms = Ok r -> broker_reachable r b ->
  (forall slot bytes, (slot, KindLifecycle, bytes) ∈ br_sent b ->
     exists m event n, m ∈ ms /\ em_slot m = slot /\ bytes = encode_lifecycle n event /\
       le_network_namespace_inode event = Some (em_netns_inode m)) /\
  (forall slot bytes, (slot, KindProcessExec, bytes) ∈ br_sent b ->
     exists m event n, m ∈ ms /\ em_slot m = slot /\ bytes = encode_process_exec n event /\
       pe_cgroup_id event = Some (em_cgroup_id m)) /\
  (forall event n, is_Some (route_lifecycle event n (br_router b))) /\
  (forall event n, is_Some (route_process_exec event n (br_router b))).
Proof.
  intros Hok Hstart Hreach. unfold start_broker in Hstart.
  apply rbind_ok in Hstart as (u & _ & Hstart).
  destruct (register_all_maps _ _ _ Hok Hstart (new_router_inv capacity)) as (I & HN & HC).
  destruct (broker_reachable_inv r b I) as [Hr _ _ Hs]; [|done|].
  { apply (register_all_empty _ _ _ Hstart). intros slot q kind. simpl. by rewrite lookup_empty. }
  simpl in HN, HC. split; [|split; [|by apply route_defined]]; intros slot bytes Hin.
  - destruct (Hs _ _ _ Hin) as (event & n & k & -> & He & Hk).
    apply HN in Hk as [Hk|(m & Hm & <- & <-)]; [by rewrite lookup_empty in Hk|]. eauto 10.
  - destruct (Hs _ _ _ Hin) as (event & n & k & -> & He & Hk).
    apply HC in Hk as [Hk|(m & Hm & <- & <-)]; [by rewrite lookup_empty in Hk|]. eauto 10.
Qed.

(** A run in which [sample_event] of the namespace of slot "a" is delivered to it. *)
Definition demo_mappings : list EndpointMapping := [MkEndpointMapping "a" 4026531840 21].

Definition demo_router : EventRouter :=
  match start_broker 2 demo_mappings with Ok r => r | Throw _ => new_router 2 end.

Definition demo_routed : EventRouter :=
  match route_lifecycle sample_event 1 demo_router with Some (_, r) => r | None => demo_router end.

Definition demo_broker : Broker :=
  MkBroker (take "a" KindLifecycle demo_routed).2 2 None None
    [("a", KindLifecycle, encode_lifecycle 1 sample_event)].

Lemma demo_reachable : broker_reachable demo_router demo_broker.
Proof.
  apply (reach_step _ (MkBroker demo_routed 2 None None [])).
  - apply (reach_step _ (MkBroker demo_router 2 (Some (sample_event, 1)) None [])).
    + apply (reach_step _ (broker_init demo_router)); [apply reach_init|].
      exact (step_draw_lifecycle (broker_init demo_router) sample_event eq_refl).
    + refine (step_route_lifecycle (MkBroker demo_router 2 (Some (sample_event, 1)) None [])
               sample_event 1 true demo_routed eq_refl _). vm_compute. reflexivity.
  - refine (step_deliver (MkBroker demo_routed 2 None None []) "a" KindLifecycle
             (encode_lifecycle 1 sample_event) (take "a" KindLifecycle demo_routed).2 _).
    vm_compute. reflexivity.
Qed.

Lemma broker_isolation_witness :
  exists m event n, m ∈ demo_mappings /\ em_slot m = "a" /\
    encode_lifecycle 1 sample_event = encode_lifecycle n event /\
    le_network_namespace_inode event = Some (em_netns_inode m).
Proof.
  assert (H1 : Forall mapping_ids_ok demo_mappings)
    by (repeat constructor; simpl; discriminate).
  assert (H2 : start_broker 2 demo_mappings = Ok demo_router) by reflexivity.
  apply (proj1 (broker_isolation 2 demo_mappings demo_router demo_broker H1 H2 demo_reachable)).
  apply list_elem_of_singleton. reflexivity.
Defined.

(** Delivery: an in-range lifecycle event of a mapped namespace, routed to a
    slot whose queue is empty, is what the next [take] of that slot returns, and
    it decodes to the event's wire image; every other queue is left as it was. *)
Theorem route_take_lifecycle r event sequence netns slot q :
  router_inv r -> in_u 64 sequence -> lifecycle_wf event ->
  le_network_namespace_inode event = Some netns -> er_netns_to_slot r !! netns = Some slot ->
  er_queues r !! slot = Some q -> bq_queue (eq_lifecycle q) = [] ->
  exists r' bytes,
    route_lifecycle event sequence r = Some (true, r') /\
    (take slot KindLifecycle r').1 = Some bytes /\
    decode_lifecycle bytes = Some (lifecycle_image event) /\
    (forall s k, (s, k) <> (slot, KindLifecycle) -> queue_for s k r' = queue_for s k r) /\
    dropped slot KindLifecycle r' = dropped slot KindLifecycle r.
Proof.
  intros Hinv Hseq Hwf Hn Hs Hq He.
  destruct (ri_queues r Hinv slot q KindLifecycle Hq) as [Hcap _]. simpl in Hcap.
  unfold route_lifecycle. rewrite Hn, Hs. unfold push_to, queue_for. rewrite Hq. simpl.
  eexists _, (encode_lifecycle sequence event). split; [done|].
  unfold take, dropped, queue_for. rewrite !set_queue_lookup, decide_True, Hq by done. simpl.
  unfold push. rewrite He. rewrite bool_decide_eq_false_2 by (simpl; lia). simpl.
  split; [done|]. split; [by apply decode_encode_lifecycle|]. split; [|done].
  intros s k Hne. rewrite lookup_alter. case_decide as Hsl; [|done]. subst s.
  rewrite Hq. by destruct k.
Qed.

Lemma route_take_lifecycle_witness :
  exists r' bytes,
    route_lifecycle sample_event 9 demo_router = Some (true, r') /\
    (take "a" KindLifecycle r').1 = Some bytes /\
    decode_lifecycle bytes = Some (lifecycle_image sample_event) /\
    (forall s k, (s, k) <> ("a", KindLifecycle) -> queue_for s k r' = queue_for s k demo_router) /\
    dropped "a" KindLifecycle r' = dropped "a" KindLifecycle demo_router.
Proof.
  apply (route_take_lifecycle demo_router sample_event 9 4026531840 "a"
           (MkEndpointQueues (new_queue 2) (new_queue 2))); try reflexivity.
  - apply (register_endpoint_inv "a" 4026531840 21 (new_router 2)); [reflexivity|].
    exact (new_router_inv 2).
  - unfold in_u. lia.
  - unfold lifecycle_wf, opt_all, in_u, in_s; simpl; lia.
Defined.
