(* ===== verification/WindowsBroker.v ===== *)
(** The Windows sensor broker ([src/platform/windows/sensor_broker_protocol.cpp],
    [sensor_broker_process_registry.cpp], [sensor_broker_router.cpp], and the routing of
    [sensor_broker_server.cpp]).

    Its frames are packed structs like those of the Linux broker ([SensorBroker]), with other
    members.  The registry attributes a process to an endpoint by its ancestors: from a snapshot of
    the process table, from start events, and from what it remembers.  A call of the registry is one
    step; it takes its lock several times, and calls that interleave inside it are not modelled.

    The theorems: frames round-trip ([windows_frames_round_trip]); whatever is routed to an endpoint,
    and whoever may connect as it, has a chain of reported parents to a process registered for that
    endpoint ([windows_isolation]); and a process that reuses the number of an exited root process
    is attributed to its endpoint ([reused_root_is_attributed]). *)

From S2P Require Import Prelude Text Wire Model SensorBroker BrokerRouter.

(** ** Protocol *)

Definition kMagic : Z := 0x4e534233.
Definition kVersion : Z := 1.
Definition kIdentityLength : nat := 192.
Definition kMaximumFrameSize : Z := 8192.
Definition kEventKindAll : Z := 1.

Record LifecyclePayload := MkLifecyclePayload {
  lp_flags : Z; lp_event_type : Z; lp_provenance : Z; lp_address_family : Z; lp_protocol : Z;
  lp_endpoint_kind : Z; lp_tcp_state : Z; lp_reserved : Z; lp_timestamp_ns : Z;
  lp_agent_pid : Z; lp_agent_tgid : Z; lp_kernel_pid : Z; lp_kernel_tgid : Z;
  lp_uid : Z; lp_reserved2 : Z; lp_start_ticks : Z; lp_platform_connection_id : Z;
  lp_local_port : Z; lp_remote_port : Z;
  lp_comm : list byte; lp_local_address : list byte; lp_remote_address : list byte }.

Definition lifecycle_codec : Codec LifecyclePayload :=
  struct_codec
    (fun '(a, (b, (c, (d, (e, (f, (g, (h, (i, (j, (k, (l, (m, (n, (o, (p, (q, (r, (s, (t, (u, v))))))))))))))))))))) =>
       MkLifecyclePayload a b c d e f g h i j k l m n o p q r s t u v)
    (fun x => (lp_flags x, (lp_event_type x, (lp_provenance x, (lp_address_family x, (lp_protocol x,
       (lp_endpoint_kind x, (lp_tcp_state x, (lp_reserved x, (lp_timestamp_ns x, (lp_agent_pid x,
       (lp_agent_tgid x, (lp_kernel_pid x, (lp_kernel_tgid x, (lp_uid x, (lp_reserved2 x, (lp_start_ticks x,
       (lp_platform_connection_id x, (lp_local_port x, (lp_remote_port x, (lp_comm x, (lp_local_address x,
       lp_remote_address x))))))))))))))))))))))
    (pair_codec (uint_codec 4) (pair_codec (uint_codec 1) (pair_codec (uint_codec 1) (pair_codec (uint_codec 1)
    (pair_codec (uint_codec 1) (pair_codec (uint_codec 1) (pair_codec (uint_codec 1) (pair_codec (uint_codec 2)
    (pair_codec (uint_codec 8) (pair_codec (sint_codec 8) (pair_codec (sint_codec 8) (pair_codec (sint_codec 8)
    (pair_codec (sint_codec 8) (pair_codec (uint_codec 4) (pair_codec (uint_codec 4) (pair_codec (uint_codec 8)
    (pair_codec (uint_codec 8) (pair_codec (uint_codec 2) (pair_codec (uint_codec 2)
    (pair_codec (chars_codec kCommLength) (pair_codec (chars_codec kAddressLength)
    (chars_codec kAddressLength)))))))))))))))))))))).

Record ProcessPayload := MkProcessPayload {
  pp_flags : Z; pp_event_type : Z; pp_elevated : Z; pp_reserved : Z; pp_timestamp_ns : Z;
  pp_pid : Z; pp_tgid : Z; pp_parent_pid : Z; pp_parent_tgid : Z; pp_uid : Z; pp_gid : Z;
  pp_process_start_time_ns : Z; pp_platform_process_key : Z;
  pp_parent_process_start_time_ns : Z; pp_parent_platform_process_key : Z;
  pp_session_id : Z; pp_exit_code : Z;
  pp_comm : list byte; pp_executable_path : list byte; pp_command_line : list byte;
  pp_working_directory : list byte; pp_user_identity : list byte; pp_integrity_level : list byte }.

Definition process_codec : Codec ProcessPayload :=
  struct_codec
    (fun '(a, (b, (c, (d, (e, (f, (g, (h, (i, (j, (k, (l, (m, (n, (o, (p, (q, (r, (s, (t, (u, (v, w)))))))))))))))))))))) =>
       MkProcessPayload a b c d e f g h i j k l m n o p q r s t u v w)
    (fun x => (pp_flags x, (pp_event_type x, (pp_elevated x, (pp_reserved x, (pp_timestamp_ns x, (pp_pid x,
       (pp_tgid x, (pp_parent_pid x, (pp_parent_tgid x, (pp_uid x, (pp_gid x, (pp_process_start_time_ns x,
       (pp_platform_process_key x, (pp_parent_process_start_time_ns x, (pp_parent_platform_process_key x,
       (pp_session_id x, (pp_exit_code x, (pp_comm x, (pp_executable_path x, (pp_command_line x,
       (pp_working_directory x, (pp_user_identity x, pp_integrity_level x)))))))))))))))))))))))
    (pair_codec (uint_codec 4) (pair_codec (uint_codec 1) (pair_codec (uint_codec 1) (pair_codec (uint_codec 2)
    (pair_codec (uint_codec 8) (pair_codec (sint_codec 8) (pair_codec (sint_codec 8) (pair_codec (sint_codec 8)
    (pair_codec (sint_codec 8) (pair_codec (uint_codec 4) (pair_codec (uint_codec 4) (pair_codec (uint_codec 8)
    (pair_codec (uint_codec 8) (pair_codec (uint_codec 8) (pair_codec (uint_codec 8) (pair_codec (uint_codec 4)
    (pair_codec (sint_codec 4)
    (pair_codec (chars_codec kCommLength) (pair_codec (chars_codec kPathLength)
    (pair_codec (chars_codec kCommandLineLength) (pair_codec (chars_codec kWorkingDirectoryLength)
    (pair_codec (chars_codec kIdentityLength) (chars_codec kIntegrityLength))))))))))))))))))))))).

Definition LifecycleAgentPid : Z := 2 ^ 0.
Definition LifecycleKernelPid : Z := 2 ^ 1.
Definition LifecycleUid : Z := 2 ^ 2.
Definition LifecycleStartTicks : Z := 2 ^ 3.
Definition LifecycleLocal : Z := 2 ^ 4.
Definition LifecycleLocalPort : Z := 2 ^ 5.
Definition LifecycleRemote : Z := 2 ^ 6.
Definition LifecycleRemotePort : Z := 2 ^ 7.
Definition LifecyclePlatformConnectionId : Z := 2 ^ 8.
Definition LifecycleTcpState : Z := 2 ^ 9.

Definition ProcessPid : Z := 2 ^ 0.
Definition ProcessParentPid : Z := 2 ^ 1.
Definition ProcessUid : Z := 2 ^ 2.
Definition ProcessGid : Z := 2 ^ 3.
Definition ProcessStart : Z := 2 ^ 4.
Definition ProcessKey : Z := 2 ^ 5.
Definition ProcessParentStart : Z := 2 ^ 6.
Definition ProcessParentKey : Z := 2 ^ 7.
Definition ProcessSession : Z := 2 ^ 8.
Definition ProcessElevated : Z := 2 ^ 9.
Definition ProcessExitCode : Z := 2 ^ 10.

(** *** Frames *)

Definition make_frame {P} (codec : Codec P) (type : MessageType) (sequence : Z) (payload : P) : list byte :=
  let header := MkFrameHeader kMagic kVersion (message_type_code type) sequence (Z.of_nat (c_size codec)) 0 in
  c_put frame_header_codec header ++ c_put codec payload.

Definition decode_header (bytes : list byte) : option FrameHeader :=
  if bool_decide (length bytes < c_size frame_header_codec)%nat then None
  else
    let header := c_get frame_header_codec bytes in
    if negb (fh_magic header =? kMagic) || negb (fh_version header =? kVersion) then None
    else if kMaximumFrameSize <? fh_payload_size header then None
    else if negb (Z.of_nat (length bytes) =? Z.of_nat (c_size frame_header_codec) + fh_payload_size header) then None
    else Some header.

Definition decode_payload {P} (codec : Codec P) (bytes : list byte) (type : MessageType) : option P :=
  match decode_header bytes with
  | None => None
  | Some header =>
      if negb (fh_type header =? message_type_code type) || negb (fh_payload_size header =? Z.of_nat (c_size codec)) then None
      else Some (c_get codec (drop (c_size frame_header_codec) bytes))
  end.

Definition frame_type (bytes : list byte) : option MessageType :=
  match decode_header bytes with
  | None => None
  | Some header =>
      if fh_type header =? 1 then Some MsgRegister
      else if fh_type header =? 2 then Some MsgLifecycle
      else if fh_type header =? 3 then Some MsgProcessExec
      else None
  end.

(** *** Registration *)

Definition encode_registration (slot : string) : result (list byte) :=
  if bool_decide (slot = "") || bool_decide (kSlotLength <= String.length slot)%nat
  then Throw "Windows sensor-broker endpoint slot must contain 1-63 bytes"
  else Ok (make_frame registration_codec MsgRegister 0 (MkRegistrationPayload kEventKindAll 0 (copy_text kSlotLength slot))).

Definition decode_registration (bytes : list byte) : option string :=
  match decode_payload registration_codec bytes MsgRegister with
  | None => None
  | Some payload =>
      if negb (rp_event_kind payload =? kEventKindAll) then None
      else
        let slot := read_text (rp_endpoint_slot payload) in
        if bool_decide (slot = "") then None else Some slot
  end.

(** *** Lifecycle events *)

Definition lifecycle_type_code (type : ConnectionLifecycleEventType) : Z :=
  match type with Connect => 1 | Accept => 2 | Close => 3 | EventTypeRaw _ => 0 end.

Definition lifecycle_type_of (value : Z) : option ConnectionLifecycleEventType :=
  if value =? 1 then Some Connect else if value =? 2 then Some Accept else if value =? 3 then Some Close else None.

(** A process id with its group, which defaults to it. *)
Definition ids_of (ids : LifecycleProcessIds) : option (Z * Z) :=
  match lpi_pid ids with Some pid => Some (pid, value_or (lpi_tgid ids) pid) | None => None end.

Definition lifecycle_flags (event : ConnectionLifecycleEvent) : Z :=
  let p := le_process event in
  set_flag (has (le_tcp_state event)) LifecycleTcpState
  (set_flag (has (le_platform_connection_id event)) LifecyclePlatformConnectionId
  (set_flag (has (endpoint_port (le_remote event))) LifecycleRemotePort
  (set_flag (has (le_remote event)) LifecycleRemote
  (set_flag (has (endpoint_port (le_local event))) LifecycleLocalPort
  (set_flag (has (le_local event)) LifecycleLocal
  (set_flag (has (lpc_start_ticks p)) LifecycleStartTicks
  (set_flag (has (lpc_uid p)) LifecycleUid
  (set_flag (has (ids_of (lpc_kernel p))) LifecycleKernelPid
  (set_flag (has (ids_of (lpc_agent_visible p))) LifecycleAgentPid 0))))))))).

Definition lifecycle_payload (event : ConnectionLifecycleEvent) : LifecyclePayload :=
  let p := le_process event in
  let agent := value_or (ids_of (lpc_agent_visible p)) (0, 0) in
  let kernel := value_or (ids_of (lpc_kernel p)) (0, 0) in
  {| lp_flags := lifecycle_flags event;
     lp_event_type := lifecycle_type_code (le_type event);
     lp_provenance := provenance_code (le_provenance event);
     lp_address_family := family_code (le_address_family event);
     lp_protocol := protocol_code (le_protocol event);
     lp_endpoint_kind := endpoint_kind_code (le_endpoint_kind event);
     lp_tcp_state := value_or (le_tcp_state event) 0;
     lp_reserved := 0;
     lp_timestamp_ns := le_timestamp_ns event;
     lp_agent_pid := agent.1; lp_agent_tgid := agent.2;
     lp_kernel_pid := kernel.1; lp_kernel_tgid := kernel.2;
     lp_uid := value_or (lpc_uid p) 0;
     lp_reserved2 := 0;
     lp_start_ticks := value_or (lpc_start_ticks p) 0;
     lp_platform_connection_id := value_or (le_platform_connection_id event) 0;
     lp_local_port := value_or (endpoint_port (le_local event)) 0;
     lp_remote_port := value_or (endpoint_port (le_remote event)) 0;
     lp_comm := copy_text kCommLength (value_or (lpc_comm p) "");
     lp_local_address := endpoint_text (le_local event);
     lp_remote_address := endpoint_text (le_remote event) |}.

Definition encode_lifecycle (event : ConnectionLifecycleEvent) (sequence : Z) : list byte :=
  make_frame lifecycle_codec MsgLifecycle sequence (lifecycle_payload event).

Definition decode_lifecycle (bytes : list byte) : option ConnectionLifecycleEvent :=
  match decode_payload lifecycle_codec bytes MsgLifecycle with
  | None => None
  | Some payload =>
      match lifecycle_type_of (lp_event_type payload) with
      | None => None
      | Some type =>
          let flag := test_flag (lp_flags payload) in
          let comm := read_text (lp_comm payload) in
          Some {|
            le_type := type;
            le_timestamp_ns := lp_timestamp_ns payload;
            le_provenance := provenance_of (lp_provenance payload);
            le_process := {|
              lpc_agent_visible := MkLifecycleProcessIds (when (flag LifecycleAgentPid) (lp_agent_pid payload))
                                                         (when (flag LifecycleAgentPid) (lp_agent_tgid payload));
              lpc_kernel := MkLifecycleProcessIds (when (flag LifecycleKernelPid) (lp_kernel_pid payload))
                                                  (when (flag LifecycleKernelPid) (lp_kernel_tgid payload));
              lpc_agent_pid_namespace := None;
              lpc_uid := when (flag LifecycleUid) (lp_uid payload);
              lpc_start_ticks := when (flag LifecycleStartTicks) (lp_start_ticks payload);
              lpc_comm := when (negb (bool_decide (comm = ""))) comm |};
            le_network_namespace_inode := None;
            le_address_family := family_of (lp_address_family payload);
            le_protocol := protocol_of (lp_protocol payload);
            le_endpoint_kind := endpoint_kind_of (lp_endpoint_kind payload);
            le_local := when (flag LifecycleLocal)
              (MkNetworkEndpoint (read_text (lp_local_address payload)) (when (flag LifecycleLocalPort) (lp_local_port payload)));
            le_remote := when (flag LifecycleRemote)
              (MkNetworkEndpoint (read_text (lp_remote_address payload)) (when (flag LifecycleRemotePort) (lp_remote_port payload)));
            le_socket_cookie := None;
            le_platform_connection_id := when (flag LifecyclePlatformConnectionId) (lp_platform_connection_id payload);
            le_tcp_state := when (flag LifecycleTcpState) (lp_tcp_state payload) |}
      end
  end.

(** *** Process events *)

Definition process_flags (event : ProcessExecEvent) : Z :=
  set_flag (has (pe_exit_code event)) ProcessExitCode
  (set_flag (has (pe_elevated event)) ProcessElevated
  (set_flag (has (pe_session_id event)) ProcessSession
  (set_flag (has (pe_parent_platform_process_key event)) ProcessParentKey
  (set_flag (has (pe_parent_process_start_time_ns event)) ProcessParentStart
  (set_flag (has (pe_platform_process_key event)) ProcessKey
  (set_flag (has (pe_process_start_time_ns event)) ProcessStart
  (set_flag (has (pe_gid event)) ProcessGid
  (set_flag (has (pe_uid event)) ProcessUid
  (set_flag (has (pe_parent_pid event)) ProcessParentPid
  (set_flag (has (pe_pid event)) ProcessPid 0)))))))))).

Definition process_payload (event : ProcessExecEvent) : ProcessPayload :=
  let pid := value_or (pe_pid event) 0 in
  let parent := value_or (pe_parent_pid event) 0 in
  {| pp_flags := process_flags event;
     pp_event_type := match pe_type event with Start => 1 | _ => 2 end;
     pp_elevated := if value_or (pe_elevated event) false then 1 else 0;
     pp_reserved := 0;
     pp_timestamp_ns := pe_timestamp_ns event;
     pp_pid := pid;
     pp_tgid := if has (pe_pid event) then value_or (pe_tgid event) pid else 0;
     pp_parent_pid := parent;
     pp_parent_tgid := if has (pe_parent_pid event) then value_or (pe_parent_tgid event) parent else 0;
     pp_uid := value_or (pe_uid event) 0;
     pp_gid := value_or (pe_gid event) 0;
     pp_process_start_time_ns := value_or (pe_process_start_time_ns event) 0;
     pp_platform_process_key := value_or (pe_platform_process_key event) 0;
     pp_parent_process_start_time_ns := value_or (pe_parent_process_start_time_ns event) 0;
     pp_parent_platform_process_key := value_or (pe_parent_platform_process_key event) 0;
     pp_session_id := value_or (pe_session_id event) 0;
     pp_exit_code := value_or (pe_exit_code event) 0;
     pp_comm := copy_text kCommLength (pe_comm event);
     pp_executable_path := copy_text kPathLength (pe_executable_path event);
     pp_command_line := copy_text kCommandLineLength (pe_command_line event);
     pp_working_directory := copy_text kWorkingDirectoryLength (pe_working_directory event);
     pp_user_identity := copy_text kIdentityLength (pe_user_identity event);
     pp_integrity_level := copy_text kIntegrityLength (pe_integrity_level event) |}.

Definition encode_process_exec (event : ProcessExecEvent) (sequence : Z) : list byte :=
  make_frame process_codec MsgProcessExec sequence (process_payload event).

Definition decode_process_exec (bytes : list byte) : option ProcessExecEvent :=
  match decode_payload process_codec bytes MsgProcessExec with
  | None => None
  | Some payload =>
      if negb (pp_event_type payload =? 1) && negb (pp_event_type payload =? 2) then None
      else
        let flag := test_flag (pp_flags payload) in
        Some {|
          pe_type := if pp_event_type payload =? 1 then Start else Exit;
          pe_timestamp_ns := pp_timestamp_ns payload;
          pe_pid := when (flag ProcessPid) (pp_pid payload);
          pe_tgid := when (flag ProcessPid) (pp_tgid payload);
          pe_parent_pid := when (flag ProcessParentPid) (pp_parent_pid payload);
          pe_parent_tgid := when (flag ProcessParentPid) (pp_parent_tgid payload);
          pe_uid := when (flag ProcessUid) (pp_uid payload);
          pe_gid := when (flag ProcessGid) (pp_gid payload);
          pe_process_start_time_ns := when (flag ProcessStart) (pp_process_start_time_ns payload);
          pe_platform_process_key := when (flag ProcessKey) (pp_platform_process_key payload);
          pe_parent_process_start_time_ns := when (flag ProcessParentStart) (pp_parent_process_start_time_ns payload);
          pe_parent_platform_process_key := when (flag ProcessParentKey) (pp_parent_platform_process_key payload);
          pe_session_id := when (flag ProcessSession) (pp_session_id payload);
          pe_user_identity := read_text (pp_user_identity payload);
          pe_integrity_level := read_text (pp_integrity_level payload);
          pe_elevated := when (flag ProcessElevated) (negb (pp_elevated payload =? 0));
          pe_exit_code := when (flag ProcessExitCode) (pp_exit_code payload);
          pe_cgroup_id := None;
          pe_comm := read_text (pp_comm payload);
          pe_executable_path := read_text (pp_executable_path payload);
          pe_command_line := read_text (pp_command_line payload);
          pe_working_directory := read_text (pp_working_directory payload) |}
  end.

(** ** The process registry *)

Record Ownership := MkOwnership { ow_slot : string; ow_process_key : option Z; ow_root : bool }.

Record Registry := MkRegistry { rg_roots : gmap Z string; rg_owners : gmap Z Ownership }.

Definition empty_registry : Registry := MkRegistry ∅ ∅.

Definition register_process (slot : string) (root_pid : Z) (r : Registry) : result Registry :=
  if bool_decide (slot = "") || (root_pid =? 0)
  then Throw "Windows broker mapping requires non-empty slot and non-zero root PID"
  else
    let taken := match rg_roots r !! root_pid with Some other => negb (bool_decide (other = slot)) | None => false end in
    if taken then Throw "Windows broker root PID is already assigned to another endpoint"
    else Ok (MkRegistry (<[root_pid := slot]> (rg_roots r)) (<[root_pid := MkOwnership slot None true]> (rg_owners r))).

(** The walk from a process to an owned ancestor: the processes passed, and the slot. *)
Fixpoint ancestor_loop (depth : nat) (parents : gmap Z Z) (r : Registry) (current : Z) (path : list Z) : list Z * option string :=
  match depth with
  | O => (path, None)
  | S depth =>
      if (current =? 0) || bool_decide (current ∈ path) then (path, None)
      else
        let path := path ++ [current] in
        match rg_owners r !! current with
        | Some known => (path, Some (ow_slot known))
        | None =>
            match rg_roots r !! current with
            | Some slot => (path, Some slot)
            | None =>
                match parents !! current with
                | None => (path, None)
                | Some parent => if parent =? current then (path, None) else ancestor_loop depth parents r parent path
                end
            end
        end
  end.

Definition kMaximumDepth : nat := 128.

(** The processes of the path that are no roots become owned. *)
Definition remember (slot : string) (path : list Z) (r : Registry) : Registry :=
  MkRegistry (rg_roots r)
    (fold_left (fun owners member =>
       match rg_roots r !! member with Some _ => owners | None => <[member := MkOwnership slot None false]> owners end) path (rg_owners r)).

(** [parents] is the snapshot of the process table that the call takes. *)
Definition resolve_pid (parents : gmap Z Z) (pid : Z) (r : Registry) : option string * Registry :=
  if pid =? 0 then (None, r)
  else
    match rg_owners r !! pid with
    | Some known => (Some (ow_slot known), r)
    | None =>
        match ancestor_loop kMaximumDepth parents r pid [] with
        | (path, Some slot) => (Some slot, remember slot path r)
        | (_, None) => (None, r)
        end
    end.

Definition u32_pid (pid : option Z) : option Z :=
  match pid with Some pid => if (pid <=? 0) || (2 ^ 32 - 1 <? pid) then None else Some pid | None => None end.

(** Each lookup takes a snapshot of its own: [parents] first, then [parents']. *)
Definition observe_start (parents parents' : gmap Z Z) (event : ProcessExecEvent) (pid : Z) (r : Registry) : option string * Registry :=
  let '(slot, r) := match u32_pid (pe_parent_pid event) with
                    | Some parent => resolve_pid parents parent r
                    | None => (None, r)
                    end in
  let '(slot, r) := match slot with Some slot => (Some slot, r) | None => resolve_pid parents' pid r end in
  match slot with
  | None => (None, r)
  | Some slot =>
      (Some slot, MkRegistry (rg_roots r) (<[pid := MkOwnership slot (pe_platform_process_key event) (has (rg_roots r !! pid))]> (rg_owners r)))
  end.

Definition observe_exit (parents : gmap Z Z) (event : ProcessExecEvent) (pid : Z) (r : Registry) : option string * Registry :=
  let '(slot, r) := match rg_owners r !! pid with Some known => (Some (ow_slot known), r) | None => resolve_pid parents pid r end in
  match slot with
  | None => (None, r)
  | Some slot =>
      match rg_owners r !! pid with
      | Some known =>
          let same_instance := match pe_platform_process_key event, ow_process_key known with
                               | Some a, Some b => a =? b
                               | _, _ => true
                               end in
          (Some slot, if negb (ow_root known) && same_instance then MkRegistry (rg_roots r) (delete pid (rg_owners r)) else r)
      | None => (Some slot, r)
      end
  end.

Definition observe (parents parents' : gmap Z Z) (event : ProcessExecEvent) (r : Registry) : option string * Registry :=
  match u32_pid (pe_pid event) with
  | None => (None, r)
  | Some pid => match pe_type event with Start => observe_start parents parents' event pid r | _ => observe_exit parents event pid r end
  end.

Definition endpoint_owns (parents : gmap Z Z) (slot : string) (pid : Z) (r : Registry) : bool * Registry :=
  let '(resolved, r) := resolve_pid parents pid r in (bool_decide (resolved = Some slot), r).

Definition endpoint_count (r : Registry) : nat := size (rg_roots r).

(** ** The router *)

Record Router := MkRouter { wr_capacity : nat; wr_queues : gmap string (BoundedQueue frame); wr_unroutable : Z }.

Definition new_router (queue_capacity : nat) : result Router :=
  if bool_decide (queue_capacity = 0)%nat then Throw "Windows sensor-broker queue capacity must be positive"
  else Ok (MkRouter queue_capacity ∅ 0).

Definition register_slot (slot : string) (w : Router) : result Router :=
  if bool_decide (slot = "") then Throw "Windows sensor-broker endpoint slot must not be empty"
  else Ok (match wr_queues w !! slot with
           | Some _ => w
           | None => MkRouter (wr_capacity w) (<[slot := new_queue (wr_capacity w)]> (wr_queues w)) (wr_unroutable w)
           end).

Definition has_slot (slot : string) (w : Router) : bool := has (wr_queues w !! slot).

Definition route (slot : string) (bytes : frame) (w : Router) : bool * Router :=
  match wr_queues w !! slot with
  | None => (false, w)
  | Some queue => (true, MkRouter (wr_capacity w) (<[slot := push bytes queue]> (wr_queues w)) (wr_unroutable w))
  end.

Definition take_frame (slot : string) (w : Router) : option frame * Router :=
  match wr_queues w !! slot with
  | None => (None, w)
  | Some queue =>
      let '(bytes, queue) := pop_for queue in
      (bytes, MkRouter (wr_capacity w) (<[slot := queue]> (wr_queues w)) (wr_unroutable w))
  end.

Definition dropped_frames (slot : string) (w : Router) : Z :=
  match wr_queues w !! slot with None => 0 | Some queue => bq_dropped queue end.

Definition note_unroutable (w : Router) : Router := MkRouter (wr_capacity w) (wr_queues w) (wrap_u 64 (wr_unroutable w + 1)).

(** ** The server *)

Record PidMapping := MkPidMapping { pm_slot : string; pm_root_pid : Z }.

Fixpoint rfind_char (n : Z) (s : string) (at_ : nat) : option nat :=
  match s with
  | EmptyString => None
  | String c s' => match rfind_char n s' (S at_) with Some p => Some p | None => if code c =? n then Some at_ else None end
  end.

Definition parse_mapping (value : string) : result PidMapping :=
  match rfind_char 58 value 0 with
  | None => Throw "--map must be SLOT:ROOT_PID"
  | Some separator =>
      if bool_decide (separator = 0)%nat || bool_decide (String.length value <= separator + 1)%nat then Throw "--map must be SLOT:ROOT_PID"
      else
        let slot := substr value 0 separator in
        let invalid := Throw "--map root PID must be an integer in 1..4294967295" in
        match stoull (substr_from value (separator + 1)) with
        | Throw _ => invalid
        | Ok parsed =>
            if (parsed =? 0) || (2 ^ 32 - 1 <? parsed) then invalid
            else if bool_decide (64 <= String.length slot)%nat then Throw "--map slot must contain 1-63 bytes"
            else Ok (MkPidMapping slot parsed)
        end
  end.

Definition lifecycle_pid (event : ConnectionLifecycleEvent) : option Z :=
  u32_pid (match lpi_pid (lpc_kernel (le_process event)) with
           | Some pid => Some pid
           | None => lpi_pid (lpc_agent_visible (le_process event))
           end).

(** The state the server's threads share, and the frames written to the clients of each slot. *)
Record WinBroker := MkWinBroker {
  wb_registry : Registry; wb_router : Router; wb_sequence : Z; wb_sent : list (string * frame) }.

Definition register_mapping (m : PidMapping) (b : Registry * Router) : result (Registry * Router) :=
  let? registry := register_process (pm_slot m) (pm_root_pid m) b.1 in
  let? router := register_slot (pm_slot m) b.2 in
  Ok (registry, router).

Fixpoint register_mappings (ms : list PidMapping) (b : Registry * Router) : result (Registry * Router) :=
  match ms with
  | [] => Ok b
  | m :: ms => let? b := register_mapping m b in register_mappings ms b
  end.

Definition start_server (queue_capacity : nat) (ms : list PidMapping) : result WinBroker :=
  let? _ := throw_if (bool_decide (ms = [])) "Windows sensor-broker requires at least one --map" in
  let? router := new_router queue_capacity in
  let? b := register_mappings ms (empty_registry, router) in
  Ok (MkWinBroker b.1 b.2 1 []).

(** One event of a sensor thread: attributed, given a sequence number, and routed or counted. *)
Definition deliver (slot : option string) (encode : Z -> frame) (b : WinBroker) : WinBroker :=
  match slot with
  | None => MkWinBroker (wb_registry b) (note_unroutable (wb_router b)) (wb_sequence b) (wb_sent b)
  | Some slot =>
      let '(routed, router) := route slot (encode (wb_sequence b)) (wb_router b) in
      MkWinBroker (wb_registry b) (if routed : bool then router else note_unroutable router) (wrap_u 64 (wb_sequence b + 1)) (wb_sent b)
  end.

Definition on_process (parents parents' : gmap Z Z) (event : ProcessExecEvent) (b : WinBroker) : WinBroker :=
  let '(slot, registry) := observe parents parents' event (wb_registry b) in
  deliver slot (encode_process_exec event) (MkWinBroker registry (wb_router b) (wb_sequence b) (wb_sent b)).

Definition on_lifecycle (parents : gmap Z Z) (event : ConnectionLifecycleEvent) (b : WinBroker) : WinBroker :=
  let '(slot, registry) := match lifecycle_pid event with
                           | Some pid => resolve_pid parents pid (wb_registry b)
                           | None => (None, wb_registry b)
                           end in
  deliver slot (encode_lifecycle event) (MkWinBroker registry (wb_router b) (wb_sequence b) (wb_sent b)).

(** A client connects: the slot it is served, if its registration and its process pass the checks. *)
Definition admit_client (parents : gmap Z Z) (registration : list byte) (client_pid : Z) (b : WinBroker) : option string * WinBroker :=
  match decode_registration registration with
  | None => (None, b)
  | Some slot =>
      if negb (has_slot slot (wb_router b)) || (client_pid =? 0) then (None, b)
      else
        let '(owns, registry) := endpoint_owns parents slot client_pid (wb_registry b) in
        (if owns then Some slot else None, MkWinBroker registry (wb_router b) (wb_sequence b) (wb_sent b))
  end.

(** A served client takes the next frame of its slot. *)
Definition serve_client (slot : string) (b : WinBroker) : WinBroker :=
  let '(bytes, router) := take_frame slot (wb_router b) in
  MkWinBroker (wb_registry b) router (wb_sequence b)
    (match bytes with Some bytes => wb_sent b ++ [(slot, bytes)] | None => wb_sent b end).

(** ** Round trips *)

#[global] Instance windows_lifecycle_codec_laws : CodecLaws lifecycle_codec.
Proof. apply struct_codec_laws; [by intros []|apply _]. Qed.
#[global] Instance windows_process_codec_laws : CodecLaws process_codec.
Proof. apply struct_codec_laws; [by intros []|apply _]. Qed.

Lemma decode_payload_make_frame {P} (codec : Codec P) type sequence payload :
  CodecLaws codec -> c_ok codec payload -> in_u 64 sequence -> Z.of_nat (c_size codec) <= kMaximumFrameSize ->
  decode_payload codec (make_frame codec type sequence payload) type = Some payload.
Proof.
  intros L Hp Hs Hsize. unfold decode_payload, decode_header, make_frame. set (h := MkFrameHeader _ _ _ _ _ _).
  assert (Hh : c_ok frame_header_codec h).
  { unfold kMaximumFrameSize, in_u in *. repeat split; simpl; unfold kMagic, kVersion; try (destruct type; simpl); lia. }
  rewrite length_app, (put_length h Hh), (put_length payload Hp), (get_put h _ Hh).
  rewrite bool_decide_eq_false_2 by lia. cbn [fh_magic fh_version fh_payload_size fh_type h].
  rewrite !Z.eqb_refl. cbn [negb orb]. rewrite (proj2 (Z.ltb_ge _ _)) by lia.
  rewrite (proj2 (Z.eqb_eq (Z.of_nat (_ + _)) _)) by lia. cbn [negb orb]. rewrite !Z.eqb_refl. cbn [negb orb].
  rewrite drop_app_length' by (by rewrite (put_length h Hh)). f_equal.
  rewrite <- (app_nil_r (c_put codec payload)). by apply get_put.
Qed.

(** The members of a Windows event are in the range of their types. *)
Definition windows_lifecycle_wf (e : ConnectionLifecycleEvent) : Prop :=
  match le_type e with EventTypeRaw _ => False | _ => True end /\
  match le_provenance e with ProvenanceRaw n => raw_ok 3 n | _ => True end /\
  match le_address_family e with FamilyRaw n => raw_ok 3 n | _ => True end /\
  match le_protocol e with ProtocolRaw n => raw_ok 2 n | _ => True end /\
  match le_endpoint_kind e with EndpointRaw n => raw_ok 4 n | _ => True end /\
  in_u 64 (le_timestamp_ns e) /\
  opt_all (fun ids => in_s 64 ids.1 /\ in_s 64 ids.2) (ids_of (lpc_agent_visible (le_process e))) /\
  opt_all (fun ids => in_s 64 ids.1 /\ in_s 64 ids.2) (ids_of (lpc_kernel (le_process e))) /\
  opt_all (in_u 32) (lpc_uid (le_process e)) /\ opt_all (in_u 64) (lpc_start_ticks (le_process e)) /\
  opt_all (in_u 64) (le_platform_connection_id e) /\ opt_all (in_u 8) (le_tcp_state e) /\
  opt_all (in_u 16) (endpoint_port (le_local e)) /\ opt_all (in_u 16) (endpoint_port (le_remote e)).

(** What the frame keeps: a process group defaults to the process, texts are cut to their fields,
    and members that only Linux has are lost. *)
Definition windows_ids_image (ids : LifecycleProcessIds) : LifecycleProcessIds :=
  MkLifecycleProcessIds (fst <$> ids_of ids) (snd <$> ids_of ids).

Definition windows_lifecycle_image (e : ConnectionLifecycleEvent) : ConnectionLifecycleEvent :=
  let p := le_process e in
  {| le_type := le_type e; le_timestamp_ns := le_timestamp_ns e; le_provenance := le_provenance e;
     le_process := {| lpc_agent_visible := windows_ids_image (lpc_agent_visible p); lpc_kernel := windows_ids_image (lpc_kernel p);
                      lpc_agent_pid_namespace := None; lpc_uid := lpc_uid p; lpc_start_ticks := lpc_start_ticks p;
                      lpc_comm := comm_image (lpc_comm p) |};
     le_network_namespace_inode := None; le_address_family := le_address_family e; le_protocol := le_protocol e;
     le_endpoint_kind := le_endpoint_kind e; le_local := endpoint_image <$> le_local e; le_remote := endpoint_image <$> le_remote e;
     le_socket_cookie := None; le_platform_connection_id := le_platform_connection_id e; le_tcp_state := le_tcp_state e |}.

(** Reading one flag of a mask. *)
Ltac solve_windows_flag :=
  cbv zeta delta [LifecycleAgentPid LifecycleKernelPid LifecycleUid LifecycleStartTicks LifecycleLocal LifecycleLocalPort
    LifecycleRemote LifecycleRemotePort LifecyclePlatformConnectionId LifecycleTcpState
    ProcessPid ProcessParentPid ProcessUid ProcessGid ProcessStart ProcessKey ProcessParentStart ProcessParentKey
    ProcessSession ProcessElevated ProcessExitCode];
  repeat (rewrite test_set_flag by (compute; discriminate); cbn [Z.eqb Pos.eqb]); by rewrite test_flag_0, ?orb_false_r.

Lemma windows_lifecycle_flags_spec e :
  let p := le_process e in let flag := test_flag (lifecycle_flags e) in
  flag LifecycleAgentPid = has (ids_of (lpc_agent_visible p)) /\ flag LifecycleKernelPid = has (ids_of (lpc_kernel p)) /\
  flag LifecycleUid = has (lpc_uid p) /\ flag LifecycleStartTicks = has (lpc_start_ticks p) /\
  flag LifecycleLocal = has (le_local e) /\ flag LifecycleLocalPort = has (endpoint_port (le_local e)) /\
  flag LifecycleRemote = has (le_remote e) /\ flag LifecycleRemotePort = has (endpoint_port (le_remote e)) /\
  flag LifecyclePlatformConnectionId = has (le_platform_connection_id e) /\ flag LifecycleTcpState = has (le_tcp_state e).
Proof. cbv zeta. unfold lifecycle_flags. split_and!; solve_windows_flag. Qed.

Lemma windows_lifecycle_payload_ok e : windows_lifecycle_wf e -> c_ok lifecycle_codec (lifecycle_payload e).
Proof.
  intros (Ht & Hp & Hf & Hpr & Hk & Hts & Ha & Hke & Hu & Hst & Hpc & Htcp & Hlo & Hre).
  assert (Hfl : in_u 32 (lifecycle_flags e)) by (unfold lifecycle_flags; repeat apply set_flag_in_u32; unfold in_u; lia).
  assert (Hty : in_u 8 (lifecycle_type_code (le_type e))) by (destruct (le_type e); unfold in_u; simpl; lia).
  cbn [c_ok lifecycle_codec struct_codec pair_codec uint_codec sint_codec chars_codec fst snd lifecycle_payload lp_flags lp_event_type
       lp_provenance lp_address_family lp_protocol lp_endpoint_kind lp_tcp_state lp_reserved lp_timestamp_ns lp_agent_pid
       lp_agent_tgid lp_kernel_pid lp_kernel_tgid lp_uid lp_reserved2 lp_start_ticks lp_platform_connection_id lp_local_port
       lp_remote_port lp_comm lp_local_address lp_remote_address].
  split_and!; solve_member.
Qed.

Lemma windows_lifecycle_back sequence e :
  in_u 64 sequence -> windows_lifecycle_wf e -> decode_lifecycle (encode_lifecycle e sequence) = Some (windows_lifecycle_image e).
Proof.
  intros Hs Hwf. unfold decode_lifecycle, encode_lifecycle.
  rewrite decode_payload_make_frame by (apply _ || by apply windows_lifecycle_payload_ok || done).
  destruct (windows_lifecycle_flags_spec e) as (F1 & F2 & F3 & F4 & F5 & F6 & F7 & F8 & F9 & F10).
  destruct Hwf as (Ht & Hp & Hf & Hpr & Hk & _). cbn [lp_event_type lifecycle_payload].
  assert (Hty : lifecycle_type_of (lifecycle_type_code (le_type e)) = Some (le_type e)) by (by destruct (le_type e)). rewrite Hty.
  unfold windows_lifecycle_image, windows_ids_image. f_equal. cbn -[lifecycle_flags].
  rewrite F1, F2, F3, F4, F5, F6, F7, F8, F9, F10.
  rewrite (proj2 (provenance_wire _ Hp)), (proj2 (family_wire _ Hf)), (proj2 (protocol_wire _ Hpr)), (proj2 (endpoint_kind_wire _ Hk)).
  rewrite !when_has, !when_fst, !when_snd, read_copy_text by (compute; lia). unfold comm_image, value_or.
  f_equal; repeat match goal with
       | |- context [le_local ?i] => destruct (le_local i) as [[? [?|]]|]
       | |- context [le_remote ?i] => destruct (le_remote i) as [[? [?|]]|]
       end; try done.
  all: simpl; unfold endpoint_image; simpl; by rewrite read_copy_text by (compute; lia).
Qed.

Definition windows_process_wf (e : ProcessExecEvent) : Prop :=
  in_u 64 (pe_timestamp_ns e) /\ opt_all (in_s 64) (pe_pid e) /\ opt_all (in_s 64) (pe_tgid e) /\
  opt_all (in_s 64) (pe_parent_pid e) /\ opt_all (in_s 64) (pe_parent_tgid e) /\
  opt_all (in_u 32) (pe_uid e) /\ opt_all (in_u 32) (pe_gid e) /\ opt_all (in_u 64) (pe_process_start_time_ns e) /\
  opt_all (in_u 64) (pe_platform_process_key e) /\ opt_all (in_u 64) (pe_parent_process_start_time_ns e) /\
  opt_all (in_u 64) (pe_parent_platform_process_key e) /\ opt_all (in_u 32) (pe_session_id e) /\ opt_all (in_s 32) (pe_exit_code e).

(** The group of a process that is given, by default the process. *)
Definition group_image (pid tgid : option Z) : option Z := (fun p => value_or tgid p) <$> pid.

Definition windows_process_image (e : ProcessExecEvent) : ProcessExecEvent :=
  {| pe_type := match pe_type e with Start => Start | _ => Exit end; pe_timestamp_ns := pe_timestamp_ns e;
     pe_pid := pe_pid e; pe_tgid := group_image (pe_pid e) (pe_tgid e);
     pe_parent_pid := pe_parent_pid e; pe_parent_tgid := group_image (pe_parent_pid e) (pe_parent_tgid e);
     pe_uid := pe_uid e; pe_gid := pe_gid e; pe_process_start_time_ns := pe_process_start_time_ns e;
     pe_platform_process_key := pe_platform_process_key e; pe_parent_process_start_time_ns := pe_parent_process_start_time_ns e;
     pe_parent_platform_process_key := pe_parent_platform_process_key e; pe_session_id := pe_session_id e;
     pe_user_identity := text_image kIdentityLength (pe_user_identity e); pe_integrity_level := text_image kIntegrityLength (pe_integrity_level e);
     pe_elevated := pe_elevated e; pe_exit_code := pe_exit_code e; pe_cgroup_id := None;
     pe_comm := text_image kCommLength (pe_comm e); pe_executable_path := text_image kPathLength (pe_executable_path e);
     pe_command_line := text_image kCommandLineLength (pe_command_line e);
     pe_working_directory := text_image kWorkingDirectoryLength (pe_working_directory e) |}.

Lemma windows_process_flags_spec e :
  let flag := test_flag (process_flags e) in
  flag ProcessPid = has (pe_pid e) /\ flag ProcessParentPid = has (pe_parent_pid e) /\ flag ProcessUid = has (pe_uid e) /\
  flag ProcessGid = has (pe_gid e) /\ flag ProcessStart = has (pe_process_start_time_ns e) /\
  flag ProcessKey = has (pe_platform_process_key e) /\ flag ProcessParentStart = has (pe_parent_process_start_time_ns e) /\
  flag ProcessParentKey = has (pe_parent_platform_process_key e) /\ flag ProcessSession = has (pe_session_id e) /\
  flag ProcessElevated = has (pe_elevated e) /\ flag ProcessExitCode = has (pe_exit_code e).
Proof. cbv zeta. unfold process_flags. split_and!; solve_windows_flag. Qed.

Lemma group_in_s (pid tgid : option Z) d :
  in_s 64 d -> opt_all (in_s 64) pid -> opt_all (in_s 64) tgid -> in_s 64 (if has pid then value_or tgid (value_or pid 0) else d).
Proof. by destruct pid, tgid. Qed.

Lemma windows_process_payload_ok e : windows_process_wf e -> c_ok process_codec (process_payload e).
Proof.
  intros (Hts & H1 & H2 & H3 & H4 & Hu & Hg & Hst & Hk & Hps & Hpk & Hse & Hex).
  assert (He : in_u 8 (if value_or (pe_elevated e) false then 1 else 0)) by (destruct (value_or _ _); unfold in_u; lia).
  assert (Hty : in_u 8 (match pe_type e with Start => 1 | _ => 2 end)) by (destruct (pe_type e); unfold in_u; lia).
  assert (Hfl : in_u 32 (process_flags e)) by (unfold process_flags; repeat apply set_flag_in_u32; unfold in_u; lia).
  assert (H0 : in_s 64 0) by (unfold in_s; lia).
  pose proof (group_in_s (pe_pid e) (pe_tgid e) 0 H0 H1 H2). pose proof (group_in_s (pe_parent_pid e) (pe_parent_tgid e) 0 H0 H3 H4).
  cbn [c_ok process_codec struct_codec pair_codec uint_codec sint_codec chars_codec fst snd process_payload pp_flags pp_event_type
       pp_elevated pp_reserved pp_timestamp_ns pp_pid pp_tgid pp_parent_pid pp_parent_tgid pp_uid pp_gid pp_process_start_time_ns
       pp_platform_process_key pp_parent_process_start_time_ns pp_parent_platform_process_key pp_session_id pp_exit_code pp_comm
       pp_executable_path pp_command_line pp_working_directory pp_user_identity pp_integrity_level].
  split_and!; solve_member.
Qed.

Lemma windows_process_back sequence e :
  in_u 64 sequence -> windows_process_wf e -> decode_process_exec (encode_process_exec e sequence) = Some (windows_process_image e).
Proof.
  intros Hs Hwf. unfold decode_process_exec, encode_process_exec.
  rewrite decode_payload_make_frame by (apply _ || by apply windows_process_payload_ok || done).
  destruct (windows_process_flags_spec e) as (F1 & F2 & F3 & F4 & F5 & F6 & F7 & F8 & F9 & F10 & F11).
  cbn [pp_event_type process_payload]. assert (Hty : forall t, negb ((match t with Start => 1 | _ => 2 end) =? 1) && negb ((match t with Start => 1 | _ => 2 end) =? 2) = false) by (by intros []).
  rewrite Hty. unfold windows_process_image, group_image. f_equal. cbn -[process_flags].
  rewrite F1, F2, F3, F4, F5, F6, F7, F8, F9, F10, F11.
  rewrite !when_has, when_bool, !read_copy_text by (compute; lia).
  f_equal; [by destruct (pe_type e)|by destruct (pe_pid e)|by destruct (pe_parent_pid e)].
Qed.

(** Windows frames round-trip: a lifecycle or process event with members in range is decoded to
    its image (process groups default to the process, texts are cut to their fields, members that
    only Linux has are lost), and a slot of 1 to 63 bytes without NUL is registered as sent. *)
Theorem windows_frames_round_trip sequence :
  in_u 64 sequence ->
  (forall e, windows_lifecycle_wf e -> decode_lifecycle (encode_lifecycle e sequence) = Some (windows_lifecycle_image e)) /\
  (forall e, windows_process_wf e -> decode_process_exec (encode_process_exec e sequence) = Some (windows_process_image e)) /\
  (forall slot, fits kSlotLength slot -> slot <> "" ->
     exists bytes, encode_registration slot = Ok bytes /\ decode_registration bytes = Some slot).
Proof.
  intros Hs. split; [|split].
  - intros e. by apply windows_lifecycle_back.
  - intros e. by apply windows_process_back.
  - intros slot Hfit Hne. unfold encode_registration. rewrite !bool_decide_eq_false_2 by (done || (destruct Hfit; lia)).
    eexists. split; [done|]. unfold decode_registration. rewrite decode_payload_make_frame; [|apply _| |unfold in_u; lia|done].
    + cbn -[read_text copy_text]. rewrite read_copy_text, text_image_fits by (done || compute; lia). by rewrite bool_decide_eq_false_2.
    + cbn [c_ok registration_codec struct_codec pair_codec uint_codec chars_codec fst snd rp_event_kind rp_reserved rp_endpoint_slot].
      split_and!; [unfold in_u, kEventKindAll; simpl; lia|unfold in_u; simpl; lia|]. apply length_copy_text. compute. lia.
Qed.

Lemma windows_frames_round_trip_witness :
  (exists bytes, encode_registration "slot-7" = Ok bytes /\ decode_registration bytes = Some "slot-7") /\
  decode_process_exec (encode_process_exec sample_exec 3) = Some (windows_process_image sample_exec).
Proof.
  destruct (windows_frames_round_trip 3) as (_ & H2 & H3); [unfold in_u; lia|]. split.
  - apply H3; [|discriminate]. split; [compute; lia|]. repeat (constructor; [discriminate|]). constructor.
  - apply H2. unfold windows_process_wf, opt_all, in_u, in_s; simpl; lia.
Defined.

(** ** Attribution *)

Section attribution.
(** [link child parent]: some report names [parent] as the parent of [child]; [rooted slot pid]: the
    process was registered for the slot. *)
Context (link : Z -> Z -> Prop) (rooted : string -> Z -> Prop).

Inductive descends (slot : string) : Z -> Prop :=
| descends_root pid : rooted slot pid -> descends slot pid
| descends_child pid parent : link pid parent -> descends slot parent -> descends slot pid.

Definition registry_inv (r : Registry) : Prop :=
  (forall pid slot, rg_roots r !! pid = Some slot -> rooted slot pid) /\
  (forall pid o, rg_owners r !! pid = Some o -> descends (ow_slot o) pid).

Definition reported (parents : gmap Z Z) : Prop := forall child parent, parents !! child = Some parent -> link child parent.

Lemma ancestor_loop_spec depth parents r current path path' slot :
  reported parents -> registry_inv r -> (forall s m, m ∈ path -> descends s current -> descends s m) ->
  ancestor_loop depth parents r current path = (path', Some slot) ->
  current ∈ path' /\ (forall m, m ∈ path -> m ∈ path') /\ (forall m, m ∈ path' -> descends slot m).
Proof.
  intros Hp [Hr Ho]. revert current path. induction depth as [|depth IH]; intros current path Hpath E; [done|]. cbn in E.
  destruct ((current =? 0) || bool_decide (current ∈ path)); [done|].
  assert (Hfound : forall s, descends s current -> (path ++ [current], Some s) = (path', Some slot) ->
    current ∈ path' /\ (forall m, m ∈ path -> m ∈ path') /\ (forall m, m ∈ path' -> descends slot m)).
  { intros s Hs [= <- ->]. split; [set_solver|]. split; [set_solver|].
    intros m [Hm| ->%list_elem_of_singleton]%elem_of_app; [by apply (Hpath slot)|done]. }
  destruct (rg_owners r !! current) as [o|] eqn:Eo; [by apply (Hfound _ (Ho _ _ Eo))|].
  destruct (rg_roots r !! current) as [s|] eqn:Er; [by apply (Hfound s (descends_root s current (Hr _ _ Er)))|].
  destruct (parents !! current) as [parent|] eqn:Ep; [|done]. destruct (parent =? current); [done|].
  apply IH in E as (H1 & H2 & H3).
  - split; [apply H2; set_solver|]. split; [|done]. intros m Hm. apply H2. set_solver.
  - intros s m Hm Hd. assert (Hc : descends s current) by (by eapply descends_child; [apply Hp|]).
    apply elem_of_app in Hm as [Hm| ->%list_elem_of_singleton]; [by apply (Hpath s)|done].
Qed.

Lemma remember_inv slot path r :
  registry_inv r -> (forall m, m ∈ path -> descends slot m) -> registry_inv (remember slot path r).
Proof.
  intros [Hr Ho] Hpath. split; [done|]. unfold remember. cbn [rg_owners].
  assert (Hfold : forall owners : gmap Z Ownership, (forall pid o, owners !! pid = Some o -> descends (ow_slot o) pid) -> forall pid o,
    fold_left (fun owners member => match rg_roots r !! member with Some _ => owners | None => <[member := MkOwnership slot None false]> owners end) path owners !! pid = Some o ->
    descends (ow_slot o) pid); [|by apply Hfold].
  clear Ho. induction path as [|m path IH]; intros owners Ho; cbn; [apply Ho|].
  apply IH; [intros x Hx; apply Hpath; set_solver|]. destruct (rg_roots r !! m); [done|].
  intros pid o. rewrite lookup_insert. case_decide; [|apply Ho]. intros [= <-]. subst pid. apply Hpath. set_solver.
Qed.

Lemma resolve_spec parents pid r slot r' :
  reported parents -> registry_inv r -> resolve_pid parents pid r = (slot, r') ->
  registry_inv r' /\ (forall s, slot = Some s -> descends s pid).
Proof.
  intros Hp Hinv. unfold resolve_pid. destruct (pid =? 0); [intros [= <- <-]; split; [done|by intros]|].
  destruct (rg_owners r !! pid) as [o|] eqn:Eo.
  { intros [= <- <-]. split; [done|]. intros s [= <-]. by apply Hinv. }
  destruct (ancestor_loop _ _ _ _ _) as [path [s|]] eqn:El; intros [= <- <-]; [|split; [done|by intros]].
  apply ancestor_loop_spec in El as (H1 & _ & H3); [|done|done|by intros ? ? ?%not_elem_of_nil].
  split; [by apply remember_inv|]. intros ? [= <-]. by apply H3.
Qed.

Lemma observe_start_spec parents parents' event pid r slot r' :
  reported parents -> reported parents' -> registry_inv r ->
  (forall parent, u32_pid (pe_parent_pid event) = Some parent -> link pid parent) ->
  observe_start parents parents' event pid r = (slot, r') -> registry_inv r' /\ (forall s, slot = Some s -> descends s pid).
Proof.
  intros Hp Hp' Hinv Hlink. unfold observe_start. destruct (match u32_pid (pe_parent_pid event) with Some _ => _ | None => _ end) as [s1 r1] eqn:E1.
  assert (H1 : registry_inv r1 /\ (forall s, s1 = Some s -> descends s pid)).
  { destruct (u32_pid (pe_parent_pid event)) as [parent|] eqn:Epp; [|injection E1 as <- <-; by split].
    apply resolve_spec in E1 as [H1 H2]; [|done|done]. split; [done|]. intros s Hs. eapply descends_child; [by apply Hlink|by apply H2]. }
  destruct H1 as [H1 H2]. destruct (match s1 with Some _ => _ | None => _ end) as [s2 r2] eqn:E2.
  assert (H3 : registry_inv r2 /\ (forall s, s2 = Some s -> descends s pid)).
  { destruct s1 as [s|]; [injection E2 as <- <-; split; [done|by intros ? [= <-]; apply H2]|]. by apply resolve_spec in E2. }
  destruct H3 as [[Hr Ho] H4]. destruct s2 as [s|]; intros [= <- <-]; [|by split].
  split; [|intros ? [= <-]; by apply H4]. split; [done|]. intros p o. cbn. rewrite lookup_insert.
  case_decide; [|apply Ho]. intros [= <-]. subst p. by apply H4.
Qed.

Lemma observe_exit_spec parents event pid r slot r' :
  reported parents -> registry_inv r -> observe_exit parents event pid r = (slot, r') ->
  registry_inv r' /\ (forall s, slot = Some s -> descends s pid).
Proof.
  intros Hp Hinv. unfold observe_exit. destruct (match rg_owners r !! pid with Some _ => _ | None => _ end) as [s1 r1] eqn:E1.
  assert (H1 : registry_inv r1 /\ (forall s, s1 = Some s -> descends s pid)).
  { destruct (rg_owners r !! pid) as [o|] eqn:Eo; [|by apply resolve_spec in E1].
    injection E1 as <- <-. split; [done|]. intros s [= <-]. by apply Hinv. }
  destruct H1 as [H1 H2]. destruct s1 as [s|]; [|intros [= <- <-]; by split].
  destruct (rg_owners r1 !! pid) as [known|]; intros [= <- <-]; (split; [|by intros ? [= <-]; apply H2]); [|done].
  destruct (_ && _); [|done]. destruct H1 as [Hr Ho]. split; [done|]. cbn. intros p o [_ Ho']%lookup_delete_Some. by apply Ho.
Qed.

Lemma observe_spec parents parents' event r slot r' :
  reported parents -> reported parents' -> registry_inv r ->
  (forall pid parent, pe_type event = Start -> u32_pid (pe_pid event) = Some pid -> u32_pid (pe_parent_pid event) = Some parent -> link pid parent) ->
  observe parents parents' event r = (slot, r') ->
  registry_inv r' /\ (forall s, slot = Some s -> exists pid, u32_pid (pe_pid event) = Some pid /\ descends s pid).
Proof.
  intros Hp Hp' Hinv Hlink. unfold observe. destruct (u32_pid (pe_pid event)) as [pid|] eqn:Epid; [|intros [= <- <-]; by split].
  intros E. cut (registry_inv r' /\ (forall s, slot = Some s -> descends s pid)).
  { intros [H1 H2]. split; [done|]. intros s Hs. exists pid. by split; [|apply H2]. }
  destruct (pe_type event) eqn:Et; [eapply observe_start_spec; [exact Hp|exact Hp'|done|by eauto|exact E]|by apply observe_exit_spec in E..].
Qed.

(** *** The running server *)

(** The process an event is about. *)
Definition about (bytes : frame) (pid : Z) : Prop :=
  (exists event n, bytes = encode_lifecycle event n /\ lifecycle_pid event = Some pid) \/
  (exists event n, bytes = encode_process_exec event n /\ u32_pid (pe_pid event) = Some pid).

Definition belongs_to (slot : string) (bytes : frame) : Prop := exists pid, about bytes pid /\ descends slot pid.

Definition router_belongs (w : Router) : Prop :=
  forall slot q bytes, wr_queues w !! slot = Some q -> bytes ∈ bq_queue q -> belongs_to slot bytes.

Definition server_inv (b : WinBroker) : Prop :=
  registry_inv (wb_registry b) /\ router_belongs (wb_router b) /\
  forall slot bytes, (slot, bytes) ∈ wb_sent b -> belongs_to slot bytes.

Lemma deliver_inv slot encode b :
  server_inv b -> (forall s n, slot = Some s -> belongs_to s (encode n)) -> server_inv (deliver slot encode b).
Proof.
  intros (Hr & Hq & Hs) Hb. unfold deliver. destruct slot as [slot|]; [|by split_and!].
  unfold route. destruct (wr_queues (wb_router b) !! slot) as [q|] eqn:Eq; [|by split_and!].
  split; [done|]. split; [|done]. intros s q' bytes. cbn. rewrite lookup_insert. case_decide; [|apply Hq].
  intros [= <-] Hin. subst s. apply push_elem in Hin as [->|Hin]; [by apply Hb|by eapply Hq].
Qed.

Lemma serve_inv slot b : server_inv b -> server_inv (serve_client slot b).
Proof.
  intros (Hr & Hq & Hs). unfold serve_client, take_frame. destruct (wr_queues (wb_router b) !! slot) as [q|] eqn:Eq; [|by split_and!].
  unfold pop_for. destruct (bq_queue q) as [|bytes rest] eqn:El.
  - split; [done|]. split; [|done]. intros s q' x. cbn. rewrite lookup_insert. case_decide; [|apply Hq]. intros [= <-]. subst s. by apply Hq.
  - assert (Hin : forall x, x ∈ bytes :: rest -> belongs_to slot x) by (intros x Hx; eapply Hq; [exact Eq|by rewrite El]).
    split; [done|]. split; cbn.
    + intros s q' x. cbn. rewrite lookup_insert. case_decide; [|apply Hq]. intros [= <-] Hx. subst s. apply Hin. by right.
    + intros s x [Hx|[= -> ->]%list_elem_of_singleton]%elem_of_app; [by apply Hs|]. apply Hin. by left.
Qed.

Lemma on_process_inv parents parents' event b :
  reported parents -> reported parents' ->
  (forall pid parent, pe_type event = Start -> u32_pid (pe_pid event) = Some pid -> u32_pid (pe_parent_pid event) = Some parent -> link pid parent) ->
  server_inv b -> server_inv (on_process parents parents' event b).
Proof.
  intros Hp Hp' Hl (Hr & Hq & Hs). unfold on_process. destruct (observe parents parents' event (wb_registry b)) as [slot r'] eqn:E.
  apply observe_spec in E as [H1 H2]; [|done..]. apply deliver_inv; [by split_and!|]. intros s n Hs'.
  destruct (H2 s Hs') as (pid & Hpid & Hd). exists pid. split; [|done]. right. by exists event, n.
Qed.

Lemma on_lifecycle_inv parents event b : reported parents -> server_inv b -> server_inv (on_lifecycle parents event b).
Proof.
  intros Hp (Hr & Hq & Hs). unfold on_lifecycle. destruct (lifecycle_pid event) as [pid|] eqn:Epid.
  - destruct (resolve_pid parents pid (wb_registry b)) as [slot r'] eqn:E. apply resolve_spec in E as [H1 H2]; [|done..].
    apply deliver_inv; [by split_and!|]. intros s n Hs'. exists pid. split; [left; by exists event, n|by apply H2].
  - apply deliver_inv; [by split_and!|by intros].
Qed.

Lemma admit_inv parents registration pid b slot b' :
  reported parents -> server_inv b -> admit_client parents registration pid b = (slot, b') ->
  server_inv b' /\ (forall s, slot = Some s -> descends s pid).
Proof.
  intros Hp (Hr & Hq & Hs). unfold admit_client. destruct (decode_registration registration) as [name|]; [|intros [= <- <-]; by split_and!].
  destruct (_ || _); [intros [= <- <-]; by split_and!|]. unfold endpoint_owns.
  destruct (resolve_pid parents pid (wb_registry b)) as [resolved r'] eqn:E. apply resolve_spec in E as [H1 H2]; [|done..].
  intros [= <- <-]. split; [by split_and!|]. intros s Hx. case_bool_decide as Hn; [|done]. injection Hx as ->. by apply H2.
Qed.

End attribution.

(** What happens to the server, each with the process table at that moment. *)
Inductive WinOp :=
| WinProcess (parents parents' : gmap Z Z) (event : ProcessExecEvent)
| WinLifecycle (parents : gmap Z Z) (event : ConnectionLifecycleEvent)
| WinAdmit (parents : gmap Z Z) (registration : list byte) (client_pid : Z)
| WinServe (slot : string).

Definition win_step (b : WinBroker) (op : WinOp) : WinBroker :=
  match op with
  | WinProcess parents parents' event => on_process parents parents' event b
  | WinLifecycle parents event => on_lifecycle parents event b
  | WinAdmit parents registration pid => snd (admit_client parents registration pid b)
  | WinServe slot => serve_client slot b
  end.

Definition win_run (ops : list WinOp) (b : WinBroker) : WinBroker := fold_left win_step ops b.

(** One of the operations reports [parent] as the parent of [child]. *)
Definition reports (op : WinOp) (child parent : Z) : Prop :=
  match op with
  | WinProcess parents parents' event =>
      parents !! child = Some parent \/ parents' !! child = Some parent \/
      pe_type event = Start /\ u32_pid (pe_pid event) = Some child /\ u32_pid (pe_parent_pid event) = Some parent
  | WinLifecycle parents _ | WinAdmit parents _ _ => parents !! child = Some parent
  | WinServe _ => False
  end.

Definition reported_by (ops : list WinOp) (child parent : Z) : Prop := exists op, op ∈ ops /\ reports op child parent.
Definition mapped (ms : list PidMapping) (slot : string) (pid : Z) : Prop := MkPidMapping slot pid ∈ ms.

Lemma win_run_inv link rooted ops b :
  (forall op child parent, op ∈ ops -> reports op child parent -> link child parent) ->
  server_inv link rooted b -> server_inv link rooted (win_run ops b).
Proof.
  unfold win_run. revert b. induction ops as [|op ops IH]; intros b Hl Hinv; [done|]. cbn. apply IH; [intros o c p Ho; apply Hl; by right|].
  assert (Hop : forall c p, reports op c p -> link c p) by (intros c p; apply Hl; by left).
  destruct op as [parents parents' event|parents event|parents registration pid|slot]; cbn.
  - apply on_process_inv; [intros c p E; apply Hop; by left|intros c p E; apply Hop; by right; left|intros pid parent Ht H1 H2; apply Hop; by right; right|done].
  - apply on_lifecycle_inv; [intros c p E; by apply Hop|done].
  - destruct (admit_client parents registration pid b) as [slot b'] eqn:E. by apply admit_inv with (link := link) (rooted := rooted) in E as [? _].
  - by apply serve_inv.
Qed.

Lemma register_mappings_inv link rooted ms b b' :
  (forall m, m ∈ ms -> rooted (pm_slot m) (pm_root_pid m)) ->
  registry_inv link rooted b.1 -> router_belongs link rooted b.2 -> register_mappings ms b = Ok b' ->
  registry_inv link rooted b'.1 /\ router_belongs link rooted b'.2.
Proof.
  revert b. induction ms as [|m ms IH]; intros b Hm Hr Hq E; [by injection E as <-|]. cbn in E.
  apply rbind_ok in E as (b1 & E1 & E). unfold register_mapping in E1. apply rbind_ok in E1 as (registry & Ereg & E1).
  apply rbind_ok in E1 as (router & Erou & E1). injection E1 as <-. apply (IH (registry, router)); [intros x Hx; apply Hm; by right| | |done]; cbn.
  - unfold register_process in Ereg. destruct (_ || _); [done|]. destruct (match rg_roots b.1 !! _ with Some _ => _ | None => _ end); [done|].
    injection Ereg as <-. assert (Hroot : rooted (pm_slot m) (pm_root_pid m)) by (apply Hm; by left). destruct Hr as [Hr Ho].
    split; cbn; intros pid x; rewrite lookup_insert; (case_decide; [intros [= <-]; subst pid|by auto]); [done|by apply descends_root].
  - unfold register_slot in Erou. destruct (bool_decide _); [done|]. injection Erou as <-.
    destruct (wr_queues b.2 !! pm_slot m) as [q|]; [done|]. intros s q bytes. cbn. rewrite lookup_insert.
    case_decide; [|apply Hq]. intros [= <-] Hin. by apply not_elem_of_nil in Hin.
Qed.

Lemma start_server_inv link capacity ms b :
  start_server capacity ms = Ok b -> server_inv link (mapped ms) b.
Proof.
  unfold start_server. intros E. apply rbind_ok in E as (_ & _ & E). apply rbind_ok in E as (router & Er & E).
  apply rbind_ok in E as (b' & Eb & E). injection E as <-. unfold new_router in Er. destruct (bool_decide _); [done|]. injection Er as <-.
  eapply (register_mappings_inv link (mapped ms) ms _ b') in Eb as [H1 H2].
  - split; [done|]. split; [done|]. intros s x Hx. by apply not_elem_of_nil in Hx.
  - intros [slot pid]. done.
  - by split; intros pid x; cbn; rewrite lookup_empty.
  - intros s q bytes. cbn. by rewrite lookup_empty.
Qed.

(** C8: Endpoint isolation of the Windows broker: over every sequence of process events, connection
    events, connecting clients and deliveries, every frame sent to a client of a slot is about a
    process with a chain of reported parents to a root process mapped to that slot on the command
    line, and a client is admitted for a slot only if its process has such a chain. *)
Theorem windows_isolation capacity ms ops b0 :
  start_server capacity ms = Ok b0 ->
  (forall slot bytes, (slot, bytes) ∈ wb_sent (win_run ops b0) ->
     exists pid, about bytes pid /\ descends (reported_by ops) (mapped ms) slot pid) /\
  (forall parents registration pid slot b', admit_client parents registration pid (win_run ops b0) = (Some slot, b') ->
     descends (reported_by (ops ++ [WinAdmit parents registration pid])) (mapped ms) slot pid).
Proof.
  intros Hstart. split.
  - intros slot bytes Hin. pose proof (start_server_inv (reported_by ops) _ _ _ Hstart) as H0.
    apply (win_run_inv _ _ ops) in H0 as (_ & _ & Hs); [by apply Hs|]. intros op c p Hop Hr. by exists op.
  - intros parents registration pid slot b' E. set (link := reported_by (ops ++ [WinAdmit parents registration pid])).
    pose proof (start_server_inv link _ _ _ Hstart) as H0.
    apply (win_run_inv _ _ ops) in H0; [|intros op c p Hop Hr; exists op; split; [set_solver|done]].
    eapply admit_inv in E as [_ Hd]; [by apply Hd| |exact H0].
    intros c p Hcp. exists (WinAdmit parents registration pid). split; [set_solver|done].
Qed.

(** ** Reused process numbers *)

Lemma resolve_none parents pid r r' : resolve_pid parents pid r = (None, r') -> r' = r.
Proof.
  unfold resolve_pid. destruct (pid =? 0); [by intros [= <-]|]. destruct (rg_owners r !! pid); [done|].
  destruct (ancestor_loop _ _ _ _ _) as [path [s|]]; [done|by intros [= <-]].
Qed.

(** Root processes are never forgotten: when the root process of an endpoint has exited and the
    system gives its number to an unrelated process, whose parent belongs to no endpoint, the start
    of that process is attributed to the endpoint, and it may connect as a client of it. *)
Theorem reused_root_is_attributed r pid slot known exit_event start_event parents parents' parents_again :
  rg_owners r !! pid = Some known -> ow_slot known = slot -> ow_root known = true ->
  pe_type exit_event = Exit -> u32_pid (pe_pid exit_event) = Some pid ->
  pe_type start_event = Start -> u32_pid (pe_pid start_event) = Some pid ->
  (forall parent, u32_pid (pe_parent_pid start_event) = Some parent -> (resolve_pid parents' parent r).1 = None) ->
  let r1 := (observe parents parents exit_event r).2 in
  let '(attributed, r2) := observe parents' parents_again start_event r1 in
  attributed = Some slot /\ forall parents'', (endpoint_owns parents'' slot pid r2).1 = true.
Proof.
  intros Ho Hs Hroot Ht1 Hp1 Ht2 Hp2 Hpp. cbv zeta.
  assert (Hpid : pid =? 0 = false).
  { unfold u32_pid in Hp1. destruct (pe_pid exit_event) as [p|]; [|done]. destruct ((p <=? 0) || _) eqn:E; [done|]. injection Hp1 as ->. to_prop. lia. }
  unfold observe at 2. rewrite Hp1, Ht1. unfold observe_exit. rewrite Ho, Ho, Hroot. cbn [negb andb snd].
  unfold observe. rewrite Hp2, Ht2. unfold observe_start.
  assert (Hparent : (match u32_pid (pe_parent_pid start_event) with Some parent => resolve_pid parents' parent r | None => (None, r) end) = (None, r)).
  { destruct (u32_pid (pe_parent_pid start_event)) as [parent|]; [|done]. specialize (Hpp parent eq_refl).
    destruct (resolve_pid parents' parent r) as [s r'] eqn:E. cbn in Hpp. subst s. by rewrite (resolve_none _ _ _ _ E). }
  rewrite Hparent. unfold resolve_pid at 1. rewrite Hpid, Ho. split; [by rewrite Hs|].
  intros parents''. unfold endpoint_owns, resolve_pid. rewrite Hpid. cbn [rg_owners]. rewrite lookup_insert_eq. cbn. rewrite Hs. by rewrite bool_decide_eq_true_2.
Qed.

(** ** Concrete runs *)

Definition win_event (type : ProcessExecEventType) (pid parent key : Z) : ProcessExecEvent :=
  {| pe_type := type; pe_timestamp_ns := 5000; pe_pid := Some pid; pe_tgid := None; pe_parent_pid := Some parent; pe_parent_tgid := None;
     pe_uid := None; pe_gid := None; pe_process_start_time_ns := None; pe_platform_process_key := Some key;
     pe_parent_process_start_time_ns := None; pe_parent_platform_process_key := None; pe_session_id := Some 1;
     pe_user_identity := "user"; pe_integrity_level := "medium"; pe_elevated := Some false; pe_exit_code := None; pe_cgroup_id := None;
     pe_comm := "app.exe"; pe_executable_path := "app.exe"; pe_command_line := ""; pe_working_directory := "" |}.

Definition demo_server : WinBroker :=
  match start_server 4 [MkPidMapping "a" 100; MkPidMapping "b" 200] with Ok b => b | Throw _ => MkWinBroker empty_registry (MkRouter 1 ∅ 0) 0 [] end.

(** A grandchild of the root of slot "a", whose parent is known from the process table only. *)
Definition demo_ops : list WinOp := [WinProcess {[102 := 101; 101 := 100]} ∅ (win_event Start 103 102 7); WinServe "a"].

Lemma windows_isolation_witness :
  wb_sent (win_run demo_ops demo_server) = [("a", encode_process_exec (win_event Start 103 102 7) 1)] /\
  exists pid, about (encode_process_exec (win_event Start 103 102 7) 1) pid /\
    descends (reported_by demo_ops) (mapped [MkPidMapping "a" 100; MkPidMapping "b" 200]) "a" pid.
Proof.
  assert (E : wb_sent (win_run demo_ops demo_server) = [("a", encode_process_exec (win_event Start 103 102 7) 1)]) by (vm_compute; reflexivity).
  split; [exact E|]. apply (proj1 (windows_isolation 4 [MkPidMapping "a" 100; MkPidMapping "b" 200] demo_ops demo_server eq_refl)).
  rewrite E. left.
Defined.

Lemma reused_root_is_attributed_witness :
  let r1 := (observe ∅ ∅ (win_event Exit 100 50 1) (wb_registry demo_server)).2 in
  let '(attributed, r2) := observe {[66 := 4]} ∅ (win_event Start 100 66 2) r1 in
  attributed = Some "a" /\ forall parents, (endpoint_owns parents "a" 100 r2).1 = true.
Proof.
  apply (reused_root_is_attributed (wb_registry demo_server) 100 "a" (MkOwnership "a" None true)); try reflexivity.
  intros parent E. vm_compute in E. injection E as <-. vm_compute. reflexivity.
Defined.
