(* ===== verification/Crypto.v ===== *)
(** SHA-256 in hexadecimal ([src/core/crypto.cpp]).

    The digest itself is OpenSSL's ([EVP_sha256]), so it is an operation of the
    class [Sha256]; the only fact used about it is the size of its result
    ([Sha256Laws]).  What the agent does with the digest, printing it as
    lower-case hexadecimal, is translated. *)

From S2P Require Import Prelude Text Wire.

#[local] Arguments String.append !_ _ /.

(** [EVP_Digest*] with [EVP_sha256()] on a whole input. *)
Class Sha256 := sha256_digest : string -> list byte.

(** EVP_DigestFinal_ex writes 32 bytes for SHA-256. *)
Class Sha256Laws (H : Sha256) : Prop :=
  sha256_size : forall s, length (sha256_digest s) = 32%nat.

Definition hex_digit (n : Z) : ascii := char_of (if n <? 10 then 48 + n else 87 + n).

(** [out << std::hex << std::setfill('0') << std::setw(2) << b] for every byte. *)
Fixpoint finalize_hex (digest : list byte) : string :=
  match digest with
  | [] => ""
  | b :: digest' =>
      String (hex_digit (Z_of_byte b / 16))
        (String (hex_digit (Z_of_byte b mod 16)) (finalize_hex digest'))
  end.

Definition sha256_hex `{Sha256} (input : string) : string := finalize_hex (sha256_digest input).

(** The loop that joins the hashes of a set. *)
Definition join_hashes (hashes : list string) : string :=
  fold_left (fun material hash =>
    (if bool_decide (material = "") then material else material +:+ "|") +:+ hash) hashes "".

(** The lower-case hexadecimal alphabet. *)
Definition is_lower_hex (c : ascii) : bool := isdigit c || ((97 <=? code c) && (code c <=? 102)).

Lemma hex_digit_lower b : 0 <= b < 16 -> is_lower_hex (hex_digit b) = true.
Proof.
  intros H. assert (Hb : b ∈ seqZ 0 16) by (apply elem_of_seqZ; lia).
  assert (F : Forall (fun b => is_lower_hex (hex_digit b) = true) (seqZ 0 16)) by (repeat constructor).
  rewrite Forall_forall in F. by apply F.
Qed.

Lemma finalize_hex_shape digest :
  string_all is_lower_hex (finalize_hex digest) = true /\
  String.length (finalize_hex digest) = (2 * length digest)%nat.
Proof.
  induction digest as [|b digest [IH1 IH2]]; [done|]. cbn [finalize_hex string_all String.length length].
  pose proof (Z_of_byte_range b).
  rewrite !hex_digit_lower, IH1, IH2 by
    (try apply Z.mod_pos_bound; try (split; [apply Z.div_pos|apply Z.div_lt_upper_bound]); lia).
  split; [done|lia].
Qed.

Lemma sha256_hex_shape `{Sha256Laws} s :
  string_all is_lower_hex (sha256_hex s) = true /\ String.length (sha256_hex s) = 64%nat.
Proof.
  unfold sha256_hex. destruct (finalize_hex_shape (sha256_digest s)) as [-> ->].
  by rewrite sha256_size.
Qed.

(** A concrete digest of the right size, for evaluating the definitions: the
    running sum of the characters in every byte. *)
Definition sum_digest : Sha256 := fun s =>
  repeat (byte_of_Z (fold_right (fun c acc => code c + acc) 0 (String.list_ascii_of_string s) mod 256)) 32.

Lemma sum_digest_laws : Sha256Laws sum_digest.
Proof. intros s. apply repeat_length. Qed.
