(* ===== verification/NapSequence.v ===== *)
(** The durable NAP/1 message sequence ([src/core/nap_sequence.cpp]).

    The state directory holds two redundant checksummed slots, a legacy decimal
    file and a recovery marker: [Disk].  Every file operation of an allocation
    may fail or be the point where the machine stops; the list of [io_fault]s of
    a run decides this for each operation in turn, and says which prefix of the
    text an interrupted write leaves behind.  The Windows code path uses the
    slots, the POSIX one only the legacy file.

    The theorems: records round-trip and a torn record is never accepted; no
    sequence number is ever returned twice, whatever faults happen and whenever;
    a fault never destroys both slots, so a later allocation succeeds. *)

From Stdlib Require Import Sorted.
From S2P Require Import Prelude Text Wire Faults Crypto.

#[local] Arguments String.append !_ _ /.

(** ** Records *)

Definition kMaxLegacySequenceBytes : nat := 64.
Definition kMaxSequenceRecordBytes : nat := 256.
Definition newline : string := String "010" "".
Definition kRecordHeader : string := "NETA-NAP-SEQUENCE/1" +:+ newline +:+ "sequence=".
Definition kChecksumPrefix : string := newline +:+ "checksum=sha256:".

(** [if (!text.empty() && text.back() == c) text.pop_back();] *)
Definition strip_back (c : ascii) (text : string) : string :=
  if bool_decide (back text = Some c) then pop_back text else text.

Definition parse_decimal (text path : string) : result Z :=
  let text := strip_back "013" (strip_back "010" text) in
  if bool_decide (text = "") then Throw ("NAP sequence state is malformed: empty value at " +:+ path)
  else if (kMaxLegacySequenceBytes <? String.length text)%nat
  then Throw ("NAP sequence state is malformed: value too large at " +:+ path)
  else if negb (string_all isdigit text)
  then Throw ("NAP sequence state is malformed: non-decimal data at " +:+ path)
  else match from_chars_u64 text with
       | Some value => Ok value
       | None => Throw ("NAP sequence state is malformed: invalid integer at " +:+ path)
       end.

Section Record.
Context `{Sha256}.

Definition make_record (sequence : Z) : string :=
  let body := kRecordHeader +:+ to_string sequence +:+ newline in
  body +:+ "checksum=sha256:" +:+ sha256_hex body +:+ newline.

Definition parse_record (text path : string) : result Z :=
  if bool_decide (text = "") || (kMaxSequenceRecordBytes <? String.length text)%nat
  then Throw ("NAP sequence record is malformed at " +:+ path)
  else if has (find_from text (String "000" "") 0) || negb (starts_with kRecordHeader text)
  then Throw ("NAP sequence record has invalid header at " +:+ path)
  else
    let digits_begin := String.length kRecordHeader in
    match find_from text kChecksumPrefix digits_begin with
    | None => Throw ("NAP sequence record has invalid structure at " +:+ path)
    | Some checksum_pos =>
        if (checksum_pos =? digits_begin)%nat
        then Throw ("NAP sequence record has invalid structure at " +:+ path)
        else
          let digits := substr text digits_begin (checksum_pos - digits_begin) in
          let? sequence := parse_decimal digits path in
          if bool_decide (text = make_record sequence) then Ok sequence
          else Throw ("NAP sequence record checksum or format mismatch at " +:+ path)
    end.
End Record.

(** ** The state directory *)

Inductive SeqFile := Slot0 | Slot1 | Legacy | Recovery.
#[global] Instance SeqFile_eq_dec : EqDecision SeqFile.
Proof. solve_decision. Defined.

Record Disk := MkDisk {
  d_slot0 : option string; d_slot1 : option string;
  d_legacy : option string; d_recovery : option string }.

Definition disk_get (f : SeqFile) (d : Disk) : option string :=
  match f with
  | Slot0 => d_slot0 d | Slot1 => d_slot1 d | Legacy => d_legacy d | Recovery => d_recovery d
  end.

Definition disk_set (f : SeqFile) (v : option string) (d : Disk) : Disk :=
  match f with
  | Slot0 => MkDisk v (d_slot1 d) (d_legacy d) (d_recovery d)
  | Slot1 => MkDisk (d_slot0 d) v (d_legacy d) (d_recovery d)
  | Legacy => MkDisk (d_slot0 d) (d_slot1 d) v (d_recovery d)
  | Recovery => MkDisk (d_slot0 d) (d_slot1 d) (d_legacy d) v
  end.

#[local] Open Scope io_scope.

(** Computations on the directory.  [create_directories], taking the interprocess lock (whose
    time-out is an error) and releasing it leave the four files alone: they are [io_step]s. *)
Definition M (A : Type) : Type := IO Disk A.

Definition torn (f : SeqFile) (text : string) (kept : option nat) (d : Disk) : Disk :=
  match kept with None => d | Some n => disk_set f (Some (substr text 0 n)) d end.

Definition durable_write_text (f : SeqFile) (text : string) : M unit := fun fs d =>
  match next_fault fs with
  | (IoDone, fs') => (Done tt, fs', disk_set f (Some text) d)
  | (IoThrows message kept, fs') => (Threw message, fs', torn f text kept d)
  | (IoCrashes kept, fs') => (Crashed, fs', torn f text kept d)
  end.

Record SlotState := MkSlotState {
  slot_exists : bool; slot_valid : bool; slot_value : Z; slot_error : string }.

Definition no_slot : SlotState := MkSlotState false false 0 "".

Inductive NapSequenceHealth := Healthy | Recovered | LegacyMigrationRequired | Unrecoverable.

Definition health_to_string (health : NapSequenceHealth) : string :=
  match health with
  | Healthy => "HEALTHY"
  | Recovered => "RECOVERED"
  | LegacyMigrationRequired => "LEGACY_MIGRATION_REQUIRED"
  | Unrecoverable => "UNRECOVERABLE"
  end.

Record NapSequenceStatus := MkNapSequenceStatus {
  ns_health : NapSequenceHealth;
  ns_has_sequence : bool;
  ns_sequence : Z;
  ns_slot0_valid : bool;
  ns_slot1_valid : bool;
  ns_legacy_valid : bool;
  ns_detail : string;
  ns_recovery_detail : string }.

Section Sequence.
Context `{Sha256} (path : SeqFile -> string).

Definition read_text_if_exists (f : SeqFile) (max_bytes : nat) : M (option string) := fun fs d =>
  match next_fault fs with
  | (IoDone, fs') =>
      match disk_get f d with
      | None => (Done None, fs', d)
      | Some text =>
          if (max_bytes <? String.length text)%nat
          then (Threw ("NAP sequence state exceeds maximum size at " +:+ path f), fs', d)
          else (Done (Some text), fs', d)
      end
  | (IoThrows message _, fs') => (Threw message, fs', d)
  | (IoCrashes _, fs') => (Crashed, fs', d)
  end.

(** The [catch] block of [read_slot] and [read_legacy]. *)
Definition read_failed (f : SeqFile) (error : string) : M SlotState := fun fs d =>
  (Done (MkSlotState (has (disk_get f d)) false 0 error), fs, d).

Definition read_slot (f : SeqFile) : M SlotState :=
  catch
    (let* text := read_text_if_exists f kMaxSequenceRecordBytes in
     match text with
     | None => ret no_slot
     | Some text => let* value := lift (parse_record text (path f)) in
                    ret (MkSlotState true true value "")
     end)
    (read_failed f).

Definition read_legacy : M SlotState :=
  catch
    (let* text := read_text_if_exists Legacy kMaxLegacySequenceBytes in
     match text with
     | None => ret no_slot
     | Some text => let* value := lift (parse_decimal text (path Legacy)) in
                    ret (MkSlotState true true value "")
     end)
    (read_failed Legacy).

Definition write_slot (f : SeqFile) (sequence : Z) : M unit :=
  let* _ := durable_write_text f (make_record sequence) in
  let* text := read_text_if_exists f kMaxSequenceRecordBytes in
  let failed := raise ("NAP sequence durable write verification failed at " +:+ path f) in
  match text with
  | None => failed
  | Some text =>
      let* value := lift (parse_record text (path f)) in
      if value =? sequence then ret tt else failed
  end.

Definition best_effort_write_legacy (sequence : Z) : M unit :=
  catch (durable_write_text Legacy (to_string sequence +:+ newline)) (fun _ => ret tt).

(** The marker file; the console and event-log reports leave no state behind. *)
Definition note_recovery (detail : string) : M unit :=
  catch (durable_write_text Recovery (detail +:+ newline)) (fun _ => ret tt).

(** The slots as the allocation uses them, with the current sequence. *)
Definition recover (slot0 slot1 : SlotState) : M (Z * SlotState * SlotState) :=
  if negb (slot_valid slot0) && negb (slot_valid slot1) then
    if slot_exists slot0 || slot_exists slot1
    then raise "NAP sequence state is unrecoverable: both redundant slots are invalid"
    else
      let* legacy := read_legacy in
      if negb (slot_valid legacy)
      then raise ("NAP sequence state is unrecoverable: " +:+
                  (if slot_exists legacy then slot_error legacy
                   else "legacy sequence state is missing"))
      else
        let current := slot_value legacy in
        let* _ := write_slot Slot0 current in
        let* _ := write_slot Slot1 current in
        let* _ := note_recovery ("Migrated validated legacy NAP sequence " +:+
                    to_string current +:+ " into redundant crash-safe slots") in
        ret (current, MkSlotState true true current "", MkSlotState true true current "")
  else if slot_valid slot0 && negb (slot_valid slot1) then
    let current := slot_value slot0 in
    let* _ := write_slot Slot1 current in
    let* _ := note_recovery ("Recovered NAP sequence state from sequence.0 at " +:+
                to_string current +:+ " and repaired sequence.1") in
    ret (current, slot0, MkSlotState true true current "")
  else if negb (slot_valid slot0) && slot_valid slot1 then
    let current := slot_value slot1 in
    let* _ := write_slot Slot0 current in
    let* _ := note_recovery ("Recovered NAP sequence state from sequence.1 at " +:+
                to_string current +:+ " and repaired sequence.0") in
    ret (current, MkSlotState true true current "", slot1)
  else ret (Z.max (slot_value slot0) (slot_value slot1), slot0, slot1).

Definition next_windows_sequence : M Z :=
  let* _ := io_step in
  let* _ := io_step in
  let* slot0 := read_slot Slot0 in
  let* slot1 := read_slot Slot1 in
  let* (current, slot0, slot1) := recover slot0 slot1 in
  if current =? u64_max then raise "NAP sequence state is exhausted"
  else
    let next := wrap_u 64 (current + 1) in
    let first_is_slot0 := slot_value slot0 <=? slot_value slot1 in
    let* _ := write_slot (if first_is_slot0 then Slot0 else Slot1) next in
    let* _ := write_slot (if first_is_slot0 then Slot1 else Slot0) next in
    let* _ := best_effort_write_legacy next in
    let* _ := io_step in
    ret next.

Definition remove_file (f : SeqFile) : M unit := fun fs d =>
  match next_fault fs with
  | (IoDone, fs') => (Done tt, fs', disk_set f None d)
  | (IoThrows _ _, fs') => (Done tt, fs', d)
  | (IoCrashes _, fs') => (Crashed, fs', d)
  end.

Definition initialize_windows_sequence (initial_sequence : Z) : M unit :=
  let* _ := io_step in
  let* _ := io_step in
  let* _ := write_slot Slot0 initial_sequence in
  let* _ := write_slot Slot1 initial_sequence in
  let* _ := durable_write_text Legacy (to_string initial_sequence +:+ newline) in
  let* _ := remove_file Recovery in
  io_step.

(** [std::getline] of the marker: the text before the first newline. *)
Definition read_recovery_marker : M string := fun fs d =>
  match next_fault fs with
  | (IoDone, fs') =>
      (Done (match disk_get Recovery d with
             | None => ""
             | Some text => strip_back "013" (take_while (fun c => negb (Ascii.eqb c "010")) text)
             end), fs', d)
  | (IoThrows _ _, fs') => (Done "", fs', d)
  | (IoCrashes _, fs') => (Crashed, fs', d)
  end.

Definition windows_status (slot0 slot1 legacy : SlotState) (recovery : string) : NapSequenceStatus :=
  let status health has_sequence sequence detail :=
    MkNapSequenceStatus health has_sequence sequence (slot_valid slot0) (slot_valid slot1)
      (slot_valid legacy) detail recovery in
  if slot_valid slot0 && slot_valid slot1 then
    status Healthy true (Z.max (slot_value slot0) (slot_value slot1))
      (if slot_value slot0 =? slot_value slot1
       then "both redundant sequence slots are valid and synchronized"
       else "both redundant sequence slots are valid; highest durable sequence selected")
  else if slot_valid slot0 || slot_valid slot1 then
    status Recovered true (if slot_valid slot0 then slot_value slot0 else slot_value slot1)
      "one redundant sequence slot is invalid; the next allocation will repair it"
  else if negb (slot_exists slot0) && negb (slot_exists slot1) && slot_valid legacy then
    status LegacyMigrationRequired true (slot_value legacy)
      "validated legacy sequence will migrate on the next NAP allocation"
  else
    status Unrecoverable false 0
      ("no trustworthy redundant NAP sequence state is available" +:+
       (if slot_exists slot0 || slot_exists slot1
        then "; at least one redundant slot exists but neither is valid"
        else if slot_exists legacy && negb (slot_valid legacy) && negb (bool_decide (slot_error legacy = ""))
        then "; " +:+ slot_error legacy else "")).

Definition inspect_windows_sequence : M NapSequenceStatus :=
  let* _ := io_step in
  let* slot0 := read_slot Slot0 in
  let* slot1 := read_slot Slot1 in
  let* legacy := read_legacy in
  let* recovery := read_recovery_marker in
  let* _ := io_step in
  ret (windows_status slot0 slot1 legacy recovery).

(** *** The POSIX code path: one decimal file *)

Definition read_legacy_text : M string := fun fs d =>
  match next_fault fs with
  | (IoDone, fs') =>
      match disk_get Legacy d with
      | None => (Threw ("cannot open NAP sequence state: " +:+ path Legacy), fs', d)
      | Some text =>
          if (kMaxLegacySequenceBytes <? String.length text)%nat
          then (Threw ("NAP sequence state is malformed: value too large at " +:+ path Legacy), fs', d)
          else (Done text, fs', d)
      end
  | (IoThrows message _, fs') => (Threw message, fs', d)
  | (IoCrashes _, fs') => (Crashed, fs', d)
  end.

Definition is_regular_file (f : SeqFile) : M bool := fun fs d => (Done (has (disk_get f d)), fs, d).

Definition next_posix_sequence : M Z :=
  let* _ := io_step in
  let* _ := io_step in
  let* present := is_regular_file Legacy in
  if negb present then raise ("NAP sequence state is missing: " +:+ path Legacy)
  else
    let* text := read_legacy_text in
    let* current := lift (parse_decimal text (path Legacy)) in
    if current =? u64_max then raise ("NAP sequence state exhausted at " +:+ path Legacy)
    else
      let next := wrap_u 64 (current + 1) in
      let* _ := durable_write_text Legacy (to_string next +:+ newline) in
      let* _ := io_step in
      ret next.

Definition initialize_posix_sequence (initial_sequence : Z) : M unit :=
  let* _ := io_step in
  let* _ := io_step in
  let* _ := durable_write_text Legacy (to_string initial_sequence +:+ newline) in
  io_step.

Definition unrecoverable_status (error : string) : NapSequenceStatus :=
  MkNapSequenceStatus Unrecoverable false 0 false false false error "".

(** The status is filled in before the lock is released: a failing release
    keeps the fields and only changes the health and the detail. *)
Definition inspect_posix_sequence : M NapSequenceStatus :=
  catch
    (let* _ := io_step in
     let* text := read_legacy_text in
     let* value := lift (parse_decimal text (path Legacy)) in
     catch
       (let* _ := io_step in
        ret (MkNapSequenceStatus Healthy true value false false true "legacy sequence state is valid" ""))
       (fun error => ret (MkNapSequenceStatus Unrecoverable true value false false true error "")))
    (fun error => ret (unrecoverable_status error)).

(** *** The interface ([windows] is the build's [_WIN32]) *)

Definition next_nap_sequence (windows : bool) : M Z :=
  if windows then next_windows_sequence else next_posix_sequence.

Definition initialize_nap_sequence_state (windows : bool) (initial_sequence : Z) : M unit :=
  if windows then initialize_windows_sequence initial_sequence
  else initialize_posix_sequence initial_sequence.

Definition inspect_nap_sequence_state (windows : bool) : M NapSequenceStatus :=
  if windows then catch inspect_windows_sequence (fun error => ret (unrecoverable_status error))
  else inspect_posix_sequence.
End Sequence.

(** ** Records: proofs *)

Lemma strip_back_digits c s :
  isdigit c = false -> string_all isdigit s = true -> strip_back c s = s.
Proof.
  intros Hc Hs. unfold strip_back. case_bool_decide as E; [|done].
  by rewrite (back_all _ _ _ Hs E) in Hc.
Qed.

Lemma strip_back_snoc c s : strip_back c (s +:+ String c "") = s.
Proof. unfold strip_back. by rewrite back_snoc, bool_decide_eq_true_2, pop_back_snoc. Qed.

Lemma parse_decimal_to_string z path :
  in_u 64 z -> parse_decimal (to_string z) path = Ok z /\
               parse_decimal (to_string z +:+ newline) path = Ok z.
Proof.
  intros Hz. destruct (to_string_digits z) as (D1 & D2 & _); [destruct Hz; lia|].
  pose proof (to_string_length z Hz) as L. unfold parse_decimal, newline.
  rewrite strip_back_snoc, !(strip_back_digits _ (to_string z)) by done.
  rewrite bool_decide_eq_false_2 by done. rewrite (proj2 (Nat.ltb_ge _ _)) by (unfold kMaxLegacySequenceBytes; lia).
  by rewrite D1, from_chars_to_string.
Qed.

Lemma parse_decimal_range text path z : parse_decimal text path = Ok z -> in_u 64 z.
Proof.
  unfold parse_decimal. intros H. repeat case_match; try done. injection H as <-.
  by eapply from_chars_range.
Qed.

Section RecordProofs.
Context `{Sha256Laws}.

Lemma make_record_layout z : make_record z =
  kRecordHeader +:+ (to_string z +:+ (kChecksumPrefix +:+
    (sha256_hex (kRecordHeader +:+ to_string z +:+ newline) +:+ newline))).
Proof. unfold make_record. generalize (sha256_hex (kRecordHeader +:+ to_string z +:+ newline)).
  intros hex. unfold kRecordHeader, kChecksumPrefix, newline. by rewrite !string_app_assoc.
Qed.

Lemma make_record_length z : in_u 64 z ->
  (0 < String.length (make_record z) <= kMaxSequenceRecordBytes)%nat.
Proof.
  intros Hz. rewrite make_record_layout, !string_length_app.
  rewrite (proj2 (sha256_hex_shape _)). pose proof (to_string_length z Hz).
  unfold kMaxSequenceRecordBytes. cbn. lia.
Qed.

Lemma make_record_no_nul z : 0 <= z -> find_from (make_record z) (String "000" "") 0 = None.
Proof.
  intros Hz. apply find_first_free. destruct (to_string_digits z Hz) as (D & _ & _).
  rewrite make_record_layout, !string_all_app. rewrite !andb_true_iff. split_and!; try done.
  - eapply string_all_impl, D. intros c Hc. destruct (Ascii.eqb_spec c "000"); [by subst|done].
  - eapply string_all_impl; [|apply (proj1 (sha256_hex_shape _))].
    intros c Hc. destruct (Ascii.eqb_spec c "000"); [by subst|done].
Qed.

Lemma make_record_find z : 0 <= z ->
  find_from (make_record z) kChecksumPrefix (String.length kRecordHeader) =
  Some (String.length kRecordHeader + String.length (to_string z))%nat.
Proof.
  intros Hz. destruct (to_string_digits z Hz) as (D & _ & _).
  rewrite make_record_layout, find_from_skip, find_absent; [done|done|].
  apply absent_first. eapply string_all_impl, D. intros c Hc.
  destruct (Ascii.eqb_spec c "010"); [by subst|done].
Qed.

Lemma parse_make_record z path : in_u 64 z -> parse_record (make_record z) path = Ok z.
Proof.
  intros Hz. assert (Hz0 : 0 <= z) by (destruct Hz; lia).
  pose proof (make_record_length z Hz) as L. unfold parse_record.
  rewrite bool_decide_eq_false_2 by (intros E; rewrite E in L; cbn in L; lia).
  rewrite (proj2 (Nat.ltb_ge _ _)) by lia. rewrite make_record_no_nul by done.
  rewrite (proj2 (starts_with_spec kRecordHeader _)) by (rewrite make_record_layout; eauto).
  cbn [orb has negb]. rewrite make_record_find by done.
  destruct (to_string_digits z Hz0) as (_ & Hne & _).
  assert (0 < String.length (to_string z))%nat by (destruct (to_string z); cbn; [done|lia]).
  rewrite (proj2 (Nat.eqb_neq _ _)) by lia.
  replace (String.length kRecordHeader + String.length (to_string z) - String.length kRecordHeader)%nat
    with (String.length (to_string z)) by lia.
  rewrite make_record_layout at 1. rewrite substr_mid.
  rewrite (proj1 (parse_decimal_to_string z path Hz)). cbn. by rewrite bool_decide_eq_true_2.
Qed.

Lemma parse_record_inv text path z :
  parse_record text path = Ok z -> text = make_record z /\ in_u 64 z.
Proof.
  unfold parse_record. intros E. repeat case_match; try done. ok_inv E.
  case_bool_decide; simplify_eq. split; [done|]. by eapply parse_decimal_range.
Qed.

(** One record can only be a prefix of another if they are the same record. *)
Lemma make_record_prefix z v rest :
  0 <= z -> 0 <= v -> make_record z = make_record v +:+ rest -> z = v.
Proof.
  intros Hz Hv. rewrite !make_record_layout, !string_app_assoc. intros E%string_app_inv_l.
  destruct (to_string_digits z Hz) as (Dz & _ & _), (to_string_digits v Hv) as (Dv & _ & _).
  apply (f_equal (take_while isdigit)) in E. rewrite (take_while_all _ (to_string z)), (take_while_all _ (to_string v)) in E by done.
  assert (N : forall x, take_while isdigit (kChecksumPrefix +:+ x) = "") by done.
  rewrite !N, !string_app_nil_r in E. by apply to_string_inj.
Qed.

(** A prefix of a record that parses is the record itself. *)
Lemma torn_record z n path v :
  in_u 64 z -> parse_record (substr (make_record z) 0 n) path = Ok v ->
  v = z /\ substr (make_record z) 0 n = make_record z.
Proof.
  intros Hz E. destruct (parse_record_inv _ _ _ E) as [T Hv].
  destruct (substr_prefix (make_record z) n) as [rest R]. rewrite T in R.
  assert (z = v) as ->; [|done].
  apply (make_record_prefix z v rest); [unfold in_u in *; lia..|done].
Qed.

(** Sequence records are durable: the record written for a 64-bit sequence
    number fits the slot's size limit and reads back as that number, and a torn
    write is never mistaken for a record, every proper prefix of it is refused. *)
Theorem record_durability z path :
  in_u 64 z ->
  parse_record (make_record z) path = Ok z /\
  (String.length (make_record z) <= kMaxSequenceRecordBytes)%nat /\
  forall n, (n < String.length (make_record z))%nat ->
    is_ok (parse_record (substr (make_record z) 0 n) path) = false.
Proof.
  intros Hz. split_and!; [by apply parse_make_record|by apply make_record_length|].
  intros n Hn. destruct (parse_record _ path) as [v|] eqn:E; [|done].
  apply torn_record in E as [_ E]; [|done].
  apply (f_equal String.length) in E. rewrite substr_length in E. lia.
Qed.
End RecordProofs.

Lemma record_durability_witness :
  parse_record (H := sum_digest) (make_record (H := sum_digest) 41) "sequence.0" = Ok 41.
Proof.
  apply (proj1 (record_durability (H0 := sum_digest_laws) 41 "sequence.0" ltac:(unfold in_u; lia))).
Defined.

(** ** Allocation: proofs *)

#[local] Arguments make_record : simpl never.
#[local] Arguments substr : simpl never.
#[local] Arguments parse_record : simpl never.

Lemma disk_get_set f g v d : disk_get g (disk_set f v d) = if decide (f = g) then v else disk_get g d.
Proof. by destruct f, g. Qed.

(** The slots of a directory and what the two properties are about. *)
Definition is_slot (f : SeqFile) : bool := match f with Slot0 | Slot1 => true | _ => false end.

Section AllocationProofs.
Context `{Sha256Laws} (path : SeqFile -> string).

(** [f] holds an intact record of [v]. *)
Definition holds (f : SeqFile) (v : Z) (d : Disk) : Prop :=
  disk_get f d = Some (make_record v) /\ in_u 64 v.

Lemma holds_inj f v w d : holds f v d -> holds f w d -> v = w.
Proof.
  intros [E1 H1] [E2 H2]. rewrite E1 in E2. apply Some_inj in E2.
  apply (make_record_prefix v w ""); [unfold in_u in *; lia..|]. by rewrite string_app_nil_r.
Qed.

Lemma holds_set f v d : in_u 64 v -> holds f v (disk_set f (Some (make_record v)) d).
Proof. intros Hv. split; [|done]. by rewrite disk_get_set, decide_True. Qed.

Lemma holds_other f g v x d : f <> g -> holds g v (disk_set f x d) <-> holds g v d.
Proof. intros Hne. unfold holds. by rewrite disk_get_set, decide_False. Qed.

(** What an interrupted [write_slot] leaves: an intact record of [v], or no record. *)
Lemma holds_torn f v w kept d :
  in_u 64 v -> holds f w (torn f (make_record v) kept d) -> w = v \/ holds f w d.
Proof.
  intros Hv. destruct kept as [n|]; [|by right]. simpl. intros [E Hw]. left.
  rewrite disk_get_set, decide_True in E by done. apply Some_inj in E.
  apply (torn_record v n (path f) w Hv). rewrite E. by apply parse_make_record.
Qed.

Lemma torn_other f g text kept d : f <> g -> disk_get g (torn f text kept d) = disk_get g d.
Proof. intros. destruct kept; simpl; [|done]. by rewrite disk_get_set, decide_False. Qed.

(** The state a slot was read as, on a directory that has not changed since. *)
Definition slot_ok (f : SeqFile) (s : SlotState) (d : Disk) : Prop :=
  slot_exists s = has (disk_get f d) /\ (slot_valid s = true -> holds f (slot_value s) d).

Lemma read_slot_spec f (P E : Disk -> Prop) :
  (forall d, P d -> E d) -> hoare P (read_slot path f) (fun s d => P d /\ slot_ok f s d) E.
Proof.
  intros HE fs d Hp. specialize (HE d Hp). unfold read_slot, catch, bind, read_text_if_exists, read_failed, slot_ok.
  destruct (next_fault fs) as [[|msg k|k] fs']; [|by simpl|done].
  destruct (disk_get f d) as [text|] eqn:Ef; [|by simpl; rewrite ?Ef].
  destruct (_ <? _)%nat; [by simpl; rewrite ?Ef|].
  destruct (parse_record text (path f)) as [v|msg] eqn:Ep; simpl; rewrite ?Ef; [|done].
  destruct (parse_record_inv _ _ _ Ep) as [-> Hv]. by split_and!.
Qed.

Lemma write_slot_spec f v (P : Disk -> Prop) (Q : unit -> Disk -> Prop) (E : Disk -> Prop) :
  in_u 64 v ->
  (forall d, P d -> Q tt (disk_set f (Some (make_record v)) d)) ->
  (forall d kept, P d -> E (torn f (make_record v) kept d)) ->
  hoare P (write_slot path f v) Q E.
Proof.
  intros Hv HQ HE fs d Hp. unfold write_slot, bind, durable_write_text, read_text_if_exists.
  destruct (next_fault fs) as [[|msg k|k] fs']; [|by apply HE..].
  pose proof (HE d (Some (String.length (make_record v))) Hp) as Hfull.
  unfold torn, substr in Hfull. rewrite substring_0_full in Hfull.
  destruct (next_fault fs') as [[|msg k|k] fs'']; [|done..].
  rewrite disk_get_set, decide_True by done.
  rewrite (proj2 (Nat.ltb_ge _ _)) by (apply make_record_length; done).
  rewrite parse_make_record by done. cbn. rewrite Z.eqb_refl. cbn. by apply HQ.
Qed.

(** Best-effort writes to the other files keep what is known of the slots. *)
Lemma best_effort_spec f text (P : Disk -> Prop) E :
  (forall v d, P d -> P (disk_set f v d)) -> (forall d, P d -> E d) ->
  hoare P (catch (durable_write_text f text) (fun _ => ret tt)) (fun _ => P) E.
Proof.
  intros HP HE fs d Hp. unfold catch, durable_write_text.
  destruct (next_fault fs) as [[|msg k|k] fs']; simpl; [by apply HP|..];
    (destruct k; simpl; [try apply HE; by apply HP|by try apply HE]).
Qed.

Lemma read_legacy_spec P : hoare P (read_legacy path) (fun s d => P d /\
  (slot_valid s = true -> in_u 64 (slot_value s))) P.
Proof.
  intros fs d Hp. unfold read_legacy, catch, bind, read_text_if_exists, read_failed.
  destruct (next_fault fs) as [[|msg k|k] fs']; [|by simpl|done].
  destruct (disk_get Legacy d) as [text|] eqn:Ef; [|by simpl].
  destruct (_ <? _)%nat; [by simpl|].
  destruct (parse_decimal text (path Legacy)) as [v|msg] eqn:Ep; simpl; [|done].
  split; [done|]. intros _. by eapply parse_decimal_range.
Qed.

(** *** No reuse *)

(** Both slot files exist and no intact slot is below [n]. *)
Definition above (n : Z) (d : Disk) : Prop :=
  forall f, is_slot f = true -> is_Some (disk_get f d) /\ forall v, holds f v d -> n <= v.

(** [last] is the last number returned, if any. *)
Definition above_last (last : option Z) (d : Disk) : Prop :=
  match last with None => True | Some n => above n d end.

Definition at_least (last : option Z) (v : Z) : Prop :=
  match last with None => True | Some n => n <= v end.

Lemma above_torn last f v kept d :
  in_u 64 v -> at_least last v -> above_last last d -> above_last last (torn f (make_record v) kept d).
Proof.
  destruct last as [n|]; [|done]. simpl. intros Hv Hn Hd g Hg. destruct (Hd g Hg) as [E L].
  destruct (decide (f = g)) as [->|Hne].
  - split; [|intros w [->|Hw]%holds_torn; auto]. destruct kept; simpl; [|done].
    by rewrite disk_get_set, decide_True.
  - unfold holds. by rewrite torn_other.
Qed.

Lemma above_set last f v d :
  in_u 64 v -> at_least last v -> above_last last d ->
  above_last last (disk_set f (Some (make_record v)) d).
Proof.
  intros Hv Hn Hd. pose proof (above_torn last f v (Some (String.length (make_record v))) d Hv Hn Hd) as T.
  unfold torn, substr in T. by rewrite substring_0_full in T.
Qed.

Lemma above_same last d d' :
  (forall f, is_slot f = true -> disk_get f d' = disk_get f d) -> above_last last d -> above_last last d'.
Proof.
  destruct last as [n|]; [|done]. intros Hs Hd f Hf. unfold holds. rewrite (Hs f Hf). by apply Hd.
Qed.

Lemma other_file_slots f v d g :
  is_slot f = false -> is_slot g = true -> disk_get g (disk_set f v d) = disk_get g d.
Proof. intros. rewrite disk_get_set, decide_False; [done|]. intros ->. congruence. Qed.

Lemma write_slot_above last f v :
  in_u 64 v -> at_least last v ->
  hoare (above_last last) (write_slot path f v) (fun _ => above_last last) (above_last last).
Proof.
  intros Hv Hn. apply write_slot_spec; [done|intros; by apply above_set|intros; by apply above_torn].
Qed.

Lemma note_recovery_above last detail :
  hoare (above_last last) (note_recovery detail) (fun _ => above_last last) (above_last last).
Proof.
  apply best_effort_spec; [|done]. intros v d. apply above_same. intros. by apply other_file_slots.
Qed.

(** The state after the recovery: what is returned is not below the last number. *)
Definition recovered_above (last : option Z) (r : Z * SlotState * SlotState) (d : Disk) : Prop :=
  above_last last d /\ in_u 64 r.1.1 /\ at_least last r.1.1.

Lemma repair_above last c f text s s' :
  in_u 64 c -> at_least last c ->
  hoare (above_last last)
    (let* _ := write_slot path f c in let* _ := note_recovery text in ret (c, s, s'))
    (recovered_above last) (above_last last).
Proof.
  intros Hc Hn. eapply hoare_bind; [by apply write_slot_above|]. intros [].
  eapply hoare_bind; [apply note_recovery_above|]. intros []. by apply hoare_ret.
Qed.

Lemma migrate_above :
  hoare (above_last None)
    (let* legacy := read_legacy path in
     if negb (slot_valid legacy)
     then raise ("NAP sequence state is unrecoverable: " +:+
                 (if slot_exists legacy then slot_error legacy else "legacy sequence state is missing"))
     else
       let* _ := write_slot path Slot0 (slot_value legacy) in
       let* _ := write_slot path Slot1 (slot_value legacy) in
       let* _ := note_recovery ("Migrated validated legacy NAP sequence " +:+
                   to_string (slot_value legacy) +:+ " into redundant crash-safe slots") in
       ret (slot_value legacy, MkSlotState true true (slot_value legacy) "",
            MkSlotState true true (slot_value legacy) ""))
    (recovered_above None) (above_last None).
Proof.
  eapply hoare_bind; [apply read_legacy_spec|]. intros legacy fs d [Hd Hv].
  destruct (slot_valid legacy); [|done]. specialize (Hv eq_refl). revert fs d Hd. eapply hoare_bind; [by apply (write_slot_above None)|].
  intros []. by apply repair_above.
Qed.

Lemma recover_above last s0 s1 :
  hoare (fun d => (above_last last d /\ slot_ok Slot0 s0 d) /\ slot_ok Slot1 s1 d) (recover path s0 s1)
    (recovered_above last) (above_last last).
Proof.
  intros fs d [[Hd [X0 V0]] [X1 V1]]. unfold recover.
  assert (L : forall f v, is_slot f = true -> holds f v d -> at_least last v).
  { intros f v Hf Hh. destruct last as [n|]; [|done]. by apply (Hd f Hf). }
  destruct (slot_valid s0), (slot_valid s1); simpl.
  - pose proof (V0 eq_refl) as W0. pose proof (V1 eq_refl) as W1. split; [done|].
    pose proof (L Slot0 _ eq_refl W0). pose proof (L Slot1 _ eq_refl W1). destruct W0, W1.
    split; [simpl; unfold in_u in *; lia|]. destruct last; simpl in *; [lia|done].
  - apply repair_above; [apply V0|eapply (L Slot0), V0|]; done.
  - apply repair_above; [apply V1|eapply (L Slot1), V1|]; done.
  - destruct (slot_exists s0 || slot_exists s1) eqn:Ex; [done|]. destruct last as [n|].
    + destruct (Hd Slot0 eq_refl) as [[t Ht] _]. by rewrite X0, Ht in Ex.
    + by apply migrate_above.
Qed.

Lemma holds_other_file f g v x d :
  is_slot f = false -> is_slot g = true -> holds g v d -> holds g v (disk_set f x d).
Proof. unfold holds. intros. by rewrite other_file_slots. Qed.

(** Writing the next number to both slots, then to the legacy file. *)
Lemma publish_above last f g n :
  is_slot f = true -> is_slot g = true -> f <> g -> in_u 64 n -> at_least last n ->
  hoare (above_last last)
    (let* _ := write_slot path f n in let* _ := write_slot path g n in
     let* _ := best_effort_write_legacy n in let* _ := io_step in ret n)
    (fun v d => v = n /\ holds f n d /\ holds g n d) (above_last last).
Proof.
  intros Hf Hg Hne Hn Hal.
  eapply hoare_bind with (Q := fun _ d => above_last last d /\ holds f n d).
  { apply write_slot_spec; [done| |intros; by apply above_torn].
    intros d Hd. split; [by apply above_set|by apply holds_set]. }
  intros []. eapply hoare_bind with (Q := fun _ d => above_last last d /\ holds f n d /\ holds g n d).
  { apply write_slot_spec; [done| |intros d k [? _]; by apply above_torn].
    intros d [Hd Hhf]. split_and!; [by apply above_set|by apply holds_other|by apply holds_set]. }
  intros []. eapply hoare_bind.
  { apply best_effort_spec; [|by intros d [? _]]. intros v d (Hd & Hhf & Hhg). split_and!.
    - eapply above_same; [|done]. intros. by apply other_file_slots.
    - by apply holds_other_file.
    - by apply holds_other_file. }
  intros []. eapply hoare_bind; [apply hoare_step; by intros d [? _]|].
  intros []. apply hoare_ret. by intros d (_ & ? & ?).
Qed.

Lemma holds_both_above f g n d :
  (forall h, is_slot h = true -> h = f \/ h = g) -> holds f n d -> holds g n d -> above n d.
Proof.
  intros Hall Hf Hg h Hh.
  assert (Hhn : holds h n d) by (by destruct (Hall h Hh) as [->| ->]).
  split; [destruct Hhn; eauto|]. intros v Hv. by rewrite (holds_inj _ _ _ _ Hv Hhn).
Qed.

(** One allocation: a returned number is above the last one and both slots are at
    it; on an error or a crash nothing falls below the last number. *)
Lemma next_windows_above last :
  hoare (above_last last) (next_windows_sequence path)
    (fun v d => above v d /\ match last with None => True | Some n => n < v end)
    (above_last last).
Proof.
  unfold next_windows_sequence.
  do 2 (eapply hoare_bind; [by apply hoare_step|]; intros []).
  eapply hoare_bind; [by apply read_slot_spec|]. intros s0.
  eapply hoare_bind; [apply read_slot_spec; by intros d [? _]|]. intros s1.
  eapply hoare_bind; [apply recover_above|]. intros [[c s0'] s1'].
  intros fs d (Hd & Hc & Hn). simpl in Hc, Hn.
  destruct (c =? u64_max) eqn:Ec; [done|]. to_prop. revert fs d Hd.
  assert (Hnext : in_u 64 (c + 1)) by (unfold in_u, u64_max in *; lia).
  rewrite (wrap_u_id 64 (c + 1)) by done.
  assert (Hal : at_least last (c + 1)) by (destruct last; simpl in *; [lia|done]).
  eapply hoare_weaken; [apply (publish_above last); try done; by destruct (_ <=? _)|done| |done].
  intros v d (-> & Hf & Hg). split; [|destruct last; simpl in *; [lia|done]].
  eapply holds_both_above; [|exact Hf|exact Hg].
  destruct (_ <=? _); intros []; naive_solver.
Qed.

(** A history: allocations, each under its own fault schedule, by processes that
    exclude each other with the lock. *)
Fixpoint run_calls (calls : list (list io_fault)) (d : Disk) : list Z * Disk :=
  match calls with
  | [] => ([], d)
  | fs :: calls' =>
      match next_windows_sequence path fs d with
      | (Done v, _, d') => let '(issued, d'') := run_calls calls' d' in (v :: issued, d'')
      | (_, _, d') => run_calls calls' d'
      end
  end.

Lemma run_calls_above last calls d :
  above_last last d ->
  StronglySorted Z.lt (run_calls calls d).1 /\
  Forall (fun v => match last with None => True | Some n => n < v end) (run_calls calls d).1.
Proof.
  revert last d. induction calls as [|fs calls IH]; intros last d Hd; [by repeat constructor|].
  simpl. pose proof (next_windows_above last fs d Hd) as Hn.
  destruct (next_windows_sequence path fs d) as [[[v|msg|] fs'] d']; [|by apply IH..].
  destruct Hn as [Hv Hlt]. destruct (IH (Some v) d' Hv) as [S F].
  destruct (run_calls calls d') as [issued d'']. simpl in *. split; [by constructor|].
  constructor; [done|]. eapply Forall_impl; [exact F|]. simpl. intros w Hw. destruct last; simpl in *; lia.
Qed.

(** C1: With the two slot files of the Windows builds a sequence number is never used
    twice: over every history of allocations by [next_windows_sequence] on one state
    directory, in any initial condition, with any file operation failing and any write torn
    by a crash at any point, the numbers returned to callers are strictly increasing.  (The
    one file of the POSIX builds gives no such promise: it starts again when it is lost.) *)
Theorem sequence_never_reused calls d : StronglySorted Z.lt (run_calls calls d).1.
Proof. exact (proj1 (run_calls_above None calls d I)). Qed.

(** *** Recovery *)

(** One slot is intact; both are. *)
Definition recoverable (d : Disk) : Prop := exists f v, is_slot f = true /\ holds f v d.
Definition intact (d : Disk) : Prop := forall f, is_slot f = true -> exists v, holds f v d.

Lemma intact_recoverable d : intact d -> recoverable d.
Proof. intros Hd. destruct (Hd Slot0 eq_refl) as [v Hv]. by exists Slot0, v. Qed.

Definition other_slot (f : SeqFile) : SeqFile := match f with Slot0 => Slot1 | _ => Slot0 end.

Lemma slot_cases f g : is_slot f = true -> is_slot g = true -> g = f \/ g = other_slot f.
Proof. destruct f, g; naive_solver. Qed.

(** Writing one slot while the other is intact. *)
Lemma write_slot_intact f v :
  is_slot f = true -> in_u 64 v ->
  hoare (fun d => exists w, holds (other_slot f) w d) (write_slot path f v) (fun _ => intact) recoverable.
Proof.
  intros Hf Hv. assert (Hne : f <> other_slot f) by (by destruct f).
  apply write_slot_spec; [done| |].
  - intros d [w Hw] g Hg. destruct (slot_cases f g Hf Hg) as [->| ->]; [exists v; by apply holds_set|].
    exists w. by apply holds_other.
  - intros d kept [w Hw]. exists (other_slot f), w. split; [by destruct f|].
    unfold holds. by rewrite torn_other.
Qed.

Lemma intact_other_file f x d : is_slot f = false -> intact d -> intact (disk_set f x d).
Proof. intros Hf Hd g Hg. destruct (Hd g Hg) as [v Hv]. exists v. by apply holds_other_file. Qed.

Lemma recover_intact s0 s1 :
  hoare (fun d => (recoverable d /\ slot_ok Slot0 s0 d) /\ slot_ok Slot1 s1 d) (recover path s0 s1)
    (fun r d => intact d /\ in_u 64 r.1.1) recoverable.
Proof.
  assert (R : forall f c text (s s' : SlotState), is_slot f = true -> in_u 64 c ->
    hoare (fun d => exists w, holds (other_slot f) w d)
      (let* _ := write_slot path f c in let* _ := note_recovery text in ret (c, s, s'))
      (fun r d => intact d /\ in_u 64 r.1.1) recoverable).
  { intros f c text s s' Hf Hc. eapply hoare_bind; [by apply write_slot_intact|]. intros [].
    eapply hoare_bind; [apply best_effort_spec; [|by apply intact_recoverable]|].
    - intros v d. by apply intact_other_file.
    - intros []. by apply hoare_ret. }
  intros fs d [[Hd [X0 V0]] [X1 V1]]. unfold recover.
  destruct (slot_valid s0), (slot_valid s1); simpl.
  - pose proof (V0 eq_refl) as W0. pose proof (V1 eq_refl) as W1. split.
    + intros [] Hf; try discriminate Hf; eauto.
    + destruct W0, W1. simpl. unfold in_u in *; lia.
  - apply (R Slot1); [done|by apply V0|]. exists (slot_value s0). by apply V0.
  - apply (R Slot0); [done|by apply V1|]. exists (slot_value s1). by apply V1.
  - destruct Hd as (f & v & Hf & [Hh Hv]). destruct (slot_exists s0 || slot_exists s1) eqn:Ex.
    + by exists f, v.
    + rewrite X0, X1 in Ex. destruct f; try discriminate Hf; rewrite Hh in Ex; [done|].
      by rewrite orb_true_r in Ex.
Qed.

Lemma publish_intact f n :
  is_slot f = true -> in_u 64 n ->
  hoare intact
    (let* _ := write_slot path f n in let* _ := write_slot path (other_slot f) n in
     let* _ := best_effort_write_legacy n in let* _ := io_step in ret n)
    (fun _ => recoverable) recoverable.
Proof.
  intros Hf Hn. assert (Hg : is_slot (other_slot f) = true) by (by destruct f).
  eapply hoare_bind with (Q := fun _ => intact).
  { eapply hoare_weaken; [by apply write_slot_intact|..]; try done. intros d Hd. by apply Hd. }
  intros []. eapply hoare_bind with (Q := fun _ => intact).
  { eapply hoare_weaken; [by apply write_slot_intact|..]; try done. intros d Hd. apply Hd. by destruct f. }
  intros []. eapply hoare_bind; [apply best_effort_spec; [|by apply intact_recoverable]|].
  { intros v d. by apply intact_other_file. }
  intros []. eapply hoare_bind; [apply hoare_step, intact_recoverable|].
  intros []. apply hoare_ret, intact_recoverable.
Qed.

Lemma next_windows_recoverable :
  hoare recoverable (next_windows_sequence path) (fun _ => recoverable) recoverable.
Proof.
  unfold next_windows_sequence.
  do 2 (eapply hoare_bind; [by apply hoare_step|]; intros []).
  eapply hoare_bind; [by apply read_slot_spec|]. intros s0.
  eapply hoare_bind; [apply read_slot_spec; by intros d [? _]|]. intros s1.
  eapply hoare_bind; [apply recover_intact|]. intros [[c s0'] s1'].
  intros fs d [Hd Hc]. simpl in Hc. destruct (c =? u64_max) eqn:Ec; [by apply intact_recoverable|].
  to_prop. revert fs d Hd. assert (Hnext : in_u 64 (c + 1)) by (unfold in_u, u64_max in *; lia).
  rewrite (wrap_u_id 64 (c + 1)) by done.
  destruct (_ <=? _); [by apply (publish_intact Slot0)|by apply (publish_intact Slot1)].
Qed.

Lemma run_calls_recoverable calls d : recoverable d -> recoverable (run_calls calls d).2.
Proof.
  revert d. induction calls as [|fs calls IH]; intros d Hd; [done|]. simpl.
  pose proof (next_windows_recoverable fs d Hd) as Hn.
  destruct (next_windows_sequence path fs d) as [[[v|msg|] fs'] d']; [|by apply IH..].
  specialize (IH d' Hn). by destruct (run_calls calls d').
Qed.

Lemma run_calls_final last calls d :
  above_last last d ->
  above_last last (run_calls calls d).2 /\
  Forall (fun v => above v (run_calls calls d).2) (run_calls calls d).1.
Proof.
  revert last d. induction calls as [|fs calls IH]; intros last d Hd; [by split; [|constructor]|].
  simpl. pose proof (next_windows_above last fs d Hd) as Hn.
  destruct (next_windows_sequence path fs d) as [[[v|msg|] fs'] d']; [|by apply IH..].
  destruct Hn as [Hv Hlt]. destruct (IH (Some v) d' Hv) as [A F].
  destruct (run_calls calls d') as [issued d'']. simpl in *. split; [|by constructor].
  destruct last as [n|]; [|done]. intros f Hf. destruct (A f Hf) as [E L].
  split; [done|]. intros w Hw. specialize (L w Hw). simpl in *. lia.
Qed.

(** *** Progress without faults *)

Lemma read_slot_ok f d : exists s,
  read_slot path f [] d = (Done s, [], d) /\ slot_ok f s d /\
  (slot_valid s = false -> slot_value s = 0 /\ forall v, ~ holds f v d).
Proof.
  pose proof (read_slot_spec f (fun d' => d' = d) (fun d' => d' = d) (fun _ E => E) [] d eq_refl) as Hs.
  unfold read_slot, catch, bind, read_text_if_exists, read_failed in *. cbn [next_fault] in *.
  destruct (disk_get f d) as [text|] eqn:Ef.
  2:{ eexists. split; [done|]. split; [by apply Hs|]. intros _. split; [done|]. intros v [E _]. congruence. }
  destruct (_ <? _)%nat eqn:Es.
  { eexists. split; [done|]. split; [by apply Hs|]. intros _. split; [done|]. intros v [E Hv].
    rewrite Ef in E. apply Some_inj in E. subst text. apply Nat.ltb_lt in Es.
    pose proof (make_record_length v Hv). lia. }
  destruct (parse_record text (path f)) as [v|msg] eqn:Ep; cbn in *.
  - eexists. split; [done|]. split; [by apply Hs|]. done.
  - eexists. split; [done|]. split; [by apply Hs|]. intros _. split; [done|]. intros v [E Hv].
    rewrite Ef in E. apply Some_inj in E. subst text. by rewrite parse_make_record in Ep.
Qed.

Lemma write_slot_ok f v d : in_u 64 v ->
  write_slot path f v [] d = (Done tt, [], disk_set f (Some (make_record v)) d).
Proof.
  intros Hv. unfold write_slot, bind, durable_write_text, read_text_if_exists. cbn [next_fault].
  rewrite disk_get_set, decide_True by done.
  rewrite (proj2 (Nat.ltb_ge _ _)) by (apply make_record_length; done).
  rewrite parse_make_record by done. cbn. by rewrite Z.eqb_refl.
Qed.

(** [c] is the highest number of an intact slot. *)
Definition highest (d : Disk) (c : Z) : Prop :=
  (exists f, is_slot f = true /\ holds f c d) /\
  forall f v, is_slot f = true -> holds f v d -> v <= c.

Lemma recover_ok s0 s1 d :
  recoverable d -> slot_ok Slot0 s0 d -> slot_ok Slot1 s1 d ->
  (slot_valid s0 = false -> forall v, ~ holds Slot0 v d) ->
  (slot_valid s1 = false -> forall v, ~ holds Slot1 v d) ->
  exists c s0' s1' d', recover path s0 s1 [] d = (Done (c, s0', s1'), [], d') /\ highest d c.
Proof.
  intros (f & v & Hf & Hv) [_ V0] [_ V1] N0 N1.
  assert (Hmax : forall c, (forall w, holds Slot0 w d -> w <= c) -> (forall w, holds Slot1 w d -> w <= c) ->
    forall g w, is_slot g = true -> holds g w d -> w <= c).
  { intros c Hc0 Hc1 [] w Hg Hw; try discriminate Hg; auto. }
  unfold recover. destruct (slot_valid s0), (slot_valid s1); cbn [negb andb].
  - do 4 eexists. split; [done|]. specialize (V0 eq_refl). specialize (V1 eq_refl). split.
    + destruct (Z.max_spec (slot_value s0) (slot_value s1)) as [[_ ->]|[_ ->]]; [by exists Slot1|by exists Slot0].
    + apply Hmax; intros w Hw;
        [rewrite (holds_inj _ _ _ _ Hw V0)|rewrite (holds_inj _ _ _ _ Hw V1)]; lia.
  - do 4 eexists. specialize (V0 eq_refl). unfold bind at 1. rewrite write_slot_ok by apply V0.
    split; [done|]. split; [by exists Slot0|]. apply Hmax; intros w Hw; [by rewrite (holds_inj _ _ _ _ Hw V0)|].
    by apply N1 in Hw.
  - do 4 eexists. specialize (V1 eq_refl). unfold bind at 1. rewrite write_slot_ok by apply V1.
    split; [done|]. split; [by exists Slot1|]. apply Hmax; intros w Hw; [|by rewrite (holds_inj _ _ _ _ Hw V1)].
    by apply N0 in Hw.
  - exfalso. destruct f; try discriminate Hf; [by eapply N0|by eapply N1].
Qed.

Lemma publish_ok f g n d :
  f <> g -> is_slot f = true -> is_slot g = true -> in_u 64 n ->
  exists d', (let* _ := write_slot path f n in let* _ := write_slot path g n in
              let* _ := best_effort_write_legacy n in let* _ := io_step in ret n) [] d = (Done n, [], d') /\
    holds f n d' /\ holds g n d' /\ disk_get Legacy d' = Some (to_string n +:+ newline).
Proof.
  intros Hne Hf Hg Hn. unfold bind at 1. rewrite write_slot_ok by done.
  unfold bind at 1. rewrite write_slot_ok by done. eexists. split; [done|]. split_and!.
  - apply holds_other_file; [done|done|]. apply holds_other; [done|]. by apply holds_set.
  - apply holds_other_file; [done|done|]. by apply holds_set.
  - done.
Qed.

Lemma next_windows_ok d : recoverable d -> exists c, highest d c /\
  if c =? u64_max then (next_windows_sequence path [] d).1.1 = Threw "NAP sequence state is exhausted"
  else exists d', next_windows_sequence path [] d = (Done (c + 1), [], d') /\
         holds Slot0 (c + 1) d' /\ holds Slot1 (c + 1) d' /\
         disk_get Legacy d' = Some (to_string (c + 1) +:+ newline).
Proof.
  intros Hd. destruct (read_slot_ok Slot0 d) as (s0 & R0 & K0 & N0).
  destruct (read_slot_ok Slot1 d) as (s1 & R1 & K1 & N1).
  destruct (recover_ok s0 s1 d) as (c & s0' & s1' & d' & R & Hc); try done; [by apply N0|by apply N1|].
  exists c. split; [done|]. unfold next_windows_sequence.
  do 2 rewrite (bind_done io_step _ [] d tt [] d eq_refl).
  rewrite (bind_done _ _ _ _ _ _ _ R0), (bind_done _ _ _ _ _ _ _ R1), (bind_done _ _ _ _ _ _ _ R).
  destruct (c =? u64_max) eqn:Ec; [done|]. to_prop.
  assert (Hn : in_u 64 (c + 1)).
  { destruct Hc as [(f & _ & [_ Hin]) _]. unfold in_u, u64_max in *. lia. }
  rewrite (wrap_u_id 64 (c + 1)) by done. destruct (_ <=? _).
  - by apply (publish_ok Slot0 Slot1).
  - destruct (publish_ok Slot1 Slot0 (c + 1) d') as (d'' & E & H1 & H2 & H3); try done. by exists d''.
Qed.

(** C30: Crash recovery: as long as one slot was intact to begin with, no history
    of failures and torn writes makes the state unrecoverable; the next allocation
    without faults then returns the highest intact number plus one, which no
    earlier caller got, and leaves both slots (and the legacy mirror) at it. The
    only other outcome is the error that the 64-bit range is exhausted. *)
Theorem sequence_crash_recovery calls d :
  recoverable d ->
  let '(issued, d') := run_calls calls d in
  exists c, highest d' c /\ Forall (fun v => v <= c) issued /\
    if c =? u64_max
    then (next_windows_sequence path [] d').1.1 = Threw "NAP sequence state is exhausted"
    else exists d'', next_windows_sequence path [] d' = (Done (c + 1), [], d'') /\
           holds Slot0 (c + 1) d'' /\ holds Slot1 (c + 1) d'' /\
           disk_get Legacy d'' = Some (to_string (c + 1) +:+ newline).
Proof.
  intros Hd. pose proof (run_calls_recoverable calls d Hd) as Hr.
  destruct (run_calls_final None calls d I) as [_ Hf].
  destruct (run_calls calls d) as [issued d']. simpl in *.
  destruct (next_windows_ok d' Hr) as (c & Hc & Hn). exists c. split; [done|]. split; [|done].
  eapply Forall_impl; [exact Hf|]. intros v Hv. destruct Hc as [(f & Hs & Hh) _]. by apply (Hv f Hs).
Qed.

(** *** Inspection *)

Lemma inspect_read_only fs d : (inspect_nap_sequence_state path true fs d).2 = d.
Proof.
  assert (Hh : hoare (eq d) (inspect_windows_sequence path) (fun _ => eq d) (eq d)).
  { unfold inspect_windows_sequence. eapply hoare_bind; [by apply hoare_step|]. intros [].
    eapply hoare_bind; [by apply read_slot_spec|]. intros s0.
    eapply hoare_bind; [apply read_slot_spec; by intros ? [? _]|]. intros s1.
    eapply hoare_bind with (Q := fun _ => eq d).
    { eapply hoare_weaken; [apply (read_legacy_spec (eq d))|..]; naive_solver. }
    intros s2. eapply hoare_bind with (Q := fun _ => eq d).
    { intros fs' d' <-. unfold read_recovery_marker. by destruct (next_fault fs') as [[] ?]. }
    intros text. eapply hoare_bind; [by apply hoare_step|]. intros []. by apply hoare_ret. }
  specialize (Hh fs d eq_refl). unfold inspect_nap_sequence_state, catch.
  destruct (inspect_windows_sequence path fs d) as [[[] ?] ?]; simpl in *; done.
Qed.

Lemma read_legacy_ok d : exists s, read_legacy path [] d = (Done s, [], d) /\
  (slot_valid s = true -> in_u 64 (slot_value s)).
Proof.
  pose proof (read_legacy_spec (eq d) [] d eq_refl) as Hs.
  unfold read_legacy, catch, bind, read_text_if_exists, read_failed in *. cbn [next_fault] in *.
  destruct (disk_get Legacy d) as [text|]; [|eexists; split; [done|by apply Hs]].
  destruct (_ <? _)%nat; [eexists; split; [done|by apply Hs]|].
  destruct (parse_decimal text (path Legacy)) as [v|msg]; cbn in *; eexists; (split; [done|by apply Hs]).
Qed.

(** The allocation after its recovery, without faults. *)
Lemma next_after_recover s0 s1 c s0' s1' d d' :
  read_slot path Slot0 [] d = (Done s0, [], d) -> read_slot path Slot1 [] d = (Done s1, [], d) ->
  recover path s0 s1 [] d = (Done (c, s0', s1'), [], d') -> in_u 64 c ->
  if c =? u64_max then (next_windows_sequence path [] d).1.1 = Threw "NAP sequence state is exhausted"
  else exists d'', next_windows_sequence path [] d = (Done (c + 1), [], d'').
Proof.
  intros R0 R1 R Hc. unfold next_windows_sequence.
  do 2 rewrite (bind_done io_step _ [] d tt [] d eq_refl).
  rewrite (bind_done _ _ _ _ _ _ _ R0), (bind_done _ _ _ _ _ _ _ R1), (bind_done _ _ _ _ _ _ _ R).
  destruct (c =? u64_max) eqn:Ec; [done|]. to_prop.
  assert (Hn : in_u 64 (c + 1)) by (unfold in_u, u64_max in *; lia).
  rewrite (wrap_u_id 64 (c + 1)) by done.
  destruct (_ <=? _);
    [destruct (publish_ok Slot0 Slot1 (c + 1) d') as (d'' & E & _)
    |destruct (publish_ok Slot1 Slot0 (c + 1) d') as (d'' & E & _)]; try done; by exists d''.
Qed.

Lemma recover_inspected s0 s1 legacy d recovery :
  slot_ok Slot0 s0 d -> slot_ok Slot1 s1 d ->
  read_legacy path [] d = (Done legacy, [], d) -> (slot_valid legacy = true -> in_u 64 (slot_value legacy)) ->
  let status := windows_status s0 s1 legacy recovery in
  if ns_has_sequence status
  then exists s0' s1' d', recover path s0 s1 [] d = (Done (ns_sequence status, s0', s1'), [], d') /\
         in_u 64 (ns_sequence status)
  else exists reason, recover path s0 s1 [] d =
         (Threw ("NAP sequence state is unrecoverable: " +:+ reason), [], d).
Proof.
  intros [X0 V0] [X1 V1] RL VL. unfold windows_status, recover.
  destruct (slot_valid s0), (slot_valid s1); cbn [negb andb orb ns_has_sequence ns_sequence].
  - do 3 eexists. split; [done|]. destruct (V0 eq_refl), (V1 eq_refl). unfold in_u in *; lia.
  - do 3 eexists. split; [|by apply V0]. rewrite (bind_done _ _ _ _ _ _ _ (write_slot_ok Slot1 _ d (proj2 (V0 eq_refl)))).
    done.
  - do 3 eexists. split; [|by apply V1]. rewrite (bind_done _ _ _ _ _ _ _ (write_slot_ok Slot0 _ d (proj2 (V1 eq_refl)))).
    done.
  - destruct (slot_exists s0), (slot_exists s1); cbn [negb andb orb ns_has_sequence ns_sequence];
      try by (eexists; done).
    rewrite (bind_done _ _ _ _ _ _ _ RL).
    destruct (slot_valid legacy); cbn [negb ns_has_sequence ns_sequence]; [|by eexists].
    specialize (VL eq_refl). do 3 eexists. split; [|done].
    rewrite (bind_done _ _ _ _ _ _ _ (write_slot_ok Slot0 _ d VL)).
    by rewrite (bind_done _ _ _ _ _ _ _ (write_slot_ok Slot1 _ _ VL)).
Qed.

(** The health inspection is read-only under every fault, and what it reports
    is what the next allocation does: when it reports a sequence number, the next
    fault-free allocation returns that number plus one (or the exhaustion error
    at the top of the range); when it reports none, the allocation fails with
    the unrecoverable-state error. *)
Theorem inspect_predicts_allocation d :
  (forall fs, (inspect_nap_sequence_state path true fs d).2 = d) /\
  exists status,
    (inspect_nap_sequence_state path true [] d).1.1 = Done status /\
    if ns_has_sequence status then
      if ns_sequence status =? u64_max
      then (next_nap_sequence path true [] d).1.1 = Threw "NAP sequence state is exhausted"
      else exists d', next_nap_sequence path true [] d = (Done (ns_sequence status + 1), [], d')
    else exists reason, (next_nap_sequence path true [] d).1.1 =
           Threw ("NAP sequence state is unrecoverable: " +:+ reason).
Proof.
  split; [intros fs; apply inspect_read_only|].
  destruct (read_slot_ok Slot0 d) as (s0 & R0 & K0 & _), (read_slot_ok Slot1 d) as (s1 & R1 & K1 & _).
  destruct (read_legacy_ok d) as (legacy & RL & VL).
  destruct (read_recovery_marker [] d) as [[[recovery|msg|] fs'] d'] eqn:RM; try done.
  assert (fs' = [] /\ d' = d) as [-> ->] by (unfold read_recovery_marker in RM; simpl in RM; by simplify_eq).
  pose proof (recover_inspected s0 s1 legacy d recovery K0 K1 RL VL) as HR. cbv zeta in HR.
  exists (windows_status s0 s1 legacy recovery). split.
  - unfold inspect_nap_sequence_state, catch, inspect_windows_sequence.
    rewrite (bind_done io_step _ [] d tt [] d eq_refl), (bind_done _ _ _ _ _ _ _ R0),
      (bind_done _ _ _ _ _ _ _ R1), (bind_done _ _ _ _ _ _ _ RL), (bind_done _ _ _ _ _ _ _ RM).
    by rewrite (bind_done io_step _ [] d tt [] d eq_refl).
  - destruct (ns_has_sequence _).
    + destruct HR as (s0' & s1' & d' & HR & Hin). by eapply next_after_recover.
    + destruct HR as [reason HR]. exists reason. unfold next_nap_sequence, next_windows_sequence.
      do 2 rewrite (bind_done io_step _ [] d tt [] d eq_refl).
      rewrite (bind_done _ _ _ _ _ _ _ R0), (bind_done _ _ _ _ _ _ _ R1). unfold bind at 1. by rewrite HR.
Qed.

(** *** Counting from an initial number *)

Definition both_at (n : Z) (d : Disk) : Prop := holds Slot0 n d /\ holds Slot1 n d.

Lemma both_at_next n d : both_at n d -> n < u64_max ->
  exists d', next_windows_sequence path [] d = (Done (n + 1), [], d') /\ both_at (n + 1) d'.
Proof.
  intros [B0 B1] Hn. destruct (next_windows_ok d) as (c & [(f & Hf & Hc) _] & Hok); [by exists Slot0, n|].
  assert (c = n) as -> by (destruct f; try discriminate Hf; by eapply holds_inj).
  rewrite (proj2 (Z.eqb_neq n u64_max)) in Hok by lia.
  destruct Hok as (d' & E & ? & ? & _). by exists d'.
Qed.

Lemma initialize_ok n d : in_u 64 n ->
  exists d', initialize_nap_sequence_state path true n [] d = (Done tt, [], d') /\ both_at n d'.
Proof.
  intros Hn. unfold initialize_nap_sequence_state, initialize_windows_sequence.
  do 2 rewrite (bind_done io_step _ [] d tt [] d eq_refl).
  rewrite (bind_done _ _ _ _ _ _ _ (write_slot_ok Slot0 _ _ Hn)).
  rewrite (bind_done _ _ _ _ _ _ _ (write_slot_ok Slot1 _ _ Hn)).
  eexists. split; [done|]. by split; split.
Qed.

(** A newly enrolled identity counts from its initial number: after a
    fault-free initialization with [n] over any old contents, [k] fault-free
    allocations return exactly [n + 1], ..., [n + k], as long as the range lasts. *)
Theorem initialized_sequence_counts n k d :
  in_u 64 n -> n + Z.of_nat k <= u64_max ->
  exists d', initialize_nap_sequence_state path true n [] d = (Done tt, [], d') /\
    (run_calls (replicate k []) d').1 = seqZ (n + 1) (Z.of_nat k).
Proof.
  intros Hn Hk. destruct (initialize_ok n d Hn) as (d' & E & Hb). exists d'. split; [done|]. clear E.
  revert n d' Hn Hk Hb. induction k as [|k IH]; intros n d' Hn Hk Hb; [done|].
  destruct (both_at_next n d' Hb) as (d'' & E & Hb'); [lia|]. cbn [replicate run_calls]. rewrite E.
  specialize (IH (n + 1) d''). destruct (run_calls (replicate k []) d'') as [issued d3]. simpl.
  simpl in IH. rewrite IH; [|unfold in_u, u64_max in *; lia|lia|done].
  rewrite (seqZ_cons (n + 1)) by lia. unfold Z.succ. do 2 f_equal; lia.
Qed.

(** *** A crash while migrating the legacy file *)

Definition legacy_only (n : Z) : Disk := MkDisk None None (Some (to_string n +:+ newline)) None.

(** Completed: directory, lock, the two slot reads, the legacy read; the crash is
    in the write of the first slot, of which [k] bytes reached the disk. *)
Definition crash_in_migration (k : nat) : list io_fault :=
  [IoDone; IoDone; IoDone; IoDone; IoDone; IoCrashes (Some k)].

Lemma read_slot_missing f fs fs' d :
  next_fault fs = (IoDone, fs') -> disk_get f d = None -> read_slot path f fs d = (Done no_slot, fs', d).
Proof.
  intros E Ed. unfold read_slot, catch, bind, read_text_if_exists. by rewrite E, Ed.
Qed.

Lemma read_slot_torn n k d :
  in_u 64 n -> (k < String.length (make_record n))%nat ->
  disk_get Slot0 d = Some (substr (make_record n) 0 k) ->
  exists msg, read_slot path Slot0 [] d = (Done (MkSlotState true false 0 msg), [], d).
Proof.
  intros Hn Hk E. unfold read_slot, catch, bind, read_text_if_exists, read_failed.
  cbn [next_fault]. rewrite E. destruct (_ <? _)%nat; [eexists; by rewrite ?E|].
  destruct (parse_record _ (path Slot0)) as [v|msg] eqn:Ep;
    [|eexists; cbn in *; rewrite E; reflexivity].
  apply torn_record in Ep as [_ Ep]; [|done]. apply (f_equal String.length) in Ep.
  rewrite substr_length in Ep. lia.
Qed.

(** The migration from the legacy file is not crash-safe: if the process
    dies while the first slot is being written, the slot exists but is invalid, and
    although the legacy file still holds the validated number, every later
    allocation is refused as unrecoverable. *)
Theorem migration_crash_unrecoverable n k :
  in_u 64 n -> (k < String.length (make_record n))%nat ->
  exists d', next_windows_sequence path (crash_in_migration k) (legacy_only n) = (Crashed, [], d') /\
    parse_decimal (default "" (disk_get Legacy d')) (path Legacy) = Ok n /\
    next_windows_sequence path [] d' =
      (Threw "NAP sequence state is unrecoverable: both redundant slots are invalid", [], d').
Proof.
  intros Hn Hk. exists (MkDisk (Some (substr (make_record n) 0 k)) None (Some (to_string n +:+ newline)) None).
  split_and!.
  - assert (RL : read_legacy path [IoDone; IoCrashes (Some k)] (legacy_only n) =
                 (Done (MkSlotState true true n ""), [IoCrashes (Some k)], legacy_only n)).
    { unfold read_legacy, catch, bind, read_text_if_exists. cbn [next_fault disk_get legacy_only d_legacy].
      rewrite (proj2 (Nat.ltb_ge _ _)) by
        (rewrite string_length_app; pose proof (to_string_length n Hn); unfold kMaxLegacySequenceBytes; cbn; lia).
      by rewrite (proj2 (parse_decimal_to_string n (path Legacy) Hn)). }
    unfold next_windows_sequence, crash_in_migration.
    do 2 rewrite (bind_done io_step _ _ _ _ _ _ (io_step_done _ _ _ (next_fault_cons _))).
    rewrite (bind_done _ _ _ _ _ _ _ (read_slot_missing Slot0 _ _ (legacy_only n) (next_fault_cons _) eq_refl)).
    rewrite (bind_done _ _ _ _ _ _ _ (read_slot_missing Slot1 _ _ (legacy_only n) (next_fault_cons _) eq_refl)).
    unfold recover. cbn [no_slot slot_valid slot_exists negb andb orb].
    unfold bind at 1. by rewrite (bind_done _ _ _ _ _ _ _ RL).
  - by apply parse_decimal_to_string.
  - set (d' := MkDisk _ None _ None).
    destruct (read_slot_torn n k d' Hn Hk eq_refl) as [msg RS]. unfold next_windows_sequence.
    do 2 rewrite (bind_done io_step _ _ _ _ _ _ (io_step_done [] [] _ eq_refl)).
    rewrite (bind_done _ _ _ _ _ _ _ RS).
    by rewrite (bind_done _ _ _ _ _ _ _ (read_slot_missing Slot1 [] [] d' eq_refl eq_refl)).
Qed.
End AllocationProofs.

(** *** The POSIX file *)

Section PosixProofs.
Context `{Sha256} (path : SeqFile -> string).

Lemma read_legacy_text_ok d text :
  disk_get Legacy d = Some text -> (String.length text <= kMaxLegacySequenceBytes)%nat ->
  read_legacy_text path [] d = (Done text, [], d).
Proof. intros Hd Hl. unfold read_legacy_text. cbn [next_fault]. by rewrite Hd, (proj2 (Nat.ltb_ge _ _)). Qed.

(** The POSIX allocation: with a valid decimal number [n] in the state file
    the fault-free allocation returns [n + 1] and leaves it in the file as text
    that reads back, for the allocation and for the inspection; at the top of the
    64-bit range it reports exhaustion and leaves the file alone. *)
Theorem posix_allocation d text n :
  disk_get Legacy d = Some text -> (String.length text <= kMaxLegacySequenceBytes)%nat ->
  parse_decimal text (path Legacy) = Ok n ->
  if n =? u64_max
  then next_nap_sequence path false [] d =
         (Threw ("NAP sequence state exhausted at " +:+ path Legacy), [], d)
  else exists d', next_nap_sequence path false [] d = (Done (n + 1), [], d') /\
    disk_get Legacy d' = Some (to_string (n + 1) +:+ newline) /\
    (inspect_nap_sequence_state path false [] d').1.1 =
      Done (MkNapSequenceStatus Healthy true (n + 1) false false true "legacy sequence state is valid" "").
Proof.
  intros Hd Hl Hp. pose proof (parse_decimal_range _ _ _ Hp) as Hn.
  unfold next_nap_sequence, next_posix_sequence.
  do 2 rewrite (bind_done io_step _ _ _ _ _ _ (io_step_done [] [] d eq_refl)).
  rewrite (bind_done (is_regular_file Legacy) _ [] d true [] d) by (unfold is_regular_file; by rewrite Hd).
  cbn [negb].
  rewrite (bind_done _ _ _ _ _ _ _ (read_legacy_text_ok d text Hd Hl)), Hp.
  rewrite (bind_done (lift (Ok n)) _ [] d n [] d eq_refl).
  destruct (n =? u64_max) eqn:E; [done|]. to_prop.
  assert (Hn' : in_u 64 (n + 1)) by (unfold in_u, u64_max in *; lia).
  rewrite (wrap_u_id 64 (n + 1)) by done. eexists. split; [done|]. split; [done|].
  unfold inspect_nap_sequence_state, inspect_posix_sequence, catch at 1. set (d' := disk_set _ _ _).
  rewrite (bind_done io_step _ _ _ _ _ _ (io_step_done [] [] d' eq_refl)).
  assert (Hl' : (String.length (to_string (n + 1) +:+ newline) <= kMaxLegacySequenceBytes)%nat).
  { rewrite string_length_app. pose proof (to_string_length _ Hn'). unfold kMaxLegacySequenceBytes. cbn. lia. }
  rewrite (bind_done _ _ _ _ _ _ _ (read_legacy_text_ok d' _ eq_refl Hl')).
  by rewrite (proj2 (parse_decimal_to_string _ (path Legacy) Hn')).
Qed.
End PosixProofs.

(** *** Concrete runs *)

#[local] Existing Instance sum_digest.
#[local] Existing Instance sum_digest_laws.

Definition seq_path (f : SeqFile) : string :=
  match f with
  | Slot0 => "sequence.0" | Slot1 => "sequence.1" | Legacy => "sequence" | Recovery => "sequence.recovery"
  end.

Lemma posix_allocation_witness : exists d',
  next_nap_sequence seq_path false [] (legacy_only 41) = (Done 42, [], d') /\
  disk_get Legacy d' = Some (to_string 42 +:+ newline) /\
  (inspect_nap_sequence_state seq_path false [] d').1.1 =
    Done (MkNapSequenceStatus Healthy true 42 false false true "legacy sequence state is valid" "").
Proof.
  apply (posix_allocation seq_path (legacy_only 41) (to_string 41 +:+ newline) 41); try reflexivity.
  apply Nat.leb_le. reflexivity.
Defined.

(** On POSIX a torn write can make a number be used again: the numbers up to
    99 have been returned when the process dies after two of the four bytes of the
    next number are in the file; the file then holds a valid smaller number, and the
    following allocation returns 11. *)
Theorem posix_torn_write_reuses :
  let '(crashed, _, d) :=
    next_nap_sequence seq_path false [IoDone; IoDone; IoDone; IoCrashes (Some 2%nat)] (legacy_only 99) in
  crashed = Crashed /\ (next_nap_sequence seq_path false [] d).1.1 = Done 11.
Proof. by vm_compute. Qed.

Definition demo_disk : Disk := MkDisk (Some (make_record 41)) (Some "garbage") None None.

Lemma sequence_crash_recovery_witness :
  let calls := [[]; [IoDone; IoDone; IoDone; IoDone; IoDone; IoCrashes (Some 7%nat)]] in
  let '(issued, d') := run_calls seq_path calls demo_disk in
  exists c, highest d' c /\ Forall (fun v => v <= c) issued /\
    if c =? u64_max
    then (next_windows_sequence seq_path [] d').1.1 = Threw "NAP sequence state is exhausted"
    else exists d'', next_windows_sequence seq_path [] d' = (Done (c + 1), [], d'') /\
           holds Slot0 (c + 1) d'' /\ holds Slot1 (c + 1) d'' /\
           disk_get Legacy d'' = Some (to_string (c + 1) +:+ newline).
Proof.
  apply (sequence_crash_recovery seq_path). exists Slot0, 41. split; [reflexivity|].
  split; [reflexivity|]. unfold in_u. lia.
Defined.

Lemma initialized_sequence_counts_witness : exists d',
  initialize_nap_sequence_state seq_path true 7 [] demo_disk = (Done tt, [], d') /\
  (run_calls seq_path (replicate 3 []) d').1 = [8; 9; 10].
Proof. apply (initialized_sequence_counts seq_path 7 3 demo_disk); unfold in_u, u64_max; lia. Defined.

Lemma migration_crash_unrecoverable_witness : exists d',
  next_windows_sequence seq_path (crash_in_migration 5) (legacy_only 41) = (Crashed, [], d') /\
  parse_decimal (default "" (disk_get Legacy d')) (seq_path Legacy) = Ok 41 /\
  next_windows_sequence seq_path [] d' =
    (Threw "NAP sequence state is unrecoverable: both redundant slots are invalid", [], d').
Proof.
  apply (migration_crash_unrecoverable seq_path 41 5); [unfold in_u; lia|].
  apply Nat.ltb_lt. vm_compute. reflexivity.
Defined.

(** Three allocations from the damaged state, the second one killed while its second
    slot is being written. *)
Definition demo_calls : list (list io_fault) :=
  [[]; [IoDone; IoDone; IoDone; IoDone; IoDone; IoCrashes (Some 7%nat)]; []].

Lemma sequence_never_reused_witness :
  StronglySorted Z.lt (run_calls seq_path demo_calls demo_disk).1 /\
  (run_calls seq_path demo_calls demo_disk).1 <> [].
Proof.
  split; [exact (sequence_never_reused seq_path demo_calls demo_disk)|]. vm_compute. intros E. discriminate E.
Defined.

Lemma inspect_predicts_allocation_witness :
  (forall fs, (inspect_nap_sequence_state seq_path true fs demo_disk).2 = demo_disk) /\
  exists status, (inspect_nap_sequence_state seq_path true [] demo_disk).1.1 = Done status.
Proof.
  destruct (inspect_predicts_allocation seq_path demo_disk) as [Hr (status & Hs & _)].
  split; [exact Hr|]. exists status. exact Hs.
Defined.
