(* ===== verification/OutboundQueue.v ===== *)
(** The durable outbound queue ([src/core/outbound_queue.cpp],
    [include/neta/outbound_queue.hpp], [src/core/outbound_message.cpp]).

    The two SQLite tables are the state [Outbox]: [outbound_messages] as a list of
    rows, [outbound_metadata] as a record of its five counters.  Every SQL
    statement of the source is a function on that state, written next to the
    operation that runs it.  Rows that tie under an [ORDER BY] are taken in table
    order; the theorems only use that the row is a least one.  An operation
    between [BEGIN IMMEDIATE] and [COMMIT] that throws is rolled back.

    The theorems: the table's uniqueness constraints are never violated and event
    ids are never reused; producers are idempotent; the byte budget holds after
    every operation, and room is made exactly when it can be made by dropping
    unattempted low-priority rows, which are counted; ready messages are delivered
    by priority and age, acknowledged ones never. *)

From stdpp Require Import sorting.
From S2P Require Import Prelude Text Wire Crypto.

#[local] Arguments String.append !_ _ /.

(** ** Values *)

Inductive OutboundState := Pending | InFlight | Acknowledged | DeadLetter.
#[global] Instance OutboundState_eq_dec : EqDecision OutboundState.
Proof. solve_decision. Defined.

Definition outbound_state_to_string (state : OutboundState) : string :=
  match state with
  | Pending => "PENDING" | InFlight => "IN_FLIGHT"
  | Acknowledged => "ACKED" | DeadLetter => "DEAD_LETTER"
  end.

Definition state_from_string (value : string) : OutboundState :=
  if bool_decide (value = "PENDING") then Pending
  else if bool_decide (value = "IN_FLIGHT") then InFlight
  else if bool_decide (value = "ACKED") then Acknowledged
  else DeadLetter.

(** SQLite's [length] of a text: its number of UTF-8 characters, counted as the
    bytes that are not continuation bytes of a lead byte. *)
Fixpoint sql_length_from (in_sequence : bool) (s : string) : Z :=
  match s with
  | EmptyString => 0
  | String c s' =>
      if in_sequence && (128 <=? code c) && (code c <? 192) then sql_length_from true s'
      else 1 + sql_length_from (192 <=? code c) s'
  end.
Definition sql_length (s : string) : Z := sql_length_from false s.

(** [CAST(text AS INTEGER)]: white space, a sign, the longest run of digits (0 if
    there is none), clamped to the signed 64-bit range. *)
Definition sql_cast_integer (s : string) : Z :=
  let s := drop_while isspace s in
  let '(negative, s) :=
    match s with
    | String c s' => if code c =? 45 then (true, s') else if code c =? 43 then (false, s') else (false, s)
    | EmptyString => (false, s)
    end in
  let value := digits_value 0 (take_while isdigit s) in
  if negative : bool then Z.max (- 2 ^ 63) (- value) else Z.min (2 ^ 63 - 1) value.

Record Row := MkRow {
  om_event_id : string;
  om_event_counter : Z;
  om_producer_key : string;
  om_message_type : string;
  om_finding_type : string;
  om_finding_key : string;
  om_priority : Z;
  om_payload_json : string;
  om_payload_hash : string;
  om_created_at_ns : Z;
  om_state : OutboundState;
  om_attempt_message_id : option string;
  om_attempt_sequence : option Z;
  om_attempt_envelope_json : option string;
  om_attempt_expires_at_ns : option Z;
  om_attempt_count : Z;
  om_next_attempt_at_ns : Z;
  om_last_attempt_at_ns : option Z;
  om_last_error : option string;
  om_ack_status : option string;
  om_ack_received_at_ns : option Z;
  om_server_received_at : option string }.

#[global] Instance Row_eq_dec : EqDecision Row.
Proof. solve_decision. Defined.

Record Metadata := MkMetadata {
  md_next_event_counter : Z;
  md_dropped_low_priority : Z;
  md_reported_dropped_low_priority : Z;
  md_coalesced : Z;
  md_last_ack_ns : Z }.

Record Outbox := MkOutbox { ob_rows : list Row; ob_meta : Metadata }.

(** The tables after [initialize_schema] on a new database. *)
Definition initialize_schema : Outbox := MkOutbox [] (MkMetadata 1 0 0 0 0).

(** The message handed to the dispatcher. *)
Record OutboundMessage := MkOutboundMessage {
  mg_event_id : string;
  mg_event_counter : Z;
  mg_producer_key : string;
  mg_message_type : string;
  mg_finding_type : string;
  mg_finding_key : string;
  mg_priority : Z;
  mg_payload_json : string;
  mg_payload_hash : string;
  mg_state : OutboundState;
  mg_attempt_message_id : string;
  mg_attempt_sequence : Z;
  mg_attempt_envelope_json : string;
  mg_attempt_expires_at_ns : Z;
  mg_attempt_count : Z }.

Record CoordinatorAck := MkCoordinatorAck {
  ack_protocol : string;
  ack_schema_version : Z;
  ack_message_type : string;
  ack_version : Z;
  ack_message_id : string;
  ack_sequence : Z;
  ack_idempotency_key : string;
  ack_payload_hash : string;
  ack_status : string;
  ack_received_at : string }.

(** ** SQL building blocks *)

(** [ORDER BY k1, k2 LIMIT 1]. *)
Definition key_lt (a b : Z * Z) : bool := (a.1 <? b.1) || ((a.1 =? b.1) && (a.2 <? b.2)).

Fixpoint first_by {A} (key : A -> Z * Z) (l : list A) : option A :=
  match l with
  | [] => None
  | x :: l' =>
      match first_by key l' with
      | None => Some x
      | Some y => if key_lt (key y) (key x) then Some y else Some x
      end
  end.

Definition map_rows (f : list Row -> list Row) (ob : Outbox) : Outbox :=
  MkOutbox (f (ob_rows ob)) (ob_meta ob).

Definition map_meta (f : Metadata -> Metadata) (ob : Outbox) : Outbox :=
  MkOutbox (ob_rows ob) (f (ob_meta ob)).

(** [UPDATE outbound_messages SET ... WHERE event_id=?]. *)
Definition update_event (event_id : string) (f : Row -> Row) (rows : list Row) : list Row :=
  (fun r => if bool_decide (om_event_id r = event_id) then f r else r) <$> rows.

(** [sqlite3_changes] of that update. *)
Definition count_event (event_id : string) (rows : list Row) : nat :=
  length (filter (fun r => om_event_id r = event_id) rows).

(** [try { BEGIN; body; COMMIT } catch (...) { ROLLBACK; throw; }] *)
Definition transaction {A} (body : Outbox -> result (A * Outbox)) (ob : Outbox) : result A * Outbox :=
  match body ob with
  | Ok (a, ob') => (Ok a, ob')
  | Throw message => (Throw message, ob)
  end.

(** ** The byte budget *)

Definition open_row (r : Row) : bool := negb (bool_decide (om_state r = Acknowledged)).

Definition row_bytes (r : Row) : Z :=
  sql_length (om_payload_json r) + from_option sql_length 0 (om_attempt_envelope_json r) + 512.

(** [SELECT COALESCE(SUM(...),0) FROM outbound_messages WHERE state<>'ACKED']. *)
Definition used_bytes (rows : list Row) : Z :=
  foldr (fun r acc => (if open_row r then row_bytes r else 0) + acc) 0 rows.

(** [NULL]s sort first. *)
Definition ack_key (r : Row) : Z := value_or (om_ack_received_at_ns r) (- 2 ^ 64).

Definition acked_before (r1 r2 : Row) : Prop := ack_key r1 <= ack_key r2.
#[global] Instance acked_before_dec : RelDecision acked_before.
Proof. intros r1 r2. unfold acked_before. apply _. Defined.

(** [remove_acked]: the 256 rows acknowledged first. *)
Definition remove_acked (rows : list Row) : list Row :=
  let victims := om_event_id <$> take 256 (merge_sort acked_before
                   (filter (fun r => om_state r = Acknowledged) rows)) in
  filter (fun r => om_event_id r ∉ victims) rows.

Definition low_row (r : Row) : bool :=
  bool_decide (om_state r = Pending) && (om_attempt_count r =? 0) && (om_priority r <=? 1).

Definition oldest_low (rows : list Row) : option Row :=
  first_by (fun r => (om_priority r, om_created_at_ns r)) (filter (fun r => low_row r = true) rows).

Definition count_dropped (m : Metadata) : Metadata :=
  MkMetadata (md_next_event_counter m) (md_dropped_low_priority m + 1)
    (md_reported_dropped_low_priority m) (md_coalesced m) (md_last_ack_ns m).

(** [required_bytes > max_bytes_ || used > max_bytes_ - required_bytes] *)
Definition over_budget (max_bytes required_bytes : Z) (ob : Outbox) : bool :=
  (max_bytes <? required_bytes) || (wrap_u 64 (max_bytes - required_bytes) <? used_bytes (ob_rows ob)).

(** The loop of [enforce_budget]; every round deletes a row, so the number of rows
    bounds the rounds. *)
Fixpoint remove_low_loop (fuel : nat) (max_bytes required_bytes : Z) (ob : Outbox) : result Outbox :=
  if negb (over_budget max_bytes required_bytes ob) then Ok ob
  else
    match fuel with
    | O => Throw "outbound queue capacity is reserved for important findings"
    | S fuel' =>
        match oldest_low (ob_rows ob) with
        | None => Throw "outbound queue capacity is reserved for important findings"
        | Some victim =>
            remove_low_loop fuel' max_bytes required_bytes
              (map_meta count_dropped
                 (map_rows (filter (fun r => om_event_id r <> om_event_id victim)) ob))
        end
    end.

Definition enforce_budget (max_bytes required_bytes : Z) (ob : Outbox) : result Outbox :=
  if max_bytes =? 0 then Ok ob
  else if negb (over_budget max_bytes required_bytes ob) then Ok ob
  else
    let ob := map_rows remove_acked ob in
    remove_low_loop (length (ob_rows ob)) max_bytes required_bytes ob.

(** ** Operations *)

Section Operations.
Context (agent_id : string) (max_bytes : Z).

Definition find_producer (producer_key : string) (rows : list Row) : string :=
  match filter (fun r => om_producer_key r = c_str producer_key) rows with
  | [] => ""
  | r :: _ => om_event_id r
  end.

Definition new_row (event_id : string) (counter : Z)
    (producer_key message_type finding_type finding_key : string) (priority : Z)
    (payload_json payload_hash : string) (now_ns : Z) : Row :=
  MkRow (c_str event_id) (wrap_s 64 counter) (c_str producer_key) (c_str message_type)
    (c_str finding_type) (c_str finding_key) priority (c_str payload_json) (c_str payload_hash)
    (wrap_s 64 now_ns) Pending None None None None 0 (wrap_s 64 now_ns) None None None None None.

(** [INSERT], which the primary key and the two [UNIQUE] constraints may refuse. *)
Definition insert_row (r : Row) (rows : list Row) : result (list Row) :=
  if existsb (fun r' => bool_decide (om_event_id r' = om_event_id r)) rows
  then Throw "UNIQUE constraint failed: outbound_messages.event_id"
  else if existsb (fun r' => om_event_counter r' =? om_event_counter r) rows
  then Throw "UNIQUE constraint failed: outbound_messages.event_counter"
  else if existsb (fun r' => bool_decide (om_producer_key r' = om_producer_key r)) rows
  then Throw "UNIQUE constraint failed: outbound_messages.producer_key"
  else Ok (rows ++ [r]).

Definition enqueue (producer_key message_type finding_type finding_key : string) (priority : Z)
    (payload_json payload_hash : string) (now_ns : Z) : Outbox -> result string * Outbox :=
  transaction (fun ob =>
    let existing_event := find_producer producer_key (ob_rows ob) in
    if negb (bool_decide (existing_event = "")) then
      Ok (existing_event,
          map_meta (fun m => MkMetadata (md_next_event_counter m) (md_dropped_low_priority m)
            (md_reported_dropped_low_priority m) (md_coalesced m + 1) (md_last_ack_ns m)) ob)
    else
      let? ob := enforce_budget max_bytes (wrap_u 64 (Z.of_nat (String.length payload_json) + 512)) ob in
      let value := wrap_u 64 (md_next_event_counter (ob_meta ob)) in
      let event_id := agent_id +:+ ":" +:+ to_string value in
      let? rows := insert_row (new_row event_id value producer_key message_type finding_type
                     finding_key priority payload_json payload_hash now_ns) (ob_rows ob) in
      Ok (event_id,
          map_meta (fun m => MkMetadata (md_next_event_counter m + 1) (md_dropped_low_priority m)
            (md_reported_dropped_low_priority m) (md_coalesced m) (md_last_ack_ns m))
            (MkOutbox rows (ob_meta ob)))).

Definition message_of_row (r : Row) : OutboundMessage :=
  MkOutboundMessage (om_event_id r) (wrap_u 64 (om_event_counter r)) (om_producer_key r)
    (om_message_type r) (om_finding_type r) (om_finding_key r) (om_priority r) (om_payload_json r)
    (om_payload_hash r) (om_state r) (value_or (om_attempt_message_id r) "")
    (wrap_u 64 (value_or (om_attempt_sequence r) 0)) (value_or (om_attempt_envelope_json r) "")
    (wrap_u 64 (value_or (om_attempt_expires_at_ns r) 0)) (wrap_u 64 (om_attempt_count r)).

Definition is_ready (now_ns : Z) (r : Row) : bool :=
  (bool_decide (om_state r = Pending) || bool_decide (om_state r = InFlight)) &&
  (om_next_attempt_at_ns r <=? wrap_s 64 now_ns).

Definition ready_row (now_ns : Z) (ob : Outbox) : option Row :=
  first_by (fun r => (- om_priority r, om_created_at_ns r))
    (filter (fun r => is_ready now_ns r = true) (ob_rows ob)).

Definition next_ready (now_ns : Z) (ob : Outbox) : option OutboundMessage :=
  message_of_row <$> ready_row now_ns ob.

Definition set_state (state : OutboundState) (r : Row) : Row :=
  MkRow (om_event_id r) (om_event_counter r) (om_producer_key r) (om_message_type r)
    (om_finding_type r) (om_finding_key r) (om_priority r) (om_payload_json r) (om_payload_hash r)
    (om_created_at_ns r) state (om_attempt_message_id r) (om_attempt_sequence r)
    (om_attempt_envelope_json r) (om_attempt_expires_at_ns r) (om_attempt_count r)
    (om_next_attempt_at_ns r) (om_last_attempt_at_ns r) (om_last_error r) (om_ack_status r)
    (om_ack_received_at_ns r) (om_server_received_at r).

Definition set_attempt (m : OutboundMessage) (now_ns : Z) (r : Row) : Row :=
  MkRow (om_event_id r) (om_event_counter r) (om_producer_key r) (om_message_type r)
    (om_finding_type r) (om_finding_key r) (om_priority r) (om_payload_json r) (om_payload_hash r)
    (om_created_at_ns r) InFlight (Some (c_str (mg_attempt_message_id m)))
    (Some (wrap_s 64 (mg_attempt_sequence m))) (Some (c_str (mg_attempt_envelope_json m)))
    (Some (wrap_s 64 (mg_attempt_expires_at_ns m))) (om_attempt_count r + 1)
    (om_next_attempt_at_ns r) (Some (wrap_s 64 now_ns)) None (om_ack_status r)
    (om_ack_received_at_ns r) (om_server_received_at r).

Definition store_attempt (m : OutboundMessage) (now_ns : Z) : Outbox -> result unit * Outbox :=
  transaction (fun ob =>
    let id := c_str (mg_event_id m) in
    let disappeared := Throw "outbound event disappeared before its attempt was stored" in
    if negb (count_event id (ob_rows ob) =? 1)%nat then disappeared
    else
      let ob := map_rows (update_event id (set_state InFlight)) ob in
      match filter (fun r => om_event_id r = id) (ob_rows ob) with
      | [] => disappeared
      | r :: _ =>
          let existing_bytes := wrap_u 64 (sql_length (value_or (om_attempt_envelope_json r) "")) in
          let attempt_bytes := wrap_u 64 (Z.of_nat (String.length (mg_attempt_envelope_json m))) in
          let? ob := if existing_bytes <? attempt_bytes
                     then enforce_budget max_bytes (attempt_bytes - existing_bytes) ob else Ok ob in
          Ok (tt, map_rows (update_event id (set_attempt m now_ns)) ob)
      end).

Definition set_retry (next_attempt_ns : Z) (error : string) (r : Row) : Row :=
  MkRow (om_event_id r) (om_event_counter r) (om_producer_key r) (om_message_type r)
    (om_finding_type r) (om_finding_key r) (om_priority r) (om_payload_json r) (om_payload_hash r)
    (om_created_at_ns r) Pending (om_attempt_message_id r) (om_attempt_sequence r)
    (om_attempt_envelope_json r) (om_attempt_expires_at_ns r) (om_attempt_count r)
    (wrap_s 64 next_attempt_ns) (om_last_attempt_at_ns r) (Some (c_str (substr error 0 1024)))
    (om_ack_status r) (om_ack_received_at_ns r) (om_server_received_at r).

Definition mark_retry (event_id : string) (next_attempt_ns : Z) (error : string) (ob : Outbox) : Outbox :=
  map_rows (update_event (c_str event_id) (set_retry next_attempt_ns error)) ob.

Definition set_dead (error : string) (r : Row) : Row :=
  MkRow (om_event_id r) (om_event_counter r) (om_producer_key r) (om_message_type r)
    (om_finding_type r) (om_finding_key r) (om_priority r) (om_payload_json r) (om_payload_hash r)
    (om_created_at_ns r) DeadLetter (om_attempt_message_id r) (om_attempt_sequence r)
    (om_attempt_envelope_json r) (om_attempt_expires_at_ns r) (om_attempt_count r)
    (om_next_attempt_at_ns r) (om_last_attempt_at_ns r) (Some (c_str (substr error 0 1024)))
    (om_ack_status r) (om_ack_received_at_ns r) (om_server_received_at r).

Definition mark_dead_letter (event_id error : string) (ob : Outbox) : Outbox :=
  map_rows (update_event (c_str event_id) (set_dead error)) ob.

Definition set_acked (ack : CoordinatorAck) (now_ns : Z) (r : Row) : Row :=
  MkRow (om_event_id r) (om_event_counter r) (om_producer_key r) (om_message_type r)
    (om_finding_type r) (om_finding_key r) (om_priority r) (om_payload_json r) (om_payload_hash r)
    (om_created_at_ns r) Acknowledged (om_attempt_message_id r) (om_attempt_sequence r)
    (om_attempt_envelope_json r) (om_attempt_expires_at_ns r) (om_attempt_count r)
    (om_next_attempt_at_ns r) (om_last_attempt_at_ns r) None (Some (c_str (ack_status ack)))
    (Some (wrap_s 64 now_ns)) (Some (c_str (ack_received_at ack))).

(** The number a telemetry-gap marker with this id reports, if it is one. *)
Definition gap_value (event_id : string) (rows : list Row) : option Z :=
  match filter (fun r => om_event_id r = event_id /\ om_finding_type r = "TELEMETRY_GAP") rows with
  | [] => None
  | r :: _ => Some (sql_cast_integer (om_finding_key r))
  end.

Definition mark_acknowledged (event_id : string) (ack : CoordinatorAck) (now_ns : Z) (ob : Outbox) : Outbox :=
  let ob := map_rows (update_event (c_str event_id) (set_acked ack now_ns)) ob in
  let reported := gap_value (c_str event_id) (ob_rows ob) in
  map_meta (fun m =>
    let old := md_reported_dropped_low_priority m in
    MkMetadata (md_next_event_counter m) (md_dropped_low_priority m)
      (Z.max old (value_or reported old)) (md_coalesced m) (wrap_s 64 now_ns)) ob.

Definition is_acknowledged (event_id : string) (ob : Outbox) : bool :=
  existsb (fun r => bool_decide (om_event_id r = c_str event_id) && negb (open_row r)) (ob_rows ob).

Record OutboundQueueStatus := MkOutboundQueueStatus {
  qs_pending : Z; qs_in_flight : Z; qs_acknowledged : Z; qs_dead_letter : Z;
  qs_logical_bytes : Z; qs_dropped_low_priority : Z; qs_coalesced : Z;
  qs_oldest_pending_ns : Z; qs_last_ack_ns : Z }.

Definition count_state (state : OutboundState) (rows : list Row) : Z :=
  Z.of_nat (length (filter (fun r => om_state r = state) rows)).

Definition oldest_open (rows : list Row) : Z :=
  from_option om_created_at_ns 0
    (first_by (fun r => (om_created_at_ns r, 0))
       (filter (fun r => om_state r = Pending \/ om_state r = InFlight) rows)).

Definition status (ob : Outbox) : OutboundQueueStatus :=
  let rows := ob_rows ob in let m := ob_meta ob in
  MkOutboundQueueStatus (count_state Pending rows) (count_state InFlight rows)
    (count_state Acknowledged rows) (count_state DeadLetter rows)
    (foldr (fun r acc => row_bytes r + acc) 0 rows)
    (wrap_u 64 (md_dropped_low_priority m)) (wrap_u 64 (md_coalesced m))
    (wrap_u 64 (oldest_open rows)) (wrap_u 64 (md_last_ack_ns m)).

Definition quote : string := String "034" "".

Definition gap_payload (dropped : Z) : string :=
  "{" +:+ quote +:+ "telemetry_gap" +:+ quote +:+ ":{" +:+ quote +:+ "reason" +:+ quote +:+ ":" +:+
  quote +:+ "outbox_capacity" +:+ quote +:+ "," +:+ quote +:+ "dropped_low_priority" +:+ quote +:+ ":" +:+
  to_string dropped +:+ "}}".

Definition open_gap_marker (rows : list Row) : bool :=
  existsb (fun r => bool_decide (om_finding_type r = "TELEMETRY_GAP") &&
    (bool_decide (om_state r = Pending) || bool_decide (om_state r = InFlight))) rows.

Definition enqueue_gap_marker `{Sha256} (now_ns : Z) (ob : Outbox) : result unit * Outbox :=
  let dropped := wrap_u 64 (md_dropped_low_priority (ob_meta ob)) in
  let reported := wrap_u 64 (md_reported_dropped_low_priority (ob_meta ob)) in
  if dropped <=? reported then (Ok tt, ob)
  else if open_gap_marker (ob_rows ob) then (Ok tt, ob)
  else
    let body := gap_payload dropped in
    match enqueue ("EvidenceSummary:TelemetryGap:" +:+ to_string dropped)
            "EvidenceSummary" "TELEMETRY_GAP" (to_string dropped) 4
            body ("sha256:" +:+ sha256_hex body) now_ns ob with
    | (Ok _, ob') => (Ok tt, ob')
    | (Throw message, ob') => (Throw message, ob')
    end.

Definition prune_acknowledged (older_than_ns : Z) (ob : Outbox) : Outbox :=
  map_rows (filter (fun r =>
    negb (open_row r) && from_option (fun t => t <? wrap_s 64 older_than_ns) false (om_ack_received_at_ns r)
    = false)) ob.
End Operations.

(** ** Lists of rows *)

Abbreviation ids rows := (om_event_id <$> rows).

Lemma first_by_spec {A} (key : A -> Z * Z) l x :
  first_by key l = Some x -> x ∈ l /\ forall y, y ∈ l -> key_lt (key y) (key x) = false.
Proof.
  assert (T : forall a b c, key_lt a b = false -> key_lt b c = false -> key_lt a c = false).
  { intros [a1 a2] [b1 b2] [c1 c2]. unfold key_lt. simpl. rewrite !orb_false_iff, !andb_false_iff,
      !Z.ltb_ge, !Z.eqb_neq. lia. }
  assert (L : forall a b, key_lt a b = true -> key_lt b a = false).
  { intros [a1 a2] [b1 b2]. unfold key_lt. simpl. rewrite !orb_false_iff, !andb_false_iff, !orb_true_iff,
      !andb_true_iff, !Z.ltb_ge, !Z.ltb_lt, !Z.eqb_neq, !Z.eqb_eq. lia. }
  assert (R : forall a, key_lt a a = false).
  { intros [a1 a2]. unfold key_lt. simpl. by rewrite !Z.ltb_irrefl, andb_false_r. }
  revert x. induction l as [|z l IH]; intros x; simpl; [done|].
  destruct (first_by key l) as [y|] eqn:E.
  - destruct (IH y eq_refl) as [Hy Hmin]. destruct (key_lt (key y) (key z)) eqn:Ez; intros [= <-].
    + split; [by right|]. intros w [->|Hw]%elem_of_cons; auto.
    + split; [by left|]. intros w [->|Hw]%elem_of_cons; [done|]. apply (T _ (key y)); auto.
  - intros [= <-]. destruct l as [|y l]; [|simpl in E; by destruct (first_by key l) as [w|]; [destruct (key_lt _ _)|]].
    split; [by left|]. intros w [->|Hw]%elem_of_cons; [done|]. by apply not_elem_of_nil in Hw.
Qed.

Lemma first_by_None {A} (key : A -> Z * Z) l : first_by key l = None -> l = [].
Proof. destruct l; simpl; [done|]. by destruct (first_by key l); [destruct (key_lt _ _)|]. Qed.

Lemma used_bytes_cons r l : used_bytes (r :: l) = (if open_row r then row_bytes r else 0) + used_bytes l.
Proof. done. Qed.

Lemma used_bytes_app l1 l2 : used_bytes (l1 ++ l2) = used_bytes l1 + used_bytes l2.
Proof. induction l1 as [|r l1 IH]; simpl; [done|]. unfold used_bytes in *. lia. Qed.

Lemma sql_length_bounds b s : 0 <= sql_length_from b s <= Z.of_nat (String.length s).
Proof.
  revert b. induction s as [|c s IH]; intros b; [done|]. cbn [sql_length_from String.length].
  destruct (b && _ && _); [pose proof (IH true)|pose proof (IH (192 <=? code c))]; lia.
Qed.

Lemma c_str_length s : (String.length (c_str s) <= String.length s)%nat.
Proof. unfold c_str. induction s as [|c s IH]; cbn; [done|]. destruct (negb _); cbn; lia. Qed.

Lemma row_bytes_pos r : 512 <= row_bytes r.
Proof.
  unfold row_bytes, sql_length. pose proof (sql_length_bounds false (om_payload_json r)).
  destruct (om_attempt_envelope_json r) as [e|]; simpl; [pose proof (sql_length_bounds false e)|]; lia.
Qed.

Lemma used_bytes_nonneg rows : 0 <= used_bytes rows.
Proof.
  induction rows as [|r rows IH]; [done|]. simpl. pose proof (row_bytes_pos r).
  unfold used_bytes in *. destruct (open_row r); lia.
Qed.

(** With unique ids, deleting by id deletes one row. *)
Lemma delete_row l1 v l2 :
  NoDup (ids (l1 ++ v :: l2)) ->
  filter (fun r => om_event_id r <> om_event_id v) (l1 ++ v :: l2) = l1 ++ l2.
Proof.
  rewrite fmap_app, fmap_cons. intros (_ & H12 & [Hv _]%NoDup_cons)%NoDup_app.
  assert (F : forall l : list Row, om_event_id v ∉ ids l -> filter (fun r => om_event_id r <> om_event_id v) l = l).
  { induction l as [|r l IH]; intros Hl; [done|]. rewrite fmap_cons, not_elem_of_cons in Hl. destruct Hl.
    rewrite filter_cons_True by auto. f_equal. auto. }
  rewrite filter_app, filter_cons_False by (by intros []). rewrite !F; [done|done|].
  intros Hin. apply (H12 _ Hin). by left.
Qed.

(** ** The budget: proofs *)

Definition low_rows (rows : list Row) : list Row := filter (fun r => low_row r = true) rows.

(** The bytes that no eviction can free. *)
Definition protected_bytes (rows : list Row) : Z := used_bytes (filter (fun r => low_row r = false) rows).

(** What making room may do to the queue. *)
Record shrunk (ob ob' : Outbox) : Prop := {
  sh_rows : ob_rows ob' `sublist_of` ob_rows ob;
  sh_removed : forall r, r ∈ ob_rows ob -> r ∉ ob_rows ob' -> low_row r = true \/ om_state r = Acknowledged;
  sh_meta : ob_meta ob' = MkMetadata (md_next_event_counter (ob_meta ob))
    (md_dropped_low_priority (ob_meta ob) +
       (Z.of_nat (length (low_rows (ob_rows ob))) - Z.of_nat (length (low_rows (ob_rows ob')))))
    (md_reported_dropped_low_priority (ob_meta ob)) (md_coalesced (ob_meta ob)) (md_last_ack_ns (ob_meta ob)) }.

Lemma shrunk_refl ob : shrunk ob ob.
Proof.
  split; [done|done|]. destruct ob as [rows []]; simpl. f_equal. lia.
Qed.

Lemma shrunk_trans ob1 ob2 ob3 : shrunk ob1 ob2 -> shrunk ob2 ob3 -> shrunk ob1 ob3.
Proof.
  intros [R1 D1 M1] [R2 D2 M2]. split; [by etrans| |].
  - intros r H1 H3. destruct (decide (r ∈ ob_rows ob2)); auto.
  - rewrite M2, M1. simpl. f_equal. lia.
Qed.

Lemma low_row_open r : low_row r = true -> open_row r = true.
Proof. unfold low_row, open_row. intros. to_prop. by rewrite H. Qed.

Lemma used_split rows : used_bytes rows = used_bytes (low_rows rows) + protected_bytes rows.
Proof.
  unfold low_rows, protected_bytes. induction rows as [|r rows IH]; [done|].
  rewrite !filter_cons. unfold used_bytes in *. destruct (low_row r) eqn:E; simpl in *; lia.
Qed.

Lemma drop_low_shrunk ob v l1 l2 :
  ob_rows ob = l1 ++ v :: l2 -> low_row v = true -> NoDup (ids (ob_rows ob)) ->
  let ob' := map_meta count_dropped (map_rows (filter (fun r => om_event_id r <> om_event_id v)) ob) in
  shrunk ob ob' /\ ob_rows ob' = l1 ++ l2 /\
  protected_bytes (ob_rows ob') = protected_bytes (ob_rows ob) /\
  length (low_rows (ob_rows ob)) = S (length (low_rows (ob_rows ob'))).
Proof.
  intros E Hv Hnd. cbv zeta.
  assert (Er : ob_rows (map_meta count_dropped (map_rows (filter (fun r => om_event_id r <> om_event_id v)) ob)) = l1 ++ l2).
  { simpl. rewrite E in *. by apply delete_row. }
  assert (El : length (low_rows (ob_rows ob)) = S (length (low_rows (l1 ++ l2)))).
  { rewrite E. unfold low_rows. rewrite !filter_app, filter_cons_True, !length_app by done. simpl. lia. }
  split; [|split; [done|rewrite Er; split; [|done]]].
  - split; rewrite Er.
    + rewrite E. apply sublist_app; [done|by constructor].
    + rewrite E. intros r [Hr|[->|Hr]%elem_of_cons]%elem_of_app; rewrite elem_of_app; naive_solver.
    + rewrite El. simpl. unfold count_dropped. f_equal. lia.
  - rewrite E. unfold protected_bytes.
    by rewrite !filter_app, filter_cons_False by (by rewrite Hv).
Qed.

Definition capacity_message : string := "outbound queue capacity is reserved for important findings".

Lemma over_budget_spec max_bytes required ob :
  in_u 64 max_bytes -> 0 <= required ->
  over_budget max_bytes required ob = false <-> required + used_bytes (ob_rows ob) <= max_bytes.
Proof.
  intros Hm Hr. pose proof (used_bytes_nonneg (ob_rows ob)). unfold over_budget.
  rewrite orb_false_iff, !Z.ltb_ge. split.
  - intros [H1 H2]. rewrite wrap_u_id in H2; [lia|]. unfold in_u in *; lia.
  - intros H1. split; [lia|]. rewrite wrap_u_id; [lia|]. unfold in_u in *; lia.
Qed.

Lemma protected_le rows : protected_bytes rows <= used_bytes rows.
Proof. rewrite (used_split rows). pose proof (used_bytes_nonneg (low_rows rows)). lia. Qed.

Lemma remove_low_loop_spec fuel max_bytes required ob :
  in_u 64 max_bytes -> 0 <= required -> NoDup (ids (ob_rows ob)) ->
  (length (low_rows (ob_rows ob)) <= fuel)%nat ->
  match remove_low_loop fuel max_bytes required ob with
  | Ok ob' => shrunk ob ob' /\ required + used_bytes (ob_rows ob') <= max_bytes /\
              required + protected_bytes (ob_rows ob) <= max_bytes
  | Throw m => m = capacity_message /\ max_bytes < required + protected_bytes (ob_rows ob)
  end.
Proof.
  intros Hm Hr. revert ob. induction fuel as [|fuel IH]; intros ob Hnd Hf; simpl;
    destruct (over_budget max_bytes required ob) eqn:Eo; simpl.
  2,4: apply over_budget_spec in Eo; [|done..]; pose proof (protected_le (ob_rows ob));
       split; [apply shrunk_refl|lia].
  - split; [done|]. destruct (low_rows (ob_rows ob)) eqn:El; [|simpl in Hf; lia].
    assert (~ (required + used_bytes (ob_rows ob) <= max_bytes)) as Ho.
    { intros Ho. apply over_budget_spec in Ho; [congruence|done..]. }
    rewrite (used_split (ob_rows ob)), El in Ho. simpl in Ho. lia.
  - assert (~ (required + used_bytes (ob_rows ob) <= max_bytes)) as Ho.
    { intros Ho. apply over_budget_spec in Ho; [congruence|done..]. }
    destruct (oldest_low (ob_rows ob)) as [v|] eqn:Ev.
    + apply first_by_spec in Ev as [[Hv Hin]%list_elem_of_filter _].
      destruct (list_elem_of_split _ _ Hin) as (l1 & l2 & E).
      destruct (drop_low_shrunk ob v l1 l2 E Hv Hnd) as (Hs & Er & Hp & Hlen).
      specialize (IH (map_meta count_dropped (map_rows (filter (fun r => om_event_id r <> om_event_id v)) ob))).
      rewrite Hp in IH. destruct (remove_low_loop fuel max_bytes required _) as [ob'|m].
      * destruct IH as (H1 & H2 & H3); [|lia|].
        { eapply sublist_NoDup; [exact Hnd|]. apply fmap_sublist. apply (sh_rows _ _ Hs). }
        split; [by eapply shrunk_trans|done].
      * apply IH; [|lia]. eapply sublist_NoDup; [exact Hnd|]. apply fmap_sublist. apply (sh_rows _ _ Hs).
    + split; [done|]. apply first_by_None in Ev. rewrite (used_split (ob_rows ob)) in Ho.
      unfold low_rows in Ho. rewrite Ev in Ho. simpl in Ho. lia.
Qed.

Lemma NoDup_fmap_inv_eq {B} (p : Row -> B) rows r1 r2 :
  NoDup (p <$> rows) -> r1 ∈ rows -> r2 ∈ rows -> p r1 = p r2 -> r1 = r2.
Proof.
  intros Hnd [i Hi]%list_elem_of_lookup [j Hj]%list_elem_of_lookup E.
  assert (i = j) as ->; [|congruence].
  eapply (NoDup_lookup (p <$> rows)); [done|rewrite list_lookup_fmap, Hi; done|].
  rewrite list_lookup_fmap, Hj. simpl. by f_equal.
Qed.

Lemma used_filter (P : Row -> Prop) `{forall r, Decision (P r)} rows :
  (forall r, r ∈ rows -> ~ P r -> open_row r = false) -> used_bytes (filter P rows) = used_bytes rows.
Proof.
  induction rows as [|r rows IH]; intros Hr; [done|]. rewrite filter_cons.
  assert (IH' : used_bytes (filter P rows) = used_bytes rows) by (apply IH; intros; apply Hr; [by right|done]).
  unfold used_bytes in *. case_decide; simpl; [lia|]. rewrite (Hr r); [lia|by left|done].
Qed.

Lemma low_filter (P : Row -> Prop) `{forall r, Decision (P r)} rows :
  (forall r, r ∈ rows -> ~ P r -> open_row r = false) -> low_rows (filter P rows) = low_rows rows.
Proof.
  unfold low_rows. induction rows as [|r rows IH]; intros Hr; [done|].
  assert (IH' : filter (fun r => low_row r = true) (filter P rows) = filter (fun r => low_row r = true) rows)
    by (apply IH; intros; apply Hr; [by right|done]).
  rewrite (filter_cons P). case_decide as HP; rewrite !filter_cons; [by rewrite IH'|].
  destruct (low_row r) eqn:El; [|done]. apply low_row_open in El. rewrite Hr in El; [done|by left|done].
Qed.

Lemma remove_acked_shrunk ob : NoDup (ids (ob_rows ob)) ->
  let ob' := map_rows remove_acked ob in
  shrunk ob ob' /\ used_bytes (ob_rows ob') = used_bytes (ob_rows ob) /\
  protected_bytes (ob_rows ob') = protected_bytes (ob_rows ob).
Proof.
  intros Hnd. cbv zeta. unfold map_rows, remove_acked. cbn [ob_rows ob_meta]. set (victims := om_event_id <$> take 256 _).
  assert (Hv : forall r, r ∈ ob_rows ob -> ~ (om_event_id r ∉ victims) -> om_state r = Acknowledged).
  { intros r Hr Hn. assert (Hin : om_event_id r ∈ victims) by (by apply dec_stable). subst victims.
    apply list_elem_of_fmap in Hin as (r' & E & Hin%subseteq_take).
    rewrite merge_sort_Permutation in Hin. apply list_elem_of_filter in Hin as [Ha Hin].
    by rewrite (NoDup_fmap_inv_eq om_event_id _ _ _ Hnd Hr Hin E). }
  assert (Ho : forall r, r ∈ ob_rows ob -> ~ (om_event_id r ∉ victims) -> open_row r = false).
  { intros r Hr Hn. unfold open_row. by rewrite (Hv r Hr Hn). }
  match goal with |- context [used_bytes ?l] => set (rows' := l) end.
  assert (Hu : used_bytes rows' = used_bytes (ob_rows ob)) by (by apply used_filter).
  assert (Hl : low_rows rows' = low_rows (ob_rows ob)) by (by apply low_filter).
  split; [|split; [done|]].
  - split; cbn [map_rows ob_rows ob_meta]; [apply sublist_filter| |].
    + intros r Hr Hn. right. apply (Hv r Hr). intros Hd. apply Hn. by apply list_elem_of_filter.

    + rewrite Hl, Z.sub_diag, Z.add_0_r. by destruct (ob_meta ob).
  - pose proof (used_split (ob_rows ob)). pose proof (used_split rows'). rewrite Hl in *. lia.
Qed.

Lemma shrunk_NoDup ob ob' : shrunk ob ob' -> NoDup (ids (ob_rows ob)) -> NoDup (ids (ob_rows ob')).
Proof. intros Hs Hnd. eapply sublist_NoDup; [exact Hnd|]. apply fmap_sublist, Hs. Qed.

Lemma enforce_budget_spec max_bytes required ob :
  in_u 64 max_bytes -> 0 <= required -> NoDup (ids (ob_rows ob)) ->
  match enforce_budget max_bytes required ob with
  | Ok ob' => shrunk ob ob' /\ (max_bytes <> 0 ->
      required + used_bytes (ob_rows ob') <= max_bytes /\
      required + protected_bytes (ob_rows ob) <= max_bytes)
  | Throw m => m = capacity_message /\ max_bytes <> 0 /\ max_bytes < required + protected_bytes (ob_rows ob)
  end.
Proof.
  intros Hm Hr Hnd. unfold enforce_budget. destruct (max_bytes =? 0) eqn:E0; to_prop.
  { split; [apply shrunk_refl|done]. }
  destruct (over_budget max_bytes required ob) eqn:Eo; simpl.
  - destruct (remove_acked_shrunk ob Hnd) as (Hs & Hu & Hp). cbv zeta in *.
    pose proof (remove_low_loop_spec (length (ob_rows (map_rows remove_acked ob))) max_bytes required
      (map_rows remove_acked ob) Hm Hr (shrunk_NoDup _ _ Hs Hnd)) as L.
    rewrite Hp in L. simpl in L. destruct (remove_low_loop _ _ _ _) as [ob'|m].
    + destruct L as (H1 & H2 & H3); [apply length_filter|]. split; [by eapply shrunk_trans|done].
    + destruct L as (-> & L); [apply length_filter|done].
  - split; [apply shrunk_refl|]. intros _. apply over_budget_spec in Eo; [|done..].
    pose proof (protected_le (ob_rows ob)). lia.
Qed.

(** ** Invariant *)

(** A size any [std::string] has. *)
Definition string_ok (s : string) : Prop := Z.of_nat (String.length s) < 2 ^ 63.

Section Invariant.
Context (agent_id : string) (max_bytes : Z).

Definition event_id_of (counter : Z) : string := agent_id +:+ ":" +:+ to_string counter.

Record outbox_inv (ob : Outbox) : Prop := {
  oi_next : 1 <= md_next_event_counter (ob_meta ob);
  oi_counters : NoDup (om_event_counter <$> ob_rows ob);
  oi_producers : NoDup (om_producer_key <$> ob_rows ob);
  oi_ids : forall r, r ∈ ob_rows ob -> om_event_id r = event_id_of (om_event_counter r) /\
    1 <= om_event_counter r < md_next_event_counter (ob_meta ob);
  oi_envelopes : forall r e, r ∈ ob_rows ob -> om_attempt_envelope_json r = Some e -> string_ok e;
  oi_budget : max_bytes <> 0 -> used_bytes (ob_rows ob) <= max_bytes }.

Lemma event_id_inj a b : event_id_of a = event_id_of b -> a = b.
Proof. unfold event_id_of. intros H%string_app_inv_l%string_app_inv_l. by apply to_string_inj. Qed.

Lemma inv_ids ob : outbox_inv ob -> NoDup (ids (ob_rows ob)).
Proof.
  intros [_ Hc _ Hi _ _]. revert Hc Hi. generalize (md_next_event_counter (ob_meta ob)) as n.
  induction (ob_rows ob) as [|r rows IH]; intros n Hc Hi; [constructor|].
  rewrite fmap_cons in *. apply NoDup_cons in Hc as [Hr Hc]. constructor.
  - intros (r' & E & Hin)%list_elem_of_fmap. apply Hr. apply list_elem_of_fmap.
    exists r'. split; [|done]. apply event_id_inj.
    destruct (Hi r) as [<- _]; [by left|]. destruct (Hi r') as [<- _]; [by right|done].
  - eapply (IH n Hc). intros r' Hr'. apply Hi. by right.
Qed.

(** Rows and the metadata after making room. *)
Lemma shrunk_inv ob ob' :
  shrunk ob ob' -> outbox_inv ob -> (max_bytes <> 0 -> used_bytes (ob_rows ob') <= max_bytes) -> outbox_inv ob'.
Proof.
  intros [Hs _ Hm] [Hn Hc Hp Hi He _] Hb. split; rewrite ?Hm; simpl; try done.
  - eapply sublist_NoDup; [exact Hc|]. by apply fmap_sublist.
  - eapply sublist_NoDup; [exact Hp|]. by apply fmap_sublist.
  - intros r Hr. apply Hi. by eapply sublist_subseteq.
  - intros r e Hr. apply He. by eapply sublist_subseteq.
Qed.

(** An update of one row that keeps its keys. *)
Lemma update_event_split l1 r l2 f :
  NoDup (ids (l1 ++ r :: l2)) -> update_event (om_event_id r) f (l1 ++ r :: l2) = l1 ++ f r :: l2.
Proof.
  rewrite fmap_app, fmap_cons. intros (_ & H12 & [Hr _]%NoDup_cons)%NoDup_app. unfold update_event.
  assert (F : forall l : list Row, om_event_id r ∉ ids l ->
    (fun x => if bool_decide (om_event_id x = om_event_id r) then f x else x) <$> l = l).
  { induction l as [|x l IH]; intros Hl; [done|]. rewrite fmap_cons, not_elem_of_cons in Hl. destruct Hl.
    rewrite fmap_cons, bool_decide_eq_false_2 by auto. f_equal. auto. }
  rewrite fmap_app, fmap_cons, bool_decide_eq_true_2 by done. rewrite !F; [done|done|].
  intros Hin. apply (H12 _ Hin). by left.
Qed.

Lemma update_event_absent id f rows : id ∉ ids rows -> update_event id f rows = rows.
Proof.
  unfold update_event. induction rows as [|x l IH]; intros Hl; [done|].
  rewrite fmap_cons, not_elem_of_cons in Hl. destruct Hl.
  rewrite fmap_cons, bool_decide_eq_false_2 by auto. f_equal. auto.
Qed.

Definition keeps_keys (f : Row -> Row) : Prop := forall r,
  om_event_id (f r) = om_event_id r /\ om_event_counter (f r) = om_event_counter r /\
  om_producer_key (f r) = om_producer_key r /\
  forall e, om_attempt_envelope_json (f r) = Some e -> om_attempt_envelope_json r = Some e \/ string_ok e.

Lemma update_event_fmap {B} (p : Row -> B) id f rows :
  (forall r, p (f r) = p r) -> p <$> update_event id f rows = p <$> rows.
Proof.
  intros Hp. unfold update_event. rewrite <- list_fmap_compose. apply list_fmap_ext.
  intros i r _. simpl. case_bool_decide; auto.
Qed.

Lemma update_event_inv ob id f :
  keeps_keys f -> outbox_inv ob ->
  (max_bytes <> 0 -> used_bytes (update_event id f (ob_rows ob)) <= max_bytes) ->
  outbox_inv (map_rows (update_event id f) ob).
Proof.
  intros Hk [Hn Hc Hp Hi He _] Hb. split; simpl; try done.
  - rewrite update_event_fmap; [done|]. intros r. apply Hk.
  - rewrite update_event_fmap; [done|]. intros r. apply Hk.
  - unfold update_event. intros r (r0 & -> & Hr)%list_elem_of_fmap. destruct (Hk r0) as (E1 & E2 & _).
    case_bool_decide; [|by apply Hi]. rewrite E1, E2. by apply Hi.
  - unfold update_event. intros r e (r0 & -> & Hr)%list_elem_of_fmap. destruct (Hk r0) as (_ & _ & _ & E).
    case_bool_decide; [|by apply He]. intros [Ho|Ho]%E; [by apply (He r0)|done].
Qed.

(** Such an update does not raise the used bytes if the rows it changes do not grow. *)
Lemma update_event_used id f rows :
  (forall r, r ∈ rows -> om_event_id r = id ->
     (if open_row (f r) then row_bytes (f r) else 0) <= (if open_row r then row_bytes r else 0)) ->
  used_bytes (update_event id f rows) <= used_bytes rows.
Proof.
  unfold update_event. induction rows as [|r rows IH]; intros Hr; [done|]. rewrite fmap_cons.
  assert (IH' : used_bytes ((fun x => if bool_decide (om_event_id x = id) then f x else x) <$> rows) <= used_bytes rows)
    by (apply IH; intros; apply Hr; [by right|done]).
  unfold used_bytes in *. simpl. case_bool_decide as E; simpl; [|lia].
  specialize (Hr r (list_elem_of_here _ _) E). lia.
Qed.

(** *** [enqueue] *)

Definition agent_ok : Prop := c_str agent_id = agent_id.

Lemma c_str_app a b : c_str a = a -> c_str (a +:+ b) = a +:+ c_str b.
Proof.
  intros Ha. unfold c_str in *. rewrite take_while_all; [done|]. rewrite <- Ha. apply take_while_string_all.
Qed.

Lemma c_str_digits n : 0 <= n -> c_str (to_string n) = to_string n.
Proof.
  intros Hn. rewrite <- (string_app_nil_r (to_string n)) at 1. unfold c_str. rewrite take_while_all.
  - cbn. apply string_app_nil_r.
  - eapply string_all_impl; [|apply (to_string_digits n Hn)]. intros c Hc. unfold isdigit in Hc. to_prop.
    apply negb_true_iff, Z.eqb_neq. lia.
Qed.

Lemma c_str_event_id n : agent_ok -> 0 <= n -> c_str (event_id_of n) = event_id_of n.
Proof.
  intros Ha Hn. unfold event_id_of. rewrite c_str_app by done. f_equal. rewrite c_str_app by done.
  by rewrite c_str_digits.
Qed.

Lemma find_producer_spec pk ob :
  outbox_inv ob ->
  if bool_decide (find_producer pk (ob_rows ob) = "")
  then forall r, r ∈ ob_rows ob -> om_producer_key r <> c_str pk
  else exists r, r ∈ ob_rows ob /\ om_producer_key r = c_str pk /\ find_producer pk (ob_rows ob) = om_event_id r.
Proof.
  intros Hinv. unfold find_producer.
  destruct (filter (fun r => om_producer_key r = c_str pk) (ob_rows ob)) as [|r l] eqn:E.
  - rewrite bool_decide_eq_true_2 by done. intros r Hr Hk.
    assert (Hin : r ∈ filter (fun r => om_producer_key r = c_str pk) (ob_rows ob)) by (by apply list_elem_of_filter).
    rewrite E in Hin. by apply not_elem_of_nil in Hin.
  - assert (Hin : r ∈ filter (fun r => om_producer_key r = c_str pk) (ob_rows ob)) by (rewrite E; by left).
    apply list_elem_of_filter in Hin as [Hk Hin]. destruct (oi_ids _ Hinv r Hin) as [Hid _].
    rewrite bool_decide_eq_false_2; [eauto|]. rewrite Hid. unfold event_id_of.
    intros E0%(f_equal String.length). rewrite !string_length_app in E0. cbn in E0. lia.
Qed.

Lemma existsb_false_iff {A} (p : A -> bool) l : existsb p l = false <-> forall x, x ∈ l -> p x = false.
Proof.
  induction l as [|y l IH]; simpl; [split; [intros _ x Hx; by apply not_elem_of_nil in Hx|done]|].
  rewrite orb_false_iff, IH. split.
  - intros [H1 H2] x [->|Hx]%elem_of_cons; auto.
  - intros H. split; [apply H; by left|]. intros x Hx. apply H. by right.
Qed.

(** Inserting the row of the next counter. *)
Lemma insert_row_ok ob r :
  outbox_inv ob -> om_event_counter r = md_next_event_counter (ob_meta ob) ->
  om_event_id r = event_id_of (md_next_event_counter (ob_meta ob)) ->
  (forall r', r' ∈ ob_rows ob -> om_producer_key r' <> om_producer_key r) ->
  insert_row r (ob_rows ob) = Ok (ob_rows ob ++ [r]).
Proof.
  intros Hinv Hc Hid Hp. unfold insert_row.
  rewrite !(proj2 (existsb_false_iff _ _)); [done|..].
  - intros r' Hr'. apply bool_decide_eq_false_2. by apply Hp.
  - intros r' Hr'. apply Z.eqb_neq. destruct (oi_ids _ Hinv r' Hr'). lia.
  - intros r' Hr'. apply bool_decide_eq_false_2. destruct (oi_ids _ Hinv r' Hr') as [-> ?].
    rewrite Hid. intros E%event_id_inj. lia.
Qed.

Lemma append_row_inv ob r :
  outbox_inv ob -> om_event_counter r = md_next_event_counter (ob_meta ob) ->
  om_event_id r = event_id_of (md_next_event_counter (ob_meta ob)) ->
  (forall r', r' ∈ ob_rows ob -> om_producer_key r' <> om_producer_key r) ->
  om_attempt_envelope_json r = None ->
  (max_bytes <> 0 -> used_bytes (ob_rows ob ++ [r]) <= max_bytes) ->
  forall m, md_next_event_counter m = md_next_event_counter (ob_meta ob) + 1 ->
  outbox_inv (MkOutbox (ob_rows ob ++ [r]) m).
Proof.
  intros [Hn Hc Hp Hi He _] Ec Eid Ep Henv Hb m Em. split; simpl; rewrite ?Em; [lia|..|done].
  - rewrite fmap_app. apply NoDup_app. split_and!; [done| |by apply NoDup_singleton].
    intros x (r' & -> & Hr')%list_elem_of_fmap Hx. apply list_elem_of_singleton in Hx.
    destruct (Hi r' Hr'). lia.
  - rewrite fmap_app. apply NoDup_app. split_and!; [done| |by apply NoDup_singleton].
    intros x (r' & -> & Hr')%list_elem_of_fmap Hx. apply list_elem_of_singleton in Hx. by apply (Ep r' Hr').
  - intros r' [Hr'| ->%list_elem_of_singleton]%elem_of_app.
    + destruct (Hi r' Hr'). split; [done|lia].
    + rewrite Ec. split; [done|lia].
  - intros r' e [Hr'| ->%list_elem_of_singleton]%elem_of_app; [by apply He|congruence].
Qed.

(** The result of [enqueue] on every branch. *)
Definition enqueue_post (pk mt ft fk : string) (priority : Z) (payload hash : string) (now_ns : Z)
    (ob : Outbox) (outcome : result string * Outbox) : Prop :=
  let m := ob_meta ob in
  match outcome with
  | (Ok id, ob') =>
      (exists r, r ∈ ob_rows ob /\ om_producer_key r = c_str pk /\ id = om_event_id r /\
         ob' = MkOutbox (ob_rows ob) (MkMetadata (md_next_event_counter m) (md_dropped_low_priority m)
                 (md_reported_dropped_low_priority m) (md_coalesced m + 1) (md_last_ack_ns m))) \/
      ((forall r, r ∈ ob_rows ob -> om_producer_key r <> c_str pk) /\
       id = event_id_of (md_next_event_counter m) /\
       exists ob1, shrunk ob ob1 /\
         ob_rows ob' = ob_rows ob1 ++ [new_row id (md_next_event_counter m) pk mt ft fk priority payload hash now_ns] /\
         ob_meta ob' = MkMetadata (md_next_event_counter m + 1) (md_dropped_low_priority (ob_meta ob1))
           (md_reported_dropped_low_priority m) (md_coalesced m) (md_last_ack_ns m))
  | (Throw message, ob') =>
      ob' = ob /\ message = capacity_message /\ max_bytes <> 0 /\
      (forall r, r ∈ ob_rows ob -> om_producer_key r <> c_str pk) /\
      max_bytes < Z.of_nat (String.length payload) + 512 + protected_bytes (ob_rows ob)
  end.

Lemma enqueue_outcome pk mt ft fk priority payload hash now_ns ob :
  agent_ok -> in_u 64 max_bytes -> string_ok payload -> md_next_event_counter (ob_meta ob) < 2 ^ 63 ->
  outbox_inv ob ->
  enqueue_post pk mt ft fk priority payload hash now_ns ob
    (enqueue agent_id max_bytes pk mt ft fk priority payload hash now_ns ob) /\
  outbox_inv (enqueue agent_id max_bytes pk mt ft fk priority payload hash now_ns ob).2.
Proof.
  intros Ha Hmax Hpl Hlt Hinv. unfold enqueue, transaction, enqueue_post.
  pose proof (find_producer_spec pk ob Hinv) as Hf. case_bool_decide as Ef; simpl.
  - pose proof (Nat2Z.is_nonneg (String.length payload)).
    rewrite (wrap_u_id 64 (_ + 512)) by (unfold string_ok, in_u in *; lia).
    pose proof (enforce_budget_spec max_bytes (Z.of_nat (String.length payload) + 512) ob Hmax
      ltac:(lia) (inv_ids ob Hinv)) as Hb.
    destruct (enforce_budget _ _ ob) as [ob1|m]; simpl; [|by destruct Hb as (-> & ? & ?); split_and!].
    destruct Hb as [Hs Hb]. pose proof (oi_next _ Hinv) as Hn.
    assert (Em : md_next_event_counter (ob_meta ob1) = md_next_event_counter (ob_meta ob)) by (by rewrite (sh_meta _ _ Hs)).
    rewrite (wrap_u_id 64) by (rewrite Em; unfold in_u; lia). rewrite Em.
    set (r := new_row _ _ _ _ _ _ _ _ _ _).
    assert (Hinv1 : outbox_inv ob1).
    { apply (shrunk_inv ob); [done..|]. intros H0. destruct (Hb H0). lia. }
    assert (Ec : om_event_counter r = md_next_event_counter (ob_meta ob1)).
    { simpl. rewrite wrap_s_id; [done..|]. unfold in_s. lia. }
    assert (Eid : om_event_id r = event_id_of (md_next_event_counter (ob_meta ob1))).
    { rewrite Em. apply c_str_event_id; [done|lia]. }
    assert (Ep : forall r', r' ∈ ob_rows ob1 -> om_producer_key r' <> om_producer_key r).
    { intros r' Hr'. apply Hf. eapply sublist_subseteq; [apply Hs|done]. }
    rewrite (insert_row_ok ob1 r) by done. simpl. split.
    + right. split; [done|]. split; [done|]. exists ob1. split_and!; [done..|]. rewrite (sh_meta _ _ Hs). done.
    + apply append_row_inv; try done. intros H0. rewrite used_bytes_app. destruct (Hb H0) as [Hu _].
      unfold used_bytes at 2, row_bytes. simpl. unfold sql_length.
      pose proof (sql_length_bounds false (c_str payload)). pose proof (c_str_length payload). lia.
  - split; [|by destruct Hinv]. left. destruct Hf as (r & Hr & Hk & E). exists r. by rewrite E.
Qed.

(** *** The other operations *)

(** No acknowledged row has this id: the guard of the operations that open a row. *)
Definition not_acked (id : string) (ob : Outbox) : Prop := is_acknowledged id ob = false.

Lemma not_acked_spec id ob r :
  not_acked id ob -> r ∈ ob_rows ob -> om_event_id r = c_str id -> open_row r = true.
Proof.
  unfold not_acked, is_acknowledged. rewrite existsb_false_iff. intros Hn Hr E. specialize (Hn r Hr).
  rewrite bool_decide_eq_true_2 in Hn by done. by apply negb_false_iff.
Qed.

Lemma mark_retry_inv id next error ob :
  outbox_inv ob -> not_acked id ob -> outbox_inv (mark_retry id next error ob).
Proof.
  intros Hinv Hn. apply update_event_inv; [intros ?; simpl; naive_solver|done|]. intros H0.
  etrans; [apply update_event_used|by apply Hinv]. intros r Hr E.
  by rewrite (not_acked_spec id ob r Hn Hr E).
Qed.

Lemma mark_dead_letter_inv id error ob :
  outbox_inv ob -> not_acked id ob -> outbox_inv (mark_dead_letter id error ob).
Proof.
  intros Hinv Hn. apply update_event_inv; [intros ?; simpl; naive_solver|done|]. intros H0.
  etrans; [apply update_event_used|by apply Hinv]. intros r Hr E.
  by rewrite (not_acked_spec id ob r Hn Hr E).
Qed.

Lemma mark_acknowledged_inv id ack now_ns ob :
  outbox_inv ob -> outbox_inv (mark_acknowledged id ack now_ns ob).
Proof.
  intros Hinv. unfold mark_acknowledged.
  assert (H1 : outbox_inv (map_rows (update_event (c_str id) (set_acked ack now_ns)) ob)).
  { apply update_event_inv; [intros ?; simpl; naive_solver|done|]. intros H0.
    etrans; [apply update_event_used|by apply Hinv]. intros r Hr E. unfold open_row at 1. simpl.
    pose proof (row_bytes_pos r). destruct (open_row r); lia. }
  destruct H1. by split.
Qed.

Lemma prune_inv older ob : outbox_inv ob -> outbox_inv (prune_acknowledged older ob).
Proof.
  intros Hinv. destruct Hinv as [Hn Hc Hp Hi He Hb]. split; simpl; try done.
  - eapply sublist_NoDup; [exact Hc|]. apply fmap_sublist, sublist_filter.
  - eapply sublist_NoDup; [exact Hp|]. apply fmap_sublist, sublist_filter.
  - intros r [_ Hr]%list_elem_of_filter. by apply Hi.
  - intros r e [_ Hr]%list_elem_of_filter. by apply He.
  - intros H0. rewrite used_filter; [by apply Hb|]. intros r Hr Hneg.
    destruct (open_row r); [|done]. by destruct Hneg.
Qed.

Lemma count_event_one id rows :
  count_event id rows = 1%nat -> exists r l, filter (fun r => om_event_id r = id) rows = r :: l.
Proof. unfold count_event. destruct (filter _ rows); [done|eauto]. Qed.

(** The last update of [store_attempt], in a queue that has room for it. *)
Lemma set_attempt_used m now_ns r rows :
  NoDup (ids rows) -> r ∈ rows -> open_row r = true ->
  used_bytes (update_event (om_event_id r) (set_attempt m now_ns) rows) <=
    used_bytes rows + Z.of_nat (String.length (mg_attempt_envelope_json m))
      - sql_length (value_or (om_attempt_envelope_json r) "").
Proof.
  intros Hnd Hr Ho. destruct (list_elem_of_split _ _ Hr) as (l1 & l2 & ->).
  rewrite update_event_split, !used_bytes_app, !used_bytes_cons, Ho by done.
  unfold open_row, row_bytes, sql_length. simpl.
  pose proof (sql_length_bounds false (c_str (mg_attempt_envelope_json m))).
  pose proof (c_str_length (mg_attempt_envelope_json m)).
  destruct (om_attempt_envelope_json r); simpl; lia.
Qed.

Lemma used_sublist l1 l2 : l1 `sublist_of` l2 -> used_bytes l1 <= used_bytes l2.
Proof.
  induction 1 as [|r l1 l2 _ IH|r l1 l2 _ IH]; [done|..]; rewrite !used_bytes_cons; [lia|].
  pose proof (row_bytes_pos r). destruct (open_row r); lia.
Qed.

Lemma shrunk_keeps_inv ob ob' : shrunk ob ob' -> outbox_inv ob -> outbox_inv ob'.
Proof.
  intros Hs Hinv. apply (shrunk_inv ob); [done|done|]. intros H0. pose proof (oi_budget _ Hinv H0).
  pose proof (used_sublist _ _ (sh_rows _ _ Hs)). lia.
Qed.

(** The first update of [store_attempt] reserves the row. *)
Lemma reserve_inv id ob :
  not_acked id ob -> outbox_inv ob -> outbox_inv (map_rows (update_event (c_str id) (set_state InFlight)) ob).
Proof.
  intros Hn Hinv. apply update_event_inv; [intros ?; simpl; naive_solver|done|]. intros H0.
  etrans; [apply update_event_used|by apply Hinv]. intros r Hr E.
  by rewrite (not_acked_spec _ ob r Hn Hr E).
Qed.

Lemma reserved_row id rows r1 l :
  filter (fun r => om_event_id r = id) (update_event id (set_state InFlight) rows) = r1 :: l ->
  exists r, r ∈ rows /\ om_event_id r = id /\ r1 = set_state InFlight r /\
    r1 ∈ update_event id (set_state InFlight) rows.
Proof.
  intros Ef. assert (Hr1 : r1 ∈ filter (fun r => om_event_id r = id) (update_event id (set_state InFlight) rows))
    by (rewrite Ef; by left).
  apply list_elem_of_filter in Hr1 as [Eid Hr1]. pose proof Hr1 as Hr2. unfold update_event in Hr2.
  apply list_elem_of_fmap in Hr2 as (r & E & Hr). exists r. case_bool_decide; [done|]. by subst r1.
Qed.

(** Room for the longer envelope, measured in SQL characters against its bytes. *)
Lemma attempt_room grow ob :
  in_u 64 max_bytes -> outbox_inv ob ->
  match (if 0 <? grow then enforce_budget max_bytes grow ob else Ok ob) with
  | Ok ob2 => shrunk ob ob2 /\ (max_bytes <> 0 -> grow + used_bytes (ob_rows ob2) <= max_bytes)
  | Throw _ => True
  end.
Proof.
  intros Hmax Hinv. destruct (0 <? grow) eqn:El; to_prop.
  - pose proof (enforce_budget_spec max_bytes grow ob Hmax ltac:(lia) (inv_ids _ Hinv)) as Hb.
    destruct (enforce_budget max_bytes grow ob); [|done]. destruct Hb as [? Hb]. split; [done|].
    intros H0. by apply Hb.
  - split; [apply shrunk_refl|]. intros H0. pose proof (oi_budget _ Hinv H0). lia.
Qed.

(** An in-flight row survives making room, and takes its envelope within the budget. *)
Lemma attempt_stored m now_ns r1 ob1 ob2 :
  string_ok (mg_attempt_envelope_json m) -> outbox_inv ob1 -> shrunk ob1 ob2 -> r1 ∈ ob_rows ob1 -> om_state r1 = InFlight ->
  (max_bytes <> 0 -> Z.of_nat (String.length (mg_attempt_envelope_json m))
     - sql_length (value_or (om_attempt_envelope_json r1) "") + used_bytes (ob_rows ob2) <= max_bytes) ->
  outbox_inv (map_rows (update_event (om_event_id r1) (set_attempt m now_ns)) ob2) /\
  set_attempt m now_ns r1 ∈ update_event (om_event_id r1) (set_attempt m now_ns) (ob_rows ob2).
Proof.
  intros Hok Hinv1 Hs Hr1 Est Hroom. pose proof (shrunk_keeps_inv _ _ Hs Hinv1) as Hinv2.
  assert (Hr2 : r1 ∈ ob_rows ob2).
  { apply dec_stable. intros Hn. destruct (sh_removed _ _ Hs r1 Hr1 Hn) as [Hl|Ha]; [|congruence].
    unfold low_row in Hl. rewrite Est in Hl. done. }
  assert (Ho : open_row r1 = true) by (unfold open_row; by rewrite Est). split.
  - apply update_event_inv; [|done|].
    { intros r. split_and!; [done..|]. intros e [= <-]. right. unfold string_ok in *.
      pose proof (c_str_length (mg_attempt_envelope_json m)). lia. }
    intros H0. etrans; [apply set_attempt_used|]; [|done|done|].
    + by apply inv_ids.
    + specialize (Hroom H0). lia.
  - unfold update_event. apply list_elem_of_fmap. exists r1. by rewrite bool_decide_eq_true_2.
Qed.

Lemma store_attempt_outcome m now_ns ob :
  in_u 64 max_bytes -> string_ok (mg_attempt_envelope_json m) ->
  not_acked (mg_event_id m) ob -> outbox_inv ob ->
  let '(outcome, ob') := store_attempt max_bytes m now_ns ob in
  outbox_inv ob' /\
  match outcome with
  | Ok _ => exists r, r ∈ ob_rows ob /\ om_event_id r = c_str (mg_event_id m) /\
      set_attempt m now_ns r ∈ ob_rows ob'
  | Throw _ => ob' = ob
  end.
Proof.
  intros Hmax Hs Hn Hinv. pose proof (reserve_inv _ _ Hn Hinv) as Hinv1.
  unfold store_attempt, transaction. set (id := c_str (mg_event_id m)) in *.
  destruct (count_event id (ob_rows ob) =? 1)%nat; simpl; [|by split].
  destruct (filter _ (update_event id (set_state InFlight) (ob_rows ob))) as [|r1 l] eqn:Ef; [by split|].
  apply reserved_row in Ef as (r & Hr & Er & -> & Hr1).
  change (om_attempt_envelope_json (set_state InFlight r)) with (om_attempt_envelope_json r).
  set (e := value_or (om_attempt_envelope_json r) "").
  assert (He : string_ok e).
  { subst e. destruct (om_attempt_envelope_json r) eqn:E; [by eapply Hinv|done]. }
  pose proof (sql_length_bounds false e) as He2. fold (sql_length e) in He2.
  rewrite (wrap_u_id 64 (sql_length e)), (wrap_u_id 64 (Z.of_nat _)) by (unfold string_ok, in_u in *; lia).
  set (grow := Z.of_nat (String.length (mg_attempt_envelope_json m)) - sql_length e).
  replace (sql_length e <? Z.of_nat (String.length (mg_attempt_envelope_json m))) with (0 <? grow)
    by (subst grow; destruct (0 <? _) eqn:E1, (_ <? Z.of_nat _) eqn:E2; to_prop; lia || done).
  set (ob1 := map_rows (update_event id (set_state InFlight)) ob) in *.
  pose proof (attempt_room grow ob1 Hmax Hinv1) as Hroom.
  destruct (if 0 <? grow then _ else _) as [ob2|msg]; simpl; [|by split].
  destruct Hroom as [Hsh Hroom].
  destruct (attempt_stored m now_ns _ ob1 ob2 Hs Hinv1 Hsh Hr1 eq_refl Hroom) as [Hinv' Hin].
  change (om_event_id (set_state InFlight r)) with (om_event_id r) in *. rewrite Er in *.
  split; [done|]. exists r. by split_and!.
Qed.

Lemma gap_payload_ok n : string_ok (gap_payload (wrap_u 64 n)).
Proof.
  unfold string_ok, gap_payload. pose proof (to_string_length (wrap_u 64 n) (wrap_u_in 64 n ltac:(lia))).
  rewrite !string_length_app. cbn. lia.
Qed.

Lemma enqueue_gap_marker_inv `{Sha256} now_ns ob :
  agent_ok -> in_u 64 max_bytes -> md_next_event_counter (ob_meta ob) < 2 ^ 63 -> outbox_inv ob ->
  outbox_inv (enqueue_gap_marker agent_id max_bytes now_ns ob).2.
Proof.
  intros Ha Hm Hn Hinv. unfold enqueue_gap_marker.
  destruct (_ <=? _); [done|]. destruct (open_gap_marker _); [done|].
  set (d := wrap_u 64 (md_dropped_low_priority (ob_meta ob))).
  destruct (enqueue_outcome ("EvidenceSummary:TelemetryGap:" +:+ to_string d) "EvidenceSummary" "TELEMETRY_GAP"
    (to_string d) 4 (gap_payload d) ("sha256:" +:+ sha256_hex (gap_payload d)) now_ns ob) as [_ Hi]; try done.
  { apply gap_payload_ok. }
  by destruct (enqueue _ _ _ _ _ _ _ _ _ _ ob) as [[] ?].
Qed.

(** *** Histories *)

Inductive outbox_op :=
| OpEnqueue (pk mt ft fk : string) (priority : Z) (payload hash : string) (now_ns : Z)
| OpGapMarker (now_ns : Z)
| OpStoreAttempt (m : OutboundMessage) (now_ns : Z)
| OpMarkRetry (event_id : string) (next_attempt_ns : Z) (error : string)
| OpMarkDeadLetter (event_id error : string)
| OpMarkAcknowledged (event_id : string) (ack : CoordinatorAck) (now_ns : Z)
| OpPrune (older_than_ns : Z).

Definition apply_op `{Sha256} (op : outbox_op) (ob : Outbox) : Outbox :=
  match op with
  | OpEnqueue pk mt ft fk priority payload hash now_ns =>
      (enqueue agent_id max_bytes pk mt ft fk priority payload hash now_ns ob).2
  | OpGapMarker now_ns => (enqueue_gap_marker agent_id max_bytes now_ns ob).2
  | OpStoreAttempt m now_ns => (store_attempt max_bytes m now_ns ob).2
  | OpMarkRetry id next error => mark_retry id next error ob
  | OpMarkDeadLetter id error => mark_dead_letter id error ob
  | OpMarkAcknowledged id ack now_ns => mark_acknowledged id ack now_ns ob
  | OpPrune older => prune_acknowledged older ob
  end.

(** The ids [enqueue] returned for rows it created. *)
Definition created_by (op : outbox_op) (ob : Outbox) : list string :=
  match op with
  | OpEnqueue pk mt ft fk priority payload hash now_ns =>
      match enqueue agent_id max_bytes pk mt ft fk priority payload hash now_ns ob with
      | (Ok id, _) => if decide (id ∈ ids (ob_rows ob)) then [] else [id]
      | _ => []
      end
  | _ => []
  end.

(** The counter is below [2^63] where it is drawn, texts have a size a
    [std::string] can have, and the operations that open a row are applied, as the
    dispatcher does, to events that are not acknowledged. *)
Definition op_ok (op : outbox_op) (ob : Outbox) : Prop :=
  match op with
  | OpEnqueue _ _ _ _ _ payload _ _ => string_ok payload /\ md_next_event_counter (ob_meta ob) < 2 ^ 63
  | OpGapMarker _ => md_next_event_counter (ob_meta ob) < 2 ^ 63
  | OpStoreAttempt m _ => string_ok (mg_attempt_envelope_json m) /\ not_acked (mg_event_id m) ob
  | OpMarkRetry id _ _ | OpMarkDeadLetter id _ => not_acked id ob
  | _ => True
  end.

Inductive outbox_run `{Sha256} : list string -> Outbox -> Prop :=
| run_init : outbox_run [] initialize_schema
| run_op created ob op :
    outbox_run created ob -> op_ok op ob -> outbox_run (created ++ created_by op ob) (apply_op op ob).

Lemma initialize_schema_inv : in_u 64 max_bytes -> outbox_inv initialize_schema.
Proof.
  intros Hm. split; simpl; [lia|constructor|constructor|..].
  - intros r Hr. by apply not_elem_of_nil in Hr.
  - intros r e Hr. by apply not_elem_of_nil in Hr.
  - intros _. unfold in_u, used_bytes in *. simpl. lia.
Qed.

Lemma apply_op_inv `{Sha256} op ob :
  agent_ok -> in_u 64 max_bytes -> op_ok op ob -> outbox_inv ob -> outbox_inv (apply_op op ob).
Proof.
  intros Ha Hm Hok Hinv. destruct op; simpl in *.
  - by apply enqueue_outcome; destruct Hok.
  - by apply enqueue_gap_marker_inv.
  - destruct Hok. pose proof (store_attempt_outcome m now_ns ob) as Hs.
    destruct (store_attempt max_bytes m now_ns ob). by apply Hs.
  - by apply mark_retry_inv.
  - by apply mark_dead_letter_inv.
  - by apply mark_acknowledged_inv.
  - by apply prune_inv.
Qed.

(** The event counter never goes back. *)
Lemma enqueue_next_mono pk mt ft fk priority payload hash now_ns ob :
  agent_ok -> in_u 64 max_bytes -> string_ok payload -> md_next_event_counter (ob_meta ob) < 2 ^ 63 ->
  outbox_inv ob ->
  md_next_event_counter (ob_meta ob) <=
  md_next_event_counter (ob_meta (enqueue agent_id max_bytes pk mt ft fk priority payload hash now_ns ob).2).
Proof.
  intros Ha Hm Hs Hn Hinv.
  destruct (enqueue_outcome pk mt ft fk priority payload hash now_ns ob) as [Hp _]; try done.
  unfold enqueue_post in Hp. destruct (enqueue _ _ _ _ _ _ _ _ _ _ ob) as [[id|msg] ob']; simpl in *.
  - destruct Hp as [(r & _ & _ & _ & ->)|(_ & _ & ob1 & _ & _ & ->)]; simpl; lia.
  - by destruct Hp as [-> _].
Qed.

Lemma store_attempt_meta m now_ns ob :
  in_u 64 max_bytes -> string_ok (mg_attempt_envelope_json m) -> not_acked (mg_event_id m) ob -> outbox_inv ob ->
  md_next_event_counter (ob_meta (store_attempt max_bytes m now_ns ob).2) = md_next_event_counter (ob_meta ob).
Proof.
  intros Hmax Hs Hn Hinv. pose proof (reserve_inv _ _ Hn Hinv) as Hinv1.
  unfold store_attempt, transaction. destruct (count_event _ _ =? 1)%nat; simpl; [|done].
  destruct (filter _ (update_event _ _ _)) as [|r1 l]; [done|].
  set (ex := wrap_u 64 (sql_length _)). set (att := wrap_u 64 (Z.of_nat _)).
  destruct (ex <? att) eqn:E; simpl; [|done]. to_prop.
  pose proof (enforce_budget_spec max_bytes (att - ex) _ Hmax ltac:(lia) (inv_ids _ Hinv1)) as Hb.
  destruct (enforce_budget _ _ _) as [ob2|]; simpl; [|done]. destruct Hb as [Hsh _].
  by rewrite (sh_meta _ _ Hsh).
Qed.

Lemma apply_op_mono `{Sha256} op ob :
  agent_ok -> in_u 64 max_bytes -> op_ok op ob -> outbox_inv ob ->
  md_next_event_counter (ob_meta ob) <= md_next_event_counter (ob_meta (apply_op op ob)).
Proof.
  intros Ha Hm Hok Hinv. destruct op; simpl in *; try done.
  - destruct Hok. by apply enqueue_next_mono.
  - unfold enqueue_gap_marker. destruct (_ <=? _); [done|]. destruct (open_gap_marker _); [done|].
    set (d := wrap_u 64 _). pose proof (enqueue_next_mono ("EvidenceSummary:TelemetryGap:" +:+ to_string d)
      "EvidenceSummary" "TELEMETRY_GAP" (to_string d) 4 (gap_payload d)
      ("sha256:" +:+ sha256_hex (gap_payload d)) now_ns ob Ha Hm (gap_payload_ok _) Hok Hinv).
    by destruct (enqueue _ _ _ _ _ _ _ _ _ _ ob) as [[] ?].
  - destruct Hok. by rewrite store_attempt_meta.
Qed.

Lemma created_by_fresh op ob :
  agent_ok -> in_u 64 max_bytes -> op_ok op ob -> outbox_inv ob ->
  created_by op ob = [] \/
  (created_by op ob = [event_id_of (md_next_event_counter (ob_meta ob))] /\
   forall `{Sha256}, md_next_event_counter (ob_meta (apply_op op ob)) = md_next_event_counter (ob_meta ob) + 1).
Proof.
  intros Ha Hm Hok Hinv. destruct op; simpl in *; try by left. destruct Hok.
  destruct (enqueue_outcome pk mt ft fk priority payload hash now_ns ob) as [Hp _]; try done.
  unfold enqueue_post in Hp. destruct (enqueue _ _ _ _ _ _ _ _ _ _ ob) as [[id|msg] ob']; simpl in *; [|by left].
  destruct Hp as [(r & Hr & _ & -> & _)|(_ & -> & ob1 & _ & _ & Em)].
  - left. rewrite decide_True; [done|]. apply list_elem_of_fmap. eauto.
  - case_decide; [by left|]. right. split; [done|]. intros _. by rewrite Em.
Qed.

Lemma outbox_run_inv `{Sha256} created ob :
  agent_ok -> in_u 64 max_bytes -> outbox_run created ob ->
  outbox_inv ob /\ NoDup created /\
  forall id, id ∈ created -> exists c, id = event_id_of c /\ c < md_next_event_counter (ob_meta ob).
Proof.
  intros Ha Hm. induction 1 as [|created ob op _ (Hinv & Hnd & Hc) Hok].
  { split_and!; [by apply initialize_schema_inv|constructor|]. intros id Hid. by apply not_elem_of_nil in Hid. }
  pose proof (apply_op_mono op ob Ha Hm Hok Hinv) as Hmono.
  split; [by apply apply_op_inv|].
  destruct (created_by_fresh op ob Ha Hm Hok Hinv) as [-> |[-> Hn]].
  - rewrite app_nil_r. split; [done|]. intros id Hid. destruct (Hc id Hid) as (c & -> & ?). exists c. split; [done|lia].
  - rewrite Hn. split.
    + apply NoDup_app. split_and!; [done| |by apply NoDup_singleton].
      intros id Hid ->%list_elem_of_singleton. destruct (Hc _ Hid) as (c & E%event_id_inj & ?). lia.
    + intros id [Hid| ->%list_elem_of_singleton]%elem_of_app; [|eexists; split; [done|lia]].
      destruct (Hc id Hid) as (c & -> & ?). exists c. split; [done|lia].
Qed.


(** [enqueue] on every branch: a known producer key returns the id of its row,
    changes no row and counts one coalesced message; a new one gets the next
    counter's id and is appended as a pending row after room was made; if no room
    can be made the capacity error is thrown and the queue is as before. *)
Theorem enqueue_spec pk mt ft fk priority payload hash now_ns ob :
  agent_ok -> in_u 64 max_bytes -> string_ok payload -> md_next_event_counter (ob_meta ob) < 2 ^ 63 ->
  outbox_inv ob ->
  enqueue_post pk mt ft fk priority payload hash now_ns ob
    (enqueue agent_id max_bytes pk mt ft fk priority payload hash now_ns ob) /\
  outbox_inv (enqueue agent_id max_bytes pk mt ft fk priority payload hash now_ns ob).2.
Proof. apply enqueue_outcome. Qed.

(** Producers are idempotent: once a producer key was accepted, enqueueing it
    again, with whatever other arguments, returns the same event id and leaves
    every row as it is. *)
Theorem enqueue_idempotent pk mt ft fk priority payload hash now_ns ob id ob' :
  agent_ok -> in_u 64 max_bytes -> string_ok payload -> md_next_event_counter (ob_meta ob) < 2 ^ 63 ->
  outbox_inv ob ->
  enqueue agent_id max_bytes pk mt ft fk priority payload hash now_ns ob = (Ok id, ob') ->
  forall mt' ft' fk' priority' payload' hash' now_ns',
    let '(again, ob'') := enqueue agent_id max_bytes pk mt' ft' fk' priority' payload' hash' now_ns' ob' in
    again = Ok id /\ ob_rows ob'' = ob_rows ob'.
Proof.
  intros Ha Hm Hs Hn Hinv E mt' ft' fk' priority' payload' hash' now_ns'.
  destruct (enqueue_outcome pk mt ft fk priority payload hash now_ns ob) as [Hp Hinv']; try done.
  rewrite E in Hp, Hinv'. simpl in *.
  assert (Hr : exists r, r ∈ ob_rows ob' /\ om_producer_key r = c_str pk /\ om_event_id r = id).
  { destruct Hp as [(r & Hr & Hk & -> & ->)|(_ & -> & ob1 & _ & Er & _)]; [by exists r|].
    eexists. rewrite Er. split; [apply elem_of_app; right; by apply list_elem_of_singleton|].
    split; [done|]. apply c_str_event_id; [done|]. pose proof (oi_next _ Hinv). lia. }
  destruct Hr as (r & Hr & Hk & <-).
  pose proof (find_producer_spec pk ob' Hinv') as Hf. unfold enqueue, transaction.
  case_bool_decide as Ef; simpl; [by destruct (Hf r Hr)|].
  destruct Hf as (r' & Hr' & Hk' & ->). split; [|done]. do 2 f_equal.
  eapply (NoDup_fmap_inv_eq om_producer_key); [apply Hinv'|done|done|congruence].
Qed.
End Invariant.

(** ** Making room, delivery order, telemetry gaps *)

(** Making room is exact: with a budget and unique ids, [enforce_budget] succeeds
    precisely when the bytes that may not be evicted leave room for what is required;
    it then removes only acknowledged rows and pending, never attempted rows of
    priority at most 1, counts each of the latter, and the budget holds; otherwise it
    throws the capacity error. *)
Theorem enforce_budget_exact max_bytes required ob :
  in_u 64 max_bytes -> max_bytes <> 0 -> 0 <= required -> NoDup (om_event_id <$> ob_rows ob) ->
  if required + protected_bytes (ob_rows ob) <=? max_bytes
  then exists ob', enforce_budget max_bytes required ob = Ok ob' /\ shrunk ob ob' /\
         required + used_bytes (ob_rows ob') <= max_bytes /\
         forall r, r ∈ ob_rows ob -> r ∉ ob_rows ob' ->
           om_state r = Acknowledged \/ (om_state r = Pending /\ om_attempt_count r = 0 /\ om_priority r <= 1)
  else enforce_budget max_bytes required ob = Throw capacity_message.
Proof.
  intros Hm H0 Hr Hnd. pose proof (enforce_budget_spec max_bytes required ob Hm Hr Hnd) as Hb.
  destruct (enforce_budget max_bytes required ob) as [ob'|m].
  - destruct Hb as [Hs Hb]. destruct (Hb H0) as [H1 H2]. rewrite (proj2 (Z.leb_le _ _)) by done.
    exists ob'. split_and!; [done..|]. intros r Hin Hout. destruct (sh_removed _ _ Hs r Hin Hout) as [Hl|]; [|by left].
    right. unfold low_row in Hl. to_prop. done.
  - destruct Hb as (-> & _ & Hb). by rewrite (proj2 (Z.leb_gt _ _)).
Qed.

(** Delivery order: the message handed to the dispatcher is a pending or in-flight
    row whose time has come, of the highest priority and, among those, the oldest;
    none is handed out only if no row is ready. Acknowledged and dead rows never are. *)
Theorem next_ready_spec now_ns ob :
  match next_ready now_ns ob with
  | Some m => exists r, r ∈ ob_rows ob /\ m = message_of_row r /\
      (om_state r = Pending \/ om_state r = InFlight) /\ om_next_attempt_at_ns r <= wrap_s 64 now_ns /\
      forall r', r' ∈ ob_rows ob -> (om_state r' = Pending \/ om_state r' = InFlight) ->
        om_next_attempt_at_ns r' <= wrap_s 64 now_ns ->
        om_priority r' <= om_priority r /\
        (om_priority r' = om_priority r -> om_created_at_ns r <= om_created_at_ns r')
  | None => forall r, r ∈ ob_rows ob ->
      om_state r = Acknowledged \/ om_state r = DeadLetter \/ wrap_s 64 now_ns < om_next_attempt_at_ns r
  end.
Proof.
  assert (Hready : forall r, is_ready now_ns r = true <->
    (om_state r = Pending \/ om_state r = InFlight) /\ om_next_attempt_at_ns r <= wrap_s 64 now_ns).
  { intros r. unfold is_ready. by rewrite andb_true_iff, orb_true_iff, !bool_decide_eq_true, Z.leb_le. }
  unfold next_ready, ready_row. destruct (first_by _ _) as [r|] eqn:E; simpl.
  - apply first_by_spec in E as [[Hr Hin]%list_elem_of_filter Hmin]. apply Hready in Hr as [Hs Ht].
    exists r. split_and!; try done. intros r' Hin' Hs' Ht'.
    assert (Hf : r' ∈ filter (fun r => is_ready now_ns r = true) (ob_rows ob))
      by (apply list_elem_of_filter; by rewrite Hready).
    specialize (Hmin r' Hf). unfold key_lt in Hmin. simpl in Hmin.
    rewrite orb_false_iff, andb_false_iff, !Z.ltb_ge, Z.eqb_neq in Hmin. lia.
  - apply first_by_None in E. intros r Hin.
    assert (Hn : is_ready now_ns r <> true).
    { intros Hr. assert (Hf : r ∈ filter (fun r => is_ready now_ns r = true) (ob_rows ob)) by (by apply list_elem_of_filter).
      rewrite E in Hf. by apply not_elem_of_nil in Hf. }
    rewrite Hready in Hn. destruct (om_state r); try (by auto); right; right; apply Z.nle_gt; intros Hle; apply Hn; auto.
Qed.

Lemma sql_cast_to_string n : 0 <= n < 2 ^ 63 -> sql_cast_integer (to_string n) = n.
Proof.
  intros Hn. destruct (to_string_digits n) as (D1 & D2 & D3); [lia|].
  unfold sql_cast_integer. destruct (to_string n) as [|c s] eqn:E; [done|].
  pose proof D1 as [Hc _]%andb_true_iff. cbn [drop_while]. rewrite (isdigit_not_space c Hc).
  assert (Hd : 48 <= code c) by (unfold isdigit in Hc; to_prop; lia).
  rewrite (proj2 (Z.eqb_neq (code c) 45)), (proj2 (Z.eqb_neq (code c) 43)) by lia.
  rewrite <- (string_app_nil_r (String c s)), take_while_all by done. rewrite string_app_nil_r, D3. lia.
Qed.

Lemma gap_value_acked r rows ack t :
  NoDup (ids rows) -> r ∈ rows -> om_finding_type r = "TELEMETRY_GAP" ->
  gap_value (om_event_id r) (update_event (om_event_id r) (set_acked ack t) rows) =
  Some (sql_cast_integer (om_finding_key r)).
Proof.
  intros Hnd Hin Hft. unfold gap_value. destruct (filter _ _) as [|r' l] eqn:Ef.
  - exfalso. assert (Hf : set_acked ack t r ∈ update_event (om_event_id r) (set_acked ack t) rows).
    { apply list_elem_of_fmap. exists r. by rewrite bool_decide_eq_true_2. }
    eapply not_elem_of_nil. rewrite <- Ef. apply list_elem_of_filter. split; [|exact Hf]. done.
  - assert (Hf : r' ∈ r' :: l) by (by left). rewrite <- Ef in Hf.
    apply list_elem_of_filter in Hf as [[Hi _] Hf]. unfold update_event in Hf.
    apply list_elem_of_fmap in Hf as (r0 & E0 & Hr0).
    assert (r0 = r) as ->.
    { apply (NoDup_fmap_inv_eq om_event_id rows); try done. rewrite <- Hi, E0. by case_bool_decide. }
    rewrite bool_decide_eq_true_2 in E0 by done. by subst r'.
Qed.

Lemma mark_acknowledged_reports r ack t ob :
  c_str (om_event_id r) = om_event_id r -> NoDup (ids (ob_rows ob)) -> r ∈ ob_rows ob ->
  om_finding_type r = "TELEMETRY_GAP" ->
  md_reported_dropped_low_priority (ob_meta (mark_acknowledged (om_event_id r) ack t ob)) =
  Z.max (md_reported_dropped_low_priority (ob_meta ob)) (sql_cast_integer (om_finding_key r)).
Proof.
  intros Hc Hnd Hin Hft. unfold mark_acknowledged. rewrite Hc. cbn [map_rows map_meta ob_rows ob_meta].
  by rewrite gap_value_acked.
Qed.

(** Dropped telemetry is reported: when messages have been dropped since the last
    report and no gap marker is open or already queued for this count, a successful
    [enqueue_gap_marker] queues one with the count, of a priority that is never
    evicted, and once the coordinator acknowledges it the count is recorded as
    reported. *)
Theorem gap_marker_cycle `{Sha256} agent_id max_bytes now_ns ob ob' :
  agent_ok agent_id -> in_u 64 max_bytes -> md_next_event_counter (ob_meta ob) < 2 ^ 63 ->
  outbox_inv agent_id max_bytes ob ->
  0 <= md_reported_dropped_low_priority (ob_meta ob) < md_dropped_low_priority (ob_meta ob) ->
  md_dropped_low_priority (ob_meta ob) < 2 ^ 63 ->
  open_gap_marker (ob_rows ob) = false ->
  (forall r, r ∈ ob_rows ob -> om_producer_key r <>
     c_str ("EvidenceSummary:TelemetryGap:" +:+ to_string (md_dropped_low_priority (ob_meta ob)))) ->
  enqueue_gap_marker agent_id max_bytes now_ns ob = (Ok tt, ob') ->
  exists r, r ∈ ob_rows ob' /\ om_state r = Pending /\ low_row r = false /\
    om_payload_json r = c_str (gap_payload (md_dropped_low_priority (ob_meta ob))) /\
    forall ack t,
      md_reported_dropped_low_priority (ob_meta (mark_acknowledged (om_event_id r) ack t ob')) =
      md_dropped_low_priority (ob_meta ob).
Proof.
  intros Ha Hm Hn Hinv Hrep Hd Hopen Hpk. unfold enqueue_gap_marker.
  rewrite !wrap_u_id by (unfold in_u; lia). rewrite (proj2 (Z.leb_gt _ _)) by lia. rewrite Hopen.
  set (d := md_dropped_low_priority (ob_meta ob)) in *.
  destruct (enqueue_outcome agent_id max_bytes ("EvidenceSummary:TelemetryGap:" +:+ to_string d) "EvidenceSummary"
    "TELEMETRY_GAP" (to_string d) 4 (gap_payload d) ("sha256:" +:+ sha256_hex (gap_payload d)) now_ns ob)
    as [Hp Hinv']; try done.
  { pose proof (gap_payload_ok d) as G. by rewrite wrap_u_id in G by (unfold in_u; lia). }
  unfold enqueue_post in Hp.
  destruct (enqueue _ _ _ _ _ _ _ _ _ _ ob) as [[id|msg] ob1]; intros [= <-].
  destruct Hp as [(r & Hr & Hk & _)|(_ & -> & ob2 & Hs & Er & Em)]; [by destruct (Hpk r Hr)|].
  set (r := new_row _ _ _ _ _ _ _ _ _ _) in *.
  assert (Hin : r ∈ ob_rows ob1) by (rewrite Er; apply elem_of_app; right; by apply list_elem_of_singleton).
  exists r. split_and!; [done|done|done|done|]. intros ack t. simpl in Hinv'.
  assert (Hid : om_event_id r = event_id_of agent_id (md_next_event_counter (ob_meta ob))).
  { apply c_str_event_id; [done|]. pose proof (oi_next _ _ _ Hinv). lia. }
  assert (Hc : c_str (om_event_id r) = om_event_id r).
  { rewrite Hid. apply c_str_event_id; [done|]. pose proof (oi_next _ _ _ Hinv). lia. }
  rewrite (mark_acknowledged_reports r) by (try done; by eapply inv_ids).
  rewrite Em. simpl. rewrite c_str_digits, sql_cast_to_string by lia. lia.
Qed.

(** ** Concrete runs *)

Definition demo_enqueue (pk : string) (priority now_ns : Z) : outbox_op :=
  OpEnqueue pk "EvidenceSummary" "FINDING" pk priority "{}" "sha256:00" now_ns.

(** Two low-priority messages and an important one that evicts the older of them. *)
Definition demo_ops : list outbox_op := [demo_enqueue "a" 1 10; demo_enqueue "b" 1 20; demo_enqueue "c" 3 30].

#[local] Existing Instance sum_digest.

Definition demo_outbox : Outbox :=
  fold_left (fun ob op => apply_op "agent" 1100 op ob) demo_ops initialize_schema.

Lemma demo_run : outbox_run "agent" 1100 ["agent:1"; "agent:2"; "agent:3"] demo_outbox.
Proof.
  assert (S : forall created ob op, outbox_run "agent" 1100 created ob -> op_ok op ob ->
    outbox_run "agent" 1100 (created ++ created_by "agent" 1100 op ob) (apply_op "agent" 1100 op ob))
    by (intros; by apply run_op).
  pose proof (S [] initialize_schema (demo_enqueue "a" 1 10) (run_init _ _)) as S1.
  pose proof (S _ _ (demo_enqueue "b" 1 20) (S1 ltac:(done))) as S2.
  pose proof (S _ _ (demo_enqueue "c" 3 30) (S2 ltac:(done))) as S3.
  exact (S3 ltac:(done)).
Qed.


Definition demo_inv : outbox_inv "agent" 1100 demo_outbox :=
  proj1 (outbox_run_inv "agent" 1100 _ _ eq_refl ltac:(unfold in_u; lia) demo_run).

Lemma enqueue_spec_witness :
  enqueue_post "agent" 1100 "b" "" "" "" 0 "{}" "" 40 demo_outbox
    (enqueue "agent" 1100 "b" "" "" "" 0 "{}" "" 40 demo_outbox) /\
  outbox_inv "agent" 1100 (enqueue "agent" 1100 "b" "" "" "" 0 "{}" "" 40 demo_outbox).2.
Proof.
  apply (enqueue_spec "agent" 1100); [reflexivity|unfold in_u; lia|reflexivity|reflexivity|exact demo_inv].
Defined.

Lemma enqueue_idempotent_witness :
  let '(again, ob'') := enqueue "agent" 1100 "d" "x" "y" "z" 0 "{}" "" 60
    (enqueue "agent" 1100 "d" "" "" "" 3 "{}" "" 50 demo_outbox).2 in
  again = Ok "agent:4" /\
  ob_rows ob'' = ob_rows (enqueue "agent" 1100 "d" "" "" "" 3 "{}" "" 50 demo_outbox).2.
Proof.
  apply (enqueue_idempotent "agent" 1100 "d" "" "" "" 3 "{}" "" 50 demo_outbox "agent:4");
    [reflexivity|unfold in_u; lia|reflexivity|reflexivity|exact demo_inv|vm_compute; reflexivity].
Defined.

Lemma enforce_budget_exact_witness :
  exists ob', enforce_budget 1100 514 demo_outbox = Ok ob' /\ 514 + used_bytes (ob_rows ob') <= 1100.
Proof.
  assert (Hid : NoDup (om_event_id <$> ob_rows demo_outbox)) by apply (inv_ids "agent" 1100), demo_inv.
  pose proof (enforce_budget_exact 1100 514 demo_outbox ltac:(unfold in_u; lia) ltac:(lia) ltac:(lia) Hid) as Hx.
  assert (Hc : (514 + protected_bytes (ob_rows demo_outbox) <=? 1100) = true) by (vm_compute; reflexivity).
  rewrite Hc in Hx. destruct Hx as (ob' & H1 & _ & H2 & _). exists ob'. split; [exact H1|exact H2].
Defined.

Lemma gap_marker_cycle_witness :
  exists r, r ∈ ob_rows (enqueue_gap_marker "agent" 1300 70 demo_outbox).2 /\ om_state r = Pending /\
    low_row r = false /\ om_payload_json r = c_str (gap_payload 1) /\
    forall ack t, md_reported_dropped_low_priority
      (ob_meta (mark_acknowledged (om_event_id r) ack t (enqueue_gap_marker "agent" 1300 70 demo_outbox).2)) = 1.
Proof.
  apply (gap_marker_cycle "agent" 1300 70 demo_outbox);
    [reflexivity|unfold in_u; lia|reflexivity| |vm_compute; done|reflexivity|reflexivity| |vm_compute; reflexivity].
  - destruct demo_inv. by split.
  - intros r Hr. repeat (apply elem_of_cons in Hr as [->|Hr]; [vm_compute; done|]). by apply not_elem_of_nil in Hr.
Defined.
