(* ===== verification/Dispatcher.v ===== *)
(** Coordinator acknowledgements ([src/core/coordinator_ack.cpp]) and the outbound
    dispatcher ([src/core/outbound_dispatcher.cpp]).

    The dispatcher drains the queue of [OutboundQueue]: it wraps the next ready
    message in a NAP/1 envelope with a fresh sequence number ([NapSequence]), posts
    it and acknowledges, retries or dead-letters the row.  What it cannot control is
    the environment of one attempt, [AttemptEnv]: the clock, the stored identity,
    the random bytes, the faults of the sequence files and the coordinator's answer
    to an envelope.

    The theorems: an answer is accepted exactly if every field matches the attempt;
    a row becomes acknowledged only by such an answer to its own attempt; draining
    keeps the queue's invariant, terminates within the requested number of attempts
    and stops at the first failure; the back-off is bounded; escaped text reads
    back. *)

From S2P Require Import Prelude Text Wire Faults Crypto NapSequence OutboundQueue.

#[local] Arguments String.append !_ _ /.

(** ** Coordinator acknowledgements *)

Definition quoted (key : string) : string := quote +:+ key +:+ quote.

(** The length of the white space at the front of a string. *)
Fixpoint space_run (s : string) : nat :=
  match s with
  | String c s' => if isspace c then S (space_run s') else O
  | EmptyString => O
  end.

Definition value_start (json key : string) : result nat :=
  let needle := quoted key in
  match find_from json needle 0 with
  | None => Throw ("coordinator ACK lacks " +:+ key)
  | Some position =>
      match find_from json ":" (position + String.length needle) with
      | None => Throw "coordinator ACK is malformed"
      | Some position =>
          let position := S position in
          Ok (position + space_run (substr_from json position))%nat
      end
  end.

(** The loop of [string_value], after the opening quote. *)
Fixpoint read_string (s : string) (value : string) : result string :=
  match s with
  | EmptyString => Throw "coordinator ACK contains an unterminated string"
  | String character s' =>
      if Ascii.eqb character "034" then Ok value
      else if negb (Ascii.eqb character "\") then read_string s' (value +:+ String character "")
      else match s' with
           | EmptyString => Throw "coordinator ACK contains an unterminated string"
           | String escaped s'' =>
               if Ascii.eqb escaped "034" || Ascii.eqb escaped "\" || Ascii.eqb escaped "/"
               then read_string s'' (value +:+ String escaped "")
               else Throw "coordinator ACK contains an unsupported escape"
           end
  end.

Definition string_value (json key : string) : result string :=
  let? position := value_start json key in
  match substr_from json position with
  | String c rest =>
      if Ascii.eqb c "034" then read_string rest ""
      else Throw ("coordinator ACK field is not a string: " +:+ key)
  | EmptyString => Throw ("coordinator ACK field is not a string: " +:+ key)
  end.

Definition unsigned_value (json key : string) : result Z :=
  let? position := value_start json key in
  let digits := take_while isdigit (substr_from json position) in
  if bool_decide (digits = "") then Throw ("coordinator ACK field is not unsigned: " +:+ key)
  else stoull digits.

Definition parse_coordinator_ack (response_json : string) : result CoordinatorAck :=
  let? protocol := string_value response_json "protocol" in
  let? schema_version := unsigned_value response_json "schemaVersion" in
  let? message_type := string_value response_json "messageType" in
  let? version := unsigned_value response_json "ackVersion" in
  let? message_id := string_value response_json "messageId" in
  let? sequence := unsigned_value response_json "sequence" in
  let? idempotency_key := string_value response_json "idempotencyKey" in
  let? payload_hash := string_value response_json "payloadHash" in
  let? status := string_value response_json "status" in
  let? received_at := string_value response_json "receivedAt" in
  Ok (MkCoordinatorAck protocol (wrap_s 32 schema_version) message_type (wrap_s 32 version) message_id
        sequence idempotency_key payload_hash status received_at).

Definition validate_coordinator_ack (ack : CoordinatorAck) (expected_message_id : string)
    (expected_sequence : Z) (expected_idempotency_key expected_payload_hash : string) : result unit :=
  let? _ := throw_if (negb (bool_decide (ack_protocol ack = "neta-agent/1")) ||
                      negb (ack_schema_version ack =? 1) ||
                      negb (bool_decide (ack_message_type ack = "Ack")))
              "response is not a supported NAP ACK" in
  let? _ := throw_if (negb (ack_version ack =? 1)) "unsupported coordinator ACK version" in
  let? _ := throw_if (negb (bool_decide (ack_message_id ack = expected_message_id)))
              "coordinator ACK message mismatch" in
  let? _ := throw_if (negb (ack_sequence ack =? expected_sequence)) "coordinator ACK sequence mismatch" in
  let? _ := throw_if (negb (bool_decide (ack_idempotency_key ack = expected_idempotency_key)))
              "coordinator ACK idempotency mismatch" in
  let? _ := throw_if (negb (bool_decide (ack_payload_hash ack = expected_payload_hash)))
              "coordinator ACK payload hash mismatch" in
  let? _ := throw_if (negb (bool_decide (ack_status ack = "ACCEPTED")) &&
                      negb (bool_decide (ack_status ack = "ALREADY_ACCEPTED")))
              "coordinator did not acknowledge the NAP event" in
  throw_if (bool_decide (ack_received_at ack = "")) "coordinator ACK lacks commit time".

(** ** Building an attempt *)

Definition kNanosecondsPerSecond : Z := 1000000000.
Definition kAttemptLifetimeNs : Z := 300 * kNanosecondsPerSecond.
Definition kAttemptRefreshMarginNs : Z := 5 * kNanosecondsPerSecond.

(** [random_uuid], from the 16 bytes [RAND_bytes] delivered. *)
Definition set_version (b : byte) : byte := byte_of_Z (Z.lor (Z.land (Z_of_byte b) 15) 64).
Definition set_variant (b : byte) : byte := byte_of_Z (Z.lor (Z.land (Z_of_byte b) 63) 128).

Definition uuid_of_bytes (bytes : list byte) : string :=
  let bytes := alter set_variant 8%nat (alter set_version 6%nat bytes) in
  let part from len := finalize_hex (take len (drop from bytes)) in
  part 0%nat 4%nat +:+ "-" +:+ part 4%nat 2%nat +:+ "-" +:+ part 6%nat 2%nat +:+ "-" +:+
  part 8%nat 2%nat +:+ "-" +:+ part 10%nat 6%nat.

Definition random_uuid (bytes : option (list byte)) : result string :=
  match bytes with
  | None => Throw "random NAP message ID generation failed"
  | Some bytes => Ok (uuid_of_bytes bytes)
  end.

(** [gmtime]: the proleptic Gregorian date of a day number counted from 1970-01-01. *)
Definition civil_from_days (days : Z) : Z * Z * Z :=
  let z := days + 719468 in
  let era := z / 146097 in
  let doe := z mod 146097 in
  let yoe := (doe - doe / 1460 + doe / 36524 - doe / 146096) / 365 in
  let doy := doe - (365 * yoe + yoe / 4 - yoe / 100) in
  let mp := (5 * doy + 2) / 153 in
  let d := doy - (153 * mp + 2) / 5 + 1 in
  let m := if mp <? 10 then mp + 3 else mp - 9 in
  (yoe + era * 400 + (if m <=? 2 then 1 else 0), m, d).

(** [std::setw(width) << std::setfill('0')] *)
Definition zero_padded (width : nat) (z : Z) : string :=
  let text := to_string z in
  String.string_of_list_ascii (repeat "0"%char (width - String.length text)) +:+ text.

Definition iso8601 (nanoseconds : Z) : string :=
  let milliseconds := nanoseconds / 1000000 in
  let seconds := milliseconds / 1000 in
  let '(year, month, day) := civil_from_days (seconds / 86400) in
  let clock := seconds mod 86400 in
  to_string year +:+ "-" +:+ zero_padded 2 month +:+ "-" +:+ zero_padded 2 day +:+ "T" +:+
  zero_padded 2 (clock / 3600) +:+ ":" +:+ zero_padded 2 (clock / 60 mod 60) +:+ ":" +:+
  zero_padded 2 (clock mod 60) +:+ "." +:+ zero_padded 3 (milliseconds mod 1000) +:+ "Z".

Definition escape_char (c : ascii) : string :=
  if Ascii.eqb c "\" then "\\"
  else if Ascii.eqb c "034" then String "\" (String "034" "")
  else if code c =? 10 then "\n"
  else if code c =? 13 then "\r"
  else if code c =? 9 then "\t"
  else if code c <? 32 then "\u00" +:+ finalize_hex [byte_of_Z (code c)]
  else String c "".

Fixpoint json_escape (value : string) : string :=
  match value with
  | EmptyString => ""
  | String c value' => escape_char c +:+ json_escape value'
  end.

Definition retry_delay_ns (message : OutboundMessage) : Z :=
  let exponent := Z.min (mg_attempt_count message) 6 in
  let seconds := Z.min 300 (wrap_u 64 (Z.shiftl 5 exponent)) in
  let jitter := mg_event_counter message mod 5 in
  wrap_u 64 ((seconds + jitter) * kNanosecondsPerSecond).

(** What posting an envelope can end with. *)
Inductive PostResult :=
| PostOk (response : string)
| PostHttpError (status_code : Z) (response_body : string) (what : string)
| PostError (what : string).

Definition contains (s needle : string) : bool := has (find_from s needle 0).

Definition is_permanent_rejection (status_code : Z) (response_body : string) : bool :=
  if (status_code =? 413) || (status_code =? 422) then true
  else if status_code =? 409 then contains response_body "different content"
  else if negb (status_code =? 400) then false
  else negb (contains response_body "expired") && negb (contains response_body "clock") &&
       negb (contains response_body "created_at is too far").

Record FleetIdentity := MkFleetIdentity {
  fi_agent_id : string; fi_certificate_sha256 : string }.

Record AttemptEnv := MkAttemptEnv {
  ae_now_ns : Z;
  ae_identity : result FleetIdentity;
  ae_random : option (list byte);
  ae_faults : list io_fault;
  ae_post : string -> PostResult;
  ae_ack_now_ns : Z }.

Definition field (key value : string) : string := quoted key +:+ ":" +:+ value.
Definition text_field (key value : string) : string := field key (quoted value).

Definition envelope_json (m : OutboundMessage) (identity : FleetIdentity) (now_ns : Z) : string :=
  "{" +:+ text_field "protocol" "neta-agent/1" +:+ "," +:+
  field "schema_version" "1" +:+ "," +:+
  text_field "message_id" (mg_attempt_message_id m) +:+ "," +:+
  text_field "message_type" (json_escape (mg_message_type m)) +:+ "," +:+
  text_field "agent_id" (json_escape (fi_agent_id identity)) +:+ "," +:+
  text_field "created_at" (iso8601 now_ns) +:+ "," +:+
  text_field "expires_at" (iso8601 (mg_attempt_expires_at_ns m)) +:+ "," +:+
  field "sequence" (to_string (mg_attempt_sequence m)) +:+ "," +:+
  field "correlation_id" "null" +:+ "," +:+
  text_field "idempotency_key" (json_escape (mg_event_id m)) +:+ "," +:+
  text_field "payload_hash" (mg_payload_hash m) +:+ "," +:+
  field "payload" (mg_payload_json m) +:+ "," +:+
  field "signature" ("{" +:+ text_field "algorithm" "UNSIGNED-NAP1-DRAFT" +:+ "," +:+
    text_field "key_id" (json_escape (fi_certificate_sha256 identity)) +:+ "," +:+
    text_field "value" "transport-mtls-only" +:+ "}}").

Definition with_attempt (m : OutboundMessage) (message_id : string) (sequence expires_at_ns : Z)
    (envelope : string) : OutboundMessage :=
  MkOutboundMessage (mg_event_id m) (mg_event_counter m) (mg_producer_key m) (mg_message_type m)
    (mg_finding_type m) (mg_finding_key m) (mg_priority m) (mg_payload_json m) (mg_payload_hash m)
    (mg_state m) message_id sequence envelope expires_at_ns (mg_attempt_count m).

(** The stored envelope is sent again while it is valid for more than the margin. *)
Definition still_valid (m : OutboundMessage) (now_ns : Z) : bool :=
  negb (bool_decide (mg_attempt_envelope_json m = "")) &&
  (wrap_u 64 (now_ns + kAttemptRefreshMarginNs) <? mg_attempt_expires_at_ns m).

Record DispatcherState := MkDispatcherState { ds_outbox : Outbox; ds_disk : Disk }.

Record OutboundDispatchResult := MkDispatchResult {
  dr_attempted : nat; dr_acknowledged : nat; dr_failed : nat }.

Section Dispatcher.
Context `{Sha256} (agent_id : string) (max_bytes : Z) (path : SeqFile -> string) (windows : bool).

(** Fault-free reads of the identity come first, then the random id, then the
    sequence number, which stays consumed whatever happens afterwards. *)
Definition prepare_attempt (m : OutboundMessage) (env : AttemptEnv) (s : DispatcherState) :
    outcome OutboundMessage * DispatcherState :=
  let now_ns := ae_now_ns env in
  if still_valid m now_ns then (Done m, s)
  else
    match ae_identity env with
    | Throw e => (Threw e, s)
    | Ok identity =>
        match random_uuid (ae_random env) with
        | Throw e => (Threw e, s)
        | Ok message_id =>
            match next_nap_sequence path windows (ae_faults env) (ds_disk s) with
            | (Crashed, _, disk) => (Crashed, MkDispatcherState (ds_outbox s) disk)
            | (Threw e, _, disk) => (Threw e, MkDispatcherState (ds_outbox s) disk)
            | (Done sequence, _, disk) =>
                let expires := wrap_u 64 (now_ns + kAttemptLifetimeNs) in
                let m := with_attempt m message_id sequence expires "" in
                let m := with_attempt m message_id sequence expires (envelope_json m identity now_ns) in
                let '(stored, ob) := store_attempt max_bytes m now_ns (ds_outbox s) in
                match stored with
                | Ok _ => (Done m, MkDispatcherState ob disk)
                | Throw e => (Threw e, MkDispatcherState ob disk)
                end
            end
        end
    end.

Definition set_outbox (f : Outbox -> Outbox) (s : DispatcherState) : DispatcherState :=
  MkDispatcherState (f (ds_outbox s)) (ds_disk s).

(** The answer to an envelope: an accepted acknowledgement, or how it failed. *)
Definition judge (m : OutboundMessage) (response : string) : result CoordinatorAck :=
  let? ack := parse_coordinator_ack response in
  let? _ := validate_coordinator_ack ack (mg_attempt_message_id m) (mg_attempt_sequence m)
              (mg_event_id m) (mg_payload_hash m) in
  Ok ack.

(** One round of the loop of [drain] for the message [ready]: whether it was
    acknowledged, or [Crashed] when the process died in it. *)
Definition attempt (ready : OutboundMessage) (env : AttemptEnv) (s : DispatcherState) :
    outcome bool * DispatcherState :=
  let retry e :=
    set_outbox (mark_retry (mg_event_id ready)
      (wrap_u 64 (ae_now_ns env + retry_delay_ns ready)) e) in
  match prepare_attempt ready env s with
  | (Crashed, s) => (Crashed, s)
  | (Threw e, s) => (Done false, retry e s)
  | (Done message, s) =>
      match ae_post env (mg_attempt_envelope_json message) with
      | PostOk response =>
          match judge message response with
          | Ok ack => (Done true, set_outbox (mark_acknowledged (mg_event_id message) ack (ae_ack_now_ns env)) s)
          | Throw e => (Done false, retry e s)
          end
      | PostHttpError status body what =>
          if is_permanent_rejection status body
          then (Done false, set_outbox (mark_dead_letter (mg_event_id ready) what) s)
          else (Done false, retry what s)
      | PostError what => (Done false, retry what s)
      end
  end.

(** The loop: [fuel] is the number of messages still allowed, [envs] the
    environments of the rounds to come. *)
Fixpoint drain_loop (fuel : nat) (envs : nat -> AttemptEnv) (result : OutboundDispatchResult)
    (s : DispatcherState) : outcome OutboundDispatchResult * DispatcherState :=
  match fuel with
  | O => (Done result, s)
  | S fuel' =>
      let env := envs (dr_attempted result) in
      match next_ready (ae_now_ns env) (ds_outbox s) with
      | None => (Done result, s)
      | Some ready =>
          let attempted := S (dr_attempted result) in
          match attempt ready env s with
          | (Done true, s) =>
              drain_loop fuel' envs (MkDispatchResult attempted (S (dr_acknowledged result)) (dr_failed result)) s
          | (Done false, s) =>
              (Done (MkDispatchResult attempted (dr_acknowledged result) (S (dr_failed result))), s)
          | (Threw e, s) => (Threw e, s)
          | (Crashed, s) => (Crashed, s)
          end
      end
  end.

Definition acknowledged_retention_ns : Z := 24 * 60 * 60 * kNanosecondsPerSecond.

Definition drain (maximum_messages : nat) (initial_now_ns : Z) (envs : nat -> AttemptEnv)
    (s : DispatcherState) : outcome OutboundDispatchResult * DispatcherState :=
  let s := set_outbox (prune_acknowledged
    (if acknowledged_retention_ns <? initial_now_ns then initial_now_ns - acknowledged_retention_ns else 0)) s in
  let s := set_outbox (fun ob => (enqueue_gap_marker agent_id max_bytes initial_now_ns ob).2) s in
  drain_loop maximum_messages envs (MkDispatchResult 0 0 0) s.
End Dispatcher.

(** ** Acknowledgements: proofs *)

Lemma negb_bool_decide_false (P : Prop) `{Decision P} : negb (bool_decide P) = false <-> P.
Proof. rewrite negb_false_iff. apply bool_decide_eq_true. Qed.

Lemma validate_ok ack id seq key hash :
  validate_coordinator_ack ack id seq key hash = Ok tt <->
  ack_protocol ack = "neta-agent/1" /\ ack_schema_version ack = 1 /\ ack_message_type ack = "Ack" /\
  ack_version ack = 1 /\ ack_message_id ack = id /\ ack_sequence ack = seq /\
  ack_idempotency_key ack = key /\ ack_payload_hash ack = hash /\
  (ack_status ack = "ACCEPTED" \/ ack_status ack = "ALREADY_ACCEPTED") /\ ack_received_at ack <> "".
Proof.
  assert (B : forall c m (k : unit -> result unit), rbind (throw_if c m) k = Ok tt <-> c = false /\ k tt = Ok tt).
  { intros [] m k; simpl; naive_solver. }
  unfold validate_coordinator_ack. rewrite !B, throw_if_ok, !orb_false_iff, !negb_bool_decide_false.
  rewrite andb_false_iff, !negb_bool_decide_false, !negb_false_iff, !Z.eqb_eq, bool_decide_eq_false. tauto.
Qed.

(** An acknowledgement is accepted exactly if it is a version-1 [Ack] of the
    protocol that names this attempt's message id and sequence number, the event as
    idempotency key and its payload hash, with an accepting status and a commit time. *)
Theorem validate_coordinator_ack_exact ack id seq key hash :
  validate_coordinator_ack ack id seq key hash = Ok tt <->
  ack_protocol ack = "neta-agent/1" /\ ack_schema_version ack = 1 /\ ack_message_type ack = "Ack" /\
  ack_version ack = 1 /\ ack_message_id ack = id /\ ack_sequence ack = seq /\
  ack_idempotency_key ack = key /\ ack_payload_hash ack = hash /\
  (ack_status ack = "ACCEPTED" \/ ack_status ack = "ALREADY_ACCEPTED") /\ ack_received_at ack <> "".
Proof. apply validate_ok. Qed.

(** ** Escaping *)

Definition hex_value (c : ascii) : option Z :=
  if isdigit c then Some (code c - 48)
  else if (97 <=? code c) && (code c <=? 102) then Some (code c - 87) else None.

Definition prepend (c : ascii) (r : option (string * string)) : option (string * string) :=
  (fun '(value, rest) => (String c value, rest)) <$> r.

(** A JSON string after its opening quote: its value and what follows the closing quote. *)
Fixpoint json_string (s : string) : option (string * string) :=
  match s with
  | EmptyString => None
  | String c s' =>
      if Ascii.eqb c "034" then Some ("", s')
      else if code c <? 32 then None
      else if negb (Ascii.eqb c "\") then prepend c (json_string s')
      else match s' with
           | EmptyString => None
           | String e rest =>
               if Ascii.eqb e "034" || Ascii.eqb e "\" || Ascii.eqb e "/" then prepend e (json_string rest)
               else if Ascii.eqb e "n" then prepend "010" (json_string rest)
               else if Ascii.eqb e "r" then prepend "013" (json_string rest)
               else if Ascii.eqb e "t" then prepend "009" (json_string rest)
               else if Ascii.eqb e "u" then
                 match rest with
                 | String a (String b (String h (String l rest'))) =>
                     match hex_value a, hex_value b, hex_value h, hex_value l with
                     | Some 0, Some 0, Some h, Some l => prepend (char_of (16 * h + l)) (json_string rest')
                     | _, _, _, _ => None
                     end
                 | _ => None
                 end
               else None
           end
  end.

Lemma json_string_escape_char c t : json_string (escape_char c +:+ t) = prepend c (json_string t).
Proof. by destruct c as [[] [] [] [] [] [] [] []]. Qed.

(** Escaping is safe: whatever the text (quotes, backslashes, line breaks,
    control characters), a JSON reader that meets its escaped form inside quotes
    reads the text back and stops at the closing quote written after it, so no
    value of an envelope field can end its string early or add fields. *)
Theorem json_escape_read_back value rest :
  json_string (json_escape value +:+ quote +:+ rest) = Some (value, rest).
Proof.
  induction value as [|c value IH]; [done|]. cbn [json_escape].
  by rewrite string_app_assoc, json_string_escape_char, IH.
Qed.

(** ** Back-off *)

(** The retry delay of an event is between 5 and 304 seconds: it doubles with
    the number of attempts from 5 to 300 seconds and adds up to four seconds of
    per-event jitter, and nothing wraps around. *)
Theorem retry_delay_bounds m :
  in_u 64 (mg_attempt_count m) -> in_u 64 (mg_event_counter m) ->
  5 * kNanosecondsPerSecond <= retry_delay_ns m <= 304 * kNanosecondsPerSecond /\
  retry_delay_ns m =
    (Z.min 300 (5 * 2 ^ Z.min (mg_attempt_count m) 6) + mg_event_counter m mod 5) * kNanosecondsPerSecond.
Proof.
  intros Hc He. unfold retry_delay_ns, kNanosecondsPerSecond.
  pose proof (Z.mod_pos_bound (mg_event_counter m) 5 ltac:(lia)) as Hj.
  rewrite Z.shiftl_mul_pow2 by (unfold in_u in *; lia).
  assert (Hp : 1 <= 2 ^ Z.min (mg_attempt_count m) 6 <= 64).
  { split; [apply Z.lt_pred_le, Z.pow_pos_nonneg; unfold in_u in *; lia|].
    change 64 with (2 ^ 6). apply Z.pow_le_mono_r; lia. }
  rewrite (wrap_u_id 64 (5 * _)) by (unfold in_u; lia).
  rewrite wrap_u_id by (unfold in_u; lia). split; lia.
Qed.

Lemma retry_delay_bounds_witness :
  5 * kNanosecondsPerSecond <=
  retry_delay_ns (MkOutboundMessage "a:7" 7 "" "" "" "" 3 "{}" "" Pending "" 0 "" 0 9)
  <= 304 * kNanosecondsPerSecond.
Proof.
  apply (retry_delay_bounds (MkOutboundMessage "a:7" 7 "" "" "" "" 3 "{}" "" Pending "" 0 "" 0 9));
    unfold in_u; simpl; lia.
Defined.

(** ** Attempts: proofs *)

Section DispatcherProofs.
Context `{Sha256} (agent_id : string) (max_bytes : Z) (path : SeqFile -> string) (windows : bool).

(** The fields of an event that an attempt never changes. *)
Definition same_event (m m' : OutboundMessage) : Prop :=
  mg_event_id m' = mg_event_id m /\ mg_payload_hash m' = mg_payload_hash m /\
  mg_payload_json m' = mg_payload_json m.

Lemma prepare_same_event m env s m' s' :
  prepare_attempt max_bytes path windows m env s = (Done m', s') -> same_event m m'.
Proof. unfold prepare_attempt. intros E. repeat case_match; simplify_eq; done. Qed.

Lemma judge_ok m response ack :
  judge m response = Ok ack ->
  parse_coordinator_ack response = Ok ack /\
  validate_coordinator_ack ack (mg_attempt_message_id m) (mg_attempt_sequence m)
    (mg_event_id m) (mg_payload_hash m) = Ok tt.
Proof.
  unfold judge. intros (a & -> & E)%rbind_ok. apply rbind_ok in E as (u & Hv & [= <-]). by destruct u.
Qed.

(** C34: An event is acknowledged only by an accepted answer to its own attempt:
    when a round of the dispatcher ends with the event acknowledged, the coordinator
    answered the very envelope stored for this attempt, the answer named this
    attempt's message id and sequence number, this event and its payload hash, and
    the queue is the one after [mark_acknowledged] of this event. *)
Theorem attempt_acknowledged_sound ready env s s' :
  attempt max_bytes path windows ready env s = (Done true, s') ->
  exists message s1 response ack,
    prepare_attempt max_bytes path windows ready env s = (Done message, s1) /\
    same_event ready message /\
    ae_post env (mg_attempt_envelope_json message) = PostOk response /\
    parse_coordinator_ack response = Ok ack /\
    ack_message_id ack = mg_attempt_message_id message /\
    ack_sequence ack = mg_attempt_sequence message /\
    ack_idempotency_key ack = mg_event_id ready /\ ack_payload_hash ack = mg_payload_hash ready /\
    (ack_status ack = "ACCEPTED" \/ ack_status ack = "ALREADY_ACCEPTED") /\
    s' = set_outbox (mark_acknowledged (mg_event_id ready) ack (ae_ack_now_ns env)) s1.
Proof.
  unfold attempt. destruct (prepare_attempt _ _ _ ready env s) as [[m|e|] s1] eqn:Ep; try done.
  destruct (prepare_same_event _ _ _ _ _ Ep) as (E1 & E2 & E3).
  destruct (ae_post env _) as [response|status body what|what] eqn:Eo; try done.
  - destruct (judge m response) as [ack|e] eqn:Ej; [|done]. intros [= <-].
    apply judge_ok in Ej as [Epa Hv]. apply validate_ok in Hv as (_ & _ & _ & _ & ? & ? & ? & ? & ? & _).
    exists m, s1, response, ack. rewrite E1 in *. split_and!; try done; congruence.
  - by destruct (is_permanent_rejection status body).
Qed.

(** The message of a ready row names one unacknowledged row. *)
Lemma next_ready_row now_ns ob m :
  agent_ok agent_id -> outbox_inv agent_id max_bytes ob -> next_ready now_ns ob = Some m ->
  exists r, r ∈ ob_rows ob /\ mg_event_id m = om_event_id r /\
    c_str (om_event_id r) = om_event_id r /\ open_row r = true.
Proof.
  intros Ha Hinv (r & E & ->)%fmap_Some. unfold ready_row in E.
  apply first_by_spec in E as [[Hr Hin]%list_elem_of_filter _]. exists r. split; [done|]. split; [done|].
  destruct (oi_ids _ _ _ Hinv r Hin) as [-> ?]. split; [apply c_str_event_id; [done|lia]|].
  unfold is_ready in Hr. to_prop. unfold open_row. by destruct (om_state r).
Qed.

Lemma unique_not_acked ob r :
  outbox_inv agent_id max_bytes ob -> r ∈ ob_rows ob -> c_str (om_event_id r) = om_event_id r ->
  open_row r = true -> not_acked (om_event_id r) ob.
Proof.
  intros Hinv Hr Hc Ho. unfold not_acked, is_acknowledged. apply existsb_false_iff. intros r' Hr'.
  rewrite Hc. case_bool_decide as E; [|done]. simpl.
  rewrite (NoDup_fmap_inv_eq om_event_id _ r' r (inv_ids _ _ _ Hinv) Hr' Hr E). by rewrite Ho.
Qed.

(** The envelope an attempt would build for this message has a possible size. *)
Definition envelope_ok (m : OutboundMessage) (env : AttemptEnv) : Prop :=
  forall identity id seq, ae_identity env = Ok identity -> random_uuid (ae_random env) = Ok id ->
    in_u 64 seq ->
    string_ok (envelope_json (with_attempt m id seq (wrap_u 64 (ae_now_ns env + kAttemptLifetimeNs)) "")
      identity (ae_now_ns env)).

Lemma next_nap_sequence_range fs d :
  match next_nap_sequence path windows fs d with (Done v, _, _) => in_u 64 v | _ => True end.
Proof.
  assert (Hh : hoare (fun _ => True) (next_nap_sequence path windows) (fun v _ => in_u 64 v) (fun _ => True)).
  { unfold next_nap_sequence, next_windows_sequence, next_posix_sequence. destruct windows.
    - do 4 (eapply hoare_bind; [apply hoare_any|]; intros ?). eapply hoare_bind; [apply hoare_any|].
      intros [[c s0] s1]. destruct (c =? u64_max); [by apply hoare_raise|].
      do 4 (eapply hoare_bind; [apply hoare_any|]; intros ?).
      apply hoare_ret. intros. apply wrap_u_in. lia.
    - do 3 (eapply hoare_bind; [apply hoare_any|]; intros ?). destruct (negb _); [by apply hoare_raise|].
      do 2 (eapply hoare_bind; [apply hoare_any|]; intros ?). destruct (_ =? u64_max); [by apply hoare_raise|].
      do 2 (eapply hoare_bind; [apply hoare_any|]; intros ?).
      apply hoare_ret. intros. apply wrap_u_in. lia. }
  specialize (Hh fs d I). by destruct (next_nap_sequence path windows fs d) as [[[] ?] ?].
Qed.

(** Preparing an attempt keeps the invariant and leaves the event unacknowledged. *)
Lemma prepare_inv m env s r :
  in_u 64 max_bytes -> envelope_ok m env -> outbox_inv agent_id max_bytes (ds_outbox s) ->
  r ∈ ob_rows (ds_outbox s) -> mg_event_id m = om_event_id r -> c_str (om_event_id r) = om_event_id r ->
  open_row r = true ->
  let s' := (prepare_attempt max_bytes path windows m env s).2 in
  outbox_inv agent_id max_bytes (ds_outbox s') /\ not_acked (om_event_id r) (ds_outbox s').
Proof.
  intros Hm Hok Hinv Hr Em Hc Ho. pose proof (unique_not_acked _ r Hinv Hr Hc Ho) as Hn.
  unfold prepare_attempt. destruct (still_valid m _); [done|].
  destruct (ae_identity env) as [identity|e] eqn:Ei; [|done].
  destruct (random_uuid _) as [id|e] eqn:Eu; [|done].
  pose proof (next_nap_sequence_range (ae_faults env) (ds_disk s)) as Hseq.
  destruct (next_nap_sequence _ _ _ _) as [[[seq|e|] fs] disk]; try done.
  set (m' := with_attempt _ id seq _ (envelope_json _ _ _)).
  pose proof (store_attempt_outcome agent_id max_bytes m' (ae_now_ns env) (ds_outbox s) Hm
    (Hok identity id seq Ei Eu Hseq)) as Hs.
  change (mg_event_id m') with (mg_event_id m) in Hs. rewrite Em in Hs. specialize (Hs Hn Hinv).
  destruct (store_attempt _ m' _ _) as [[u|e] ob]; destruct Hs as [Hinv' Hs]; simpl; [|by rewrite Hs].
  split; [done|]. destruct Hs as (r0 & Hr0 & E0 & Hin). rewrite Hc in E0.
  assert (E1 : om_event_id (set_attempt m' (ae_now_ns env) r0) = om_event_id r) by done.
  rewrite <- E1. apply unique_not_acked; [done|done|by rewrite E1|done].
Qed.

(** A round keeps the queue's invariant on every branch: for a message that
    [next_ready] handed out, whatever the environment does (no identity, no random
    bytes, failing sequence files, a queue without room for the envelope, rejection,
    garbage or silence from the coordinator), ids and producer keys stay unique and
    the byte budget holds. *)
Theorem attempt_keeps_invariant ready env s :
  agent_ok agent_id -> in_u 64 max_bytes -> outbox_inv agent_id max_bytes (ds_outbox s) ->
  next_ready (ae_now_ns env) (ds_outbox s) = Some ready -> envelope_ok ready env ->
  outbox_inv agent_id max_bytes (ds_outbox (attempt max_bytes path windows ready env s).2).
Proof.
  intros Ha Hm Hinv Hready Hok. destruct (next_ready_row _ _ _ Ha Hinv Hready) as (r & Hr & Em & Hc & Ho).
  destruct (prepare_inv ready env s r Hm Hok Hinv Hr Em Hc Ho) as [Hi Hn].
  unfold attempt. destruct (prepare_attempt _ _ _ ready env s) as [[m|e|] s1] eqn:Ep; simpl in *; rewrite ?Em.
  - destruct (ae_post env _) as [response|status body what|what]; [|destruct (is_permanent_rejection status body)|].
    + destruct (judge m response); [by apply mark_acknowledged_inv|]. by apply mark_retry_inv.
    + by apply mark_dead_letter_inv.
    + by apply mark_retry_inv.
    + by apply mark_retry_inv.
  - by apply mark_retry_inv.
  - done.
Qed.

Lemma drain_loop_counts fuel envs result s :
  match drain_loop max_bytes path windows fuel envs result s with
  | (Done r, _) =>
      (dr_attempted r <= dr_attempted result + fuel)%nat /\
      (dr_attempted r - dr_attempted result =
       (dr_acknowledged r - dr_acknowledged result) + (dr_failed r - dr_failed result))%nat /\
      (dr_attempted result <= dr_attempted r)%nat /\
      (dr_acknowledged result <= dr_acknowledged r)%nat /\
      (dr_failed result <= dr_failed r <= S (dr_failed result))%nat
  | (Threw _, _) => False
  | (Crashed, _) => True
  end.
Proof.
  revert result s. induction fuel as [|fuel IH]; intros result s; simpl; [lia|].
  destruct (next_ready _ _) as [ready|]; [|lia].
  assert (Hnt : forall e s', attempt max_bytes path windows ready (envs (dr_attempted result)) s <> (Threw e, s')).
  { intros e s'. unfold attempt. by repeat case_match. }
  destruct (attempt _ _ _ ready _ s) as [[[]|e|] s1]; [|simpl; lia|by destruct (Hnt e s1)|done].
  specialize (IH (MkDispatchResult (S (dr_attempted result)) (S (dr_acknowledged result)) (dr_failed result)) s1).
  destruct (drain_loop _ _ _ fuel envs _ s1) as [[r|e|] s2]; simpl in *; [lia|done|done].
Qed.

(** [drain] ends within the requested number of attempts, never throws, and
    accounts for every attempt as acknowledged or failed; it stops at the first
    failure, so at most one attempt fails. *)
Theorem drain_counts maximum now_ns envs s :
  match drain agent_id max_bytes path windows maximum now_ns envs s with
  | (Done r, _) => (dr_attempted r <= maximum)%nat /\
      dr_attempted r = (dr_acknowledged r + dr_failed r)%nat /\ (dr_failed r <= 1)%nat
  | (Threw _, _) => False
  | (Crashed, _) => True
  end.
Proof.
  unfold drain. set (s1 := set_outbox _ (set_outbox _ s)).
  pose proof (drain_loop_counts maximum envs (MkDispatchResult 0 0 0) s1) as Hc.
  destruct (drain_loop _ _ _ maximum envs _ s1) as [[r|e|] s2]; simpl in *; [lia|done|done].
Qed.
End DispatcherProofs.

(** ** Replaying a stored attempt *)

(** A retry repeats the attempt: after an attempt was stored, the event's row hands
    out exactly the stored message id, sequence number and envelope, and as long as
    that envelope is valid for more than the refresh margin, preparing the next
    attempt returns it unchanged and consumes no sequence number. *)
Theorem stored_attempt_is_replayed `{Sha256} agent_id max_bytes path windows m now_ns ob ob' :
  in_u 64 max_bytes -> string_ok (mg_attempt_envelope_json m) -> outbox_inv agent_id max_bytes ob ->
  not_acked (mg_event_id m) ob -> store_attempt max_bytes m now_ns ob = (Ok tt, ob') ->
  in_u 64 (mg_attempt_sequence m) -> in_u 64 (mg_attempt_expires_at_ns m) ->
  c_str (mg_attempt_message_id m) = mg_attempt_message_id m ->
  c_str (mg_attempt_envelope_json m) = mg_attempt_envelope_json m -> mg_attempt_envelope_json m <> "" ->
  exists r, r ∈ ob_rows ob' /\ om_event_id r = c_str (mg_event_id m) /\
    let m' := message_of_row r in
    mg_attempt_message_id m' = mg_attempt_message_id m /\ mg_attempt_sequence m' = mg_attempt_sequence m /\
    mg_attempt_envelope_json m' = mg_attempt_envelope_json m /\
    forall env s, 0 <= ae_now_ns env ->
      ae_now_ns env + kAttemptRefreshMarginNs < mg_attempt_expires_at_ns m ->
      prepare_attempt max_bytes path windows m' env s = (Done m', s).
Proof.
  intros Hm Hs Hinv Hn E Hseq Hexp Hid Henv Hne.
  pose proof (store_attempt_outcome agent_id max_bytes m now_ns ob Hm Hs Hn Hinv) as Ho. rewrite E in Ho.
  destruct Ho as (_ & r & Hr & Er & Hin). exists (set_attempt m now_ns r). split; [done|]. split; [done|].
  cbn [message_of_row mg_attempt_message_id mg_attempt_sequence mg_attempt_envelope_json set_attempt
       om_attempt_message_id om_attempt_sequence om_attempt_envelope_json value_or default].
  unfold value_or. simpl. rewrite Hid, Henv, wrap_u_wrap_s by done. split_and!; [done..|].
  intros env s Hnow Hlt. unfold prepare_attempt, still_valid. simpl. unfold value_or. simpl.
  rewrite Henv, bool_decide_eq_false_2, wrap_u_wrap_s by done.
  rewrite (wrap_u_id 64 (_ + _)) by (unfold kAttemptRefreshMarginNs, kNanosecondsPerSecond, in_u in *; lia).
  by rewrite (proj2 (Z.ltb_lt _ _)).
Qed.

(** ** Concrete runs *)

#[local] Existing Instance sum_digest.

Definition demo_ack : string :=
  "{" +:+ text_field "protocol" "neta-agent/1" +:+ "," +:+ field "schemaVersion" "1" +:+ "," +:+
  text_field "messageType" "Ack" +:+ "," +:+ field "ackVersion" "1" +:+ "," +:+
  text_field "messageId" "00000000-0000-4000-8000-000000000000" +:+ "," +:+ field "sequence" " 42" +:+ "," +:+
  text_field "idempotencyKey" "agent:3" +:+ "," +:+ text_field "payloadHash" "sha256:00" +:+ "," +:+
  text_field "status" "ACCEPTED" +:+ "," +:+ text_field "receivedAt" "2026-01-01" +:+ "}".

Definition demo_env : AttemptEnv :=
  MkAttemptEnv 1700000000123000000 (Ok (MkFleetIdentity "agent" "ab")) (Some (repeat "000"%byte 16)) []
    (fun _ => PostOk demo_ack) 1700000001000000000.

Definition demo_state : DispatcherState := MkDispatcherState demo_outbox (legacy_only 41).

Example demo_clock : iso8601 1700000000123000000 = "2023-11-14T22:13:20.123Z".
Proof. reflexivity. Qed.

Definition demo_message : OutboundMessage :=
  default (MkOutboundMessage "" 0 "" "" "" "" 0 "" "" Pending "" 0 "" 0 0) (next_ready (ae_now_ns demo_env) demo_outbox).

Definition demo_inv_5000 : outbox_inv "agent" 5000 demo_outbox.
Proof. destruct demo_inv. by split. Qed.

Lemma attempt_acknowledged_sound_witness :
  exists message s1 response ack,
    prepare_attempt 5000 seq_path false demo_message demo_env demo_state = (Done message, s1) /\
    same_event demo_message message /\
    ae_post demo_env (mg_attempt_envelope_json message) = PostOk response /\
    parse_coordinator_ack response = Ok ack /\
    ack_message_id ack = mg_attempt_message_id message /\ ack_sequence ack = mg_attempt_sequence message /\
    ack_idempotency_key ack = mg_event_id demo_message /\ ack_payload_hash ack = mg_payload_hash demo_message /\
    (ack_status ack = "ACCEPTED" \/ ack_status ack = "ALREADY_ACCEPTED") /\
    (attempt 5000 seq_path false demo_message demo_env demo_state).2 =
      set_outbox (mark_acknowledged (mg_event_id demo_message) ack (ae_ack_now_ns demo_env)) s1.
Proof. apply (attempt_acknowledged_sound 5000 seq_path false). vm_compute. reflexivity. Defined.

Lemma demo_envelope_ok : envelope_ok demo_message demo_env.
Proof.
  intros identity id seq [= <-] [= <-] Hseq. pose proof (to_string_length seq Hseq).
  unfold string_ok, envelope_json. cbn [with_attempt mg_attempt_sequence]. generalize dependent (to_string seq).
  intros digits Hd. unfold text_field, field. rewrite !string_length_app, !Nat2Z.inj_add.
  repeat match goal with |- context [Z.of_nat (String.length ?t)] =>
    assert_fails (is_var t); let n := eval vm_compute in (Z.of_nat (String.length t)) in
    replace (Z.of_nat (String.length t)) with n by (vm_compute; reflexivity) end.
  lia.
Qed.

Lemma attempt_keeps_invariant_witness :
  outbox_inv "agent" 5000 (ds_outbox (attempt 5000 seq_path false demo_message demo_env demo_state).2).
Proof.
  apply (attempt_keeps_invariant "agent" 5000 seq_path false demo_message);
    [reflexivity|unfold in_u; lia|exact demo_inv_5000|vm_compute; reflexivity|exact demo_envelope_ok].
Defined.

Definition demo_attempt : OutboundMessage := with_attempt demo_message "id" 42 1700000300000000000 "{}".

Lemma stored_attempt_is_replayed_witness :
  exists r, r ∈ ob_rows (store_attempt 5000 demo_attempt 1700000000000000000 demo_outbox).2 /\
    om_event_id r = c_str (mg_event_id demo_attempt) /\
    let m' := message_of_row r in
    mg_attempt_message_id m' = "id" /\ mg_attempt_sequence m' = 42 /\ mg_attempt_envelope_json m' = "{}" /\
    forall env s, 0 <= ae_now_ns env ->
      ae_now_ns env + kAttemptRefreshMarginNs < 1700000300000000000 ->
      prepare_attempt 5000 seq_path false m' env s = (Done m', s).
Proof.
  apply (stored_attempt_is_replayed "agent" 5000 seq_path false demo_attempt 1700000000000000000 demo_outbox);
    first [reflexivity | exact demo_inv_5000 | unfold in_u; simpl; lia | vm_compute; reflexivity | discriminate].
Defined.
