(* ===== verification/ProcessGraph.v ===== *)
(** The process graph ([src/core/process_graph.cpp] lines 13-165,
    [include/neta/process_graph.hpp]): a bounded map from process instances to
    nodes, with an index of the live instances of each pid and the insertion order
    used for eviction.

    [nodes_] is a [gmap]; the multimap [active_by_pid_] is the list of its entries;
    [insertion_order_] is a list.  The theorems: in every graph built by [observe]
    the capacity holds, the index lists exactly the live nodes and the insertion
    order exactly the nodes; what [observe] does on every branch; exits and parent
    links without a stable identity are attributed only when the pid is
    unambiguous, and no link to a parent that started after its child is made. *)

From stdpp Require Import sorting.
From S2P Require Import Prelude Model.

(** ** Instances *)

Record ProcessInstanceKey := MkKey {
  key_pid : Z;
  key_start_time_ns : option Z;
  key_platform_key : option Z }.

#[global] Instance ProcessInstanceKey_eq_dec : EqDecision ProcessInstanceKey.
Proof. solve_decision. Defined.
#[global] Program Instance ProcessInstanceKey_countable : Countable ProcessInstanceKey :=
  inj_countable' (fun k => (key_pid k, key_start_time_ns k, key_platform_key k))
    (fun '(pid, start, platform) => MkKey pid start platform) _.
Next Obligation. by intros []. Qed.

Definition durable (key : ProcessInstanceKey) : bool :=
  (0 <? key_pid key) && (has (key_platform_key key) || has (key_start_time_ns key)).

Record ProcessNode := MkNode {
  pn_key : ProcessInstanceKey;
  pn_parent : option ProcessInstanceKey;
  pn_parent_pid : option Z;
  pn_uid : option Z;
  pn_gid : option Z;
  pn_session_id : option Z;
  pn_user_identity : string;
  pn_integrity_level : string;
  pn_elevated : option bool;
  pn_comm : string;
  pn_executable_path : string;
  pn_command_line : string;
  pn_working_directory : string;
  pn_started_at_ns : Z;
  pn_exited_at_ns : option Z;
  pn_exit_code : option Z }.

Record ProcessGraphHealth := MkHealth {
  h_rejected_without_stable_identity : Z;
  h_ambiguous_parent_links : Z;
  h_rejected_invalid_parent_links : Z;
  h_ambiguous_exit_events : Z;
  h_evicted_nodes : Z }.

Definition increment (z : Z) : Z := wrap_u 64 (z + 1).
Definition count_unstable (h : ProcessGraphHealth) : ProcessGraphHealth :=
  MkHealth (increment (h_rejected_without_stable_identity h)) (h_ambiguous_parent_links h)
    (h_rejected_invalid_parent_links h) (h_ambiguous_exit_events h) (h_evicted_nodes h).
Definition count_ambiguous_parent (h : ProcessGraphHealth) : ProcessGraphHealth :=
  MkHealth (h_rejected_without_stable_identity h) (increment (h_ambiguous_parent_links h))
    (h_rejected_invalid_parent_links h) (h_ambiguous_exit_events h) (h_evicted_nodes h).
Definition count_invalid_parent (h : ProcessGraphHealth) : ProcessGraphHealth :=
  MkHealth (h_rejected_without_stable_identity h) (h_ambiguous_parent_links h)
    (increment (h_rejected_invalid_parent_links h)) (h_ambiguous_exit_events h) (h_evicted_nodes h).
Definition count_ambiguous_exit (h : ProcessGraphHealth) : ProcessGraphHealth :=
  MkHealth (h_rejected_without_stable_identity h) (h_ambiguous_parent_links h)
    (h_rejected_invalid_parent_links h) (increment (h_ambiguous_exit_events h)) (h_evicted_nodes h).
Definition count_evicted (h : ProcessGraphHealth) : ProcessGraphHealth :=
  MkHealth (h_rejected_without_stable_identity h) (h_ambiguous_parent_links h)
    (h_rejected_invalid_parent_links h) (h_ambiguous_exit_events h) (increment (h_evicted_nodes h)).

Record ProcessGraph := MkGraph {
  pg_max_nodes : nat;
  pg_nodes : gmap ProcessInstanceKey ProcessNode;
  pg_active_by_pid : list (Z * ProcessInstanceKey);
  pg_insertion_order : list ProcessInstanceKey;
  pg_health : ProcessGraphHealth }.

Definition new_graph (max_nodes : nat) : result ProcessGraph :=
  if (max_nodes =? 0)%nat then Throw "process graph capacity must be non-zero"
  else Ok (MkGraph max_nodes ∅ [] [] (MkHealth 0 0 0 0 0)).

Definition set_health (f : ProcessGraphHealth -> ProcessGraphHealth) (g : ProcessGraph) : ProcessGraph :=
  MkGraph (pg_max_nodes g) (pg_nodes g) (pg_active_by_pid g) (pg_insertion_order g) (f (pg_health g)).

(** ** Operations *)

Definition key_from (event : ProcessExecEvent) : option ProcessInstanceKey :=
  match pe_tgid event with
  | None => None
  | Some tgid =>
      if tgid <=? 0 then None
      else
        let platform := pe_platform_process_key event in
        let key := MkKey tgid (if has platform then None else pe_process_start_time_ns event) platform in
        if durable key then Some key else None
  end.

Definition equal_range (pid : Z) (active : list (Z * ProcessInstanceKey)) : list (Z * ProcessInstanceKey) :=
  filter (fun e => e.1 = pid) active.

Definition unique_active_key_for_pid (pid : Z) (g : ProcessGraph) : option ProcessInstanceKey :=
  match equal_range pid (pg_active_by_pid g) with
  | [(_, key)] => Some key
  | _ => None
  end.

Definition index_active (key : ProcessInstanceKey) (active : list (Z * ProcessInstanceKey)) :
    list (Z * ProcessInstanceKey) :=
  active ++ [(key_pid key, key)].

Fixpoint unindex_active (key : ProcessInstanceKey) (active : list (Z * ProcessInstanceKey)) :
    list (Z * ProcessInstanceKey) :=
  match active with
  | [] => []
  | e :: active' =>
      if bool_decide (e.1 = key_pid key) && bool_decide (e.2 = key) then active'
      else e :: unindex_active key active'
  end.

(** The loop of [evict_if_needed], over the remaining insertion order. *)
Fixpoint evict_loop (max_nodes : nat) (order : list ProcessInstanceKey)
    (nodes : gmap ProcessInstanceKey ProcessNode) (active : list (Z * ProcessInstanceKey))
    (h : ProcessGraphHealth) : ProcessGraph :=
  if (max_nodes <=? size nodes)%nat then
    match order with
    | [] => MkGraph max_nodes nodes active order h
    | oldest :: order' =>
        match nodes !! oldest with
        | None => evict_loop max_nodes order' nodes active h
        | Some node =>
            evict_loop max_nodes order' (delete oldest nodes)
              (if has (pn_exited_at_ns node) then active else unindex_active oldest active)
              (count_evicted h)
        end
    end
  else MkGraph max_nodes nodes active order h.

Definition evict_if_needed (g : ProcessGraph) : ProcessGraph :=
  evict_loop (pg_max_nodes g) (pg_insertion_order g) (pg_nodes g) (pg_active_by_pid g) (pg_health g).

Definition mark_exit (event : ProcessExecEvent) (n : ProcessNode) : ProcessNode :=
  MkNode (pn_key n) (pn_parent n) (pn_parent_pid n) (pn_uid n) (pn_gid n) (pn_session_id n)
    (pn_user_identity n) (pn_integrity_level n) (pn_elevated n) (pn_comm n) (pn_executable_path n)
    (pn_command_line n) (pn_working_directory n) (pn_started_at_ns n)
    (Some (pe_timestamp_ns event)) (pe_exit_code event).

Definition refresh_node (event : ProcessExecEvent) (n : ProcessNode) : ProcessNode :=
  MkNode (pn_key n) (pn_parent n) (pn_parent_pid n) (pe_uid event) (pe_gid event) (pe_session_id event)
    (pe_user_identity event) (pe_integrity_level event) (pe_elevated event) (pe_comm event)
    (pe_executable_path event) (pe_command_line event) (pe_working_directory event)
    (pn_started_at_ns n) (pn_exited_at_ns n) (pn_exit_code n).

Definition event_node (key : ProcessInstanceKey) (event : ProcessExecEvent)
    (parent : option ProcessInstanceKey) : ProcessNode :=
  MkNode key parent
    (match pe_parent_tgid event with Some p => Some p | None => pe_parent_pid event end)
    (pe_uid event) (pe_gid event) (pe_session_id event) (pe_user_identity event)
    (pe_integrity_level event) (pe_elevated event) (pe_comm event) (pe_executable_path event)
    (pe_command_line event) (pe_working_directory event) (pe_timestamp_ns event) None None.

(** The parent the event names, if it can be told which instance that is. *)
Definition resolve_parent (event : ProcessExecEvent) (parent_tgid : Z) (g : ProcessGraph) :
    option ProcessInstanceKey * ProcessGraph :=
  let platform := pe_parent_platform_process_key event in
  let parent_key := MkKey parent_tgid
    (if has platform then None else pe_parent_process_start_time_ns event) platform in
  if durable parent_key then (Some parent_key, g)
  else
    match unique_active_key_for_pid parent_tgid g with
    | Some key => (Some key, g)
    | None =>
        (None, if bool_decide (equal_range parent_tgid (pg_active_by_pid g) = []) then g
               else set_health count_ambiguous_parent g)
    end.

Definition parent_start (event : ProcessExecEvent) (parent : ProcessInstanceKey) (g : ProcessGraph) : option Z :=
  match pe_parent_process_start_time_ns event with
  | Some t => Some t
  | None =>
      match pg_nodes g !! parent with
      | Some n => if pn_started_at_ns n =? 0 then None else Some (pn_started_at_ns n)
      | None => None
      end
  end.

Definition child_start (event : ProcessExecEvent) : option Z :=
  match pe_process_start_time_ns event with
  | Some t => Some t
  | None => if pe_timestamp_ns event =? 0 then None else Some (pe_timestamp_ns event)
  end.

(** The parent started after its child, as far as both starts are known. *)
Definition invalid_link (event : ProcessExecEvent) (parent : ProcessInstanceKey) (g : ProcessGraph) : bool :=
  match child_start event, parent_start event parent g with
  | Some c, Some p => c <? p
  | _, _ => false
  end.

Definition link_parent (event : ProcessExecEvent) (g : ProcessGraph) : option ProcessInstanceKey * ProcessGraph :=
  match pe_parent_tgid event with
  | None => (None, g)
  | Some parent_tgid =>
      if parent_tgid <=? 0 then (None, g)
      else
        let '(resolved, g) := resolve_parent event parent_tgid g in
        match resolved with
        | None => (None, g)
        | Some parent =>
            if invalid_link event parent g then (None, set_health count_invalid_parent g)
            else (Some parent, g)
        end
  end.

Definition observe_exit (event : ProcessExecEvent) (key : ProcessInstanceKey) (g : ProcessGraph) : bool * ProcessGraph :=
  match pg_nodes g !! key with
  | None => (false, g)
  | Some node =>
      (true, MkGraph (pg_max_nodes g) (<[key := mark_exit event node]> (pg_nodes g))
               (unindex_active key (pg_active_by_pid g)) (pg_insertion_order g) (pg_health g))
  end.

Definition observe_start (event : ProcessExecEvent) (key : ProcessInstanceKey) (g : ProcessGraph) : bool * ProcessGraph :=
  match pg_nodes g !! key with
  | Some node =>
      (true, MkGraph (pg_max_nodes g) (<[key := refresh_node event node]> (pg_nodes g))
               (pg_active_by_pid g) (pg_insertion_order g) (pg_health g))
  | None =>
      let g := evict_if_needed g in
      let '(parent, g) := link_parent event g in
      match pg_nodes g !! key with
      | Some _ => (false, g)
      | None =>
          (true, MkGraph (pg_max_nodes g) (<[key := event_node key event parent]> (pg_nodes g))
                   (index_active key (pg_active_by_pid g)) (pg_insertion_order g ++ [key]) (pg_health g))
      end
  end.

Definition is_exit (event : ProcessExecEvent) : bool := bool_decide (pe_type event = Exit).

Definition observe (event : ProcessExecEvent) (g : ProcessGraph) : bool * ProcessGraph :=
  match key_from event with
  | Some key => if is_exit event then observe_exit event key g else observe_start event key g
  | None =>
      match pe_tgid event with
      | Some tgid =>
          if is_exit event && (0 <? tgid) then
            match unique_active_key_for_pid tgid g with
            | None => (false, set_health count_ambiguous_exit g)
            | Some key => observe_exit event key g
            end
          else (false, set_health count_unstable g)
      | None => (false, set_health count_unstable g)
      end
  end.

Definition find (key : ProcessInstanceKey) (g : ProcessGraph) : option ProcessNode := pg_nodes g !! key.

Definition started_before (a b : ProcessNode) : Prop :=
  pn_started_at_ns a < pn_started_at_ns b \/
  (pn_started_at_ns a = pn_started_at_ns b /\ key_pid (pn_key a) <= key_pid (pn_key b)).
#[global] Instance started_before_dec : RelDecision started_before.
Proof. intros a b. unfold started_before. apply _. Defined.

Definition snapshot (g : ProcessGraph) : list ProcessNode :=
  merge_sort started_before ((map_to_list (pg_nodes g)).*2).

Definition active_count (g : ProcessGraph) : nat :=
  size (filter (fun e => pn_exited_at_ns e.2 = None) (pg_nodes g)).

(** ** Invariant *)

Definition live (nodes : gmap ProcessInstanceKey ProcessNode) (key : ProcessInstanceKey) : Prop :=
  exists n, nodes !! key = Some n /\ pn_exited_at_ns n = None.

Record core_inv (nodes : gmap ProcessInstanceKey ProcessNode) (active : list (Z * ProcessInstanceKey))
    (order : list ProcessInstanceKey) : Prop := {
  ci_order_nodup : NoDup order;
  ci_order : forall key, key ∈ order <-> is_Some (nodes !! key);
  ci_keys : forall key n, nodes !! key = Some n -> pn_key n = key /\ durable key = true;
  ci_active_nodup : NoDup active;
  ci_active : forall pid key, (pid, key) ∈ active <-> pid = key_pid key /\ live nodes key }.

Record graph_inv (g : ProcessGraph) : Prop := {
  gi_capacity : (1 <= pg_max_nodes g)%nat;
  gi_size : (size (pg_nodes g) <= pg_max_nodes g)%nat;
  gi_core : core_inv (pg_nodes g) (pg_active_by_pid g) (pg_insertion_order g) }.

Lemma unindex_elem key active e :
  NoDup active -> e ∈ unindex_active key active <-> e ∈ active /\ e <> (key_pid key, key).
Proof.
  induction active as [|a active IH]; intros Hnd; simpl.
  { split; [intros H; by apply not_elem_of_nil in H|intros [H _]; by apply not_elem_of_nil in H]. }
  apply NoDup_cons in Hnd as [Ha Hnd].
  destruct (bool_decide (a.1 = key_pid key) && bool_decide (a.2 = key)) eqn:E.
  - to_prop. destruct a as [p k]. simpl in *. subst p k. rewrite elem_of_cons. split.
    + intros He. split; [by right|]. by intros ->.
    + by intros [[->|He] Hne].
  - rewrite !elem_of_cons, (IH Hnd).
    assert (a <> (key_pid key, key)).
    { intros ->. simpl in E. by rewrite !bool_decide_eq_true_2 in E. }
    split; [intros [->|[? ?]]; auto|]. intros [[->|?] ?]; auto.
Qed.

Lemma unindex_nodup key active : NoDup active -> NoDup (unindex_active key active).
Proof.
  induction active as [|a active IH]; intros Hnd; simpl; [constructor|].
  pose proof Hnd as [Ha Hnd']%NoDup_cons. destruct (_ && _); [done|]. constructor; [|by apply IH].
  intros [? _]%unindex_elem; done.
Qed.

Lemma live_delete nodes key k : live (delete key nodes) k <-> k <> key /\ live nodes k.
Proof.
  unfold live. split.
  - intros (n & E & Hn). apply lookup_delete_Some in E as [? ?]. eauto.
  - intros [Hne (n & E & Hn)]. exists n. rewrite lookup_delete_ne by auto. done.
Qed.

(** Removing the oldest instance. *)
Lemma core_inv_evict nodes active oldest order n :
  core_inv nodes active (oldest :: order) -> nodes !! oldest = Some n ->
  core_inv (delete oldest nodes)
    (if has (pn_exited_at_ns n) then active else unindex_active oldest active) order.
Proof.
  intros [Ho Hi Hk Ha Hl] En. apply NoDup_cons in Ho as [Hno Ho].
  assert (Hlive : live nodes oldest <-> pn_exited_at_ns n = None).
  { unfold live. rewrite En. naive_solver. }
  split; [done|..].
  - intros key. rewrite lookup_delete_is_Some, <- Hi, elem_of_cons. split.
    + intros Hin. split; [by intros ->|by right].
    + by intros [Hne [->|Hin]].
  - intros key m [Hne E]%lookup_delete_Some. by apply Hk.
  - destruct (has _); [done|by apply unindex_nodup].
  - intros pid key. rewrite live_delete. destruct (pn_exited_at_ns n) eqn:E; simpl.
    + rewrite Hl. split; [|tauto]. intros [-> Hlv]. split_and!; [done| |done]. intros ->. by apply Hlive in Hlv.
    + rewrite unindex_elem by done. rewrite Hl. split.
      * intros [[-> Hlv] Hne]. split_and!; [done| |done]. by intros ->.
      * intros (-> & Hne & Hlv). split; [done|]. intros E2%(f_equal snd). by simpl in E2.
Qed.

Lemma evict_loop_spec max_nodes order nodes active h :
  (1 <= max_nodes)%nat -> core_inv nodes active order ->
  let g := evict_loop max_nodes order nodes active h in
  graph_inv g /\ (size (pg_nodes g) < max_nodes)%nat /\ pg_nodes g ⊆ nodes /\
  pg_max_nodes g = max_nodes /\
  exists evicted, order = evicted ++ pg_insertion_order g /\
    forall key, pg_nodes g !! key = if decide (key ∈ evicted) then None else nodes !! key.
Proof.
  intros Hmax. revert nodes active h. induction order as [|oldest order IH]; intros nodes active h Hc; simpl.
  - assert (E : nodes = ∅).
    { apply map_empty. intros key. destruct (nodes !! key) eqn:E; [|done].
      assert (Hin : key ∈ @nil ProcessInstanceKey) by (apply (ci_order _ _ _ Hc); eauto). by apply not_elem_of_nil in Hin. }
    subst. rewrite map_size_empty. destruct max_nodes; [lia|]. simpl.
    split_and!; [|rewrite map_size_empty; lia|done|done|by exists []]. split; simpl; [lia|rewrite map_size_empty; lia|done].
  - destruct (Nat.leb_spec max_nodes (size nodes)) as [Hfull|Hfree]; simpl.
    + destruct (nodes !! oldest) as [n|] eqn:En.
      2:{ assert (Hin : oldest ∈ oldest :: order) by (by left). apply (ci_order _ _ _ Hc) in Hin as [? ?]. congruence. }
      destruct (IH (delete oldest nodes) (if has (pn_exited_at_ns n) then active else unindex_active oldest active)
        (count_evicted h) (core_inv_evict _ _ _ _ _ Hc En)) as (H1 & H2 & H3 & H4 & evicted & Ho & Hl).
      split_and!; [done|done|etrans; [exact H3|apply delete_subseteq]|done|].
      exists (oldest :: evicted). simpl. rewrite <- Ho. split; [done|]. intros key. rewrite Hl.
      destruct (decide (key = oldest)) as [->|Hne].
      * rewrite lookup_delete_eq. repeat case_decide; try done; set_solver.
      * rewrite lookup_delete_ne by done. repeat case_decide; try done; set_solver.
    + split_and!; [split; simpl; [done|lia|done]|done|done|done|exists []; done].
Qed.

Lemma live_insert_same nodes key n n' k :
  nodes !! key = Some n -> pn_exited_at_ns n' = pn_exited_at_ns n ->
  live (<[key := n']> nodes) k <-> live nodes k.
Proof.
  intros E Ex. unfold live. destruct (decide (k = key)) as [->|Hne].
  - rewrite lookup_insert_eq, E. split; intros (m & [= <-] & Hm); eexists; (split; [done|congruence]).
  - by rewrite lookup_insert_ne.
Qed.

Lemma insert_existing_size (nodes : gmap ProcessInstanceKey ProcessNode) key n n' :
  nodes !! key = Some n -> size (<[key := n']> nodes) = size nodes.
Proof. intros E. apply map_size_insert_Some. eauto. Qed.

Lemma insert_existing_is_Some (nodes : gmap ProcessInstanceKey ProcessNode) key n n' k :
  nodes !! key = Some n -> is_Some (<[key := n']> nodes !! k) <-> is_Some (nodes !! k).
Proof.
  intros E. destruct (decide (k = key)) as [->|Hne]; [rewrite lookup_insert_eq, E|rewrite lookup_insert_ne by done]; done.
Qed.

Lemma observe_exit_inv event key g : graph_inv g -> graph_inv (observe_exit event key g).2.
Proof.
  intros [Hcap Hsz [Ho Hi Hk Ha Hl]]. unfold observe_exit. destruct (pg_nodes g !! key) as [n|] eqn:E; [|by split].
  split; simpl; [done|by rewrite (insert_existing_size _ _ n)|]. split; [done|..].
  - intros k. by rewrite Hi, (insert_existing_is_Some _ _ n).
  - intros k m. rewrite lookup_insert_Some. intros [[<- <-]|[_ Hm]]; [by apply (Hk key n)|by apply Hk].
  - by apply unindex_nodup.
  - intros pid k. rewrite unindex_elem, Hl by done. unfold live. destruct (decide (k = key)) as [->|Hne].
    + rewrite lookup_insert_eq. split; [intros [[-> _] []]; done|]. by intros [_ (m & [= <-] & ?)].
    + rewrite lookup_insert_ne by done. split; [tauto|]. intros [-> ?]. split; [done|].
      intros E2%(f_equal snd). by simpl in E2.
Qed.

Lemma link_parent_frame event g :
  exists h, (link_parent event g).2 = MkGraph (pg_max_nodes g) (pg_nodes g) (pg_active_by_pid g) (pg_insertion_order g) h.
Proof.
  unfold link_parent, resolve_parent. destruct g. repeat case_match; simpl in *; simplify_eq/=; eexists; reflexivity.
Qed.

Lemma refresh_inv event key n g :
  graph_inv g -> pg_nodes g !! key = Some n ->
  graph_inv (MkGraph (pg_max_nodes g) (<[key := refresh_node event n]> (pg_nodes g)) (pg_active_by_pid g)
    (pg_insertion_order g) (pg_health g)).
Proof.
  intros [Hcap Hsz [Ho Hi Hk Ha Hl]] E. split; simpl; [done|by rewrite (insert_existing_size _ _ n)|]. split; [done|..].
  - intros k. by rewrite Hi, (insert_existing_is_Some _ _ n).
  - intros k m. rewrite lookup_insert_Some. intros [[<- <-]|[_ Hm]]; [by apply (Hk key n)|by apply Hk].
  - done.
  - intros pid k. by rewrite Hl, (live_insert_same _ _ n).
Qed.

Lemma insert_inv g key n :
  graph_inv g -> (size (pg_nodes g) < pg_max_nodes g)%nat -> pg_nodes g !! key = None ->
  pn_key n = key -> durable key = true -> pn_exited_at_ns n = None ->
  graph_inv (MkGraph (pg_max_nodes g) (<[key := n]> (pg_nodes g)) (index_active key (pg_active_by_pid g))
    (pg_insertion_order g ++ [key]) (pg_health g)).
Proof.
  intros [Hcap Hsz [Ho Hi Hk Ha Hl]] Hlt E En Hd Hx.
  assert (Hnl : ~ live (pg_nodes g) key) by (intros (m & ? & _); congruence).
  split; simpl; [done|rewrite map_size_insert_None by done; lia|]. split.
  - apply NoDup_app. split_and!; [done| |apply NoDup_singleton].
    intros k Hin ->%list_elem_of_singleton. apply Hi in Hin as [? ?]. congruence.
  - intros k. rewrite elem_of_app, list_elem_of_singleton, Hi, lookup_insert_is_Some'. naive_solver.
  - intros k m. rewrite lookup_insert_Some. intros [[<- <-]|[_ Hm]]; [done|by apply Hk].
  - unfold index_active. apply NoDup_app. split_and!; [done| |apply NoDup_singleton].
    intros e Hin ->%list_elem_of_singleton. by apply Hl in Hin as [_ ?].
  - intros pid k. unfold index_active. rewrite elem_of_app, list_elem_of_singleton, Hl. unfold live.
    destruct (decide (k = key)) as [->|Hne].
    + rewrite lookup_insert_eq. split; [intros [[-> [m [? _]]]|[= ->]]; [congruence|eauto]|].
      intros [-> _]. by right.
    + rewrite lookup_insert_ne by done. split; [intros [?|[= ]]; [done|congruence]|tauto].
Qed.

Lemma key_from_durable event key : key_from event = Some key -> durable key = true.
Proof. unfold key_from. intros E. repeat case_match; simplify_eq; done. Qed.

(** Making room for a new instance. *)
Lemma evict_if_needed_spec g : graph_inv g ->
  let g' := evict_if_needed g in
  graph_inv g' /\ (size (pg_nodes g') < pg_max_nodes g)%nat /\ pg_nodes g' ⊆ pg_nodes g /\
  pg_max_nodes g' = pg_max_nodes g /\
  exists evicted, pg_insertion_order g = evicted ++ pg_insertion_order g' /\
    forall key, pg_nodes g' !! key = if decide (key ∈ evicted) then None else pg_nodes g !! key.
Proof. intros [Hcap _ Hc]. by apply evict_loop_spec. Qed.

Lemma observe_start_inv event key g :
  graph_inv g -> durable key = true -> graph_inv (observe_start event key g).2.
Proof.
  intros Hinv Hd. unfold observe_start. destruct (pg_nodes g !! key) as [n|] eqn:E; [by apply refresh_inv|].
  destruct (evict_if_needed_spec g Hinv) as (Hinv' & Hlt & Hsub & Hm & _). cbv zeta in *.
  revert Hinv' Hlt Hsub Hm. generalize (evict_if_needed g) as g1. intros g1 Hinv' Hlt Hsub Hm.
  destruct (link_parent_frame event g1) as [h Hf].
  destruct (link_parent event g1) as [parent g2]. simpl in Hf. subst g2. simpl.
  assert (En : pg_nodes g1 !! key = None).
  { destruct (pg_nodes g1 !! key) eqn:E2; [|done]. by rewrite (lookup_weaken _ _ _ _ E2 Hsub) in E. }
  rewrite En. simpl.
  apply (insert_inv (MkGraph (pg_max_nodes g1) (pg_nodes g1) (pg_active_by_pid g1) (pg_insertion_order g1) h));
    simpl; [by destruct Hinv'; split|by rewrite Hm|done..].
Qed.

Lemma set_health_inv f g : graph_inv g -> graph_inv (set_health f g).
Proof. by intros [? ? ?]. Qed.

Lemma observe_inv event g : graph_inv g -> graph_inv (observe event g).2.
Proof.
  intros Hinv. unfold observe. destruct (key_from event) as [key|] eqn:Ek.
  - destruct (is_exit event); [by apply observe_exit_inv|]. apply observe_start_inv; [done|by eapply key_from_durable].
  - repeat case_match; simpl; try (by apply set_health_inv). by apply observe_exit_inv.
Qed.

Lemma new_graph_inv max_nodes g : new_graph max_nodes = Ok g -> graph_inv g.
Proof.
  unfold new_graph. destruct (Nat.eqb_spec max_nodes 0); [done|]. intros [= <-].
  split; simpl; [lia|rewrite map_size_empty; lia|]. split; [constructor| | |constructor|].
  - intros key. rewrite lookup_empty. split; [intros H; by apply not_elem_of_nil in H|intros [? ?]; done].
  - intros key m. by rewrite lookup_empty.
  - intros pid key. split; [intros H; by apply not_elem_of_nil in H|intros [_ (m & E & _)]; by rewrite lookup_empty in E].
Qed.

Definition observe_all (events : list ProcessExecEvent) (g : ProcessGraph) : ProcessGraph :=
  fold_left (fun g event => (observe event g).2) events g.

Lemma observe_all_inv events g : graph_inv g -> graph_inv (observe_all events g).
Proof. revert g. induction events; intros g Hg; simpl; [done|]. apply IHevents. by apply observe_inv. Qed.

Lemma active_count_index g : graph_inv g -> active_count g = length (pg_active_by_pid g).
Proof.
  intros [_ _ [_ _ _ Ha Hl]]. unfold active_count. rewrite <- length_map_to_list.
  rewrite <- (length_fmap (fun e : ProcessInstanceKey * ProcessNode => (key_pid e.1, e.1))).
  apply Permutation_length, NoDup_Permutation; [|done|].
  - change (fun e : ProcessInstanceKey * ProcessNode => (key_pid e.1, e.1))
      with ((fun k => (key_pid k, k)) ∘ (@fst ProcessInstanceKey ProcessNode)).
    rewrite list_fmap_compose.
    apply NoDup_fmap_2_strong; [intros ?? _ _ [= _ ?]; done|apply NoDup_fst_map_to_list].
  - intros [pid key]. rewrite Hl, list_elem_of_fmap. unfold live. split.
    + intros ([k n] & [= -> ->] & Hin%elem_of_map_to_list). apply map_lookup_filter_Some in Hin as [? ?]. eauto.
    + intros [-> (n & E & Hx)]. exists (key, n). split; [done|]. apply elem_of_map_to_list.
      by apply map_lookup_filter_Some.
Qed.

(** ** Properties *)

(** C32: Every graph the agent can build is well formed: after any sequence of events
    the number of nodes is within the configured capacity, the per-pid index lists
    each running instance exactly once and nothing else (so the active count is its
    length), and the eviction order lists each node exactly once. *)
Theorem process_graph_invariant max_nodes g events :
  new_graph max_nodes = Ok g ->
  let g' := observe_all events g in
  (size (pg_nodes g') <= pg_max_nodes g')%nat /\
  NoDup (pg_active_by_pid g') /\
  (forall pid key, (pid, key) ∈ pg_active_by_pid g' <-> pid = key_pid key /\ live (pg_nodes g') key) /\
  active_count g' = length (pg_active_by_pid g') /\
  NoDup (pg_insertion_order g') /\
  (forall key, key ∈ pg_insertion_order g' <-> is_Some (find key g')).
Proof.
  intros Hnew. cbv zeta. pose proof (observe_all_inv events g (new_graph_inv _ _ Hnew)) as Hinv.
  pose proof (active_count_index _ Hinv). destruct Hinv as [_ Hsz [Ho Hi _ Ha Hl]]. by split_and!.
Qed.

Lemma unique_active_spec pid g : graph_inv g ->
  match unique_active_key_for_pid pid g with
  | Some key => key_pid key = pid /\ live (pg_nodes g) key /\
      forall k, key_pid k = pid -> live (pg_nodes g) k -> k = key
  | None => (forall k, key_pid k = pid -> ~ live (pg_nodes g) k) \/
      exists k1 k2, k1 <> k2 /\ key_pid k1 = pid /\ key_pid k2 = pid /\ live (pg_nodes g) k1 /\ live (pg_nodes g) k2
  end.
Proof.
  intros [_ _ [_ _ _ Ha Hl]].
  assert (Hin : forall p k, (p, k) ∈ equal_range pid (pg_active_by_pid g) <->
    p = pid /\ key_pid k = pid /\ live (pg_nodes g) k).
  { intros p k. unfold equal_range. rewrite list_elem_of_filter, Hl. simpl. naive_solver. }
  assert (Hnd : NoDup (equal_range pid (pg_active_by_pid g))) by (by apply NoDup_filter).
  unfold unique_active_key_for_pid.
  destruct (equal_range pid (pg_active_by_pid g)) as [|[p k] [|[p2 k2] l]] eqn:E.
  - left. intros k Hk Hlv. eapply not_elem_of_nil. apply (Hin pid k). auto.
  - destruct (Hin p k) as [H1 _]. destruct H1 as (-> & Hp & Hlv); [by left|]. split_and!; [done|done|].
    intros k' Hk' Hlv'. assert (Hx : (pid, k') ∈ [(pid, k)]) by (by apply Hin).
    apply list_elem_of_singleton in Hx. congruence.
  - right. exists k, k2. destruct (Hin p k) as [H1 _]. destruct H1 as (-> & ? & ?); [by left|].
    destruct (Hin p2 k2) as [H2 _]. destruct H2 as (-> & ? & ?); [by right; left|]. split_and!; try done.
    intros ->. apply NoDup_cons in Hnd as [Hn _]. apply Hn. by left.
Qed.

(** An exit event without a stable identity is attributed only when it is
    unambiguous: if exactly one running instance has the pid, exactly that node is
    marked as exited; if none or several do (the pid was reused), no node changes, the
    event is refused and counted. *)
Theorem unstable_exit_attribution event tgid g :
  graph_inv g -> key_from event = None -> pe_type event = Exit -> pe_tgid event = Some tgid -> 0 < tgid ->
  let '(accepted, g') := observe event g in
  if accepted
  then exists key n, key_pid key = tgid /\ find key g = Some n /\ pn_exited_at_ns n = None /\
         (forall k, key_pid k = tgid -> live (pg_nodes g) k -> k = key) /\
         find key g' = Some (mark_exit event n) /\
         forall k, k <> key -> find k g' = find k g
  else g' = set_health count_ambiguous_exit g /\
       ((forall k, key_pid k = tgid -> ~ live (pg_nodes g) k) \/
        exists k1 k2, k1 <> k2 /\ key_pid k1 = tgid /\ key_pid k2 = tgid /\
          live (pg_nodes g) k1 /\ live (pg_nodes g) k2).
Proof.
  intros Hinv Hk Ht Htg Hpos. unfold observe, is_exit. rewrite Hk, Htg, bool_decide_eq_true_2 by done.
  rewrite (proj2 (Z.ltb_lt _ _)) by done. simpl.
  pose proof (unique_active_spec tgid g Hinv) as Hu. destruct (unique_active_key_for_pid tgid g) as [key|]; [|done].
  destruct Hu as (Hp & (n & En & Hx) & Huniq). unfold observe_exit. rewrite En. exists key, n.
  split_and!; try done; unfold find; simpl; [by rewrite lookup_insert_eq|].
  intros k Hne. by rewrite lookup_insert_ne.
Qed.

Lemma link_parent_sound event g parent g' :
  graph_inv g -> link_parent event g = (Some parent, g') ->
  invalid_link event parent g = false /\
  exists tgid, pe_parent_tgid event = Some tgid /\ 0 < tgid /\ key_pid parent = tgid /\
    (durable (MkKey tgid (if has (pe_parent_platform_process_key event) then None
                          else pe_parent_process_start_time_ns event) (pe_parent_platform_process_key event)) = false ->
     live (pg_nodes g) parent /\ forall k, key_pid k = tgid -> live (pg_nodes g) k -> k = parent).
Proof.
  intros Hinv. unfold link_parent, resolve_parent. destruct (pe_parent_tgid event) as [tgid|]; [|done].
  destruct (tgid <=? 0) eqn:Et; [done|]. to_prop. destruct (durable _) eqn:Ed.
  - destruct (invalid_link _ _ _) eqn:Ei; [done|]. intros [= <- <-]. split; [done|]. exists tgid.
    split_and!; try done. congruence.
  - pose proof (unique_active_spec tgid g Hinv) as Hu. destruct (unique_active_key_for_pid tgid g) as [key|].
    + destruct (invalid_link _ _ _) eqn:Ei; [done|]. intros [= <- <-]. destruct Hu as (? & ? & ?).
      split; [done|]. exists tgid. by split_and!.
    + by destruct (bool_decide _).
Qed.

(** A start event of a new instance: it is accepted and stored with the event's
    attributes and running; every other node either is kept as it was or was evicted,
    and eviction removes exactly the oldest insertions and happens only when the graph
    is full; a parent is linked only if it did not start after the child, and, when the
    event names the parent by pid alone, only if one running instance has that pid. *)
Theorem new_instance_observed event key g :
  graph_inv g -> key_from event = Some key -> pe_type event <> Exit -> find key g = None ->
  let g1 := evict_if_needed g in
  let '(accepted, g') := observe event g in
  accepted = true /\
  (exists parent, find key g' = Some (event_node key event parent) /\
     forall p, parent = Some p -> invalid_link event p g1 = false /\
       exists tgid, pe_parent_tgid event = Some tgid /\ key_pid p = tgid /\
         (pe_parent_platform_process_key event = None -> pe_parent_process_start_time_ns event = None ->
          live (pg_nodes g1) p /\ forall k, key_pid k = tgid -> live (pg_nodes g1) k -> k = p)) /\
  exists evicted, pg_insertion_order g' = drop (length evicted) (pg_insertion_order g) ++ [key] /\
    (evicted <> [] -> (pg_max_nodes g <= size (pg_nodes g))%nat) /\
    forall k, k <> key -> find k g' = if decide (k ∈ evicted) then None else find k g.
Proof.
  intros Hinv Hk Ht Hf. cbv zeta. unfold observe, is_exit. rewrite Hk, bool_decide_eq_false_2 by done.
  unfold find in *. unfold observe_start. rewrite Hf.
  destruct (evict_if_needed_spec g Hinv) as (Hinv' & _ & Hsub & _ & evicted & Ho & Hl). cbv zeta in *.
  assert (Hev : evicted <> [] -> (pg_max_nodes g <= size (pg_nodes g))%nat).
  { intros Hne. unfold evict_if_needed in Ho. destruct (pg_insertion_order g) as [|o order] eqn:Eo;
      [by destruct evicted|]. simpl in Ho. destruct (Nat.leb_spec (pg_max_nodes g) (size (pg_nodes g))); [done|].
    simpl in Ho. apply (f_equal length) in Ho. rewrite length_app in Ho. destruct evicted; [done|simpl in Ho; lia]. }
  revert Hinv' Hsub Ho Hl. generalize (evict_if_needed g) as g1. intros g1 Hinv' Hsub Ho Hl.
  destruct (link_parent_frame event g1) as [h Hfr].
  destruct (link_parent event g1) as [parent g2] eqn:El. simpl in Hfr. subst g2. simpl.
  assert (En : pg_nodes g1 !! key = None).
  { destruct (pg_nodes g1 !! key) eqn:E2; [|done]. by rewrite (lookup_weaken _ _ _ _ E2 Hsub) in Hf. }
  rewrite En. simpl. split; [done|]. split.
  - exists parent. rewrite lookup_insert_eq. split; [done|]. intros p ->.
    destruct (link_parent_sound event g1 p _ Hinv' El) as (Hi & tgid & E1 & E2 & E3 & E4).
    split; [done|]. exists tgid. split_and!; [done..|]. intros Hpl Hst. apply E4. rewrite Hpl, Hst.
    unfold durable. simpl. apply andb_false_r.
  - exists evicted. split_and!; [by rewrite Ho, drop_app_length|done|].
    intros k Hne. by rewrite lookup_insert_ne.
Qed.

(** ** Concrete runs *)

Definition demo_event (type : ProcessExecEventType) (t pid : Z) (start parent : option Z) : ProcessExecEvent :=
  MkProcessExecEvent type t (Some pid) (Some pid) None parent (Some 0) None start None None None None
    "root" "" None None None "sh" "/bin/sh" "sh" "/".

Definition demo_graph : ProcessGraph :=
  match new_graph 2 with
  | Ok g => observe_all [demo_event Start 10 1 (Some 10) None; demo_event Start 20 2 (Some 20) (Some 1)] g
  | Throw _ => MkGraph 2 ∅ [] [] (MkHealth 0 0 0 0 0)
  end.

Lemma demo_graph_inv : graph_inv demo_graph.
Proof. unfold demo_graph. apply observe_all_inv, (new_graph_inv 2). reflexivity. Qed.

Lemma process_graph_invariant_witness :
  (size (pg_nodes demo_graph) <= 2)%nat /\ active_count demo_graph = length (pg_active_by_pid demo_graph).
Proof.
  destruct (process_graph_invariant 2 (MkGraph 2 ∅ [] [] (MkHealth 0 0 0 0 0))
    [demo_event Start 10 1 (Some 10) None; demo_event Start 20 2 (Some 20) (Some 1)] eq_refl)
    as (H1 & _ & _ & H2 & _).
  exact (conj H1 H2).
Defined.

Lemma unstable_exit_attribution_witness :
  exists key n, key_pid key = 2 /\ find key demo_graph = Some n /\ pn_exited_at_ns n = None /\
    (forall k, key_pid k = 2 -> live (pg_nodes demo_graph) k -> k = key) /\
    find key (observe (demo_event Exit 30 2 None None) demo_graph).2 =
      Some (mark_exit (demo_event Exit 30 2 None None) n) /\
    forall k, k <> key -> find k (observe (demo_event Exit 30 2 None None) demo_graph).2 = find k demo_graph.
Proof.
  exact (unstable_exit_attribution (demo_event Exit 30 2 None None) 2 demo_graph demo_graph_inv
    eq_refl eq_refl eq_refl ltac:(lia)).
Defined.

Lemma new_instance_observed_witness :
  exists evicted : list ProcessInstanceKey,
    pg_insertion_order (observe (demo_event Start 30 3 (Some 30) (Some 2)) demo_graph).2 =
      drop (length evicted) (pg_insertion_order demo_graph) ++ [MkKey 3 (Some 30) None].
Proof.
  assert (Hf : find (MkKey 3 (Some 30) None) demo_graph = None) by (vm_compute; reflexivity).
  pose proof (new_instance_observed (demo_event Start 30 3 (Some 30) (Some 2)) (MkKey 3 (Some 30) None) demo_graph
    demo_graph_inv eq_refl ltac:(discriminate) Hf) as H. cbv zeta in H.
  destruct (observe (demo_event Start 30 3 (Some 30) (Some 2)) demo_graph) as [accepted g'].
  destruct H as (_ & _ & evicted & E & _). exists evicted. exact E.
Defined.
