(* ===== verification/History.v ===== *)
(** The part of the local history database that connection tracking writes
    ([src/core/history_store.cpp] lines 40-48 and 285-470,
    [src/core/history_reconciliation.cpp]), and the interface the tracker uses it by.

    [HistoryStore] holds the tables [connections], [processes], [lifecycle_events],
    [transport_samples] and [connection_tls_observations] with the pending TLS
    observation; each SQL statement is a function on it, and one whose foreign key
    refers to a row that is gone throws.  Statements do not fail for other reasons
    (a full disk, a locked file).

    [HistoryOps] is the interface and [HistoryLaws] what it promises: fresh row ids,
    no change to other rows, a socket cookie that is written once, a direction that
    is promoted once.  [StatementLaws] says when the statements behind it do not
    throw.  [TrackingDb] is the implementation: it records an exception instead of
    ending the program, so that what follows in a state with [td_thrown] is not part
    of any run. *)

From S2P Require Import Prelude Text Wire Crypto Model.

(** ** Interface *)

Class HistoryOps (S : Type) := {
  begin_connection : SocketObservation -> option ProcessIdentity -> string -> Z -> ConnectionDirection -> S -> Z * S;
  touch_connection : Z -> Z -> string -> S -> S;
  update_socket_cookie : Z -> Z -> S -> bool * S;
  promote_connection_direction : Z -> ConnectionDirection -> S -> bool * S;
  add_tcp_sample : Z -> TcpSnapshot -> S -> S;
  add_lifecycle_event : Z -> ConnectionLifecycleEvent -> S -> S;
  (** what can be read back of a row *)
  row_cookie : S -> Z -> option Z;
  row_state : S -> Z -> option string;
  row_direction : S -> Z -> option ConnectionDirection }.

Class HistoryLaws {S} (ops : HistoryOps S) : Prop := {
  row_complete s id : is_Some (row_cookie s id) <-> is_Some (row_state s id);
  begin_fresh socket process host t direction s :
    let '(id, s') := begin_connection socket process host t direction s in
    row_cookie s id = None /\ row_cookie s' id = Some (wrap_s 64 (so_socket_cookie socket)) /\
    row_state s' id = Some "ACTIVE" /\ row_direction s' id = Some direction /\
    forall id', id' <> id -> row_cookie s' id' = row_cookie s id' /\ row_state s' id' = row_state s id' /\
      row_direction s' id' = row_direction s id';
  touch_row id t state s id' :
    row_cookie (touch_connection id t state s) id' = row_cookie s id' /\
    row_direction (touch_connection id t state s) id' = row_direction s id' /\
    row_state (touch_connection id t state s) id' =
      (if decide (id' = id) then (fun _ => c_str state) <$> row_state s id else row_state s id');
  cookie_once id cookie s :
    let '(changed, s') := update_socket_cookie id cookie s in
    changed = bool_decide (row_cookie s id = Some 0) /\
    forall id', row_state s' id' = row_state s id' /\ row_direction s' id' = row_direction s id' /\
      row_cookie s' id' = (if decide (id' = id /\ changed = true) then Some (wrap_s 64 cookie) else row_cookie s id');
  direction_once id direction s :
    let '(changed, s') := promote_connection_direction id direction s in
    changed = bool_decide (direction <> DirectionUnknown /\ row_direction s id = Some DirectionUnknown) /\
    forall id', row_state s' id' = row_state s id' /\ row_cookie s' id' = row_cookie s id' /\
      row_direction s' id' = (if decide (id' = id /\ changed = true) then Some direction else row_direction s id');
  sample_frame id sample s id' :
    row_cookie (add_tcp_sample id sample s) id' = row_cookie s id' /\
    row_state (add_tcp_sample id sample s) id' = row_state s id' /\
    row_direction (add_tcp_sample id sample s) id' = row_direction s id';
  event_frame id event s id' :
    row_cookie (add_lifecycle_event id event s) id' = row_cookie s id' /\
    row_state (add_lifecycle_event id event s) id' = row_state s id' /\
    row_direction (add_lifecycle_event id event s) id' = row_direction s id' }.

(** [sound] says that no statement has thrown and the next one does not either: always for a
    connection that has a row, and for a new one. *)
Class StatementLaws {S} (ops : HistoryOps S) (sound : S -> Prop) : Prop := {
  begin_sound socket process host t direction s : sound s -> sound (begin_connection socket process host t direction s).2;
  touch_sound id t state s : sound s -> sound (touch_connection id t state s);
  cookie_sound id cookie s : sound s -> sound (update_socket_cookie id cookie s).2;
  direction_sound id direction s : sound s -> sound (promote_connection_direction id direction s).2;
  sample_sound id sample s : is_Some (row_cookie s id) -> sound s -> sound (add_tcp_sample id sample s);
  event_sound id event s : is_Some (row_cookie s id) -> sound s -> sound (add_lifecycle_event id event s) }.

(** ** Tables *)

Definition foreign_key_failed : string := "FOREIGN KEY constraint failed".

Record ProcessRow := MkProcessRow {
  pr_id : Z; pr_pid : Z; pr_uid : Z; pr_start_ticks : Z; pr_start_ticks_observed : option Z;
  pr_comm : string; pr_executable_path : string }.

Record ConnectionRow := MkConnectionRow {
  cr_socket_cookie : Z;
  cr_socket_inode : Z;
  cr_process_id : option Z;
  cr_local_ip : string;
  cr_local_port : Z;
  cr_remote_ip : string;
  cr_remote_port : Z;
  cr_target_host : string;
  cr_lifecycle_state : string;
  cr_first_seen_ns : Z;
  cr_last_seen_ns : Z;
  cr_captured_at_ns : Z;
  cr_direction : ConnectionDirection;
  cr_network_namespace_inode : option Z }.

Record LifecycleRow := MkLifecycleRow {
  lr_connection_id : Z; lr_event_type : string; lr_observed_ns : Z; lr_event : ConnectionLifecycleEvent }.

Record SampleRow := MkSampleRow { sr_connection_id : Z; sr_sample : TcpSnapshot; sr_sha256 : string }.

Record HistoryStore := MkHistoryStore {
  hs_processes : list ProcessRow;
  hs_connections : gmap Z ConnectionRow;
  hs_lifecycle_events : list LifecycleRow;
  hs_transport_samples : list SampleRow;
  hs_tls_links : gmap Z Z;
  hs_pending_tls : option (Z * string * Z);
  hs_capture_now_ns : Z }.

(** SQLite's id for a new row of a table with an integer primary key. *)
Definition next_rowid (ids : list Z) : Z := 1 + foldr Z.max 0 ids.

Definition set_connections (f : gmap Z ConnectionRow -> gmap Z ConnectionRow) (s : HistoryStore) : HistoryStore :=
  MkHistoryStore (hs_processes s) (f (hs_connections s)) (hs_lifecycle_events s) (hs_transport_samples s)
    (hs_tls_links s) (hs_pending_tls s) (hs_capture_now_ns s).

Definition set_processes (f : list ProcessRow -> list ProcessRow) (s : HistoryStore) : HistoryStore :=
  MkHistoryStore (f (hs_processes s)) (hs_connections s) (hs_lifecycle_events s) (hs_transport_samples s)
    (hs_tls_links s) (hs_pending_tls s) (hs_capture_now_ns s).

(** ** Operations *)

Definition update_process (p : ProcessIdentity) (ticks : Z) (r : ProcessRow) : ProcessRow :=
  if bool_decide (pr_pid r = pi_pid p /\ pr_start_ticks r = ticks)
  then MkProcessRow (pr_id r) (pr_pid r) (wrap_s 32 (pi_uid p)) (pr_start_ticks r) (Some ticks)
         (c_str (pi_comm p)) (c_str (pi_executable_path p))
  else r.

(** [p.start_ticks && *p.start_ticks != 0] *)
Definition durable_start (p : ProcessIdentity) : option Z :=
  match pi_start_ticks p with
  | Some start => if start =? 0 then None else Some start
  | None => None
  end.

(** A process with a known start is one row per [(pid, start)]; one without gets a
    new row with the next negative start of its pid. *)
Definition upsert_process (p : ProcessIdentity) (s : HistoryStore) : Z * HistoryStore :=
  let rows := hs_processes s in
  let fresh := next_rowid (pr_id <$> rows) in
  let insert_row ticks observed :=
    set_processes (fun rows => rows ++
      [MkProcessRow fresh (pi_pid p) (wrap_s 32 (pi_uid p)) ticks observed
         (c_str (pi_comm p)) (c_str (pi_executable_path p))]) s in
  match durable_start p with
  | Some start =>
      let ticks := wrap_s 64 start in
      match filter (fun r => pr_pid r = pi_pid p /\ pr_start_ticks r = ticks) rows with
      | r :: _ => (pr_id r, set_processes (fmap (update_process p ticks)) s)
      | [] => (fresh, insert_row ticks (Some ticks))
      end
  | None =>
      let lowest := foldr (fun r acc => if bool_decide (pr_pid r = pi_pid p) && (pr_start_ticks r <? 0)
                                        then Z.min (pr_start_ticks r) acc else acc) 0 rows in
      (fresh, insert_row (lowest - 1) None)
  end.

(** [pending_tls_id_ && pending_tls_host_ == target_host && pending_tls_port_ == s.remote_port] *)
Definition pending_link (target_host : string) (port : Z) (s : HistoryStore) : option Z :=
  match hs_pending_tls s with
  | Some (tls_id, host, p) => if bool_decide (host = target_host) && (p =? port) then Some tls_id else None
  | None => None
  end.

(** The row that links the connection to the pending TLS observation comes after the connection and
    fails when the observation is gone, which leaves the connection. *)
Definition store_begin_connection (tls_exists : Z -> bool) (socket : SocketObservation) (process : option ProcessIdentity)
    (target_host : string) (first_seen_ns : Z) (direction : ConnectionDirection) (s : HistoryStore) :
    result Z * HistoryStore :=
  let '(process_id, s) :=
    match process with
    | None => (None, s)
    | Some p => let '(id, s) := upsert_process p s in (Some id, s)
    end in
  let connection_id := next_rowid (elements (dom (hs_connections s))) in
  let row := MkConnectionRow (wrap_s 64 (so_socket_cookie socket)) (wrap_s 64 (so_socket_inode socket)) process_id
    (c_str (so_local_ip socket)) (so_local_port socket) (c_str (so_remote_ip socket)) (so_remote_port socket)
    (c_str target_host) "ACTIVE" (wrap_s 64 first_seen_ns) (wrap_s 64 first_seen_ns)
    (wrap_s 64 (hs_capture_now_ns s)) direction (wrap_s 64 <$> so_network_namespace_inode socket) in
  let inserted links :=
    MkHistoryStore (hs_processes s) (<[connection_id := row]> (hs_connections s)) (hs_lifecycle_events s)
      (hs_transport_samples s) links (hs_pending_tls s) (hs_capture_now_ns s) in
  match pending_link target_host (so_remote_port socket) s with
  | Some tls_id =>
      if tls_exists tls_id then (Ok connection_id, inserted (<[connection_id := tls_id]> (hs_tls_links s)))
      else (Throw foreign_key_failed, inserted (hs_tls_links s))
  | None => (Ok connection_id, inserted (hs_tls_links s))
  end.

Definition set_seen (t : Z) (state : string) (r : ConnectionRow) : ConnectionRow :=
  MkConnectionRow (cr_socket_cookie r) (cr_socket_inode r) (cr_process_id r) (cr_local_ip r) (cr_local_port r)
    (cr_remote_ip r) (cr_remote_port r) (cr_target_host r) (c_str state) (cr_first_seen_ns r) (wrap_s 64 t)
    (cr_captured_at_ns r) (cr_direction r) (cr_network_namespace_inode r).

Definition store_touch_connection (id last_seen_ns : Z) (lifecycle_state : string) : HistoryStore -> HistoryStore :=
  set_connections (alter (set_seen last_seen_ns lifecycle_state) id).

Definition set_cookie (cookie : Z) (r : ConnectionRow) : ConnectionRow :=
  MkConnectionRow (wrap_s 64 cookie) (cr_socket_inode r) (cr_process_id r) (cr_local_ip r) (cr_local_port r)
    (cr_remote_ip r) (cr_remote_port r) (cr_target_host r) (cr_lifecycle_state r) (cr_first_seen_ns r)
    (cr_last_seen_ns r) (cr_captured_at_ns r) (cr_direction r) (cr_network_namespace_inode r).

Definition store_update_socket_cookie (id cookie : Z) (s : HistoryStore) : bool * HistoryStore :=
  match hs_connections s !! id with
  | Some r => if cr_socket_cookie r =? 0
              then (true, set_connections (insert id (set_cookie cookie r)) s) else (false, s)
  | None => (false, s)
  end.

Definition set_direction (direction : ConnectionDirection) (r : ConnectionRow) : ConnectionRow :=
  MkConnectionRow (cr_socket_cookie r) (cr_socket_inode r) (cr_process_id r) (cr_local_ip r) (cr_local_port r)
    (cr_remote_ip r) (cr_remote_port r) (cr_target_host r) (cr_lifecycle_state r) (cr_first_seen_ns r)
    (cr_last_seen_ns r) (cr_captured_at_ns r) direction (cr_network_namespace_inode r).

Definition store_promote_direction (id : Z) (direction : ConnectionDirection) (s : HistoryStore) : bool * HistoryStore :=
  if bool_decide (direction = DirectionUnknown) then (false, s)
  else
    match hs_connections s !! id with
    | Some r => if bool_decide (cr_direction r = DirectionUnknown)
                then (true, set_connections (insert id (set_direction direction r)) s) else (false, s)
    | None => (false, s)
    end.

Definition tcp_sample_hash `{Sha256} (t : TcpSnapshot) : string :=
  let bar z rest := to_string z +:+ "|" +:+ rest in
  sha256_hex (bar (ts_observed_ns t) (bar (ts_state t) (bar (ts_rtt_us t) (bar (ts_rtt_variance_us t)
    (bar (ts_total_retrans t) (bar (ts_lost t) (bar (ts_unacked t) (bar (ts_snd_cwnd t)
    (bar (ts_snd_ssthresh t) (bar (ts_snd_mss t) (bar (ts_rcv_mss t) (bar (ts_send_queue_bytes t)
    (to_string (ts_recv_queue_bytes t)))))))))))))).

Definition has_row (s : HistoryStore) (id : Z) : bool := has (hs_connections s !! id).

Definition store_add_tcp_sample `{Sha256} (id : Z) (sample : TcpSnapshot) (s : HistoryStore) : result HistoryStore :=
  if has_row s id then
    Ok (MkHistoryStore (hs_processes s) (hs_connections s) (hs_lifecycle_events s)
          (hs_transport_samples s ++ [MkSampleRow id sample (tcp_sample_hash sample)])
          (hs_tls_links s) (hs_pending_tls s) (hs_capture_now_ns s))
  else Throw foreign_key_failed.

(** [INSERT OR IGNORE] under [UNIQUE(connection_id,event_type,observed_ns)]; [OR IGNORE] does not cover
    foreign keys. *)
Definition store_add_lifecycle_event (id : Z) (event : ConnectionLifecycleEvent) (s : HistoryStore) : result HistoryStore :=
  let row := MkLifecycleRow id (event_type_to_string (le_type event)) (wrap_s 64 (le_timestamp_ns event)) event in
  let clash r := (lr_connection_id r =? lr_connection_id row) &&
    bool_decide (lr_event_type r = lr_event_type row) && (lr_observed_ns r =? lr_observed_ns row) in
  if negb (has_row s id) then Throw foreign_key_failed
  else if existsb clash (hs_lifecycle_events s) then Ok s
  else Ok (MkHistoryStore (hs_processes s) (hs_connections s) (hs_lifecycle_events s ++ [row])
             (hs_transport_samples s) (hs_tls_links s) (hs_pending_tls s) (hs_capture_now_ns s)).

(** ** The tracker's database *)

Record TrackingDb := MkTrackingDb {
  td_store : HistoryStore;
  td_tls : gset Z;          (* the rows of tls_observations *)
  td_thrown : bool }.       (* a statement has thrown *)

Definition with_rows (f : HistoryStore -> HistoryStore) (d : TrackingDb) : TrackingDb :=
  MkTrackingDb (f (td_store d)) (td_tls d) (td_thrown d).

Definition attempt (f : HistoryStore -> result HistoryStore) (d : TrackingDb) : TrackingDb :=
  match f (td_store d) with
  | Ok s => MkTrackingDb s (td_tls d) (td_thrown d)
  | Throw _ => MkTrackingDb (td_store d) (td_tls d) true
  end.

(** A connection whose link failed has a row, although its id is not returned. *)
Definition begin_result (r : result Z * HistoryStore) (d : TrackingDb) : Z * TrackingDb :=
  match r with
  | (Ok id, s) => (id, MkTrackingDb s (td_tls d) (td_thrown d))
  | (Throw _, s) => (next_rowid (elements (dom (hs_connections (td_store d)))), MkTrackingDb s (td_tls d) true)
  end.

#[global] Instance tracking_ops `{Sha256} : HistoryOps TrackingDb := {
  begin_connection := fun socket process host t direction d =>
    begin_result (store_begin_connection (fun id => bool_decide (id ∈ td_tls d)) socket process host t direction (td_store d)) d;
  touch_connection := fun id t state => with_rows (store_touch_connection id t state);
  update_socket_cookie := fun id cookie d =>
    let '(changed, s) := store_update_socket_cookie id cookie (td_store d) in (changed, with_rows (fun _ => s) d);
  promote_connection_direction := fun id direction d =>
    let '(changed, s) := store_promote_direction id direction (td_store d) in (changed, with_rows (fun _ => s) d);
  add_tcp_sample := fun id sample => attempt (store_add_tcp_sample id sample);
  add_lifecycle_event := fun id event => attempt (store_add_lifecycle_event id event);
  row_cookie := fun d id => cr_socket_cookie <$> hs_connections (td_store d) !! id;
  row_state := fun d id => cr_lifecycle_state <$> hs_connections (td_store d) !! id;
  row_direction := fun d id => cr_direction <$> hs_connections (td_store d) !! id }.

(** No statement has thrown, and the pending TLS observation, if any, is in the database. *)
Definition db_sound (d : TrackingDb) : Prop :=
  td_thrown d = false /\ forall id host port, hs_pending_tls (td_store d) = Some (id, host, port) -> id ∈ td_tls d.

(** ** The database keeps its promises *)

Lemma next_rowid_fresh ids : next_rowid ids ∉ ids.
Proof.
  assert (H : forall x, x ∈ ids -> x <= foldr Z.max 0 ids).
  { induction ids as [|y ids IH]; intros x Hx; [by apply not_elem_of_nil in Hx|]. simpl.
    apply elem_of_cons in Hx as [->|Hx]; [lia|]. specialize (IH x Hx). lia. }
  intros Hin. specialize (H _ Hin). unfold next_rowid in H. lia.
Qed.

Lemma upsert_connections p s : hs_connections (upsert_process p s).2 = hs_connections s.
Proof. unfold upsert_process. by repeat case_match. Qed.

Lemma upsert_pending p s : hs_pending_tls (upsert_process p s).2 = hs_pending_tls s.
Proof. unfold upsert_process. by repeat case_match. Qed.

(** A new connection gets the next row id, and nothing else happens to the rows. *)
Lemma begin_rows tls_exists socket process host t direction s :
  let id := next_rowid (elements (dom (hs_connections s))) in
  exists r row s', store_begin_connection tls_exists socket process host t direction s = (r, s') /\
    hs_connections s' = <[id := row]> (hs_connections s) /\ hs_pending_tls s' = hs_pending_tls s /\
    cr_socket_cookie row = wrap_s 64 (so_socket_cookie socket) /\ cr_lifecycle_state row = "ACTIVE" /\ cr_direction row = direction /\
    r = match pending_link host (so_remote_port socket) s with
        | Some tls_id => if tls_exists tls_id then Ok id else Throw foreign_key_failed
        | None => Ok id
        end.
Proof.
  cbv zeta. unfold store_begin_connection. set (s0 := match process with Some p => _ | None => _ end).
  assert (Hs : hs_connections s0.2 = hs_connections s /\ hs_pending_tls s0.2 = hs_pending_tls s).
  { subst s0. destruct process as [p|]; [|done]. pose proof (upsert_connections p s). pose proof (upsert_pending p s).
    by destruct (upsert_process p s). }
  destruct s0 as [pid s1]. simpl in Hs. destruct Hs as [Hc Hp]. rewrite Hc. unfold pending_link. rewrite Hp.
  destruct (hs_pending_tls s) as [[[tls_id h] port]|]; [destruct (_ && _); [destruct (tls_exists tls_id)|]|];
    do 3 eexists; (split; [reflexivity|]); cbn [hs_connections hs_pending_tls]; by rewrite ?Hc.
Qed.

Lemma begin_tracking_rows `{Sha256} socket process host t direction d :
  let id := next_rowid (elements (dom (hs_connections (td_store d)))) in
  exists row d', begin_connection socket process host t direction d = (id, d') /\
    hs_connections (td_store d') = <[id := row]> (hs_connections (td_store d)) /\
    cr_socket_cookie row = wrap_s 64 (so_socket_cookie socket) /\ cr_lifecycle_state row = "ACTIVE" /\ cr_direction row = direction /\
    (db_sound d -> db_sound d').
Proof.
  cbv zeta. cbn [begin_connection tracking_ops]. set (known := fun id => bool_decide (id ∈ td_tls d)).
  destruct (begin_rows known socket process host t direction (td_store d)) as (r & row & s' & -> & Hc & Hp & H1 & H2 & H3 & Hr).
  destruct r as [id|m]; cbn [begin_result].
  - exists row, (MkTrackingDb s' (td_tls d) (td_thrown d)). split; [|split_and!; [exact Hc|done..|]].
    + f_equal. destruct (pending_link host _ _) as [tls_id|]; [destruct (known tls_id)|]; congruence.
    + intros [Ht Hl]. split; [done|]. cbn. by rewrite Hp.
  - exists row, (MkTrackingDb s' (td_tls d) true). split_and!; [done|exact Hc|done..|].
    intros [Ht Hl]. exfalso. revert Hr. unfold pending_link. destruct (hs_pending_tls (td_store d)) as [[[tls_id h] port]|] eqn:Ep; [|done].
    destruct (_ && _); [|done]. unfold known. by rewrite bool_decide_eq_true_2 by by eapply Hl.
Qed.

Lemma touch_tracking_rows id t state s id' :
  hs_connections (store_touch_connection id t state s) !! id' =
  (if decide (id' = id) then set_seen t state <$> hs_connections s !! id else hs_connections s !! id').
Proof.
  unfold store_touch_connection. simpl. destruct (decide (id' = id)) as [->|Hne]; [by rewrite lookup_alter_eq|by rewrite lookup_alter_ne].
Qed.

Lemma sample_rows `{Sha256} id sample d : hs_connections (td_store (attempt (store_add_tcp_sample id sample) d)) = hs_connections (td_store d).
Proof. unfold attempt, store_add_tcp_sample. by destruct (has_row (td_store d) id). Qed.

Lemma event_rows id event d : hs_connections (td_store (attempt (store_add_lifecycle_event id event) d)) = hs_connections (td_store d).
Proof. unfold attempt, store_add_lifecycle_event. cbv zeta. destruct (has_row (td_store d) id); [|done]. cbn [negb]. by destruct (existsb _ _). Qed.

Lemma tracking_laws `{Sha256} : HistoryLaws tracking_ops.
Proof.
  split.
  - intros d id. simpl. by rewrite !fmap_is_Some.
  - intros socket process host t direction d.
    destruct (begin_tracking_rows socket process host t direction d) as (row & d' & -> & Hc & H1 & H2 & H3 & _).
    set (id := next_rowid _) in *. assert (Hf : hs_connections (td_store d) !! id = None).
    { apply not_elem_of_dom. intros Hin%elem_of_elements. by apply (next_rowid_fresh _ Hin). }
    cbn [row_cookie row_state row_direction tracking_ops]. rewrite Hc, Hf, lookup_insert_eq. cbn. rewrite H1, H2, H3.
    split_and!; [done..|]. intros id' Hne. by rewrite lookup_insert_ne.
  - intros id t state d id'. cbn [touch_connection row_cookie row_state row_direction tracking_ops with_rows td_store].
    rewrite touch_tracking_rows. destruct (decide (id' = id)) as [->|]; [|done]. by destruct (hs_connections (td_store d) !! id).
  - intros id cookie d. cbn [update_socket_cookie row_state row_direction row_cookie tracking_ops].
    unfold store_update_socket_cookie. set (s := td_store d). destruct (hs_connections s !! id) as [r|] eqn:E.
    + destruct (Z.eqb_spec (cr_socket_cookie r) 0) as [E0|E0].
      * rewrite bool_decide_eq_true_2 by (cbn; congruence). split; [done|]. intros id'. cbn [with_rows td_store set_connections hs_connections].
        destruct (decide (id' = id)) as [->|Hne];
          [rewrite lookup_insert_eq, E|rewrite lookup_insert_ne by done]; split_and!; try done; case_decide; naive_solver.
      * rewrite bool_decide_eq_false_2 by (cbn; congruence). split; [done|]. intros id'. cbn. fold s. case_decide; naive_solver.
    + rewrite bool_decide_eq_false_2 by done. split; [done|]. intros id'. cbn. fold s. case_decide; naive_solver.
  - intros id direction d. cbn [promote_connection_direction row_state row_direction row_cookie tracking_ops].
    unfold store_promote_direction. set (s := td_store d). destruct (bool_decide (direction = DirectionUnknown)) eqn:Ed; to_prop.
    { rewrite bool_decide_eq_false_2 by tauto. split; [done|]. intros id'. cbn. fold s. case_decide; naive_solver. }
    destruct (hs_connections s !! id) as [r|] eqn:E.
    + destruct (bool_decide (cr_direction r = DirectionUnknown)) eqn:E0; to_prop.
      * rewrite bool_decide_eq_true_2 by (cbn; split; congruence). split; [done|]. intros id'.
        cbn [with_rows td_store set_connections hs_connections]. destruct (decide (id' = id)) as [->|Hne];
          [rewrite lookup_insert_eq, E|rewrite lookup_insert_ne by done]; split_and!; try done; case_decide; naive_solver.
      * rewrite bool_decide_eq_false_2 by (cbn; naive_solver). split; [done|]. intros id'. cbn. fold s. case_decide; naive_solver.
    + rewrite bool_decide_eq_false_2 by naive_solver. split; [done|]. intros id'. cbn. fold s. case_decide; naive_solver.
  - intros id sample d id'. cbn [add_tcp_sample row_state row_direction row_cookie tracking_ops].
    by rewrite sample_rows.
  - intros id event d id'. cbn [add_lifecycle_event row_state row_direction row_cookie tracking_ops].
    by rewrite event_rows.
Qed.

Lemma has_row_cookie `{Sha256} d id : is_Some (row_cookie d id) -> has_row (td_store d) id = true.
Proof. cbn [row_cookie tracking_ops]. unfold has_row. intros [x Hx]%fmap_is_Some. by rewrite Hx. Qed.

(** The statements of the database do not throw as long as connections have their rows. *)
Lemma tracking_statements `{Sha256} : StatementLaws tracking_ops db_sound.
Proof.
  split.
  - intros socket process host t direction d. destruct (begin_tracking_rows socket process host t direction d) as (row & d' & -> & H1 & H2 & H3 & H4 & Hs). exact Hs.
  - done.
  - intros id cookie d [Ht Hp]. cbn [update_socket_cookie tracking_ops]. unfold store_update_socket_cookie.
    destruct (hs_connections (td_store d) !! id) as [r|]; [destruct (cr_socket_cookie r =? 0)|]; by split.
  - intros id direction d [Ht Hp]. cbn [promote_connection_direction tracking_ops]. unfold store_promote_direction.
    case_bool_decide; [by split|]. destruct (hs_connections (td_store d) !! id) as [r|]; [case_bool_decide|]; by split.
  - intros id sample d Hr%has_row_cookie [Ht Hp]. cbn [add_tcp_sample tracking_ops]. unfold attempt, store_add_tcp_sample. by rewrite Hr.
  - intros id event d Hr%has_row_cookie [Ht Hp]. cbn [add_lifecycle_event tracking_ops]. unfold attempt, store_add_lifecycle_event.
    rewrite Hr. cbn [negb]. by destruct (existsb _ _).
Qed.
