(* ===== verification/Tracker.v ===== *)
(** Connection tracking ([src/core/connection_tracker.cpp],
    [include/neta/connection_tracker.hpp]).

    A tracker keeps the live connections by identity (socket cookie, platform id,
    inode or tuple), a multimap from correlation keys to identities with its reverse
    map, and writes to the history database through [HistoryOps].  Process lookup
    ([platform::ProcessResolver], which reads the operating system) is a parameter.
    Iteration over the unordered maps is in the order of [map_to_list].

    The theorems, for every database that satisfies [HistoryLaws]: the invariant
    ([tracker_inv]: the two indexes agree and cover exactly the live connections,
    no two live connections share a database row, every live connection has its row,
    and a cookie identity is the cookie in that row) is kept by every operation;
    what admission and closing do; ambiguous tuples are never correlated; a snapshot
    pass retires exactly the connections it may. *)

From S2P Require Import Prelude Text Doubles Crypto Model History.

#[local] Arguments String.append !_ _ /.

(** ** Numbers *)

Definition valid_cookie (cookie : Z) : bool := negb (cookie =? 0) && negb (cookie =? u64_max).

(** The lambda [material]: a change of at least [floor] and of [ratio] of the old value. *)
Definition material (a b : Z) (ratio : spec_float) (floor : Z) : bool :=
  let difference := if b <? a then a - b else b - a in
  (floor <=? difference) &&
  ((a =? 0) || double_geb (double_div (double_of_Z difference) (double_of_Z a)) ratio).

Definition quarter : spec_float := double_div (double_of_Z 1) (double_of_Z 4).
Definition half : spec_float := double_div (double_of_Z 1) (double_of_Z 2).

Definition meaningful_change (previous current : TcpSnapshot) (last_persist_ns : Z) : bool :=
  negb (ts_total_retrans current =? ts_total_retrans previous) ||
  negb (ts_lost current =? ts_lost previous) || negb (ts_state current =? ts_state previous) ||
  material (ts_rtt_us previous) (ts_rtt_us current) quarter 2000 ||
  material (ts_rtt_variance_us previous) (ts_rtt_variance_us current) half 2000 ||
  (1000000000 <=? wrap_u 64 (ts_observed_ns current - last_persist_ns)).

(** ** State *)

Inductive ConnectionObservationOrigin :=
| LifecycleExact | LifecyclePlusSnapshot | SnapshotPreexisting | SnapshotReconciledAfterLifecycleLoss.
#[global] Instance ConnectionObservationOrigin_eq_dec : EqDecision ConnectionObservationOrigin.
Proof. solve_decision. Defined.

Definition snapshot_owned (origin : ConnectionObservationOrigin) : bool :=
  bool_decide (origin = SnapshotPreexisting) || bool_decide (origin = SnapshotReconciledAfterLifecycleLoss).

Record ConnectionAdmission := MkAdmission {
  ca_connection_id : Z;
  ca_newly_admitted : bool;
  ca_closed : bool;
  ca_direction_promoted : bool;
  ca_direction : ConnectionDirection }.

Record TrackedConnection := MkTracked {
  tc_connection_id : Z;
  tc_last_seen : TcpSnapshot;
  tc_last_persisted : TcpSnapshot;
  tc_last_persist_ns : Z;
  tc_has_transport_sample : bool;
  tc_present_in_snapshot : bool;
  tc_consecutive_snapshot_misses : Z;
  tc_process_pid : option Z;
  tc_process_start_ticks : option Z;
  tc_origin : ConnectionObservationOrigin }.

Record Tracker (S : Type) := MkTracker {
  tk_store : S;
  tk_connections : gmap string TrackedConnection;
  tk_index : list (string * string);
  tk_by_identity : gmap string string }.
Arguments MkTracker {S}.
Arguments tk_store {S} _.
Arguments tk_connections {S} _.
Arguments tk_index {S} _.
Arguments tk_by_identity {S} _.

(** ** Keys *)

Definition tuple_text (netns : option Z) (local_ip : string) (local_port : Z) (remote_ip : string)
    (remote_port : Z) : string :=
  "n:" +:+ to_string (value_or netns 0) +:+ "|" +:+ local_ip +:+ ":" +:+ to_string local_port +:+ "->" +:+
  remote_ip +:+ ":" +:+ to_string remote_port.

Definition tuple_for (local remote : NetworkEndpoint) (netns : option Z) : string :=
  tuple_text netns (ne_address local) (value_or (ne_port local) 0) (ne_address remote) (value_or (ne_port remote) 0).

Definition tuple_for_socket (socket : SocketObservation) : string :=
  tuple_text (so_network_namespace_inode socket) (so_local_ip socket) (so_local_port socket)
    (so_remote_ip socket) (so_remote_port socket).

Definition process_from (event : ConnectionLifecycleEvent) : option ProcessIdentity :=
  match lpi_tgid (lpc_agent_visible (le_process event)) with
  | None => None
  | Some tgid =>
      let start := match lpc_start_ticks (le_process event) with
                   | Some t => if t =? 0 then None else Some t
                   | None => None
                   end in
      Some (MkProcessIdentity tgid (value_or (lpc_uid (le_process event)) 0) start
              (value_or (lpc_comm (le_process event)) "") "")
  end.

Definition cookie_identity (cookie : Z) : string := "c:" +:+ to_string cookie.

(** The cookie of an event that identifies its connection. *)
Definition event_cookie (event : ConnectionLifecycleEvent) : option Z :=
  match le_socket_cookie event with
  | Some cookie => if valid_cookie cookie then Some cookie else None
  | None => None
  end.

Definition identity_for_event (event : ConnectionLifecycleEvent) : option string :=
  let process := value_or (lpi_tgid (lpc_agent_visible (le_process event))) (-1) in
  match event_cookie event with
  | Some cookie => Some (cookie_identity cookie)
  | None =>
      match le_platform_connection_id event with
      | Some id =>
          Some ("p:" +:+ to_string process +:+ "|" +:+
                to_string (value_or (lpc_start_ticks (le_process event)) 0) +:+ "|" +:+ to_string id)
      | None =>
          match le_local event, le_remote event with
          | Some local, Some remote =>
              Some ("f:" +:+ to_string (value_or (le_network_namespace_inode event) 0) +:+ "|" +:+
                    to_string process +:+ "|" +:+
                    tuple_for local remote (le_network_namespace_inode event) +:+ "|" +:+
                    to_string (le_timestamp_ns event))
          | _, _ => None
          end
      end
  end.

Definition identity_for_socket (socket : SocketObservation) : string :=
  if valid_cookie (so_socket_cookie socket) then cookie_identity (so_socket_cookie socket)
  else "i:" +:+ to_string (so_socket_inode socket) +:+ "|" +:+ tuple_for_socket socket.

Definition correlation_key (tuple : string) (process : option ProcessIdentity) (require_process_start : bool) : string :=
  match require_process_start, process with
  | true, Some p => tuple +:+ "|pid:" +:+ to_string (pi_pid p) +:+ "|start:" +:+
                    to_string (value_or (pi_start_ticks p) 0)
  | _, _ => tuple
  end.

Section Tracker.
Context {S : Type} `{HistoryOps S}.
Context (target_host : string).
Context (resolve_inode : Z -> option ProcessIdentity) (resolve_socket : SocketObservation -> option ProcessIdentity).

(** *** Indexes *)

Definition with_store (f : S -> S) (t : Tracker S) : Tracker S :=
  MkTracker (f (tk_store t)) (tk_connections t) (tk_index t) (tk_by_identity t).

(** [emplace] on the multimap and on the map, which keeps an existing entry. *)
Definition index_correlation (key identity : string) (t : Tracker S) : Tracker S :=
  MkTracker (tk_store t) (tk_connections t) (tk_index t ++ [(key, identity)])
    (match tk_by_identity t !! identity with
     | Some _ => tk_by_identity t
     | None => <[identity := key]> (tk_by_identity t)
     end).

Definition remove_correlation_identity (identity : string) (t : Tracker S) : Tracker S :=
  match tk_by_identity t !! identity with
  | None => t
  | Some key =>
      MkTracker (tk_store t) (tk_connections t)
        (filter (fun e => ~ (e.1 = key /\ e.2 = identity)) (tk_index t))
        (delete identity (tk_by_identity t))
  end.

Definition rename_entry (key previous canonical : string) (e : string * string) : string * string :=
  if bool_decide (e.1 = key /\ e.2 = previous) then (e.1, canonical) else e.

Definition rekey_identity (previous canonical : string) (t : Tracker S) : bool * Tracker S :=
  if bool_decide (previous = canonical) then (true, t)
  else if has (tk_connections t !! canonical) then (false, t)
  else
    match tk_connections t !! previous with
    | None => (false, t)
    | Some tracked =>
        let connections := <[canonical := tracked]> (delete previous (tk_connections t)) in
        match tk_by_identity t !! previous with
        | None => (true, MkTracker (tk_store t) connections (tk_index t) (tk_by_identity t))
        | Some key =>
            let by_identity := delete previous (tk_by_identity t) in
            (true, MkTracker (tk_store t) connections (rename_entry key previous canonical <$> tk_index t)
               (match by_identity !! canonical with
                | Some _ => by_identity
                | None => <[canonical := key]> by_identity
                end))
        end
    end.

Definition promote_socket_cookie_identity (previous canonical : string) (socket_cookie : Z) (t : Tracker S) :
    bool * Tracker S :=
  match tk_connections t !! previous with
  | None => (false, t)
  | Some tracked =>
      let '(changed, s) := update_socket_cookie (tc_connection_id tracked) socket_cookie (tk_store t) in
      let t := with_store (fun _ => s) t in
      if changed then rekey_identity previous canonical t else (false, t)
  end.

(** The loop of [unique_active_correlation_match] over the entries of the key. *)
Fixpoint unique_match (connections : gmap string TrackedConnection) (entries : list (string * string))
    (found : option string) : option string :=
  match entries with
  | [] => found
  | (_, identity) :: entries' =>
      match connections !! identity with
      | None => unique_match connections entries' found
      | Some _ =>
          match found with
          | Some m => if bool_decide (m = identity) then unique_match connections entries' (Some identity) else None
          | None => unique_match connections entries' (Some identity)
          end
      end
  end.

Definition unique_active_correlation_match (key : string) (t : Tracker S) : option string :=
  unique_match (tk_connections t) (filter (fun e => e.1 = key) (tk_index t)) None.

(** *** Lifecycle events *)

(** The tracked identity the event belongs to, if any. *)
Definition find_existing (event : ConnectionLifecycleEvent) (identity : string)
    (process : option ProcessIdentity) (t : Tracker S) : option string :=
  match tk_connections t !! identity with
  | Some _ => Some identity
  | None =>
      match le_local event, le_remote event with
      | Some local, Some remote =>
          let closing := bool_decide (le_type event = Close) in
          let require := has (le_platform_connection_id event) in
          let netns := le_network_namespace_inode event in
          let forward :=
            match unique_active_correlation_match (correlation_key (tuple_for local remote netns) process require) t with
            | Some correlated =>
                match tk_connections t !! correlated with
                | Some candidate => if closing || snapshot_owned (tc_origin candidate) then Some correlated else None
                | None => None
                end
            | None => None
            end in
          match forward with
          | Some e => Some e
          | None =>
              if closing then
                match unique_active_correlation_match (correlation_key (tuple_for remote local netns) process require) t with
                | Some correlated => if has (tk_connections t !! correlated) then Some correlated else None
                | None => None
                end
              else None
          end
      | _, _ => None
      end
  end.

(** Moving a correlated connection to the event's identity; the identity it has then. *)
Definition adopt_identity (event : ConnectionLifecycleEvent) (existing identity : string) (t : Tracker S) :
    string * Tracker S :=
  if bool_decide (existing = identity) then (existing, t)
  else
    let '(promoted, t) :=
      match event_cookie event with
      | Some cookie => promote_socket_cookie_identity existing identity cookie t
      | None => rekey_identity existing identity t
      end in
    (if promoted then identity else existing, t).

Definition set_lifecycle_origin (process : ProcessIdentity) (c : TrackedConnection) : TrackedConnection :=
  MkTracked (tc_connection_id c) (tc_last_seen c) (tc_last_persisted c) (tc_last_persist_ns c)
    (tc_has_transport_sample c) (tc_present_in_snapshot c) (tc_consecutive_snapshot_misses c)
    (Some (pi_pid process)) (pi_start_ticks process)
    (if tc_has_transport_sample c then LifecyclePlusSnapshot else LifecycleExact).

Definition close_connection (event : ConnectionLifecycleEvent) (existing : string) (t : Tracker S) :
    option ConnectionAdmission * Tracker S :=
  match tk_connections t !! existing with
  | None => (None, t)
  | Some tracked =>
      let id := tc_connection_id tracked in
      let t := with_store (fun s => add_lifecycle_event id event
                 (touch_connection id (le_timestamp_ns event) "CLOSED" s)) t in
      let t := remove_correlation_identity existing t in
      (Some (MkAdmission id false true false DirectionUnknown),
       MkTracker (tk_store t) (delete existing (tk_connections t)) (tk_index t) (tk_by_identity t))
  end.

Definition confirm_connection (event : ConnectionLifecycleEvent) (direction : ConnectionDirection)
    (process : ProcessIdentity) (existing : string) (t : Tracker S) : option ConnectionAdmission * Tracker S :=
  match tk_connections t !! existing with
  | None => (None, t)
  | Some tracked =>
      let id := tc_connection_id tracked in
      let s := add_lifecycle_event id event (tk_store t) in
      let '(promoted, s) := promote_connection_direction id direction s in
      (Some (MkAdmission id false false promoted direction),
       MkTracker s (<[existing := set_lifecycle_origin process tracked]> (tk_connections t))
         (tk_index t) (tk_by_identity t))
  end.

Definition socket_of_event (event : ConnectionLifecycleEvent) (process : ProcessIdentity)
    (local remote : NetworkEndpoint) (remote_port : Z) : SocketObservation :=
  MkSocketObservation (value_or (le_socket_cookie event) 0) 0 (le_network_namespace_inode event)
    (if has (le_platform_connection_id event) then Some (pi_pid process) else None)
    (value_or (lpc_uid (le_process event)) 0) (ne_address local) (value_or (ne_port local) 0)
    (ne_address remote) remote_port EndpointUnknown
    (MkTcpSnapshot (le_timestamp_ns event) (value_or (le_tcp_state event) 0)
       0 0 0 0 0 0 0 0 0 0 0 None None "" Contextual).

(** [connections_.emplace]. *)
Definition emplace_connection (identity : string) (c : TrackedConnection) (t : Tracker S) : Tracker S :=
  MkTracker (tk_store t)
    (match tk_connections t !! identity with
     | Some _ => tk_connections t
     | None => <[identity := c]> (tk_connections t)
     end) (tk_index t) (tk_by_identity t).

Definition admit_event (event : ConnectionLifecycleEvent) (direction : ConnectionDirection) (identity : string)
    (process : ProcessIdentity) (local remote : NetworkEndpoint) (remote_port : Z) (t : Tracker S) :
    option ConnectionAdmission * Tracker S :=
  let socket := socket_of_event event process local remote remote_port in
  let '(id, s) := begin_connection socket (Some process) target_host (le_timestamp_ns event) direction (tk_store t) in
  let s := add_lifecycle_event id event s in
  let t := with_store (fun _ => s) t in
  let t := emplace_connection identity
    (MkTracked id (so_transport socket) empty_snapshot 0 false false 0
       (Some (pi_pid process)) (pi_start_ticks process) LifecycleExact) t in
  let t := index_correlation
    (correlation_key (tuple_for local remote (le_network_namespace_inode event)) (Some process)
       (has (le_platform_connection_id event))) identity t in
  (Some (MkAdmission id true false false direction), t).

Definition observe_lifecycle (event : ConnectionLifecycleEvent) (direction : ConnectionDirection) (t : Tracker S) :
    option ConnectionAdmission * Tracker S :=
  if negb (bool_decide (le_protocol event = Tcp)) then (None, t)
  else
    match identity_for_event event with
    | None => (None, t)
    | Some identity =>
        let process := process_from event in
        let existing := find_existing event identity process t in
        if bool_decide (le_type event = Close) then
          match existing with
          | None => (None, t)
          | Some e => let '(e, t) := adopt_identity event e identity t in close_connection event e t
          end
        else if negb (eligible_connection_seed (le_endpoint_kind event)) then (None, t)
        else
          match le_local event, le_remote event, process with
          | Some local, Some remote, Some process =>
              match ne_port remote with
              | None => (None, t)
              | Some remote_port =>
                  match existing with
                  | Some e =>
                      let '(e, t) := adopt_identity event e identity t in
                      confirm_connection event direction process e t
                  | None => admit_event event direction identity process local remote remote_port t
                  end
              end
          | _, _, _ => (None, t)
          end
    end.

(** *** Snapshots *)

Definition persist_sample (sample : TcpSnapshot) (c : TrackedConnection) (s : S) : TrackedConnection * S :=
  let persist := negb (tc_has_transport_sample c) ||
                 meaningful_change (tc_last_persisted c) sample (tc_last_persist_ns c) in
  let s := if persist then add_tcp_sample (tc_connection_id c) sample s else s in
  (MkTracked (tc_connection_id c) sample (if persist then sample else tc_last_persisted c)
     (if persist then ts_observed_ns sample else tc_last_persist_ns c)
     (if persist then true else tc_has_transport_sample c) true (tc_consecutive_snapshot_misses c)
     (tc_process_pid c) (tc_process_start_ticks c) (tc_origin c),
   touch_connection (tc_connection_id c) (ts_observed_ns sample) "ACTIVE" s).

Definition note_snapshot (c : TrackedConnection) : TrackedConnection :=
  if bool_decide (tc_origin c = LifecycleExact)
  then MkTracked (tc_connection_id c) (tc_last_seen c) (tc_last_persisted c) (tc_last_persist_ns c)
         (tc_has_transport_sample c) (tc_present_in_snapshot c) (tc_consecutive_snapshot_misses c)
         (tc_process_pid c) (tc_process_start_ticks c) LifecyclePlusSnapshot
  else c.

Definition sample_connection (socket : SocketObservation) (direction : ConnectionDirection) (identity : string)
    (t : Tracker S) : option ConnectionAdmission * Tracker S :=
  match tk_connections t !! identity with
  | None => (None, t)
  | Some c =>
      let '(c, s) := persist_sample (so_transport socket) c (tk_store t) in
      (Some (MkAdmission (tc_connection_id c) false false false direction),
       MkTracker s (<[identity := note_snapshot c]> (tk_connections t)) (tk_index t) (tk_by_identity t))
  end.

Definition origin_state (origin : ConnectionObservationOrigin) : option string :=
  match origin with
  | SnapshotPreexisting => Some "PREEXISTING"
  | SnapshotReconciledAfterLifecycleLoss => Some "RECONCILED_AFTER_LIFECYCLE_LOSS"
  | _ => None
  end.

Definition admit_socket (socket : SocketObservation) (direction : ConnectionDirection)
    (origin : ConnectionObservationOrigin) (key identity : string) (process : ProcessIdentity) (t : Tracker S) :
    option ConnectionAdmission * Tracker S :=
  let now := ts_observed_ns (so_transport socket) in
  let '(id, s) := begin_connection socket (Some process) target_host now direction (tk_store t) in
  let s := add_tcp_sample id (so_transport socket) s in
  let s := match origin_state origin with Some state => touch_connection id now state s | None => s end in
  let t := with_store (fun _ => s) t in
  let t := emplace_connection identity
    (MkTracked id (so_transport socket) (so_transport socket) now true true 0
       (Some (pi_pid process)) (pi_start_ticks process) origin) t in
  (Some (MkAdmission id true false false direction), index_correlation key identity t).

(** The two halves of [observe_socket] differ in when the process is resolved: for
    a socket without an owner only if it is new, by inode; otherwise first, by
    socket, and the correlation key then includes it. *)
Definition observe_socket (socket : SocketObservation) (direction : ConnectionDirection)
    (allow_new_connection : bool) (origin : ConnectionObservationOrigin) (t : Tracker S) :
    option ConnectionAdmission * Tracker S :=
  let canonical := identity_for_socket socket in
  let owned := has (so_owning_pid socket) in
  let key := if owned then correlation_key (tuple_for_socket socket) (resolve_socket socket) true
             else tuple_for_socket socket in
  let correlated := unique_active_correlation_match key t in
  let tracked := has (tk_connections t !! canonical) in
  if tracked && match correlated with Some m => negb (bool_decide (m = canonical)) | None => false end
  then (None, t)
  else
    match tracked, correlated with
    | false, Some m =>
        if valid_cookie (so_socket_cookie socket) && negb (bool_decide (m = canonical)) then
          let '(promoted, t) := promote_socket_cookie_identity m canonical (so_socket_cookie socket) t in
          if promoted then sample_connection socket direction canonical t else (None, t)
        else sample_connection socket direction m t
    | true, _ => sample_connection socket direction canonical t
    | false, None =>
        if negb allow_new_connection then (None, t)
        else if negb (eligible_connection_seed (so_endpoint_kind socket)) then (None, t)
        else
          match (if owned then resolve_socket socket else resolve_inode (so_socket_inode socket)) with
          | None => (None, t)
          | Some process => admit_socket socket direction origin key canonical process t
          end
    end.

Definition set_present (present : bool) (misses : Z) (c : TrackedConnection) : TrackedConnection :=
  MkTracked (tc_connection_id c) (tc_last_seen c) (tc_last_persisted c) (tc_last_persist_ns c)
    (tc_has_transport_sample c) present misses (tc_process_pid c) (tc_process_start_ticks c) (tc_origin c).

Definition begin_snapshot (t : Tracker S) : Tracker S :=
  MkTracker (tk_store t)
    ((fun c => set_present false (tc_consecutive_snapshot_misses c) c) <$> tk_connections t)
    (tk_index t) (tk_by_identity t).

Definition reconciliation_miss_limit : Z := 3.

(** The connection is retired by this pass. *)
Definition retires (polling_controls_lifecycle lifecycle_evidence_incomplete : bool) (c : TrackedConnection) : bool :=
  negb (tc_present_in_snapshot c) &&
  (polling_controls_lifecycle ||
   ((snapshot_owned (tc_origin c) || lifecycle_evidence_incomplete) &&
    (reconciliation_miss_limit <=? wrap_u 64 (tc_consecutive_snapshot_misses c + 1)))).

Definition retired_state (polling_controls_lifecycle lifecycle_evidence_incomplete : bool) : string :=
  if polling_controls_lifecycle then "DISAPPEARED"
  else if lifecycle_evidence_incomplete then "RECONCILED_ABSENT_AFTER_LIFECYCLE_LOSS"
  else "PREEXISTING_DISAPPEARED".

(** One connection of the loop of [end_snapshot]. *)
Definition end_snapshot_one (polling incomplete : bool) (identity : string) (c : TrackedConnection)
    (inactive : list Z) (t : Tracker S) : list Z * Tracker S :=
  if tc_present_in_snapshot c then
    (inactive, MkTracker (tk_store t) (<[identity := set_present true 0 c]> (tk_connections t))
                 (tk_index t) (tk_by_identity t))
  else if retires polling incomplete c then
    let id := tc_connection_id c in
    let t := with_store (touch_connection id (ts_observed_ns (tc_last_seen c)) (retired_state polling incomplete)) t in
    let t := remove_correlation_identity identity t in
    (inactive ++ [id], MkTracker (tk_store t) (delete identity (tk_connections t)) (tk_index t) (tk_by_identity t))
  else
    (inactive, MkTracker (tk_store t)
       (<[identity := set_present false (wrap_u 64 (tc_consecutive_snapshot_misses c + 1)) c]> (tk_connections t))
       (tk_index t) (tk_by_identity t)).

Fixpoint end_snapshot_loop (polling incomplete : bool) (todo : list (string * TrackedConnection))
    (inactive : list Z) (t : Tracker S) : list Z * Tracker S :=
  match todo with
  | [] => (inactive, t)
  | (identity, c) :: todo' =>
      let '(inactive, t) := end_snapshot_one polling incomplete identity c inactive t in
      end_snapshot_loop polling incomplete todo' inactive t
  end.

Definition end_snapshot (polling_controls_lifecycle lifecycle_evidence_incomplete : bool) (t : Tracker S) :
    list Z * Tracker S :=
  end_snapshot_loop polling_controls_lifecycle lifecycle_evidence_incomplete
    (map_to_list (tk_connections t)) [] t.

Definition finish_one (polling : bool) (c : TrackedConnection) (s : S) : S :=
  touch_connection (tc_connection_id c) (ts_observed_ns (tc_last_seen c))
    (if polling && negb (tc_present_in_snapshot c) then "DISAPPEARED" else "OBSERVATION_ENDED") s.

Definition finish_observation (polling_controls_lifecycle : bool) (t : Tracker S) : Tracker S :=
  with_store (fun s => fold_left (fun s c => finish_one polling_controls_lifecycle c s)
    ((map_to_list (tk_connections t)).*2) s) t.
End Tracker.

(** ** Invariant *)

Definition event_ok (event : ConnectionLifecycleEvent) : Prop :=
  match le_socket_cookie event with Some c => in_u 64 c | None => True end.

Definition socket_ok (socket : SocketObservation) : Prop := in_u 64 (so_socket_cookie socket).

Lemma cookie_identity_inj a b : cookie_identity a = cookie_identity b -> a = b.
Proof. unfold cookie_identity. intros E%string_app_inv_l. by apply to_string_inj. Qed.

Lemma wrap_cookie_nonzero n : in_u 64 n -> valid_cookie n = true -> wrap_s 64 n <> 0.
Proof.
  unfold valid_cookie, wrap_s, in_u. intros Hn Hv. to_prop. intros E.
  assert (Em : (n + 2 ^ (64 - 1)) mod 2 ^ 64 = 2 ^ 63) by lia.
  destruct (Z_lt_ge_dec n (2 ^ 63)).
  - rewrite Z.mod_small in Em by lia. lia.
  - replace (n + 2 ^ (64 - 1)) with (n - 2 ^ 63 + 1 * 2 ^ 64) in Em by lia.
    rewrite Z.mod_add, Z.mod_small in Em by lia. lia.
Qed.

Lemma event_identity_cookie event identity n :
  identity_for_event event = Some identity -> identity = cookie_identity n -> event_cookie event = Some n.
Proof.
  unfold identity_for_event. destruct (event_cookie event) as [c|].
  - intros [= <-] E%cookie_identity_inj. by subst.
  - repeat case_match; intros [= <-] E; discriminate E.
Qed.

Lemma socket_identity_cookie socket n :
  identity_for_socket socket = cookie_identity n -> so_socket_cookie socket = n.
Proof.
  unfold identity_for_socket. destruct (valid_cookie _); [by intros ?%cookie_identity_inj|discriminate].
Qed.

Lemma event_cookie_valid event n :
  event_ok event -> event_cookie event = Some n ->
  in_u 64 n /\ valid_cookie n = true /\ le_socket_cookie event = Some n.
Proof.
  unfold event_ok, event_cookie. intros Hok E. repeat case_match; simplify_eq. done.
Qed.

Section Invariant.
Context {S : Type} `{Hlaws : HistoryLaws S}.

Record tracker_inv (t : Tracker S) : Prop := {
  ti_index : forall key identity, (key, identity) ∈ tk_index t <-> tk_by_identity t !! identity = Some key;
  ti_dom : forall identity, is_Some (tk_connections t !! identity) <-> is_Some (tk_by_identity t !! identity);
  ti_row : forall identity c, tk_connections t !! identity = Some c ->
    is_Some (row_cookie (tk_store t) (tc_connection_id c));
  ti_inj : forall i1 i2 c1 c2, tk_connections t !! i1 = Some c1 -> tk_connections t !! i2 = Some c2 ->
    tc_connection_id c1 = tc_connection_id c2 -> i1 = i2;
  ti_cookie : forall n c, in_u 64 n -> valid_cookie n = true ->
    tk_connections t !! cookie_identity n = Some c ->
    row_cookie (tk_store t) (tc_connection_id c) = Some (wrap_s 64 n) }.

(** Database writes that keep the cookies. *)
Lemma inv_store t s :
  (forall id, row_cookie s id = row_cookie (tk_store t) id) -> tracker_inv t ->
  tracker_inv (MkTracker s (tk_connections t) (tk_index t) (tk_by_identity t)).
Proof.
  intros Hs [Hi Hd Hr Hj Hc]. split; simpl; try done.
  - intros i c E. rewrite Hs. by eapply Hr.
  - intros n c Hn Hv E. rewrite Hs. by apply Hc.
Qed.

(** Replacing a tracked connection by one with the same row. *)
Lemma inv_update t identity c c' :
  tracker_inv t -> tk_connections t !! identity = Some c -> tc_connection_id c' = tc_connection_id c ->
  tracker_inv (MkTracker (tk_store t) (<[identity := c']> (tk_connections t)) (tk_index t) (tk_by_identity t)).
Proof.
  intros [Hi Hd Hr Hj Hc] E Eid.
  assert (L : forall i x, <[identity := c']> (tk_connections t) !! i = Some x ->
    exists y, tk_connections t !! i = Some y /\ tc_connection_id y = tc_connection_id x).
  { intros i x. rewrite lookup_insert_Some. intros [[<- <-]|[_ Hx]]; eauto. }
  split; simpl; try done.
  - intros i. rewrite <- Hd. destruct (decide (i = identity)) as [->|Hne];
      [rewrite lookup_insert_eq, E|rewrite lookup_insert_ne by done]; done.
  - intros i x (y & Hy & <-)%L. by eapply Hr.
  - intros i1 i2 c1 c2 (y1 & H1 & <-)%L (y2 & H2 & <-)%L. by eapply Hj.
  - intros n x Hn Hv (y & Hy & <-)%L. by apply Hc.
Qed.

(** Forgetting a tracked connection. *)
Lemma inv_forget t identity :
  tracker_inv t ->
  let t' := remove_correlation_identity identity t in
  tracker_inv (MkTracker (tk_store t') (delete identity (tk_connections t')) (tk_index t') (tk_by_identity t')).
Proof.
  intros [Hi Hd Hr Hj Hc]. unfold remove_correlation_identity.
  destruct (tk_by_identity t !! identity) as [key|] eqn:Ek; simpl.
  - split; simpl.
    + intros k i. rewrite list_elem_of_filter, Hi. simpl. destruct (decide (i = identity)) as [->|Hne].
      * rewrite lookup_delete_eq, Ek. naive_solver.
      * rewrite lookup_delete_ne by done. naive_solver.
    + intros i. rewrite !lookup_delete_is_Some. by rewrite Hd.
    + intros i c [_ E]%lookup_delete_Some. by eapply Hr.
    + intros i1 i2 c1 c2 [_ E1]%lookup_delete_Some [_ E2]%lookup_delete_Some. by eapply Hj.
    + intros n c Hn Hv [_ E]%lookup_delete_Some. by apply Hc.
  - assert (En : tk_connections t !! identity = None).
    { apply eq_None_not_Some. rewrite Hd, Ek. by intros [? ?]. }
    rewrite delete_id by done. by split.
Qed.

(** Adding a connection with a new row under a new identity. *)
Lemma inv_admit t s identity key c :
  tracker_inv t -> tk_connections t !! identity = None ->
  (forall id, id <> tc_connection_id c -> row_cookie s id = row_cookie (tk_store t) id) ->
  row_cookie (tk_store t) (tc_connection_id c) = None -> is_Some (row_cookie s (tc_connection_id c)) ->
  (forall n, in_u 64 n -> valid_cookie n = true -> identity = cookie_identity n ->
     row_cookie s (tc_connection_id c) = Some (wrap_s 64 n)) ->
  tracker_inv (index_correlation key identity (emplace_connection identity c (with_store (fun _ => s) t))).
Proof.
  intros [Hi Hd Hr Hj Hc] En Hs Hfresh Hrow Hck.
  assert (Eb : tk_by_identity t !! identity = None).
  { apply eq_None_not_Some. rewrite <- Hd, En. by intros [? ?]. }
  assert (Hne : forall i x, tk_connections t !! i = Some x -> tc_connection_id x <> tc_connection_id c).
  { intros i x E Eid. destruct (Hr i x E) as [? Hx]. rewrite Eid in Hx. congruence. }
  unfold index_correlation, emplace_connection. simpl. rewrite En, Eb. split; simpl.
  - intros k i. rewrite elem_of_app, list_elem_of_singleton, Hi. destruct (decide (i = identity)) as [->|Hnei].
    + rewrite lookup_insert_eq, Eb. naive_solver.
    + rewrite lookup_insert_ne by done. naive_solver.
  - intros i. rewrite !lookup_insert_is_Some'. by rewrite Hd.
  - intros i x. rewrite lookup_insert_Some. intros [[<- <-]|[_ E]]; [done|].
    rewrite Hs by (by eapply Hne). by eapply Hr.
  - intros i1 i2 c1 c2. rewrite !lookup_insert_Some.
    intros [[<- <-]|[? E1]] [[<- <-]|[? E2]] Eid; [done| | |by eapply Hj];
      [by apply Hne in E2; congruence|by apply Hne in E1; congruence].
  - intros n x Hn Hv. rewrite lookup_insert_Some. intros [[Ei <-]|[_ E]]; [by apply Hck|].
    rewrite Hs by (by eapply Hne). by apply Hc.
Qed.

(** Moving a connection to another identity: [canonical] is free, and if it is a
    cookie identity then its row already has that cookie. *)
Lemma inv_rekey t previous canonical :
  tracker_inv t ->
  (forall n c, in_u 64 n -> valid_cookie n = true -> canonical = cookie_identity n ->
     tk_connections t !! previous = Some c ->
     row_cookie (tk_store t) (tc_connection_id c) = Some (wrap_s 64 n)) ->
  tracker_inv (rekey_identity previous canonical t).2.
Proof.
  intros Hinv Hck. unfold rekey_identity. case_bool_decide as Epc; [done|].
  destruct (tk_connections t !! canonical) as [x|] eqn:Ecan; [done|]. simpl.
  destruct (tk_connections t !! previous) as [c|] eqn:Ep; [|done].
  destruct Hinv as [Hi Hd Hr Hj Hc].
  assert (Ebc : tk_by_identity t !! canonical = None).
  { apply eq_None_not_Some. rewrite <- Hd, Ecan. by intros [? ?]. }
  assert (Hb : is_Some (tk_by_identity t !! previous)) by (apply Hd; eauto).
  destruct Hb as [key Ek]. rewrite Ek. simpl. rewrite lookup_delete_ne, Ebc by done.
  assert (L : forall i x, <[canonical := c]> (delete previous (tk_connections t)) !! i = Some x ->
    (i = canonical /\ x = c) \/ (i <> canonical /\ i <> previous /\ tk_connections t !! i = Some x)).
  { intros i x. rewrite lookup_insert_Some, lookup_delete_Some. naive_solver. }
  split; simpl.
  - intros k i. rewrite list_elem_of_fmap. unfold rename_entry. rewrite lookup_insert_Some, lookup_delete_Some. split.
    + intros ([k0 i0] & E & Hin). apply Hi in Hin. case_bool_decide as Eb; simpl in *; simplify_eq.
      * left. naive_solver.
      * right. naive_solver.
    + intros [[<- <-]|(Hne & Hne2 & E)].
      * exists (key, previous). rewrite bool_decide_eq_true_2 by done. by rewrite Hi.
      * exists (k, i). rewrite bool_decide_eq_false_2 by naive_solver. by rewrite Hi.
  - intros i. rewrite !lookup_insert_is_Some', !lookup_delete_is_Some. by rewrite Hd.
  - intros i x [[-> ->]|(_ & _ & E)]%L; [by apply (Hr previous)|by eapply Hr].
  - intros i1 i2 c1 c2 [[-> ->]|(N1 & P1 & E1)]%L [[-> ->]|(N2 & P2 & E2)]%L Eid; [done| | |by eapply Hj].
    + by destruct P2; eapply Hj.
    + by destruct P1; eapply Hj.
  - intros n x Hn Hv [[Ei ->]|(_ & _ & E)]%L; [by eapply Hck|by apply Hc].
Qed.

Lemma rekey_tracked (t : Tracker S) previous canonical :
  (rekey_identity previous canonical t).1 = true -> is_Some (tk_connections t !! previous) ->
  is_Some (tk_connections (rekey_identity previous canonical t).2 !! canonical).
Proof.
  unfold rekey_identity. case_bool_decide as E; [by subst|].
  destruct (tk_connections t !! canonical); simpl; [done|].
  destruct (tk_connections t !! previous); [|done]. destruct (tk_by_identity t !! previous); simpl;
    intros _ _; rewrite lookup_insert_eq; eauto.
Qed.

Lemma inv_promote t previous n :
  tracker_inv t -> in_u 64 n -> valid_cookie n = true ->
  tracker_inv (promote_socket_cookie_identity previous (cookie_identity n) n t).2.
Proof.
  intros Hinv Hn Hv. unfold promote_socket_cookie_identity.
  destruct (tk_connections t !! previous) as [c|] eqn:Ep; [|done].
  pose proof (cookie_once (tc_connection_id c) n (tk_store t)) as Hco.
  destruct (update_socket_cookie _ n (tk_store t)) as [changed s]. destruct Hco as [Ech Hco].
  assert (Hinv' : tracker_inv (with_store (fun _ => s) t)).
  { destruct Hinv as [Hi Hd Hr Hj Hc]. split; simpl; try done.
    - intros i x E. destruct (Hco (tc_connection_id x)) as (_ & _ & ->).
      destruct (decide (tc_connection_id x = tc_connection_id c /\ changed = true)); [eauto|by eapply Hr].
    - intros m x Hm Hmv E. destruct (Hco (tc_connection_id x)) as (_ & _ & ->).
      destruct (decide (tc_connection_id x = tc_connection_id c /\ changed = true)) as [[Eid ->]|]; [|by apply Hc].
      symmetry in Ech. apply bool_decide_eq_true in Ech.
      rewrite <- Eid, (Hc m x Hm Hmv E) in Ech. injection Ech as Ech. by apply wrap_cookie_nonzero in Ech. }
  destruct changed; [|done]. apply inv_rekey; [done|]. simpl. intros m x Hm Hmv Ei%cookie_identity_inj E.
  subst m. rewrite Ep in E. injection E as <-. destruct (Hco (tc_connection_id c)) as (_ & _ & ->).
  by rewrite decide_True.
Qed.

(** *** Lifecycle events *)

Lemma inv_adopt event existing identity t :
  event_ok event -> identity_for_event event = Some identity -> tracker_inv t ->
  tracker_inv (adopt_identity event existing identity t).2.
Proof.
  intros Hok Hid Hinv. unfold adopt_identity. case_bool_decide; [done|].
  destruct (event_cookie event) as [n|] eqn:Ec.
  - destruct (event_cookie_valid event n Hok Ec) as (Hn & Hv & _).
    assert (E : identity = cookie_identity n) by (unfold identity_for_event in Hid; rewrite Ec in Hid; by simplify_eq).
    subst identity. pose proof (inv_promote t existing n Hinv Hn Hv).
    by destruct (promote_socket_cookie_identity _ _ _ t).
  - pose proof (inv_rekey t existing identity Hinv) as Hr.
    destruct (rekey_identity existing identity t). apply Hr. intros n c Hn Hv E _.
    rewrite (event_identity_cookie event identity n Hid E) in Ec. done.
Qed.

Lemma inv_close event existing t : tracker_inv t -> tracker_inv (close_connection event existing t).2.
Proof.
  intros Hinv. unfold close_connection. destruct (tk_connections t !! existing) as [c|]; [|done]. simpl.
  apply (inv_forget (with_store _ t)). apply inv_store; [|done]. intros id.
  destruct (event_frame (tc_connection_id c) event
    (touch_connection (tc_connection_id c) (le_timestamp_ns event) "CLOSED" (tk_store t)) id) as [-> _].
  apply touch_row.
Qed.

Lemma inv_confirm event direction process existing t :
  tracker_inv t -> tracker_inv (confirm_connection event direction process existing t).2.
Proof.
  intros Hinv. unfold confirm_connection. destruct (tk_connections t !! existing) as [c|] eqn:E; [|done].
  pose proof (direction_once (tc_connection_id c) direction (add_lifecycle_event (tc_connection_id c) event (tk_store t))) as Hd.
  destruct (promote_connection_direction _ _ _) as [promoted s]. destruct Hd as [_ Hd]. simpl.
  apply (inv_update (MkTracker s (tk_connections t) (tk_index t) (tk_by_identity t)) existing c); [|done|done].
  apply inv_store; [|done]. intros id. destruct (Hd id) as (_ & -> & _). apply event_frame.
Qed.

Context (target_host : string).
Context (resolve_inode : Z -> option ProcessIdentity) (resolve_socket : SocketObservation -> option ProcessIdentity).

Lemma admit_event_inv event direction identity process local remote port t :
  event_ok event -> identity_for_event event = Some identity -> tracker_inv t ->
  tk_connections t !! identity = None ->
  tracker_inv (admit_event target_host event direction identity process local remote port t).2.
Proof.
  intros Hok Hid Hinv En. unfold admit_event. set (socket := socket_of_event _ _ _ _ _).
  pose proof (begin_fresh socket (Some process) target_host (le_timestamp_ns event) direction (tk_store t)) as Hb.
  destruct (begin_connection _ _ _ _ _ (tk_store t)) as [id s]. destruct Hb as (Hf & Hc & _ & _ & Ho). simpl.
  pose proof (fun i => proj1 (event_frame id event s i)) as He.
  apply (inv_admit t (add_lifecycle_event id event s)); simpl; rewrite ?He; try done.
  - intros i Hne. rewrite He. by apply Ho.
  - intros n Hn Hv E. rewrite Hc. simpl.
    destruct (event_cookie_valid event n Hok (event_identity_cookie event identity n Hid E)) as (_ & _ & ->). done.
Qed.

Lemma find_existing_none event identity process (t : Tracker S) :
  find_existing event identity process t = None -> tk_connections t !! identity = None.
Proof. unfold find_existing. by destruct (tk_connections t !! identity). Qed.

Lemma observe_lifecycle_inv event direction t :
  event_ok event -> tracker_inv t -> tracker_inv (observe_lifecycle target_host event direction t).2.
Proof.
  intros Hok Hinv. unfold observe_lifecycle. destruct (negb _); [done|].
  destruct (identity_for_event event) as [identity|] eqn:Hid; [|done].
  destruct (find_existing event identity (process_from event) t) as [e|] eqn:Ef.
  - pose proof (inv_adopt event e identity t Hok Hid Hinv) as Ha.
    destruct (adopt_identity event e identity t) as [e' t']. simpl in Ha.
    case_bool_decide; [by apply inv_close|]. destruct (negb _); [done|].
    destruct (le_local event), (le_remote event) as [remote|], (process_from event); try done.
    destruct (ne_port remote); [by apply inv_confirm|done].
  - apply find_existing_none in Ef. case_bool_decide; [done|]. destruct (negb _); [done|].
    destruct (le_local event), (le_remote event) as [remote|], (process_from event); try done.
    destruct (ne_port remote); [by apply admit_event_inv|done].
Qed.

(** *** Snapshots *)

Lemma persist_sample_frame sample c (s : S) :
  let '(c', s') := persist_sample sample c s in
  tc_connection_id c' = tc_connection_id c /\ forall id, row_cookie s' id = row_cookie s id.
Proof.
  unfold persist_sample. split; [done|]. intros id.
  destruct (touch_row (tc_connection_id c) (ts_observed_ns sample) "ACTIVE"
    (if negb (tc_has_transport_sample c) || meaningful_change (tc_last_persisted c) sample (tc_last_persist_ns c)
     then add_tcp_sample (tc_connection_id c) sample s else s) id) as [-> _].
  destruct (_ || _); [|done]. apply sample_frame.
Qed.

Lemma sample_connection_inv socket direction identity t :
  tracker_inv t -> tracker_inv (sample_connection socket direction identity t).2.
Proof.
  intros Hinv. unfold sample_connection. destruct (tk_connections t !! identity) as [c|] eqn:E; [|done].
  pose proof (persist_sample_frame (so_transport socket) c (tk_store t)) as Hp.
  destruct (persist_sample _ c (tk_store t)) as [c' s']. destruct Hp as [Eid Hs]. simpl.
  apply (inv_update (MkTracker s' (tk_connections t) (tk_index t) (tk_by_identity t)) identity c); [|done|].
  - by apply inv_store.
  - unfold note_snapshot. by case_bool_decide.
Qed.

Lemma admit_socket_inv socket direction origin key process t :
  socket_ok socket -> tracker_inv t -> tk_connections t !! identity_for_socket socket = None ->
  tracker_inv (admit_socket target_host socket direction origin key (identity_for_socket socket) process t).2.
Proof.
  intros Hok Hinv En. unfold admit_socket. set (now := ts_observed_ns _).
  pose proof (begin_fresh socket (Some process) target_host now direction (tk_store t)) as Hb.
  destruct (begin_connection _ _ _ _ _ (tk_store t)) as [id s]. destruct Hb as (Hf & Hc & _ & _ & Ho).
  set (s' := match origin_state origin with Some _ => _ | None => _ end).
  assert (Hs : forall i, row_cookie s' i = row_cookie s i).
  { intros i. subst s'. destruct (sample_frame id (so_transport socket) s i) as [Hsf _].
    destruct (origin_state origin) as [state|]; [|done].
    destruct (touch_row id now state (add_tcp_sample id (so_transport socket) s) i) as [-> _]. done. }
  simpl. apply (inv_admit t s'); simpl; rewrite ?Hs; try done.
  - intros i Hne. rewrite Hs. by apply Ho.
  - intros n Hn Hv E. rewrite Hc. by rewrite (socket_identity_cookie socket n E).
Qed.

Lemma observe_socket_inv socket direction allow origin t :
  socket_ok socket -> tracker_inv t ->
  tracker_inv (observe_socket target_host resolve_inode resolve_socket socket direction allow origin t).2.
Proof.
  intros Hok Hinv. unfold observe_socket. set (key := if has _ then _ else _).
  destruct (unique_active_correlation_match key t) as [m|] eqn:Em;
    destruct (tk_connections t !! identity_for_socket socket) as [c|] eqn:Ec; cbn [has andb].
  - destruct (negb _); [done|]. by apply sample_connection_inv.
  - destruct (valid_cookie (so_socket_cookie socket) && negb (bool_decide (m = identity_for_socket socket))) eqn:Ev.
    + to_prop. assert (E : identity_for_socket socket = cookie_identity (so_socket_cookie socket))
        by (unfold identity_for_socket; by rewrite H).
      rewrite E. pose proof (inv_promote t m (so_socket_cookie socket) Hinv Hok H) as Hp.
      destruct (promote_socket_cookie_identity _ _ _ t) as [[] t']; [by apply sample_connection_inv|done].
    + by apply sample_connection_inv.
  - by apply sample_connection_inv.
  - repeat case_match; try done; by apply admit_socket_inv.
Qed.

Lemma begin_snapshot_inv t : tracker_inv t -> tracker_inv (begin_snapshot t).
Proof.
  intros [Hi Hd Hr Hj Hc]. split; simpl; try done.
  - intros i. by rewrite lookup_fmap, fmap_is_Some.
  - intros i c. rewrite lookup_fmap_Some. intros (x & <- & E). by apply (Hr i x).
  - intros i1 i2 c1 c2. rewrite !lookup_fmap_Some. intros (x1 & <- & E1) (x2 & <- & E2). simpl. by eapply Hj.
  - intros n c Hn Hv. rewrite lookup_fmap_Some. intros (x & <- & E). by apply (Hc n x).
Qed.

Lemma finish_observation_inv polling t : tracker_inv t -> tracker_inv (finish_observation polling t).
Proof.
  intros Hinv. unfold finish_observation. apply inv_store; [|done].
  generalize ((map_to_list (tk_connections t)).*2) as l. intros l id. revert id. generalize (tk_store t) as s.
  induction l as [|c l IH]; intros s id; simpl; [done|]. rewrite IH. unfold finish_one. apply touch_row.
Qed.

(** *** End of a snapshot *)

(** What a pass leaves of a tracked connection. *)
Definition after_pass (polling incomplete : bool) (c : TrackedConnection) : option TrackedConnection :=
  if tc_present_in_snapshot c then Some (set_present true 0 c)
  else if retires polling incomplete c then None
  else Some (set_present false (wrap_u 64 (tc_consecutive_snapshot_misses c + 1)) c).

Definition retired_ids (polling incomplete : bool) (todo : list (string * TrackedConnection)) : list Z :=
  omap (fun e => if retires polling incomplete e.2 then Some (tc_connection_id e.2) else None) todo.

Lemma remove_correlation_connections identity (t : Tracker S) :
  tk_connections (remove_correlation_identity identity t) = tk_connections t /\
  tk_store (remove_correlation_identity identity t) = tk_store t.
Proof. unfold remove_correlation_identity. by destruct (tk_by_identity t !! identity). Qed.

Lemma end_snapshot_one_spec polling incomplete identity c inactive t :
  tracker_inv t -> tk_connections t !! identity = Some c ->
  let '(inactive', t') := end_snapshot_one polling incomplete identity c inactive t in
  tracker_inv t' /\ inactive' = inactive ++ retired_ids polling incomplete [(identity, c)] /\
  forall i, tk_connections t' !! i = if decide (i = identity) then after_pass polling incomplete c
                                     else tk_connections t !! i.
Proof.
  intros Hinv E. unfold end_snapshot_one, after_pass, retired_ids. simpl.
  assert (U : forall c' i, <[identity := c']> (tk_connections t) !! i =
    if decide (i = identity) then Some c' else tk_connections t !! i).
  { intros c' i. case_decide as Hi; [subst; by rewrite lookup_insert_eq|by rewrite lookup_insert_ne]. }
  destruct (tc_present_in_snapshot c) eqn:Ep.
  - replace (retires polling incomplete c) with false by (unfold retires; by rewrite Ep).
    rewrite app_nil_r. split_and!; [by apply (inv_update t identity c)|done|apply U].
  - destruct (retires polling incomplete c).
    + set (t1 := with_store _ t). split_and!; [|done|].
      * apply (inv_forget t1). apply inv_store; [|done]. intros id. apply touch_row.
      * intros i. simpl. destruct (remove_correlation_connections identity t1) as [-> _]. simpl.
        case_decide as Hi; [subst; by rewrite lookup_delete_eq|by rewrite lookup_delete_ne].
    + rewrite app_nil_r. split_and!; [by apply (inv_update t identity c)|done|apply U].
Qed.

Lemma end_snapshot_loop_spec polling incomplete todo inactive t :
  tracker_inv t -> NoDup todo.*1 -> (forall i c, (i, c) ∈ todo -> tk_connections t !! i = Some c) ->
  let '(inactive', t') := end_snapshot_loop polling incomplete todo inactive t in
  tracker_inv t' /\ inactive' = inactive ++ retired_ids polling incomplete todo /\
  (forall i c, (i, c) ∈ todo -> tk_connections t' !! i = after_pass polling incomplete c) /\
  (forall i, i ∉ todo.*1 -> tk_connections t' !! i = tk_connections t !! i).
Proof.
  revert inactive t. induction todo as [|[i0 c0] todo IH]; intros inactive t Hinv Hnd Ht; simpl.
  { split_and!; [done|by rewrite app_nil_r| |done]. intros i c Hin. by apply not_elem_of_nil in Hin. }
  apply NoDup_cons in Hnd as [Hni Hnd].
  assert (E0 : tk_connections t !! i0 = Some c0) by (apply Ht; by left).
  pose proof (end_snapshot_one_spec polling incomplete i0 c0 inactive t Hinv E0) as H1.
  destruct (end_snapshot_one polling incomplete i0 c0 inactive t) as [in1 t1]. destruct H1 as (Hinv1 & -> & Hc1).
  specialize (IH (inactive ++ retired_ids polling incomplete [(i0, c0)]) t1 Hinv1 Hnd).
  destruct (end_snapshot_loop polling incomplete todo _ t1) as [in2 t2].
  destruct IH as (Hinv2 & -> & Hin2 & Hout2).
  { intros i c Hin. rewrite Hc1, decide_False; [apply Ht; by right|]. intros ->. apply Hni.
    apply list_elem_of_fmap. by exists (i0, c). }
  split_and!; [done| | |].
  - rewrite <- app_assoc. f_equal. unfold retired_ids. simpl. by destruct (retires polling incomplete c0).
  - intros i c [[= -> ->]|Hin]%elem_of_cons; [|by apply Hin2]. rewrite Hout2 by done. by rewrite Hc1, decide_True.
  - intros i [Hne Hn]%not_elem_of_cons. rewrite Hout2 by done. by rewrite Hc1, decide_False.
Qed.

Lemma end_snapshot_outcome polling incomplete t :
  tracker_inv t ->
  let '(inactive, t') := end_snapshot polling incomplete t in
  tracker_inv t' /\ inactive = retired_ids polling incomplete (map_to_list (tk_connections t)) /\
  forall i, tk_connections t' !! i = tk_connections t !! i ≫= after_pass polling incomplete.
Proof.
  intros Hinv. unfold end_snapshot.
  pose proof (end_snapshot_loop_spec polling incomplete (map_to_list (tk_connections t)) [] t Hinv
    (NoDup_fst_map_to_list _)) as Hl.
  destruct (end_snapshot_loop _ _ _ _ t) as [inactive t']. destruct Hl as (Hinv' & -> & Hin & Hout).
  { intros i c. apply elem_of_map_to_list. }
  split_and!; [done|done|]. intros i. destruct (tk_connections t !! i) as [c|] eqn:E; simpl.
  - apply Hin. by apply elem_of_map_to_list.
  - rewrite Hout; [done|]. intros ([j c] & -> & Hj%elem_of_map_to_list)%list_elem_of_fmap. simpl in *. congruence.
Qed.

(** *** Correlation *)

Lemma unique_match_spec connections entries found :
  (forall m, found = Some m -> is_Some (connections !! m)) ->
  match unique_match connections entries found with
  | Some id => is_Some (connections !! id) /\ (found = Some id \/ (found = None /\ exists k, (k, id) ∈ entries)) /\
      forall k i, (k, i) ∈ entries -> is_Some (connections !! i) -> i = id
  | None => (found = None /\ forall k i, (k, i) ∈ entries -> connections !! i = None) \/
      exists i1 i2, i1 <> i2 /\ is_Some (connections !! i1) /\ is_Some (connections !! i2) /\
        (found = Some i1 \/ exists k, (k, i1) ∈ entries) /\ exists k, (k, i2) ∈ entries
  end.
Proof.
  revert found. induction entries as [|[k0 i0] entries IH]; intros found Hf; cbn [unique_match].
  { destruct found as [m|]; [|left; split; [done|intros k i Hin; by apply not_elem_of_nil in Hin]].
    split_and!; [by apply Hf|by left|]. intros k i Hin. by apply not_elem_of_nil in Hin. }
  destruct (connections !! i0) as [c|] eqn:E.
  - destruct found as [m|].
    + case_bool_decide as Em.
      * subst m. specialize (IH (Some i0) Hf). destruct (unique_match connections entries (Some i0)) as [id|].
        -- destruct IH as (H1 & H2 & H3). split_and!; [done|naive_solver|].
           intros k i [[= -> ->]|Hin]%elem_of_cons Hs; [naive_solver|by eapply H3].
        -- right. destruct IH as [[? _]|(i1 & i2 & ? & ? & ? & ? & (k & ?))]; [done|].
           exists i1, i2. split_and!; try done; [|exists k; by right]. destruct H2 as [?|(k' & ?)]; [by left|right; exists k'; by right].
      * right. exists m, i0. split_and!; [done|by apply Hf|by rewrite E|by left|]. exists k0. by left.
    + specialize (IH (Some i0)). destruct (unique_match connections entries (Some i0)) as [id|].
      * destruct IH as (H1 & H2 & H3); [intros m [= <-]; by rewrite E|].
        assert (id = i0) as -> by naive_solver. split_and!; [done|right; split; [done|exists k0; by left]|].
        intros k i [[= -> ->]|Hin]%elem_of_cons Hs; [done|by eapply H3].
      * right. destruct IH as [[? _]|(i1 & i2 & ? & ? & ? & H2 & (k & ?))]; [intros m [= <-]; by rewrite E|done|].
        exists i1, i2. split_and!; try done; [|exists k; by right]. right.
        destruct H2 as [[= <-]|(k' & ?)]; [exists k0; by left|exists k'; by right].
  - specialize (IH found Hf). destruct (unique_match connections entries found) as [id|].
    + destruct IH as (H1 & H2 & H3). split_and!; [done|destruct H2 as [?|[? (k & ?)]]; [by left|right; split; [done|exists k; by right]]|].
      intros k i [[= -> ->]|Hin]%elem_of_cons Hs; [rewrite E in Hs; by destruct Hs|by eapply H3].
    + destruct IH as [[? H3]|(i1 & i2 & ? & ? & ? & H2 & (k & ?))].
      * left. split; [done|]. intros k i [[= -> ->]|Hin]%elem_of_cons; [done|by eapply H3].
      * right. exists i1, i2. split_and!; try done; [|exists k; by right].
        destruct H2 as [?|(k' & ?)]; [by left|right; exists k'; by right].
Qed.
End Invariant.

(** ** Properties *)

Section Properties.
Context {S : Type} `{Hlaws : HistoryLaws S}.
Context (target_host : string).
Context (resolve_inode : Z -> option ProcessIdentity) (resolve_socket : SocketObservation -> option ProcessIdentity).

(** The calls an observation session makes. *)
Inductive tracker_op :=
| TrackLifecycle (event : ConnectionLifecycleEvent) (direction : ConnectionDirection)
| TrackSocket (socket : SocketObservation) (direction : ConnectionDirection) (allow_new : bool)
    (origin : ConnectionObservationOrigin)
| TrackBeginSnapshot
| TrackEndSnapshot (polling incomplete : bool)
| TrackFinish (polling : bool).

Definition track (op : tracker_op) (t : Tracker S) : Tracker S :=
  match op with
  | TrackLifecycle event direction => (observe_lifecycle target_host event direction t).2
  | TrackSocket socket direction allow_new origin =>
      (observe_socket target_host resolve_inode resolve_socket socket direction allow_new origin t).2
  | TrackBeginSnapshot => begin_snapshot t
  | TrackEndSnapshot polling incomplete => (end_snapshot polling incomplete t).2
  | TrackFinish polling => finish_observation polling t
  end.

Definition op_in_range (op : tracker_op) : Prop :=
  match op with
  | TrackLifecycle event _ => event_ok event
  | TrackSocket socket _ _ _ => socket_ok socket
  | _ => True
  end.

Definition new_tracker (s : S) : Tracker S := MkTracker s ∅ [] ∅.

Lemma new_tracker_inv s : tracker_inv (new_tracker s).
Proof.
  split; simpl.
  - intros k i. rewrite lookup_empty. split; [intros Hin; by apply not_elem_of_nil in Hin|done].
  - intros i. by rewrite !lookup_empty.
  - intros i c E. by rewrite lookup_empty in E.
  - intros i1 i2 c1 c2 E. by rewrite lookup_empty in E.
  - intros n c _ _ E. by rewrite lookup_empty in E.
Qed.

Lemma track_inv op t : op_in_range op -> tracker_inv t -> tracker_inv (track op t).
Proof.
  intros Hop Hinv. destruct op; simpl in *.
  - by apply observe_lifecycle_inv.
  - by apply observe_socket_inv.
  - by apply begin_snapshot_inv.
  - pose proof (end_snapshot_outcome polling incomplete t Hinv) as He.
    destruct (end_snapshot polling incomplete t). by destruct He.
  - by apply finish_observation_inv.
Qed.

Lemma track_all_inv calls s :
  Forall op_in_range calls -> tracker_inv (fold_left (fun t op => track op t) calls (new_tracker s)).
Proof.
  intros Hcalls. assert (G : forall t, tracker_inv t -> tracker_inv (fold_left (fun t op => track op t) calls t)).
  { induction Hcalls as [|op calls Hop _ IH]; intros t Ht; simpl; [done|]. apply IH. by apply track_inv. }
  apply G, new_tracker_inv.
Qed.

(** C3: The tracker's invariant over every session, for every database that keeps the
    interface's promises: the correlation index and its reverse map agree and cover
    exactly the tracked connections; no two tracked connections share a database
    row and each has one; a connection tracked by socket cookie has that cookie in
    its row. *)
Theorem tracker_session_invariant calls s :
  Forall op_in_range calls ->
  let t := fold_left (fun t op => track op t) calls (new_tracker s) in
  (forall key identity, (key, identity) ∈ tk_index t <-> tk_by_identity t !! identity = Some key) /\
  (forall identity, is_Some (tk_connections t !! identity) <-> is_Some (tk_by_identity t !! identity)) /\
  (forall i1 i2 c1 c2, tk_connections t !! i1 = Some c1 -> tk_connections t !! i2 = Some c2 ->
     tc_connection_id c1 = tc_connection_id c2 -> i1 = i2) /\
  (forall identity c, tk_connections t !! identity = Some c ->
     is_Some (row_cookie (tk_store t) (tc_connection_id c))) /\
  (forall n c, in_u 64 n -> valid_cookie n = true -> tk_connections t !! cookie_identity n = Some c ->
     row_cookie (tk_store t) (tc_connection_id c) = Some (wrap_s 64 n)).
Proof. intros Hcalls. cbv zeta. destruct (track_all_inv calls s Hcalls) as [Hi Hd Hr Hj Hc]. by split_and!. Qed.

(** Correlation by tuple is unambiguous: a key is resolved to a connection exactly
    when that is the only tracked connection with the key; if two tracked
    connections share it, or none has it, nothing is correlated. *)
Theorem correlation_unambiguous (t : Tracker S) key identity :
  tracker_inv t ->
  unique_active_correlation_match key t = Some identity <->
  tk_by_identity t !! identity = Some key /\ (forall i, tk_by_identity t !! i = Some key -> i = identity).
Proof.
  intros Hinv. pose proof (unique_match_spec (tk_connections t) (filter (fun e => e.1 = key) (tk_index t)) None) as Hu.
  assert (Hin : forall k i, (k, i) ∈ filter (fun e => e.1 = key) (tk_index t) <->
    k = key /\ tk_by_identity t !! i = Some key).
  { intros k i. rewrite list_elem_of_filter, (ti_index t Hinv). simpl. naive_solver. }
  assert (Htr : forall i, tk_by_identity t !! i = Some key -> is_Some (tk_connections t !! i)).
  { intros i E. apply (ti_dom t Hinv). eauto. }
  unfold unique_active_correlation_match. destruct (unique_match _ _ None) as [id|].
  - destruct Hu as (H1 & H2 & H3); [done|]. destruct H2 as [?|[_ (k & Hk)]]; [done|]. apply Hin in Hk as [-> Hk].
    split.
    + intros [= <-]. split; [done|]. intros i Ei. eapply H3; [by apply Hin|by apply Htr].
    + intros [E Hall]. f_equal. by apply Hall.
  - split; [done|]. intros [E Hall]. destruct Hu as [[_ Hn]|(i1 & i2 & Hne & _ & _ & H1 & (k2 & H2))]; [done|..].
    + destruct (Htr _ E) as [c Ec]. rewrite (Hn key identity) in Ec; [done|by apply Hin].
    + destruct H1 as [?|(k1 & H1)]; [done|]. apply Hin in H1 as [_ H1]. apply Hin in H2 as [_ H2].
      apply Hall in H1, H2. congruence.
Qed.

(** The end of a snapshot pass: the connections reported inactive and forgotten
    are exactly those absent from the snapshot that polling controls, or that were
    absent three times in a row and are owned by snapshots or lack complete lifecycle
    evidence; present ones have their miss count cleared, other absent ones have it
    raised, and the indexes stay consistent. *)
Theorem end_snapshot_exact polling incomplete (t : Tracker S) :
  tracker_inv t ->
  let '(inactive, t') := end_snapshot polling incomplete t in
  tracker_inv t' /\
  (forall id, id ∈ inactive <-> exists i c, tk_connections t !! i = Some c /\ tc_connection_id c = id /\
     tc_present_in_snapshot c = false /\
     (polling = true \/ ((snapshot_owned (tc_origin c) = true \/ incomplete = true) /\
                         3 <= wrap_u 64 (tc_consecutive_snapshot_misses c + 1)))) /\
  (forall i c, tk_connections t !! i = Some c -> tc_present_in_snapshot c = true ->
     tk_connections t' !! i = Some (set_present true 0 c)) /\
  (forall i c, tk_connections t !! i = Some c -> tc_present_in_snapshot c = false ->
     tk_connections t' !! i = if decide (tc_connection_id c ∈ inactive) then None
       else Some (set_present false (wrap_u 64 (tc_consecutive_snapshot_misses c + 1)) c)).
Proof.
  intros Hinv. pose proof (end_snapshot_outcome polling incomplete t Hinv) as He.
  destruct (end_snapshot polling incomplete t) as [inactive t']. destruct He as (Hinv' & -> & Hc).
  assert (Hr : forall c, retires polling incomplete c = true <-> tc_present_in_snapshot c = false /\
    (polling = true \/ ((snapshot_owned (tc_origin c) = true \/ incomplete = true) /\
                        3 <= wrap_u 64 (tc_consecutive_snapshot_misses c + 1)))).
  { intros c. unfold retires. by rewrite andb_true_iff, negb_true_iff, orb_true_iff, andb_true_iff, orb_true_iff, Z.leb_le. }
  assert (Hids : forall id, id ∈ retired_ids polling incomplete (map_to_list (tk_connections t)) <->
    exists i c, tk_connections t !! i = Some c /\ tc_connection_id c = id /\ retires polling incomplete c = true).
  { intros id. unfold retired_ids. rewrite list_elem_of_omap. split.
    - intros ([i c] & Hin%elem_of_map_to_list & E). simpl in E. destruct (retires _ _ c) eqn:Ert; simplify_eq. eauto.
    - intros (i & c & E & <- & Hrt). exists (i, c). split; [by apply elem_of_map_to_list|]. simpl. by rewrite Hrt. }
  split_and!; [done| | |].
  - intros id. rewrite Hids. split; intros (i & c & E & Eid & Hrt); exists i, c; (split; [done|]; split; [done|]); by apply Hr.
  - intros i c E Ep. rewrite Hc, E. simpl. unfold after_pass. by rewrite Ep.
  - intros i c E Ep. rewrite Hc, E. simpl. unfold after_pass. rewrite Ep.
    destruct (retires polling incomplete c) eqn:Ert; case_decide as Hd; try done.
    + destruct Hd. apply Hids. eauto.
    + apply Hids in Hd as (i2 & c2 & E2 & Eid & Hrt). assert (i2 = i) as -> by (by apply (ti_inj t Hinv i2 i c2 c)).
      rewrite E in E2. injection E2 as <-. congruence.
Qed.

(** *** Closing *)

Lemma rekey_effect (t : Tracker S) previous canonical c :
  tk_connections t !! previous = Some c -> previous <> canonical ->
  let '(ok, t') := rekey_identity previous canonical t in
  tk_store t' = tk_store t /\
  if ok then tk_connections t' !! canonical = Some c /\
             delete canonical (tk_connections t') = delete previous (tk_connections t)
  else t' = t.
Proof.
  intros E Hne. unfold rekey_identity. rewrite bool_decide_eq_false_2 by done.
  destruct (tk_connections t !! canonical) as [x|] eqn:Ec; simpl; [done|]. rewrite E.
  assert (D : delete canonical (<[canonical := c]> (delete previous (tk_connections t))) =
              delete previous (tk_connections t)).
  { apply map_eq. intros i. destruct (decide (i = canonical)) as [->|Hi].
    - rewrite lookup_delete_eq, lookup_delete_ne by done. done.
    - by rewrite lookup_delete_ne, lookup_insert_ne by done. }
  destruct (tk_by_identity t !! previous); simpl; by rewrite lookup_insert_eq.
Qed.

Lemma adopt_effect event existing identity t c :
  tk_connections t !! existing = Some c ->
  let '(e', t') := adopt_identity event existing identity t in
  tk_connections t' !! e' = Some c /\ delete e' (tk_connections t') = delete existing (tk_connections t) /\
  forall id, row_state (tk_store t') id = row_state (tk_store t) id /\
    row_direction (tk_store t') id = row_direction (tk_store t) id.
Proof.
  intros E. unfold adopt_identity. case_bool_decide as He; [done|].
  destruct (event_cookie event) as [n|].
  - unfold promote_socket_cookie_identity. rewrite E.
    pose proof (cookie_once (tc_connection_id c) n (tk_store t)) as Hco.
    destruct (update_socket_cookie _ n (tk_store t)) as [changed s]. destruct Hco as [_ Hco].
    assert (Hst : forall id, row_state s id = row_state (tk_store t) id /\
      row_direction s id = row_direction (tk_store t) id) by (intros id; destruct (Hco id) as (? & ? & _); done).
    destruct changed; [|done].
    pose proof (rekey_effect (with_store (fun _ => s) t) existing identity c E He) as Hr.
    destruct (rekey_identity existing identity _) as [[] t']; destruct Hr as [Hs Hr]; simpl in *; rewrite Hs.
    + by destruct Hr.
    + by subst t'.
  - pose proof (rekey_effect t existing identity c E He) as Hr.
    destruct (rekey_identity existing identity t) as [[] t']; destruct Hr as [Hs Hr]; simpl in *; rewrite Hs.
    + by destruct Hr.
    + by subst t'.
Qed.

Lemma unique_match_tracked connections entries id :
  unique_match connections entries None = Some id -> is_Some (connections !! id).
Proof. intros E. pose proof (unique_match_spec connections entries None) as Hu. rewrite E in Hu. by apply Hu. Qed.

Lemma find_existing_tracked event identity process (t : Tracker S) e :
  find_existing event identity process t = Some e -> is_Some (tk_connections t !! e).
Proof.
  unfold find_existing, has. intros E.
  repeat case_match; simplify_eq; by eexists.
Qed.

(** A close event closes exactly one connection: when it is attributed, one
    tracked connection is forgotten and every other one is kept, its database row is
    marked CLOSED and no other row's state changes; when it is not attributed (no
    matching connection), nothing changes. *)
Theorem close_closes_one event direction (t : Tracker S) :
  tracker_inv t -> le_type event = Close ->
  let '(outcome, t') := observe_lifecycle target_host event direction t in
  match outcome with
  | Some a => exists e c, tk_connections t !! e = Some c /\
      a = MkAdmission (tc_connection_id c) false true false DirectionUnknown /\
      tk_connections t' = delete e (tk_connections t) /\
      row_state (tk_store t') (tc_connection_id c) = Some "CLOSED" /\
      forall id, id <> tc_connection_id c -> row_state (tk_store t') id = row_state (tk_store t) id
  | None => t' = t
  end.
Proof.
  intros Hinv Hclose. unfold observe_lifecycle. rewrite Hclose.
  destruct (negb (bool_decide (le_protocol event = Tcp))); [done|].
  destruct (identity_for_event event) as [identity|]; [|done]. rewrite bool_decide_eq_true_2 by done.
  destruct (find_existing event identity (process_from event) t) as [e|] eqn:Ef; [|done].
  destruct (find_existing_tracked _ _ _ _ _ Ef) as [c Ec].
  pose proof (adopt_effect event e identity t c Ec) as Ha.
  destruct (adopt_identity event e identity t) as [e' t']. destruct Ha as (Ec' & Hdel & Hst).
  unfold close_connection. rewrite Ec'. exists e, c. set (t1 := with_store _ t').
  destruct (remove_correlation_connections e' t1) as [Hc1 Hs1]. simpl. rewrite Hc1, Hs1. simpl.
  set (s1 := touch_connection _ _ "CLOSED" (tk_store t')).
  assert (Hrow : is_Some (row_state (tk_store t) (tc_connection_id c))) by (apply row_complete; by eapply ti_row).
  split_and!; [done|done|done| |].
  - destruct (event_frame (tc_connection_id c) event s1 (tc_connection_id c)) as (_ & -> & _).
    subst s1. destruct (touch_row (tc_connection_id c) (le_timestamp_ns event) "CLOSED" (tk_store t') (tc_connection_id c)) as (_ & _ & ->).
    rewrite decide_True by done. destruct (Hst (tc_connection_id c)) as [-> _]. destruct Hrow as [x ->]. done.
  - intros id Hne. destruct (event_frame (tc_connection_id c) event s1 id) as (_ & -> & _).
    subst s1. destruct (touch_row (tc_connection_id c) (le_timestamp_ns event) "CLOSED" (tk_store t') id) as (_ & _ & ->).
    rewrite decide_False by done. by destruct (Hst id) as [-> _].
Qed.

(** *** Admission *)

(** Admission happens once: when a lifecycle event is admitted as new, its
    identity was not tracked and its database row did not exist; afterwards exactly
    this connection is tracked in addition, its row is ACTIVE with the event's
    direction, and observing the same event again names the same row without
    admitting it a second time. *)
Theorem lifecycle_admitted_once event direction (t t' : Tracker S) a :
  observe_lifecycle target_host event direction t = (Some a, t') -> ca_newly_admitted a = true ->
  exists identity c,
    identity_for_event event = Some identity /\ tk_connections t !! identity = None /\
    tk_connections t' = <[identity := c]> (tk_connections t) /\ tc_connection_id c = ca_connection_id a /\
    row_state (tk_store t) (ca_connection_id a) = None /\
    row_state (tk_store t') (ca_connection_id a) = Some "ACTIVE" /\
    row_direction (tk_store t') (ca_connection_id a) = Some direction /\
    exists a' t'', observe_lifecycle target_host event direction t' = (Some a', t'') /\
      ca_connection_id a' = ca_connection_id a /\ ca_newly_admitted a' = false.
Proof.
  unfold observe_lifecycle. destruct (negb (bool_decide (le_protocol event = Tcp))); [done|].
  destruct (identity_for_event event) as [identity|]; [|done].
  destruct (find_existing event identity (process_from event) t) as [e|] eqn:Ef.
  { destruct (adopt_identity event e identity t) as [e' t1].
    unfold close_connection, confirm_connection. intros E Hn. exfalso.
    repeat case_match; simplify_eq; simpl in *; done. }
  apply find_existing_none in Ef. destruct (bool_decide (le_type event = Close)); [done|].
  destruct (negb (eligible_connection_seed _)); [done|].
  destruct (le_local event) as [local|], (le_remote event) as [remote|], (process_from event) as [process|]; try done.
  destruct (ne_port remote) as [port|]; [|done]. unfold admit_event. set (socket := socket_of_event _ _ _ _ _).
  pose proof (begin_fresh socket (Some process) target_host (le_timestamp_ns event) direction (tk_store t)) as Hb.
  destruct (begin_connection _ _ _ _ _ (tk_store t)) as [id s]. destruct Hb as (Hf & _ & Hs & Hd & _).
  unfold emplace_connection, index_correlation. simpl. rewrite Ef. intros [= <- <-] _. simpl.
  set (c := MkTracked _ _ _ _ _ _ _ _ _ _). exists identity, c.
  destruct (event_frame id event s id) as (_ & Hes & Hed). rewrite Hes, Hed.
  split_and!; try done.
  - destruct (row_state (tk_store t) id) eqn:Er; [|done].
    destruct (proj2 (row_complete (tk_store t) id)) as [x Hx]; [eauto|]. congruence.
  - set (t1 := MkTracker _ _ _ _). assert (Hfe : find_existing event identity (Some process) t1 = Some identity).
    { unfold find_existing. simpl. by rewrite lookup_insert_eq. }
    rewrite Hfe. unfold adopt_identity. rewrite bool_decide_eq_true_2 by done.
    unfold confirm_connection. simpl. rewrite lookup_insert_eq.
    destruct (promote_connection_direction _ _ _) as [promoted s2]. by eexists _, _.
Qed.
End Properties.

(** ** No statement fails

    The tracker asks for samples and events only of connections that have a row. *)

Section Sound.
Context {S : Type} {ops : HistoryOps S} {Hlaws : HistoryLaws ops} (sound : S -> Prop) {Hst : StatementLaws ops sound}.
Context (target_host : string).
Context (resolve_inode : Z -> option ProcessIdentity) (resolve_socket : SocketObservation -> option ProcessIdentity).

Lemma rekey_store previous canonical (t : Tracker S) : tk_store (rekey_identity previous canonical t).2 = tk_store t.
Proof. unfold rekey_identity. by repeat case_match. Qed.

Lemma promote_sound previous canonical cookie t :
  sound (tk_store t) -> sound (tk_store (promote_socket_cookie_identity previous canonical cookie t).2).
Proof.
  intros Hs. unfold promote_socket_cookie_identity. destruct (tk_connections t !! previous) as [c|]; [|done].
  pose proof (cookie_sound (tc_connection_id c) cookie (tk_store t) Hs) as Hc. destruct (update_socket_cookie _ _ _) as [[] s]; [|done].
  by rewrite rekey_store.
Qed.

Lemma adopt_sound event existing identity t :
  sound (tk_store t) -> sound (tk_store (adopt_identity event existing identity t).2).
Proof.
  intros Hs. unfold adopt_identity. case_bool_decide; [done|]. destruct (event_cookie event) as [n|].
  - pose proof (promote_sound existing identity n t Hs). by destruct (promote_socket_cookie_identity _ _ _ t).
  - pose proof (rekey_store existing identity t) as Hr. destruct (rekey_identity existing identity t). simpl in *. by rewrite Hr.
Qed.

Lemma close_sound event existing t : tracker_inv t -> sound (tk_store t) -> sound (tk_store (close_connection event existing t).2).
Proof.
  intros Hinv Hs. unfold close_connection. destruct (tk_connections t !! existing) as [c|] eqn:E; [|done]. simpl.
  rewrite (proj2 (remove_correlation_connections _ _)). simpl. apply event_sound; [|by apply touch_sound].
  destruct (touch_row (tc_connection_id c) (le_timestamp_ns event) "CLOSED" (tk_store t) (tc_connection_id c)) as [-> _]. by apply (ti_row t Hinv existing).
Qed.

Lemma confirm_sound event direction process existing t :
  tracker_inv t -> sound (tk_store t) -> sound (tk_store (confirm_connection event direction process existing t).2).
Proof.
  intros Hinv Hs. unfold confirm_connection. destruct (tk_connections t !! existing) as [c|] eqn:E; [|done].
  pose proof (direction_sound (tc_connection_id c) direction (add_lifecycle_event (tc_connection_id c) event (tk_store t))) as Hd.
  destruct (promote_connection_direction _ _ _) as [promoted s]. apply Hd, event_sound; [by apply (ti_row t Hinv existing)|done].
Qed.

Lemma admit_event_sound event direction identity process local remote port t :
  sound (tk_store t) -> sound (tk_store (admit_event target_host event direction identity process local remote port t).2).
Proof.
  intros Hs. unfold admit_event. set (socket := socket_of_event _ _ _ _ _).
  pose proof (begin_sound socket (Some process) target_host (le_timestamp_ns event) direction (tk_store t) Hs) as Hb.
  pose proof (begin_fresh socket (Some process) target_host (le_timestamp_ns event) direction (tk_store t)) as Hf.
  destruct (begin_connection _ _ _ _ _ (tk_store t)) as [id s]. destruct Hf as (_ & Hc & _). simpl in *.
  by apply event_sound; [rewrite Hc|].
Qed.

Lemma observe_lifecycle_sound event direction t :
  event_ok event -> tracker_inv t -> sound (tk_store t) -> sound (tk_store (observe_lifecycle target_host event direction t).2).
Proof.
  intros Hok Hinv Hs. unfold observe_lifecycle. destruct (negb _); [done|].
  destruct (identity_for_event event) as [identity|] eqn:Hid; [|done].
  destruct (find_existing event identity (process_from event) t) as [e|].
  - pose proof (inv_adopt event e identity t Hok Hid Hinv) as Ha. pose proof (adopt_sound event e identity t Hs) as Hs'.
    destruct (adopt_identity event e identity t) as [e' t']. simpl in Ha, Hs'.
    case_bool_decide; [by apply close_sound|]. destruct (negb _); [done|].
    destruct (le_local event), (le_remote event) as [remote|], (process_from event); try done.
    destruct (ne_port remote); [by apply confirm_sound|done].
  - case_bool_decide; [done|]. destruct (negb _); [done|].
    destruct (le_local event), (le_remote event) as [remote|], (process_from event); try done.
    destruct (ne_port remote); [by apply admit_event_sound|done].
Qed.

Lemma sample_connection_sound socket direction identity t :
  tracker_inv t -> sound (tk_store t) -> sound (tk_store (sample_connection socket direction identity t).2).
Proof.
  intros Hinv Hs. unfold sample_connection. destruct (tk_connections t !! identity) as [c|] eqn:E; [|done].
  unfold persist_sample. simpl. apply touch_sound. destruct (_ || _); [|done]. apply sample_sound; [by apply (ti_row t Hinv identity)|done].
Qed.

Lemma admit_socket_sound socket direction origin key identity process t :
  sound (tk_store t) -> sound (tk_store (admit_socket target_host socket direction origin key identity process t).2).
Proof.
  intros Hs. unfold admit_socket. set (now := ts_observed_ns _).
  pose proof (begin_sound socket (Some process) target_host now direction (tk_store t) Hs) as Hb.
  pose proof (begin_fresh socket (Some process) target_host now direction (tk_store t)) as Hf.
  destruct (begin_connection _ _ _ _ _ (tk_store t)) as [id s]. destruct Hf as (_ & Hc & _). simpl in *.
  assert (Hx : sound (add_tcp_sample id (so_transport socket) s)) by (by apply sample_sound; [rewrite Hc|]).
  destruct (origin_state origin); [by apply touch_sound|done].
Qed.

Lemma observe_socket_sound socket direction allow origin t :
  socket_ok socket -> tracker_inv t -> sound (tk_store t) ->
  sound (tk_store (observe_socket target_host resolve_inode resolve_socket socket direction allow origin t).2).
Proof.
  intros Hok Hinv Hs. unfold observe_socket. set (key := if has _ then _ else _).
  destruct (unique_active_correlation_match key t) as [m|];
    destruct (tk_connections t !! identity_for_socket socket) as [c|]; cbn [has andb].
  - destruct (negb _); [done|]. by apply sample_connection_sound.
  - destruct (valid_cookie (so_socket_cookie socket) && negb (bool_decide (m = identity_for_socket socket))) eqn:Ev.
    + to_prop. assert (E : identity_for_socket socket = cookie_identity (so_socket_cookie socket)) by (unfold identity_for_socket; by rewrite H).
      rewrite E. pose proof (inv_promote t m (so_socket_cookie socket) Hinv Hok H) as Hp.
      pose proof (promote_sound m (cookie_identity (so_socket_cookie socket)) (so_socket_cookie socket) t Hs) as Hs'.
      destruct (promote_socket_cookie_identity _ _ _ t) as [[] t']; [by apply sample_connection_sound|done].
    + by apply sample_connection_sound.
  - by apply sample_connection_sound.
  - repeat case_match; try done; by apply admit_socket_sound.
Qed.

Lemma end_snapshot_sound polling incomplete t : sound (tk_store t) -> sound (tk_store (end_snapshot polling incomplete t).2).
Proof.
  unfold end_snapshot. generalize (map_to_list (tk_connections t)) as todo, (@nil Z) as inactive. intros todo. revert t.
  induction todo as [|[identity c] todo IH]; intros t inactive Hs; simpl; [done|]. unfold end_snapshot_one.
  destruct (tc_present_in_snapshot c); [by apply IH|]. destruct (retires _ _ _); apply IH; [|done].
  rewrite (proj2 (remove_correlation_connections _ _)). by apply touch_sound.
Qed.

Lemma finish_sound polling t : sound (tk_store t) -> sound (tk_store (finish_observation polling t)).
Proof.
  unfold finish_observation. simpl. generalize ((map_to_list (tk_connections t)).*2) as l. generalize (tk_store t) as s.
  intros s l. revert s. induction l as [|c l IH]; intros s Hs; simpl; [done|]. apply IH. by apply touch_sound.
Qed.

Lemma track_sound op t :
  op_in_range op -> tracker_inv t -> sound (tk_store t) -> sound (tk_store (track target_host resolve_inode resolve_socket op t)).
Proof.
  intros Hop Hinv Hs. destruct op; simpl in *;
    [by apply observe_lifecycle_sound|by apply observe_socket_sound|done|by apply end_snapshot_sound|by apply finish_sound].
Qed.

Lemma track_all_sound calls s :
  Forall op_in_range calls -> sound s ->
  sound (tk_store (fold_left (fun t op => track target_host resolve_inode resolve_socket op t) calls (new_tracker s))).
Proof.
  intros Hcalls Hs. assert (G : forall t, tracker_inv t -> sound (tk_store t) ->
    sound (tk_store (fold_left (fun t op => track target_host resolve_inode resolve_socket op t) calls t))).
  { induction Hcalls as [|op calls Hop _ IH]; intros t Ht Hst'; simpl; [done|]. apply IH; [by apply track_inv|by apply track_sound]. }
  apply G; [apply new_tracker_inv|done].
Qed.
End Sound.

(** C36: The history database does what connection tracking relies on.  It keeps the promises of the
    interface: a new connection gets a row id no row has, starts as ACTIVE with the observed cookie
    and direction and changes no other row; [touch_connection] writes the state of its row only; a
    cookie is written only over zero and a direction only over UNKNOWN, and the result says whether
    it was; samples and events change no cookie, state or direction.  And tracking never breaks a
    foreign key: over every session of the tracker in range, on a database whose pending TLS observation, if any, is
    stored, no statement throws for a missing row, as long as nothing else deletes rows meanwhile
    (storage maintenance does when the database is over its budget). *)
Theorem history_supports_tracking `{Sha256} target_host resolve_inode resolve_socket calls d :
  HistoryLaws tracking_ops /\
  (Forall op_in_range calls -> db_sound d ->
   td_thrown (tk_store (fold_left (fun t op => track target_host resolve_inode resolve_socket op t) calls (new_tracker d))) = false).
Proof.
  split; [apply tracking_laws|]. intros Hc Hd.
  by destruct (track_all_sound (Hlaws := tracking_laws) db_sound (Hst := tracking_statements) target_host resolve_inode resolve_socket calls d Hc Hd).
Qed.

(** ** Witnesses *)

Lemma singleton_lookup (m : gmap string string) i0 k0 :
  map_to_list m = [(i0, k0)] -> forall i k, m !! i = Some k <-> i = i0 /\ k = k0.
Proof. intros Hs i k. rewrite <- elem_of_map_to_list, Hs, list_elem_of_singleton. naive_solver. Qed.

(** One connection seen by its lifecycle events, on the database of [History]. *)
Section Sample.
#[local] Existing Instance sum_digest.

Definition sample_connect : ConnectionLifecycleEvent :=
  MkLifecycleEvent Connect 1000 EbpfCore
    (MkLifecycleProcessContext (MkLifecycleProcessIds (Some 7) (Some 7)) (MkLifecycleProcessIds (Some 7) (Some 7))
       None (Some 0) (Some 42) (Some "curl"))
    (Some 5) IPv4 Tcp Connection (Some (MkNetworkEndpoint "10.0.0.1" (Some 40000)))
    (Some (MkNetworkEndpoint "10.0.0.2" (Some 443))) (Some 99) None None.

Definition sample_close : ConnectionLifecycleEvent :=
  MkLifecycleEvent Close 2000 EbpfCore
    (MkLifecycleProcessContext (MkLifecycleProcessIds (Some 7) (Some 7)) (MkLifecycleProcessIds (Some 7) (Some 7))
       None (Some 0) (Some 42) (Some "curl"))
    (Some 5) IPv4 Tcp Connection (Some (MkNetworkEndpoint "10.0.0.1" (Some 40000)))
    (Some (MkNetworkEndpoint "10.0.0.2" (Some 443))) None None None.

Definition sample_store : TrackingDb := MkTrackingDb (MkHistoryStore [] ∅ [] [] ∅ None 0) ∅ false.

Definition sample_calls : list tracker_op := [TrackLifecycle sample_connect Outbound; TrackBeginSnapshot].

Definition sample_tracker : Tracker TrackingDb :=
  fold_left (fun t op => track "host" (fun _ => None) (fun _ => None) op t) sample_calls (new_tracker sample_store).

Lemma sample_calls_ok : Forall op_in_range sample_calls.
Proof. repeat constructor; unfold event_ok, in_u; simpl; naive_solver lia. Qed.

Lemma sample_tracker_inv : tracker_inv sample_tracker.
Proof. apply (track_all_inv (Hlaws := tracking_laws)), sample_calls_ok. Qed.

Lemma tracker_session_invariant_witness :
  Forall op_in_range sample_calls /\
  exists c, tk_connections sample_tracker !! cookie_identity 99 = Some c /\
    row_cookie (tk_store sample_tracker) (tc_connection_id c) = Some 99.
Proof.
  split; [exact sample_calls_ok|].
  pose proof (tracker_session_invariant (Hlaws := tracking_laws) "host" (fun _ => None) (fun _ => None) sample_calls
    sample_store sample_calls_ok) as (_ & _ & _ & _ & Hc).
  assert (Hs : has (tk_connections sample_tracker !! cookie_identity 99) = true) by (vm_compute; reflexivity).
  destruct (tk_connections sample_tracker !! cookie_identity 99) as [c|] eqn:E; [|discriminate Hs].
  exists c. split; [reflexivity|]. refine (Hc 99 c _ _ E); [unfold in_u; lia|reflexivity].
Defined.

Lemma correlation_unambiguous_witness :
  tracker_inv sample_tracker /\
  exists key, tk_by_identity sample_tracker !! "c:99" = Some key /\
    unique_active_correlation_match key sample_tracker = Some "c:99".
Proof.
  split; [exact sample_tracker_inv|].
  assert (Hs : map_to_list (tk_by_identity sample_tracker) =
    [("c:99", "n:5|10.0.0.1:40000->10.0.0.2:443")]) by (vm_compute; reflexivity).
  exists "n:5|10.0.0.1:40000->10.0.0.2:443".
  pose proof (singleton_lookup _ _ _ Hs) as Hk. clear Hs.
  split; [apply Hk; split; reflexivity|].
  apply (correlation_unambiguous sample_tracker _ "c:99" sample_tracker_inv).
  split; [apply Hk; split; reflexivity|]. intros i Hi. apply Hk in Hi as [Hi _]. exact Hi.
Defined.

Lemma end_snapshot_exact_witness :
  tracker_inv sample_tracker /\ 1 ∈ (end_snapshot true false sample_tracker).1.
Proof.
  split; [exact sample_tracker_inv|].
  pose proof (end_snapshot_exact (Hlaws := tracking_laws) true false sample_tracker sample_tracker_inv) as He.
  assert (Hs : match tk_connections sample_tracker !! "c:99" with
    | Some c => (tc_connection_id c =? 1) && negb (tc_present_in_snapshot c) | None => false end = true)
    by (vm_compute; reflexivity).
  destruct (tk_connections sample_tracker !! "c:99") as [c|] eqn:E; [|discriminate Hs].
  apply andb_prop in Hs as [H1%Z.eqb_eq H2%negb_true_iff].
  destruct (end_snapshot true false sample_tracker) as [inactive t']. destruct He as (_ & Hid & _).
  apply Hid. exists "c:99", c. auto.
Defined.

Lemma close_closes_one_witness :
  (tracker_inv sample_tracker /\ le_type sample_close = Close) /\
  row_state (tk_store (observe_lifecycle "host" sample_close Outbound sample_tracker).2) 1 = Some "CLOSED".
Proof.
  split; [split; [exact sample_tracker_inv|reflexivity]|].
  pose proof (close_closes_one (Hlaws := tracking_laws) "host" sample_close Outbound sample_tracker
    sample_tracker_inv eq_refl) as Hc.
  assert (Hs : match (observe_lifecycle "host" sample_close Outbound sample_tracker).1 with
    | Some a => ca_connection_id a =? 1 | None => false end = true) by (vm_compute; reflexivity).
  destruct (observe_lifecycle "host" sample_close Outbound sample_tracker) as [[a|] t']; [|discriminate Hs].
  destruct Hc as (e & c & _ & -> & _ & Hrow & _). simpl in Hs. apply Z.eqb_eq in Hs. rewrite Hs in Hrow. exact Hrow.
Defined.

Lemma lifecycle_admitted_once_witness :
  exists a t', observe_lifecycle "host" sample_connect Outbound (new_tracker sample_store) = (Some a, t') /\
    ca_newly_admitted a = true /\ row_state (tk_store t') (ca_connection_id a) = Some "ACTIVE".
Proof.
  pose proof (lifecycle_admitted_once (Hlaws := tracking_laws) "host" sample_connect Outbound
    (new_tracker sample_store)) as Ha.
  assert (Hs : match (observe_lifecycle "host" sample_connect Outbound (new_tracker sample_store)).1 with
    | Some a => ca_newly_admitted a | None => false end = true) by (vm_compute; reflexivity).
  destruct (observe_lifecycle "host" sample_connect Outbound (new_tracker sample_store)) as [[a|] t'];
    [|discriminate Hs].
  exists a, t'. destruct (Ha t' a eq_refl Hs) as (i & c & _ & _ & _ & _ & _ & Hrow & _). auto.
Defined.
Lemma history_supports_tracking_witness :
  Forall op_in_range sample_calls /\ db_sound sample_store /\ td_thrown (tk_store sample_tracker) = false.
Proof.
  assert (Hd : db_sound sample_store) by (split; [reflexivity|intros id host port E; discriminate E]).
  split; [exact sample_calls_ok|]. split; [exact Hd|].
  exact (proj2 (history_supports_tracking "host" (fun _ => None) (fun _ => None) sample_calls sample_store) sample_calls_ok Hd).
Defined.
End Sample.
