(* ===== verification/NameResolution.v ===== *)
(** Correlating name lookups with connections ([src/core/name_resolution.cpp],
    [include/neta/name_resolution.hpp]).

    A connection is attributed to a lookup only when exactly one lookup explains it.
    The theorems: the outcome is decided by the lookups that explain the connection
    ([explains], stated without the code's tests) and by nothing else, in particular
    not by their order; the reported fidelity never exceeds what was observed; the
    evidence hash does not depend on the order of the answers, but its text does not
    determine the evidence. *)

From S2P Require Import Prelude Text Crypto Model.

#[local] Arguments String.append !_ _ /.

Inductive NameResolutionQueryKind := QueryUnknown | Forward | Reverse.
Inductive NameResolutionMechanism :=
| MechanismUnknown | ApplicationResolverApi | SystemResolverEvent | ApplicationProvided.
Inductive NameResolutionRelation :=
| RelationUnknown | ResolvedAddressForOutboundConnection | ReverseLookupForInboundPeer.
Inductive NameResolutionCorrelationStatus := NoMatch | Matched | Ambiguous.

#[global] Instance NameResolutionQueryKind_eq_dec : EqDecision NameResolutionQueryKind.
Proof. solve_decision. Defined.

Record NameResolutionAddress := MkNameResolutionAddress {
  na_family : NetworkAddressFamily;
  na_address : string }.

Record NameResolutionObservation := MkNameResolutionObservation {
  no_started_ns : Z;
  no_completed_ns : Z;
  no_query_kind : NameResolutionQueryKind;
  no_mechanism : NameResolutionMechanism;
  no_process : LifecycleProcessContext;
  no_network_namespace_inode : option Z;
  no_query_name : string;
  no_canonical_name : option string;
  no_addresses : list NameResolutionAddress;
  no_result_code : option Z;
  no_fidelity : EvidenceFidelity;
  no_source : string }.

Record NameResolutionEvidence := MkNameResolutionEvidence {
  nv_observation : NameResolutionObservation;
  nv_relation : NameResolutionRelation;
  nv_correlation_fidelity : EvidenceFidelity }.

Record NameResolutionCorrelationResult := MkNameResolutionCorrelationResult {
  nr_status : NameResolutionCorrelationStatus;
  nr_evidence : option NameResolutionEvidence;
  nr_candidate_count : Z }.

(** ** Candidates *)

Definition agent_process_id (process : LifecycleProcessContext) : option Z :=
  match lpi_tgid (lpc_agent_visible process) with
  | Some tgid => Some tgid
  | None => lpi_pid (lpc_agent_visible process)
  end.

Definition contains_remote_address (observation : NameResolutionObservation) (remote_ip : string) : bool :=
  existsb (fun a => bool_decide (na_address a = remote_ip)) (no_addresses observation).

(** [a && b && *a != *b] *)
Definition conflict (a b : option Z) : bool :=
  match a, b with Some a, Some b => negb (a =? b) | _, _ => false end.

Definition is_candidate (max_age_ns : Z) (connection : ConnectionSummary)
    (observation : NameResolutionObservation) : bool :=
  if negb (bool_decide (cs_direction connection = Outbound)) then false
  else if negb (bool_decide (no_query_kind observation = Forward)) then false
  else if match no_result_code observation with Some code => negb (code =? 0) | None => false end then false
  else if (cs_first_seen_ns connection =? 0) || (no_completed_ns observation =? 0) then false
  else if negb (no_started_ns observation =? 0) && (no_completed_ns observation <? no_started_ns observation)
  then false
  else if cs_first_seen_ns connection <? no_completed_ns observation then false
  else if max_age_ns <? wrap_u 64 (cs_first_seen_ns connection - no_completed_ns observation) then false
  else if bool_decide (no_query_name observation = "") ||
          negb (contains_remote_address observation (cs_remote_ip connection)) then false
  else
    match agent_process_id (no_process observation) with
    | None => false
    | Some pid =>
        if (pi_pid (cs_process connection) <? 0) || negb (pid =? pi_pid (cs_process connection)) then false
        else if conflict (lpc_start_ticks (no_process observation)) (pi_start_ticks (cs_process connection)) then false
        else if conflict (no_network_namespace_inode observation) (cs_network_namespace_inode connection) then false
        else true
    end.

(** [a && b && *a == *b] *)
Definition agree (a b : option Z) : bool :=
  match a, b with Some a, Some b => a =? b | _, _ => false end.

Definition correlation_fidelity (connection : ConnectionSummary) (observation : NameResolutionObservation) :
    EvidenceFidelity :=
  match no_fidelity observation with
  | Contextual => Contextual
  | Supporting => Supporting
  | _ =>
      let durable_process := agree (lpc_start_ticks (no_process observation)) (pi_start_ticks (cs_process connection)) in
      let namespaces := (no_network_namespace_inode observation, cs_network_namespace_inode connection) in
      let same_network_namespace :=
        (negb (has namespaces.1) && negb (has namespaces.2)) || agree namespaces.1 namespaces.2 in
      if durable_process && same_network_namespace then StronglyCorrelated else Supporting
  end.

Definition correlate_name_resolution (max_age_ns : Z) (connection : ConnectionSummary)
    (observations : list NameResolutionObservation) : NameResolutionCorrelationResult :=
  let '(candidate_count, found) := count_first (is_candidate max_age_ns connection) observations in
  if candidate_count =? 0 then MkNameResolutionCorrelationResult NoMatch None candidate_count
  else if negb (candidate_count =? 1) then MkNameResolutionCorrelationResult Ambiguous None candidate_count
  else MkNameResolutionCorrelationResult Matched
         ((fun o => MkNameResolutionEvidence o ResolvedAddressForOutboundConnection
                      (correlation_fidelity connection o)) <$> found) candidate_count.

(** ** Text forms *)

Definition query_kind_to_string (value : NameResolutionQueryKind) : string :=
  match value with Forward => "FORWARD" | Reverse => "REVERSE" | QueryUnknown => "UNKNOWN" end.

Definition mechanism_to_string (value : NameResolutionMechanism) : string :=
  match value with
  | ApplicationResolverApi => "APPLICATION_RESOLVER_API"
  | SystemResolverEvent => "SYSTEM_RESOLVER_EVENT"
  | ApplicationProvided => "APPLICATION_PROVIDED"
  | MechanismUnknown => "UNKNOWN"
  end.

Definition relation_to_string (value : NameResolutionRelation) : string :=
  match value with
  | ResolvedAddressForOutboundConnection => "RESOLVED_ADDRESS_FOR_OUTBOUND_CONNECTION"
  | ReverseLookupForInboundPeer => "REVERSE_LOOKUP_FOR_INBOUND_PEER"
  | RelationUnknown => "UNKNOWN"
  end.

Definition correlation_status_to_string (value : NameResolutionCorrelationStatus) : string :=
  match value with NoMatch => "NO_MATCH" | Matched => "MATCHED" | Ambiguous => "AMBIGUOUS" end.

Definition name_resolution_query_kind_from_string (value : string) : NameResolutionQueryKind :=
  if bool_decide (value = "FORWARD") then Forward
  else if bool_decide (value = "REVERSE") then Reverse
  else QueryUnknown.

Definition name_resolution_mechanism_from_string (value : string) : NameResolutionMechanism :=
  if bool_decide (value = "APPLICATION_RESOLVER_API") then ApplicationResolverApi
  else if bool_decide (value = "SYSTEM_RESOLVER_EVENT") then SystemResolverEvent
  else if bool_decide (value = "APPLICATION_PROVIDED") then ApplicationProvided
  else MechanismUnknown.

Definition name_resolution_relation_from_string (value : string) : NameResolutionRelation :=
  if bool_decide (value = "RESOLVED_ADDRESS_FOR_OUTBOUND_CONNECTION") then ResolvedAddressForOutboundConnection
  else if bool_decide (value = "REVERSE_LOOKUP_FOR_INBOUND_PEER") then ReverseLookupForInboundPeer
  else RelationUnknown.

(** ** Hashes *)

(** [optional_i64], [optional_u64] and [optional_u32]. *)
Definition optional_integer (value : option Z) : string :=
  match value with Some value => to_string value | None => "" end.

(** [static_cast<int>(family)] *)
Definition family_index (family : NetworkAddressFamily) : Z :=
  match family with FamilyUnknown => 0 | IPv4 => 1 | IPv6 => 2 | FamilyRaw n => n end.

Definition address_text (a : NameResolutionAddress) : string :=
  to_string (family_index (na_family a)) +:+ ":" +:+ na_address a.

Definition append_addresses (material : string) (addresses : list string) : string :=
  fold_left (fun material address => material +:+ "|" +:+ address) addresses material.

Definition evidence_material (evidence : NameResolutionEvidence) : string :=
  let o := nv_observation evidence in
  let p := no_process o in
  append_addresses
    (to_string (no_started_ns o) +:+ "|" +:+ to_string (no_completed_ns o) +:+ "|" +:+
     query_kind_to_string (no_query_kind o) +:+ "|" +:+ mechanism_to_string (no_mechanism o) +:+ "|" +:+
     no_query_name o +:+ "|" +:+ value_or (no_canonical_name o) "" +:+ "|" +:+ no_source o +:+ "|" +:+
     optional_integer (no_result_code o) +:+ "|" +:+ fidelity_to_string (no_fidelity o) +:+ "|" +:+
     fidelity_to_string (nv_correlation_fidelity evidence) +:+ "|" +:+
     relation_to_string (nv_relation evidence) +:+ "|" +:+
     optional_integer (lpi_pid (lpc_agent_visible p)) +:+ "|" +:+
     optional_integer (lpi_tgid (lpc_agent_visible p)) +:+ "|" +:+
     optional_integer (lpi_pid (lpc_kernel p)) +:+ "|" +:+ optional_integer (lpi_tgid (lpc_kernel p)) +:+ "|" +:+
     optional_integer (lpc_uid p) +:+ "|" +:+ optional_integer (lpc_start_ticks p) +:+ "|" +:+
     value_or (lpc_comm p) "" +:+ "|" +:+ optional_integer (no_network_namespace_inode o))
    (sort_strings (address_text <$> no_addresses o)).

Definition name_resolution_evidence_hash `{Sha256} (evidence : NameResolutionEvidence) : string :=
  sha256_hex (evidence_material evidence).

Definition name_resolution_evidence_set_hash `{Sha256} (evidence : list NameResolutionEvidence) : string :=
  match evidence with
  | [] => ""
  | _ => sha256_hex (join_hashes (sort_strings (name_resolution_evidence_hash <$> evidence)))
  end.

(** ** Correctness *)

(** The lookup explains the connection: it asked for a name, succeeded, completed
    before the connection was seen and at most [max_age_ns] earlier, returned the
    peer's address, and was made by the same process in the same network namespace
    as far as both are known. *)
Record explains (max_age_ns : Z) (c : ConnectionSummary) (o : NameResolutionObservation) : Prop := {
  ex_outbound : cs_direction c = Outbound;
  ex_forward : no_query_kind o = Forward;
  ex_success : no_result_code o = None \/ no_result_code o = Some 0;
  ex_observed : cs_first_seen_ns c <> 0 /\ no_completed_ns o <> 0;
  ex_ordered : no_started_ns o = 0 \/ no_started_ns o <= no_completed_ns o;
  ex_recent : no_completed_ns o <= cs_first_seen_ns c <= no_completed_ns o + max_age_ns;
  ex_named : no_query_name o <> "";
  ex_address : exists a, a ∈ no_addresses o /\ na_address a = cs_remote_ip c;
  ex_process : agent_process_id (no_process o) = Some (pi_pid (cs_process c)) /\ 0 <= pi_pid (cs_process c);
  ex_instance : forall a b, lpc_start_ticks (no_process o) = Some a -> pi_start_ticks (cs_process c) = Some b -> a = b;
  ex_namespace : forall a b, no_network_namespace_inode o = Some a -> cs_network_namespace_inode c = Some b -> a = b }.

Lemma contains_remote_address_spec o ip :
  contains_remote_address o ip = true <-> exists a, a ∈ no_addresses o /\ na_address a = ip.
Proof.
  unfold contains_remote_address. rewrite existsb_exists. split.
  - intros (a & Hin & E). apply bool_decide_eq_true in E. exists a. split; [by apply list_elem_of_In|done].
  - intros (a & Hin & E). exists a. split; [by apply list_elem_of_In|by apply bool_decide_eq_true].
Qed.

Lemma conflict_spec a b : conflict a b = false <-> forall x y, a = Some x -> b = Some y -> x = y.
Proof.
  destruct a as [x|], b as [y|]; simpl; try naive_solver. rewrite negb_false_iff, Z.eqb_eq. naive_solver.
Qed.

Lemma agree_spec a b : agree a b = true <-> exists x, a = Some x /\ b = Some x.
Proof. destruct a as [x|], b as [y|]; simpl; rewrite ?Z.eqb_eq; naive_solver. Qed.

Lemma same_option_spec (a b : option Z) : (negb (has a) && negb (has b)) || agree a b = true <-> a = b.
Proof. destruct a as [x|], b as [y|]; simpl; rewrite ?Z.eqb_eq; naive_solver. Qed.

Lemma is_candidate_spec max_age_ns c o :
  in_u 64 (cs_first_seen_ns c) -> in_u 64 (no_completed_ns o) ->
  is_candidate max_age_ns c o = true <-> explains max_age_ns c o.
Proof.
  intros Hf Hc. unfold is_candidate. rewrite !guard_true, !orb_false_iff, !negb_false_iff, !bool_decide_eq_true,
    bool_decide_eq_false, contains_remote_address_spec, !Z.eqb_neq, andb_false_iff, !Z.ltb_ge, negb_false_iff, Z.eqb_eq.
  assert (Hw : no_completed_ns o <= cs_first_seen_ns c ->
    wrap_u 64 (cs_first_seen_ns c - no_completed_ns o) = cs_first_seen_ns c - no_completed_ns o)
    by (intros; apply wrap_u_id; unfold in_u in *; lia).
  assert (Hcode : (match no_result_code o with Some code => negb (code =? 0) | None => false end) = false <->
    no_result_code o = None \/ no_result_code o = Some 0).
  { destruct (no_result_code o) as [code|]; [|naive_solver]. rewrite negb_false_iff, Z.eqb_eq. naive_solver. }
  assert (Hproc : (match agent_process_id (no_process o) with
      | None => false
      | Some pid =>
          if (pi_pid (cs_process c) <? 0) || negb (pid =? pi_pid (cs_process c)) then false
          else if conflict (lpc_start_ticks (no_process o)) (pi_start_ticks (cs_process c)) then false
          else if conflict (no_network_namespace_inode o) (cs_network_namespace_inode c) then false else true
      end) = true <->
    (agent_process_id (no_process o) = Some (pi_pid (cs_process c)) /\ 0 <= pi_pid (cs_process c)) /\
    conflict (lpc_start_ticks (no_process o)) (pi_start_ticks (cs_process c)) = false /\
    conflict (no_network_namespace_inode o) (cs_network_namespace_inode c) = false).
  { destruct (agent_process_id (no_process o)) as [pid|]; [|naive_solver].
    rewrite !guard_true, orb_false_iff, negb_false_iff, Z.eqb_eq, Z.ltb_ge. naive_solver. }
  rewrite Hproc, Hcode, !conflict_spec. split.
  - intros (? & ? & ? & [? ?] & ? & Hle & Hage & [? ?] & [? ?] & ? & ?). rewrite Hw in Hage by done.
    split; try done; lia.
  - intros [? ? ? [? ?] ? [Hle Hage] ? ? ? ? ?]. rewrite Hw by done. split_and!; try done; try lia; try tauto.
Qed.

(** The outcome as a function of the candidates. *)
Definition name_outcome (c : ConnectionSummary) (candidates : list NameResolutionObservation) :
    NameResolutionCorrelationResult :=
  match candidates with
  | [] => MkNameResolutionCorrelationResult NoMatch None 0
  | [o] => MkNameResolutionCorrelationResult Matched
             (Some (MkNameResolutionEvidence o ResolvedAddressForOutboundConnection (correlation_fidelity c o))) 1
  | _ => MkNameResolutionCorrelationResult Ambiguous None (Z.of_nat (length candidates))
  end.

Lemma correlate_outcome max_age_ns c observations :
  correlate_name_resolution max_age_ns c observations =
  name_outcome c (passing (is_candidate max_age_ns c) observations).
Proof.
  unfold correlate_name_resolution. rewrite count_first_passing.
  destruct (passing _ observations) as [|o [|o' r]]; [done..|].
  cbn [length head name_outcome]. by rewrite (proj1 (two_or_more _)), (proj2 (two_or_more _)).
Qed.

(** The outcome does not depend on the order in which lookups were observed. *)
#[global] Instance name_outcome_perm c : Proper (Permutation ==> eq) (name_outcome c).
Proof.
  intros l l' Hp. destruct l as [|o [|o2 r]].
  - by apply Permutation_nil_l in Hp as <-.
  - by apply Permutation_singleton_l in Hp as <-.
  - pose proof (Permutation_length Hp) as Hl. destruct l' as [|o' [|o2' r']]; try done. simpl in *. by rewrite Hl.
Qed.

(** C35: A connection is attributed to a name lookup exactly when one, and only one, of
    the observed lookups explains it (outbound connection; successful forward lookup
    by the same process that returned the peer's address and completed at most the
    maximal age before the connection was seen); the reported evidence is that lookup.
    If several explain it the result is ambiguous and nothing is attributed.  The
    whole result is independent of the order of the observations. *)
Theorem name_correlation_exact max_age_ns c observations :
  in_u 64 (cs_first_seen_ns c) -> Forall (fun o => in_u 64 (no_completed_ns o)) observations ->
  let r := correlate_name_resolution max_age_ns c observations in
  match nr_status r with
  | NoMatch => nr_evidence r = None /\ forall o, o ∈ observations -> ~ explains max_age_ns c o
  | Matched => exists l1 o l2, observations = l1 ++ o :: l2 /\ explains max_age_ns c o /\
      (forall o', o' ∈ l1 ++ l2 -> ~ explains max_age_ns c o') /\
      nr_evidence r = Some (MkNameResolutionEvidence o ResolvedAddressForOutboundConnection (correlation_fidelity c o))
  | Ambiguous => nr_evidence r = None /\ exists l1 o1 l2 o2 l3,
      observations = l1 ++ o1 :: l2 ++ o2 :: l3 /\ explains max_age_ns c o1 /\ explains max_age_ns c o2
  end /\
  forall observations', observations ≡ₚ observations' ->
    correlate_name_resolution max_age_ns c observations' = r.
Proof.
  intros Hc Ho. cbv zeta. split.
  2: { intros observations' Hp. rewrite !correlate_outcome. by rewrite Hp. }
  assert (Hspec : forall o, o ∈ observations -> is_candidate max_age_ns c o = true <-> explains max_age_ns c o).
  { intros o Hin. rewrite Forall_forall in Ho. apply is_candidate_spec; auto. }
  assert (Hnot : forall o, o ∈ observations -> is_candidate max_age_ns c o = false -> ~ explains max_age_ns c o).
  { intros o Hin E Hex. apply Hspec in Hex; [congruence|done]. }
  rewrite correlate_outcome. destruct (passing _ observations) as [|o [|o2 r]] eqn:E; simpl.
  - split; [done|]. intros o Hin. apply Hnot; [done|]. by apply (passing_nil _ _ E).
  - apply passing_cons in E as (l1 & l2 & -> & Hp & H1 & H2). exists l1, o, l2. split_and!; [done| | |done].
    + apply Hspec; [set_solver|done].
    + intros o' Hin. apply elem_of_app in Hin as [Hin|Hin]; (apply Hnot; [set_solver|]); [by apply H1|].
      by apply (passing_nil _ _ H2).
  - split; [done|]. apply passing_cons in E as (l1 & l2 & -> & Hp & _ & E).
    apply passing_cons in E as (l3 & l4 & -> & Hp2 & _ & _). exists l1, o, l3, o2, l4.
    split_and!; [done|apply Hspec; [set_solver|done]..].
Qed.

(** The fidelity of attributed name evidence is never stronger than observed: it
    is never EXACT; it is STRONGLY_CORRELATED only if the lookup itself was at least
    that and both sides know the same process start time and agree on the network
    namespace. *)
Theorem name_fidelity_sound c o :
  correlation_fidelity c o <> Exact /\
  (correlation_fidelity c o = StronglyCorrelated ->
     (no_fidelity o = Exact \/ no_fidelity o = StronglyCorrelated) /\
     (exists ticks, lpc_start_ticks (no_process o) = Some ticks /\ pi_start_ticks (cs_process c) = Some ticks) /\
     no_network_namespace_inode o = cs_network_namespace_inode c) /\
  (no_fidelity o = Contextual <-> correlation_fidelity c o = Contextual).
Proof.
  unfold correlation_fidelity. cbv zeta. simpl. destruct (no_fidelity o) eqn:Ef; [| |naive_solver..].
  all: destruct (agree (lpc_start_ticks _) _ && _) eqn:E; [|naive_solver].
  all: apply andb_prop in E as [Ea En]; apply agree_spec in Ea; apply same_option_spec in En; naive_solver.
Qed.

(** The hash of a set of name evidence depends only on the evidence, not on the
    order in which it was collected, nor on the order of the addresses in each
    answer. *)
Theorem name_evidence_hash_order `{Sha256} evidence evidence' :
  evidence ≡ₚ evidence' ->
  name_resolution_evidence_set_hash evidence = name_resolution_evidence_set_hash evidence' /\
  forall started completed kind mechanism process netns query canonical addresses addresses' code fidelity source
         relation correlation,
    addresses ≡ₚ addresses' ->
    name_resolution_evidence_hash (MkNameResolutionEvidence (MkNameResolutionObservation started completed kind
      mechanism process netns query canonical addresses code fidelity source) relation correlation) =
    name_resolution_evidence_hash (MkNameResolutionEvidence (MkNameResolutionObservation started completed kind
      mechanism process netns query canonical addresses' code fidelity source) relation correlation).
Proof.
  intros Hp. split.
  - assert (Hs : sort_strings (name_resolution_evidence_hash <$> evidence) =
      sort_strings (name_resolution_evidence_hash <$> evidence')) by (apply sort_strings_perm; by rewrite Hp).
    destruct evidence as [|e l], evidence' as [|e' l']; [done| | |].
    + by apply Permutation_nil_cons in Hp.
    + symmetry in Hp. by apply Permutation_nil_cons in Hp.
    + unfold name_resolution_evidence_set_hash. by rewrite Hs.
  - intros. unfold name_resolution_evidence_hash, evidence_material. cbv zeta. simpl.
    do 2 f_equal. apply sort_strings_perm. by rewrite H0.
Qed.

(** ** Text forms are read back *)

Lemma name_text_round_trip :
  (forall k, name_resolution_query_kind_from_string (query_kind_to_string k) = k) /\
  (forall m, name_resolution_mechanism_from_string (mechanism_to_string m) = m) /\
  (forall r, name_resolution_relation_from_string (relation_to_string r) = r).
Proof. split_and!; by intros []. Qed.

(** ** Witnesses *)

Definition sample_lookup : NameResolutionObservation :=
  MkNameResolutionObservation 900 950 Forward ApplicationResolverApi
    (MkLifecycleProcessContext (MkLifecycleProcessIds (Some 7) (Some 7)) (MkLifecycleProcessIds None None)
       None (Some 0) (Some 42) (Some "curl"))
    (Some 5) "example.org" None
    [MkNameResolutionAddress IPv4 "10.0.0.9"; MkNameResolutionAddress IPv4 "10.0.0.2"] (Some 0) Exact "ebpf".

Definition sample_summary : ConnectionSummary :=
  MkConnectionSummary 3 1000 1000 None Outbound 99 0 (Some 5) (MkProcessIdentity 7 0 (Some 42) "curl" "")
    "10.0.0.1" 40000 "10.0.0.2" 443 "example.org" "ACTIVE" InsufficientEvidence Unverified.

Lemma name_correlation_exact_witness :
  (in_u 64 (cs_first_seen_ns sample_summary) /\ Forall (fun o => in_u 64 (no_completed_ns o)) [sample_lookup]) /\
  exists o, o ∈ [sample_lookup] /\ explains 5000000000 sample_summary o.
Proof.
  assert (H1 : in_u 64 (cs_first_seen_ns sample_summary)) by (unfold in_u; simpl; lia).
  assert (H2 : Forall (fun o => in_u 64 (no_completed_ns o)) [sample_lookup])
    by (repeat constructor; unfold in_u; simpl; lia).
  split; [split; assumption|].
  pose proof (name_correlation_exact 5000000000 sample_summary [sample_lookup] H1 H2) as [Hm _].
  assert (Hs : nr_status (correlate_name_resolution 5000000000 sample_summary [sample_lookup]) = Matched)
    by (vm_compute; reflexivity).
  rewrite Hs in Hm. destruct Hm as (l1 & o & l2 & E & He & _). exists o. split; [|exact He].
  rewrite E. apply elem_of_app. right. apply elem_of_cons. left. reflexivity.
Defined.

Lemma name_fidelity_sound_witness :
  correlation_fidelity sample_summary sample_lookup = StronglyCorrelated /\
  no_network_namespace_inode sample_lookup = cs_network_namespace_inode sample_summary.
Proof.
  split; [reflexivity|].
  destruct (name_fidelity_sound sample_summary sample_lookup) as (_ & Hs & _).
  destruct (Hs ltac:(reflexivity)) as (_ & _ & Hn). exact Hn.
Defined.

Definition sample_evidence : NameResolutionEvidence :=
  MkNameResolutionEvidence sample_lookup ResolvedAddressForOutboundConnection StronglyCorrelated.

Definition other_evidence : NameResolutionEvidence :=
  MkNameResolutionEvidence sample_lookup ResolvedAddressForOutboundConnection Supporting.

Lemma name_evidence_hash_order_witness :
  name_resolution_evidence_set_hash (H := sum_digest) [sample_evidence; other_evidence] =
  name_resolution_evidence_set_hash (H := sum_digest) [other_evidence; sample_evidence].
Proof.
  exact (proj1 (name_evidence_hash_order (H := sum_digest) [sample_evidence; other_evidence]
    [other_evidence; sample_evidence] (perm_swap other_evidence sample_evidence []))).
Defined.
