(* ===== verification/TlsSession.v ===== *)
(** Correlating TLS sessions with connections ([src/core/tls_session.cpp],
    [include/neta/tls_session.hpp]).

    A session reported by the instrumented application is attached to a connection by
    its socket cookie, or by its tuple when it has none.  The theorems: a session is
    attached exactly when one connection, and only one, carries it ([carries], stated
    without the code's tests); a session with a cookie is never attached to a
    connection with another cookie or none; the text that is hashed does not
    determine the certificate fields. *)

From S2P Require Import Prelude Text Crypto Model.

#[local] Arguments String.append !_ _ /.

Inductive TlsSessionRole := RoleUnknown | Client | Server.
Inductive TlsSessionRelation :=
| TlsRelationUnknown | OutboundTlsSession | OutboundServerIdentity | InboundTlsSession | InboundClientIdentity.
#[global] Instance TlsSessionRole_eq_dec : EqDecision TlsSessionRole.
Proof. solve_decision. Defined.
#[global] Instance TlsSessionRelation_eq_dec : EqDecision TlsSessionRelation.
Proof. solve_decision. Defined.
Inductive TlsSessionCorrelationStatus := TlsNoMatch | AwaitingIdentity | TlsMatched | TlsAmbiguous.

Record TlsSessionEndpoint := MkTlsSessionEndpoint { te_address : string; te_port : Z }.

Record TlsSessionObservation := MkTlsSessionObservation {
  to_observed_ns : Z;
  to_local_role : TlsSessionRole;
  to_process : ProcessIdentity;
  to_network_namespace_inode : option Z;
  to_socket_cookie : option Z;
  to_local : TlsSessionEndpoint;
  to_remote : TlsSessionEndpoint;
  to_tls_version : string;
  to_cipher : string;
  to_alpn : string;
  to_sni : string;
  to_expected_peer_name : option string;
  to_matched_peer_name : option string;
  to_peer_certificate_present : bool;
  to_peer_verification_required : bool;
  to_verify_result : option Z;
  to_peer_authenticated : bool;
  to_leaf_sha256 : string;
  to_spki_sha256 : string;
  to_subject : string;
  to_issuer : string;
  to_not_before : string;
  to_not_after : string;
  to_fidelity : EvidenceFidelity;
  to_source : string }.

Record TlsSessionEvidence := MkTlsSessionEvidence {
  tv_observation : TlsSessionObservation;
  tv_relation : TlsSessionRelation;
  tv_correlation_fidelity : EvidenceFidelity }.

Record TlsSessionCorrelationResult := MkTlsSessionCorrelationResult {
  tr_status : TlsSessionCorrelationStatus;
  tr_connection_id : option Z;
  tr_evidence : option TlsSessionEvidence;
  tr_candidate_count : Z }.

(** ** Candidates *)

Definition tls_valid_cookie (cookie : option Z) : bool :=
  match cookie with Some c => negb (c =? 0) && negb (c =? u64_max) | None => false end.

Definition direction_for (role : TlsSessionRole) : ConnectionDirection :=
  match role with Client => Outbound | Server => Inbound | RoleUnknown => DirectionUnknown end.

Definition same_process (o : TlsSessionObservation) (c : ConnectionSummary) : bool :=
  if (pi_pid (to_process o) <? 0) || (pi_pid (cs_process c) <? 0) ||
     negb (pi_pid (to_process o) =? pi_pid (cs_process c)) then false
  else if match pi_start_ticks (to_process o), pi_start_ticks (cs_process c) with
          | Some a, Some b => negb (a =? b)
          | _, _ => false
          end then false
  else true.

Definition same_namespace (o : TlsSessionObservation) (c : ConnectionSummary) : bool :=
  match to_network_namespace_inode o, cs_network_namespace_inode c with
  | Some a, Some b => a =? b
  | _, _ => true
  end.

Definition same_tuple (o : TlsSessionObservation) (c : ConnectionSummary) : bool :=
  bool_decide (te_address (to_local o) = cs_local_ip c) && (te_port (to_local o) =? cs_local_port c) &&
  bool_decide (te_address (to_remote o) = cs_remote_ip c) && (te_port (to_remote o) =? cs_remote_port c).

Definition within_connection_time (tuple_max_age_ns : Z) (cookie_match : bool) (o : TlsSessionObservation)
    (c : ConnectionSummary) : bool :=
  if (to_observed_ns o =? 0) || (cs_first_seen_ns c =? 0) || (to_observed_ns o <? cs_first_seen_ns c) then false
  else if bool_decide (cs_lifecycle_state c = "CLOSED") && negb (cs_last_seen_ns c =? 0) &&
          (cs_last_seen_ns c <? to_observed_ns o) then false
  else if negb cookie_match && (tuple_max_age_ns <? wrap_u 64 (to_observed_ns o - cs_first_seen_ns c)) then false
  else true.

Inductive CandidateKind := KindNone | KindAwaitingIdentity | KindExact | KindTuple.
#[global] Instance CandidateKind_eq_dec : EqDecision CandidateKind.
Proof. solve_decision. Defined.

Definition candidate_kind (tuple_max_age_ns : Z) (o : TlsSessionObservation) (c : ConnectionSummary) : CandidateKind :=
  let direction := direction_for (to_local_role o) in
  if bool_decide (direction = DirectionUnknown) || negb (bool_decide (cs_direction c = direction)) then KindNone
  else if negb (same_process o c) || negb (same_namespace o c) then KindNone
  else if tls_valid_cookie (to_socket_cookie o) then
    if negb (cs_socket_cookie c =? 0) then
      if negb (bool_decide (to_socket_cookie o = Some (cs_socket_cookie c))) then KindNone
      else if within_connection_time tuple_max_age_ns true o c then KindExact else KindNone
    else if negb (same_tuple o c) then KindNone
    else if within_connection_time tuple_max_age_ns false o c then KindAwaitingIdentity else KindNone
  else if negb (same_tuple o c) then KindNone
  else if within_connection_time tuple_max_age_ns false o c then KindTuple else KindNone.

Definition relation_for (o : TlsSessionObservation) : TlsSessionRelation :=
  match to_local_role o with
  | Client => if to_peer_certificate_present o then OutboundServerIdentity else OutboundTlsSession
  | Server => if to_peer_certificate_present o then InboundClientIdentity else InboundTlsSession
  | RoleUnknown => TlsRelationUnknown
  end.

Definition tls_correlation_fidelity (o : TlsSessionObservation) (cookie_match : bool) : EvidenceFidelity :=
  match to_fidelity o with
  | Contextual => Contextual
  | Supporting => Supporting
  | _ => if cookie_match then Exact else StronglyCorrelated
  end.

(** What the loop over the connections has found. *)
Record Scan := MkScan {
  sc_candidates : Z;
  sc_match : option ConnectionSummary;
  sc_by_cookie : bool;
  sc_awaiting : Z }.

Definition scan_one (tuple_max_age_ns : Z) (o : TlsSessionObservation) (s : Scan) (c : ConnectionSummary) : Scan :=
  match candidate_kind tuple_max_age_ns o c with
  | KindAwaitingIdentity => MkScan (sc_candidates s) (sc_match s) (sc_by_cookie s) (sc_awaiting s + 1)
  | KindNone => s
  | kind =>
      match sc_match s with
      | None => MkScan (sc_candidates s + 1) (Some c) (bool_decide (kind = KindExact)) (sc_awaiting s)
      | Some _ => MkScan (sc_candidates s + 1) (sc_match s) (sc_by_cookie s) (sc_awaiting s)
      end
  end.

Definition correlate_tls_session (tuple_max_age_ns : Z) (o : TlsSessionObservation)
    (connections : list ConnectionSummary) : TlsSessionCorrelationResult :=
  let s := fold_left (scan_one tuple_max_age_ns o) connections (MkScan 0 None false 0) in
  if (sc_candidates s =? 0) && negb (sc_awaiting s =? 0) then
    MkTlsSessionCorrelationResult (if sc_awaiting s =? 1 then AwaitingIdentity else TlsAmbiguous) None None (sc_awaiting s)
  else if sc_candidates s =? 0 then MkTlsSessionCorrelationResult TlsNoMatch None None 0
  else
    match sc_match s with
    | Some c =>
        if negb (sc_candidates s =? 1) then MkTlsSessionCorrelationResult TlsAmbiguous None None (sc_candidates s)
        else MkTlsSessionCorrelationResult TlsMatched (Some (cs_id c))
               (Some (MkTlsSessionEvidence o (relation_for o) (tls_correlation_fidelity o (sc_by_cookie s))))
               (sc_candidates s)
    | None => MkTlsSessionCorrelationResult TlsAmbiguous None None (sc_candidates s)
    end.

(** ** Text forms *)

Definition role_to_string (value : TlsSessionRole) : string :=
  match value with Client => "CLIENT" | Server => "SERVER" | RoleUnknown => "UNKNOWN" end.

Definition tls_relation_to_string (value : TlsSessionRelation) : string :=
  match value with
  | OutboundTlsSession => "OUTBOUND_TLS_SESSION"
  | OutboundServerIdentity => "OUTBOUND_SERVER_IDENTITY"
  | InboundTlsSession => "INBOUND_TLS_SESSION"
  | InboundClientIdentity => "INBOUND_CLIENT_IDENTITY"
  | TlsRelationUnknown => "UNKNOWN"
  end.

Definition tls_status_to_string (value : TlsSessionCorrelationStatus) : string :=
  match value with
  | TlsNoMatch => "NO_MATCH"
  | AwaitingIdentity => "AWAITING_IDENTITY"
  | TlsMatched => "MATCHED"
  | TlsAmbiguous => "AMBIGUOUS"
  end.

Definition tls_session_role_from_string (value : string) : TlsSessionRole :=
  if bool_decide (value = "CLIENT") then Client
  else if bool_decide (value = "SERVER") then Server
  else RoleUnknown.

Definition tls_session_relation_from_string (value : string) : TlsSessionRelation :=
  if bool_decide (value = "OUTBOUND_TLS_SESSION") then OutboundTlsSession
  else if bool_decide (value = "OUTBOUND_SERVER_IDENTITY") then OutboundServerIdentity
  else if bool_decide (value = "INBOUND_TLS_SESSION") then InboundTlsSession
  else if bool_decide (value = "INBOUND_CLIENT_IDENTITY") then InboundClientIdentity
  else TlsRelationUnknown.

(** ** Hashes *)

(** The overloads of [append_optional] give these texts. *)
Definition optional_text (value : option string) : string := value_or value "".
Definition optional_number (value : option Z) : string :=
  match value with Some n => to_string n | None => "" end.

(** [std::to_string] of a [bool]. *)
Definition bool_text (b : bool) : string := if b then "1" else "0".

Definition canonical_observation (o : TlsSessionObservation) (include_observed_ns : bool) : string :=
  (if include_observed_ns then to_string (to_observed_ns o) else "") +:+
  "|" +:+ role_to_string (to_local_role o) +:+ "|" +:+
  to_string (pi_pid (to_process o)) +:+ "|" +:+ to_string (pi_uid (to_process o)) +:+ "|" +:+
  optional_number (pi_start_ticks (to_process o)) +:+ "|" +:+ pi_comm (to_process o) +:+ "|" +:+
  optional_number (to_network_namespace_inode o) +:+ "|" +:+ optional_number (to_socket_cookie o) +:+
  "|" +:+ te_address (to_local o) +:+ ":" +:+ to_string (te_port (to_local o)) +:+
  "->" +:+ te_address (to_remote o) +:+ ":" +:+ to_string (te_port (to_remote o)) +:+
  "|" +:+ to_tls_version o +:+ "|" +:+ to_cipher o +:+ "|" +:+ to_alpn o +:+ "|" +:+ to_sni o +:+ "|" +:+
  optional_text (to_expected_peer_name o) +:+ "|" +:+ optional_text (to_matched_peer_name o) +:+
  "|" +:+ bool_text (to_peer_certificate_present o) +:+ "|" +:+ bool_text (to_peer_verification_required o) +:+ "|" +:+
  optional_number (to_verify_result o) +:+ "|" +:+ bool_text (to_peer_authenticated o) +:+ "|" +:+
  to_leaf_sha256 o +:+ "|" +:+ to_spki_sha256 o +:+ "|" +:+ to_subject o +:+ "|" +:+ to_issuer o +:+ "|" +:+
  to_not_before o +:+ "|" +:+ to_not_after o +:+ "|" +:+ fidelity_to_string (to_fidelity o) +:+ "|" +:+ to_source o.

Definition tls_session_identity_key `{Sha256} (o : TlsSessionObservation) : string :=
  sha256_hex (canonical_observation o false).

Definition tls_session_evidence_hash `{Sha256} (evidence : TlsSessionEvidence) : string :=
  sha256_hex (canonical_observation (tv_observation evidence) true +:+ "|" +:+
              tls_relation_to_string (tv_relation evidence) +:+ "|" +:+
              fidelity_to_string (tv_correlation_fidelity evidence)).

Definition tls_session_evidence_set_hash `{Sha256} (evidence : list TlsSessionEvidence) : string :=
  match evidence with
  | [] => ""
  | _ => sha256_hex (join_hashes (sort_strings (tls_session_evidence_hash <$> evidence)))
  end.

(** ** Correctness *)

(** The session can belong to the connection: roles and processes agree, the network
    namespaces do as far as both are known, and it was observed while the connection
    was alive. *)
Record compatible (o : TlsSessionObservation) (c : ConnectionSummary) : Prop := {
  cp_direction : (to_local_role o = Client /\ cs_direction c = Outbound) \/
                 (to_local_role o = Server /\ cs_direction c = Inbound);
  cp_process : pi_pid (to_process o) = pi_pid (cs_process c) /\ 0 <= pi_pid (cs_process c);
  cp_instance : forall a b, pi_start_ticks (to_process o) = Some a -> pi_start_ticks (cs_process c) = Some b -> a = b;
  cp_namespace : forall a b, to_network_namespace_inode o = Some a -> cs_network_namespace_inode c = Some b -> a = b;
  cp_started : to_observed_ns o <> 0 /\ cs_first_seen_ns c <> 0 /\ cs_first_seen_ns c <= to_observed_ns o;
  cp_open : cs_lifecycle_state c = "CLOSED" -> cs_last_seen_ns c = 0 \/ to_observed_ns o <= cs_last_seen_ns c }.

Definition tuple_matches (tuple_max_age_ns : Z) (o : TlsSessionObservation) (c : ConnectionSummary) : Prop :=
  te_address (to_local o) = cs_local_ip c /\ te_port (to_local o) = cs_local_port c /\
  te_address (to_remote o) = cs_remote_ip c /\ te_port (to_remote o) = cs_remote_port c /\
  to_observed_ns o <= cs_first_seen_ns c + tuple_max_age_ns.

(** The connection carries the session: by cookie if the session has one, else by tuple. *)
Definition carries (tuple_max_age_ns : Z) (o : TlsSessionObservation) (c : ConnectionSummary) : Prop :=
  compatible o c /\
  if tls_valid_cookie (to_socket_cookie o) then to_socket_cookie o = Some (cs_socket_cookie c)
  else tuple_matches tuple_max_age_ns o c.

(** The connection may turn out to carry it, once its cookie is known. *)
Definition may_carry (tuple_max_age_ns : Z) (o : TlsSessionObservation) (c : ConnectionSummary) : Prop :=
  compatible o c /\ tls_valid_cookie (to_socket_cookie o) = true /\ cs_socket_cookie c = 0 /\
  tuple_matches tuple_max_age_ns o c.

Definition is_attached (tuple_max_age_ns : Z) (o : TlsSessionObservation) (c : ConnectionSummary) : bool :=
  let kind := candidate_kind tuple_max_age_ns o c in bool_decide (kind = KindExact) || bool_decide (kind = KindTuple).

Definition is_awaiting (tuple_max_age_ns : Z) (o : TlsSessionObservation) (c : ConnectionSummary) : bool :=
  bool_decide (candidate_kind tuple_max_age_ns o c = KindAwaitingIdentity).

Lemma same_process_spec o c :
  same_process o c = true <->
  (pi_pid (to_process o) = pi_pid (cs_process c) /\ 0 <= pi_pid (cs_process c)) /\
  forall a b, pi_start_ticks (to_process o) = Some a -> pi_start_ticks (cs_process c) = Some b -> a = b.
Proof.
  unfold same_process. rewrite !guard_true, !orb_false_iff, negb_false_iff, Z.eqb_eq, !Z.ltb_ge.
  assert (Ht : (match pi_start_ticks (to_process o), pi_start_ticks (cs_process c) with
    | Some a, Some b => negb (a =? b) | _, _ => false end) = false <->
    forall a b, pi_start_ticks (to_process o) = Some a -> pi_start_ticks (cs_process c) = Some b -> a = b).
  { destruct (pi_start_ticks (to_process o)), (pi_start_ticks (cs_process c)); try naive_solver.
    rewrite negb_false_iff, Z.eqb_eq. naive_solver. }
  rewrite Ht. intuition lia.
Qed.

Lemma same_namespace_spec o c :
  same_namespace o c = true <->
  forall a b, to_network_namespace_inode o = Some a -> cs_network_namespace_inode c = Some b -> a = b.
Proof.
  unfold same_namespace. destruct (to_network_namespace_inode o), (cs_network_namespace_inode c); try naive_solver.
  rewrite Z.eqb_eq. naive_solver.
Qed.

Lemma within_time_spec age cookie o c :
  in_u 64 (to_observed_ns o) -> in_u 64 (cs_first_seen_ns c) ->
  within_connection_time age cookie o c = true <->
  (to_observed_ns o <> 0 /\ cs_first_seen_ns c <> 0 /\ cs_first_seen_ns c <= to_observed_ns o) /\
  (cs_lifecycle_state c = "CLOSED" -> cs_last_seen_ns c = 0 \/ to_observed_ns o <= cs_last_seen_ns c) /\
  (cookie = true \/ to_observed_ns o <= cs_first_seen_ns c + age).
Proof.
  intros Ho Hc. unfold within_connection_time.
  rewrite !guard_true, !orb_false_iff, !andb_false_iff, !negb_false_iff, !Z.eqb_neq, Z.eqb_eq, bool_decide_eq_false, !Z.ltb_ge.
  assert (Hw : cs_first_seen_ns c <= to_observed_ns o ->
    wrap_u 64 (to_observed_ns o - cs_first_seen_ns c) = to_observed_ns o - cs_first_seen_ns c)
    by (intros; apply wrap_u_id; unfold in_u in *; lia).
  destruct (decide (cs_lifecycle_state c = "CLOSED")) as [E|E]; destruct cookie; split; intros; destruct_and?;
    rewrite ?Hw in * by done; split_and!; try done; try tauto; try lia; naive_solver lia.
Qed.

Lemma direction_for_spec o c :
  bool_decide (direction_for (to_local_role o) = DirectionUnknown) ||
  negb (bool_decide (cs_direction c = direction_for (to_local_role o))) = false <->
  (to_local_role o = Client /\ cs_direction c = Outbound) \/ (to_local_role o = Server /\ cs_direction c = Inbound).
Proof. rewrite orb_false_iff, negb_false_iff, bool_decide_eq_true, bool_decide_eq_false. destruct (to_local_role o); naive_solver. Qed.

Lemma same_tuple_spec age o c :
  tuple_matches age o c <-> same_tuple o c = true /\ to_observed_ns o <= cs_first_seen_ns c + age.
Proof.
  unfold tuple_matches, same_tuple. rewrite !andb_true_iff, !bool_decide_eq_true, !Z.eqb_eq. tauto.
Qed.

(** The tests every candidate passes. *)
Lemma compatible_spec o c age cookie :
  in_u 64 (to_observed_ns o) -> in_u 64 (cs_first_seen_ns c) ->
  compatible o c /\ (cookie = true \/ to_observed_ns o <= cs_first_seen_ns c + age) <->
  bool_decide (direction_for (to_local_role o) = DirectionUnknown) ||
    negb (bool_decide (cs_direction c = direction_for (to_local_role o))) = false /\
  negb (same_process o c) || negb (same_namespace o c) = false /\
  within_connection_time age cookie o c = true.
Proof.
  intros Ho Hc. rewrite direction_for_spec, orb_false_iff, !negb_false_iff, same_process_spec, same_namespace_spec,
    within_time_spec by done.
  split; [intros [[] ?]|intros (? & [[] ?] & ? & ? & ?); split; [split|]]; tauto.
Qed.

Lemma candidate_kind_spec age o c :
  in_u 64 (to_observed_ns o) -> in_u 64 (cs_first_seen_ns c) ->
  (is_attached age o c = true <-> carries age o c) /\ (is_awaiting age o c = true <-> may_carry age o c).
Proof.
  intros Ho Hc. pose proof (compatible_spec o c age true Ho Hc) as Ht.
  pose proof (compatible_spec o c age false Ho Hc) as Hf.
  assert (Htup : compatible o c /\ tuple_matches age o c <->
    same_tuple o c = true /\ compatible o c /\ (false = true \/ to_observed_ns o <= cs_first_seen_ns c + age))
    by (rewrite (same_tuple_spec age o c); intuition congruence).
  rewrite Hf in Htup. clear Hf. assert (Ht' : compatible o c <-> compatible o c /\
    (true = true \/ to_observed_ns o <= cs_first_seen_ns c + age)) by tauto. rewrite Ht in Ht'. clear Ht.
  unfold is_attached, is_awaiting, carries, may_carry, candidate_kind. cbv zeta.
  destruct (_ || negb (bool_decide (cs_direction c = _))) eqn:Ed.
  { split; simpl; (split; [done|]); intros [Hcp _]; apply Ht' in Hcp as [? _]; done. }
  destruct (negb (same_process o c) || negb (same_namespace o c)) eqn:Es.
  { split; simpl; (split; [done|]); intros [Hcp _]; apply Ht' in Hcp as (_ & ? & _); done. }
  destruct (tls_valid_cookie (to_socket_cookie o)) eqn:Ev.
  - destruct (Z.eqb_spec (cs_socket_cookie c) 0) as [E0|E0]; simpl.
    + assert (Hn : to_socket_cookie o <> Some (cs_socket_cookie c)).
      { intros E. rewrite E, E0 in Ev. done. }
      destruct (same_tuple o c), (within_connection_time age false o c); simpl; intuition congruence.
    + destruct (bool_decide (to_socket_cookie o = _)) eqn:Ec; to_prop; simpl; [|intuition congruence].
      destruct (within_connection_time age true o c); simpl; intuition congruence.
  - destruct (same_tuple o c), (within_connection_time age false o c); simpl; intuition congruence.
Qed.

Lemma scan_spec age o connections :
  let attached := passing (is_attached age o) connections in
  fold_left (scan_one age o) connections (MkScan 0 None false 0) =
  MkScan (Z.of_nat (length attached)) (head attached)
    (match head attached with Some c => bool_decide (candidate_kind age o c = KindExact) | None => false end)
    (Z.of_nat (length (passing (is_awaiting age o) connections))).
Proof.
  cbv zeta. enough (G : forall s, fold_left (scan_one age o) connections s =
    MkScan (sc_candidates s + Z.of_nat (length (passing (is_attached age o) connections)))
      (match sc_match s with Some _ => sc_match s | None => head (passing (is_attached age o) connections) end)
      (match sc_match s, head (passing (is_attached age o) connections) with
       | None, Some c => bool_decide (candidate_kind age o c = KindExact)
       | _, _ => sc_by_cookie s
       end)
      (sc_awaiting s + Z.of_nat (length (passing (is_awaiting age o) connections)))).
  { rewrite G. simpl. f_equal; try lia. }
  unfold passing. induction connections as [|c l IH]; intros s; simpl.
  { destruct s as [n [m|] b w]; simpl; f_equal; lia. }
  rewrite IH. unfold scan_one.
  destruct (candidate_kind age o c) eqn:Ek.
  all: assert (Ha : is_attached age o c = bool_decide (candidate_kind age o c = KindExact \/ candidate_kind age o c = KindTuple))
    by (unfold is_attached; rewrite Ek; done);
    rewrite Ek in Ha;
    assert (Hw : is_awaiting age o c = bool_decide (candidate_kind age o c = KindAwaitingIdentity)) by done; rewrite Ek in Hw.
  all: rewrite ?(filter_cons_True (fun a => is_attached age o a = true)) by done;
    rewrite ?(filter_cons_False (fun a => is_attached age o a = true)) by (rewrite Ha; done);
    rewrite ?(filter_cons_True (fun a => is_awaiting age o a = true)) by done;
    rewrite ?(filter_cons_False (fun a => is_awaiting age o a = true)) by (rewrite Hw; done).
  all: destruct s as [n [m|] b w]; cbn [sc_match sc_candidates sc_by_cookie sc_awaiting head length]; f_equal; try lia; by rewrite Ek.
Qed.

(** The outcome as a function of the connections that carry the session and those
    that may. *)
Definition tls_outcome (o : TlsSessionObservation) (attached awaiting : list ConnectionSummary) :
    TlsSessionCorrelationResult :=
  match attached, awaiting with
  | [], [] => MkTlsSessionCorrelationResult TlsNoMatch None None 0
  | [], [_] => MkTlsSessionCorrelationResult AwaitingIdentity None None 1
  | [], _ => MkTlsSessionCorrelationResult TlsAmbiguous None None (Z.of_nat (length awaiting))
  | [c], _ => MkTlsSessionCorrelationResult TlsMatched (Some (cs_id c))
                (Some (MkTlsSessionEvidence o (relation_for o)
                         (tls_correlation_fidelity o (tls_valid_cookie (to_socket_cookie o))))) 1
  | _, _ => MkTlsSessionCorrelationResult TlsAmbiguous None None (Z.of_nat (length attached))
  end.

(** An attached connection was found by cookie exactly when the session has one. *)
Lemma attached_by_cookie age o c :
  is_attached age o c = true ->
  bool_decide (candidate_kind age o c = KindExact) = tls_valid_cookie (to_socket_cookie o) /\
  (tls_valid_cookie (to_socket_cookie o) = true -> to_socket_cookie o = Some (cs_socket_cookie c)).
Proof.
  unfold is_attached. cbv zeta. destruct (candidate_kind age o c) eqn:Ek; try done; intros _; unfold candidate_kind in Ek;
    cbv zeta in Ek; repeat (case_match; try done); to_prop; done.
Qed.

Lemma correlate_tls_outcome age o connections :
  correlate_tls_session age o connections =
  tls_outcome o (passing (is_attached age o) connections) (passing (is_awaiting age o) connections).
Proof.
  unfold correlate_tls_session. rewrite scan_spec. cbv zeta. cbn [sc_candidates sc_match sc_by_cookie sc_awaiting].
  destruct (passing (is_attached age o) connections) as [|c [|c2 r]] eqn:Ea.
  - destruct (passing (is_awaiting age o) connections) as [|w [|w2 r]]; [done..|]. simpl head.
    cbn [length tls_outcome]. by rewrite (proj1 (two_or_more _)), (proj2 (two_or_more _)).
  - assert (Hc : is_attached age o c = true).
    { apply (elem_of_passing (is_attached age o) connections). rewrite Ea. apply elem_of_cons. by left. }
    apply attached_by_cookie in Hc as [Hc _]. simpl. by rewrite Hc.
  - cbn [length head]. destruct (two_or_more (length r)) as [-> ->]. simpl.
    by destruct (passing (is_awaiting age o) connections) as [|w [|]].
Qed.

#[global] Instance tls_outcome_perm o : Proper (Permutation ==> Permutation ==> eq) (tls_outcome o).
Proof.
  intros a a' Ha w w' Hw. pose proof (Permutation_length Ha) as La. pose proof (Permutation_length Hw) as Lw.
  destruct a as [|c [|c2 r]].
  - apply Permutation_nil_l in Ha as <-. destruct w as [|x [|x2 q]], w' as [|x' [|x2' q']]; try done. simpl in *. by rewrite Lw.
  - apply Permutation_singleton_l in Ha as <-. destruct w as [|x [|]], w' as [|x' [|]]; done.
  - destruct a' as [|c' [|c2' r']]; try done. simpl in *. rewrite La.
    destruct w as [|x [|]], w' as [|x' [|]]; done.
Qed.

(** Connections of a list that satisfy a property: none, only one, at least two. *)
Definition none_of {A} (P : A -> Prop) (l : list A) : Prop := forall a, a ∈ l -> ~ P a.
Definition only_one {A} (P : A -> Prop) (l : list A) (a : A) : Prop :=
  exists l1 l2, l = l1 ++ a :: l2 /\ P a /\ none_of P (l1 ++ l2).
Definition two_of {A} (P : A -> Prop) (l : list A) : Prop :=
  exists l1 a l2 b l3, l = l1 ++ a :: l2 ++ b :: l3 /\ P a /\ P b.

Lemma passing_counts {A} (p : A -> bool) (P : A -> Prop) l :
  (forall a, a ∈ l -> p a = true <-> P a) ->
  match passing p l with
  | [] => none_of P l
  | [a] => only_one P l a
  | _ => two_of P l
  end.
Proof.
  intros Hp. assert (Hn : forall a, a ∈ l -> p a = false -> ~ P a).
  { intros a Ha E HP. apply Hp in HP; [congruence|done]. }
  destruct (passing p l) as [|a [|b r]] eqn:E.
  - intros a Ha. apply Hn; [done|]. by apply (passing_nil _ _ E).
  - apply passing_cons in E as (l1 & l2 & -> & Ha & H1 & H2). exists l1, l2. split_and!; [done|apply Hp; [set_solver|done]|].
    intros b Hb. apply elem_of_app in Hb as [Hb|Hb]; (apply Hn; [set_solver|]); [by apply H1|by apply (passing_nil _ _ H2)].
  - apply passing_cons in E as (l1 & l2 & -> & Ha & _ & E). apply passing_cons in E as (l3 & l4 & -> & Hb & _ & _).
    exists l1, a, l3, b, l4. split_and!; [done|apply Hp; [set_solver|done]..].
Qed.

(** A TLS session is attached to a connection exactly when one connection, and
    only one, carries it: same role and process, alive when the session was seen, and
    the same socket cookie, or the same tuple if the session has no cookie.  Several
    such connections make it ambiguous; if none carries it but exactly one without
    cookie might, the session waits for that identity.  The result does not depend on
    the order of the connections. *)
Theorem tls_correlation_exact age o connections :
  in_u 64 (to_observed_ns o) -> Forall (fun c => in_u 64 (cs_first_seen_ns c)) connections ->
  let r := correlate_tls_session age o connections in
  match tr_status r with
  | TlsMatched => exists c, only_one (carries age o) connections c /\ tr_connection_id r = Some (cs_id c) /\
      tr_evidence r = Some (MkTlsSessionEvidence o (relation_for o)
        (tls_correlation_fidelity o (tls_valid_cookie (to_socket_cookie o))))
  | AwaitingIdentity => none_of (carries age o) connections /\ exists c, only_one (may_carry age o) connections c
  | TlsAmbiguous => two_of (carries age o) connections \/
      (none_of (carries age o) connections /\ two_of (may_carry age o) connections)
  | TlsNoMatch => none_of (carries age o) connections /\ none_of (may_carry age o) connections
  end /\
  (tr_status r <> TlsMatched -> tr_connection_id r = None /\ tr_evidence r = None) /\
  forall connections', connections ≡ₚ connections' -> correlate_tls_session age o connections' = r.
Proof.
  intros Ho Hc. cbv zeta. rewrite Forall_forall in Hc.
  pose proof (passing_counts (is_attached age o) (carries age o) connections
    (fun c Hin => proj1 (candidate_kind_spec age o c Ho (Hc c Hin)))) as Ha.
  pose proof (passing_counts (is_awaiting age o) (may_carry age o) connections
    (fun c Hin => proj2 (candidate_kind_spec age o c Ho (Hc c Hin)))) as Hw.
  split; [|split].
  - rewrite correlate_tls_outcome. destruct (passing (is_attached age o) connections) as [|c [|c2 r]];
      destruct (passing (is_awaiting age o) connections) as [|w [|w2 q]]; simpl; eauto.
  - rewrite correlate_tls_outcome. destruct (passing (is_attached age o) connections) as [|c [|c2 r]];
      destruct (passing (is_awaiting age o) connections) as [|w [|w2 q]]; done.
  - intros connections' Hp. rewrite !correlate_tls_outcome. by rewrite Hp.
Qed.

(** A session with a socket cookie is never attached weakly: if it is attached to
    a connection, that connection has this very cookie; and attached evidence is
    reported EXACT only when it was found by cookie and observed with at least strong
    fidelity. *)
Theorem tls_cookie_never_weak age o connections id :
  tr_connection_id (correlate_tls_session age o connections) = Some id ->
  exists c e, c ∈ connections /\ cs_id c = id /\
    (tls_valid_cookie (to_socket_cookie o) = true -> to_socket_cookie o = Some (cs_socket_cookie c)) /\
    tr_evidence (correlate_tls_session age o connections) = Some e /\
    (tv_correlation_fidelity e = Exact ->
       to_socket_cookie o = Some (cs_socket_cookie c) /\
       (to_fidelity o = Exact \/ to_fidelity o = StronglyCorrelated)).
Proof.
  rewrite correlate_tls_outcome. destruct (passing (is_attached age o) connections) as [|c [|c2 r]] eqn:Ea.
  1,3: destruct (passing (is_awaiting age o) connections) as [|w [|w2 q]]; done.
  assert (Hin : c ∈ passing (is_attached age o) connections) by (rewrite Ea; apply elem_of_cons; by left).
  apply elem_of_passing in Hin as [Hin Hat]. apply attached_by_cookie in Hat as [_ Hck].
  replace (tls_outcome o [c] _) with (tls_outcome o [c] []) by (by destruct (passing (is_awaiting age o) connections) as [|w [|]]).
  intros [= <-]. eexists c, _. split_and!; [done..|reflexivity|]. simpl. unfold tls_correlation_fidelity.
  destruct (to_fidelity o), (tls_valid_cookie (to_socket_cookie o)); naive_solver.
Qed.

(** The evidence text does not separate its fields: moving a bar from the subject
    to the issuer of the peer certificate changes the evidence but neither its hash
    nor its identity key, whatever the hash function. *)
Theorem tls_evidence_hash_moves_bar `{Sha256} time role process netns cookie local remote version cipher alpn sni
    expected matched present required verified authenticated leaf spki subject moved issuer before after fidelity source
    relation correlation :
  let observation subject issuer := MkTlsSessionObservation time role process netns cookie local remote version cipher alpn
    sni expected matched present required verified authenticated leaf spki subject issuer before after fidelity source in
  let evidence subject issuer := MkTlsSessionEvidence (observation subject issuer) relation correlation in
  evidence (subject +:+ "|" +:+ moved) issuer <> evidence subject (moved +:+ "|" +:+ issuer) /\
  tls_session_evidence_hash (evidence (subject +:+ "|" +:+ moved) issuer) =
    tls_session_evidence_hash (evidence subject (moved +:+ "|" +:+ issuer)) /\
  tls_session_identity_key (observation (subject +:+ "|" +:+ moved) issuer) =
    tls_session_identity_key (observation subject (moved +:+ "|" +:+ issuer)).
Proof.
  cbv zeta. split_and!.
  - intros E. injection E as E. apply (f_equal String.length) in E. rewrite !string_length_app in E. simpl in E. lia.
  - unfold tls_session_evidence_hash, canonical_observation. simpl tv_observation. cbn -[String.append sha256_hex].
    by rewrite !string_app_assoc.
  - unfold tls_session_identity_key, canonical_observation. cbn -[String.append sha256_hex]. by rewrite !string_app_assoc.
Qed.

(** ** Text forms are read back *)

Lemma tls_text_round_trip :
  (forall r, tls_session_role_from_string (role_to_string r) = r) /\
  (forall r, tls_session_relation_from_string (tls_relation_to_string r) = r).
Proof. split; by intros []. Qed.

(** ** Witnesses *)

Definition sample_session : TlsSessionObservation :=
  MkTlsSessionObservation 1500 Client (MkProcessIdentity 7 0 (Some 42) "curl" "") (Some 5) (Some 99)
    (MkTlsSessionEndpoint "10.0.0.1" 40000) (MkTlsSessionEndpoint "10.0.0.2" 443) "TLSv1.3" "AES" "h2" "example.org"
    None None true true (Some 0) true "leaf" "spki" "CN=example.org" "CN=ca" "" "" Exact "shim".

Definition carrying (id cookie : Z) : ConnectionSummary :=
  MkConnectionSummary id 1000 1000 None Outbound cookie 0 (Some 5) (MkProcessIdentity 7 0 (Some 42) "curl" "")
    "10.0.0.1" 40000 "10.0.0.2" 443 "example.org" "ACTIVE" InsufficientEvidence Unverified.

Lemma tls_correlation_exact_witness :
  (in_u 64 (to_observed_ns sample_session) /\
   Forall (fun c => in_u 64 (cs_first_seen_ns c)) [carrying 3 98; carrying 4 99]) /\
  exists c, only_one (carries 30000000000 sample_session) [carrying 3 98; carrying 4 99] c.
Proof.
  assert (H1 : in_u 64 (to_observed_ns sample_session)) by (unfold in_u; simpl; lia).
  assert (H2 : Forall (fun c => in_u 64 (cs_first_seen_ns c)) [carrying 3 98; carrying 4 99])
    by (repeat constructor; unfold in_u; simpl; lia).
  split; [split; assumption|].
  destruct (tls_correlation_exact 30000000000 sample_session [carrying 3 98; carrying 4 99] H1 H2) as [Hm _].
  assert (Hs : tr_status (correlate_tls_session 30000000000 sample_session [carrying 3 98; carrying 4 99]) = TlsMatched)
    by (vm_compute; reflexivity).
  rewrite Hs in Hm. destruct Hm as (c & Hc & _). exists c. exact Hc.
Defined.

Lemma tls_cookie_never_weak_witness :
  tr_connection_id (correlate_tls_session 30000000000 sample_session [carrying 3 98; carrying 4 99]) = Some 4 /\
  exists c, c ∈ [carrying 3 98; carrying 4 99] /\ Some 99 = Some (cs_socket_cookie c).
Proof.
  assert (Hs : tr_connection_id (correlate_tls_session 30000000000 sample_session [carrying 3 98; carrying 4 99]) = Some 4)
    by (vm_compute; reflexivity).
  split; [exact Hs|].
  destruct (tls_cookie_never_weak 30000000000 sample_session [carrying 3 98; carrying 4 99] 4 Hs)
    as (c & e & Hin & _ & Hck & _).
  exists c. split; [exact Hin|]. apply Hck. reflexivity.
Defined.
