(* ===== verification/Scheduler.v ===== *)
(** When transport and route evidence is sampled ([src/core/evidence_scheduler.cpp],
    [include/neta/evidence_scheduler.hpp]).

    Times are those of the steady clock, in nanoseconds; the intervals are whole
    milliseconds and are kept in nanoseconds here.  The order of an unordered set is
    that of [elements].  The theorems: the invariant of every history of calls; the
    sampling cadence after an admission; every admitted connection's route is observed
    exactly once after the next sample, and never after it was closed. *)

From S2P Require Import Prelude.

Definition ns_per_ms : Z := 1000000.

Record EvidenceScheduler := MkEvidenceScheduler {
  es_transport_interval : Z;              (* nanoseconds *)
  es_early_transport_followup : Z;        (* nanoseconds *)
  es_next_transport_sample : Z;
  es_immediate_transport : bool;
  es_early_transport_followup_pending : bool;
  es_routes_ready : bool;
  es_active : gset Z;
  es_pending_routes : gset Z }.

(** [Clock::time_point::min()] *)
Definition time_min : Z := - 2 ^ 63.

Definition new_scheduler (transport_interval_ms early_transport_followup_ms : Z) : EvidenceScheduler :=
  MkEvidenceScheduler (transport_interval_ms * ns_per_ms) (early_transport_followup_ms * ns_per_ms) time_min
    false false false ∅ ∅.

Definition connection_admitted (connection_id : Z) (s : EvidenceScheduler) : EvidenceScheduler :=
  MkEvidenceScheduler (es_transport_interval s) (es_early_transport_followup s) (es_next_transport_sample s)
    true true (es_routes_ready s) ({[connection_id]} ∪ es_active s) ({[connection_id]} ∪ es_pending_routes s).

Definition connection_closed (connection_id : Z) (s : EvidenceScheduler) : EvidenceScheduler :=
  let active := es_active s ∖ {[connection_id]} in
  let idle := bool_decide (active = ∅) in
  MkEvidenceScheduler (es_transport_interval s) (es_early_transport_followup s) (es_next_transport_sample s)
    (if idle then false else es_immediate_transport s)
    (if idle then false else es_early_transport_followup_pending s)
    (es_routes_ready s) active (es_pending_routes s ∖ {[connection_id]}).

Definition transport_due (now : Z) (polling_discovery_required : bool) (s : EvidenceScheduler) : bool :=
  polling_discovery_required ||
  (negb (bool_decide (es_active s = ∅)) && (es_immediate_transport s || (es_next_transport_sample s <=? now))).

(** In milliseconds; [duration_cast] truncates towards zero. *)
Definition wait_time (now : Z) (s : EvidenceScheduler) : Z :=
  if bool_decide (es_active s = ∅) then Z.quot (es_transport_interval s) ns_per_ms
  else if es_immediate_transport s || (es_next_transport_sample s <=? now) then 0
  else Z.quot (es_next_transport_sample s - now) ns_per_ms.

Definition transport_sampled (now : Z) (s : EvidenceScheduler) : EvidenceScheduler :=
  let next :=
    if es_immediate_transport s then now + es_early_transport_followup s
    else now + es_transport_interval s in
  let followup_pending :=
    if es_immediate_transport s then es_early_transport_followup_pending s
    else if es_early_transport_followup_pending s then false
    else es_early_transport_followup_pending s in
  MkEvidenceScheduler (es_transport_interval s) (es_early_transport_followup s) next
    (if es_immediate_transport s then false else es_immediate_transport s) followup_pending
    (negb (bool_decide (es_pending_routes s = ∅))) (es_active s) (es_pending_routes s).

Definition take_route_observations_due (s : EvidenceScheduler) : list Z * EvidenceScheduler :=
  if negb (es_routes_ready s) then ([], s)
  else (elements (es_pending_routes s),
        MkEvidenceScheduler (es_transport_interval s) (es_early_transport_followup s) (es_next_transport_sample s)
          (es_immediate_transport s) (es_early_transport_followup_pending s) false (es_active s) ∅).

(** ** Histories *)

Inductive schedule_op :=
| Admit (connection_id : Z)
| CloseConnection (connection_id : Z)
| Sample (now : Z)
| TakeRoutes.

(** The state after a call and the routes it hands out. *)
Definition schedule (op : schedule_op) (s : EvidenceScheduler) : list Z * EvidenceScheduler :=
  match op with
  | Admit id => ([], connection_admitted id s)
  | CloseConnection id => ([], connection_closed id s)
  | Sample now => ([], transport_sampled now s)
  | TakeRoutes => take_route_observations_due s
  end.

Fixpoint schedule_all (ops : list schedule_op) (s : EvidenceScheduler) : list Z * EvidenceScheduler :=
  match ops with
  | [] => ([], s)
  | op :: ops' =>
      let '(routes, s) := schedule op s in
      let '(routes', s) := schedule_all ops' s in
      (routes ++ routes', s)
  end.

(** Routes wait only for active connections, and nothing is urgent when none is active;
    an urgent sample is always followed by an early one. *)
Record scheduler_inv (s : EvidenceScheduler) : Prop := {
  si_pending : es_pending_routes s ⊆ es_active s;
  si_immediate : es_immediate_transport s = true ->
    es_active s <> ∅ /\ es_early_transport_followup_pending s = true;
  si_followup : es_early_transport_followup_pending s = true -> es_active s <> ∅ }.

Lemma schedule_inv op s : scheduler_inv s -> scheduler_inv (schedule op s).2.
Proof.
  intros [Hp Hi Hf]. destruct op as [id|id|now|]; simpl.
  - split; simpl; [set_solver|set_solver..].
  - split; simpl; [set_solver|case_bool_decide; naive_solver..].
  - split; simpl; [done|..]; destruct (es_immediate_transport s), (es_early_transport_followup_pending s); naive_solver.
  - unfold take_route_observations_due. destruct (negb _); simpl; [done|]. split; simpl; [set_solver|done..].
Qed.

Lemma schedule_all_inv ops s : scheduler_inv s -> scheduler_inv (schedule_all ops s).2.
Proof.
  revert s. induction ops as [|op ops IH]; intros s Hs; simpl; [done|].
  pose proof (schedule_inv op s Hs) as H1. destruct (schedule op s) as [r s1]. simpl in H1.
  pose proof (IH s1 H1) as H2. by destruct (schedule_all ops s1).
Qed.

Lemma new_scheduler_inv interval early : scheduler_inv (new_scheduler interval early).
Proof. split; simpl; [set_solver|done..]. Qed.

(** ** Routes *)

Definition times (id : Z) (routes : list Z) : nat := length (filter (fun r => r = id) routes).

Lemma times_app id a b : times id (a ++ b) = (times id a + times id b)%nat.
Proof. unfold times. by rewrite filter_app, length_app. Qed.

Lemma times_elements id (X : gset Z) : times id (elements X) = if decide (id ∈ X) then 1%nat else 0%nat.
Proof.
  unfold times.
  assert (Hn : NoDup (filter (fun r => r = id) (elements X))) by apply NoDup_filter, NoDup_elements.
  assert (Hin : forall r, r ∈ filter (fun r => r = id) (elements X) <-> r = id /\ id ∈ X).
  { intros r. rewrite list_elem_of_filter, elem_of_elements. naive_solver. }
  destruct (filter (fun r => r = id) (elements X)) as [|a [|b l]]; case_decide as Hd; try done.
  - exfalso. by apply (not_elem_of_nil id), Hin.
  - destruct (proj1 (Hin a)) as [_ ?]; [by apply elem_of_cons; left|done].
  - exfalso. apply NoDup_cons in Hn as [Ha _]. apply Ha.
    destruct (proj1 (Hin a)) as [-> _]; [set_solver|]. destruct (proj1 (Hin b)) as [-> _]; [set_solver|]. set_solver.
  - destruct (proj1 (Hin a)) as [_ ?]; [by apply elem_of_cons; left|done].
Qed.

(** The call neither admits nor closes the connection. *)
Definition leaves (id : Z) (op : schedule_op) : Prop := op <> Admit id /\ op <> CloseConnection id.

Definition pending_times (id : Z) (s : EvidenceScheduler) : nat := if decide (id ∈ es_pending_routes s) then 1 else 0.

(** A waiting route is handed out or still waiting, never lost nor duplicated. *)
Lemma schedule_conserves id op s :
  leaves id op ->
  (times id (schedule op s).1 + pending_times id (schedule op s).2 = pending_times id s)%nat.
Proof.
  intros [Ha Hc]. unfold pending_times. destruct op as [i|i|now|]; simpl.
  - assert (i <> id) by congruence. do 2 case_decide; set_solver.
  - assert (i <> id) by congruence. do 2 case_decide; set_solver.
  - done.
  - unfold take_route_observations_due. destruct (negb (es_routes_ready s)); simpl; [done|].
    rewrite times_elements. rewrite (decide_False (P := id ∈ ∅)) by set_solver. lia.
Qed.

Lemma schedule_all_conserves id ops s :
  Forall (leaves id) ops ->
  (times id (schedule_all ops s).1 + pending_times id (schedule_all ops s).2 = pending_times id s)%nat.
Proof.
  revert s. induction ops as [|op ops IH]; intros s Hops; simpl; [done|].
  apply Forall_cons in Hops as [Hop Hops]. pose proof (schedule_conserves id op s Hop) as H1.
  destruct (schedule op s) as [r s1]. specialize (IH s1 Hops). destruct (schedule_all ops s1) as [r' s2].
  simpl in *. rewrite times_app. lia.
Qed.

(** While the route waits, readiness is kept. *)
Lemma schedule_all_ready id ops s :
  Forall (leaves id) ops -> (id ∈ es_pending_routes s -> es_routes_ready s = true) ->
  let s' := (schedule_all ops s).2 in id ∈ es_pending_routes s' -> es_routes_ready s' = true.
Proof.
  revert s. induction ops as [|op ops IH]; intros s Hops Hs; simpl; [done|].
  apply Forall_cons in Hops as [Hop Hops]. destruct Hop as [Ha Hc].
  assert (H1 : id ∈ es_pending_routes (schedule op s).2 -> es_routes_ready (schedule op s).2 = true).
  { destruct op as [i|i|now|]; simpl.
    - assert (i <> id) by congruence. set_solver.
    - set_solver.
    - intros Hin. rewrite bool_decide_eq_false_2; set_solver.
    - unfold take_route_observations_due. destruct (negb (es_routes_ready s)) eqn:E; simpl; [done|set_solver]. }
  destruct (schedule op s) as [r s1]. specialize (IH s1 Hops H1). by destruct (schedule_all ops s1).
Qed.

Lemma schedule_all_app ops1 ops2 s :
  schedule_all (ops1 ++ ops2) s =
  let '(r1, s1) := schedule_all ops1 s in let '(r2, s2) := schedule_all ops2 s1 in (r1 ++ r2, s2).
Proof.
  revert s. induction ops1 as [|op ops1 IH]; intros s; simpl; [by destruct (schedule_all ops2 s)|].
  destruct (schedule op s) as [r s1]. rewrite IH. destruct (schedule_all ops1 s1) as [r1 s2].
  destruct (schedule_all ops2 s2) as [r2 s3]. by rewrite app_assoc.
Qed.

(** Every admitted connection has its route observed exactly once: between its
    admission and its end, however the calls are interleaved with those for other
    connections, once a transport sample has been taken and the due routes fetched
    afterwards, its route has been handed out once; and after every history, a route
    that is still due belongs to an active connection. *)
Theorem route_observed_once interval early history id before now after :
  Forall (leaves id) before -> Forall (leaves id) after ->
  let s := (schedule_all history (new_scheduler interval early)).2 in
  times id (schedule_all (Admit id :: before ++ Sample now :: after ++ [TakeRoutes]) s).1 = 1%nat /\
  es_pending_routes s ⊆ es_active s.
Proof.
  intros Hb Ha. cbv zeta. set (s := (schedule_all history _).2).
  split; [|apply si_pending, schedule_all_inv, new_scheduler_inv].
  simpl. set (s1 := connection_admitted id s).
  assert (Hp1 : pending_times id s1 = 1%nat) by (unfold pending_times; rewrite decide_True; [done|simpl; set_solver]).
  rewrite schedule_all_app. pose proof (schedule_all_conserves id before s1 Hb) as C1.
  destruct (schedule_all before s1) as [r1 s2]. simpl in C1 |- *. rewrite schedule_all_app.
  pose proof (schedule_all_conserves id after (transport_sampled now s2) Ha) as C2.
  pose proof (schedule_all_ready id after (transport_sampled now s2) Ha) as R2.
  destruct (schedule_all after (transport_sampled now s2)) as [r2 s3]. simpl in C2, R2 |- *.
  assert (Hs : pending_times id (transport_sampled now s2) = pending_times id s2) by done. rewrite Hs in C2.
  assert (R3 : id ∈ es_pending_routes s3 -> es_routes_ready s3 = true).
  { apply R2. intros Hin. rewrite bool_decide_eq_false_2; set_solver. }
  assert (Hl : times id (take_route_observations_due s3).1 = pending_times id s3).
  { unfold take_route_observations_due, pending_times. destruct (es_routes_ready s3) eqn:Er; simpl.
    - by rewrite times_elements.
    - rewrite decide_False; [done|]. intros Hin. specialize (R3 Hin). congruence. }
  destruct (take_route_observations_due s3) as [r3 s4]. simpl in *. rewrite !times_app. simpl. 
  change (times id []) with 0%nat. lia.
Qed.

(** ** Cadence *)

(** The sampling cadence: a newly admitted connection is sampled at once; after
    that sample the next one is due when the early follow-up has passed, and after
    the follow-up one interval later, again and again.  Waiting for the reported time
    never passes the moment a sample becomes due, and falls short of it by less than a
    millisecond. *)
Theorem sampling_cadence id s now1 now2 now3 t :
  let admitted := connection_admitted id s in
  let first := transport_sampled now1 admitted in
  let second := transport_sampled now2 first in
  let third := transport_sampled now3 second in
  transport_due t false admitted = true /\ wait_time t admitted = 0 /\
  transport_due t false first = (now1 + es_early_transport_followup s <=? t) /\
  transport_due t false second = (now2 + es_transport_interval s <=? t) /\
  transport_due t false third = (now3 + es_transport_interval s <=? t) /\
  (forall s', es_active s' <> ∅ -> transport_due t false s' = false ->
     t + wait_time t s' * ns_per_ms <= es_next_transport_sample s' < t + (wait_time t s' + 1) * ns_per_ms /\
     transport_due (es_next_transport_sample s') false s' = true).
Proof.
  cbv zeta. assert (Hne : {[id]} ∪ es_active s <> ∅) by set_solver.
  unfold transport_due, wait_time. simpl. rewrite !bool_decide_eq_false_2 by done. simpl.
  split_and!; [done..|]. intros s' Ha. rewrite !bool_decide_eq_false_2 by done. simpl. intros Hd. rewrite Hd.
  apply orb_false_iff in Hd as [_ Hd]. apply Z.leb_gt in Hd. rewrite Z.leb_refl, orb_true_r.
  split; [|done]. rewrite Z.quot_div_nonneg by (unfold ns_per_ms; lia).
  pose proof (Z.div_mod (es_next_transport_sample s' - t) ns_per_ms ltac:(done)) as Hdiv.
  pose proof (Z.mod_pos_bound (es_next_transport_sample s' - t) ns_per_ms ltac:(done)). lia.
Qed.

(** ** Witnesses *)

Lemma route_observed_once_witness :
  (Forall (leaves 5) [Admit 6] /\ Forall (leaves 5) [CloseConnection 6]) /\
  times 5 (schedule_all (Admit 5 :: [Admit 6] ++ Sample 10 :: [CloseConnection 6] ++ [TakeRoutes])
             (schedule_all [Admit 1; Sample 3] (new_scheduler 1000 50)).2).1 = 1%nat.
Proof.
  assert (H1 : Forall (leaves 5) [Admit 6]) by (repeat constructor; intros E; discriminate E).
  assert (H2 : Forall (leaves 5) [CloseConnection 6]) by (repeat constructor; intros E; discriminate E).
  split; [split; assumption|].
  exact (proj1 (route_observed_once 1000 50 [Admit 1; Sample 3] 5 [Admit 6] 10 [CloseConnection 6] H1 H2)).
Defined.

Lemma sampling_cadence_witness :
  let s := transport_sampled 100 (connection_admitted 5 (new_scheduler 1000 50)) in
  (es_active s <> ∅ /\ transport_due 200 false s = false) /\
  200 + wait_time 200 s * ns_per_ms <= es_next_transport_sample s.
Proof.
  cbv zeta. set (s := transport_sampled 100 (connection_admitted 5 (new_scheduler 1000 50))).
  assert (H1 : es_active s <> ∅) by (simpl; set_solver).
  assert (H2 : transport_due 200 false s = false) by (vm_compute; reflexivity).
  split; [split; assumption|].
  destruct (sampling_cadence 5 (new_scheduler 1000 50) 100 200 300 200) as (_ & _ & _ & _ & _ & Hw).
  destruct (Hw s H1 H2) as [[Hle _] _]. exact Hle.
Defined.
