(* ===== verification/UpgradeText.v ===== *)
(** The texts of an upgrade ([src/core/upgrade.cpp], first half): reading instructions and state
    files, checking names, digests and addresses, and decoding what the download server sends.

    The scanners of the code move an index through a string; here they return what is left of it.
    The theorems: an address is accepted exactly when it is an https address of a GitHub host on
    port 443 ([trusted_url_exact]); a download only ever talks to such hosts, at most six times
    ([download_only_trusted]); a chunked body is decoded to the concatenation of its chunks, and no
    decoded body is larger than the limit ([chunked_exact]). *)

From S2P Require Import Prelude Text.

#[local] Arguments String.append !_ _ /.

Definition quote_char : Z := 34.
Definition backslash : Z := 92.

Definition lower (value : string) : string := string_map tolower value.

(** Without the characters at the end that pass a test. *)
Fixpoint drop_end (p : ascii -> bool) (s : string) : string :=
  match s with
  | EmptyString => ""
  | String c s' =>
      match drop_end p s' with
      | EmptyString => if p c then "" else String c ""
      | rest => String c rest
      end
  end.

Definition trim (value : string) : string := drop_end isspace (drop_while isspace value).

(** ** JSON strings and members *)

Definition unescape (e : ascii) : option ascii :=
  if is_char 34 e || is_char 92 e || is_char 47 e then Some e
  else if is_char 98 e then Some (char_of 8)
  else if is_char 102 e then Some (char_of 12)
  else if is_char 110 e then Some (char_of 10)
  else if is_char 114 e then Some (char_of 13)
  else if is_char 116 e then Some (char_of 9)
  else None.

(** The loop of [json_unescape_string], after the opening quote: the value and the rest. *)
Fixpoint unescape_loop (s : string) : result (string * string) :=
  match s with
  | EmptyString => Throw "unterminated JSON string"
  | String c s' =>
      if is_char quote_char c then Ok ("", s')
      else if negb (is_char backslash c) then
        if code c <? 32 then Throw "control byte in JSON string"
        else let? (value, rest) := unescape_loop s' in Ok (String c value, rest)
      else
        match s' with
        | EmptyString => Throw "unterminated JSON escape"
        | String e s'' =>
            match unescape e with
            | None => Throw "unsupported JSON escape"
            | Some ch => let? (value, rest) := unescape_loop s'' in Ok (String ch value, rest)
            end
        end
  end.

Definition json_unescape_string (text : string) : result (string * string) :=
  match text with
  | String c rest => if is_char quote_char c then unescape_loop rest else Throw "expected JSON string"
  | EmptyString => Throw "expected JSON string"
  end.

Definition skip_space (text : string) : string := drop_while isspace text.

(** The first character passes the test. *)
Definition begins (p : ascii -> bool) (s : string) : bool :=
  match s with String c _ => p c | EmptyString => false end.
Definition behind (s : string) : string := match s with String _ s' => s' | EmptyString => "" end.

(** The inner loop of [object_member_string]: skip a value and the comma after it. *)
Fixpoint skip_value (in_string escaped : bool) (nested : Z) (s : string) : string :=
  match s with
  | EmptyString => ""
  | String c s' =>
      if in_string then
        if escaped then skip_value true false nested s'
        else if is_char backslash c then skip_value true true nested s'
        else skip_value (negb (is_char quote_char c)) false nested s'
      else if is_char quote_char c then skip_value true escaped nested s'
      else if is_char 123 c || is_char 91 c then skip_value false escaped (nested + 1) s'
      else if is_char 125 c || is_char 93 c then
        if nested =? 0 then s else skip_value false escaped (nested - 1) s'
      else if is_char 44 c && (nested =? 0) then s'
      else skip_value false escaped nested s'
  end.

Fixpoint object_member_loop (fuel : nat) (key s : string) : result (option string) :=
  match fuel with
  | O => Throw "fuel"
  | S fuel =>
      let s := skip_space s in
      if begins (is_char 125) s then Ok None
      else
        let? (current_key, s) := json_unescape_string s in
        let s := skip_space s in
        if negb (begins (is_char 58) s) then Throw "expected JSON member separator"
        else
          let s := skip_space (behind s) in
          if bool_decide (current_key = key) then
            if bool_decide (substr s 0 4 = "null") then Ok None
            else let? (value, _) := json_unescape_string s in Ok (Some value)
          else object_member_loop fuel key (skip_value false false 0 s)
  end.

Definition object_member_string (object key : string) : result (option string) :=
  let s := skip_space object in
  if negb (begins (is_char 123) s) then Throw "expected JSON object"
  else object_member_loop (S (String.length s)) key (behind s).

Definition quoted_key (key : string) : string := String "034" key +:+ String "034" "".

(** The inner loop of [object_member_object]: the text up to the brace that closes the object. *)
Fixpoint object_text (in_string escaped : bool) (depth : Z) (s : string) : option string :=
  match s with
  | EmptyString => None
  | String c s' =>
      let more in_string escaped depth := String c <$> object_text in_string escaped depth s' in
      if in_string then
        if escaped then more true false depth
        else if is_char backslash c then more true true depth
        else more (negb (is_char quote_char c)) false depth
      else if is_char quote_char c then more true escaped depth
      else if is_char 123 c then more false escaped (depth + 1)
      else if is_char 125 c then
        if depth - 1 =? 0 then Some (String c "") else more false escaped (depth - 1)
      else more false escaped depth
  end.

Fixpoint member_object_loop (fuel : nat) (key s : string) : result (option string) :=
  match fuel with
  | O => Throw "fuel"
  | S fuel =>
      match find_from s (quoted_key key) 0 with
      | None => Ok None
      | Some at_ =>
          let after := substr_from s (at_ + String.length (quoted_key key)) in
          let s := skip_space after in
          if negb (begins (is_char 58) s) then member_object_loop fuel key after
          else
            let s := skip_space (behind s) in
            if bool_decide (substr s 0 4 = "null") then Ok None
            else if negb (begins (is_char 123) s) then Throw (key +:+ " must be a JSON object")
            else match object_text false false 0 s with
                 | Some object => Ok (Some object)
                 | None => Throw ("unterminated JSON object member: " +:+ key)
                 end
      end
  end.

Definition object_member_object (object key : string) : result (option string) :=
  member_object_loop (S (String.length object)) key object.

Definition require_member (object key : string) : result string :=
  let? value := object_member_string object key in
  match value with
  | None | Some EmptyString => Throw ("upgrade instruction missing " +:+ key)
  | Some value => Ok value
  end.

(** ** Digests, identifiers and names *)

Definition is_hex (value : string) (size : nat) : bool :=
  (String.length value =? size)%nat && string_all isxdigit value.

Fixpoint uuid_chars (i : nat) (s : string) : bool :=
  match s with
  | EmptyString => true
  | String c s' =>
      (if bool_decide (i = 8 \/ i = 13 \/ i = 18 \/ i = 23)%nat then is_char 45 c else isxdigit c) && uuid_chars (S i) s'
  end.

Definition looks_like_uuid (value : string) : bool :=
  (String.length value =? 36)%nat && uuid_chars 0 value.

Definition strip_prefix (prefix s : string) : string :=
  if starts_with prefix s then substr_from s (String.length prefix) else s.

Definition normalize_sha256 (value : string) : result string :=
  let value := strip_prefix "sha256:" (lower (trim value)) in
  if is_hex value 64 then Ok value else Throw "upgrade artifact SHA-256 is invalid".

Definition has_char (n : Z) (s : string) : bool := negb (string_all (fun c => negb (is_char n c)) s).

Definition validate_artifact_name (name : string) : result unit :=
  throw_if (bool_decide (name = "") || bool_decide (name = ".") || bool_decide (name = "..") ||
            has_char 47 name || has_char 92 name || has_char 0 name)
    "upgrade artifact name must be a single safe file name".

(** ** Addresses *)

Record ParsedHttpsUrl := MkHttpsUrl { hu_host : string; hu_port : string; hu_path : string }.

Definition github_suffix : string := ".githubusercontent.com".

Definition ends_with (suffix s : string) : bool :=
  (String.length suffix <=? String.length s)%nat &&
  bool_decide (substr_from s (String.length s - String.length suffix) = suffix).

Definition is_trusted_github_host (host : string) : bool :=
  let normalized := lower host in
  bool_decide (normalized = "github.com") ||
  ((String.length github_suffix <? String.length normalized)%nat && ends_with github_suffix normalized).

(** Before and after the last character that passes a test. *)
Fixpoint split_last (p : ascii -> bool) (s : string) : option (string * string) :=
  match s with
  | EmptyString => None
  | String c s' =>
      match split_last p s' with
      | Some (before, after) => Some (String c before, after)
      | None => if p c then Some ("", s') else None
      end
  end.

Definition parse_trusted_https_url (url : string) : result ParsedHttpsUrl :=
  if negb (starts_with "https://" url) then Throw "upgrade artifact URL must use https://"
  else if has_char 35 url then Throw "upgrade artifact URL must not contain a fragment"
  else
    let rest := substr_from url 8 in
    let authority := take_while (fun c => negb (is_char 47 c)) rest in
    let path := drop_while (fun c => negb (is_char 47 c)) rest in
    if bool_decide (authority = "") || has_char 64 authority then Throw "upgrade artifact URL authority is invalid"
    else
      let '(host, port) := match split_last (is_char 58) authority with
                           | Some (before, after) => (before, after)
                           | None => (authority, "443")
                           end in
      let host := lower host in
      if bool_decide (host = "") || negb (bool_decide (port = "443")) || negb (is_trusted_github_host host)
      then Throw "upgrade artifact URL must use trusted GitHub HTTPS hosting on port 443"
      else Ok (MkHttpsUrl host port (if bool_decide (path = "") then "/" else path)).

(** ** What the server sends *)

(** [std::getline] until it fails: the lines of a text, the last one with or without its line feed. *)
Fixpoint lines (s : string) : list string :=
  match s with
  | EmptyString => []
  | String c s' =>
      if is_char 10 c then "" :: lines s'
      else match lines s' with
           | [] => [String c ""]
           | line :: rest => String c line :: rest
           end
  end.

Definition before_char (n : Z) (s : string) : string := take_while (fun c => negb (is_char n c)) s.
Definition after_char (n : Z) (s : string) : string := behind (drop_while (fun c => negb (is_char n c)) s).

Fixpoint header_search (wanted : string) (ls : list string) : string :=
  match ls with
  | [] => ""
  | line :: ls =>
      let line := match back line with
                  | Some c => if is_char 13 c then pop_back line else line
                  | None => line
                  end in
      if has_char 58 line && bool_decide (lower (trim (before_char 58 line)) = wanted)
      then trim (after_char 58 line) else header_search wanted ls
  end.

Definition header_value (headers wanted : string) : string := header_search (lower wanted) (tail (lines headers)).

Definition crlf : string := String "013" (String "010" "").

(** A hexadecimal digit and [std::from_chars(..., chunk_size, 16)] on a whole text. *)
Definition hex_digit_value (c : ascii) : Z :=
  if isdigit c then code c - 48 else if isupper c then code c - 55 else code c - 87.

Fixpoint hex_digits_value (acc : Z) (s : string) : Z :=
  match s with
  | EmptyString => acc
  | String c s' => hex_digits_value (16 * acc + hex_digit_value c) s'
  end.

Definition from_chars_hex (digits : string) : option Z :=
  if bool_decide (digits = "") || negb (string_all isxdigit digits) || (u64_max <? hex_digits_value 0 digits) then None
  else Some (hex_digits_value 0 digits).

Fixpoint chunk_loop (fuel : nat) (max_bytes : Z) (output input : string) : result string :=
  match fuel with
  | O => Throw "fuel"
  | S fuel =>
      match find_from input crlf 0 with
      | None => Throw "invalid chunked artifact response"
      | Some line_end =>
          let size_text := trim (before_char 59 (substr input 0 line_end)) in
          match from_chars_hex size_text with
          | None => Throw "invalid chunk size in artifact response"
          | Some chunk_size =>
              let input := substr_from input (line_end + 2) in
              if chunk_size =? 0 then Ok output
              else if max_bytes - Z.of_nat (String.length output) <? chunk_size
              then Throw "upgrade artifact exceeds configured size limit"
              else if Z.of_nat (String.length input) <? chunk_size then Throw "truncated chunked artifact response"
              else
                let size := Z.to_nat chunk_size in
                let output := output +:+ substr input 0 size in
                let input := substr_from input size in
                if negb (starts_with crlf input) then Throw "invalid chunk terminator in artifact response"
                else chunk_loop fuel max_bytes output (substr_from input 2)
          end
      end
  end.

Definition decode_chunked (input : string) (max_bytes : Z) : result string :=
  chunk_loop (S (String.length input)) max_bytes "" input.

Record HttpGetResponse := MkResponse { hr_status : Z; hr_headers : string; hr_body : string }.

(** [stream >> number] for an [int]: 0 without digits, the nearest bound out of range. *)
Definition stream_int (s : string) : Z :=
  let s := drop_while isspace s in
  let '(negative, s) :=
    match s with
    | String c s' => if is_char 45 c then (true, s') else if is_char 43 c then (false, s') else (false, s)
    | EmptyString => (false, s)
    end in
  let value := digits_value 0 (take_while isdigit s) in
  Z.max (- 2 ^ 31) (Z.min (2 ^ 31 - 1) (if negative : bool then - value else value)).

(** [stream >> word >> number] *)
Definition status_of (line : string) : Z :=
  let s := drop_while isspace line in
  let word := take_while (fun c => negb (isspace c)) s in
  if bool_decide (word = "") then 0 else stream_int (drop_while (fun c => negb (isspace c)) s).

Definition contains_text (s needle : string) : bool := has (find_from s needle 0).

(** [https_get_once] from the received bytes on. *)
Definition read_response (response : string) (max_bytes : Z) : result HttpGetResponse :=
  match find_from response (crlf +:+ crlf) 0 with
  | None => Throw "invalid HTTP response while downloading upgrade"
  | Some header_end =>
      let headers := substr response 0 (header_end + 2) in
      let status := status_of (match find_from response crlf 0 with
                               | Some n => substr response 0 n
                               | None => response
                               end) in
      if status <=? 0 then Throw "invalid HTTP status while downloading upgrade"
      else
        let body := substr_from response (header_end + 4) in
        if contains_text (lower (header_value headers "Transfer-Encoding")) "chunked" then
          let? body := decode_chunked body max_bytes in Ok (MkResponse status headers body)
        else
          let content_length := header_value headers "Content-Length" in
          let? _ :=
            if bool_decide (content_length = "") then Ok tt
            else match from_chars_u64 content_length with
                 | None => Throw "invalid Content-Length while downloading upgrade"
                 | Some declared =>
                     let? _ := throw_if (max_bytes <? declared) "upgrade artifact exceeds configured size limit" in
                     throw_if (negb (Z.of_nat (String.length body) =? declared)) "truncated upgrade artifact response"
                 end in
          let? _ := throw_if (max_bytes <? Z.of_nat (String.length body)) "upgrade artifact exceeds configured size limit" in
          Ok (MkResponse status headers body)
  end.

(** The bytes a verified server sends for a request, or why the connection failed. *)
Class Https := https_exchange : ParsedHttpsUrl -> result string.

Definition header_allowance : Z := 1024 * 1024.

Section download.
Context `{Https}.

Definition https_get_once (url : ParsedHttpsUrl) (max_bytes : Z) : result HttpGetResponse :=
  let? response := https_exchange url in
  let? _ := throw_if (u64_max - header_allowance <? max_bytes) "upgrade size limit is too large" in
  let? _ := throw_if (max_bytes + header_allowance <? Z.of_nat (String.length response))
              "upgrade artifact exceeds configured size limit" in
  read_response response max_bytes.

Definition is_redirect (status : Z) : bool :=
  (status =? 301) || (status =? 302) || (status =? 303) || (status =? 307) || (status =? 308).

Fixpoint redirect_loop (attempts : nat) (url : string) (max_bytes : Z) : result string :=
  match attempts with
  | O => Throw "upgrade artifact download exceeded redirect limit"
  | S attempts =>
      let? parsed := parse_trusted_https_url url in
      let? response := https_get_once parsed max_bytes in
      if hr_status response =? 200 then Ok (hr_body response)
      else if is_redirect (hr_status response) then
        let location := header_value (hr_headers response) "Location" in
        let? _ := throw_if (bool_decide (location = "")) "upgrade download redirect is missing Location" in
        let? _ := parse_trusted_https_url location in
        redirect_loop attempts location max_bytes
      else Throw ("upgrade artifact download failed with HTTP " +:+ to_string (hr_status response))
  end.

Definition https_download_body (url : string) (max_bytes : Z) : result string := redirect_loop 6 url max_bytes.

End download.

(** ** Slicing *)

Lemma substr_from_app a b : substr_from (a +:+ b) (String.length a) = b.
Proof.
  unfold substr_from. rewrite string_length_app.
  replace (String.length a + String.length b - String.length a)%nat with (String.length b) by lia.
  rewrite substring_app_skip. apply substring_0_full.
Qed.

Lemma substr_from_app' a b n : n = String.length a -> substr_from (a +:+ b) n = b.
Proof. intros ->. apply substr_from_app. Qed.

Lemma take_drop_while p s : take_while p s +:+ drop_while p s = s.
Proof. induction s as [|c s IH]; [done|]. cbn. destruct (p c); cbn; [by rewrite IH|done]. Qed.

Lemma drop_while_begins p s : begins p (drop_while p s) = false.
Proof. induction s as [|c s IH]; [done|]. cbn. destruct (p c) eqn:E; [done|]. cbn. done. Qed.

Lemma take_while_split p a b : string_all p a = true -> begins p b = false -> take_while p (a +:+ b) = a /\ drop_while p (a +:+ b) = b.
Proof.
  induction a as [|c a IH]; cbn.
  - intros _ Hb. destruct b as [|d b]; [done|]. cbn in *. by rewrite Hb.
  - intros [Hc Ha]%andb_true_iff Hb. rewrite Hc. by destruct (IH Ha Hb) as [-> ->].
Qed.

Lemma has_char_false n s : has_char n s = false <-> string_all (fun c => negb (is_char n c)) s = true.
Proof. unfold has_char. apply negb_false_iff. Qed.

Lemma has_char_app n a b : has_char n (a +:+ b) = has_char n a || has_char n b.
Proof. unfold has_char. by rewrite string_all_app, negb_andb. Qed.

Lemma split_last_spec p s :
  match split_last p s with
  | Some (before, after) => exists c, s = before +:+ String c after /\ p c = true /\ string_all (fun c => negb (p c)) after = true
  | None => string_all (fun c => negb (p c)) s = true
  end.
Proof.
  induction s as [|c s IH]; [done|]. cbn. destruct (split_last p s) as [[before after]|].
  - destruct IH as (d & -> & Hd & Ha). by exists d.
  - destruct (p c) eqn:E; [by exists c|]. by rewrite IH.
Qed.

Lemma split_last_none p s : string_all (fun c => negb (p c)) s = true -> split_last p s = None.
Proof.
  induction s as [|c s IH]; [done|]. cbn. intros [Hc Hs]%andb_true_iff. rewrite IH by done. apply negb_true_iff in Hc. by rewrite Hc.
Qed.

Lemma split_last_app p a c b :
  p c = true -> string_all (fun c => negb (p c)) b = true -> split_last p (a +:+ String c b) = Some (a, b).
Proof.
  intros Hc Hb. induction a as [|d a IH]; cbn; [rewrite split_last_none by done; by rewrite Hc|by rewrite IH].
Qed.

Lemma find_from_spec needle s n :
  needle <> "" -> find_from s needle 0 = Some n ->
  exists a b, s = a +:+ needle +:+ b /\ String.length a = n /\ absent needle a (needle +:+ b) = true.
Proof.
  intros Hne. unfold find_from. revert n. induction s as [|c s IH]; intros n; cbn [String.index].
  - destruct needle; [done|]. done.
  - destruct needle as [|x needle]; [done|]. destruct (String.prefix (String x needle) (String c s)) eqn:Ep.
    + intros [= <-]. apply starts_with_spec in Ep as [rest E]. by exists "", rest.
    + destruct (String.index 0 (String x needle) s) as [m|]; [|done]. intros [= <-].
      destruct (IH m eq_refl) as (a & b & -> & <- & Ha). exists (String c a), b. split_and!; [done..|].
      cbn [absent]. rewrite Ha. unfold starts_with. cbn [String.append] in *. by rewrite Ep.
Qed.

(** ** Trusted addresses *)

Lemma lower_idemp s : lower (lower s) = lower s.
Proof. unfold lower. induction s as [|c s IH]; [done|]. cbn. rewrite IH. f_equal. by destruct c as [[] [] [] [] [] [] [] []]. Qed.

Lemma ends_with_spec suffix s : ends_with suffix s = true <-> exists label, s = label +:+ suffix.
Proof.
  unfold ends_with. split.
  - intros [Hl%Nat.leb_le E%bool_decide_eq_true]%andb_true_iff. exists (substr s 0 (String.length s - String.length suffix)).
    destruct (substr_prefix s (String.length s - String.length suffix)) as [rest Er]. rewrite Er in E at 1.
    rewrite substr_from_app' in E by (rewrite substr_length; lia). subst rest. exact Er.
  - intros [label ->]. rewrite string_length_app. apply andb_true_iff. split; [apply Nat.leb_le; lia|].
    apply bool_decide_eq_true. apply substr_from_app'. lia.
Qed.

(** A host the agent downloads from, in lower case. *)
Definition github_host (host : string) : Prop :=
  host = "github.com" \/ exists label, label <> "" /\ host = label +:+ ".githubusercontent.com".

Lemma trusted_host_iff host : is_trusted_github_host host = true <-> github_host (lower host).
Proof.
  unfold is_trusted_github_host, github_host. rewrite orb_true_iff, bool_decide_eq_true, andb_true_iff, Nat.ltb_lt, ends_with_spec.
  split; (intros [?|H]; [by left|right]).
  - destruct H as [Hl [label E]]. exists label. split; [|done]. intros ->. rewrite E in Hl. cbn in Hl. lia.
  - destruct H as (label & Hne & E). split; [|by exists label]. rewrite E, string_length_app. destruct label; [done|]. cbn. lia.
Qed.

Lemma github_host_nonempty host : github_host host -> host <> "".
Proof. intros [->|(label & Hne & ->)]; [done|]. by destruct label. Qed.

(** [url] addresses [path] on the host [name], on the default port or on port 443. *)
Definition addresses (url name path : string) : Prop :=
  exists authority,
    url = "https://" +:+ authority +:+ path /\ (authority = name /\ has_char 58 name = false \/ authority = name +:+ ":443") /\
    has_char 47 authority = false /\ has_char 64 authority = false /\ has_char 35 url = false /\
    (path = "" \/ begins (is_char 47) path = true).

Lemma port_split authority host port :
  (match split_last (is_char 58) authority with Some (before, after) => (before, after) | None => (authority, "443") end) = (host, port) ->
  port = "443" <-> authority = host /\ has_char 58 host = false \/ authority = host +:+ ":443".
Proof.
  pose proof (split_last_spec (is_char 58) authority) as Hs. destruct (split_last _ authority) as [[before after]|].
  - intros [= <- <-]. destruct Hs as (c & -> & Hc & Ha). split.
    + intros ->. right. f_equal. f_equal. apply Z.eqb_eq in Hc. unfold code in Hc. by destruct c as [[] [] [] [] [] [] [] []].
    + intros [[E _]|E].
      * exfalso. apply (f_equal String.length) in E. rewrite string_length_app in E. cbn in E. lia.
      * apply string_app_inv_l in E. by injection E.
  - intros [= <- <-]. rewrite has_char_false. split; [by left|done].
Qed.

(** An upgrade address is accepted exactly when it is an https address, without user and fragment
    parts, of github.com or of a subdomain of githubusercontent.com (in any case of letters), on
    the default port or port 443; the parsed address has the host in lower case, that port, and
    the rest of the text (or a slash) as path. *)
Theorem trusted_url_exact url p :
  parse_trusted_https_url url = Ok p <->
  exists name path, addresses url name path /\ github_host (lower name) /\
    p = MkHttpsUrl (lower name) "443" (if bool_decide (path = "") then "/" else path).
Proof.
  unfold parse_trusted_https_url, addresses. split.
  - destruct (starts_with "https://" url) eqn:Es; [|done]. apply starts_with_spec in Es as [rest ->]. cbn [negb].
    destruct (has_char 35 _) eqn:Ef; [done|]. rewrite (substr_from_app' "https://") by done.
    set (authority := take_while _ rest). set (path := drop_while _ rest).
    assert (Hsplit : rest = authority +:+ path) by (symmetry; apply take_drop_while).
    destruct (_ || _) eqn:Ea; [done|]. apply orb_false_iff in Ea as [_ Ea].
    destruct (match split_last _ authority with Some _ => _ | None => _ end) as [host port] eqn:Ep.
    pose proof (port_split _ _ _ Ep) as Hp. cbn zeta. destruct (_ || _) eqn:Eh; [done|].
    intros [= <-]. to_prop. subst port. exists host, path. split_and!; [| |done].
    + exists authority. rewrite <- Hsplit. split_and!; [done|by apply Hp|apply has_char_false, take_while_string_all|done|done|].
      subst path. destruct (drop_while _ rest) as [|c r] eqn:Ed; [by left|]. right.
      pose proof (drop_while_begins (fun c => negb (is_char 47 c)) rest) as Hb. rewrite Ed in Hb. cbn in *. by apply negb_false_iff in Hb.
    + match goal with H : is_trusted_github_host _ = true |- _ => apply trusted_host_iff in H; by rewrite lower_idemp in H end.
  - intros (name & path & (authority & Eu & Ha & H1 & H2 & Hf & Hpath) & Hh & ->). rewrite Hf. rewrite Eu, starts_with_app. cbn [negb].
    rewrite (substr_from_app' "https://") by done.
    destruct (take_while_split (fun c => negb (is_char 47 c)) authority path) as [-> ->];
      [by apply has_char_false|destruct Hpath as [->|Hp]; [done|]; destruct path; [done|]; cbn in *; by rewrite Hp|].
    assert (Hne : authority <> "").
    { apply github_host_nonempty in Hh. destruct Ha as [[E _]|E]; rewrite E; by destruct name. }
    rewrite (bool_decide_eq_false_2 (authority = "")), H2 by done. cbn [orb].
    assert (Ep : (match split_last (is_char 58) authority with Some (before, after) => (before, after) | None => (authority, "443") end) = (name, "443")).
    { destruct Ha as [[-> Hn]| ->]; [by rewrite split_last_none by by apply has_char_false|]. by rewrite (split_last_app _ name ":" "443"). }
    rewrite Ep. cbn zeta. rewrite (bool_decide_eq_false_2 (lower name = "")) by by apply github_host_nonempty.
    rewrite bool_decide_eq_true_2 by done. rewrite (proj2 (trusted_host_iff (lower name))) by by rewrite lower_idemp. done.
Qed.

(** ** Chunked bodies *)

Definition chunk_size_of (line : string) : option Z := from_chars_hex (trim (before_char 59 line)).

(** The grammar of a chunked body: size lines with their chunks, up to a line of size zero. *)
Inductive chunked : string -> list string -> Prop :=
| chunked_end line rest :
    absent crlf line (crlf +:+ rest) = true -> chunk_size_of line = Some 0 -> chunked (line +:+ crlf +:+ rest) []
| chunked_more line chunk rest chunks :
    absent crlf line (crlf +:+ chunk +:+ crlf +:+ rest) = true ->
    chunk_size_of line = Some (Z.of_nat (String.length chunk)) -> chunk <> "" ->
    chunked rest chunks -> chunked (line +:+ crlf +:+ chunk +:+ crlf +:+ rest) (chunk :: chunks).

Lemma from_chars_hex_nonneg s z : from_chars_hex s = Some z -> 0 <= z.
Proof.
  unfold from_chars_hex. destruct (_ || _) eqn:E; [done|]. intros [= <-]. to_prop.
  enough (G : forall acc, 0 <= acc -> string_all isxdigit s = true -> 0 <= hex_digits_value acc s) by by apply G.
  clear. induction s as [|c s IH]; intros acc Ha; cbn; [done|]. intros [Hc Hs]%andb_true_iff. apply IH; [|done].
  assert (0 <= hex_digit_value c); [|lia]. unfold isxdigit, hex_digit_value, isdigit, isupper in *.
  repeat match goal with |- context [if ?b then _ else _] => destruct b eqn:? end; to_prop; [lia..|].
  apply orb_true_iff in Hc as [Hc|Hc]; [apply orb_true_iff in Hc as [Hc|Hc]|]; to_prop; [|lia..].
  match goal with H : _ && _ = false |- _ => apply andb_false_iff in H as [H|H]; to_prop; lia end.
Qed.

Lemma concat_cons a l : String.concat "" (a :: l) = a +:+ String.concat "" l.
Proof. destruct l; cbn; [by rewrite string_app_nil_r|done]. Qed.

Lemma chunk_line_found line rest :
  absent crlf line (crlf +:+ rest) = true ->
  find_from (line +:+ crlf +:+ rest) crlf 0 = Some (String.length line) /\
  substr (line +:+ crlf +:+ rest) 0 (String.length line) = line /\
  substr_from (line +:+ crlf +:+ rest) (String.length line + 2) = rest.
Proof.
  intros Ha. split_and!; [by apply find_absent|apply substring_0_app|].
  rewrite <- string_app_assoc. apply substr_from_app'. by rewrite string_length_app.
Qed.

Lemma chunk_loop_sound fuel max_bytes output input out :
  chunk_loop fuel max_bytes output input = Ok out ->
  exists chunks, chunked input chunks /\ out = output +:+ String.concat "" chunks /\
    (chunks = [] \/ Z.of_nat (String.length out) <= max_bytes).
Proof.
  revert output input. induction fuel as [|fuel IH]; intros output input; [done|]. cbn [chunk_loop].
  destruct (find_from input crlf 0) as [n|] eqn:Ef; [|done]. apply find_from_spec in Ef as (line & rest & -> & <- & Ha); [|done].
  destruct (chunk_line_found line rest Ha) as (_ & -> & ->). cbn zeta. fold (chunk_size_of line).
  destruct (chunk_size_of line) as [size|] eqn:Es; [|done].
  destruct (Z.eqb_spec size 0) as [->|Hz].
  { intros [= <-]. exists []. cbn. rewrite string_app_nil_r. split_and!; [by apply chunked_end|done|by left]. }
  pose proof (from_chars_hex_nonneg _ _ Es) as Hnn.
  destruct (Z.ltb_spec (max_bytes - Z.of_nat (String.length output)) size) as [|Hmax]; [done|].
  destruct (Z.ltb_spec (Z.of_nat (String.length rest)) size) as [|Hlen]; [done|].
  destruct (substr_prefix rest (Z.to_nat size)) as [tail Et]. set (chunk := substr rest 0 (Z.to_nat size)) in *.
  assert (Hc : String.length chunk = Z.to_nat size) by (unfold chunk; rewrite substr_length; lia).
  assert (Etail : substr_from rest (Z.to_nat size) = tail) by (rewrite Et; by apply substr_from_app').
  rewrite Etail. destruct (starts_with crlf tail) eqn:Ec; [|done]. apply starts_with_spec in Ec as [more ->].
  rewrite (substr_from_app' crlf more 2) by done. cbn [negb]. intros Hloop. apply IH in Hloop as (chunks & Hch & -> & Hb).
  exists (chunk :: chunks). rewrite concat_cons, string_app_assoc. split_and!; [|done|right].
  - rewrite Et. apply chunked_more; [by rewrite <- Et|rewrite Es; f_equal; lia| |done]. intros E. rewrite E in Hc. cbn in Hc. lia.
  - destruct Hb as [->|Hb]; [|by rewrite string_app_assoc in Hb]. cbn. rewrite !string_length_app. cbn. lia.
Qed.

Lemma chunk_loop_complete fuel max_bytes output input chunks :
  chunked input chunks -> (String.length input < fuel)%nat ->
  Z.of_nat (String.length output + String.length (String.concat "" chunks)) <= max_bytes ->
  chunk_loop fuel max_bytes output input = Ok (output +:+ String.concat "" chunks).
Proof.
  intros Hch. revert fuel output. induction Hch as [line rest Ha Hs|line chunk rest chunks Ha Hs Hne Hch IH];
    intros [|fuel] output Hf Hmax; [lia| |lia|]; cbn [chunk_loop].
  - destruct (chunk_line_found line rest Ha) as (-> & -> & _). cbn zeta. fold (chunk_size_of line). rewrite Hs.
    cbn. by rewrite string_app_nil_r.
  - destruct (chunk_line_found _ _ Ha) as (-> & -> & ->). cbn zeta. fold (chunk_size_of line). rewrite Hs.
    rewrite concat_cons, string_length_app in Hmax. rewrite !string_length_app in Hf.
    rewrite (proj2 (Z.eqb_neq _ _)) by (destruct chunk; [done|cbn; lia]).
    rewrite !(proj2 (Z.ltb_ge _ _)) by (rewrite ?string_length_app; lia). rewrite Nat2Z.id.
    unfold substr at 1. rewrite substring_0_app, substr_from_app, starts_with_app. cbn [negb].
    rewrite (substr_from_app' crlf rest 2), concat_cons, <- string_app_assoc by done.
    assert (String.length crlf = 2%nat) by done. apply IH; [lia|rewrite string_length_app; lia].
Qed.

(** C28: The decoder of chunked responses accepts exactly the texts of the chunk grammar whose chunks
    together fit the limit, and returns their concatenation: it always stops, never returns more
    than the limit, and never drops or repeats a byte. *)
Theorem chunked_exact input max_bytes out :
  0 <= max_bytes ->
  decode_chunked input max_bytes = Ok out <->
  exists chunks, chunked input chunks /\ out = String.concat "" chunks /\ Z.of_nat (String.length out) <= max_bytes.
Proof.
  intros Hmax. unfold decode_chunked. split.
  - intros H. apply chunk_loop_sound in H as (chunks & Hch & -> & Hb). exists chunks. split_and!; [done|done|].
    destruct Hb as [->|Hb]; [done|exact Hb].
  - intros (chunks & Hch & -> & Hb). apply (chunk_loop_complete _ _ ""); [done|lia|]. cbn. lia.
Qed.

Definition two_chunks : string := "3;x=1" +:+ crlf +:+ "abc" +:+ crlf +:+ "A" +:+ crlf +:+ "0123456789" +:+ crlf +:+ "0" +:+ crlf +:+ crlf.

Lemma chunked_exact_witness :
  decode_chunked two_chunks 13 = Ok "abc0123456789" /\ is_ok (decode_chunked two_chunks 12) = false /\
  exists chunks, chunked two_chunks chunks /\ "abc0123456789" = String.concat "" chunks.
Proof.
  split; [reflexivity|]. split; [reflexivity|].
  destruct (proj1 (chunked_exact two_chunks 13 "abc0123456789" ltac:(lia)) eq_refl) as (chunks & H1 & H2 & _). by exists chunks.
Defined.

(** ** Where a download connects to *)

Lemma parsed_host_trusted url p : parse_trusted_https_url url = Ok p -> is_trusted_github_host (hu_host p) = true.
Proof.
  unfold parse_trusted_https_url. destruct (negb _); [done|]. destruct (has_char 35 url); [done|]. cbn zeta.
  destruct (_ || _); [done|]. destruct (match split_last _ _ with Some _ => _ | None => _ end) as [host port].
  destruct (_ || _) eqn:E; [done|]. intros [= <-]. cbn [hu_host]. by to_prop.
Qed.

(** C29: A download talks to trusted GitHub hosts only, through every redirect: its result is decided by
    what those hosts answer, whatever any other server would answer. *)
Theorem download_only_trusted (answer answer' : Https) url max_bytes :
  (forall p, is_trusted_github_host (hu_host p) = true -> answer p = answer' p) ->
  https_download_body (H := answer) url max_bytes = https_download_body (H := answer') url max_bytes.
Proof.
  intros Hsame. unfold https_download_body. generalize 6%nat. intros attempts. revert url.
  induction attempts as [|attempts IH]; intros url; [done|]. cbn [redirect_loop].
  destruct (parse_trusted_https_url url) as [p|m] eqn:Ep; [|done]. cbn [rbind]. apply parsed_host_trusted in Ep.
  assert (Hget : https_get_once (H := answer) p max_bytes = https_get_once (H := answer') p max_bytes)
    by (unfold https_get_once, https_exchange; by rewrite (Hsame p Ep)).
  rewrite Hget. destruct (https_get_once (H := answer') p max_bytes) as [response|m]; cbn [rbind]; [|reflexivity]. cbn [rbind].
  destruct (hr_status response =? 200); [reflexivity|]. destruct (is_redirect _); [|reflexivity].
  destruct (throw_if _ _); [|reflexivity]. cbn [rbind]. destruct (parse_trusted_https_url _); [|reflexivity]. cbn [rbind]. apply IH.
Qed.

Definition redirect_answer (p : ParsedHttpsUrl) : string :=
  if bool_decide (hu_host p = "github.com")
  then "HTTP/1.1 302 Found" +:+ crlf +:+ "Location: https://objects.githubusercontent.com/file" +:+ crlf +:+ crlf
  else "HTTP/1.1 200 OK" +:+ crlf +:+ "Content-Length: 4" +:+ crlf +:+ crlf +:+ "data".

Definition github_only : Https := fun p => if is_trusted_github_host (hu_host p) then Ok (redirect_answer p) else Throw "no route".
Definition any_server : Https := fun p => Ok (redirect_answer p).

Lemma download_only_trusted_witness :
  https_download_body (H := github_only) "https://github.com/neta/release" 1024 = Ok "data" /\
  https_download_body (H := github_only) "https://github.com/neta/release" 1024 =
  https_download_body (H := any_server) "https://github.com/neta/release" 1024.
Proof.
  split; [vm_compute; reflexivity|]. apply download_only_trusted. intros p Hp. unfold github_only, any_server. by rewrite Hp.
Defined.
