(* ===== verification/UpgradeStore.v ===== *)
(** The local upgrade state ([src/core/upgrade.cpp], second half): instructions, the durable state
    file, accepting an instruction and downloading its artifact.

    [Host] is what the updater works on; every operation on it may fail or be the point where the
    process is killed ([Faults]).  The state, the activation record and the build metadata are
    replaced by [atomic_write], a [replace_file] of which closing the temporary file may lose a part
    without an error; the field [h_lost] records that this has happened.

    The theorems: a saved state reads back exactly when its texts are readable, and the texts that
    are not ([state_round_trip]); a state file that was cut off reads as the same state or not at all
    ([cut_state_read_back]); accepting an instruction ([accept_exact]); whatever fails and whenever
    the process is killed, a state that says [VERIFIED] names an artifact with the digest of its
    instruction ([verified_artifact]). *)

From S2P Require Import Prelude Text Wire Faults Crypto NapSequence OutboundQueue Dispatcher UpgradeText.

#[local] Arguments String.append !_ _ /.
#[local] Open Scope io_scope.

(** The regular files below a directory, by their path inside it. *)
Notation Tree := (gmap string string).

Record Host := MkHost {
  h_state : option string;            (* state_dir/upgrade/current.json *)
  h_activation : option string;       (* state_dir/upgrade/activation.json *)
  h_installed : option string;        (* state_dir/installed-build.conf *)
  h_backup : option string;           (* state_dir/upgrade/installed-build.previous.conf *)
  h_absent : bool;                    (* state_dir/upgrade/installed-build.previous.absent *)
  h_artifacts : gmap string string;   (* downloaded files, by path *)
  h_versions : gmap string Tree;      (* install_root/versions/<name> *)
  h_current : option string;          (* the link install_root/current *)
  h_previous : option string;         (* the link install_root/previous *)
  h_running : bool;                   (* the agent service *)
  h_reports : list (string * string * string * string);     (* progress reports: upgrade, status, code, message *)
  h_lost : bool }.                    (* closing a file that was replaced has lost a part of it; nothing reads this *)

Definition set_state (v : option string) (h : Host) : Host :=
  MkHost v (h_activation h) (h_installed h) (h_backup h) (h_absent h) (h_artifacts h) (h_versions h) (h_current h) (h_previous h) (h_running h) (h_reports h) (h_lost h).
Definition set_activation (v : option string) (h : Host) : Host :=
  MkHost (h_state h) v (h_installed h) (h_backup h) (h_absent h) (h_artifacts h) (h_versions h) (h_current h) (h_previous h) (h_running h) (h_reports h) (h_lost h).
Definition set_installed (v : option string) (h : Host) : Host :=
  MkHost (h_state h) (h_activation h) v (h_backup h) (h_absent h) (h_artifacts h) (h_versions h) (h_current h) (h_previous h) (h_running h) (h_reports h) (h_lost h).
Definition set_backup (v : option string) (h : Host) : Host :=
  MkHost (h_state h) (h_activation h) (h_installed h) v (h_absent h) (h_artifacts h) (h_versions h) (h_current h) (h_previous h) (h_running h) (h_reports h) (h_lost h).
Definition set_absent (v : bool) (h : Host) : Host :=
  MkHost (h_state h) (h_activation h) (h_installed h) (h_backup h) v (h_artifacts h) (h_versions h) (h_current h) (h_previous h) (h_running h) (h_reports h) (h_lost h).
Definition set_artifacts (v : gmap string string) (h : Host) : Host :=
  MkHost (h_state h) (h_activation h) (h_installed h) (h_backup h) (h_absent h) v (h_versions h) (h_current h) (h_previous h) (h_running h) (h_reports h) (h_lost h).
Definition set_versions (v : gmap string Tree) (h : Host) : Host :=
  MkHost (h_state h) (h_activation h) (h_installed h) (h_backup h) (h_absent h) (h_artifacts h) v (h_current h) (h_previous h) (h_running h) (h_reports h) (h_lost h).
Definition set_current (v : option string) (h : Host) : Host :=
  MkHost (h_state h) (h_activation h) (h_installed h) (h_backup h) (h_absent h) (h_artifacts h) (h_versions h) v (h_previous h) (h_running h) (h_reports h) (h_lost h).
Definition set_previous (v : option string) (h : Host) : Host :=
  MkHost (h_state h) (h_activation h) (h_installed h) (h_backup h) (h_absent h) (h_artifacts h) (h_versions h) (h_current h) v (h_running h) (h_reports h) (h_lost h).
Definition set_running (v : bool) (h : Host) : Host :=
  MkHost (h_state h) (h_activation h) (h_installed h) (h_backup h) (h_absent h) (h_artifacts h) (h_versions h) (h_current h) (h_previous h) v (h_reports h) (h_lost h).
Definition add_report (r : string * string * string * string) (h : Host) : Host :=
  MkHost (h_state h) (h_activation h) (h_installed h) (h_backup h) (h_absent h) (h_artifacts h) (h_versions h) (h_current h) (h_previous h) (h_running h) (h_reports h ++ [r]) (h_lost h).

(** A file replaced with [content], of which only [cut] bytes may have reached it. *)
Definition installed (put : option string -> Host -> Host) (content : string) (cut : option nat) (h : Host) : Host :=
  match cut with
  | None => put (Some content) h
  | Some n => let h := put (Some (substr content 0 n)) h in
      MkHost (h_state h) (h_activation h) (h_installed h) (h_backup h) (h_absent h) (h_artifacts h) (h_versions h) (h_current h) (h_previous h) (h_running h) (h_reports h) true
  end.

Notation U := (IO Host).

(** As in the POSIX builds; on Windows a failed rename is tried again after removing the target. *)
Definition atomic_write (put : option string -> Host -> Host) (content : string) : U unit :=
  replace_file true "cannot atomically replace upgrade state: " (installed put content).

(** ** Data *)

Record BuildIdentity := MkBuild {
  bi_version : string; bi_build_id : string; bi_git_commit : string; bi_build_timestamp : string;
  bi_os : string; bi_arch : string; bi_artifact_sha256 : string;
  bi_protocol_version : Z; bi_schema_version : Z; bi_features : list string }.

Record UpgradeInstruction := MkInstruction {
  ui_upgrade_id : string; ui_version : string; ui_build_id : string; ui_git_commit : string;
  ui_os : string; ui_arch : string; ui_artifact_name : string; ui_download_url : string; ui_sha256 : string }.

Inductive UpgradeLocalState := Received | Downloading | Verified | UpgradeFailed.
#[global] Instance UpgradeLocalState_eq_dec : EqDecision UpgradeLocalState.
Proof. solve_decision. Defined.

Definition local_state_to_string (state : UpgradeLocalState) : string :=
  match state with
  | Received => "RECEIVED" | Downloading => "DOWNLOADING" | Verified => "VERIFIED" | UpgradeFailed => "FAILED"
  end.

Definition upgrade_local_state_from_string (value : string) : result UpgradeLocalState :=
  if bool_decide (value = "RECEIVED") then Ok Received
  else if bool_decide (value = "DOWNLOADING") then Ok Downloading
  else if bool_decide (value = "VERIFIED") then Ok Verified
  else if bool_decide (value = "FAILED") then Ok UpgradeFailed
  else Throw ("unknown local upgrade state: " +:+ value).

Record UpgradeState := MkUpgradeState {
  us_instruction : UpgradeInstruction; us_state : UpgradeLocalState; us_download_path : string; us_last_error : string }.

(** ** The state file *)

(** One printed member, and an object of them as [state_json] and [activation_json] lay it out. *)
Definition print_member (m : string * string) : string :=
  "  " +:+ quoted_key m.1 +:+ ": " +:+ String "034" (json_escape m.2) +:+ String "034" "".

Definition print_object (members : list (string * string)) : string :=
  "{" +:+ newline +:+ String.concat ("," +:+ newline) (map print_member members) +:+ newline +:+ "}" +:+ newline.

Definition state_members (state : UpgradeState) : list (string * string) :=
  let i := us_instruction state in
  [("upgrade_id", ui_upgrade_id i); ("version", ui_version i); ("build_id", ui_build_id i); ("git_commit", ui_git_commit i);
   ("os", ui_os i); ("arch", ui_arch i); ("artifact_name", ui_artifact_name i); ("download_url", ui_download_url i);
   ("sha256", ui_sha256 i); ("state", local_state_to_string (us_state state));
   ("download_path", us_download_path state); ("last_error", us_last_error state)].

Definition state_json (state : UpgradeState) : string := print_object (state_members state).

Definition state_from_json (text : string) : result UpgradeState :=
  let? upgrade_id := require_member text "upgrade_id" in
  let? version := require_member text "version" in
  let? build_id := require_member text "build_id" in
  let? git_commit := require_member text "git_commit" in
  let? os := require_member text "os" in
  let? arch := require_member text "arch" in
  let? artifact_name := require_member text "artifact_name" in
  let? download_url := require_member text "download_url" in
  let? sha256 := require_member text "sha256" in
  let? state_text := require_member text "state" in
  let? state := upgrade_local_state_from_string state_text in
  let? download_path := object_member_string text "download_path" in
  let? last_error := object_member_string text "last_error" in
  Ok (MkUpgradeState (MkInstruction upgrade_id version build_id git_commit os arch artifact_name download_url sha256)
        state (value_or download_path "") (value_or last_error "")).

(** ** Comparing and checking instructions *)

Definition same_instruction (a b : UpgradeInstruction) : result bool :=
  if bool_decide (ui_upgrade_id a = ui_upgrade_id b) && bool_decide (ui_version a = ui_version b) &&
     bool_decide (ui_build_id a = ui_build_id b) && bool_decide (lower (ui_git_commit a) = lower (ui_git_commit b)) &&
     bool_decide (lower (ui_os a) = lower (ui_os b)) && bool_decide (lower (ui_arch a) = lower (ui_arch b)) &&
     bool_decide (ui_artifact_name a = ui_artifact_name b) && bool_decide (ui_download_url a = ui_download_url b)
  then let? sa := normalize_sha256 (ui_sha256 a) in
       let? sb := normalize_sha256 (ui_sha256 b) in Ok (bool_decide (sa = sb))
  else Ok false.

Definition instruction_matches_build (instruction : UpgradeInstruction) (build : BuildIdentity) : result bool :=
  if negb (bool_decide (ui_version instruction = bi_version build)) || negb (bool_decide (ui_build_id instruction = bi_build_id build)) ||
     negb (bool_decide (lower (ui_git_commit instruction) = lower (bi_git_commit build))) ||
     negb (bool_decide (lower (ui_os instruction) = lower (bi_os build))) ||
     negb (bool_decide (lower (ui_arch instruction) = lower (bi_arch build)))
  then Ok false
  else if bool_decide (bi_artifact_sha256 build = "") then Ok true
  else let? sa := normalize_sha256 (ui_sha256 instruction) in
       let? sb := normalize_sha256 (bi_artifact_sha256 build) in Ok (bool_decide (sa = sb)).

Definition parse_upgrade_instruction_response (response_body : string) : result (option UpgradeInstruction) :=
  let? object := object_member_object response_body "upgrade" in
  match object with
  | None => Ok None
  | Some object =>
      let? upgrade_id := require_member object "upgrade_id" in
      let? version := require_member object "version" in
      let? build_id := require_member object "build_id" in
      let? git_commit := require_member object "git_commit" in
      let? os := require_member object "os" in
      let? arch := require_member object "arch" in
      let? artifact_name := require_member object "artifact_name" in
      let? download_url := require_member object "download_url" in
      let? sha256 := require_member object "sha256" in
      let? sha256 := normalize_sha256 sha256 in
      Ok (Some (MkInstruction upgrade_id version build_id (lower git_commit) (lower os) (lower arch)
                  artifact_name download_url sha256))
  end.

Definition validate_upgrade_instruction (instruction : UpgradeInstruction) (local_build : BuildIdentity) : result unit :=
  let? _ := throw_if (negb (looks_like_uuid (ui_upgrade_id instruction))) "upgrade_id is not a UUID" in
  let? _ := throw_if (bool_decide (ui_version instruction = "") || bool_decide (ui_build_id instruction = ""))
              "upgrade target version/build_id is missing" in
  let? _ := throw_if (negb (is_hex (lower (ui_git_commit instruction)) 40))
              "upgrade target git_commit must be a full commit SHA" in
  let? _ := throw_if (negb (bool_decide (lower (ui_os instruction) = lower (bi_os local_build))) ||
                      negb (bool_decide (lower (ui_arch instruction) = lower (bi_arch local_build))))
              "upgrade target platform does not match this agent" in
  let? _ := validate_artifact_name (ui_artifact_name instruction) in
  let? _ := parse_trusted_https_url (ui_download_url instruction) in
  let? sha256 := normalize_sha256 (ui_sha256 instruction) in
  let same_build := bool_decide (ui_version instruction = bi_version local_build) &&
                    bool_decide (ui_build_id instruction = bi_build_id local_build) &&
                    bool_decide (lower (ui_git_commit instruction) = lower (bi_git_commit local_build)) in
  let? same_artifact :=
    if bool_decide (bi_artifact_sha256 local_build = "") then Ok false
    else let? local := normalize_sha256 (bi_artifact_sha256 local_build) in Ok (bool_decide (sha256 = local)) in
  throw_if (same_build && (bool_decide (bi_artifact_sha256 local_build = "") || same_artifact))
    "upgrade target is already the running build".

(** ** The installed build *)

Fixpoint find_line (prefix : string) (ls : list string) : option string :=
  match ls with
  | [] => None
  | line :: ls => if starts_with prefix line then Some (substr_from line (String.length prefix)) else find_line prefix ls
  end.

Definition installed_artifact_sha (conf : option string) : string :=
  match conf with
  | None => ""
  | Some text =>
      match find_line "artifact_sha256=" (lines text) with
      | None => ""
      | Some value => match normalize_sha256 value with Ok sha => sha | Throw _ => "" end
      end
  end.

(** The constants of [neta_build_info.hpp], which the build generates. *)
Class BuildInfo := {
  build_version : string; build_id : string; build_git_commit : string; build_timestamp : string;
  build_os : string; build_arch : string }.

Definition current_build_identity `{BuildInfo} (conf : option string) : BuildIdentity :=
  MkBuild build_version build_id (lower build_git_commit) build_timestamp (lower build_os) (lower build_arch)
    (installed_artifact_sha conf) 1 1 ["build-identity-v1"; "upgrade-instruction-v1"; "upgrade-download-v1"].

(** ** Operations *)

Definition activation_is_terminal_for (activation : option string) (upgrade_id : string) : bool :=
  match activation with
  | None => false
  | Some text =>
      match object_member_string text "upgrade_id", object_member_string text "state" with
      | Ok (Some id), Ok (Some state) =>
          bool_decide (id = upgrade_id) && (bool_decide (state = "FAILED") || bool_decide (state = "ROLLED_BACK"))
      | _, _ => false
      end
  end.

Definition store_load : U (option UpgradeState) :=
  let* text := io_read h_state in
  match text with
  | None => ret None
  | Some text => let* state := lift (state_from_json text) in ret (Some state)
  end.

Definition store_save (state : UpgradeState) : U unit := atomic_write set_state (state_json state).

Definition store_accept (instruction : UpgradeInstruction) (local_build : BuildIdentity) : U UpgradeState :=
  let accept_new :=
    let* _ := lift (validate_upgrade_instruction instruction local_build) in
    let state := MkUpgradeState instruction Received "" "" in
    let* _ := store_save state in ret state in
  let* existing := store_load in
  match existing with
  | None => accept_new
  | Some existing =>
      if bool_decide (ui_upgrade_id (us_instruction existing) = ui_upgrade_id instruction) then
        let* same := lift (same_instruction (us_instruction existing) instruction) in
        if same : bool then ret existing
        else raise "coordinator repeated upgrade_id with changed immutable target fields"
      else
        let* old_target_is_running := lift (instruction_matches_build (us_instruction existing) local_build) in
        let* _ := io_step in
        let* activation := catch (io_read h_activation) (fun _ => ret None) in
        let old_activation_is_terminal := activation_is_terminal_for activation (ui_upgrade_id (us_instruction existing)) in
        if negb (bool_decide (us_state existing = UpgradeFailed)) && negb old_target_is_running && negb old_activation_is_terminal
        then raise "another local upgrade is already active"
        else accept_new
  end.

(** ** Downloading *)

(** Writing a file: an interrupted write may leave a part of it, and so may closing it, of which the
    program learns nothing. *)
Definition write_artifact (path content : string) : U unit := fun fs h =>
  let part n := set_artifacts (<[path := substr content 0 n]> (h_artifacts h)) h in
  let partly kept := match kept with None => h | Some n => part n end in
  match next_fault fs with
  | (IoThrows message kept, fs') => (Threw message, fs', partly kept)
  | (IoCrashes kept, fs') => (Crashed, fs', partly kept)
  | (IoDone, fs') =>
      match next_fault fs' with
      | (IoDone, fs'') => (Done tt, fs'', set_artifacts (<[path := content]> (h_artifacts h)) h)
      | (IoThrows _ kept, fs'') => (Done tt, fs'', part (default 0%nat kept))
      | (IoCrashes kept, fs'') => (Crashed, fs'', part (default 0%nat kept))
      end
  end.

Definition remove_artifact (path : string) : U unit :=
  io_update (fun h => set_artifacts (delete path (h_artifacts h)) h).

Definition rename_artifact (from to : string) : U unit :=
  io_update (fun h => match h_artifacts h !! from with
                      | Some content => set_artifacts (<[to := content]> (delete from (h_artifacts h))) h
                      | None => h
                      end).

Definition kDefaultMaxBytes : Z := 256 * 1024 * 1024.

Section download.
Context `{Sha256} `{Https} (state_dir : string).

Definition verify_file (path expected_sha256 : string) (max_bytes : Z) : U unit :=
  let* expected := lift (normalize_sha256 expected_sha256) in
  let* content := io_read (fun h => h_artifacts h !! path) in
  match content with
  | None => raise ("cannot open downloaded upgrade artifact: " +:+ path)
  | Some content =>
      if max_bytes <? Z.of_nat (String.length content) then raise "upgrade artifact exceeds configured size limit"
      else if bool_decide (sha256_hex content = expected) then ret tt
      else raise "downloaded upgrade artifact SHA-256 mismatch"
  end.

Definition download_and_verify (instruction : UpgradeInstruction) (destination_dir : string) (max_bytes : Z) : U string :=
  let* _ := lift (validate_artifact_name (ui_artifact_name instruction)) in
  let* _ := lift (parse_trusted_https_url (ui_download_url instruction)) in
  let* expected := lift (normalize_sha256 (ui_sha256 instruction)) in
  let* _ := io_step in
  let final_path := path_join destination_dir (ui_artifact_name instruction) in
  let* present := io_read (fun h => has (h_artifacts h !! final_path)) in
  let* reused :=
    if present : bool then
      catch (let* _ := verify_file final_path expected max_bytes in ret true)
            (fun _ => let* _ := remove_artifact final_path in ret false)
    else ret false in
  if reused : bool then ret final_path
  else
    let* body := lift (https_download_body (ui_download_url instruction) max_bytes) in
    let part_path := final_path +:+ ".part" in
    let* _ := write_artifact part_path body in
    let* _ := catch (let* _ := verify_file part_path expected max_bytes in rename_artifact part_path final_path)
                    (fun error => let* _ := remove_artifact part_path in raise error) in
    ret final_path.

Definition download_dir (upgrade_id : string) : string :=
  path_join (path_join (path_join state_dir "upgrade") "downloads") upgrade_id.

Definition bounded (value : string) (max : nat) : string := substr value 0 max.

(** The constructor of [UpgradeStateStore]. *)
Definition open_store : result unit := throw_if (bool_decide (state_dir = "")) "upgrade state directory is required".

(** The [catch] block of [download_pending_upgrade]. *)
Definition record_failure {A} (instruction : UpgradeInstruction) (path error : string) : U A :=
  let* _ := store_save (MkUpgradeState instruction UpgradeFailed path (bounded error 1000)) in raise error.

(** [download_pending_upgrade] for a state that is not final. *)
Definition fetch_pending (state : UpgradeState) (max_bytes : Z) : U UpgradeState :=
  let instruction := us_instruction state in
  let* _ := store_save (MkUpgradeState instruction Downloading (us_download_path state) "") in
  let* downloaded := trying (download_and_verify instruction (download_dir (ui_upgrade_id instruction)) max_bytes) in
  match downloaded with
  | Throw error => record_failure instruction (us_download_path state) error
  | Ok path =>
      let state := MkUpgradeState instruction Verified path "" in
      let* saved := trying (store_save state) in
      match saved with
      | Throw error => record_failure instruction path error
      | Ok _ => ret state
      end
  end.

Definition download_pending_upgrade (max_bytes : Z) : U UpgradeState :=
  let* _ := lift open_store in
  let* state := store_load in
  match state with
  | None => raise "no pending upgrade instruction"
  | Some state =>
      match us_state state with
      | Verified => ret state
      | UpgradeFailed => raise ("pending upgrade is in FAILED state: " +:+ us_last_error state)
      | _ => fetch_pending state max_bytes
      end
  end.

Definition accept_upgrade_from_coordinator_response `{BuildInfo} (response_body : string) : U (option UpgradeState) :=
  let* instruction := lift (parse_upgrade_instruction_response response_body) in
  match instruction with
  | None => ret None
  | Some instruction =>
      let* _ := lift open_store in
      let* conf := catch (io_read h_installed) (fun _ => ret None) in
      let* state := store_accept instruction (current_build_identity conf) in ret (Some state)
  end.

End download.

(** ** Reading back printed objects *)

(** The characters whose escaped form the reader understands: not the control characters that are
    printed as a [\u] escape. *)
Definition readable_char (c : ascii) : bool := (32 <=? code c) || is_char 9 c || is_char 10 c || is_char 13 c.
Definition readable (s : string) : bool := string_all readable_char s.

(** The characters of member names. *)
Definition plain_char (c : ascii) : bool := (32 <=? code c) && negb (is_char 34 c) && negb (is_char 92 c).
Definition plain (s : string) : bool := string_all plain_char s.

Lemma unescape_char c t :
  unescape_loop (escape_char c +:+ t) =
  if readable_char c then let? (value, rest) := unescape_loop t in Ok (String c value, rest)
  else Throw "unsupported JSON escape".
Proof. by destruct c as [[] [] [] [] [] [] [] []]. Qed.

Lemma unescape_escaped v rest :
  unescape_loop (json_escape v +:+ String "034" rest) = if readable v then Ok (v, rest) else Throw "unsupported JSON escape".
Proof.
  induction v as [|c v IH]; [done|]. cbn [json_escape readable string_all]. rewrite string_app_assoc, unescape_char, IH.
  unfold readable. by destruct (readable_char c), (string_all readable_char v).
Qed.

Lemma unescape_plain k rest : plain k = true -> unescape_loop (k +:+ String "034" rest) = Ok (k, rest).
Proof.
  induction k as [|c k IH]; [done|]. cbn [plain string_all]. intros [Hc Hk]%andb_true_iff. cbn.
  unfold plain_char in Hc. to_prop. unfold quote_char, backslash.
  repeat match goal with H : is_char _ c = false |- _ => rewrite H; clear H end. cbn.
  rewrite (proj2 (Z.ltb_ge _ _)) by lia. by rewrite IH.
Qed.

Lemma skip_value_char c n t : skip_value true false n (escape_char c +:+ t) = skip_value true false n t.
Proof. by destruct c as [[] [] [] [] [] [] [] []]. Qed.

Lemma skip_value_escaped v n rest :
  skip_value true false n (json_escape v +:+ String "034" rest) = skip_value false false n rest.
Proof.
  induction v as [|c v IH]; [done|]. cbn [json_escape]. by rewrite string_app_assoc, skip_value_char.
Qed.

(** What [object_member_string] finds in a printed object. *)
Fixpoint member_value (key : string) (members : list (string * string)) : result (option string) :=
  match members with
  | [] => Ok None
  | (k, v) :: members =>
      if bool_decide (k = key) then if readable v then Ok (Some v) else Throw "unsupported JSON escape"
      else member_value key members
  end.

Definition members_tail (members : list (string * string)) : string :=
  String.concat ("," +:+ newline) (map print_member members) +:+ newline +:+ "}" +:+ newline.

Lemma members_tail_cons m members :
  members_tail (m :: members) =
  print_member m +:+ match members with [] => newline +:+ "}" +:+ newline | _ => "," +:+ newline +:+ members_tail members end.
Proof. unfold members_tail. destruct members; [done|]. cbn [map String.concat]. by rewrite !string_app_assoc. Qed.

Lemma print_member_head k v rest :
  print_member (k, v) +:+ rest = "  " +:+ String "034" (k +:+ String "034" (": " +:+ String "034" (json_escape v +:+ String "034" rest))).
Proof.
  unfold print_member, quoted_key. cbn. rewrite !string_app_assoc. cbn. by rewrite !string_app_assoc.
Qed.

Lemma member_loop_printed fuel key members :
  Forall (fun m => plain m.1 = true) members -> (length members < fuel)%nat ->
  object_member_loop fuel key (newline +:+ members_tail members) = member_value key members.
Proof.
  revert fuel. induction members as [|[k v] members IH]; intros [|fuel] Hp Hf; [lia|done|cbn in Hf; lia|].
  apply Forall_cons in Hp as [Hk Hp]. cbn in Hk, Hf. rewrite members_tail_cons, print_member_head.
  cbn [object_member_loop]. change (skip_space (newline +:+ ?x)) with (skip_space x).
  change (skip_space ("  " +:+ String "034" ?x)) with (String "034" x). cbn [begins is_char].
  change (is_char 125 "034") with false. cbn iota. cbn [json_unescape_string]. change (is_char quote_char "034") with true. cbn iota.
  rewrite unescape_plain by done. cbn [rbind]. change (skip_space (": " +:+ ?x)) with (": " +:+ x).
  cbn [String.append begins]. change (negb (is_char 58 ":")) with false. cbn iota. cbn [behind].
  change (skip_space (String " " (String "034" ?x))) with (String "034" x). cbn [member_value].
  destruct (bool_decide (k = key)).
  - change (bool_decide (substr (String "034" ?x) 0 4 = "null")) with false.
    cbn [json_unescape_string].
    change (is_char quote_char "034") with true. cbn iota. rewrite unescape_escaped. by destruct (readable v).
  - change (skip_value false false 0 (String "034" ?x)) with (skip_value true false 0 x). rewrite skip_value_escaped.
    destruct members as [|m members]; [destruct fuel; [lia|done]|].
    change (skip_value false false 0 ("," +:+ ?x)) with x. apply IH; [done|cbn in *; lia].
Qed.

Lemma print_member_length m : (1 <= String.length (print_member m))%nat.
Proof. unfold print_member. cbn. lia. Qed.

Lemma members_tail_length members : (length members <= String.length (members_tail members))%nat.
Proof.
  induction members as [|m members IH]; [cbn; lia|]. rewrite members_tail_cons, string_length_app.
  pose proof (print_member_length m). cbn [length]. destruct members; [cbn in *; lia|]. rewrite !string_length_app. cbn in *. lia.
Qed.

Lemma member_printed key members :
  Forall (fun m => plain m.1 = true) members -> object_member_string (print_object members) key = member_value key members.
Proof.
  intros Hp. unfold object_member_string, print_object.
  change ("{" +:+ newline +:+ String.concat ("," +:+ newline) (map print_member members) +:+ newline +:+ "}" +:+ newline)
    with (String "{" (newline +:+ members_tail members)).
  change (skip_space (String "{" ?x)) with (String "{" x). cbn [begins behind]. change (negb (is_char 123 "{")) with false. cbn iota.
  apply member_loop_printed; [done|]. cbn [String.length]. rewrite string_length_app. pose proof (members_tail_length members). lia.
Qed.

(** A required member with value [v]. *)
Definition required_value (key v : string) : result string :=
  if readable v then if bool_decide (v = "") then Throw ("upgrade instruction missing " +:+ key) else Ok v
  else Throw "unsupported JSON escape".

Lemma require_printed key v members :
  Forall (fun m => plain m.1 = true) members ->
  member_value key members = (if readable v then Ok (Some v) else Throw "unsupported JSON escape") ->
  require_member (print_object members) key = required_value key v.
Proof.
  intros Hp Hm. unfold require_member, required_value. rewrite member_printed, Hm by done.
  destruct (readable v); [|done]. cbn. by destruct v.
Qed.

Lemma required_value_ok key v w : required_value key v = Ok w <-> w = v /\ v <> "" /\ readable v = true.
Proof.
  unfold required_value. destruct (readable v); [|naive_solver]. case_bool_decide; naive_solver.
Qed.

Lemma state_members_plain st : Forall (fun m => plain m.1 = true) (state_members st).
Proof. by repeat constructor. Qed.

Definition instruction_texts (i : UpgradeInstruction) : list string :=
  [ui_upgrade_id i; ui_version i; ui_build_id i; ui_git_commit i; ui_os i; ui_arch i; ui_artifact_name i; ui_download_url i; ui_sha256 i].

(** The states that can be read back. *)
Definition readable_state (st : UpgradeState) : Prop :=
  Forall (fun v => v <> "" /\ readable v = true) (instruction_texts (us_instruction st)) /\
  readable (us_download_path st) = true /\ readable (us_last_error st) = true.

Lemma local_state_readable s : readable (local_state_to_string s) = true.
Proof. by destruct s. Qed.

Lemma local_state_round_trip s :
  (let? t := required_value "state" (local_state_to_string s) in upgrade_local_state_from_string t) = Ok s.
Proof. by destruct s. Qed.

Lemma state_read_back st st' :
  state_from_json (state_json st) = Ok st' <-> st' = st /\ readable_state st.
Proof.
  unfold state_from_json, state_json. pose proof (state_members_plain st) as Hp.
  rewrite (require_printed "upgrade_id" (ui_upgrade_id (us_instruction st)) _ Hp eq_refl).
  rewrite (require_printed "version" (ui_version (us_instruction st)) _ Hp eq_refl).
  rewrite (require_printed "build_id" (ui_build_id (us_instruction st)) _ Hp eq_refl).
  rewrite (require_printed "git_commit" (ui_git_commit (us_instruction st)) _ Hp eq_refl).
  rewrite (require_printed "os" (ui_os (us_instruction st)) _ Hp eq_refl).
  rewrite (require_printed "arch" (ui_arch (us_instruction st)) _ Hp eq_refl).
  rewrite (require_printed "artifact_name" (ui_artifact_name (us_instruction st)) _ Hp eq_refl).
  rewrite (require_printed "download_url" (ui_download_url (us_instruction st)) _ Hp eq_refl).
  rewrite (require_printed "sha256" (ui_sha256 (us_instruction st)) _ Hp eq_refl).
  rewrite (require_printed "state" (local_state_to_string (us_state st)) _ Hp eq_refl).
  rewrite !(member_printed _ _ Hp).
  change (member_value "download_path" (state_members st)) with
    (if readable (us_download_path st) then Ok (Some (us_download_path st)) else Throw "unsupported JSON escape").
  change (member_value "last_error" (state_members st)) with
    (if readable (us_last_error st) then Ok (Some (us_last_error st)) else Throw "unsupported JSON escape").
  unfold readable_state, instruction_texts. rewrite !Forall_cons, Forall_nil. split.
  - intros E. repeat match goal with
    | E : rbind (required_value "state" _) _ = Ok _ |- _ => fail 1
    | E : rbind (required_value _ _) _ = Ok _ |- _ => apply rbind_ok in E as (? & [-> ?]%required_value_ok & E)
    end.
    pose proof (local_state_round_trip (us_state st)) as Hs. destruct (required_value "state" _); [|done]. cbn in E, Hs. rewrite Hs in E.
    destruct (readable (us_download_path st)); [|done]. destruct (readable (us_last_error st)); [|done]. injection E as <-.
    destruct st as [[] ? ? ?]. cbn in *. tauto.
  - intros [-> [Hf [H1 H2]]]. rewrite H1, H2.
    repeat match goal with |- rbind (required_value ?k ?v) _ = _ =>
      rewrite (proj2 (required_value_ok k v v)) by (split; [done|]; first [tauto|by destruct (us_state st)]); cbn [rbind] end.
    destruct st as [[] [] ? ?]; done.
Qed.

(** *** Texts that were cut off

    Whatever the reader finds in the beginning of a text it finds in the whole of it: running into
    the end is always an error. *)

Lemma drop_while_extends p s q : drop_while p s = "" \/ drop_while p (s +:+ q) = drop_while p s +:+ q.
Proof. induction s as [|c s IH]; [by left|]. cbn. destruct (p c); [exact IH|by right]. Qed.

Lemma unescape_extends s q v rest : unescape_loop s = Ok (v, rest) -> unescape_loop (s +:+ q) = Ok (v, rest +:+ q).
Proof.
  revert v rest. induction s as [s IH] using (induction_ltof1 _ String.length). intros v rest.
  destruct s as [|c s]; [done|]. cbn [unescape_loop String.append].
  destruct (is_char quote_char c); [by intros [= <- <-]|]. destruct (negb (is_char backslash c)).
  - destruct (code c <? 32); [done|]. intros ([v' rest'] & E & [= <- <-])%rbind_ok. by rewrite (IH s ltac:(unfold ltof; cbn; lia) v' rest' E).
  - destruct s as [|e s]; [done|]. cbn [String.append]. destruct (unescape e); [|done].
    intros ([v' rest'] & E & [= <- <-])%rbind_ok. by rewrite (IH s ltac:(unfold ltof; cbn; lia) v' rest' E).
Qed.

Lemma unescape_string_extends s q v rest : json_unescape_string s = Ok (v, rest) -> json_unescape_string (s +:+ q) = Ok (v, rest +:+ q).
Proof. destruct s as [|c s]; [done|]. cbn. destruct (is_char quote_char c); [apply unescape_extends|done]. Qed.

Lemma skip_value_extends b e n s q : skip_value b e n s = "" \/ skip_value b e n (s +:+ q) = skip_value b e n s +:+ q.
Proof.
  revert b e n. induction s as [|c s IH]; intros b e n; [by left|]. cbn [skip_value String.append].
  destruct b; [destruct e; [apply IH|]; destruct (is_char backslash c); apply IH|].
  destruct (is_char quote_char c); [apply IH|]. destruct (_ || _); [apply IH|]. destruct (_ || _); [destruct (n =? 0); [by right|apply IH]|].
  destruct (_ && _); [by right|apply IH].
Qed.

Lemma begins_extends p s q : begins p s = true -> begins p (s +:+ q) = true /\ behind (s +:+ q) = behind s +:+ q.
Proof. by destruct s. Qed.

Lemma substr_extends s q n t : String.length t = n -> substr s 0 n = t -> substr (s +:+ q) 0 n = t.
Proof.
  intros <- E. destruct (substr_prefix s (String.length t)) as [rest Er]. rewrite E in Er. rewrite Er, string_app_assoc. apply substring_0_app.
Qed.

Lemma member_loop_extends fuel fuel' key s q r :
  object_member_loop fuel key s = Ok r -> (fuel <= fuel')%nat -> object_member_loop fuel' key (s +:+ q) = Ok r.
Proof.
  revert fuel' s. induction fuel as [|fuel IH]; intros [|fuel'] s E Hf; [done|done|lia|]. cbn [object_member_loop] in *. unfold skip_space in *.
  destruct (drop_while_extends isspace s q) as [E0|E0]; rewrite E0 in *; [done|]. set (t := drop_while isspace s) in *.
  destruct (begins (is_char 125) t) eqn:Hb; [by rewrite (proj1 (begins_extends _ _ q Hb))|].
  apply rbind_ok in E as ([k rest] & Ek & E).
  assert (Hb' : begins (is_char 125) (t +:+ q) = false) by (by destruct t). rewrite Hb', (unescape_string_extends _ q _ _ Ek). cbn [rbind].
  destruct (drop_while_extends isspace rest q) as [E1|E1]; rewrite E1 in *; [done|].
  destruct (begins (is_char 58) (drop_while isspace rest)) eqn:Hc; [|done]. cbn [negb] in *.
  destruct (begins_extends _ _ q Hc) as [-> ->]. cbn [negb].
  set (u := behind (drop_while isspace rest)) in *. destruct (drop_while_extends isspace u q) as [E2|E2]; rewrite E2 in *.
  - case_bool_decide; [done|]. by destruct fuel.
  - case_bool_decide.
    + case_bool_decide as Hn; [by rewrite bool_decide_eq_true_2 by by apply substr_extends|].
      apply rbind_ok in E as ([v rest'] & Ev & E). rewrite (unescape_string_extends _ q _ _ Ev).
      case_bool_decide as Hn'; [|exact E]. exfalso. revert Ev Hn'. destruct (drop_while isspace u) as [|c w]; [done|]. cbn.
      destruct (is_char quote_char c) eqn:Eq; [|done]. intros _ [= -> _]. done.
    + destruct (skip_value_extends false false 0 (drop_while isspace u) q) as [E3|E3]; rewrite E3 in *; [by destruct fuel|].
      apply IH; [done|lia].
Qed.

Lemma member_extends s q key r : object_member_string s key = Ok r -> object_member_string (s +:+ q) key = Ok r.
Proof.
  unfold object_member_string, skip_space. destruct (drop_while_extends isspace s q) as [E|E]; rewrite E; [done|].
  destruct (begins (is_char 123) (drop_while isspace s)) eqn:Hb; [|done]. destruct (begins_extends _ _ q Hb) as [-> ->]. cbn [negb].
  intros Hl. eapply member_loop_extends; [exact Hl|]. rewrite string_length_app. lia.
Qed.

Lemma require_extends s q key r : require_member s key = Ok r -> require_member (s +:+ q) key = Ok r.
Proof. unfold require_member. intros (v & E & Hv)%rbind_ok. by rewrite (member_extends _ q _ _ E). Qed.

Lemma state_extends s q st : state_from_json s = Ok st -> state_from_json (s +:+ q) = Ok st.
Proof.
  unfold state_from_json. intros E.
  repeat match goal with
  | E : rbind (require_member s ?k) _ = Ok _ |- _ =>
      let Hv := fresh in apply rbind_ok in E as (? & Hv & E); rewrite (require_extends _ q _ _ Hv); cbn [rbind]
  | E : rbind (object_member_string s ?k) _ = Ok _ |- _ =>
      let Hv := fresh in apply rbind_ok in E as (? & Hv & E); rewrite (member_extends _ q _ _ Hv); cbn [rbind]
  | E : rbind (upgrade_local_state_from_string ?t) _ = Ok _ |- _ =>
      let Hv := fresh in apply rbind_ok in E as (? & Hv & E); rewrite Hv; cbn [rbind]
  end. exact E.
Qed.

(** What a state file says that was written for [st], as a whole or in part, if it can be read. *)
Lemma cut_state_read_back st cut h text st' :
  h_state (installed set_state (state_json st) cut h) = Some text -> state_from_json text = Ok st' -> st' = st /\ readable_state st.
Proof.
  destruct cut as [n|]; intros Et E.
  2:{ change (Some (state_json st) = Some text) in Et. apply (inj Some) in Et as <-. by apply state_read_back. }
  change (Some (substr (state_json st) 0 n) = Some text) in Et. apply (inj Some) in Et as <-.
  destruct (substr_prefix (state_json st) n) as [rest Er]. apply (state_extends _ rest) in E. rewrite <- Er in E. by apply state_read_back.
Qed.

(** The state file round-trips exactly for the states all of whose texts are readable and whose
    instruction texts are not empty; for every other state, reading what [save] wrote fails. *)
Theorem state_round_trip st :
  (readable_state st -> state_from_json (state_json st) = Ok st) /\
  (~ readable_state st -> exists message, state_from_json (state_json st) = Throw message).
Proof.
  split; [intros Hr; by apply state_read_back|]. intros Hn. destruct (state_from_json (state_json st)) as [st'|m] eqn:E; [|by exists m].
  by apply state_read_back in E as [_ ?].
Qed.

(** ** Accepting *)

(** [i] may replace the instruction that host [h] has: there is none, or the present one is of
    another upgrade that failed, is already running or whose activation has ended. *)
Definition replaceable (b : BuildIdentity) (i : UpgradeInstruction) (h : Host) : Prop :=
  h_state h = None \/
  exists text old, h_state h = Some text /\ state_from_json text = Ok old /\
    ui_upgrade_id (us_instruction old) <> ui_upgrade_id i /\
    exists running, instruction_matches_build (us_instruction old) b = Ok running /\
    (us_state old = UpgradeFailed \/ running = true \/
     activation_is_terminal_for (h_activation h) (ui_upgrade_id (us_instruction old)) = true).

Definition fresh_state (i : UpgradeInstruction) : UpgradeState := MkUpgradeState i Received "" "".

(** [h'] is [h] with the new instruction [i], which is valid for the build [b]; closing the file may
    have lost a part of it. *)
Definition accepts (b : BuildIdentity) (i : UpgradeInstruction) (h h' : Host) : Prop :=
  validate_upgrade_instruction i b = Ok tt /\ replaceable b i h /\
  exists cut, h' = installed set_state (state_json (fresh_state i)) cut h.

(** [st] is the state that [h] already has for the same instruction. *)
Definition repeats (i : UpgradeInstruction) (h : Host) (st : UpgradeState) : Prop :=
  exists text, h_state h = Some text /\ state_from_json text = Ok st /\
    ui_upgrade_id (us_instruction st) = ui_upgrade_id i /\ same_instruction (us_instruction st) i = Ok true.

Lemma load_spec h : triple (fun w => w = h) store_load
  (fun r w => w = h /\ match r with
    | None => h_state h = None
    | Some st => exists text, h_state h = Some text /\ state_from_json text = Ok st end) (fun _ w => w = h) (fun w => w = h).
Proof.
  unfold store_load. eapply triple_bind; [by apply triple_read|]. intros text fs w [-> ->].
  destruct (h_state h) as [text|] eqn:E; [|done]. unfold bind, lift. destruct (state_from_json text) as [st|] eqn:Es; cbn; [|done].
  split; [done|]. by exists text.
Qed.

Definition accept_post (b : BuildIdentity) (i : UpgradeInstruction) (h : Host) (st : UpgradeState) (h' : Host) : Prop :=
  repeats i h st /\ h' = h \/ st = fresh_state i /\ accepts b i h h'.

Lemma accept_new_spec b i h :
  replaceable b i h ->
  triple (fun w => w = h)
    (let* _ := lift (validate_upgrade_instruction i b) in let* _ := store_save (fresh_state i) in ret (fresh_state i))
    (accept_post b i h) (fun _ w => w = h) (fun w => w = h \/ accepts b i h w).
Proof.
  intros Hr. eapply (triple_bind _ _ _ (fun _ w => validate_upgrade_instruction i b = Ok tt /\ w = h)).
  - apply triple_lift; [|done]. by intros [] w -> ->.
  - intros []. apply triple_pure. intros Hv. eapply (triple_bind _ _ _ (fun _ w => accepts b i h w)).
    + apply triple_replace; [by intros m w ->|intros w ->; by left|]. intros cut w ->.
      assert (Ha : accepts b i h (installed set_state (state_json (fresh_state i)) cut h)) by (split_and!; [done..|by exists cut]). auto.
    + intros []. apply triple_ret. intros w Hw. by right.
Qed.

(** A read whose failure counts as absence. *)
Lemma read_or_none {A} (f : Host -> option A) h (T : string -> Host -> Prop) (C : Host -> Prop) :
  C h -> triple (fun w => w = h) (catch (io_read f) (fun _ => ret None)) (fun a w => (a = None \/ a = f h) /\ w = h) T C.
Proof. intros HC fs w ->. unfold catch, io_read, ret. destruct (next_fault fs) as [[] ?]; cbn; auto. Qed.

Lemma accept_spec b i h :
  triple (fun w => w = h) (store_accept i b) (accept_post b i h) (fun _ w => w = h) (fun w => w = h \/ accepts b i h w).
Proof.
  unfold store_accept. eapply triple_bind.
  { eapply triple_weaken; [apply (load_spec h)|done| |done|by left]. intros r w Hw. exact Hw. }
  intros [old|]; [|intros fs w [-> Hn]; apply (accept_new_spec b i h); [by left|done]].
  intros fs w [-> (text & Et & Es)]. case_bool_decide as Hid.
  - unfold bind, lift. destruct (same_instruction _ i) as [[]|] eqn:Eq; cbn; [|done..]. left. split; [|done]. by exists text.
  - refine ((_ : triple (fun w => w = h) _ _ _ _) fs h eq_refl).
    eapply (triple_bind _ _ _ (fun m w => instruction_matches_build (us_instruction old) b = Ok m /\ w = h)).
    { apply triple_lift; [|done]. by intros m w -> ->. }
    intros m. apply triple_pure. intros Em. eapply triple_bind; [apply triple_step; [done|by left]|]. intros [].
    eapply (triple_bind _ _ _ (fun a w => (a = None \/ a = h_activation h) /\ w = h)).
    { apply read_or_none. by left. }
    intros a. apply triple_pure. intros Ha. destruct (_ && _) eqn:Ec; [by apply triple_raise|].
    apply accept_new_spec. right. exists text, old. split_and!; [done..|]. exists m. split; [done|]. apply andb_false_iff in Ec as [Ec|Ec]; [apply andb_false_iff in Ec as [Ec|Ec]|]; apply negb_false_iff in Ec.
    + left. by apply bool_decide_eq_true in Ec.
    + by right; left.
    + right; right. by destruct Ha as [-> | ->].
Qed.

Lemma load_runs h : store_load [] h =
  match h_state h with
  | None => (Done None, [], h)
  | Some text => match state_from_json text with Ok st => (Done (Some st), [], h) | Throw m => (Threw m, [], h) end
  end.
Proof. unfold store_load, bind, io_read. cbn. destruct (h_state h) as [text|]; [|done]. unfold lift. by destruct (state_from_json text). Qed.

Lemma accept_runs b i h :
  validate_upgrade_instruction i b = Ok tt -> replaceable b i h ->
  store_accept i b [] h = (Done (fresh_state i), [], set_state (Some (state_json (fresh_state i))) h).
Proof.
  intros Hv Hr. unfold store_accept. unfold bind at 1. rewrite load_runs. destruct Hr as [Hn|(text & old & Et & Es & Hid & m & Em & Hc)].
  - rewrite Hn. unfold bind, lift. by rewrite Hv.
  - rewrite Et, Es, bool_decide_eq_false_2 by done. unfold bind, lift, catch, io_step, io_read. rewrite Em. cbn.
    destruct (_ && _) eqn:Ec; [|by rewrite Hv]. exfalso. to_prop. destruct Hc as [?|[?|?]]; congruence.
Qed.

(** C27: Accepting an instruction on Linux, whatever file operation fails and wherever the process is
    killed (files are not synced, so a loss of power is not covered): it returns the present state
    only for the same instruction, changing nothing; or it stores the instruction as received, only
    when it is valid for this build and the present instruction, if any, is another one that failed,
    is running or whose activation has ended; an error changes nothing; a killed process leaves the
    old state file or the new one.  Since closing the file is not checked, the new file may be cut
    off; then it loads as the same received instruction or does not load, never as anything else.
    Without faults accepting succeeds in both cases and the whole file is there. *)
Theorem accept_exact b i fs h :
  match store_accept i b fs h with
  | (Done st, _, h') => accept_post b i h st h'
  | (Threw _, _, h') => h' = h
  | (Crashed, _, h') => h' = h \/ accepts b i h h'
  end /\
  (forall h' text st, accepts b i h h' -> h_state h' = Some text -> state_from_json text = Ok st -> st = fresh_state i) /\
  (forall st, repeats i h st -> store_accept i b [] h = (Done st, [], h)) /\
  (validate_upgrade_instruction i b = Ok tt -> replaceable b i h ->
   store_accept i b [] h = (Done (fresh_state i), [], set_state (Some (state_json (fresh_state i))) h)).
Proof.
  split_and!.
  - apply (accept_spec b i h fs h eq_refl).
  - intros h' text st (_ & _ & cut & ->) Et Es. by destruct (cut_state_read_back _ _ _ _ _ Et Es).
  - intros st (text & Et & Es & Hid & Hs). unfold store_accept. unfold bind at 1. rewrite load_runs, Et, Es.
    rewrite bool_decide_eq_true_2 by done. unfold bind, lift. by rewrite Hs.
  - apply accept_runs.
Qed.

(** ** Verified artifacts *)

Lemma hex_not_space c : isxdigit c = true -> isspace c = false.
Proof. by destruct c as [[] [] [] [] [] [] [] []]. Qed.
Lemma hex_lower c : isxdigit c = true -> isxdigit (tolower c) = true.
Proof. by destruct c as [[] [] [] [] [] [] [] []]. Qed.

Lemma string_map_all (p : ascii -> bool) (f : ascii -> ascii) s :
  (forall c, p c = true -> f c = c) -> string_all p s = true -> string_map f s = s.
Proof. intros Hf. induction s as [|c s IH]; [done|]. cbn. intros [Hc Hs]%andb_true_iff. by rewrite Hf, IH. Qed.

Lemma trim_hex s : string_all isxdigit s = true -> trim s = s.
Proof.
  unfold trim. intros Hs. assert (E : drop_while isspace s = s).
  { destruct s as [|c s]; [done|]. cbn in *. apply andb_true_iff in Hs as [Hc _]. by rewrite (hex_not_space c Hc). }
  rewrite E. clear E. induction s as [|c s IH]; [done|]. cbn in *. apply andb_true_iff in Hs as [Hc Hs]. rewrite IH by done.
  destruct s; [by rewrite (hex_not_space c Hc)|done].
Qed.

Lemma lower_all_lower s : string_all (fun c => negb (isupper c)) s = true -> lower s = s.
Proof. apply string_map_all. intros c Hc. unfold tolower. apply negb_true_iff in Hc. by rewrite Hc. Qed.

Lemma lower_no_upper s : string_all (fun c => negb (isupper c)) (lower s) = true.
Proof. unfold lower. induction s as [|c s IH]; [done|]. cbn. rewrite IH, andb_true_r. by destruct c as [[] [] [] [] [] [] [] []]. Qed.

Lemma strip_prefix_all q p s : string_all q s = true -> string_all q (strip_prefix p s) = true.
Proof.
  unfold strip_prefix. destruct (starts_with p s) eqn:E; [|done]. apply starts_with_spec in E as [rest ->].
  rewrite substr_from_app, string_all_app. by intros [_ ?]%andb_true_iff.
Qed.

(** Normalizing a normalized digest changes nothing. *)
Lemma normalize_idemp v e : normalize_sha256 v = Ok e -> normalize_sha256 e = Ok e.
Proof.
  unfold normalize_sha256. set (n := strip_prefix "sha256:" (lower (trim v))). destruct (is_hex n 64) eqn:E; [|done]. intros [= <-].
  pose proof E as E'. unfold is_hex in E'. apply andb_true_iff in E' as [_ Hx]. rewrite trim_hex by done.
  rewrite lower_all_lower by (apply strip_prefix_all, lower_no_upper).
  assert (Hs : strip_prefix "sha256:" n = n); [|by rewrite Hs, E]. unfold strip_prefix.
  destruct (starts_with "sha256:" n) eqn:Ep; [|done]. apply starts_with_spec in Ep as [rest Er]. rewrite Er in Hx. done.
Qed.

Section verified.
Context `{Sha256} `{Https} (state_dir : string).

(** The file at [path] has the digest the instruction names. *)
Definition artifact_ok (i : UpgradeInstruction) (path : string) (h : Host) : Prop :=
  exists content, h_artifacts h !! path = Some content /\ normalize_sha256 (ui_sha256 i) = Ok (sha256_hex content).

Definition verified_inv (h : Host) : Prop :=
  forall text st, h_state h = Some text -> state_from_json text = Ok st -> us_state st = Verified ->
    artifact_ok (us_instruction st) (us_download_path st) h.

Definition unverified (h : Host) : Prop :=
  forall text st, h_state h = Some text -> state_from_json text = Ok st -> us_state st <> Verified.

Lemma unverified_inv h : unverified h -> verified_inv h.
Proof. intros Hu text st E Es Hv. by destruct (Hu text st E Es). Qed.

Lemma saved_unverified st cut h : us_state st <> Verified -> unverified (installed set_state (state_json st) cut h).
Proof. intros Hn text st' E Es. by destruct (cut_state_read_back _ _ _ _ _ E Es) as [-> _]. Qed.

Lemma saved_inv st cut h : (us_state st = Verified -> artifact_ok (us_instruction st) (us_download_path st) h) ->
  verified_inv (installed set_state (state_json st) cut h).
Proof.
  intros Hok text st' E Es Hv. destruct (cut_state_read_back _ _ _ _ _ E Es) as [-> _].
  destruct (Hok Hv) as (c & Hc & Hn). exists c. split; [by destruct cut|done].
Qed.

Lemma verify_file_spec path expected max_bytes (P : Host -> Prop) :
  triple P (verify_file path expected max_bytes)
    (fun _ h => P h /\ exists content, h_artifacts h !! path = Some content /\
       Z.of_nat (String.length content) <= max_bytes /\ normalize_sha256 expected = Ok (sha256_hex content))
    (fun _ => P) P.
Proof.
  unfold verify_file. eapply (triple_bind _ _ _ (fun e h => normalize_sha256 expected = Ok e /\ P h)).
  { apply triple_lift; [|done]. by intros e h ->. }
  intros e. apply triple_pure. intros He. eapply triple_bind; [by apply triple_read|]. intros content fs h [-> Hp].
  destruct (h_artifacts h !! path) as [c|] eqn:Ec; [|done]. destruct (Z.ltb_spec max_bytes (Z.of_nat (String.length c))); [done|].
  case_bool_decide as Hs; [|done]. split; [done|]. exists c. by rewrite Hs.
Qed.

(** The digest is right and the file within the limit. *)
Definition downloaded (i : UpgradeInstruction) (max_bytes : Z) (path : string) (h : Host) : Prop :=
  exists content, h_artifacts h !! path = Some content /\ Z.of_nat (String.length content) <= max_bytes /\
    normalize_sha256 (ui_sha256 i) = Ok (sha256_hex content).

Lemma part_differs path : path +:+ ".part" <> path.
Proof. intros E. apply (f_equal String.length) in E. rewrite string_length_app in E. cbn in E. lia. Qed.

(** Downloading does not touch the state file, and returns only a file with the right digest. *)
Lemma download_spec i dir max_bytes (P : Host -> Prop) :
  (forall h v, P h -> P (set_artifacts v h)) ->
  triple P (download_and_verify i dir max_bytes) (fun path h => P h /\ downloaded i max_bytes path h) (fun _ => P) P.
Proof.
  intros Hart. unfold download_and_verify.
  eapply (triple_bind _ _ _ (fun _ => P)); [by apply triple_lift|]. intros _.
  eapply (triple_bind _ _ _ (fun _ => P)); [by apply triple_lift|]. intros _.
  eapply (triple_bind _ _ _ (fun e h => normalize_sha256 (ui_sha256 i) = Ok e /\ P h)); [by apply triple_lift|].
  intros e. apply triple_pure. intros He. pose proof (normalize_idemp _ _ He) as Hi.
  eapply (triple_bind _ _ _ (fun _ => P)); [by apply triple_step|]. intros [].
  set (final := path_join dir (ui_artifact_name i)).
  assert (Hremove : forall path, triple P (remove_artifact path) (fun _ => P) (fun _ => P) P).
  { intros path. apply triple_keep. intros h Hp. by apply Hart. }
  eapply (triple_bind _ _ _ (fun _ => P)); [apply triple_look|].
  intros present. eapply (triple_bind _ _ _ (fun (reused : bool) h => P h /\ (reused = true -> downloaded i max_bytes final h))).
  { destruct present; [|apply triple_ret; by intros h Hp]. eapply triple_catch.
    - eapply triple_bind; [apply verify_file_spec|]. intros []. apply triple_ret. intros h (Hp & c & Hc & Hl & Hn).
      split; [done|]. intros _. exists c. rewrite Hi in Hn. injection Hn as <-. done.
    - intros m. eapply triple_bind; [apply Hremove|]. intros []. by apply triple_ret. }
  intros [].
  { apply triple_ret. intros h [Hp Hd]. split; [done|by apply Hd]. }
  eapply (triple_bind _ _ _ (fun _ => P)); [apply triple_lift; [by intros ? ? _ []|by intros ? ? _ []]|]. intros body.
  eapply (triple_bind _ _ _ (fun _ => P)).
  { intros fs h Hp. unfold write_artifact. destruct (next_fault fs) as [[|m [n|]|[n|]] fs']; auto.
    destruct (next_fault fs') as [[|m k|k] fs'']; auto. }
  intros []. eapply (triple_bind _ _ _ (fun _ h => P h /\ downloaded i max_bytes final h)).
  - eapply triple_catch; [eapply triple_bind; [apply verify_file_spec|]|].
    + intros []. apply triple_update.
      * intros h (Hp & c & Hc & Hl & Hn). rewrite Hc. split; [by apply Hart|]. exists c. cbn. rewrite lookup_insert_eq.
        split; [done|]. split; [done|]. rewrite He. by rewrite Hi in Hn.
      * intros m h Hx. exact (proj1 Hx).
      * intros h (Hp & c & Hc & _). split; [done|]. rewrite Hc. by apply Hart.
    + intros m. eapply triple_bind; [apply Hremove|]. intros []. by apply triple_raise.
  - intros []. by apply triple_ret.
Qed.

Lemma save_unverified st (P : Host -> Prop) :
  us_state st <> Verified -> triple P (store_save st) (fun _ => unverified) (fun _ => P) (fun h => P h \/ unverified h).
Proof.
  intros Hn. apply triple_replace; [done|by left|]. intros cut h _. pose proof (saved_unverified st cut h Hn) as Hu. auto.
Qed.

Lemma record_failure_spec {A} i path error :
  triple unverified (record_failure (A := A) i path error) (fun _ _ => False) (fun _ => verified_inv) verified_inv.
Proof.
  eapply (triple_bind _ _ _ (fun _ => unverified)).
  - eapply triple_weaken; [by apply (save_unverified _ unverified)|done|done|intros m; apply unverified_inv|].
    intros h [?|?]; by apply unverified_inv.
  - intros []. apply triple_raise. apply unverified_inv.
Qed.

(** Saving the verified state once the artifact is there. *)
Lemma save_verified_spec i path max_bytes T :
  triple (fun h => unverified h /\ downloaded i max_bytes path h) (trying (store_save (MkUpgradeState i Verified path "")))
    (fun r h => match r with Ok _ => verified_inv h | Throw _ => unverified h end) T verified_inv.
Proof.
  eapply (triple_trying _ _ (fun _ => verified_inv) T (fun _ => unverified)). apply triple_replace.
  - by intros m h [? _].
  - intros h [Hu _]. by apply unverified_inv.
  - intros cut h [_ (c & Hc & _ & Hn)].
    assert (Hs : verified_inv (installed set_state (state_json (MkUpgradeState i Verified path "")) cut h)) by (apply saved_inv; intros _; by exists c). auto.
Qed.

Lemma fetch_pending_spec st max_bytes :
  triple verified_inv (fetch_pending state_dir st max_bytes)
    (fun st h => us_state st = Verified /\ verified_inv h) (fun _ => verified_inv) verified_inv.
Proof.
  eapply (triple_bind _ _ _ (fun _ => unverified)).
  { eapply triple_weaken; [by apply (save_unverified _ verified_inv)|done|done|done|]. intros h [?|?]; [done|by apply unverified_inv]. }
  intros []. eapply triple_bind.
  { eapply triple_trying, (triple_weaken _ _ _ _ _ _ _ _ _ (download_spec _ _ max_bytes unverified _)).
    - done.
    - intros path h Hh. exact Hh.
    - intros m h Hh. exact Hh.
    - apply unverified_inv. }
  intros [path|e].
  - eapply triple_bind; [apply save_verified_spec|]. intros [[]|e]; [by apply triple_ret|].
    by eapply triple_weaken; [apply record_failure_spec|..].
  - by eapply triple_weaken; [apply record_failure_spec|..].
  Unshelve. intros h v Hu. exact Hu.
Qed.

Lemma download_pending_spec max_bytes :
  triple verified_inv (download_pending_upgrade state_dir max_bytes)
    (fun st h => us_state st = Verified /\ verified_inv h) (fun _ => verified_inv) verified_inv.
Proof.
  unfold download_pending_upgrade. eapply (triple_bind _ _ _ (fun _ => verified_inv)); [apply triple_lift; by intros|].
  intros _ fs h Hinv. refine ((_ : triple (fun w => w = h) _ _ _ _) fs h eq_refl).
  eapply triple_bind; [eapply triple_weaken; [apply (load_spec h)|done|intros r w Hw; exact Hw|by intros m w ->|by intros w ->]|].
  intros [st|]; [|apply triple_raise; by intros w [-> _]].
  destruct (us_state st) eqn:Es; [| |apply triple_ret; by intros w [-> _]|apply triple_raise; by intros w [-> _]].
  all: eapply triple_weaken; [apply fetch_pending_spec|by intros w [-> _]|done..].
Qed.

End verified.

Section history.
Context `{Sha256} (state_dir : string).

(** One operation on the upgrade state, each run under its own faults, a download with the answers of
    the servers at that time. *)
Inductive UpgradeOp :=
| OpAccept (i : UpgradeInstruction) (b : BuildIdentity)
| OpDownload (answers : Https) (max_bytes : Z).

Definition run_op (op : UpgradeOp) (fs : list io_fault) (h : Host) : Host :=
  match op with
  | OpAccept i b => snd (store_accept i b fs h)
  | OpDownload answers max_bytes => snd (download_pending_upgrade (H0 := answers) state_dir max_bytes fs h)
  end.

Definition run_ops (ops : list (UpgradeOp * list io_fault)) (h : Host) : Host :=
  fold_left (fun h '(op, fs) => run_op op fs h) ops h.

Lemma accept_keeps b i fs h : verified_inv h -> verified_inv (snd (store_accept i b fs h)).
Proof.
  intros Hinv. assert (Ha : forall h', accepts b i h h' -> verified_inv h') by (intros h' (_ & _ & cut & ->); by apply saved_inv).
  pose proof (accept_spec b i h fs h eq_refl) as Hs. destruct (store_accept i b fs h) as [[[st|m|] fs'] h']; cbn.
  - destruct Hs as [[_ ->]|[_ Hs]]; [done|by apply Ha].
  - by subst h'.
  - destruct Hs as [->|Hs]; [done|by apply Ha].
Qed.

Lemma run_op_keeps op fs h : verified_inv h -> verified_inv (run_op op fs h).
Proof.
  intros Hinv. destruct op as [i b|answers max_bytes]; cbn; [by apply accept_keeps|].
  pose proof (download_pending_spec (H0 := answers) state_dir max_bytes fs h Hinv) as Hs.
  destruct (download_pending_upgrade _ _ fs h) as [[[st|m|] fs'] h']; cbn; [by destruct Hs|done|done].
Qed.

(** C15: Whatever instructions are accepted and downloads attempted on Linux, in any order, with any
    file or network operation failing, closing a file losing any part of it unnoticed, or the process
    being killed at any point: whenever the state file can be read and says [VERIFIED], the artifact
    it names exists and has the SHA-256 digest of its instruction.  (Nothing is synced: a loss of
    power, after which a renamed file may lack its content, is not covered.) *)
Theorem verified_artifact ops h :
  verified_inv h -> verified_inv (run_ops ops h).
Proof.
  unfold run_ops. revert h. induction ops as [|[op fs] ops IH]; intros h Hinv; [done|]. cbn. by apply IH, run_op_keeps.
Qed.

End history.

(** ** Instructions that cannot be read back *)

(** An instruction with an unreadable text (which a response can contain: the response reader
    understands backspace and form-feed escapes, the state file prints them as escapes that its
    reader does not) is accepted and stored, and from then on every call that accepts an
    instruction, this or any other, fails: the agent can no longer be upgraded. *)
Theorem unreadable_instruction_blocks b i h :
  validate_upgrade_instruction i b = Ok tt -> Exists (fun v => readable v = false) (instruction_texts i) -> replaceable b i h ->
  exists h', store_accept i b [] h = (Done (fresh_state i), [], h') /\
    forall b' i' fs st fs' h'', store_accept i' b' fs h' <> (Done st, fs', h'').
Proof.
  intros Hv Hu Hr. exists (set_state (Some (state_json (fresh_state i))) h).
  split; [by apply accept_runs|]. intros b' i' fs st fs' h'' E.
  assert (Hbad : forall st', state_from_json (state_json (fresh_state i)) <> Ok st').
  { intros st' [_ [Hf _]]%state_read_back. rewrite Exists_exists in Hu. destruct Hu as (v & Hin & Hx).
    rewrite Forall_forall in Hf. destruct (Hf v Hin) as [_ Hy]. congruence. }
  pose proof (accept_spec b' i' (set_state (Some (state_json (fresh_state i))) h) fs _ eq_refl) as Hs.
  rewrite E in Hs. destruct Hs as [[(text & [= <-] & Es & _) _]|[_ (_ & [?|(text & old & [= <-] & Es & _)] & _)]]; [by eapply Hbad|done|by eapply Hbad].
Qed.

(** ** Concrete runs *)

Definition sample_build : BuildIdentity :=
  MkBuild "1.0.0" "build-1" "0000000000000000000000000000000000000000" "" "linux" "x86_64" "" 1 1 [].

Definition empty_host : Host := MkHost None None None None false ∅ ∅ (Some "versions/build-1") None true [] false.

(** An instruction with the digest that [sum_digest] gives the served file. *)
Definition sample_instruction (version : string) : UpgradeInstruction :=
  MkInstruction "01234567-89ab-cdef-0123-456789abcdef" version "build-2" "1111111111111111111111111111111111111111"
    "linux" "x86_64" "agent.tar.gz" "https://github.com/neta/release" (sha256_hex (H := sum_digest) "data").

Lemma verified_artifact_witness :
  let ops := [(OpAccept (sample_instruction "2.0.0") sample_build, []); (OpDownload github_only 1024, [])] in
  let h := run_ops (H := sum_digest) "/var/lib/neta" ops empty_host in
  h_state h = Some (state_json (MkUpgradeState (sample_instruction "2.0.0") Verified
    "/var/lib/neta/upgrade/downloads/01234567-89ab-cdef-0123-456789abcdef/agent.tar.gz" "")) /\
  verified_inv (H := sum_digest) h.
Proof. cbv zeta. split; [vm_compute; reflexivity|]. apply verified_artifact. by intros text st E. Defined.

(** A response whose version ends in a backspace escape. *)
Definition backspace_version : string := "2.0.0" +:+ String (char_of 8) "".

Definition raw_member (key value : string) : string := quoted_key key +:+ ":" +:+ quoted_key value.
Definition backspace_response : string :=
  "{" +:+ quoted_key "upgrade" +:+ ":{" +:+ String.concat ","
    [raw_member "upgrade_id" "01234567-89ab-cdef-0123-456789abcdef"; raw_member "version" "2.0.0\b"; raw_member "build_id" "build-2";
     raw_member "git_commit" "1111111111111111111111111111111111111111"; raw_member "os" "linux"; raw_member "arch" "x86_64";
     raw_member "artifact_name" "agent.tar.gz"; raw_member "download_url" "https://github.com/neta/release";
     raw_member "sha256" (sha256_hex (H := sum_digest) "data")] +:+ "}}".

Lemma backspace_response_parses :
  parse_upgrade_instruction_response backspace_response = Ok (Some (sample_instruction backspace_version)).
Proof. vm_compute. reflexivity. Qed.

Lemma unreadable_instruction_blocks_witness :
  exists h', store_accept (sample_instruction backspace_version) sample_build [] empty_host =
    (Done (fresh_state (sample_instruction backspace_version)), [], h') /\
    forall b' i' fs st fs' h'', store_accept i' b' fs h' <> (Done st, fs', h'').
Proof.
  apply unreadable_instruction_blocks; [vm_compute; reflexivity|apply Exists_cons_tl, Exists_cons_hd; vm_compute; reflexivity|by left].
Defined.
