(* ===== verification/UpgradeWorker.v ===== *)
(** Applying an upgrade on Linux ([src/core/upgrade_runtime.cpp]): the activation record, extracting a
    version, switching the [current] link, the health check, and the worker with its rollback.

    Versions are the directories below [install_root/versions]; [current] and [previous] are links
    into them (a version called [.] or [..], which the code does not rule out, is taken for a
    directory of that name).  The activation record and the build metadata are replaced by
    [runtime_write], where closing the file may lose a part of it ([h_lost]).  What [tar] unpacks,
    the identity files and whether the new agent stays alive are parameters.  Progress reports are
    recorded as sent; that they reach the coordinator is not modelled, and nothing depends on it.

    The theorems: a worker that returns has installed the verified artifact and it runs
    ([upgrade_success]); a worker that fails has left the host alone, has rolled it back, or its
    activation file says so, and wherever it is killed, [current] is at the old version or the
    complete new one ([upgrade_failure]). *)

From S2P Require Import Prelude Text Wire Faults Crypto NapSequence OutboundQueue Dispatcher UpgradeText UpgradeStore.

#[local] Arguments String.append !_ _ /.
#[local] Open Scope io_scope.

Definition kFailureCodeMax : nat := 64.
Definition kFailureMessageMax : nat := 1000.

(** ** The activation record *)

Inductive UpgradeActivationState := Installing | LocalHealthy | ActivationFailed | RolledBack.
#[global] Instance UpgradeActivationState_eq_dec : EqDecision UpgradeActivationState.
Proof. solve_decision. Defined.

Definition activation_state_to_string (state : UpgradeActivationState) : string :=
  match state with
  | Installing => "INSTALLING" | LocalHealthy => "LOCAL_HEALTHY" | ActivationFailed => "FAILED" | RolledBack => "ROLLED_BACK"
  end.

Definition upgrade_activation_state_from_string (value : string) : result UpgradeActivationState :=
  if bool_decide (value = "INSTALLING") then Ok Installing
  else if bool_decide (value = "LOCAL_HEALTHY") then Ok LocalHealthy
  else if bool_decide (value = "FAILED") then Ok ActivationFailed
  else if bool_decide (value = "ROLLED_BACK") then Ok RolledBack
  else Throw ("unknown upgrade activation state: " +:+ value).

Record UpgradeActivationRecord := MkActivation {
  ua_upgrade_id : string; ua_state : UpgradeActivationState; ua_install_root : string;
  ua_previous_target : string; ua_active_target : string; ua_failure_code : string; ua_failure_message : string }.

Fixpoint member_chars (s : string) : result string :=
  match s with
  | EmptyString => Throw "unterminated JSON string in upgrade activation state"
  | String c s' =>
      if is_char 34 c then Ok ""
      else if negb (is_char 92 c) then let? value := member_chars s' in Ok (String c value)
      else match s' with
           | EmptyString => Throw "unterminated JSON string in upgrade activation state"
           | String e s'' =>
               match unescape e with
               | None => Throw "unsupported JSON escape in upgrade activation state"
               | Some ch => let? value := member_chars s'' in Ok (String ch value)
               end
           end
  end.

Definition member_string (text key : string) : result string :=
  match find_from text (quoted_key key) 0 with
  | None => Ok ""
  | Some pos =>
      let rest := substr_from text (pos + String.length (quoted_key key)) in
      if negb (has_char 58 rest) then Ok ""
      else
        let rest := drop_while isspace (after_char 58 rest) in
        if begins (is_char 34) rest then member_chars (behind rest) else Ok ""
  end.

Definition activation_members (record : UpgradeActivationRecord) : list (string * string) :=
  [("upgrade_id", ua_upgrade_id record); ("state", activation_state_to_string (ua_state record));
   ("install_root", ua_install_root record); ("previous_target", ua_previous_target record);
   ("active_target", ua_active_target record); ("failure_code", ua_failure_code record);
   ("failure_message", ua_failure_message record)].

Definition activation_json (record : UpgradeActivationRecord) : string := print_object (activation_members record).

Definition activation_from_json (text : string) : result UpgradeActivationRecord :=
  let? upgrade_id := member_string text "upgrade_id" in
  let? state_text := member_string text "state" in
  let? state := upgrade_activation_state_from_string state_text in
  let? install_root := member_string text "install_root" in
  let? previous_target := member_string text "previous_target" in
  let? active_target := member_string text "active_target" in
  let? failure_code := member_string text "failure_code" in
  let? failure_message := member_string text "failure_message" in
  let? _ := throw_if (bool_decide (upgrade_id = "")) "upgrade activation record missing upgrade_id" in
  Ok (MkActivation upgrade_id state install_root previous_target active_target failure_code failure_message).

Definition activation_load : U (option UpgradeActivationRecord) :=
  let* text := io_read h_activation in
  match text with
  | None => ret None
  | Some text => let* record := lift (activation_from_json text) in ret (Some record)
  end.

(** [atomic_write] of this file, as in the POSIX builds; the path in the error of a failed rename is left out. *)
Definition runtime_write (put : option string -> Host -> Host) (content : string) : U unit :=
  replace_file true "cannot atomically replace " (installed put content).

Definition activation_save (record : UpgradeActivationRecord) : U unit := runtime_write set_activation (activation_json record).

Definition with_activation_state (state : UpgradeActivationState) (code message : string) (r : UpgradeActivationRecord) :
    UpgradeActivationRecord :=
  MkActivation (ua_upgrade_id r) state (ua_install_root r) (ua_previous_target r) (ua_active_target r) code message.
Definition with_active_target (target : string) (r : UpgradeActivationRecord) : UpgradeActivationRecord :=
  MkActivation (ua_upgrade_id r) (ua_state r) (ua_install_root r) (ua_previous_target r) target (ua_failure_code r) (ua_failure_message r).
Definition with_previous_target (target : string) (r : UpgradeActivationRecord) : UpgradeActivationRecord :=
  MkActivation (ua_upgrade_id r) (ua_state r) (ua_install_root r) target (ua_active_target r) (ua_failure_code r) (ua_failure_message r).

(** ** The installed build *)

Definition installed_text (i : UpgradeInstruction) : string :=
  "artifact_sha256=" +:+ ui_sha256 i +:+ newline +:+ "upgrade_id=" +:+ ui_upgrade_id i +:+ newline +:+
  "version=" +:+ ui_version i +:+ newline +:+ "build_id=" +:+ ui_build_id i +:+ newline +:+
  "git_commit=" +:+ ui_git_commit i +:+ newline.

Definition write_installed_build (i : UpgradeInstruction) : U unit := runtime_write set_installed (installed_text i).

Definition strip_cr (line : string) : string :=
  match back line with Some c => if is_char 13 c then pop_back line else line | None => line end.

Definition installed_build_value (conf : option string) (key : string) : string :=
  match conf with
  | None => ""
  | Some text => value_or (find_line (key +:+ "=") (map strip_cr (lines text))) ""
  end.

(** ** The identity *)

Record FleetIdentity := MkIdentity {
  fi_coordinator : string; fi_fleet_id : string; fi_agent_id : string; fi_certificate_sha256 : string; fi_state_dir : string }.

Definition config_value (text key : string) : string := value_or (find_line (key +:+ "=") (lines text)) "".

Definition load_identity (state_dir : string) (files : Tree) : result FleetIdentity :=
  match files !! "identity.conf" with
  | None => Throw ("cannot open " +:+ path_join state_dir "identity.conf")
  | Some config =>
      let identity := MkIdentity (config_value config "coordinator") (config_value config "fleet_id")
        (config_value config "agent_id") (config_value config "certificate_sha256") state_dir in
      if bool_decide (fi_coordinator identity = "") || bool_decide (fi_fleet_id identity = "") ||
         bool_decide (fi_agent_id identity = "") || bool_decide (fi_certificate_sha256 identity = "")
      then Throw "fleet identity configuration is incomplete"
      else Ok identity
  end.

Definition identity_names : list string := ["identity.conf"; "agent.crt"; "agent.key"; "fleet-ca.crt"].

Definition require_identity_files (state_dir : string) (files : Tree) : result unit :=
  match List.find (fun name => negb (has (files !! name))) identity_names with
  | Some name => Throw ("fleet identity file missing: " +:+ name)
  | None => let? _ := load_identity state_dir files in Ok tt
  end.

(** ** Versions *)

Definition safe_token (value : string) : bool :=
  negb (bool_decide (value = "")) && (String.length value <=? 128)%nat &&
  string_all (fun c => isdigit c || isupper c || ((97 <=? code c) && (code c <=? 122)) || is_char 46 c || is_char 95 c || is_char 45 c) value.

Definition slash : ascii -> bool := is_char 47.
Definition filename (path : string) : string := match split_last slash path with Some (_, name) => name | None => path end.
Definition parent (path : string) : string := match split_last slash path with Some (dir, _) => dir | None => "" end.

Definition agent_paths (tree : Tree) : list string :=
  List.filter (fun path => bool_decide (filename path = "neta-agent")) (map_to_list tree).*1.

Definition find_packaged_agent (tree : Tree) : result string :=
  match agent_paths tree with
  | [] => Throw "upgrade package does not contain neta-agent executable"
  | [path] => Ok path
  | _ => Throw "upgrade package contains multiple agent executables"
  end.

(** The files of [tree] below [dir], by their path inside [dir]. *)
Definition subtree (dir : string) (tree : Tree) : Tree :=
  if bool_decide (dir = "") then tree
  else list_to_map (omap (fun '(path, content) =>
    if starts_with (dir +:+ "/") path then Some (substr_from path (String.length dir + 1), content) else None) (map_to_list tree)).

(** The versions once the directory [dir] of [staging] has been renamed away. *)
Definition moved_out (dir staging : string) (staged : Tree) (versions : gmap string Tree) : gmap string Tree :=
  if bool_decide (dir = "") then delete staging versions
  else <[staging := filter (fun '(path, _) => starts_with (dir +:+ "/") path = false) staged]> versions.

Section worker.
Context `{Sha256} `{Https}.
Variables (state_dir install_root : string).

(** What [tar] unpacks an archive to, if it succeeds; the files of the state directory that hold the
    identity; and whether the agent is alive each time it is polled. *)
Variables (unpack : string -> option Tree) (identity_files : Tree) (health_timeout : Z) (alive : list bool).

Definition versions_dir : string := path_join install_root "versions".
Definition version_path (name : string) : string := path_join versions_dir name.

(** The version a path is the directory of. *)
Definition version_of (path : string) : option string :=
  if starts_with (versions_dir +:+ "/") path then Some (substr_from path (String.length versions_dir + 1)) else None.

Definition version_tree (path : string) (h : Host) : option Tree := version_of path ≫= fun name => h_versions h !! name.

(** Copying a directory: an interrupted copy leaves some of its files. *)
Definition copy_version (name : string) (tree : Tree) : U unit := fun fs h =>
  let copied files := set_versions (<[name := files]> (h_versions h)) h in
  let part kept := match kept with None => h | Some n => copied (list_to_map (take n (map_to_list tree))) end in
  match next_fault fs with
  | (IoDone, fs') => (Done tt, fs', copied tree)
  | (IoThrows message kept, fs') => (Threw message, fs', part kept)
  | (IoCrashes kept, fs') => (Crashed, fs', part kept)
  end.

Definition remove_version (name : string) : U unit := io_update (fun h => set_versions (delete name (h_versions h)) h).

(** The archive is unpacked to the staging directory. *)
Definition run_tar (archive staging : string) : U unit :=
  let failure := raise "failed to extract Linux upgrade package" in
  let* content := catch (io_read (fun h => h_artifacts h !! archive)) (fun _ => ret None) in
  match content ≫= unpack with
  | None => failure
  | Some tree => catch (io_update (fun h => set_versions (<[staging := tree]> (h_versions h)) h)) (fun _ => failure)
  end.

(** The package, a directory of [staging], is renamed, and copied if that fails. *)
Definition place_package (name : string) (package : Tree) (dir staging : string) (staged : Tree) : U unit :=
  let* renamed := trying (io_update (fun h => set_versions (<[name := package]> (moved_out dir staging staged (h_versions h))) h)) in
  match renamed with
  | Ok _ => ret tt
  | Throw _ =>
      let* _ := io_update (fun h => set_versions (<[name := ∅]> (h_versions h)) h) in
      copy_version name package
  end.

Definition archive_name_ok (name : string) : bool := ends_with ".tar.gz" name || ends_with ".tgz" name.

(** The part of [extract_version] that installs a version which is not there yet. *)
Definition unpack_version (state : UpgradeState) : U unit :=
  let i := us_instruction state in
  let name := ui_build_id i in
  let staging := ".staging-" +:+ ui_upgrade_id i in
  let* _ := io_step in
  let* _ := remove_version staging in
  let* _ := io_update (fun h => set_versions (<[staging := ∅]> (h_versions h)) h) in
  let* _ := lift (throw_if (negb (archive_name_ok (ui_artifact_name i))) "Linux upgrade package must be a .tar.gz archive") in
  let* _ := run_tar (us_download_path state) staging in
  let* staged := io_read (fun h => value_or (h_versions h !! staging) ∅) in
  let* agent := lift (find_packaged_agent staged) in
  let dir := parent agent in
  let package := subtree dir staged in
  let* _ := place_package name package dir staging staged in
  let* _ := remove_version staging in
  let* installed := io_read (fun h => value_or (h_versions h !! name) ∅) in
  let* _ := lift (find_packaged_agent installed) in
  ret tt.

Definition extract_version (state : UpgradeState) : U string :=
  let i := us_instruction state in
  let* _ := lift (throw_if (negb (safe_token (ui_build_id i))) "upgrade build_id is unsafe for versioned installation") in
  let* _ := verify_file (us_download_path state) (ui_sha256 i) kDefaultMaxBytes in
  let name := ui_build_id i in
  let target := version_path name in
  let* present := io_read (fun h => h_versions h !! name) in
  match present with
  | Some tree => let* _ := lift (find_packaged_agent tree) in ret target
  | None => let* _ := unpack_version state in ret target
  end.

(** [std::filesystem::relative(target, install_root)] for a version directory. *)
Definition link_to (name : string) : string := path_join "versions" name.

Definition activate_version (name : string) : U string :=
  let* link := catch (io_read h_current) (fun _ => ret None) in
  let old_target := value_or link "" in
  let* _ :=
    if bool_decide (old_target = "") then ret tt
    else let* _ := io_step in
         catch (io_update (set_previous (Some old_target))) (fun _ => ret tt) in
  let* _ := io_step in
  let* switched := trying (io_update (set_current (Some (link_to name)))) in
  match switched with
  | Ok _ => ret old_target
  | Throw error => raise ("failed to atomically switch Linux current version: " +:+ error)
  end.

Definition rollback_version (activation : UpgradeActivationRecord) : U unit :=
  let* _ := lift (throw_if (bool_decide (ua_previous_target activation = "")) "no previous Linux version available") in
  let* _ := io_step in
  let* switched := trying (io_update (set_current (Some (ua_previous_target activation)))) in
  match switched with
  | Ok _ => ret tt
  | Throw error => raise ("failed to restore previous Linux version: " +:+ error)
  end.

(** ** The service and its health *)

Definition stop_service : U unit := catch (io_update (set_running false)) (fun _ => ret tt).
Definition start_service : U unit := catch (io_update (set_running true)) (fun _ => raise "failed to start Linux NETA service").

Record UpgradeHealthResult := MkHealth { uh_healthy : bool; uh_failure_code : string; uh_message : string }.

Definition check_upgrade_health (h : Host) (expected : UpgradeInstruction) : UpgradeHealthResult :=
  let checks : result UpgradeHealthResult :=
    let? _ := require_identity_files state_dir identity_files in
    let? activation := match h_activation h with
                       | None => Ok None
                       | Some text => let? r := activation_from_json text in Ok (Some r)
                       end in
    let mismatch := MkHealth false "ACTIVATION_STATE_MISMATCH" in
    match activation with
    | None => Ok (mismatch "upgrade activation record does not match expected upgrade")
    | Some activation =>
        if negb (bool_decide (ua_upgrade_id activation = ui_upgrade_id expected))
        then Ok (mismatch "upgrade activation record does not match expected upgrade")
        else if negb (bool_decide (ua_state activation = Installing)) && negb (bool_decide (ua_state activation = LocalHealthy))
        then Ok (mismatch "upgrade activation is not in a healthy-checkable state")
        else if negb (bool_decide (installed_build_value (h_installed h) "upgrade_id" = ui_upgrade_id expected)) ||
                negb (bool_decide (installed_build_value (h_installed h) "version" = ui_version expected)) ||
                negb (bool_decide (installed_build_value (h_installed h) "build_id" = ui_build_id expected)) ||
                negb (bool_decide (installed_build_value (h_installed h) "git_commit" = ui_git_commit expected))
        then Ok (MkHealth false "BUILD_IDENTITY_MISMATCH" "installed build metadata does not match expected upgrade target")
        else if negb (bool_decide (installed_build_value (h_installed h) "artifact_sha256" = ui_sha256 expected))
        then Ok (MkHealth false "ARTIFACT_IDENTITY_MISMATCH" "installed artifact SHA does not match expected upgrade target")
        else
          let active_target := ua_active_target activation in
          match version_tree active_target h with
          | None => Ok (MkHealth false "ACTIVE_TARGET_MISMATCH" "upgrade active target directory is missing")
          | Some tree =>
              if negb (bool_decide (filename active_target = ui_build_id expected))
              then Ok (MkHealth false "ACTIVE_TARGET_MISMATCH" "upgrade active target build does not match expected build_id")
              else if negb (bool_decide ((path_join (ua_install_root activation) <$> h_current h) = Some active_target))
              then Ok (MkHealth false "ACTIVE_TARGET_MISMATCH" "current symlink does not resolve to activated target")
              else let? _ := find_packaged_agent tree in Ok (MkHealth true "" "upgrade health checks passed")
          end
    end in
  match checks with
  | Ok health => health
  | Throw error => MkHealth false "HEALTH_CHECK_FAILED" (bounded error kFailureMessageMax)
  end.

(** The polls until the deadline: one a second. *)
Definition becomes_healthy (h : Host) (expected : UpgradeInstruction) : bool :=
  existsb (fun poll => h_running h && poll && uh_healthy (check_upgrade_health h expected)) (take (Z.to_nat health_timeout) alive).

Definition wait_for_health (expected : UpgradeInstruction) : U bool :=
  catch (io_read (fun h => becomes_healthy h expected)) (fun _ => ret false).

Definition best_effort_report (upgrade_id status failure_code failure_message : string) : U unit :=
  catch (io_update (add_report (upgrade_id, status, bounded failure_code kFailureCodeMax, bounded failure_message kFailureMessageMax)))
    (fun _ => ret tt).

(** ** The worker *)

(** The variables that the [catch] block of [run_upgrade_worker] reads. *)
Record WorkerLocals := MkLocals { wl_state : UpgradeState; wl_activation : UpgradeActivationRecord; wl_attempted : bool }.

(** A statement of the [try] block: when it throws, the block ends with the locals as they are. *)
Definition within {A} (locals : WorkerLocals) (m : U A) (k : A -> U (WorkerLocals * result unit)) : U (WorkerLocals * result unit) :=
  let* r := trying m in
  match r with
  | Ok a => k a
  | Throw error => ret (locals, Throw error)
  end.

Definition fetch_state (state : UpgradeState) : U UpgradeState :=
  if bool_decide (us_state state = Verified) then ret state
  else
    let* _ := best_effort_report (ui_upgrade_id (us_instruction state)) "DOWNLOADING" "" "" in
    download_pending_upgrade state_dir kDefaultMaxBytes.

(** The [try] block from the moment the service is stopped. *)
Definition switch_over (state : UpgradeState) (activation : UpgradeActivationRecord) : U (WorkerLocals * result unit) :=
  let i := us_instruction state in
  let* _ := stop_service in
  within (MkLocals state activation true) (activate_version (ui_build_id i)) (fun previous =>
  let activation := with_previous_target previous activation in
  let locals := MkLocals state activation true in
  within locals (write_installed_build i) (fun _ =>
  within locals (activation_save activation) (fun _ =>
  within locals start_service (fun _ =>
  within locals (wait_for_health i) (fun healthy : bool =>
  if negb healthy then ret (locals, Throw "new agent did not become locally healthy before timeout")
  else
    let activation := with_activation_state LocalHealthy "" "" activation in
    let locals := MkLocals state activation true in
    within locals (activation_save activation) (fun _ =>
    let* _ := best_effort_report (ui_upgrade_id i) "LOCAL_HEALTHY" "" "" in
    ret (locals, Ok tt))))))).

(** The [try] block. *)
Definition install (state : UpgradeState) (activation : UpgradeActivationRecord) : U (WorkerLocals * result unit) :=
  within (MkLocals state activation false) (fetch_state state) (fun state =>
  let i := us_instruction state in
  let* _ := best_effort_report (ui_upgrade_id i) "INSTALLING" "" "" in
  let activation := with_activation_state Installing (ua_failure_code activation) (ua_failure_message activation) activation in
  within (MkLocals state activation false) (activation_save activation) (fun _ =>
  within (MkLocals state activation false) (extract_version state) (fun target =>
  switch_over state (with_active_target target activation)))).

(** The inner [try] block of the handler: the old version again. *)
Definition restore_previous (upgrade_id : string) (activation : UpgradeActivationRecord) (message : string) : U (UpgradeActivationRecord * result unit) :=
  let* r := trying (let* _ := stop_service in let* _ := rollback_version activation in start_service) in
  match r with
  | Throw error => ret (activation, Throw error)
  | Ok _ =>
      let activation := with_activation_state RolledBack "ROLLED_BACK_AFTER_FAILURE" (ua_failure_message activation) activation in
      let* saved := trying (activation_save activation) in
      match saved with
      | Throw error => ret (activation, Throw error)
      | Ok _ =>
          let* _ := best_effort_report upgrade_id "ROLLED_BACK" (ua_failure_code activation) message in
          ret (activation, Ok tt)
      end
  end.

(** The [catch] block. *)
Definition handle_failure (locals : WorkerLocals) (error : string) : U unit :=
  let upgrade_id := ui_upgrade_id (us_instruction (wl_state locals)) in
  let message := bounded error kFailureMessageMax in
  let activation := with_activation_state ActivationFailed "HEALTH_OR_ACTIVATION_FAILED" message (wl_activation locals) in
  let* _ := activation_save activation in
  let* _ := best_effort_report upgrade_id "FAILED" (ua_failure_code activation) message in
  if negb (wl_attempted locals) then raise error
  else
    let* (activation, restored) := restore_previous upgrade_id activation message in
    match restored with
    | Ok _ => raise error
    | Throw rollback_error =>
        let failure := bounded (error +:+ "; rollback: " +:+ rollback_error) kFailureMessageMax in
        let activation := with_activation_state (ua_state activation) "ROLLBACK_FAILED" failure activation in
        let* _ := activation_save activation in
        let* _ := best_effort_report upgrade_id "FAILED" (ua_failure_code activation) failure in
        raise error
    end.

Definition run_upgrade_worker : U unit :=
  let* _ := lift (throw_if (bool_decide (state_dir = "") || bool_decide (install_root = ""))
                    "upgrade worker requires state_dir and install_root") in
  let* state := store_load in
  match state with
  | None => raise "no pending upgrade instruction"
  | Some state =>
      let activation := MkActivation (ui_upgrade_id (us_instruction state)) Installing install_root "" "" "" "" in
      let* (locals, installed) := install state activation in
      match installed with
      | Ok _ => ret tt
      | Throw error => handle_failure locals error
      end
  end.

End worker.

(** ** What the worker does to the host *)

Section outcome.
Context `{Sha256} `{Https} (state_dir install_root : string).
Context (unpack : string -> option Tree) (identity_files : Tree) (health_timeout : Z) (alive : list bool).
Context (h0 : Host) (i : UpgradeInstruction).

(** The running version, its metadata and the service are as they were. *)
Definition untouched (h : Host) : Prop :=
  h_current h = h_current h0 /\ h_installed h = h_installed h0 /\ h_running h = h_running h0.

(** The other version directories are as they were. *)
Definition others_kept (h : Host) : Prop :=
  forall name, name <> ui_build_id i -> name <> ".staging-" +:+ ui_upgrade_id i -> h_versions h !! name = h_versions h0 !! name.

(** [tree] was installed before, or is the package that the archive [content] unpacks to. *)
Definition from_archive (tree : Tree) (content : string) : Prop :=
  h_versions h0 !! ui_build_id i = Some tree \/
  exists all agent, unpack content = Some all /\ find_packaged_agent all = Ok agent /\ tree = subtree (parent agent) all.

(** The new version is complete, from an archive with the right digest. *)
Definition ready (h : Host) : Prop :=
  others_kept h /\
  exists path content tree agent, h_artifacts h !! path = Some content /\ normalize_sha256 (ui_sha256 i) = Ok (sha256_hex content) /\
    h_versions h !! ui_build_id i = Some tree /\ find_packaged_agent tree = Ok agent /\ from_archive tree content.

Definition not_switched (h : Host) : Prop := h_current h = h_current h0 /\ ready h.
Definition switched (h : Host) : Prop := h_current h = Some (link_to (ui_build_id i)) /\ ready h.

(** Unless closing a file has lost a part of it, the activation file has a record in the given states. *)
Definition recorded (states : list UpgradeActivationState) (h : Host) : Prop :=
  h_lost h = false -> exists r, h_activation h = Some (activation_json r) /\ ua_upgrade_id r = ui_upgrade_id i /\ ua_state r ∈ states.

Lemma triple_within {A} locals (m : U A) k P Q R T' (T : string -> Host -> Prop) C :
  triple P m Q T' C -> (forall a, triple (Q a) (k a) R T C) -> (forall e h, T' e h -> R (locals, Throw e) h) ->
  triple P (within locals m k) R T C.
Proof.
  intros Hm Hk Ht. eapply triple_bind; [by apply triple_trying|]. intros [a|e]; [apply Hk|]. apply triple_ret. intros h. apply Ht.
Qed.

Lemma report_spec id status code message P (T : string -> Host -> Prop) :
  (forall h r, P h -> P (add_report r h)) -> triple P (best_effort_report id status code message) (fun _ => P) T P.
Proof. intros Hr. eapply triple_catch; [apply triple_keep; auto|]. intros m. by apply triple_ret. Qed.

(** A download keeps everything but the state, the artifacts and the reports. *)
Lemma download_keeps st (P : Host -> Prop) :
  (forall h v, P h -> P (set_artifacts v h)) -> (forall h text cut, P h -> P (installed set_state text cut h)) ->
  triple P (fetch_pending state_dir st kDefaultMaxBytes)
    (fun st' h => P h /\ us_instruction st' = us_instruction st) (fun _ => P) P.
Proof.
  intros Ha Hs. assert (Hsave : forall st', triple P (store_save st') (fun _ => P) (fun _ => P) P) by (intros; apply triple_replace_keep; auto).
  assert (Hfail : forall (A : Type) j path e Q, triple P (record_failure (A := A) j path e) Q (fun _ => P) P).
  { intros A j path e Q. eapply triple_bind; [apply Hsave|]. intros []. by apply triple_raise. }
  eapply triple_bind; [apply Hsave|]. intros []. eapply triple_bind.
  { eapply triple_trying, (download_spec _ _ _ P Ha). }
  intros [path|e]; [|apply Hfail]. eapply triple_bind.
  { eapply triple_trying. intros fs h [Hp _]. exact (Hsave _ fs h Hp). }
  intros [[]|e]; [by apply triple_ret|apply Hfail].
Qed.

Lemma fetch_state_spec st text (P : Host -> Prop) :
  state_from_json text = Ok st ->
  (forall h v, P h -> P (set_artifacts v h)) -> (forall h text cut, P h -> P (installed set_state text cut h)) -> (forall h r, P h -> P (add_report r h)) ->
  triple (fun h => P h /\ h_state h = Some text) (fetch_state state_dir st)
    (fun st' h => P h /\ us_instruction st' = us_instruction st) (fun _ => P) P.
Proof.
  intros Es Ha Hs Hr. unfold fetch_state. case_bool_decide; [apply triple_ret; by intros h [? _]|].
  eapply triple_bind.
  { eapply triple_weaken; [apply (report_spec _ _ _ _ (fun h => P h /\ h_state h = Some text) (fun _ => P)); by intros h r [? ?]; auto|done|intros a h Hx; exact Hx|done|by intros h [? _]]. }
  intros []. unfold download_pending_upgrade. eapply (triple_bind _ _ _ (fun _ h => P h /\ h_state h = Some text)); [apply triple_lift; [done|by intros m h _ [? _]]|].
  intros [] fs h [Hp Et]. refine ((_ : triple (fun w => w = h) _ _ _ _) fs h eq_refl).
  eapply triple_bind; [eapply triple_weaken; [apply (load_spec h)|done|intros r w Hw; exact Hw|by intros m w ->|by intros w ->]|].
  intros r fs' w [-> Hl]. refine ((_ : triple P _ _ _ _) fs' h Hp).
  assert (Er : r = Some st) by (destruct r as [st'|]; [destruct Hl as (t & Ht & Ej)|]; congruence). rewrite Er.
  destruct (us_state st); [by apply download_keeps| |by apply triple_ret|by apply triple_raise]. by apply download_keeps.
Qed.

(** *** Extracting *)

Lemma others_update h v :
  others_kept h -> (forall name, name <> ui_build_id i -> name <> ".staging-" +:+ ui_upgrade_id i -> v !! name = h_versions h !! name) ->
  others_kept (set_versions v h).
Proof. intros Hk Hv name H1 H2. cbn. rewrite Hv by done. by apply Hk. Qed.

Section extract.
Context (F : Host -> Prop) (path content : string).
Hypothesis F_versions : forall h v, F h -> F (set_versions v h).

#[local] Notation name := (ui_build_id i).
#[local] Notation staging := (".staging-" +:+ ui_upgrade_id i).

Definition extracting (h : Host) : Prop := F h /\ others_kept h.
Definition archive_at (h : Host) : Prop := h_artifacts h !! path = Some content /\ normalize_sha256 (ui_sha256 i) = Ok (sha256_hex content).

Lemma extracting_update h v :
  extracting h -> (forall other, other <> name -> other <> staging -> v !! other = h_versions h !! other) -> extracting (set_versions v h).
Proof. intros [Hf Ho] Hv. split; [by apply F_versions|by apply others_update]. Qed.

Lemma versions_update f (R : Host -> Prop) (T : string -> Host -> Prop) :
  (forall h other, other <> name -> other <> staging -> f h !! other = h_versions h !! other) ->
  (forall h, archive_at h -> R (set_versions (f h) h)) -> (forall m h, extracting h -> archive_at h -> T m h) ->
  triple (fun h => extracting h /\ archive_at h) (io_update (fun h => set_versions (f h) h))
    (fun _ h => (extracting h /\ archive_at h) /\ R h) T extracting.
Proof.
  intros Hf HR HT. apply triple_update.
  - intros h [He Ha]. split; [split; [by apply extracting_update; auto|done]|by apply HR].
  - intros m h [He Ha]. by apply HT.
  - intros h [He Ha]. split; [done|by apply extracting_update; auto].
Qed.

Lemma run_tar_spec :
  triple (fun h => extracting h /\ archive_at h) (run_tar unpack path staging)
    (fun _ h => (extracting h /\ archive_at h) /\ exists all, unpack content = Some all /\ h_versions h !! staging = Some all)
    (fun _ => extracting) extracting.
Proof.
  unfold run_tar. eapply (triple_bind _ _ _ (fun c h => (c = None \/ c = Some content) /\ extracting h /\ archive_at h)).
  { eapply triple_catch; [eapply triple_weaken; [by apply (triple_read _ (fun h => extracting h /\ archive_at h) (fun _ h => extracting h /\ archive_at h) extracting); [|intros h [? _]]|done| |done|done]|].
    - intros c h [-> [He [Ha Hn]]]. rewrite Ha. split; [by right|done].
    - intros m. apply triple_ret. by intros h Hh; split; [left|]. }
  intros c. apply triple_pure. intros Hc. destruct (c ≫= unpack) as [all|] eqn:Eu; [|apply triple_raise; by intros h [? _]].
  assert (Ec : unpack content = Some all) by (destruct Hc as [->| ->]; done).
  eapply triple_catch; [eapply (versions_update _ _ (fun _ => extracting))|intros m; by apply triple_raise].
  - intros h other _ Hs. by rewrite lookup_insert_ne.
  - intros h _. exists all. split; [done|]. apply lookup_insert_eq.
  - by intros m h He _.
Qed.

Lemma moved_out_lookup dir staged versions other : other <> staging -> moved_out dir staging staged versions !! other = versions !! other.
Proof. intros Hs. unfold moved_out. case_bool_decide; [by rewrite lookup_delete_ne|by rewrite lookup_insert_ne]. Qed.

Definition placed (package : Tree) (h : Host) : Prop := (extracting h /\ archive_at h) /\ h_versions h !! name = Some package.

Lemma place_spec dir staged package :
  triple (fun h => extracting h /\ archive_at h) (place_package name package dir staging staged)
    (fun _ => placed package) (fun _ => extracting) extracting.
Proof.
  eapply triple_bind.
  { eapply triple_trying, (versions_update _ (fun h => h_versions h !! name = Some package) (fun _ h => extracting h /\ archive_at h)).
    - intros h other Hn Hs. by rewrite lookup_insert_ne, moved_out_lookup.
    - intros h _. apply lookup_insert_eq.
    - done. }
  intros [[]|e]; [by apply triple_ret|]. eapply triple_bind.
  { apply (versions_update _ (fun _ => True) (fun _ => extracting)); [|done|by intros]. intros h other Hn _. by rewrite lookup_insert_ne. }
  intros [] fs h [[He Ha] _]. unfold copy_version.
  assert (Hc : forall t, extracting (set_versions (<[name:=t]> (h_versions h)) h)).
  { intros t. apply extracting_update; [done|]. intros other Hn _. by rewrite lookup_insert_ne. }
  destruct (next_fault fs) as [[|m [n|]|[n|]] fs']; auto. split; [by split|apply lookup_insert_eq].
Qed.

Lemma remove_staging_spec package :
  triple (placed package) (remove_version staging)
    (fun _ h => (extracting h /\ archive_at h) /\ forall tree, h_versions h !! name = Some tree -> tree = package) (fun _ => extracting) extracting.
Proof.
  assert (Hd : forall h, extracting h -> extracting (set_versions (delete staging (h_versions h)) h)).
  { intros h He. apply extracting_update; [done|]. intros other _ Hs. by rewrite lookup_delete_ne. }
  apply triple_update.
  - intros h [[He Ha] Hp]. split; [split; [by apply Hd|done]|]. cbn. intros tree Ht.
    apply lookup_delete_Some in Ht as [_ Ht]. congruence.
  - by intros m h [[? _] _].
  - intros h [[He _] _]. split; [done|by apply Hd].
Qed.

End extract.

Lemma unpack_version_spec st content (F : Host -> Prop) :
  us_instruction st = i -> (forall h v, F h -> F (set_versions v h)) ->
  let G h := extracting F h /\ archive_at (us_download_path st) content h in
  triple G (unpack_version unpack st) (fun _ h => F h /\ ready h) (fun _ => extracting F) (extracting F).
Proof.
  intros Ei HF G. unfold unpack_version. rewrite Ei. cbv zeta.
  assert (HG : forall h, G h -> extracting F h) by (by intros h [? _]).
  assert (Hset : forall f, (forall h other, other <> ".staging-" +:+ ui_upgrade_id i -> f h !! other = h_versions h !! other) ->
    triple G (io_update (fun h => set_versions (f h) h)) (fun _ => G) (fun _ => extracting F) (extracting F)).
  { intros f Hf. eapply triple_weaken; [apply (versions_update F (us_download_path st) content HF f (fun _ => True) (fun _ => extracting F)); [by auto|done|by intros]|done|by intros [] h [? _]|done|done]. }
  eapply triple_bind; [apply (triple_step G); auto|]. intros [].
  eapply triple_bind; [apply Hset; intros h other Hs; by rewrite lookup_delete_ne|]. intros [].
  eapply triple_bind; [apply Hset; intros h other Hs; by rewrite lookup_insert_ne|]. intros [].
  eapply (triple_bind _ _ _ (fun _ => G)); [apply triple_lift; auto|]. intros _.
  eapply triple_bind; [by apply run_tar_spec|]. intros [] fs h [Hg (all & Hu & Hs)].
  refine ((_ : triple (fun w => G w /\ h_versions w !! (".staging-" +:+ ui_upgrade_id i) = Some all) _ _ _ _) fs h (conj Hg Hs)).
  clear fs h Hg Hs. eapply triple_bind; [apply triple_read; intros; apply HG; tauto|].
  intros staged fs h (-> & Hg & Hs). rewrite Hs. change (value_or (Some all) ∅) with all. refine ((_ : triple G _ _ _ _) fs h Hg). clear fs h Hg Hs.
  eapply (triple_bind _ _ _ (fun agent h => find_packaged_agent all = Ok agent /\ G h)); [apply triple_lift; auto|].
  intros agent. apply triple_pure. intros Hagent. eapply triple_bind; [by apply place_spec|]. intros [].
  eapply triple_bind; [by apply remove_staging_spec|]. intros [].
  eapply triple_bind; [apply triple_read; naive_solver|].
  intros installed fs h (-> & [He Ha] & Hp). destruct (h_versions h !! ui_build_id i) as [tree|] eqn:Et; [|exact He].
  change (value_or (Some tree) ∅) with tree. pose proof (Hp _ eq_refl) as ->. clear Hp. unfold bind, lift.
  destruct (find_packaged_agent (subtree (parent agent) all)) as [agent'|] eqn:Ef; [|exact He].
  destruct He as [Hf Ho]. split; [exact Hf|]. split; [exact Ho|].
  exists (us_download_path st), content, (subtree (parent agent) all), agent'. destruct Ha. split_and!; [done..|]. right. by exists all, agent.
Qed.

Lemma extract_spec st (F : Host -> Prop) :
  us_instruction st = i -> (forall h v, F h -> F (set_versions v h)) ->
  triple (fun h => F h /\ h_versions h = h_versions h0) (extract_version install_root unpack st)
    (fun target h => (F h /\ ready h) /\ target = version_path install_root (ui_build_id i))
    (fun _ => extracting F) (extracting F).
Proof.
  intros Ei HF. unfold extract_version. rewrite Ei. set (P := fun h => F h /\ h_versions h = h_versions h0).
  assert (Hstart : forall h, P h -> extracting F h).
  { intros h [Hf Hv]. split; [done|]. intros n _ _. by rewrite Hv. }
  eapply (triple_bind _ _ _ (fun _ => P)); [apply triple_lift; auto|]. intros _.
  eapply triple_bind; [eapply triple_weaken; [apply (verify_file_spec _ _ _ P)|done|intros a h Hh; exact Hh|intros m; apply Hstart|apply Hstart]|].
  intros [] fs h (Hp & content & Hc & _ & Hn).
  refine ((_ : triple (fun w => P w /\ archive_at (us_download_path st) content w) _ _ _ _) fs h (conj Hp (conj Hc Hn))).
  clear fs h Hp Hc Hn. eapply triple_bind; [apply triple_read; intros; apply Hstart; tauto|].
  intros [tree|] fs h (Ht & Hp & Ha).
  - unfold bind, lift. destruct (find_packaged_agent tree) as [agent|] eqn:Ef; cbn; [|by apply Hstart].
    destruct (Hstart h Hp) as [Hf Ho]. split; [|done]. split; [done|]. split; [done|]. destruct Ha.
    exists (us_download_path st), content, tree, agent. split_and!; [done..|]. left. destruct Hp as [_ <-]. done.
  - refine ((_ : triple (fun w => extracting F w /\ archive_at (us_download_path st) content w) _ _ _ _) fs h (conj (Hstart h Hp) Ha)).
    eapply triple_bind; [by apply unpack_version_spec|]. intros []. by apply triple_ret.
Qed.

(** *** Switching *)

(** The activation record of the running worker, before and after the switch. *)
Definition working (h : Host) : Prop := recorded [Installing] h /\ (not_switched h \/ switched h).
Definition stopped (h : Host) : Prop := recorded [Installing] h /\ not_switched h.

(** [previous] is empty or the link as it was. *)
Definition old_link (previous : string) : Prop := previous = "" \/ h_current h0 = Some previous.

Lemma activate_spec :
  triple stopped (activate_version (ui_build_id i))
    (fun previous h => old_link previous /\ recorded [Installing] h /\ switched h) (fun _ => stopped) working.
Proof.
  assert (Hw : forall h, stopped h -> working h) by (intros h [? ?]; split; auto).
  unfold activate_version. eapply (triple_bind _ _ _ (fun link h => old_link (value_or link "") /\ stopped h)).
  { eapply triple_catch; [eapply triple_weaken; [by apply (triple_read _ stopped (fun _ => stopped) working)|done| |done|done]|].
    - intros link h [-> Hs]. split; [|done]. destruct Hs as [_ [Hc _]]. rewrite Hc. destruct (h_current h0) eqn:E; [by right|by left].
    - intros m. apply triple_ret. intros h Hs. by split; [left|]. }
  intros link. apply triple_pure. intros Hold. eapply (triple_bind _ _ _ (fun _ => stopped)).
  { case_bool_decide; [by apply triple_ret|]. eapply triple_bind; [by apply (triple_step stopped)|]. intros [].
    eapply triple_catch; [apply (triple_update _ _ (fun _ => stopped) (fun _ => stopped)); auto|intros m; by apply triple_ret]. }
  intros []. eapply triple_bind; [by apply (triple_step stopped)|]. intros []. eapply triple_bind.
  { eapply triple_trying, (triple_update _ _ (fun _ h => recorded [Installing] h /\ switched h) (fun _ => stopped)); [|done|].
    - intros h [Hr [_ Hd]]. by split.
    - intros h Hs. split; [by apply Hw|]. destruct Hs as [Hr [_ Hd]]. split; [exact Hr|]. by right. }
  intros [[]|e]; [by apply triple_ret|by apply triple_raise].
Qed.

Lemma stop_service_spec (P : Host -> Prop) (T : string -> Host -> Prop) :
  (forall h, P h -> P (set_running false h)) -> triple P stop_service (fun _ => P) T P.
Proof. intros Hp. eapply triple_catch; [by apply triple_keep|]. intros m. by apply triple_ret. Qed.

Lemma start_service_spec (P : Host -> Prop) :
  (forall h, P h -> P (set_running true h)) -> triple P start_service (fun _ h => P h /\ h_running h = true) (fun _ => P) P.
Proof.
  intros Hp. eapply triple_catch; [apply (triple_update _ _ (fun _ h => P h /\ h_running h = true) (fun _ => P)); auto|]. intros m. by apply triple_raise.
Qed.

Lemma saved_recorded r states cut h :
  ua_upgrade_id r = ui_upgrade_id i -> ua_state r ∈ states -> recorded states (installed set_activation (activation_json r) cut h).
Proof. intros Hi Hs. destruct cut; [done|]. intros _. by exists r. Qed.

(** Saving a record does not touch the versions or the links. *)
Lemma saved_not_switched r cut h : not_switched h -> not_switched (installed set_activation (activation_json r) cut h).
Proof. by destruct cut. Qed.
Lemma saved_switched r cut h : switched h -> switched (installed set_activation (activation_json r) cut h).
Proof. by destruct cut. Qed.

(** *** The [try] block *)

(** The host after a successful upgrade; [record] is the activation record while it ran. *)
Definition upgraded (record : UpgradeActivationRecord) (h : Host) : Prop :=
  switched h /\ h_running h = true /\
  (h_lost h = false -> h_installed h = Some (installed_text i) /\
     h_activation h = Some (activation_json (with_activation_state LocalHealthy "" "" record))) /\
  exists text, (h_lost h = false -> text = Some (activation_json record)) /\
    uh_healthy (check_upgrade_health state_dir install_root identity_files (set_activation text h) i) = true.

Definition new_record (previous : string) : UpgradeActivationRecord :=
  MkActivation (ui_upgrade_id i) Installing install_root previous (version_path install_root (ui_build_id i)) "" "".

Definition install_post (r : WorkerLocals * result unit) (h : Host) : Prop :=
  us_instruction (wl_state r.1) = i /\ ua_upgrade_id (wl_activation r.1) = ui_upgrade_id i /\
  match r.2 with
  | Ok _ => exists previous, upgraded (new_record previous) h
  | Throw _ => if wl_attempted r.1 then working h /\ old_link (ua_previous_target (wl_activation r.1)) else untouched h /\ others_kept h
  end.

Definition install_crash (h : Host) : Prop := (untouched h \/ not_switched h \/ switched h) /\ others_kept h.

Lemma becomes_healthy_inv h : becomes_healthy state_dir install_root identity_files health_timeout alive h i = true ->
  h_running h = true /\ uh_healthy (check_upgrade_health state_dir install_root identity_files h i) = true.
Proof. unfold becomes_healthy. intros (p & _ & Hp)%existsb_exists. by to_prop. Qed.

Lemma post_failed st record e h :
  us_instruction st = i -> ua_upgrade_id record = ui_upgrade_id i -> old_link (ua_previous_target record) -> working h ->
  install_post (MkLocals st record true, Throw e) h.
Proof. intros. by split_and!. Qed.

Lemma working_crash h : working h -> install_crash h.
Proof. intros [_ [Hs|Hs]]; (split; [by auto|by destruct Hs as [_ [? _]]]). Qed.

(** From the switch to a healthy agent. *)
Definition switched_with (record : UpgradeActivationRecord) (h : Host) : Prop :=
  switched h /\ (h_lost h = false -> h_installed h = Some (installed_text i) /\ h_activation h = Some (activation_json record)).

Lemma switched_working record h :
  ua_upgrade_id record = ui_upgrade_id i -> ua_state record = Installing -> switched_with record h -> working h.
Proof.
  intros Hi Hs (Hw & Ha). split; [|by right]. intros Hl. destruct (Ha Hl) as [_ Hx]. exists record. rewrite Hs. by split_and!; [..|left].
Qed.

Lemma finish_spec st record :
  us_instruction st = i -> ua_upgrade_id record = ui_upgrade_id i -> ua_state record = Installing -> old_link (ua_previous_target record) ->
  (exists previous, record = new_record previous) ->
  let locals := MkLocals st record true in
  triple (switched_with record)
    (within locals start_service (fun _ =>
     within locals (wait_for_health state_dir install_root identity_files health_timeout alive i) (fun healthy : bool =>
     if negb healthy then ret (locals, Throw "new agent did not become locally healthy before timeout")
     else
       let activation := with_activation_state LocalHealthy "" "" record in
       let locals := MkLocals st activation true in
       within locals (activation_save activation) (fun _ =>
       let* _ := best_effort_report (ui_upgrade_id i) "LOCAL_HEALTHY" "" "" in
       ret (locals, Ok tt))))) install_post (fun _ _ => False) install_crash.
Proof.
  intros Ei Hi Hs Hold [previous Hrec] locals. set (S := switched_with record).
  assert (HS : forall h, S h -> working h) by (intros h; by apply switched_working).
  assert (HC : forall h, S h -> install_crash h) by (intros h Hh; by apply working_crash, HS).
  eapply (triple_within _ _ _ _ (fun _ => S) _ (fun _ => S)); [eapply triple_weaken; [by apply (start_service_spec S)|done|by intros _ h [? _]|done|exact HC]| |].
  2:{ intros e h Hh. apply post_failed; auto. }
  intros []. eapply (triple_within _ _ _ _ _ _ (fun _ _ => False)); [|intros healthy|done].
  { eapply (triple_catch _ _ _ (fun (healthy : bool) h => S h /\ (healthy = true -> becomes_healthy state_dir install_root identity_files health_timeout alive h i = true)) _ (fun _ => S)).
    - eapply triple_weaken; [by apply (triple_read _ S (fun _ => S) S)|done|by intros a h [-> ?]|done|exact HC].
    - intros m. by apply triple_ret. }
  destruct healthy; cbn [negb]; [|apply triple_ret; intros h [Hh _]; apply post_failed; auto].
  set (L := MkLocals st (with_activation_state LocalHealthy "" "" record) true).
  eapply (triple_within _ _ _ _ (fun _ => install_post (L, Ok tt)) _ (fun e => install_post (L, Throw e))); [|intros []|done].
  - apply triple_replace.
    + intros e h [Hh _]. apply post_failed; auto.
    + intros h [Hh _]. by apply HC.
    + intros cut h [(Hw & Ha) Hb]. destruct (becomes_healthy_inv h (Hb eq_refl)) as [Hrun Hh].
      pose proof (saved_switched (with_activation_state LocalHealthy "" "" record) cut h Hw) as Hw'. split.
      * split; [done|]. split; [done|]. exists previous. rewrite <- Hrec. split; [exact Hw'|]. split; [by destruct cut|].
        split; [destruct cut; [done|]; intros Hl; by destruct (Ha Hl)|]. exists (h_activation h).
        split; [destruct cut; [done|]; intros Hl; by destruct (Ha Hl)|]. rewrite <- Hh. by destruct h, cut.
      * split; [by right; right|by destruct Hw' as [_ [? _]]].
  - eapply (triple_bind _ _ _ (fun _ => install_post (L, Ok tt))); [|intros []; by apply triple_ret].
    eapply triple_weaken; [by apply (report_spec _ _ _ _ (install_post (L, Ok tt)) (fun _ _ => False))|done..|].
    intros h (_ & _ & p & Hw & _). split; [by right; right|by destruct Hw as [_ [? _]]].
Qed.

Lemma switch_over_spec st :
  us_instruction st = i ->
  triple stopped (switch_over state_dir install_root identity_files health_timeout alive st (new_record "")) install_post (fun _ _ => False) install_crash.
Proof.
  intros Ei. unfold switch_over. rewrite Ei.
  assert (Hstop : forall h, stopped h -> working h) by (intros h [? ?]; split; auto).
  assert (HS : forall h, recorded [Installing] h /\ switched h -> working h) by (intros h [? ?]; split; auto).
  eapply (triple_bind _ _ _ (fun _ => stopped)).
  { eapply triple_weaken; [by apply (stop_service_spec stopped (fun _ _ => False))|done..|]. intros h Hh. by apply working_crash, Hstop. }
  intros []. eapply (triple_within _ _ _ _ _ _ (fun _ => working)).
  { eapply triple_weaken; [apply activate_spec|done|intros r h Hr; exact Hr|intros m; apply Hstop|apply working_crash]. }
  2:{ intros e h He. apply post_failed; auto. by left. }
  intros previous. apply triple_pure. intros Hold. change (with_previous_target previous (new_record "")) with (new_record previous).
  eapply (triple_within _ _ _ _ (fun _ h => switched h /\ (h_lost h = false -> h_installed h = Some (installed_text i)) /\ recorded [Installing] h) _ (fun _ => working)); [|intros []|intros e h Hh; by apply post_failed].
  { apply triple_replace; [intros m; apply HS|intros h Hh; by apply working_crash, HS|]. intros cut h [Hr Hw].
    assert (Hx : recorded [Installing] (installed set_installed (installed_text i) cut h) /\ switched (installed set_installed (installed_text i) cut h))
      by (by destruct cut).
    split; [by destruct Hx, cut|by apply working_crash, HS]. }
  eapply (triple_within _ _ _ _ (fun _ => switched_with (new_record previous)) _ (fun _ => working)); [|intros []; by apply finish_spec; eauto|intros e h Hh; by apply post_failed].
  apply triple_replace.
  - intros m h (? & _ & ?). by apply HS.
  - intros h (Hw & _ & Hr). by apply working_crash, HS.
  - intros cut h (Hw & Hin & Hr). assert (Hx : switched_with (new_record previous) (installed set_activation (activation_json (new_record previous)) cut h)).
    { split; [by apply saved_switched|]. destruct cut; [done|]. intros Hl. split; [by apply Hin|done]. }
    split; [exact Hx|]. by apply working_crash, (switched_working (new_record previous)).
Qed.

Lemma install_spec st text :
  state_from_json text = Ok st -> us_instruction st = i ->
  triple (fun h => h = h0 /\ h_state h = Some text)
    (install state_dir install_root unpack identity_files health_timeout alive st (MkActivation (ui_upgrade_id i) Installing install_root "" "" "" ""))
    install_post (fun _ _ => False) install_crash.
Proof.
  intros Es Ei. set (A h := untouched h /\ h_versions h = h_versions h0).
  assert (HB : forall h, A h -> untouched h /\ others_kept h).
  { intros h [? Hv]. split; [done|]. intros n _ _. by rewrite Hv. }
  assert (HC : forall h, untouched h /\ others_kept h -> install_crash h) by (intros h [? ?]; split; auto).
  assert (Hfail : forall st' e h, us_instruction st' = i -> untouched h /\ others_kept h ->
    install_post (MkLocals st' (MkActivation (ui_upgrade_id i) Installing install_root "" "" "" "") false, Throw e) h) by done.
  unfold install. eapply (triple_within _ _ _ _ _ _ (fun _ => A)).
  { eapply triple_weaken; [apply (fetch_state_spec st text A Es)| |intros st' h Hh; exact Hh|done|by auto].
    - done.
    - by intros h t [].
    - done.
    - by intros h [-> ?]. }
  2:{ intros e h Ha. by apply Hfail; auto. }
  intros st' fs h [Ha Ei']. refine ((_ : triple A _ _ _ _) fs h Ha). clear fs h Ha. rewrite Ei in Ei'. rewrite Ei'.
  eapply (triple_bind _ _ _ (fun _ => A)); [eapply triple_weaken; [by apply (report_spec _ _ _ _ A (fun _ _ => False))|done..|by auto]|].
  intros []. eapply (triple_within _ _ _ _ (fun _ h => (untouched h /\ recorded [Installing] h) /\ h_versions h = h_versions h0) _ (fun _ => A)).
  - apply triple_replace; [done|by auto|]. intros cut h Ha.
    assert (Ha' : forall r, A (installed set_activation (activation_json r) cut h)) by (intros r; by destruct cut). split; [|by auto].
    destruct (Ha' (with_activation_state Installing "" "" (MkActivation (ui_upgrade_id i) Installing install_root "" "" "" ""))) as [? ?].
    split; [|done]. split; [done|]. apply saved_recorded; [done|by left].
  - intros []. eapply (triple_within _ _ _ _ (fun target h => (untouched h /\ recorded [Installing] h) /\ ready h /\ target = version_path install_root (ui_build_id i)) _ (fun _ h => untouched h /\ others_kept h)).
    + eapply triple_weaken; [by apply (extract_spec st' (fun h => untouched h /\ recorded [Installing] h) Ei')|done|by intros t h [[? ?] ?]|by intros m h [[? _] ?]|].
      intros h [[? _] ?]. by apply HC.
    + intros target fs h ([Hu Hr] & Hd & ->). refine (switch_over_spec st' Ei' fs h _). split; [done|]. split; [by destruct Hu|done].
    + intros e h Hh. by apply Hfail.
  - intros e h Hh. by apply Hfail; auto.
Qed.

(** *** The handler *)

(** The old version is current and the service was started; or the activation file says otherwise. *)
Definition restored (h : Host) : Prop := not_switched h /\ h_running h = true.
Definition stuck (h : Host) : Prop := (not_switched h \/ switched h) /\ recorded [Installing; ActivationFailed] h.

Lemma stuck_crash h : stuck h -> install_crash h.
Proof. intros [Hs _]. destruct Hs as [Hs|Hs]; (split; [by auto|by destruct Hs as [_ [? _]]]). Qed.
Lemma restored_crash h : restored h -> install_crash h.
Proof. intros [Hs _]. split; [by auto|by destruct Hs as [_ [? _]]]. Qed.

Definition rolled_back (h : Host) : Prop := not_switched h /\ recorded [Installing; ActivationFailed] h.

Lemma rolled_back_stuck h : rolled_back h -> stuck h.
Proof. intros [? ?]. split; auto. Qed.

Lemma rollback_spec record :
  old_link (ua_previous_target record) -> triple stuck (rollback_version record) (fun _ => rolled_back) (fun _ => stuck) install_crash.
Proof.
  intros Hold. unfold rollback_version. case_bool_decide as He; [by apply triple_raise|]. destruct Hold as [?|Hc]; [done|].
  eapply (triple_bind _ _ _ (fun _ => stuck)); [by apply triple_ret|]. intros [].
  eapply triple_bind; [apply (triple_step stuck); [done|apply stuck_crash]|]. intros [].
  assert (Hn : forall h, stuck h -> rolled_back (set_current (Some (ua_previous_target record)) h)).
  { intros h [[[_ Hr]|[_ Hr]] Hf]; (split; [split; [by rewrite Hc|exact Hr]|exact Hf]). }
  eapply (triple_bind _ _ _ (fun r h => match r with Ok _ => rolled_back h | Throw _ => stuck h end)).
  { eapply (triple_trying _ _ _ _ (fun _ => stuck)), triple_update; [exact Hn|done|]. intros h Hs. split; [by apply stuck_crash|].
    by apply stuck_crash, rolled_back_stuck, Hn. }
  intros [[]|e]; [by apply triple_ret|by apply triple_raise].
Qed.

Lemma restore_spec id record message :
  ua_upgrade_id record = ui_upgrade_id i -> ua_state record = ActivationFailed -> old_link (ua_previous_target record) ->
  triple stuck (restore_previous id record message)
    (fun r h => ua_upgrade_id r.1 = ui_upgrade_id i /\ match r.2 with
                | Ok _ => restored h
                | Throw _ => ua_state r.1 = ActivationFailed /\ stuck h \/ restored h end) (fun _ _ => False) install_crash.
Proof.
  intros Hi Hs Hold. unfold restore_previous.
  eapply (triple_bind _ _ _ (fun r h => match r with Ok _ => restored h | Throw _ => stuck h end)).
  { eapply (triple_trying _ _ (fun _ => restored) _ (fun _ => stuck)).
    eapply (triple_bind _ _ _ (fun _ => stuck)); [eapply triple_weaken; [by apply (stop_service_spec stuck (fun _ => stuck))|done..|apply stuck_crash]|].
    intros []. eapply triple_bind; [by apply rollback_spec|]. intros [].
    eapply triple_weaken; [by apply (start_service_spec rolled_back)|done|by intros [] h [[? _] ?]|intros m; apply rolled_back_stuck|].
    intros h Hh. by apply stuck_crash, rolled_back_stuck. }
  intros [[]|e]; [|apply triple_ret; intros h Hh; split; [done|by left]].
  eapply (triple_bind _ _ _ (fun r h => match r with Ok _ => restored h | Throw _ => restored h end)).
  { apply (triple_trying _ _ (fun _ => restored) _ (fun _ => restored)).
    apply triple_replace; [done|intros h; apply restored_crash|]. intros cut h [Hn Hrun].
    assert (Hr' : forall r, restored (installed set_activation (activation_json r) cut h)) by (intros r; split; [by apply saved_not_switched|by destruct cut]).
    split; [|apply restored_crash]; apply Hr'. }
  intros [[]|e]; [|apply triple_ret; intros h Hh; split; [done|by right]].
  eapply (triple_bind _ _ _ (fun _ => restored)); [eapply triple_weaken; [by apply (report_spec _ _ _ _ restored (fun _ _ => False))|done..|apply restored_crash]|].
  intros []. by apply triple_ret.
Qed.

Lemma handler_spec locals error :
  us_instruction (wl_state locals) = i -> ua_upgrade_id (wl_activation locals) = ui_upgrade_id i -> wl_attempted locals = true ->
  old_link (ua_previous_target (wl_activation locals)) ->
  triple working (handle_failure locals error) (fun _ _ => False) (fun _ h => restored h \/ stuck h) install_crash.
Proof.
  intros Ei Hi Ha Hold. unfold handle_failure. rewrite Ha, Ei.
  assert (Hw : forall h, working h -> stuck h).
  { intros h [Hr Hs]. split; [done|]. intros Hl. destruct (Hr Hl) as (r & H1 & H2 & H3). exists r. split_and!; [done..|].
    apply list_elem_of_singleton in H3. rewrite H3. by left. }
  set (record := with_activation_state ActivationFailed _ _ _).
  eapply (triple_bind _ _ _ (fun _ => stuck)).
  { apply triple_replace.
    - intros m h Hh. right. by apply Hw.
    - intros h Hh. by apply stuck_crash, Hw.
    - intros cut h [_ Hs]. assert (Hx : stuck (installed set_activation (activation_json record) cut h)).
      { split; [destruct Hs; [left; by apply saved_not_switched|right; by apply saved_switched]|]. apply saved_recorded; [done|by right; left]. }
      split; [exact Hx|by apply stuck_crash]. }
  intros []. eapply (triple_bind _ _ _ (fun _ => stuck)); [eapply triple_weaken; [by apply (report_spec _ _ _ _ stuck (fun _ _ => False))|done..|apply stuck_crash]|].
  intros []. cbn [negb]. eapply triple_bind; [eapply triple_weaken; [by apply (restore_spec _ record)|done|intros r h Hr; exact Hr|done|done]|].
  intros [a [[]|e]]; [apply triple_raise; intros h [_ Hh]; by left|]. cbn [fst snd]. apply triple_pure. intros Hid.
  set (Q h := ua_state a = ActivationFailed /\ stuck h \/ restored h).
  assert (HQ : forall h, Q h -> restored h \/ stuck h) by (intros h [[_ ?]|?]; auto).
  assert (HC : forall h, Q h -> install_crash h) by (intros h [[_ ?]|?]; [by apply stuck_crash|by apply restored_crash]).
  set (final := with_activation_state _ _ _ a).
  assert (Hsave : forall cut h, Q h -> Q (installed set_activation (activation_json final) cut h)).
  { intros cut h [[Hs [Hn _]]|[Hn Hrun]]; [left|right; split; [by apply saved_not_switched|by destruct cut]]. split; [done|].
    split; [destruct Hn; [left; by apply saved_not_switched|right; by apply saved_switched]|].
    apply saved_recorded; [done|]. cbn. rewrite Hs. by right; left. }
  eapply (triple_bind _ _ _ (fun _ => Q)); [apply triple_replace; auto|]. intros [].
  eapply (triple_bind _ _ _ (fun _ => Q)); [eapply triple_weaken; [by apply (report_spec _ _ _ _ Q (fun _ _ => False))|done..|exact HC]|].
  intros []. by apply triple_raise.
Qed.

(** The handler when nothing was switched. *)
Lemma handler_early_spec locals error :
  us_instruction (wl_state locals) = i -> wl_attempted locals = false ->
  triple (fun h => untouched h /\ others_kept h) (handle_failure locals error) (fun _ _ => False)
    (fun _ h => untouched h /\ others_kept h) (fun h => untouched h /\ others_kept h).
Proof.
  intros Ei Ha. unfold handle_failure. rewrite Ha. set (P h := untouched h /\ others_kept h).
  eapply triple_bind; [apply (triple_replace_keep _ _ _ P); by intros []|]. intros [].
  eapply triple_bind; [by apply (report_spec _ _ _ _ P (fun _ => P))|]. intros []. by apply triple_raise.
Qed.

Definition failed (h : Host) : Prop := untouched h /\ others_kept h \/ restored h \/ stuck h.

Lemma worker_spec st text :
  h_state h0 = Some text -> state_from_json text = Ok st -> us_instruction st = i ->
  triple (fun h => h = h0)
    (run_upgrade_worker state_dir install_root unpack identity_files health_timeout alive)
    (fun _ h => exists previous, upgraded (new_record previous) h) (fun _ => failed) install_crash.
Proof.
  intros Et Es Ei. unfold run_upgrade_worker. set (P h := h = h0).
  assert (HP : forall h, P h -> untouched h /\ others_kept h) by (by intros h ->).
  eapply (triple_bind _ _ _ (fun _ => P)); [apply triple_lift; [done|]; intros m h _ Hh; left; by apply HP|].
  intros _. eapply (triple_bind _ _ _ (fun r h => r = Some st /\ P h)).
  { eapply triple_weaken; [apply (load_spec h0)|done| |intros m h Hh; left; by apply HP|intros h Hh; destruct (HP h Hh); split; auto].
    intros [st'|] h [-> Hr]; [|congruence]. destruct Hr as (t & Ht & Hs). split; [congruence|done]. }
  intros r. apply triple_pure. intros ->. rewrite Ei.
  eapply triple_bind; [eapply triple_weaken; [by apply (install_spec st text)|by intros h ->|intros r h Hr; exact Hr|done|done]|].
  intros [locals [[]|e]] fs h (H1 & H2 & H3); cbn [fst snd] in *; [exact H3|].
  destruct (wl_attempted locals) eqn:Ea.
  - destruct H3 as [Hw Hold]. refine ((_ : triple working _ _ _ _) fs h Hw).
    eapply triple_weaken; [by apply handler_spec|done|done|intros m w Hx; by right|done].
  - refine ((_ : triple (fun w => untouched w /\ others_kept w) _ _ _ _) fs h H3).
    eapply triple_weaken; [by apply handler_early_spec|done|done|intros m w Hx; by left|]. intros w [? ?]. split; auto.
Qed.

End outcome.

Section worker_claims.
Context `{Sha256} `{Https} (state_dir install_root : string).
Context (unpack : string -> option Tree) (identity_files : Tree) (health_timeout : Z) (alive : list bool).

(** The pending state of [h]. *)
Definition pending (h : Host) (st : UpgradeState) : Prop := exists text, h_state h = Some text /\ state_from_json text = Ok st.

(** C13: Whatever file operations fail on the way on a Linux host with a readable pending state, a
    worker that returns has upgraded the host: the [current] link names the new version, whose
    directory has exactly one agent and is the package of a downloaded archive with the SHA-256
    digest of the instruction (or was installed before); the service runs; the health check passed,
    for the build metadata as it is on disk and the activation record as it was; and no other
    version directory has changed.  The metadata and the activation record are the complete texts
    for the upgrade, unless closing a replaced file lost a part of it, which the code does not
    notice. *)
Theorem upgrade_success fs fs' h h' st :
  pending h st -> run_upgrade_worker state_dir install_root unpack identity_files health_timeout alive fs h = (Done tt, fs', h') ->
  exists previous, upgraded state_dir install_root unpack identity_files h (us_instruction st) (new_record install_root (us_instruction st) previous) h'.
Proof.
  intros (text & Et & Es) E. pose proof (worker_spec state_dir install_root unpack identity_files health_timeout alive
    h (us_instruction st) st text Et Es eq_refl fs h eq_refl) as Hw. by rewrite E in Hw.
Qed.

(** C14: Whatever file operations fail on a Linux host with a readable pending state, and whenever the
    worker is killed (nothing is synced: a loss of power is not covered), an upgrade that does not
    succeed leaves the [current] link at the old version or at the complete new one, and every other
    version directory as it was.  When the worker ends with an error, either the old version, its
    metadata and the service were never touched; or the old version is current again and the
    service was started; or [current] is at one of the two and the activation file says that the
    upgrade is unfinished or failed, unless closing a replaced file lost a part of it, which the
    code does not notice. *)
Theorem upgrade_failure fs fs' h h' st message :
  pending h st ->
  (run_upgrade_worker state_dir install_root unpack identity_files health_timeout alive fs h = (Threw message, fs', h') ->
     failed unpack h (us_instruction st) h') /\
  (run_upgrade_worker state_dir install_root unpack identity_files health_timeout alive fs h = (Crashed, fs', h') ->
     install_crash unpack h (us_instruction st) h').
Proof.
  intros (text & Et & Es). pose proof (worker_spec state_dir install_root unpack identity_files health_timeout alive
    h (us_instruction st) st text Et Es eq_refl fs h eq_refl) as Hw. split; intros E; by rewrite E in Hw.
Qed.

End worker_claims.

(** ** Concrete runs *)

(** An archive with the agent in a directory of its own. *)
Definition sample_unpack (content : string) : option Tree :=
  if bool_decide (content = "data") then Some (list_to_map [("neta/neta-agent", "binary"); ("neta/README", "text")]) else None.

(** A host that has accepted the sample instruction. *)
Definition accepted_host : Host :=
  set_versions {["build-1" := {["neta-agent" := "old"]}]}
    (set_installed (Some ("version=1.0.0" +:+ newline)) (set_state (Some (state_json (fresh_state (sample_instruction "2.0.0")))) empty_host)).

Definition sample_identity : Tree :=
  list_to_map [("identity.conf", "coordinator=https://fleet.example" +:+ newline +:+ "fleet_id=f1" +:+ newline +:+ "agent_id=a1" +:+ newline +:+
                                 "certificate_sha256=00" +:+ newline); ("agent.crt", ""); ("agent.key", ""); ("fleet-ca.crt", "")].

Definition sample_worker (alive : list bool) : U unit :=
  run_upgrade_worker (H := sum_digest) (H0 := github_only) "/var/lib/neta" "/opt/neta-agent" sample_unpack sample_identity 45 alive.

Lemma accepted_pending : pending accepted_host (fresh_state (sample_instruction "2.0.0")).
Proof. eexists. split; [reflexivity|]. vm_compute. reflexivity. Qed.

Lemma upgrade_success_witness :
  let h' := snd (sample_worker [false; true] [] accepted_host) in
  h_current h' = Some "versions/build-2" /\
  exists previous, upgraded (H := sum_digest) "/var/lib/neta" "/opt/neta-agent" sample_unpack sample_identity accepted_host (sample_instruction "2.0.0")
    (new_record "/opt/neta-agent" (sample_instruction "2.0.0") previous) h'.
Proof.
  cbv zeta. split; [vm_compute; reflexivity|].
  apply (upgrade_success (H := sum_digest) (H0 := github_only) "/var/lib/neta" "/opt/neta-agent" sample_unpack sample_identity 45 [false; true]
    [] [] accepted_host _ (fresh_state (sample_instruction "2.0.0")) accepted_pending).
  vm_compute. reflexivity.
Defined.

(** A run in which the new agent never answers, and one that is cut off. *)
Lemma upgrade_failure_witness :
  (exists message, sample_worker [] [] accepted_host = (Threw message, [], snd (sample_worker [] [] accepted_host))) /\
  failed (H := sum_digest) sample_unpack accepted_host (sample_instruction "2.0.0") (snd (sample_worker [] [] accepted_host)).
Proof.
  split; [eexists; vm_compute; reflexivity|].
  apply (proj1 (upgrade_failure (H := sum_digest) (H0 := github_only) "/var/lib/neta" "/opt/neta-agent" sample_unpack sample_identity 45 []
    [] [] accepted_host (snd (sample_worker [] [] accepted_host)) (fresh_state (sample_instruction "2.0.0"))
    "new agent did not become locally healthy before timeout" accepted_pending)).
  vm_compute. reflexivity.
Defined.
