(* ===== verification/Updater.v ===== *)
(** The updater ([src/updater_main.cpp]) and the launch of an upgrade
    ([src/core/upgrade_runtime.cpp], [launch_upgrade_worker_if_needed]).

    [main] takes the arguments and ends with the exit code.  The systemd units it rewrites are files
    that nothing here reads: writing them can fail, and changes nothing else.

    The theorems: the activation record reads back ([activation_reads_back]); when no poll finds the
    new version healthy, the updater ends with the old version running and its metadata
    ([unhealthy_rolls_back]); and two ways in which the code leaves the host without an agent or
    without upgrades ([switch_failure_strands], [interrupted_activation_blocks]). *)

From S2P Require Import Prelude Text Wire Faults Crypto NapSequence OutboundQueue Dispatcher UpgradeText UpgradeStore UpgradeWorker.

#[local] Arguments String.append !_ _ /.
#[local] Open Scope io_scope.

(** ** Launching *)

Definition launch_upgrade_worker_if_needed (state_dir : string) : U bool :=
  let* _ := lift (open_store state_dir) in
  let* state := store_load in
  match state with
  | None => ret false
  | Some state =>
      if bool_decide (us_state state = UpgradeFailed) then ret false
      else
        let* activation := activation_load in
        let same := match activation with
                    | None => false
                    | Some activation => bool_decide (ua_upgrade_id activation = ui_upgrade_id (us_instruction state))
                    end in
        if same then ret false
        else catch (let* _ := io_step in ret true) (fun _ => ret false)
  end.

(** ** The updater *)

(** [argv[i + 1]] for the first [argv[i]] that is [key]. *)
Fixpoint arg_value (argv : list string) (key fallback : string) : string :=
  match argv with
  | arg :: (value :: _) as argv' => if bool_decide (arg = key) then value else arg_value argv' key fallback
  | _ => fallback
  end.

(** [std::stoll(s)]: as [std::stoull], for a signed number. *)
Definition stoll (s : string) : result Z :=
  let s := drop_while isspace s in
  let '(negative, s) :=
    match s with
    | String c s' => if is_char 45 c then (true, s') else if is_char 43 c then (false, s') else (false, s)
    | EmptyString => (false, s)
    end in
  let digits := take_while isdigit s in
  if bool_decide (digits = "") then Throw "stoll"
  else
    let value := if negative : bool then - digits_value 0 digits else digits_value 0 digits in
    if (value <? - 2 ^ 63) || (2 ^ 63 - 1 <? value) then Throw "stoll" else Ok value.

(** Copying the metadata to the backup: an interrupted copy leaves a part of it. *)
Definition write_backup (content : string) : U unit := fun fs h =>
  let part kept := match kept with None => h | Some n => set_backup (Some (substr content 0 n)) h end in
  match next_fault fs with
  | (IoDone, fs') => (Done tt, fs', set_backup (Some content) h)
  | (IoThrows message kept, fs') => (Threw message, fs', part kept)
  | (IoCrashes kept, fs') => (Crashed, fs', part kept)
  end.

Definition snapshot_installed_metadata : U unit :=
  let* _ := io_step in
  let* _ := io_update (set_backup None) in
  let* _ := io_update (set_absent false) in
  let* current := io_read h_installed in
  match current with
  | Some content => write_backup content
  | None => catch (io_update (set_absent true)) (fun _ => raise "cannot snapshot absent installed-build metadata state")
  end.

Definition copy_file_exact (content : string) : U unit :=
  let* _ := io_step in
  let* _ := io_step in
  let* renamed := trying (io_update (set_installed (Some content))) in
  match renamed with
  | Ok _ => ret tt
  | Throw error => let* _ := io_step in raise ("cannot restore installed build metadata: " +:+ error)
  end.

Definition restore_metadata_after_rollback : U unit :=
  let* backup := io_read h_backup in
  match backup with
  | Some content => copy_file_exact content
  | None =>
      let* absent := io_read h_absent in
      if absent : bool then io_update (set_installed None) else ret tt
  end.

Definition write_systemd_unit (path : string) : U unit :=
  let* _ := io_step in
  let* renamed := trying io_step in
  match renamed with
  | Ok _ => ret tt
  | Throw error => let* _ := io_step in raise ("cannot activate systemd unit " +:+ path +:+ ": " +:+ error)
  end.

Definition require_command_ok (what : string) : U unit := catch io_step (fun error => raise (what +:+ " failed with exit code " +:+ error)).

Definition unit_root : string := "/etc/systemd/system".

Definition reconcile_linux_systemd_units (state_dir : string) : U unit :=
  let* _ := lift (throw_if (bool_decide (state_dir = "")) "systemd reconciliation requires state_dir") in
  let* _ := write_systemd_unit (path_join unit_root "neta-yarax-runtime-update.service") in
  let* _ := write_systemd_unit (path_join unit_root "neta-yarax-runtime-update.timer") in
  let* _ := write_systemd_unit (path_join unit_root "neta-yarax-content-update.service") in
  let* _ := write_systemd_unit (path_join unit_root "neta-yarax-content-update.timer") in
  let* _ := require_command_ok "systemd daemon-reload" in
  require_command_ok "enabling NETA managed update timers".

Section updater.
Context `{Sha256} `{Https} (unpack : string -> option Tree) (identity_files : Tree) (alive : list bool).

(** [apply], up to its exception handler. *)
Definition apply_upgrade (state_dir : string) (argv : list string) : U unit :=
  let install_root := arg_value argv "--install-root" "" in
  let* _ := reconcile_linux_systemd_units state_dir in
  let* timeout := lift (stoll (arg_value argv "--health-timeout" "45")) in
  let* _ := lift (throw_if ((timeout <? 5) || (300 <? timeout)) "--health-timeout must be between 5 and 300 seconds") in
  let* _ := snapshot_installed_metadata in
  run_upgrade_worker state_dir install_root unpack identity_files timeout alive.

(** The handler of [main]: what it does besides printing the error. *)
Definition updater_failed (state_dir : string) : U unit :=
  if bool_decide (state_dir = "") then ret tt
  else catch (let* record := activation_load in
              match record with
              | Some record => if bool_decide (ua_state record = RolledBack) then restore_metadata_after_rollback else ret tt
              | None => ret tt
              end) (fun _ => ret tt).

Definition updater_main (argv : list string) : U Z :=
  let command := nth 1 argv "" in
  let run state_dir (m : U unit) := catch (let* _ := m in ret 0) (fun _ => let* _ := updater_failed state_dir in ret 1) in
  if bool_decide (command = "reconcile-systemd") then
    let state_dir := arg_value argv "--state-dir" "/var/lib/neta/identity" in run state_dir (reconcile_linux_systemd_units state_dir)
  else if negb (bool_decide (command = "apply")) then ret 2
  else let state_dir := arg_value argv "--state-dir" "" in run state_dir (apply_upgrade state_dir argv).

End updater.

(** ** Reading the activation record *)

(** What follows the first [needle] of [s]. *)
Fixpoint after_needle (needle s : string) : option string :=
  match s with
  | EmptyString => None
  | String _ s' => if starts_with needle s then Some (substr_from s (String.length needle)) else after_needle needle s'
  end.

Lemma substr_from_cons c s n : substr_from (String c s) (S n) = substr_from s n.
Proof. done. Qed.

Lemma after_needle_find needle s :
  needle <> "" -> after_needle needle s = (fun p => substr_from s (p + String.length needle)) <$> find_from s needle 0.
Proof.
  intros Hn. unfold find_from. induction s as [|c s IH]; [by destruct needle|]. cbn [after_needle String.index]. unfold starts_with.
  destruct needle as [|n needle]; [done|]. set (nd := String n needle) in *. destruct (String.prefix nd (String c s)) eqn:E; [done|].
  rewrite IH. by destruct (String.index 0 nd s).
Qed.

Definition no_quote (s : string) : bool := string_all (fun c => negb (is_char 34 c)) s.

Lemma no_quote_cons c s : no_quote (String c s) = negb (is_char 34 c) && no_quote s.
Proof. done. Qed.

Lemma prefix_cons a s b t : String.prefix (String a s) (String b t) = bool_decide (a = b) && String.prefix s t.
Proof. cbn [String.prefix]. destruct (ascii_dec a b); [by rewrite bool_decide_eq_true_2|by rewrite bool_decide_eq_false_2]. Qed.

Lemma no_quote_head c : negb (is_char 34 c) = true -> bool_decide ("034"%char = c) = false.
Proof. intros Hc. apply bool_decide_eq_false. by intros <-. Qed.

Lemma after_skip key w rest : no_quote w = true -> after_needle (quoted_key key) (w +:+ rest) = after_needle (quoted_key key) rest.
Proof.
  induction w as [|c w IH]; [done|]. rewrite no_quote_cons. intros [Hc Hw]%andb_true_iff. cbn [String.append after_needle].
  unfold starts_with at 1, quoted_key at 1. cbn [String.append]. rewrite prefix_cons, no_quote_head by done. by apply IH.
Qed.

(** A quoted text that is not the name sought, and the name itself. *)
Lemma quoted_prefix key w rest :
  no_quote w = true -> no_quote key = true -> String.prefix (key +:+ String "034" "") (w +:+ String "034" rest) = true -> w = key.
Proof.
  revert w. induction key as [|k key IH]; intros [|c w]; cbn [String.append]; rewrite ?no_quote_cons, ?prefix_cons; intros Hw Hk Hp; to_prop.
  - done.
  - by subst c.
  - by subst k.
  - subst c. f_equal. by apply IH.
Qed.

Lemma after_word key w rest :
  no_quote w = true -> no_quote key = true -> w <> key ->
  after_needle (quoted_key key) (String "034" (w +:+ String "034" rest)) = after_needle (quoted_key key) (String "034" rest).
Proof.
  intros Hw Hk Hne. cbn [after_needle]. unfold starts_with at 1, quoted_key at 1. cbn [String.append]. rewrite prefix_cons.
  destruct (String.prefix (key +:+ _) _) eqn:E; [by apply quoted_prefix in E|]. rewrite andb_false_r. by apply after_skip.
Qed.

Lemma after_hit key rest : after_needle (quoted_key key) (String "034" (key +:+ String "034" rest)) = Some rest.
Proof.
  cbn [after_needle]. assert (Hs : starts_with (quoted_key key) (String "034" (key +:+ String "034" rest)) = true).
  { apply starts_with_spec. exists rest. unfold quoted_key. cbn. by rewrite string_app_assoc. }
  rewrite Hs. f_equal. unfold quoted_key. cbn -[substr_from]. rewrite string_length_app, substr_from_cons.
  replace (key +:+ String "034" rest) with ((key +:+ String "034" "") +:+ rest) by (by rewrite string_app_assoc).
  replace (String.length key + _)%nat with (String.length (key +:+ String "034" "")) by (by rewrite string_length_app).
  apply substr_from_app.
Qed.

(** Texts that the search for a member name passes over: quote-free, readable, and not the name. *)
Definition word (v : string) : bool := string_all (fun c => readable_char c && negb (is_char 34 c)) v.

Lemma word_readable v : word v = true -> readable v = true.
Proof. apply string_all_impl. intros c Hc. by apply andb_true_iff in Hc as [? _]. Qed.

Lemma escape_no_quote v : word v = true -> no_quote (json_escape v) = true.
Proof.
  induction v as [|c v IH]; [done|]. unfold word in *. cbn [string_all json_escape]. intros [Hc Hv]%andb_true_iff.
  unfold no_quote. rewrite string_all_app. apply andb_true_iff. split; [|by apply IH]. by destruct c as [[] [] [] [] [] [] [] []].
Qed.

Lemma escape_plain v k : plain k = true -> json_escape v = k -> v = k.
Proof.
  revert k. induction v as [|c v IH]; intros k Hk; [done|]. cbn [json_escape]. intros <-.
  unfold plain in Hk. rewrite string_all_app in Hk. apply andb_true_iff in Hk as [Hc Hv]. rewrite <- (IH _ Hv eq_refl) at 1.
  by destruct c as [[] [] [] [] [] [] [] []].
Qed.

Definition passed (key : string) (m : string * string) : Prop := plain m.1 = true /\ m.1 <> key /\ word m.2 = true /\ m.2 <> key.

Lemma plain_no_quote k : plain k = true -> no_quote k = true.
Proof. apply string_all_impl. intros c. unfold plain_char. intros [[_ Hc]%andb_true_iff _]%andb_true_iff. exact Hc. Qed.

(** The first member with the name sought, in the printed members. *)
Lemma member_after key v pre post :
  plain key = true -> key <> ": " -> Forall (passed key) pre ->
  exists rest, after_needle (quoted_key key) (members_tail (pre ++ (key, v) :: post)) = Some (": " +:+ String "034" (json_escape v +:+ String "034" rest)).
Proof.
  intros Hk Hc. pose proof (plain_no_quote _ Hk) as Hq. assert (Hsep : "," +:+ newline +:+ "  " <> key) by (by intros <-).
  induction pre as [|[k w] pre IH]; intros Hp.
  - cbn [app]. rewrite members_tail_cons, print_member_head. eexists. rewrite after_skip by done. apply after_hit.
  - apply Forall_cons in Hp as [(H1 & H2 & H3 & H4) Hp]. cbn [fst snd] in *. destruct (IH Hp) as [rest Hr]. exists rest.
    rewrite <- Hr. cbn [app]. rewrite members_tail_cons, print_member_head.
    rewrite after_skip, after_word by (done || by apply plain_no_quote).
    rewrite (after_word key ": ") by done. rewrite after_word; [|by apply escape_no_quote|done|intros E; by apply (escape_plain _ _ Hk) in E].
    assert (Hne : forall m ms, after_needle (quoted_key key) (String "034" ("," +:+ newline +:+ members_tail (m :: ms))) =
                            after_needle (quoted_key key) (members_tail (m :: ms))).
    { intros [k' w'] ms. rewrite members_tail_cons, print_member_head. rewrite (after_skip key "  ") by done.
      apply (after_word key ("," +:+ newline +:+ "  ")); done. }
    destruct pre as [|m pre]; apply Hne.
Qed.

Lemma member_chars_escape c t :
  member_chars (escape_char c +:+ t) =
  if readable_char c then let? value := member_chars t in Ok (String c value)
  else Throw "unsupported JSON escape in upgrade activation state".
Proof. by destruct c as [[] [] [] [] [] [] [] []]. Qed.

Lemma member_chars_escaped v rest : readable v = true -> member_chars (json_escape v +:+ String "034" rest) = Ok v.
Proof.
  induction v as [|c v IH]; [done|]. unfold readable. cbn [string_all json_escape]. intros [Hc Hv]%andb_true_iff.
  rewrite string_app_assoc, member_chars_escape, Hc. by rewrite IH.
Qed.

Lemma member_string_printed key v pre post :
  plain key = true -> key <> ": " -> Forall (passed key) pre -> readable v = true ->
  member_string (print_object (pre ++ (key, v) :: post)) key = Ok v.
Proof.
  intros Hk Hc Hp Hv. destruct (member_after key v pre post Hk Hc Hp) as [rest Hr]. unfold member_string.
  assert (Hf : after_needle (quoted_key key) (print_object (pre ++ (key, v) :: post)) = Some (": " +:+ String "034" (json_escape v +:+ String "034" rest))).
  { change (print_object ?ms) with (("{" +:+ newline) +:+ members_tail ms). by rewrite after_skip, Hr. }
  rewrite after_needle_find in Hf by done. set (text := print_object _) in *. set (needle := quoted_key key) in *.
  destruct (find_from text needle 0) as [p|]; [|done]. apply (inj Some) in Hf. rewrite Hf.
  change (has_char 58 (": " +:+ ?x)) with true. cbn [negb].
  change (drop_while isspace (after_char 58 (": " +:+ String "034" ?x))) with (String "034" x). by apply member_chars_escaped.
Qed.

Definition activation_keys : list string :=
  ["upgrade_id"; "state"; "install_root"; "previous_target"; "active_target"; "failure_code"; "failure_message"].

(** Texts that no search takes for a member name. *)
Definition value_text (v : string) : Prop := word v = true /\ v ∉ activation_keys.

Definition readable_record (r : UpgradeActivationRecord) : Prop :=
  Forall value_text [ua_upgrade_id r; ua_install_root r; ua_previous_target r; ua_active_target r; ua_failure_code r] /\
  readable (ua_failure_message r) = true.

Lemma value_passed key k v :
  key ∈ activation_keys -> plain k = true -> k <> key -> value_text v -> passed key (k, v).
Proof. intros Hkey Hk Hne [Hw Hv]. split_and!; [done..|]. cbn. by intros ->. Qed.

Lemma state_text_value s : value_text (activation_state_to_string s).
Proof. split; [by destruct s|]. rewrite list_elem_of_In. intros Hx. by destruct s; cbn in Hx; repeat destruct Hx as [Hx|Hx]. Qed.

Lemma record_member r n key v :
  readable_record r -> activation_members r !! n = Some (key, v) -> member_string (activation_json r) key = Ok v.
Proof.
  intros [Hv Hm] E. pose proof (state_text_value (ua_state r)) as Hs. unfold activation_json.
  rewrite <- (take_drop_middle _ _ _ E). decompose_Forall.
  assert (Hr : forall w, value_text w -> readable w = true) by (intros w [? _]; by apply word_readable).
  do 7 (destruct n as [|n]; [injection E as <- <-; apply member_string_printed; [done|done| |by auto];
    repeat (apply Forall_cons; split; [apply value_passed; [by repeat constructor|done|done|done]|]); by apply Forall_nil|]).
  done.
Qed.

(** An activation record reads back as it was saved, when its upgrade is named and its texts are
    readable; a failure message may be any readable text, the others must not contain quotes or be
    the name of a member (the reader searches the text for names). *)
Lemma activation_reads_back r :
  ua_upgrade_id r <> "" -> readable_record r -> activation_from_json (activation_json r) = Ok r.
Proof.
  intros Hid Hr. unfold activation_from_json.
  rewrite (record_member r 0 "upgrade_id" _ Hr eq_refl), (record_member r 1 "state" _ Hr eq_refl).
  rewrite (record_member r 2 "install_root" _ Hr eq_refl), (record_member r 3 "previous_target" _ Hr eq_refl).
  rewrite (record_member r 4 "active_target" _ Hr eq_refl), (record_member r 5 "failure_code" _ Hr eq_refl).
  rewrite (record_member r 6 "failure_message" _ Hr eq_refl). cbn [rbind].
  assert (Hs : upgrade_activation_state_from_string (activation_state_to_string (ua_state r)) = Ok (ua_state r)) by (by destruct (ua_state r)).
  rewrite Hs. cbn [rbind]. rewrite bool_decide_eq_false_2 by done. by destruct r.
Qed.

(** ** A run without faults *)

Section rollback.
Context `{Sha256} `{Https} (unpack : string -> option Tree) (identity_files : Tree) (alive : list bool).

(** The archive [content] has the right digest and holds one agent; or the version is installed. *)
Definition installable (i : UpgradeInstruction) (content : string) (h : Host) : Prop :=
  safe_token (ui_build_id i) = true /\ Z.of_nat (String.length content) <= kDefaultMaxBytes /\
  normalize_sha256 (ui_sha256 i) = Ok (sha256_hex content) /\
  match h_versions h !! ui_build_id i with
  | Some tree => exists agent, find_packaged_agent tree = Ok agent
  | None =>
      ui_build_id i <> ".staging-" +:+ ui_upgrade_id i /\ archive_name_ok (ui_artifact_name i) = true /\
      exists all agent agent', unpack content = Some all /\ find_packaged_agent all = Ok agent /\
        find_packaged_agent (subtree (parent agent) all) = Ok agent'
  end.

(** Where the artifact of an instruction is downloaded to. *)
Definition artifact_path (state_dir : string) (i : UpgradeInstruction) : string :=
  path_join (download_dir state_dir (ui_upgrade_id i)) (ui_artifact_name i).

(** The worker gets the archive [content]: it has been verified before, or is still to be downloaded
    and is there already or served. *)
Definition obtainable (state_dir : string) (st : UpgradeState) (content : string) (h : Host) : Prop :=
  let i := us_instruction st in
  match us_state st with
  | Verified => h_artifacts h !! us_download_path st = Some content
  | UpgradeFailed => False
  | Received | Downloading =>
      validate_artifact_name (ui_artifact_name i) = Ok tt /\ (exists url, parse_trusted_https_url (ui_download_url i) = Ok url) /\
      (h_artifacts h !! artifact_path state_dir i = Some content \/
       h_artifacts h !! artifact_path state_dir i = None /\ https_download_body (ui_download_url i) kDefaultMaxBytes = Ok content)
  end.

Lemma verify_runs path expected content h :
  h_artifacts h !! path = Some content -> Z.of_nat (String.length content) <= kDefaultMaxBytes ->
  normalize_sha256 expected = Ok (sha256_hex content) -> verify_file path expected kDefaultMaxBytes [] h = (Done tt, [], h).
Proof.
  intros Hc Hl Hn. unfold verify_file. rewrite Hn. unfold bind, lift, ret, io_read. cbn [next_fault]. rewrite Hc.
  rewrite (proj2 (Z.ltb_ge _ _)) by done. by rewrite bool_decide_eq_true_2.
Qed.

Lemma unpack_runs st content all agent agent' h :
  let i := us_instruction st in
  h_artifacts h !! us_download_path st = Some content -> ui_build_id i <> ".staging-" +:+ ui_upgrade_id i ->
  archive_name_ok (ui_artifact_name i) = true -> unpack content = Some all -> find_packaged_agent all = Ok agent ->
  find_packaged_agent (subtree (parent agent) all) = Ok agent' ->
  exists v, unpack_version unpack st [] h = (Done tt, [], set_versions v h).
Proof.
  intros i Hc Hne Hname Hu Ha Ha'. unfold unpack_version. fold i. rewrite Hname. cbn [negb throw_if].
  repeat (erewrite bind_done; [|reflexivity]).
  erewrite bind_done; [|unfold run_tar; erewrite bind_done; [|reflexivity]; cbn [h_artifacts set_versions]; rewrite Hc; cbn [mbind option_bind]; rewrite Hu; reflexivity].
  erewrite bind_done; [|reflexivity]. cbn [h_versions set_versions]. rewrite lookup_insert_eq. change (value_or (Some all) ∅) with all. rewrite Ha.
  repeat (erewrite bind_done; [|reflexivity]). cbn [h_versions set_versions]. rewrite lookup_delete_ne, lookup_insert_eq by done.
  change (value_or (Some ?t) ∅) with t. rewrite Ha'. repeat (erewrite bind_done; [|reflexivity]). by eexists.
Qed.

(** Fetching the archive without a failure: only the state, the artifacts and the reports change. *)
Definition fetched_host (h h' : Host) : Prop := exists state artifacts reports,
  h' = MkHost state (h_activation h) (h_installed h) (h_backup h) (h_absent h) artifacts (h_versions h) (h_current h) (h_previous h) (h_running h) reports (h_lost h).

Lemma download_runs i dir content h :
  let path := path_join dir (ui_artifact_name i) in
  validate_artifact_name (ui_artifact_name i) = Ok tt -> (exists url, parse_trusted_https_url (ui_download_url i) = Ok url) ->
  Z.of_nat (String.length content) <= kDefaultMaxBytes -> normalize_sha256 (ui_sha256 i) = Ok (sha256_hex content) ->
  h_artifacts h !! path = Some content \/
    h_artifacts h !! path = None /\ https_download_body (ui_download_url i) kDefaultMaxBytes = Ok content ->
  exists v, download_and_verify i dir kDefaultMaxBytes [] h = (Done path, [], set_artifacts v h) /\ v !! path = Some content.
Proof.
  intros path Hname [url Hu] Hl Hn Hs. pose proof (normalize_idemp _ _ Hn) as Hi. unfold download_and_verify. fold path. rewrite Hname, Hu, Hn.
  repeat (erewrite bind_done; [|reflexivity]). destruct Hs as [Hs|[Hs Hb]]; rewrite Hs; cbn [has].
  - erewrite bind_done; [|unfold catch; erewrite bind_done; [reflexivity|by eapply verify_runs]].
    exists (h_artifacts h). split; [by destruct h|done].
  - rewrite Hb. erewrite bind_done; [|reflexivity]. cbn iota. repeat (erewrite bind_done; [|reflexivity]).
    erewrite bind_done; [|unfold catch; erewrite bind_done; [|eapply verify_runs; [apply lookup_insert_eq|done..]]; unfold rename_artifact, io_update;
      cbn [next_fault h_artifacts set_artifacts]; rewrite lookup_insert_eq; reflexivity].
    eexists. split; [reflexivity|]. apply lookup_insert_eq.
Qed.

Lemma fetch_runs state_dir st content h :
  state_dir <> "" -> pending h st -> obtainable state_dir st content h ->
  Z.of_nat (String.length content) <= kDefaultMaxBytes -> normalize_sha256 (ui_sha256 (us_instruction st)) = Ok (sha256_hex content) ->
  exists st' h', fetch_state state_dir st [] h = (Done st', [], h') /\ us_instruction st' = us_instruction st /\
    h_artifacts h' !! us_download_path st' = Some content /\ fetched_host h h'.
Proof.
  intros Hsd (text & Et & Es) Ho Hl Hn. unfold fetch_state. case_bool_decide as Hv.
  { unfold obtainable in Ho. rewrite Hv in Ho. exists st, h. split_and!; [done..|]. exists (h_state h), (h_artifacts h), (h_reports h). by destruct h. }
  set (i := us_instruction st) in *. erewrite bind_done; [|reflexivity]. unfold download_pending_upgrade, open_store.
  rewrite bool_decide_eq_false_2 by done. erewrite bind_done; [|reflexivity].
  erewrite bind_done; [|rewrite load_runs; cbn [h_state add_report]; rewrite Et, Es; reflexivity].
  assert (Hrun : forall h1, (h_artifacts h1 = h_artifacts h) -> us_state st = Received \/ us_state st = Downloading ->
    exists v, fetch_pending state_dir st kDefaultMaxBytes [] h1 =
      (Done (MkUpgradeState i Verified (artifact_path state_dir i) ""), [],
       set_state (Some (state_json (MkUpgradeState i Verified (artifact_path state_dir i) ""))) (set_artifacts v
         (set_state (Some (state_json (MkUpgradeState i Downloading (us_download_path st) ""))) h1))) /\ v !! artifact_path state_dir i = Some content).
  { intros h1 Ea Hst. unfold fetch_pending, store_save, atomic_write. fold i. erewrite bind_done; [|apply replace_runs].
    destruct (download_runs i (download_dir state_dir (ui_upgrade_id i)) content (installed set_state (state_json (MkUpgradeState i Downloading (us_download_path st) "")) None h1))
      as (v & Ed & Hx); [unfold obtainable in Ho; fold i in Ho; cbn [h_artifacts installed set_state]; rewrite ?Ea; destruct Hst as [Hst|Hst]; rewrite Hst in Ho; tauto..|].
    exists v. split; [|exact Hx]. erewrite bind_done; [|unfold trying; rewrite Ed; reflexivity]. cbn iota.
    erewrite bind_done; [|unfold trying; rewrite replace_runs; reflexivity]. reflexivity. }
  cbn iota beta. unfold obtainable in Ho. destruct (us_state st) eqn:Est; [| |done|done].
  all: destruct (Hrun (add_report (ui_upgrade_id i, "DOWNLOADING", bounded "" kFailureCodeMax, bounded "" kFailureMessageMax) h) eq_refl) as (v & E & Hx); [by auto|].
  all: eexists _, _; split; [exact E|]; split_and!; [done|exact Hx|by eexists _, _, _].
Qed.

Lemma extract_runs install_root st content h :
  h_artifacts h !! us_download_path st = Some content -> installable (us_instruction st) content h ->
  exists v, extract_version install_root unpack st [] h = (Done (version_path install_root (ui_build_id (us_instruction st))), [], set_versions v h).
Proof.
  intros Hc (Hsafe & Hl & Hn & Hv). unfold extract_version. rewrite Hsafe. cbn [negb throw_if].
  erewrite bind_done; [|reflexivity]. erewrite bind_done; [|by eapply verify_runs]. erewrite bind_done; [|reflexivity].
  destruct (h_versions h !! _) as [tree|] eqn:Et.
  - destruct Hv as [agent Ha]. rewrite Ha. exists (h_versions h). by destruct h.
  - destruct Hv as (Hne & Hname & all & agent & agent' & Hu & Ha & Ha').
    destruct (unpack_runs st content all agent agent' h Hc Hne Hname Hu Ha Ha') as [v E]. exists v. by erewrite bind_done; [|exact E].
Qed.

(** The snapshot of the metadata that the updater takes. *)
Definition same_snapshot (h h' : Host) : Prop := h_backup h' = h_backup h /\ h_absent h' = h_absent h.

Lemma switch_over_times_out state_dir install_root timeout st record old h :
  h_current h = Some old -> old <> "" ->
  (forall h', becomes_healthy state_dir install_root identity_files timeout alive h' (us_instruction st) = false) ->
  exists h', switch_over state_dir install_root identity_files timeout alive st record [] h =
    (Done (MkLocals st (with_previous_target old record) true, Throw "new agent did not become locally healthy before timeout"), [], h') /\
    same_snapshot h h'.
Proof.
  intros Hc Ho Hb. unfold switch_over, within. erewrite bind_done; [|reflexivity].
  erewrite bind_done; cycle 1.
  { unfold trying, activate_version. erewrite bind_done; [|reflexivity]. cbn [h_current set_running]. rewrite Hc.
    change (value_or (Some old) "") with old. rewrite bool_decide_eq_false_2 by done. reflexivity. }
  cbn iota beta. do 3 (erewrite bind_done; [|reflexivity]; cbn iota beta).
  erewrite bind_done; [|unfold trying, wait_for_health, catch, io_read; cbn [next_fault]; rewrite Hb; reflexivity].
  cbn [negb]. eexists. split; [reflexivity|done].
Qed.

Lemma handler_restores locals error h :
  wl_attempted locals = true -> ua_previous_target (wl_activation locals) <> "" ->
  exists h', handle_failure locals error [] h = (Threw error, [], h') /\ same_snapshot h h' /\
    h_current h' = Some (ua_previous_target (wl_activation locals)) /\ h_running h' = true /\
    h_activation h' = Some (activation_json (with_activation_state RolledBack "ROLLED_BACK_AFTER_FAILURE" (bounded error kFailureMessageMax) (wl_activation locals))) /\
    exists message, last (h_reports h') = Some (ui_upgrade_id (us_instruction (wl_state locals)), "ROLLED_BACK", "ROLLED_BACK_AFTER_FAILURE", message).
Proof.
  intros Ha Hp. unfold handle_failure. rewrite Ha. cbn [negb]. erewrite bind_done; [|reflexivity]. erewrite bind_done; [|reflexivity].
  erewrite bind_done; cycle 1.
  { unfold restore_previous. erewrite bind_done; cycle 1.
    { unfold trying, rollback_version. cbn [ua_previous_target with_activation_state]. rewrite bool_decide_eq_false_2 by done. reflexivity. }
    cbn iota. do 2 (erewrite bind_done; [|reflexivity]; cbn iota). reflexivity. }
  cbn iota. eexists. split; [reflexivity|]. split; [done|]. split; [done|]. split; [done|]. split; [done|]. eexists. cbn [h_reports add_report set_activation set_current set_running].
  apply last_snoc.
Qed.

Definition timeout_message : string := "new agent did not become locally healthy before timeout".

(** The activation record after a rollback to [old]. *)
Definition rolled_back_record (install_root old : string) (i : UpgradeInstruction) : UpgradeActivationRecord :=
  with_activation_state RolledBack "ROLLED_BACK_AFTER_FAILURE" timeout_message (new_record install_root i old).

Lemma worker_rolls_back state_dir install_root timeout st content old h :
  state_dir <> "" -> install_root <> "" -> pending h st -> obtainable state_dir st content h -> installable (us_instruction st) content h ->
  h_current h = Some old -> old <> "" ->
  (forall h', becomes_healthy state_dir install_root identity_files timeout alive h' (us_instruction st) = false) ->
  exists h', run_upgrade_worker state_dir install_root unpack identity_files timeout alive [] h = (Threw timeout_message, [], h') /\
    same_snapshot h h' /\ h_current h' = Some old /\ h_running h' = true /\
    h_activation h' = Some (activation_json (rolled_back_record install_root old (us_instruction st))) /\
    exists message, last (h_reports h') = Some (ui_upgrade_id (us_instruction st), "ROLLED_BACK", "ROLLED_BACK_AFTER_FAILURE", message).
Proof.
  intros Hsd Hir Hp Hob Hin Hc Ho Hb. unfold run_upgrade_worker.
  rewrite (bool_decide_eq_false_2 (state_dir = "")), (bool_decide_eq_false_2 (install_root = "")) by done. cbn [orb throw_if].
  erewrite bind_done; [|reflexivity]. erewrite bind_done; [|destruct Hp as (text & Et & Es); rewrite load_runs, Et, Es; reflexivity].
  destruct (fetch_runs state_dir st content h Hsd Hp Hob) as (st' & hf & Ef & Ei & Ha & state & artifacts & reports & ->); [apply Hin|apply Hin|].
  set (i := us_instruction st) in *. set (record := MkActivation (ui_upgrade_id i) Installing install_root "" "" "" "").
  match type of Ef with _ = (_, _, ?w) => set (hf := w) in * end.
  set (h1 := set_activation (Some (activation_json record)) (add_report (ui_upgrade_id i, "INSTALLING", "", "") hf)).
  destruct (extract_runs install_root st' content h1) as [v Ex]; [exact Ha|by rewrite Ei|].
  assert (Et2 : trying (extract_version install_root unpack st') [] h1 = (Done (Ok (version_path install_root (ui_build_id i))), [], set_versions v h1))
    by (unfold trying; by rewrite Ex, Ei).
  destruct (switch_over_times_out state_dir install_root timeout st' (with_active_target (version_path install_root (ui_build_id i)) record) old (set_versions v h1) Hc Ho) as (h2 & E2 & S2).
  { by rewrite Ei. }
  erewrite bind_done; cycle 1.
  { unfold install, within. erewrite bind_done; [|unfold trying; rewrite Ef; reflexivity]. cbn iota. rewrite Ei.
    do 2 (erewrite bind_done; [|reflexivity]; cbn iota). erewrite bind_done; [|exact Et2]. exact E2. }
  cbn iota. destruct (handler_restores (MkLocals st' (with_previous_target old (with_active_target (version_path install_root (ui_build_id i)) record)) true) timeout_message h2 eq_refl Ho)
    as (h3 & E3 & S3 & Hcur & Hrun & Hact & Hrep).
  cbn [wl_state] in Hrep. rewrite Ei in Hrep.
  exists h3. split; [exact E3|]. split; [|done]. destruct S2 as [Sa Sb], S3 as [Sc Sd]. split; [by rewrite Sc, Sa|by rewrite Sd, Sb].
Qed.

(** The host after a snapshot. *)
Definition snapshotted (h : Host) : Host :=
  match h_installed h with
  | Some content => set_backup (Some content) (set_absent false (set_backup None h))
  | None => set_absent true (set_absent false (set_backup None h))
  end.

Lemma snapshot_runs h : snapshot_installed_metadata [] h = (Done tt, [], snapshotted h).
Proof.
  unfold snapshot_installed_metadata, snapshotted. repeat (erewrite bind_done; [|reflexivity]). cbn [h_installed set_absent set_backup].
  by destruct (h_installed h).
Qed.

Lemma activation_load_runs r h :
  ua_upgrade_id r <> "" -> readable_record r -> h_activation h = Some (activation_json r) -> activation_load [] h = (Done (Some r), [], h).
Proof.
  intros Hid Hr Ha. unfold activation_load. erewrite bind_done; [|reflexivity]. rewrite Ha, activation_reads_back by done. reflexivity.
Qed.

Lemma restore_runs h0 h :
  same_snapshot (snapshotted h0) h -> restore_metadata_after_rollback [] h = (Done tt, [], set_installed (h_installed h0) h).
Proof.
  unfold same_snapshot, snapshotted, restore_metadata_after_rollback. intros [Hb Ha]. erewrite bind_done; [|reflexivity].
  destruct (h_installed h0); cbn in Hb, Ha; rewrite Hb; [reflexivity|]. erewrite bind_done; [|reflexivity]. by rewrite Ha.
Qed.

Lemma reconcile_runs state_dir h : state_dir <> "" -> reconcile_linux_systemd_units state_dir [] h = (Done tt, [], h).
Proof. intros Hs. unfold reconcile_linux_systemd_units. by rewrite bool_decide_eq_false_2. Qed.

(** C16: The updater is run with the command [apply], a state directory, an install root and a timeout
    of 5 to 300 seconds; the state file can be read; the artifact was verified before, or has yet to
    be downloaded and is served, and it is installable (digest, size, one agent); a version is
    current; and the upgrade id, the paths and the old link contain no quote or unreadable character
    and are no member name of the activation record (its reader searches for names).  When then no
    operation fails but no poll finds the new version healthy, the updater ends with exit code 1 and
    the host as before the upgrade: the old version is current, its build metadata is back (or
    absent, if it was), the service was started, and the activation file and the last report say
    [ROLLED_BACK]. *)
Theorem unhealthy_rolls_back argv timeout st content old h :
  let state_dir := arg_value argv "--state-dir" "" in
  let install_root := arg_value argv "--install-root" "" in
  let i := us_instruction st in
  nth 1 argv "" = "apply" -> state_dir <> "" -> install_root <> "" ->
  stoll (arg_value argv "--health-timeout" "45") = Ok timeout -> 5 <= timeout <= 300 ->
  pending h st -> obtainable state_dir st content h -> installable i content h -> h_current h = Some old -> old <> "" ->
  (forall h', becomes_healthy state_dir install_root identity_files timeout alive h' i = false) ->
  ui_upgrade_id i <> "" -> Forall value_text [ui_upgrade_id i; install_root; old; version_path install_root (ui_build_id i)] ->
  exists h', updater_main unpack identity_files alive argv [] h = (Done 1, [], h') /\
    h_current h' = h_current h /\ h_installed h' = h_installed h /\ h_running h' = true /\
    h_activation h' = Some (activation_json (rolled_back_record install_root old i)) /\
    exists message, last (h_reports h') = Some (ui_upgrade_id i, "ROLLED_BACK", "ROLLED_BACK_AFTER_FAILURE", message).
Proof.
  intros state_dir install_root i Hcmd Hsd Hir Ht [Ht1 Ht2] Hp Hv Hin Hc Ho Hb Hid Hw.
  assert (Hpend : pending (snapshotted h) st) by (unfold snapshotted; by destruct (h_installed h)).
  assert (Hv' : obtainable state_dir st content (snapshotted h)) by (unfold snapshotted; by destruct (h_installed h)).
  assert (Hin' : installable i content (snapshotted h)) by (unfold snapshotted; by destruct (h_installed h)).
  assert (Hc' : h_current (snapshotted h) = Some old) by (unfold snapshotted; by destruct (h_installed h)).
  destruct (worker_rolls_back state_dir install_root timeout st content old (snapshotted h) Hsd Hir Hpend Hv' Hin' Hc' Ho Hb)
    as (h1 & E1 & S1 & Hcur & Hrun & Hact & Hrep).
  exists (set_installed (h_installed h) h1). split; [|by rewrite Hc].
  assert (Hr : readable_record (rolled_back_record install_root old i)).
  { assert (Hf : value_text "ROLLED_BACK_AFTER_FAILURE").
    { split; [done|]. rewrite list_elem_of_In. intros Hx. cbn in Hx. by repeat destruct Hx as [Hx|Hx]. }
    split; [|done]. rewrite !Forall_cons in Hw. destruct Hw as (? & ? & ? & ? & _).
    repeat (apply Forall_cons; split; [assumption|]). by apply Forall_nil. }
  unfold updater_main. rewrite Hcmd. rewrite bool_decide_eq_false_2, (bool_decide_eq_true_2 ("apply" = "apply")) by done. cbn [negb].
  fold state_dir. unfold catch. assert (Ea : apply_upgrade unpack identity_files alive state_dir argv [] h = (Threw timeout_message, [], h1)).
  { unfold apply_upgrade. erewrite bind_done; [|by apply reconcile_runs]. rewrite Ht. erewrite bind_done; [|reflexivity].
    rewrite (proj2 (Z.ltb_ge _ _) Ht1), (proj2 (Z.ltb_ge _ _) Ht2). erewrite bind_done; [|reflexivity].
    erewrite bind_done; [|apply snapshot_runs]. exact E1. }
  unfold bind at 1. rewrite Ea. erewrite bind_done; [reflexivity|]. unfold updater_failed. rewrite bool_decide_eq_false_2 by done.
  unfold catch. erewrite bind_done; [|exact (activation_load_runs (rolled_back_record install_root old i) h1 Hid Hr Hact)]. cbn [ua_state rolled_back_record with_activation_state].
  rewrite bool_decide_eq_true_2 by done. by rewrite (restore_runs h).
Qed.

End rollback.

(** ** Two ways to be left behind *)

Section left_behind.
Context `{Sha256} `{Https} (unpack : string -> option Tree) (identity_files : Tree) (alive : list bool).

Lemma switch_over_strands state_dir install_root timeout st record old e h :
  h_current h = Some old -> old <> "" ->
  switch_over state_dir install_root identity_files timeout alive st record [IoDone; IoDone; IoDone; IoDone; IoDone; IoThrows e None] h =
    (Done (MkLocals st record true, Throw ("failed to atomically switch Linux current version: " +:+ e)), [],
     set_previous (Some old) (set_running false h)).
Proof.
  intros Hc Ho. unfold switch_over, within. erewrite bind_done; [|reflexivity]. erewrite bind_done; cycle 1.
  { unfold trying, activate_version. erewrite bind_done; [|reflexivity]. cbn [h_current set_running]. rewrite Hc.
    change (value_or (Some old) "") with old. rewrite bool_decide_eq_false_2 by done. reflexivity. }
  reflexivity.
Qed.

Lemma handler_strands locals error h :
  wl_attempted locals = true -> ua_previous_target (wl_activation locals) = "" ->
  exists h' message, handle_failure locals error [] h = (Threw error, [], h') /\
    h_current h' = h_current h /\ h_versions h' = h_versions h /\ h_running h' = false /\
    h_activation h' = Some (activation_json (with_activation_state ActivationFailed "ROLLBACK_FAILED" message (wl_activation locals))).
Proof.
  intros Ha Hp. unfold handle_failure. rewrite Ha. cbn [negb]. erewrite bind_done; [|reflexivity]. erewrite bind_done; [|reflexivity].
  erewrite bind_done; cycle 1.
  { unfold restore_previous. erewrite bind_done; cycle 1.
    { unfold trying, rollback_version. cbn [ua_previous_target with_activation_state]. rewrite bool_decide_eq_true_2 by done. reflexivity. }
    reflexivity. }
  cbn iota. eexists _, _. split; [reflexivity|]. by split_and!.
Qed.

(** When the rename that switches the [current] link fails, the worker has stopped the service but
    has not yet noted the old version, so that its rollback refuses to run: although the old version
    is in place and still current, the service stays stopped and the record says [ROLLBACK_FAILED]. *)
Theorem switch_failure_strands state_dir install_root timeout st old content tree agent e h :
  let i := us_instruction st in
  state_dir <> "" -> install_root <> "" -> pending h st -> us_state st = Verified -> h_current h = Some old -> old <> "" ->
  safe_token (ui_build_id i) = true -> h_artifacts h !! us_download_path st = Some content ->
  Z.of_nat (String.length content) <= kDefaultMaxBytes -> normalize_sha256 (ui_sha256 i) = Ok (sha256_hex content) ->
  h_versions h !! ui_build_id i = Some tree -> find_packaged_agent tree = Ok agent ->
  exists h' message, run_upgrade_worker state_dir install_root unpack identity_files timeout alive (replicate 15 IoDone ++ [IoThrows e None]) h =
      (Threw ("failed to atomically switch Linux current version: " +:+ e), [], h') /\
    h_current h' = Some old /\ h_versions h' = h_versions h /\ h_running h' = false /\
    h_activation h' = Some (activation_json (with_activation_state ActivationFailed "ROLLBACK_FAILED" message (new_record install_root i ""))).
Proof.
  intros i Hsd Hir (text & Et & Es) Hv Hc Ho Hsafe Ha Hl Hn Ht Hag. unfold run_upgrade_worker. cbn [replicate app].
  rewrite (bool_decide_eq_false_2 (state_dir = "")), (bool_decide_eq_false_2 (install_root = "")) by done. cbn [orb throw_if].
  erewrite bind_done; [|reflexivity].
  erewrite bind_done; [|unfold store_load; erewrite bind_done; [|reflexivity]; rewrite Et, Es; reflexivity].
  set (record := MkActivation (ui_upgrade_id (us_instruction st)) Installing install_root "" "" "" ""). cbn iota beta.
  erewrite bind_done; cycle 1.
  { unfold install, within, fetch_state. rewrite bool_decide_eq_true_2 by done. erewrite bind_done; [|reflexivity]. cbn iota.
    do 2 (erewrite bind_done; [|reflexivity]; cbn iota). erewrite bind_done; cycle 1.
    { unfold trying, extract_version. fold i. rewrite Hsafe. cbn [negb throw_if]. erewrite bind_done; [|reflexivity].
      erewrite bind_done; [|unfold verify_file; rewrite Hn; erewrite bind_done; [|reflexivity]; erewrite bind_done; [|reflexivity];
        cbn [h_artifacts installed set_activation add_report]; rewrite Ha, (proj2 (Z.ltb_ge _ _)), bool_decide_eq_true_2 by done; reflexivity].
      erewrite bind_done; [|reflexivity]. cbn [h_versions installed set_activation add_report]. rewrite Ht, Hag. reflexivity. }
    cbn iota. by apply switch_over_strands. }
  cbn iota. destruct (handler_strands (MkLocals st (with_active_target (version_path install_root (ui_build_id i)) record) true)
    ("failed to atomically switch Linux current version: " +:+ e)
    (set_previous (Some old) (set_running false (set_activation (Some (activation_json record)) (add_report (ui_upgrade_id i, "INSTALLING", "", "") h))))
    eq_refl eq_refl) as (h' & message & E & H1 & H2 & H3 & H4).
  exists h', message. split; [exact E|]. split; [by rewrite H1|]. split; [by rewrite H2|]. done.
Qed.

End left_behind.

Lemma activation_load_spec h (T : string -> Host -> Prop) (C : Host -> Prop) :
  (forall m, T m h) -> C h ->
  triple (fun w => w = h) activation_load
    (fun r w => w = h /\ match r with
       | Some r => exists text, h_activation h = Some text /\ activation_from_json text = Ok r
       | None => h_activation h = None end) T C.
Proof.
  intros HT HC. unfold activation_load. eapply triple_bind; [apply triple_read; [by intros m w ->|by intros w ->]|].
  intros text fs w [-> ->]. destruct (h_activation h) as [text|] eqn:E; [|done].
  unfold bind, lift. destruct (activation_from_json text) as [r|] eqn:Er; cbn; [|by apply HT]. split; [done|]. by exists text.
Qed.

Lemma saved_upgrade_id r r' :
  readable (ua_upgrade_id r) = true -> activation_from_json (activation_json r) = Ok r' -> ua_upgrade_id r' = ua_upgrade_id r.
Proof.
  intros Hr. pose proof (member_string_printed "upgrade_id" (ua_upgrade_id r) [] (tail (activation_members r)) eq_refl ltac:(done) (Forall_nil_2 _) Hr) as Hm.
  change (member_string (activation_json r) "upgrade_id" = Ok (ua_upgrade_id r)) in Hm.
  unfold activation_from_json. rewrite Hm. cbn [rbind].
  repeat (match goal with |- context [rbind ?m _] => destruct m; [cbn [rbind]|discriminate] end). by intros [= <-].
Qed.

Lemma activation_members_plain r : Forall (fun m => plain m.1 = true) (activation_members r).
Proof. by repeat constructor. Qed.

Lemma installing_not_terminal r id : ua_state r = Installing -> activation_is_terminal_for (Some (activation_json r)) id = false.
Proof.
  intros Hs. unfold activation_is_terminal_for, activation_json. rewrite !member_printed by apply activation_members_plain.
  cbn [member_value activation_members]. rewrite Hs. rewrite bool_decide_eq_true_2 by done.
  destruct (readable (ua_upgrade_id r)); [|done]. apply andb_false_intro2. reflexivity.
Qed.

(** If the worker is killed while an upgrade is being activated, the activation file stays at
    [INSTALLING] for the pending upgrade; from then on no upgrade is launched again, and unless the
    new build happens to run, every instruction for another upgrade is refused: upgrades need manual
    repair. *)
Theorem interrupted_activation_blocks h st r :
  pending h st -> us_state st <> UpgradeFailed ->
  h_activation h = Some (activation_json r) -> ua_state r = Installing -> ua_upgrade_id r = ui_upgrade_id (us_instruction st) ->
  readable (ua_upgrade_id r) = true ->
  (forall state_dir fs fs' h', launch_upgrade_worker_if_needed state_dir fs h <> (Done true, fs', h')) /\
  (forall b i fs st' fs' h', instruction_matches_build (us_instruction st) b = Ok false -> ui_upgrade_id i <> ua_upgrade_id r ->
     store_accept i b fs h <> (Done st', fs', h')).
Proof.
  intros (text & Et & Es) Hf Ha Hs Hid Hr. split.
  - intros state_dir fs fs' h' E. assert (Ht : triple (fun w => w = h) (launch_upgrade_worker_if_needed state_dir) (fun b _ => b = false) (fun _ _ => True) (fun _ => True)).
    { unfold launch_upgrade_worker_if_needed. eapply (triple_bind _ _ _ (fun _ w => w = h)); [by apply triple_lift|]. intros _.
      eapply triple_bind; [eapply triple_weaken; [apply (load_spec h)|done|intros x w Hw; exact Hw|done|done]|].
      intros [st'|] fs1 w [-> Hl]; [|done]. destruct Hl as (t & Et' & Es'). assert (st' = st) as -> by congruence.
      rewrite bool_decide_eq_false_2 by done. refine ((_ : triple (fun w => w = h) _ _ _ _) fs1 h eq_refl).
      eapply triple_bind; [by apply (activation_load_spec h)|]. intros [r'|] fs2 w [-> Hl]; [|congruence].
      destruct Hl as (t' & Ea & Er). rewrite Ha in Ea. injection Ea as <-. apply saved_upgrade_id in Er; [|done].
      by rewrite bool_decide_eq_true_2 by congruence. }
    specialize (Ht fs h eq_refl). by rewrite E in Ht.
  - intros b i fs st' fs' h' Hm Hne E. pose proof (accept_spec b i h fs h eq_refl) as Hx. rewrite E in Hx.
    destruct Hx as [[(t & Et' & Es' & He & _) _]|[_ (_ & [Hn|(t & old & Et' & Es' & _ & run & Em & Hx)] & _)]]; [congruence|congruence|].
    assert (old = st) as -> by congruence. rewrite Hm in Em. injection Em as <-. rewrite Ha, installing_not_terminal in Hx by done.
    by destruct Hx as [?|[?|?]].
Qed.

(** ** Concrete runs *)

Definition sample_path : string := "/var/lib/neta/upgrade/downloads/01234567-89ab-cdef-0123-456789abcdef/agent.tar.gz".
Definition verified_state : UpgradeState := MkUpgradeState (sample_instruction "2.0.0") Verified sample_path "".

(** A host that has downloaded the sample artifact. *)
Definition verified_host : Host := set_artifacts {[sample_path := "data"]} (set_state (Some (state_json verified_state)) accepted_host).

Lemma verified_pending h : h_state h = h_state verified_host -> pending h verified_state.
Proof. intros E. eexists. split; [exact E|]. vm_compute. reflexivity. Qed.

Definition apply_argv : list string :=
  ["neta-agent-updater"; "apply"; "--state-dir"; "/var/lib/neta"; "--install-root"; "/opt/neta-agent"].

Lemma unhealthy_rolls_back_witness :
  exists h', updater_main (H := sum_digest) (H0 := github_only) sample_unpack sample_identity [false; false] apply_argv [] accepted_host = (Done 1, [], h') /\
    h_current h' = h_current accepted_host /\ h_installed h' = h_installed accepted_host /\ h_running h' = true /\
    h_activation h' = Some (activation_json (rolled_back_record "/opt/neta-agent" "versions/build-1" (sample_instruction "2.0.0"))) /\
    exists message, last (h_reports h') =
      Some (ui_upgrade_id (sample_instruction "2.0.0"), "ROLLED_BACK", "ROLLED_BACK_AFTER_FAILURE", message).
Proof.
  apply (unhealthy_rolls_back (H := sum_digest) (H0 := github_only) sample_unpack sample_identity [false; false] apply_argv 45
    (fresh_state (sample_instruction "2.0.0")) "data" "versions/build-1" accepted_host).
  1-5: reflexivity || done || lia.
  - exact accepted_pending.
  - split; [vm_compute; reflexivity|]. split; [eexists; vm_compute; reflexivity|]. right. split; vm_compute; reflexivity.
  - split; [reflexivity|]. split; [done|]. split; [vm_compute; reflexivity|].
    change (match h_versions accepted_host !! _ with Some _ => _ | None => ?x end) with x.
    split; [done|]. split; [done|]. eexists _, "neta/neta-agent", "neta-agent". split_and!; [reflexivity|vm_compute; reflexivity|vm_compute; reflexivity].
  - reflexivity.
  - done.
  - intros h'. unfold becomes_healthy. change (take (Z.to_nat 45) [false; false]) with [false; false]. cbn. by rewrite andb_false_r.
  - done.
  - repeat (apply Forall_cons; split; [split; [reflexivity|]; rewrite list_elem_of_In; intros Hx; cbn in Hx; by repeat destruct Hx as [Hx|Hx]|]). by apply Forall_nil.
Defined.

(** The version is already unpacked. *)
Definition unpacked_host : Host := set_versions (<["build-2" := {["neta-agent" := "new"]}]> (h_versions verified_host)) verified_host.

Lemma switch_failure_strands_witness :
  exists h' message, run_upgrade_worker (H := sum_digest) (H0 := github_only) "/var/lib/neta" "/opt/neta-agent" sample_unpack sample_identity 45 [true]
      (replicate 15 IoDone ++ [IoThrows "no space left on device" None]) unpacked_host =
      (Threw "failed to atomically switch Linux current version: no space left on device", [], h') /\
    h_current h' = Some "versions/build-1" /\ h_versions h' = h_versions unpacked_host /\ h_running h' = false /\
    h_activation h' = Some (activation_json (with_activation_state ActivationFailed "ROLLBACK_FAILED" message (new_record "/opt/neta-agent" (sample_instruction "2.0.0") ""))).
Proof.
  apply (switch_failure_strands (H := sum_digest) (H0 := github_only) sample_unpack sample_identity [true] "/var/lib/neta" "/opt/neta-agent" 45
    verified_state "versions/build-1" "data" {["neta-agent" := "new"]} "neta-agent" "no space left on device" unpacked_host).
  3: by apply verified_pending.
  all: done || (vm_compute; reflexivity).
Defined.

(** The worker is killed while the archive is being unpacked. *)
Definition interrupted_host : Host :=
  snd (run_upgrade_worker (H := sum_digest) (H0 := github_only) "/var/lib/neta" "/opt/neta-agent" sample_unpack sample_identity 45 [true]
         (replicate 13 IoDone ++ [IoCrashes None]) verified_host).

Lemma interrupted_activation_blocks_witness :
  h_versions interrupted_host !! ("build-2" : string) = None /\
  (forall state_dir fs fs' h', launch_upgrade_worker_if_needed state_dir fs interrupted_host <> (Done true, fs', h')) /\
  (forall b i fs st' fs' h', instruction_matches_build (sample_instruction "2.0.0") b = Ok false ->
     ui_upgrade_id i <> ui_upgrade_id (sample_instruction "2.0.0") -> store_accept i b fs interrupted_host <> (Done st', fs', h')).
Proof.
  split; [vm_compute; reflexivity|].
  apply (interrupted_activation_blocks interrupted_host verified_state
    (MkActivation (ui_upgrade_id (sample_instruction "2.0.0")) Installing "/opt/neta-agent" "" "" "" "")).
  - apply verified_pending. vm_compute. reflexivity.
  - done.
  - vm_compute. reflexivity.
  - reflexivity.
  - reflexivity.
  - vm_compute. reflexivity.
Defined.
