(* ===== verification/Json.v ===== *)
(** The JSON reader of the rule sets ([include/neta/rules/json_value.hpp],
    [json_parser.hpp]).

    A [cursor] is the parser's [pos_] with the input from there on; a member
    function takes the cursor and returns the new one or throws.  The loops take
    fuel: every pass reads at least one character, so the length of the input is
    enough ([JsonGrammar.json_parse_exact], [json_error_located]). *)

From S2P Require Import Prelude Text StringMap Doubles.

#[local] Arguments String.append !_ _ /.

(** ** Values *)

Inductive JsonValue :=
| JsonNull
| JsonBoolean (value : bool)
| JsonNumber (value : spec_float)
| JsonString (value : string)
| JsonArray (value : list JsonValue)
| JsonObject (value : list (string * JsonValue)).

Definition is_boolean (v : JsonValue) : bool := match v with JsonBoolean _ => true | _ => false end.
Definition is_number (v : JsonValue) : bool := match v with JsonNumber _ => true | _ => false end.
Definition is_string (v : JsonValue) : bool := match v with JsonString _ => true | _ => false end.
Definition is_array (v : JsonValue) : bool := match v with JsonArray _ => true | _ => false end.

Definition not_a {A} (label : string) : result A := Throw ("JSON value is not a " +:+ label).

Definition as_boolean (v : JsonValue) : result bool :=
  match v with JsonBoolean b => Ok b | _ => not_a "boolean" end.
Definition as_number (v : JsonValue) : result spec_float :=
  match v with JsonNumber d => Ok d | _ => not_a "number" end.
Definition as_string (v : JsonValue) : result string :=
  match v with JsonString s => Ok s | _ => not_a "string" end.
Definition as_array (v : JsonValue) : result (list JsonValue) :=
  match v with JsonArray l => Ok l | _ => not_a "array" end.
Definition as_object (v : JsonValue) : result (list (string * JsonValue)) :=
  match v with JsonObject o => Ok o | _ => not_a "object" end.

Definition json_at (v : JsonValue) (key : string) : result JsonValue :=
  let? object := as_object v in
  match map_find object key with
  | None => Throw ("missing JSON field: " +:+ key)
  | Some item => Ok item
  end.

Definition json_find (v : JsonValue) (key : string) : result (option JsonValue) :=
  let? object := as_object v in Ok (map_find object key).

(** ** Cursor *)

Record cursor := Cursor { pos_ : Z; rest_ : string }.

Definition fail {A} (c : cursor) (message : string) : result A :=
  Throw ("invalid JSON at byte " +:+ (to_string (pos_ c) +:+ (": " +:+ message))).

(** [++pos_] *)
Definition next (c : cursor) : cursor :=
  match rest_ c with String _ s => Cursor (pos_ c + 1) s | EmptyString => c end.

(** [pos_ < input_.size() && p(input_[pos_])] *)
Definition sees (p : ascii -> bool) (c : cursor) : bool :=
  match rest_ c with String ch _ => p ch | EmptyString => false end.

(** [while (pos_ < input_.size() && p(input_[pos_])) ++pos_;] *)
Fixpoint skip_while_from (p : ascii -> bool) (pos : Z) (s : string) : cursor :=
  match s with
  | String ch s' => if p ch then skip_while_from p (pos + 1) s' else Cursor pos s
  | EmptyString => Cursor pos s
  end.
Definition skip_while (p : ascii -> bool) (c : cursor) : cursor := skip_while_from p (pos_ c) (rest_ c).

Definition skip_ws (c : cursor) : cursor := skip_while isspace c.

Definition consume (expected : Z) (c : cursor) : bool * cursor :=
  let c := skip_ws c in
  if sees (is_char expected) c then (true, next c) else (false, c).

Definition expect (expected : Z) (c : cursor) : result cursor :=
  let '(found, c) := consume expected c in
  if found : bool then Ok c else fail c ("expected '" +:+ (String (char_of expected) "'")).

(** ** Strings *)

(** [append_utf8]: the text it appends. *)
Definition utf8_of (value : Z) : string :=
  if value <=? 127 then String (char_of value) ""
  else if value <=? 2047 then
    String (char_of (Z.lor 192 (Z.shiftr value 6))) (String (char_of (Z.lor 128 (Z.land value 63))) "")
  else
    String (char_of (Z.lor 224 (Z.shiftr value 12)))
      (String (char_of (Z.lor 128 (Z.land (Z.shiftr value 6) 63)))
        (String (char_of (Z.lor 128 (Z.land value 63))) "")).

Definition hex_value (c : ascii) : option Z :=
  if (48 <=? code c) && (code c <=? 57) then Some (code c - 48)
  else if (97 <=? code c) && (code c <=? 102) then Some (10 + (code c - 97))
  else if (65 <=? code c) && (code c <=? 70) then Some (10 + (code c - 65))
  else None.

(** The loop [for (int i = 0; i < 4; ++i)] over the digits. *)
Fixpoint hex_loop (n : nat) (value : Z) (c : cursor) : result (Z * cursor) :=
  match n with
  | O => Ok (value, c)
  | S n =>
      match rest_ c with
      | EmptyString => fail c "short unicode escape"
      | String ch _ =>
          let c := next c in
          match hex_value ch with
          | Some digit => hex_loop n (Z.lor (Z.shiftl value 4) digit) c
          | None => fail c "invalid unicode escape"
          end
      end
  end.

Definition parse_unicode_escape (out : string) (c : cursor) : result (string * cursor) :=
  if (String.length (rest_ c) <? 4)%nat then fail c "short unicode escape"
  else
    let? (value, c) := hex_loop 4 0 c in
    if (55296 <=? value) && (value <=? 57343) then fail c "surrogate escapes are not supported"
    else Ok (out +:+ utf8_of value, c).

(** The one-character escapes. *)
Definition simple_escape (c : ascii) : option Z :=
  if is_char 34 c then Some 34
  else if is_char 92 c then Some 92
  else if is_char 47 c then Some 47
  else if is_char 98 c then Some 8
  else if is_char 102 c then Some 12
  else if is_char 110 c then Some 10
  else if is_char 114 c then Some 13
  else if is_char 116 c then Some 9
  else None.

(** The loop of [parse_string]. *)
Fixpoint string_loop (fuel : nat) (out : string) (c : cursor) : result (string * cursor) :=
  match fuel with
  | O => Throw "fuel"
  | S fuel =>
      match rest_ c with
      | EmptyString => fail c "unterminated string"
      | String ch _ =>
          let c := next c in
          if is_char 34 ch then Ok (out, c)
          else if code ch <? 32 then fail c "control character in string"
          else if negb (is_char 92 ch) then string_loop fuel (out +:+ String ch "") c
          else
            match rest_ c with
            | EmptyString => fail c "unterminated escape sequence"
            | String escaped _ =>
                let c := next c in
                match simple_escape escaped with
                | Some ch => string_loop fuel (out +:+ String (char_of ch) "") c
                | None =>
                    if is_char 117 escaped then
                      let? (out, c) := parse_unicode_escape out c in string_loop fuel out c
                    else fail c "unsupported escape sequence"
                end
            end
      end
  end.

Definition fuel_of (c : cursor) : nat := S (String.length (rest_ c)).

Definition parse_string (c : cursor) : result (string * cursor) :=
  if negb (sees (is_char 34) c) then fail c "expected string"
  else let c := next c in string_loop (fuel_of c) "" c.

(** ** Numbers and literals *)

(** The characters between two positions of the cursor: [input_.substr(begin, pos_ - begin)]. *)
Definition text_between (a b : cursor) : string :=
  substr (rest_ a) 0 (String.length (rest_ a) - String.length (rest_ b)).

Definition number_integer (c : cursor) : result cursor :=
  let c := if sees (is_char 45) c then next c else c in
  match rest_ c with
  | EmptyString => fail c "incomplete number"
  | String ch _ =>
      if is_char 48 ch then Ok (next c)
      else if negb (isdigit ch) then fail c "invalid number"
      else Ok (skip_while isdigit c)
  end.

Definition number_fraction (c : cursor) : result cursor :=
  if sees (is_char 46) c then
    let c := next c in
    if negb (sees isdigit c) then fail c "invalid fraction" else Ok (skip_while isdigit c)
  else Ok c.

Definition number_exponent (c : cursor) : result cursor :=
  if sees (fun ch => is_char 101 ch || is_char 69 ch) c then
    let c := next c in
    let c := if sees (fun ch => is_char 43 ch || is_char 45 ch) c then next c else c in
    if negb (sees isdigit c) then fail c "invalid exponent" else Ok (skip_while isdigit c)
  else Ok c.

Definition parse_number (begin : cursor) : result (spec_float * cursor) :=
  let? c := number_integer begin in
  let? c := number_fraction c in
  let? c := number_exponent c in
  match strtod (text_between begin c) with
  | (Some value, "") => if isfinite value then Ok (value, c) else fail c "invalid finite number"
  | _ => fail c "invalid finite number"
  end.

Fixpoint advance (n : nat) (c : cursor) : cursor :=
  match n with O => c | S n => advance n (next c) end.

Definition parse_literal (literal : string) (c : cursor) : result cursor :=
  if bool_decide (substr (rest_ c) 0 (String.length literal) = literal)
  then Ok (advance (String.length literal) c)
  else fail c "invalid literal".

(** ** Values *)

Section loops.
Variable value_parser : cursor -> result (JsonValue * cursor).

(** The loop of [parse_object] *)
Fixpoint member_loop (fuel : nat) (object : list (string * JsonValue)) (c : cursor) : result (JsonValue * cursor) :=
  match fuel with
  | O => Throw "fuel"
  | S fuel =>
      let c := skip_ws c in
      if negb (sees (is_char 34) c) then fail c "object key must be a string"
      else
        let? (key, c) := parse_string c in
        let? c := expect 58 c in
        let? (value, c) := value_parser c in
        match map_emplace object key value with
        | None => fail c ("duplicate object key: " +:+ key)
        | Some object =>
            let '(closed, c) := consume 125 c in
            if closed : bool then Ok (JsonObject object, c)
            else let? c := expect 44 c in member_loop fuel object c
        end
  end.

Definition parse_object (c : cursor) : result (JsonValue * cursor) :=
  let? c := expect 123 c in
  let c := skip_ws c in
  let '(closed, c) := consume 125 c in
  if closed : bool then Ok (JsonObject [], c) else member_loop (fuel_of c) [] c.

(** The loop of [parse_array] *)
Fixpoint element_loop (fuel : nat) (array : list JsonValue) (c : cursor) : result (JsonValue * cursor) :=
  match fuel with
  | O => Throw "fuel"
  | S fuel =>
      let? (value, c) := value_parser c in
      let array := array ++ [value] in
      let '(closed, c) := consume 93 c in
      if closed : bool then Ok (JsonArray array, c)
      else let? c := expect 44 c in element_loop fuel array c
  end.

Definition parse_array (c : cursor) : result (JsonValue * cursor) :=
  let? c := expect 91 c in
  let c := skip_ws c in
  let '(closed, c) := consume 93 c in
  if closed : bool then Ok (JsonArray [], c) else element_loop (fuel_of c) [] c.

End loops.

Fixpoint parse_value (fuel : nat) (c : cursor) : result (JsonValue * cursor) :=
  match fuel with
  | O => Throw "fuel"
  | S fuel =>
      let c := skip_ws c in
      match rest_ c with
      | EmptyString => fail c "unexpected end of input"
      | String ch _ =>
          if is_char 123 ch then parse_object (parse_value fuel) c
          else if is_char 91 ch then parse_array (parse_value fuel) c
          else if is_char 34 ch then let? (s, c) := parse_string c in Ok (JsonString s, c)
          else if is_char 116 ch then let? c := parse_literal "true" c in Ok (JsonBoolean true, c)
          else if is_char 102 ch then let? c := parse_literal "false" c in Ok (JsonBoolean false, c)
          else if is_char 110 ch then let? c := parse_literal "null" c in Ok (JsonNull, c)
          else if is_char 45 ch || isdigit ch then let? (d, c) := parse_number c in Ok (JsonNumber d, c)
          else fail c "unexpected token"
      end
  end.

(** [JsonParser(input).parse()] *)
Definition parse (input : string) : result JsonValue :=
  let c := skip_ws (Cursor 0 input) in
  let? (value, c) := parse_value (fuel_of c) c in
  let c := skip_ws c in
  if negb (bool_decide (rest_ c = "")) then fail c "unexpected trailing content" else Ok value.
