(* ===== verification/JsonGrammar.v ===== *)
(** The grammar of the JSON reader and its agreement with the parser.

    The grammar [json_document] is stated on its own, as relations between texts and
    values; the theorems say that the parser of [Json.v] accepts exactly the texts of
    the grammar, with their values, and that every refusal names a byte of the input. *)

From S2P Require Import Prelude Text StringMap Doubles Json.

#[local] Arguments String.append !_ _ /.

(** ** The grammar *)

Definition ws (t : string) : Prop := string_all isspace t = true.
Definition digits1 (t : string) : Prop := string_all isdigit t = true /\ t <> "".
Definition quote : string := String (char_of 34) "".

(** The text between the quotes of a string and the string it stands for. *)
Inductive json_chars : string -> string -> Prop :=
| chars_nil : json_chars "" ""
| chars_plain ch t s :
    32 <= code ch -> code ch <> 34 -> code ch <> 92 -> json_chars t s -> json_chars (String ch t) (String ch s)
| chars_escape b e z t s :
    code b = 92 -> simple_escape e = Some z -> json_chars t s ->
    json_chars (String b (String e t)) (String (char_of z) s)
| chars_unicode b u h1 h2 h3 h4 v1 v2 v3 v4 t s :
    code b = 92 -> code u = 117 ->
    hex_value h1 = Some v1 -> hex_value h2 = Some v2 -> hex_value h3 = Some v3 -> hex_value h4 = Some v4 ->
    ~ (55296 <= 4096 * v1 + 256 * v2 + 16 * v3 + v4 <= 57343) ->
    json_chars t s ->
    json_chars (String b (String u (String h1 (String h2 (String h3 (String h4 t))))))
      (utf8_of (4096 * v1 + 256 * v2 + 16 * v3 + v4) +:+ s).

Definition integer_text (t : string) : Prop := t = "0" \/ digits1 t /\ starts_with "0" t = false.
Definition fraction_text (t frac : string) : Prop := t = "" /\ frac = "" \/ t = "." +:+ frac /\ digits1 frac.
Definition sign_text (t : string) (negative : bool) : Prop :=
  t = "-" /\ negative = true \/ (t = "" \/ t = "+") /\ negative = false.
Definition exponent_text (t : string) (exponent : Z) : Prop :=
  t = "" /\ exponent = 0 \/
  exists e sign digits negative,
    t = e +:+ (sign +:+ digits) /\ (e = "e" \/ e = "E") /\ sign_text sign negative /\ digits1 digits /\
    exponent = (if negative then - digits_value 0 digits else digits_value 0 digits).

(** The text of a number and the double nearest to it. *)
Definition json_number (t : string) (d : spec_float) : Prop :=
  exists (negative : bool) int fraction frac etext exponent,
    t = (if negative then "-" else "") +:+ (int +:+ (fraction +:+ etext)) /\
    integer_text int /\ fraction_text fraction frac /\ exponent_text etext exponent /\
    d = decimal_value negative (digits_value 0 (int +:+ frac)) (exponent - Z.of_nat (String.length frac)) /\
    isfinite d = true.

(** The text of a value, without white space around it; of the elements of an
    array; of the members of an object. *)
Inductive json_value : string -> JsonValue -> Prop :=
| value_null : json_value "null" JsonNull
| value_true : json_value "true" (JsonBoolean true)
| value_false : json_value "false" (JsonBoolean false)
| value_number t d : json_number t d -> json_value t (JsonNumber d)
| value_string t s : json_chars t s -> json_value (quote +:+ (t +:+ quote)) (JsonString s)
| value_array_empty w : ws w -> json_value ("[" +:+ (w +:+ "]")) (JsonArray [])
| value_array t vs : json_elements t vs -> json_value ("[" +:+ (t +:+ "]")) (JsonArray vs)
| value_object_empty w : ws w -> json_value ("{" +:+ (w +:+ "}")) (JsonObject [])
| value_object t ms o :
    json_members t ms -> NoDup (map fst ms) -> keys_sorted o -> o ≡ₚ ms ->
    json_value ("{" +:+ (t +:+ "}")) (JsonObject o)
with json_elements : string -> list JsonValue -> Prop :=
| elements_last w t v w' : ws w -> json_value t v -> ws w' -> json_elements (w +:+ (t +:+ w')) [v]
| elements_more w t v w' t' vs :
    ws w -> json_value t v -> ws w' -> json_elements t' vs ->
    json_elements (w +:+ (t +:+ (w' +:+ ("," +:+ t')))) (v :: vs)
with json_members : string -> list (string * JsonValue) -> Prop :=
| members_last w kt k w1 w2 t v w' :
    ws w -> json_chars kt k -> ws w1 -> ws w2 -> json_value t v -> ws w' ->
    json_members (w +:+ (quote +:+ (kt +:+ (quote +:+ (w1 +:+ (":" +:+ (w2 +:+ (t +:+ w')))))))) [(k, v)]
| members_more w kt k w1 w2 t v w' t' ms :
    ws w -> json_chars kt k -> ws w1 -> ws w2 -> json_value t v -> ws w' -> json_members t' ms ->
    json_members (w +:+ (quote +:+ (kt +:+ (quote +:+ (w1 +:+ (":" +:+ (w2 +:+ (t +:+ (w' +:+ ("," +:+ t'))))))))))
      ((k, v) :: ms).

Scheme json_value_mind := Induction for json_value Sort Prop
  with json_elements_mind := Induction for json_elements Sort Prop
  with json_members_mind := Induction for json_members Sort Prop.
Combined Scheme json_grammar_ind from json_value_mind, json_elements_mind, json_members_mind.

Definition json_document (text : string) (v : JsonValue) : Prop :=
  exists w t w', text = w +:+ (t +:+ w') /\ ws w /\ json_value t v /\ ws w'.

(** ** Reading *)

(** [c'] is [c] after the characters [t]. *)
Definition reads (t : string) (c c' : cursor) : Prop :=
  rest_ c = t +:+ rest_ c' /\ pos_ c' = pos_ c + Z.of_nat (String.length t).

(** An error message that names a byte at or after [c]. *)
Definition located (c : cursor) (m : string) : Prop :=
  exists p why, pos_ c <= p <= pos_ c + Z.of_nat (String.length (rest_ c)) /\
    m = "invalid JSON at byte " +:+ (to_string p +:+ (": " +:+ why)).

(** What a parser may do: read a text of the grammar, or fail at a byte it was given. *)
Definition outcome {A} (G : string -> A -> Prop) (c : cursor) (r : result (A * cursor)) : Prop :=
  match r with
  | Ok (a, c') => exists t, reads t c c' /\ G t a
  | Throw m => located c m
  end.

Lemma reads_nil c : reads "" c c.
Proof. split; cbn; [done|lia]. Qed.

Lemma reads_app t t' c c' c'' : reads t c c' -> reads t' c' c'' -> reads (t +:+ t') c c''.
Proof. intros [E1 P1] [E2 P2]. split; [by rewrite E1, E2, string_app_assoc|rewrite string_length_app; lia]. Qed.

Lemma reads_next c ch s : rest_ c = String ch s -> reads (String ch "") c (next c).
Proof. destruct c as [p r]. cbn. intros ->. split; cbn; [done|lia]. Qed.

Lemma reads_unique t c c1 c2 : reads t c c1 -> reads t c c2 -> c1 = c2.
Proof.
  destruct c1, c2. intros [E1 P1] [E2 P2]. cbn in *. f_equal; [congruence|].
  rewrite E1 in E2. by apply string_app_inv_l in E2.
Qed.

Lemma reads_split t t' c c'' : reads (t +:+ t') c c'' -> exists c', reads t c c' /\ reads t' c' c''.
Proof.
  intros [E P]. rewrite string_app_assoc in E. rewrite string_length_app in P.
  exists (Cursor (pos_ c + Z.of_nat (String.length t)) (t' +:+ rest_ c'')). split; split; cbn; [done..|done|lia].
Qed.

Lemma reads_length t c c' :
  reads t c c' -> String.length (rest_ c) = (String.length t + String.length (rest_ c'))%nat.
Proof. intros [E _]. by rewrite E, string_length_app. Qed.

Lemma reads_cons ch t c c' :
  reads (String ch t) c c' -> rest_ c = String ch (t +:+ rest_ c') /\ reads t (next c) c'.
Proof.
  intros [E P]. destruct c as [p r]. cbn in *. subst r. split; [done|]. split; cbn; [done|lia].
Qed.

Lemma located_reads t c c' m : reads t c c' -> located c' m -> located c m.
Proof.
  intros Hr (p & why & Hp & ->). pose proof (reads_length _ _ _ Hr). destruct Hr as [_ P].
  exists p, why. split; [lia|done].
Qed.

Lemma located_here c why : located c ("invalid JSON at byte " +:+ (to_string (pos_ c) +:+ (": " +:+ why))).
Proof. exists (pos_ c), why. split; [lia|done]. Qed.

Lemma text_between_reads t c c' : reads t c c' -> text_between c c' = t.
Proof.
  intros H. pose proof (reads_length _ _ _ H) as L. destruct H as [E _].
  unfold text_between. replace (_ - _)%nat with (String.length t) by lia. rewrite E. apply substring_0_app.
Qed.

#[local] Hint Resolve located_here reads_nil : json.

(** [sees] *)
Lemma sees_inv p c : sees p c = true -> exists ch s, rest_ c = String ch s /\ p ch = true.
Proof. unfold sees. destruct (rest_ c); [done|eauto]. Qed.

Lemma sees_cons p ch t c c' : reads (String ch t) c c' -> sees p c = p ch.
Proof. intros [E _]%reads_cons. unfold sees. by rewrite E. Qed.

Lemma is_char_code n c : is_char n c = true <-> code c = n.
Proof. apply Z.eqb_eq. Qed.

Lemma is_char_neq n c : code c <> n -> is_char n c = false.
Proof. apply Z.eqb_neq. Qed.

Lemma code_char_of z : 0 <= z < 256 -> code (char_of z) = z.
Proof. intros H. unfold code, char_of. rewrite N_ascii_embedding; lia. Qed.

Lemma char_of_code c : char_of (code c) = c.
Proof. unfold code, char_of. rewrite N2Z.id. apply ascii_N_embedding. Qed.

Lemma code_inj a b : code a = code b -> a = b.
Proof. intros H. by rewrite <- (char_of_code a), H, char_of_code. Qed.

Lemma is_char_eq z c : is_char z c = true -> c = char_of z.
Proof. intros H%is_char_code. by rewrite <- H, char_of_code. Qed.

Lemma skip_while_iff p c c' :
  skip_while p c = c' <-> exists t, reads t c c' /\ string_all p t = true /\ sees p c' = false.
Proof.
  destruct c as [pos s]. unfold skip_while. cbn. revert pos. induction s as [|ch s IH]; intros pos; cbn.
  - split; [intros <-; exists ""; by split_and!; [apply reads_nil|..]|].
    intros (t & Hr & _). pose proof (reads_length _ _ _ Hr) as L. destruct t; [|done].
    by apply (reads_unique "" (Cursor pos "")); [apply reads_nil|].
  - destruct (p ch) eqn:E.
    + rewrite IH. split.
      * intros (t & Hr & Ht & Hs). exists (String ch t). split_and!; [|cbn; by rewrite E|done].
        apply (reads_app (String ch "") t _ (Cursor (pos + 1) s)); [|done]. split; cbn; [done|lia].
      * intros (t & Hr & Ht & Hs). destruct t as [|d t].
        { rewrite (reads_unique "" (Cursor pos (String ch s)) _ _ Hr (reads_nil _)) in Hs. cbn in Hs. congruence. }
        apply reads_cons in Hr as [Eq Hr]. cbn in Eq, Hr. injection Eq as -> ->.
        cbn in Ht. apply andb_true_iff in Ht as [_ Ht]. eauto.
    + split; [intros <-; exists ""; by split_and!; [apply reads_nil|..]|].
      intros (t & Hr & Ht & _). destruct t as [|d t].
      { by apply (reads_unique "" (Cursor pos (String ch s))); [apply reads_nil|]. }
      apply reads_cons in Hr as [Eq _]. cbn in Eq, Ht. injection Eq as -> ->.
      apply andb_true_iff in Ht as [Ht _]. congruence.
Qed.

Lemma skip_ws_iff c c' : skip_ws c = c' <-> exists w, reads w c c' /\ ws w /\ sees isspace c' = false.
Proof. apply skip_while_iff. Qed.

Lemma consume_spec ch c b c' :
  consume ch c = (b, c') ->
  exists w, ws w /\ if b then reads (w +:+ String (char_of ch) "") c c'
                    else reads w c c' /\ sees isspace c' = false /\ sees (is_char ch) c' = false.
Proof.
  unfold consume. destruct (skip_ws c) as [p s] eqn:E. apply skip_ws_iff in E as (w & Hr & Hw & Hs).
  destruct (sees (is_char ch) (Cursor p s)) eqn:E; intros [= <- <-]; exists w; split; [done| |done..].
  apply sees_inv in E as (d & s' & Ed & ->%is_char_eq). cbn in Ed. subst s.
  eapply reads_app; [exact Hr|]. by eapply reads_next.
Qed.

Lemma consume_found ch w c c' :
  0 <= ch < 256 -> isspace (char_of ch) = false ->
  ws w -> reads (w +:+ String (char_of ch) "") c c' -> consume ch c = (true, c').
Proof.
  intros Hch Hsp Hw (c1 & H1 & H2)%reads_split. unfold consume.
  replace (skip_ws c) with c1; [|symmetry; apply skip_ws_iff; exists w; split_and!; [done..|]; by rewrite (sees_cons _ _ _ _ _ H2)].
  rewrite (sees_cons _ _ _ _ _ H2). rewrite (proj2 (is_char_code _ _)) by by apply code_char_of.
  f_equal. apply (reads_unique (String (char_of ch) "") c1); [|done].
  apply reads_cons in H2 as [E _]. by eapply reads_next.
Qed.

Lemma consume_absent ch w c c' :
  ws w -> reads w c c' -> sees isspace c' = false -> sees (is_char ch) c' = false -> consume ch c = (false, c').
Proof.
  intros Hw Hr H1 H2. unfold consume.
  replace (skip_ws c) with c'; [by rewrite H2|]. symmetry. apply skip_ws_iff. eauto.
Qed.

Lemma expect_spec ch c :
  match expect ch c with
  | Ok c' => exists w, ws w /\ reads (w +:+ String (char_of ch) "") c c'
  | Throw m => located c m
  end.
Proof.
  unfold expect. destruct (consume ch c) as [b c'] eqn:E. apply consume_spec in E as (w & Hw & H).
  destruct b; [eauto|]. destruct H as [H _]. eapply located_reads; [exact H|]. apply located_here.
Qed.

Lemma expect_found ch w c c' :
  0 <= ch < 256 -> isspace (char_of ch) = false ->
  ws w -> reads (w +:+ String (char_of ch) "") c c' -> expect ch c = Ok c'.
Proof. intros ????. unfold expect. by rewrite (consume_found ch w c c'). Qed.

(** ** Strings *)

Lemma lor_digit v d : 0 <= d < 16 -> Z.lor (Z.shiftl v 4) d = 16 * v + d.
Proof.
  intros Hd. pose proof (Z.add_lor_land (Z.shiftl v 4) d) as H.
  assert (E : Z.land (Z.shiftl v 4) d = 0).
  { apply Z.bits_inj'. intros n Hn. rewrite Z.land_spec, Z.bits_0.
    destruct (Z.lt_ge_cases n 4); [rewrite Z.shiftl_spec_low; [done|lia]|].
    replace (Z.testbit d n) with false; [apply andb_false_r|]. symmetry. apply Z.testbit_false; [done|].
    rewrite Z.div_small; [done|].
    split; [lia|]. apply Z.lt_le_trans with 16; [lia|]. change 16 with (2 ^ 4). apply Z.pow_le_mono_r; lia. }
  rewrite E, Z.shiftl_mul_pow2 in H by lia. rewrite Z.shiftl_mul_pow2 by lia. change (2 ^ 4) with 16 in *. lia.
Qed.

Lemma hex_value_range h v : hex_value h = Some v -> 0 <= v < 16.
Proof.
  unfold hex_value. intros H.
  destruct ((48 <=? code h) && _) eqn:E1; [injection H as <-; to_prop; lia|].
  destruct ((97 <=? code h) && _) eqn:E2; [injection H as <-; to_prop; lia|].
  destruct ((65 <=? code h) && _) eqn:E3; [injection H as <-; to_prop; lia|done].
Qed.

Definition hex_text (t : string) (v : Z) : Prop :=
  exists h1 h2 h3 h4 v1 v2 v3 v4,
    t = String h1 (String h2 (String h3 (String h4 ""))) /\ hex_value h1 = Some v1 /\ hex_value h2 = Some v2 /\
    hex_value h3 = Some v3 /\ hex_value h4 = Some v4 /\ v = 4096 * v1 + 256 * v2 + 16 * v3 + v4.

(** One pass of the digit loop. *)
Lemma hex_loop_step n value c :
  match hex_loop (S n) value c with
  | Ok (v, c') => exists h d, reads (String h "") c (next c) /\ hex_value h = Some d /\
                    hex_loop n (16 * value + d) (next c) = Ok (v, c')
  | Throw m => located c m \/ exists h, reads (String h "") c (next c) /\
                 exists d, hex_loop n (16 * value + d) (next c) = Throw m
  end.
Proof.
  cbn [hex_loop]. destruct (rest_ c) as [|h s] eqn:E; [left; apply located_here|].
  pose proof (reads_next _ _ _ E) as Hr. destruct (hex_value h) as [d|] eqn:Eh.
  - rewrite lor_digit by by eapply hex_value_range. destruct (hex_loop n _ _) as [[v c']|m] eqn:El; [eauto|].
    right. exists h. split; [done|]. by exists d.
  - left. eapply located_reads; [exact Hr|apply located_here].
Qed.

Lemma hex_loop_error n value c m : hex_loop n value c = Throw m -> located c m.
Proof.
  revert value c. induction n as [|n IH]; intros value c; [done|]. intros E.
  pose proof (hex_loop_step n value c) as H. rewrite E in H. destruct H as [H|(h & Hr & d & H)]; [done|].
  eapply located_reads; [exact Hr|eauto].
Qed.

Lemma hex_loop_sound c : outcome hex_text c (hex_loop 4 0 c).
Proof.
  destruct (hex_loop 4 0 c) as [[v c']|m] eqn:E; [|by apply hex_loop_error in E]. cbn.
  pose proof (hex_loop_step 3 0 c) as H. rewrite E in H. clear E. destruct H as (h1 & v1 & R1 & E1 & H).
  pose proof (hex_loop_step 2 (16 * 0 + v1) (next c)) as H'. rewrite H in H'. clear H.
  destruct H' as (h2 & v2 & R2 & E2 & H).
  pose proof (hex_loop_step 1 (16 * (16 * 0 + v1) + v2) (next (next c))) as H'. rewrite H in H'. clear H.
  destruct H' as (h3 & v3 & R3 & E3 & H).
  pose proof (hex_loop_step 0 (16 * (16 * (16 * 0 + v1) + v2) + v3) (next (next (next c)))) as H'.
  rewrite H in H'. clear H. destruct H' as (h4 & v4 & R4 & E4 & H). cbn in H. injection H as <- <-.
  exists (String h1 (String h2 (String h3 (String h4 "")))). split.
  - exact (reads_app _ _ _ _ _ R1 (reads_app _ _ _ _ _ R2 (reads_app _ _ _ _ _ R3 R4))).
  - exists h1, h2, h3, h4, v1, v2, v3, v4. split_and!; [done..|lia].
Qed.

Lemma hex_loop_complete t v c c' : hex_text t v -> reads t c c' -> hex_loop 4 0 c = Ok (v, c').
Proof.
  intros (h1 & h2 & h3 & h4 & v1 & v2 & v3 & v4 & -> & E1 & E2 & E3 & E4 & ->) Hr.
  apply reads_cons in Hr as [R1 Hr]. cbn [String.append] in *.
  apply reads_cons in Hr as [R2 Hr]. apply reads_cons in Hr as [R3 Hr]. apply reads_cons in Hr as [R4 Hr].
  cbn [hex_loop]. rewrite R1, E1, R2, E2, R3, E3, R4, E4.
  rewrite (lor_digit _ v1), (lor_digit _ v2), (lor_digit _ v3), (lor_digit _ v4) by by eapply hex_value_range.
  f_equal. f_equal; [lia|]. by apply (reads_unique "" (next (next (next (next c))))); [apply reads_nil|].
Qed.

Definition unicode_text (t s : string) : Prop :=
  exists v, hex_text t v /\ ~ (55296 <= v <= 57343) /\ s = utf8_of v.

Lemma unicode_sound out c :
  outcome (fun t s => exists s', s = out +:+ s' /\ unicode_text t s') c (parse_unicode_escape out c).
Proof.
  unfold parse_unicode_escape. destruct (_ <? 4)%nat; [apply located_here|].
  pose proof (hex_loop_sound c) as H. destruct (hex_loop 4 0 c) as [[v c']|m]; [|done]. cbn in *.
  destruct H as (t & Hr & Ht).
  destruct ((55296 <=? v) && (v <=? 57343)) eqn:E; [eapply located_reads; [exact Hr|apply located_here]|].
  exists t. split; [done|]. exists (utf8_of v). split; [done|]. exists v. split_and!; [done| |done].
  apply andb_false_iff in E as [E|E]; to_prop; lia.
Qed.

Lemma unicode_complete out t s c c' :
  unicode_text t s -> reads t c c' -> parse_unicode_escape out c = Ok (out +:+ s, c').
Proof.
  intros (v & Ht & Hv & ->) Hr. unfold parse_unicode_escape.
  assert (Hl : String.length t = 4%nat) by (by destruct Ht as (?&?&?&?&?&?&?&?&->&_)).
  rewrite (proj2 (Nat.ltb_ge _ _)) by (rewrite (reads_length _ _ _ Hr); lia).
  rewrite (hex_loop_complete t v c c') by done. cbn.
  destruct ((55296 <=? v) && _) eqn:E; [to_prop; lia|done].
Qed.

Lemma string_loop_sound fuel out c :
  (String.length (rest_ c) < fuel)%nat ->
  outcome (fun t s => exists b s', t = b +:+ quote /\ s = out +:+ s' /\ json_chars b s') c (string_loop fuel out c).
Proof.
  revert out c. induction fuel as [|fuel IH]; intros out c Hf; [lia|]. cbn [string_loop].
  destruct (rest_ c) as [|ch s] eqn:E; [apply located_here|].
  pose proof (reads_next _ _ _ E) as Hr. pose proof (reads_length _ _ _ Hr) as L. rewrite E in L. cbn in L, Hf.
  (* the rest of the loop, after a text [pre] that stands for [add] *)
  assert (K : forall pre add c1, reads (String ch pre) c c1 ->
    (forall b s', json_chars b s' -> json_chars (String ch (pre +:+ b)) (add +:+ s')) ->
    outcome (fun t s => exists b s', t = b +:+ quote /\ s = out +:+ s' /\ json_chars b s') c
      (string_loop fuel (out +:+ add) c1)).
  { intros pre add c1 H1 Hadd. pose proof (reads_length _ _ _ H1) as L1. rewrite E in L1. cbn in L1.
    specialize (IH (out +:+ add) c1 ltac:(lia)).
    destruct (string_loop fuel _ c1) as [[r c2]|m]; cbn in *; [|by eapply located_reads].
    destruct IH as (t & H2 & b & s' & -> & -> & Hb). exists (String ch pre +:+ (b +:+ quote)).
    split; [by eapply reads_app|]. exists (String ch (pre +:+ b)), (add +:+ s').
    split_and!; [cbn; by rewrite string_app_assoc|by rewrite string_app_assoc|by apply Hadd]. }
  destruct (is_char 34 ch) eqn:E34.
  { exists quote. split; [by rewrite (is_char_eq _ _ E34) in Hr|]. exists "", "".
    split_and!; [done|by rewrite string_app_nil_r|constructor]. }
  apply Z.eqb_neq in E34. destruct (code ch <? 32) eqn:E32; [eapply located_reads; [exact Hr|apply located_here]|].
  to_prop. destruct (is_char 92 ch) eqn:E92; cbn [negb].
  2: { apply (K "" (String ch "")); [done|]. apply Z.eqb_neq in E92. intros b s' Hb. by constructor. }
  apply Z.eqb_eq in E92. destruct (rest_ (next c)) as [|esc s1] eqn:E1; [eapply located_reads; [exact Hr|apply located_here]|].
  pose proof (reads_next _ _ _ E1) as Hr1. pose proof (reads_app _ _ _ _ _ Hr Hr1) as Hr2. cbn in Hr2.
  destruct (simple_escape esc) as [z|] eqn:Es.
  { apply (K (String esc "") (String (char_of z) "")); [done|]. intros b s' Hb. by apply chars_escape. }
  destruct (is_char 117 esc) eqn:Eu; [|eapply located_reads; [exact Hr2|apply located_here]].
  pose proof (unicode_sound out (next (next c))) as Hu.
  destruct (parse_unicode_escape out _) as [[out' c1]|m]; cbn in Hu |- *; [|by eapply located_reads].
  destruct Hu as (t & Ht & s' & -> & v & Hv & Hns & ->).
  apply (K (String esc t) (utf8_of v)); [exact (reads_app _ _ _ _ _ Hr2 Ht)|].
  destruct Hv as (h1 & h2 & h3 & h4 & v1 & v2 & v3 & v4 & -> & A1 & A2 & A3 & A4 & ->).
  intros b s'' Hb. apply is_char_code in Eu. by apply chars_unicode.
Qed.

Lemma string_loop_complete b s :
  json_chars b s -> forall fuel out c c', (String.length (rest_ c) < fuel)%nat ->
  reads (b +:+ quote) c c' -> string_loop fuel out c = Ok (out +:+ s, c').
Proof.
  induction 1 as [|ch t s H1 H2 H3 Hc IH|bs e z t s Hbs He Hc IH|bs u h1 h2 h3 h4 v1 v2 v3 v4 t s Hbs Hu A1 A2 A3 A4 Hv Hc IH];
    intros [|fuel] out c c' Hf Hr; try lia; pose proof (reads_length _ _ _ Hr) as L;
    cbn [String.append] in Hr; apply reads_cons in Hr as [E Hr]; cbn [string_loop]; rewrite E.
  - rewrite (proj2 (is_char_code 34 _)) by done. rewrite string_app_nil_r. f_equal. f_equal.
    by apply (reads_unique "" (next c)); [apply reads_nil|].
  - rewrite (is_char_neq 34 ch) by done.
    rewrite (proj2 (Z.ltb_ge (code ch) 32)) by done.
    rewrite (is_char_neq 92 ch) by done. cbn [negb].
    rewrite (IH fuel _ _ c'); [by rewrite string_app_assoc| |exact Hr].
    pose proof (reads_length _ _ _ Hr). cbn in L. rewrite E in *. cbn in *. lia.
  - rewrite (is_char_neq 34 bs) by lia.
    rewrite (proj2 (Z.ltb_ge (code bs) 32)) by lia. rewrite (proj2 (is_char_code 92 bs) Hbs). cbn [negb].
    pose proof (reads_length _ _ _ Hr) as L1. apply reads_cons in Hr as [E1 Hr]. rewrite E1, He.
    rewrite (IH fuel _ _ c'); [by rewrite string_app_assoc| |exact Hr].
    pose proof (reads_length _ _ _ Hr). rewrite E in *. cbn in *. lia.
  - rewrite (is_char_neq 34 bs) by lia.
    rewrite (proj2 (Z.ltb_ge (code bs) 32)) by lia. rewrite (proj2 (is_char_code 92 bs) Hbs). cbn [negb].
    pose proof (reads_length _ _ _ Hr) as L1. apply reads_cons in Hr as [E1 Hr]. rewrite E1.
    replace (simple_escape u) with (@None Z) by (unfold simple_escape, is_char; by rewrite Hu).
    rewrite (proj2 (is_char_code 117 u) Hu).
    set (h := String h1 (String h2 (String h3 (String h4 "")))).
    change (reads (h +:+ (t +:+ quote)) (next (next c)) c') in Hr. apply reads_split in Hr as (c1 & Hh & Hr).
    rewrite (unicode_complete out h (utf8_of (4096 * v1 + 256 * v2 + 16 * v3 + v4)) (next (next c)) c1); [| |done].
    2: { exists (4096 * v1 + 256 * v2 + 16 * v3 + v4). split_and!; [|done|done]. by eexists h1, h2, h3, h4, v1, v2, v3, v4. }
    cbn [rbind]. rewrite (IH fuel _ _ c'); [by rewrite string_app_assoc| |exact Hr].
    pose proof (reads_length _ _ _ Hr). rewrite E in *. cbn in *. lia.
Qed.

Definition string_text (t s : string) : Prop := exists b, t = quote +:+ (b +:+ quote) /\ json_chars b s.

Lemma parse_string_sound c : outcome string_text c (parse_string c).
Proof.
  unfold parse_string. destruct (sees (is_char 34) c) eqn:E; [|apply located_here]. cbn [negb].
  apply sees_inv in E as (ch & s & E & ->%is_char_eq). pose proof (reads_next _ _ _ E) as Hr.
  pose proof (string_loop_sound (fuel_of (next c)) "" (next c) ltac:(unfold fuel_of; lia)) as H.
  destruct (string_loop _ _ _) as [[r c']|m]; cbn in *; [|by eapply located_reads].
  destruct H as (t & Ht & b & s' & -> & -> & Hb). exists (quote +:+ (b +:+ quote)).
  split; [by eapply reads_app|]. by exists b.
Qed.

Lemma parse_string_complete t s c c' : string_text t s -> reads t c c' -> parse_string c = Ok (s, c').
Proof.
  intros (b & -> & Hb) Hr. unfold parse_string. rewrite (sees_cons _ _ _ _ _ Hr). cbn [negb].
  change (negb (is_char 34 (char_of 34))) with false. cbn iota.
  apply reads_cons in Hr as [_ Hr]. by rewrite (string_loop_complete b s Hb _ "" _ c'); [|unfold fuel_of; lia|].
Qed.

(** ** Numbers *)

Definition head_is (p : ascii -> bool) (s : string) : bool :=
  match s with String ch _ => p ch | EmptyString => false end.

Lemma span_all p s rest :
  string_all p s = true -> head_is p rest = false ->
  take_while p (s +:+ rest) = s /\ drop_while p (s +:+ rest) = rest.
Proof.
  intros Hs Hr. induction s as [|ch s IH]; cbn [String.append string_all take_while drop_while] in *.
  - destruct rest as [|d rest]; [done|]. cbn in *. by rewrite Hr.
  - apply andb_true_iff in Hs as [-> Hs]. destruct (IH Hs) as [-> ->]. done.
Qed.

Lemma digits1_head d rest : digits1 d -> head_is isdigit (d +:+ rest) = true.
Proof. intros [Hd Hne]. destruct d as [|ch d]; [done|]. cbn in *. by apply andb_true_iff in Hd as [-> _]. Qed.

Lemma digit_range ch : isdigit ch = true -> 48 <= code ch <= 57.
Proof. unfold isdigit. intros. to_prop. lia. Qed.

(** What can start a fraction, an exponent, and what stops a number. *)
Lemma fraction_head t frac rest p :
  fraction_text t frac -> p (char_of 46) = false -> head_is p rest = false -> head_is p (t +:+ rest) = false.
Proof. intros [[-> _]|[-> _]]; done. Qed.

Lemma exponent_head t ex rest p :
  exponent_text t ex -> p (char_of 101) = false -> p (char_of 69) = false -> head_is p rest = false ->
  head_is p (t +:+ rest) = false.
Proof. intros [[-> _]|(e & sg & d & neg & -> & [-> | ->] & _)]; done. Qed.

Lemma strtod_exponent_text t ex : exponent_text t ex -> strtod_exponent t = (ex, "").
Proof.
  intros [[-> ->]|(e & sg & d & neg & -> & He & Hsg & Hd & ->)]; [done|].
  assert (D : take_while isdigit d = d /\ drop_while isdigit d = "").
  { rewrite <- (string_app_nil_r d) at 1 3. apply span_all; [apply Hd|done]. }
  assert (Hn : bool_decide (d = "") = false) by (apply bool_decide_eq_false, Hd).
  destruct D as [D1 D2].
  destruct He as [-> | ->], Hsg as [[-> ->]|[[-> | ->] ->]]; cbn [String.append strtod_exponent];
    match goal with |- context [is_char 101 ?c || is_char 69 ?c] =>
      replace (is_char 101 c || is_char 69 c) with true by done end; cbn iota beta;
    try (match goal with |- context [is_char 45 ?c] => change (is_char 45 c) with true end; cbn iota beta zeta; by rewrite D1, Hn, D2);
    try (match goal with |- context [is_char 45 ?c] => change (is_char 45 c) with false end;
         match goal with |- context [is_char 43 ?c] => change (is_char 43 c) with true end; cbn iota beta zeta; by rewrite D1, Hn, D2).
  all: destruct d as [|ch d]; [by destruct Hd|].
  all: assert (R : 48 <= code ch <= 57) by (apply digit_range; destruct Hd as [Hd _]; cbn in Hd; by apply andb_true_iff in Hd as [? _]).
  all: rewrite (is_char_neq 45 ch), (is_char_neq 43 ch) by lia; by rewrite D1, Hn, D2.
Qed.

Lemma strtod_fraction_text t frac etext ex :
  fraction_text t frac -> exponent_text etext ex -> strtod_fraction (t +:+ etext) = (frac, etext).
Proof.
  intros Ht He.
  assert (Hd : head_is isdigit etext = false).
  { rewrite <- (string_app_nil_r etext). by eapply exponent_head. }
  destruct Ht as [[-> ->]|[-> Hf]].
  - cbn. unfold strtod_fraction. destruct etext as [|ch etext]; [done|].
    assert (H : head_is (is_char 46) (String ch etext +:+ "") = false) by by eapply exponent_head.
    cbn in H. by rewrite H.
  - cbn [String.append strtod_fraction]. change (is_char 46 _) with true. cbn iota.
    destruct (span_all isdigit frac etext) as [-> ->]; [apply Hf|done|done].
Qed.

Lemma integer_digits t : integer_text t -> digits1 t.
Proof. intros [-> |[H _]]; [by split|done]. Qed.

Lemma strtod_text (negative : bool) int fraction frac etext ex :
  integer_text int -> fraction_text fraction frac -> exponent_text etext ex ->
  strtod ((if negative then "-" else "") +:+ (int +:+ (fraction +:+ etext))) =
  (Some (decimal_value negative (digits_value 0 (int +:+ frac)) (ex - Z.of_nat (String.length frac))), "").
Proof.
  intros Hi%integer_digits Hf He. unfold strtod.
  set (body := int +:+ (fraction +:+ etext)).
  assert (E : (match (if negative then "-" else "") +:+ body with
               | String c s => if is_char 45 c then (true, s) else if is_char 43 c then (false, s)
                               else (false, (if negative then "-" else "") +:+ body)
               | EmptyString => (false, (if negative then "-" else "") +:+ body) end) = (negative, body)).
  { destruct negative; [done|]. cbn [String.append]. subst body.
    pose proof (digits1_head int (fraction +:+ etext) Hi) as Hd.
    destruct (int +:+ (fraction +:+ etext)) as [|ch s]; [done|]. apply digit_range in Hd.
    by rewrite (is_char_neq 45 ch), (is_char_neq 43 ch) by lia. }
  rewrite E. subst body.
  destruct (span_all isdigit int (fraction +:+ etext)) as [-> ->]; [apply Hi| |].
  { eapply fraction_head; [done..|]. rewrite <- (string_app_nil_r etext). by eapply exponent_head. }
  rewrite (strtod_fraction_text _ _ _ _ Hf He).
  rewrite bool_decide_eq_false_2 by (destruct Hi as [_ Hi]; by destruct int).
  by rewrite (strtod_exponent_text _ _ He).
Qed.

(** A parser that only moves the cursor. *)
Definition moves (G : string -> Prop) (c : cursor) (r : result cursor) : Prop :=
  match r with Ok c' => exists t, reads t c c' /\ G t | Throw m => located c m end.

Lemma skip_digits c : sees isdigit c = true ->
  exists t, reads t c (skip_while isdigit c) /\ digits1 t.
Proof.
  intros Hs. destruct (proj1 (skip_while_iff isdigit c _) eq_refl) as (t & Hr & Ht & Hn).
  exists t. split; [done|]. split; [done|]. intros ->.
  rewrite (reads_unique "" c _ _ Hr (reads_nil c)) in Hn. congruence.
Qed.

Lemma skip_digits_found t c c' :
  digits1 t -> reads t c c' -> sees isdigit c' = false ->
  sees isdigit c = true /\ skip_while isdigit c = c'.
Proof.
  intros Ht Hr Hn. split; [|apply skip_while_iff; destruct Ht; eauto].
  destruct Hr as [E _]. unfold sees. pose proof (digits1_head t (rest_ c') Ht) as H. by rewrite <- E in H.
Qed.

Lemma starts_zero ch s : is_char 48 ch = false -> starts_with "0" (String ch s) = false.
Proof.
  intros H. destruct (starts_with "0" (String ch s)) eqn:E; [|done].
  apply starts_with_spec in E as [rest E]. injection E as -> _. done.
Qed.

Lemma number_integer_sound c :
  moves (fun t => exists negative int, t = (if negative : bool then "-" else "") +:+ int /\ integer_text int) c
    (number_integer c).
Proof.
  unfold number_integer.
  assert (K : exists negative : bool, reads (if negative then "-" else "") c
                (if sees (is_char 45) c then next c else c)).
  { destruct (sees (is_char 45) c) eqn:E; [|exists false; apply reads_nil]. exists true.
    apply sees_inv in E as (ch & s & E & ->%is_char_eq). by eapply reads_next. }
  destruct K as [negative Hneg]. set (c1 := if sees (is_char 45) c then next c else c) in *. cbn zeta.
  destruct (rest_ c1) as [|ch s] eqn:E; [eapply located_reads; [exact Hneg|apply located_here]|].
  destruct (is_char 48 ch) eqn:E0.
  { pose proof (reads_next _ _ _ E) as Hr. rewrite (is_char_eq _ _ E0) in Hr.
    eexists. split; [exact (reads_app _ _ _ _ _ Hneg Hr)|]. exists negative, "0". split; [done|by left]. }
  destruct (isdigit ch) eqn:Ed; cbn [negb]; [|eapply located_reads; [exact Hneg|apply located_here]].
  destruct (skip_digits c1) as (t & Hr & Ht); [unfold sees; by rewrite E|].
  eexists. split; [exact (reads_app _ _ _ _ _ Hneg Hr)|]. exists negative, t. split; [done|]. right.
  split; [done|]. destruct Hr as [Eq _]. destruct t as [|ch' t]; [by destruct Ht|].
  rewrite E in Eq. injection Eq as <- _. by apply starts_zero.
Qed.

Lemma number_integer_complete (negative : bool) int c c' :
  integer_text int -> reads ((if negative then "-" else "") +:+ int) c c' -> sees isdigit c' = false ->
  number_integer c = Ok c'.
Proof.
  intros Hi Hr Hn. unfold number_integer.
  assert (K : reads int (if sees (is_char 45) c then next c else c) c').
  { destruct negative.
    - rewrite (sees_cons _ _ _ _ _ Hr). by apply reads_cons in Hr as [_ Hr].
    - cbn in Hr. pose proof (integer_digits _ Hi) as Hd. destruct int as [|ch int]; [by destruct Hd|].
      rewrite (sees_cons _ _ _ _ _ Hr). destruct Hd as [Hd _]. cbn in Hd. apply andb_true_iff in Hd as [Hd%digit_range _].
      by rewrite (is_char_neq 45 ch) by lia. }
  set (c1 := if sees (is_char 45) c then next c else c) in *. cbn zeta. clear Hr.
  destruct Hi as [-> |[Hd H0]].
  - pose proof K as [E K']%reads_cons. rewrite E. change (is_char 48 _) with true. cbn iota.
    f_equal. by apply (reads_unique "" (next c1)); [apply reads_nil|].
  - destruct (skip_digits_found int c1 c') as [_ Hsk]; [done..|].
    destruct int as [|ch int]; [by destruct Hd|]. pose proof K as [E _]%reads_cons. rewrite E.
    assert (is_char 48 ch = false) as ->.
    { destruct (is_char 48 ch) eqn:E48; [|done]. apply is_char_eq in E48 as ->.
      by rewrite (starts_with_app "0" int : starts_with "0" (String (char_of 48) int) = true) in H0. }
    destruct Hd as [Hd _]. cbn in Hd. apply andb_true_iff in Hd as [-> _]. cbn [negb]. by rewrite Hsk.
Qed.

Lemma number_fraction_sound c : moves (fun t => exists frac, fraction_text t frac) c (number_fraction c).
Proof.
  unfold number_fraction. destruct (sees (is_char 46) c) eqn:E; [|exists ""; split; [apply reads_nil|exists ""; by left]].
  apply sees_inv in E as (ch & s & E & ->%is_char_eq). pose proof (reads_next _ _ _ E) as Hr.
  destruct (sees isdigit (next c)) eqn:Ed; cbn [negb]; [|eapply located_reads; [exact Hr|apply located_here]].
  destruct (skip_digits _ Ed) as (t & Ht & Hd). eexists. split; [exact (reads_app _ _ _ _ _ Hr Ht)|].
  exists t. by right.
Qed.

Lemma number_fraction_complete t frac c c' :
  fraction_text t frac -> reads t c c' -> sees isdigit c' = false -> (t = "" -> sees (is_char 46) c' = false) ->
  number_fraction c = Ok c'.
Proof.
  intros [[-> ->]|[-> Hd]] Hr Hn Hdot; unfold number_fraction.
  - rewrite (reads_unique "" c c c' (reads_nil c) Hr). by rewrite Hdot.
  - rewrite (sees_cons _ _ _ _ _ Hr). change (is_char 46 _) with true. cbn iota.
    apply reads_cons in Hr as [_ Hr]. by destruct (skip_digits_found frac (next c) c') as [-> ->].
Qed.

Lemma number_exponent_sound c : moves (fun t => exists ex, exponent_text t ex) c (number_exponent c).
Proof.
  unfold number_exponent. destruct (sees _ c) eqn:E; [|exists ""; split; [apply reads_nil|exists 0; by left]].
  apply sees_inv in E as (ch & s & E & He). pose proof (reads_next _ _ _ E) as Hr.
  assert (K : exists sg neg, sign_text sg neg /\ reads sg (next c)
    (if sees (fun ch => is_char 43 ch || is_char 45 ch) (next c) then next (next c) else next c)).
  { destruct (sees _ (next c)) eqn:Es; [|exists "", false; split; [by right; split; [left|]|apply reads_nil]].
    apply sees_inv in Es as (d & s' & Ed & Hd). pose proof (reads_next _ _ _ Ed) as Hrd.
    apply orb_true_iff in Hd as [Hd|Hd]; apply is_char_eq in Hd as ->.
    - exists "+", false. split; [by right; split; [right|]|done].
    - exists "-", true. split; [by left|done]. }
  destruct K as (sg & neg & Hsg & Hrs). set (c2 := if sees _ (next c) then next (next c) else next c) in *. cbn zeta.
  pose proof (reads_app _ _ _ _ _ Hr Hrs) as H2.
  destruct (sees isdigit c2) eqn:Ed; cbn [negb]; [|eapply located_reads; [exact H2|apply located_here]].
  destruct (skip_digits _ Ed) as (t & Ht & Hd). eexists. split; [exact (reads_app _ _ _ _ _ H2 Ht)|].
  eexists. right. exists (String ch ""), sg, t, neg. split_and!; [by rewrite string_app_assoc| |done..].
  apply orb_true_iff in He as [He|He]; apply is_char_eq in He as ->; [by left|by right].
Qed.

Lemma number_exponent_complete t ex c c' :
  exponent_text t ex -> reads t c c' -> sees isdigit c' = false ->
  (t = "" -> sees (fun ch => is_char 101 ch || is_char 69 ch) c' = false) ->
  number_exponent c = Ok c'.
Proof.
  intros [[-> ->]|(e & sg & d & neg & -> & He & Hsg & Hd & ->)] Hr Hn Hne; unfold number_exponent.
  { rewrite (reads_unique "" c c c' (reads_nil c) Hr). by rewrite Hne. }
  assert (Hse : sees (fun ch => is_char 101 ch || is_char 69 ch) c = true /\ reads (sg +:+ d) (next c) c').
  { destruct He as [-> | ->]; rewrite (sees_cons _ _ _ _ _ Hr); by apply reads_cons in Hr as [_ Hr]. }
  destruct Hse as [-> Hr']. cbn zeta.
  assert (K : reads d (if sees (fun ch => is_char 43 ch || is_char 45 ch) (next c) then next (next c) else next c) c').
  { destruct Hsg as [[-> ->]|[[-> | ->] ->]].
    - rewrite (sees_cons _ _ _ _ _ Hr'). by apply reads_cons in Hr' as [_ Hr'].
    - cbn in Hr'. destruct d as [|ch d]; [by destruct Hd|]. rewrite (sees_cons _ _ _ _ _ Hr').
      destruct Hd as [Hd _]. cbn in Hd. apply andb_true_iff in Hd as [Hd%digit_range _].
      by rewrite (is_char_neq 43 ch), (is_char_neq 45 ch) by lia.
    - rewrite (sees_cons _ _ _ _ _ Hr'). by apply reads_cons in Hr' as [_ Hr']. }
  by destruct (skip_digits_found d _ c' Hd K Hn) as [-> ->].
Qed.

(** What may follow a value in a document. *)
Definition delimiter (ch : ascii) : bool := isspace ch || is_char 44 ch || is_char 93 ch || is_char 125 ch.
Definition delimited (c : cursor) : Prop := sees (fun ch => negb (delimiter ch)) c = false.

Lemma delimited_not p c : delimited c -> (forall ch, p ch = true -> delimiter ch = false) -> sees p c = false.
Proof.
  unfold delimited, sees. intros Hd Hp. destruct (rest_ c) as [|ch s]; [done|].
  apply negb_false_iff in Hd. destruct (p ch) eqn:E; [|done]. apply Hp in E. congruence.
Qed.

Lemma delimiter_codes ch : delimiter ch = true ->
  9 <= code ch <= 13 \/ code ch = 32 \/ code ch = 44 \/ code ch = 93 \/ code ch = 125.
Proof.
  unfold delimiter, isspace, is_char. intros H.
  repeat match type of H with _ || _ = true => apply orb_true_iff in H as [H|H] end; to_prop; lia.
Qed.

Lemma not_delimiter ch :
  ~ (9 <= code ch <= 13 \/ code ch = 32 \/ code ch = 44 \/ code ch = 93 \/ code ch = 125) -> delimiter ch = false.
Proof. intros H. destruct (delimiter ch) eqn:E; [|done]. by apply delimiter_codes in E. Qed.

Lemma parse_number_sound c : outcome json_number c (parse_number c).
Proof.
  unfold parse_number. pose proof (number_integer_sound c) as H1.
  destruct (number_integer c) as [c1|m]; [|done]. cbn [rbind]. destruct H1 as (t1 & R1 & neg & int & -> & Hi).
  pose proof (number_fraction_sound c1) as H2. destruct (number_fraction c1) as [c2|m]; [|by eapply located_reads].
  cbn [rbind]. destruct H2 as (t2 & R2 & frac & Hf). pose proof (reads_app _ _ _ _ _ R1 R2) as R12.
  pose proof (number_exponent_sound c2) as H3. destruct (number_exponent c2) as [c3|m]; [|by eapply located_reads].
  cbn [rbind]. destruct H3 as (t3 & R3 & ex & He). pose proof (reads_app _ _ _ _ _ R12 R3) as R.
  rewrite (text_between_reads _ _ _ R). rewrite !string_app_assoc in *.
  rewrite (strtod_text neg int t2 frac t3 ex Hi Hf He).
  destruct (isfinite _) eqn:Efin; [|eapply located_reads; [exact R|apply located_here]].
  eexists. split; [exact R|]. by exists neg, int, t2, frac, t3, ex.
Qed.

Lemma parse_number_complete t d c c' :
  json_number t d -> reads t c c' -> delimited c' -> parse_number c = Ok (d, c').
Proof.
  intros (neg & int & fr & frac & et & ex & -> & Hi & Hf & He & -> & Hfin) R Hd.
  assert (Ndig : sees isdigit c' = false).
  { apply (delimited_not _ _ Hd). intros ch H%digit_range. apply not_delimiter. lia. }
  assert (Ndot : sees (is_char 46) c' = false).
  { apply (delimited_not _ _ Hd). intros ch H%is_char_code. apply not_delimiter. lia. }
  assert (Nexp : sees (fun ch => is_char 101 ch || is_char 69 ch) c' = false).
  { apply (delimited_not _ _ Hd). intros ch H. apply not_delimiter.
    apply orb_true_iff in H as [H|H]; apply is_char_code in H; lia. }
  rewrite <- (string_app_assoc _ int) in R. pose proof R as (c1 & R1 & R')%reads_split.
  apply reads_split in R' as (c2 & R2 & R3).
  assert (S2 : forall p, p (char_of 101) = false -> p (char_of 69) = false -> sees p c' = false -> sees p c2 = false).
  { intros p P1 P2 P3. destruct R3 as [E _]. unfold sees. rewrite E. by eapply exponent_head. }
  assert (S1 : sees isdigit c1 = false).
  { destruct R2 as [E _]. unfold sees. rewrite E. eapply fraction_head; [done|done|]. by apply S2. }
  unfold parse_number. rewrite (number_integer_complete neg int c c1 Hi R1 S1). cbn [rbind].
  rewrite (number_fraction_complete fr frac c1 c2 Hf R2) by (done || by intros; apply S2). cbn [rbind].
  rewrite (number_exponent_complete et ex c2 c' He R3 Ndig) by done. cbn [rbind].
  rewrite (text_between_reads _ _ _ R). rewrite string_app_assoc, (strtod_text neg int fr frac et ex Hi Hf He).
  by rewrite Hfin.
Qed.

(** ** Literals *)

Lemma advance_reads t c s : rest_ c = t +:+ s -> reads t c (advance (String.length t) c).
Proof.
  revert c. induction t as [|ch t IH]; intros c E; cbn in *; [apply reads_nil|].
  apply (reads_app (String ch "") t c (next c)); [by eapply reads_next|]. apply IH.
  destruct c as [p r]. cbn in *. by subst r.
Qed.

Lemma parse_literal_sound l c : moves (fun t => t = l) c (parse_literal l c).
Proof.
  unfold parse_literal. case_bool_decide as E; [|apply located_here].
  destruct (substr_prefix (rest_ c) (String.length l)) as [s Hs]. rewrite E in Hs.
  exists l. split; [by eapply advance_reads|done].
Qed.

Lemma parse_literal_complete l c c' : reads l c c' -> parse_literal l c = Ok c'.
Proof.
  intros R. pose proof R as [E _]. unfold parse_literal. unfold substr. rewrite E, substring_0_app.
  rewrite bool_decide_eq_true_2 by done. f_equal. eapply reads_unique; [|exact R]. by eapply advance_reads.
Qed.

(** ** Values *)

Lemma ws_app a b : ws a -> ws b -> ws (a +:+ b).
Proof. unfold ws. rewrite string_all_app. by intros -> ->. Qed.

Lemma keys_sorted_nodup {V} (m : list (string * V)) : keys_sorted m -> NoDup (map fst m).
Proof.
  unfold keys_sorted. induction 1 as [|k l Hs IH Hall]; constructor; [|done].
  intros Hin. rewrite Forall_forall in Hall. by apply (string_lt_irrefl k), Hall.
Qed.

Definition spaced (t : string) (v : JsonValue) : Prop :=
  exists w t', t = w +:+ t' /\ ws w /\ json_value t' v.

Section sound.
Variables (vp : cursor -> result (JsonValue * cursor)) (bound : nat).
Hypothesis Hvp : forall c, (String.length (rest_ c) < bound)%nat -> outcome spaced c (vp c).

Lemma element_loop_sound fuel acc c :
  (String.length (rest_ c) < fuel)%nat -> (String.length (rest_ c) < bound)%nat ->
  outcome (fun t v => exists t' vs, t = t' +:+ "]" /\ json_elements t' vs /\ v = JsonArray (acc ++ vs)) c
    (element_loop vp fuel acc c).
Proof.
  revert acc c. induction fuel as [|fuel IH]; intros acc c Hf Hb; [lia|]. cbn [element_loop].
  pose proof (Hvp c Hb) as Hv. destruct (vp c) as [[v c1]|m]; [|done]. cbn [rbind].
  destruct Hv as (? & R1 & w & t & -> & Hw & Ht).
  destruct (consume 93 c1) as [closed c2] eqn:Ec. apply consume_spec in Ec as (w' & Hw' & Hc).
  destruct closed.
  - exists ((w +:+ (t +:+ w')) +:+ "]"). split.
    { rewrite <- (string_app_assoc w), string_app_assoc. by eapply reads_app. }
    exists (w +:+ (t +:+ w')), [v]. split_and!; [done|by constructor|done].
  - destruct Hc as [R2 _]. pose proof (reads_app _ _ _ _ _ R1 R2) as R12.
    pose proof (expect_spec 44 c2) as He. destruct (expect 44 c2) as [c3|m]; [|by eapply located_reads]. cbn [rbind].
    destruct He as (w2 & Hw2 & R3). pose proof (reads_app _ _ _ _ _ R12 R3) as R.
    pose proof (reads_length _ _ _ R) as L. rewrite !string_length_app in L. cbn [String.length] in L.
    specialize (IH (acc ++ [v]) c3 ltac:(lia) ltac:(lia)).
    destruct (element_loop vp fuel _ c3) as [[r c4]|m]; [|by eapply located_reads].
    destruct IH as (? & R4 & t' & vs & -> & Ht' & ->). eexists. split; [exact (reads_app _ _ _ _ _ R R4)|].
    exists (w +:+ (t +:+ ((w' +:+ w2) +:+ ("," +:+ t')))), (v :: vs).
    split_and!; [by rewrite !string_app_assoc| |by rewrite <- app_assoc].
    constructor; auto using ws_app.
Qed.

Lemma member_loop_sound fuel acc c :
  (String.length (rest_ c) < fuel)%nat -> (String.length (rest_ c) < bound)%nat -> keys_sorted acc ->
  outcome (fun t v => exists t' ms o, t = t' +:+ "}" /\ json_members t' ms /\ v = JsonObject o /\
                        keys_sorted o /\ o ≡ₚ acc ++ ms) c
    (member_loop vp fuel acc c).
Proof.
  revert acc c. induction fuel as [|fuel IH]; intros acc c Hf Hb Hacc; [lia|]. cbn [member_loop].
  destruct (skip_ws c) as [p s] eqn:Es. apply skip_ws_iff in Es as (w & R0 & Hw & _). set (c0 := Cursor p s) in *.
  destruct (negb _); [eapply located_reads; [exact R0|apply located_here]|].
  pose proof (parse_string_sound c0) as Hk. destruct (parse_string c0) as [[k c1]|m]; [|by eapply located_reads].
  cbn [rbind]. destruct Hk as (? & R1 & kt & -> & Hk). pose proof (reads_app _ _ _ _ _ R0 R1) as R01.
  pose proof (expect_spec 58 c1) as He. destruct (expect 58 c1) as [c2|m]; [|by eapply located_reads]. cbn [rbind].
  destruct He as (w1 & Hw1 & R2). pose proof (reads_app _ _ _ _ _ R01 R2) as R02.
  pose proof (reads_length _ _ _ R02) as L2. rewrite !string_length_app in L2. cbn [String.length] in L2.
  pose proof (Hvp c2 ltac:(lia)) as Hv. destruct (vp c2) as [[v c3]|m]; [|by eapply located_reads]. cbn [rbind].
  destruct Hv as (? & R3 & w2 & t & -> & Hw2 & Ht). pose proof (reads_app _ _ _ _ _ R02 R3) as R03.
  pose proof (map_emplace_spec acc k v Hacc) as Hm.
  destruct (map_emplace acc k v) as [acc'|]; [|eapply located_reads; [exact R03|apply located_here]].
  destruct Hm as (Hacc' & _ & Hperm).
  destruct (consume 125 c3) as [closed c4] eqn:Ec. apply consume_spec in Ec as (w' & Hw' & Hc).
  destruct closed.
  - eexists. split; [exact (reads_app _ _ _ _ _ R03 Hc)|].
    exists (w +:+ (quote +:+ (kt +:+ (quote +:+ (w1 +:+ (":" +:+ (w2 +:+ (t +:+ w')))))))), [(k, v)], acc'.
    split_and!; [by rewrite !string_app_assoc|by constructor|done|done|by rewrite Hperm, Permutation_app_comm].
  - destruct Hc as [R4 _]. pose proof (reads_app _ _ _ _ _ R03 R4) as R04.
    pose proof (expect_spec 44 c4) as He. destruct (expect 44 c4) as [c5|m]; [|by eapply located_reads]. cbn [rbind].
    destruct He as (w3 & Hw3 & R5). pose proof (reads_app _ _ _ _ _ R04 R5) as R.
    pose proof (reads_length _ _ _ R) as L. rewrite !string_length_app in L. cbn [String.length] in L.
    specialize (IH acc' c5 ltac:(lia) ltac:(lia) Hacc').
    destruct (member_loop vp fuel acc' c5) as [[r c6]|m]; [|by eapply located_reads].
    destruct IH as (? & R6 & t' & ms & o & -> & Ht' & -> & Ho & Hpo).
    eexists. split; [exact (reads_app _ _ _ _ _ R R6)|].
    exists (w +:+ (quote +:+ (kt +:+ (quote +:+ (w1 +:+ (":" +:+ (w2 +:+ (t +:+ ((w' +:+ w3) +:+ ("," +:+ t'))))))))) ),
      ((k, v) :: ms), o.
    split_and!; [by rewrite !string_app_assoc| |done|done|].
    + constructor; auto using ws_app.
    + rewrite Hpo, Hperm. cbn. by rewrite Permutation_middle.
Qed.


(** The opening bracket, the white space after it, and the closing one if it follows. *)
Lemma open_bracket_spec a b c :
  match expect a c with
  | Ok c1 => exists w, ws w /\
      let '(closed, c2) := consume b (skip_ws c1) in
      exists w', ws w' /\
        reads (w +:+ (String (char_of a) (w' +:+ if closed then String (char_of b) "" else ""))) c c2
  | Throw m => located c m
  end.
Proof.
  pose proof (expect_spec a c) as H. destruct (expect a c) as [c1|m]; [|done]. destruct H as (w & Hw & R1).
  exists w. split; [done|]. destruct (proj1 (skip_ws_iff c1 _) eq_refl) as (w1 & R2 & Hw1 & _).
  destruct (consume b (skip_ws c1)) as [closed c2] eqn:Ec. apply consume_spec in Ec as (w2 & Hw2 & Hc).
  exists (w1 +:+ w2). split; [by apply ws_app|]. pose proof (reads_app _ _ _ _ _ R1 R2) as R.
  destruct closed; [|destruct Hc as [Hc _]]; pose proof (reads_app _ _ _ _ _ R Hc) as R3; revert R3;
    rewrite !string_app_assoc; cbn [String.append]; by rewrite ?string_app_nil_r.
Qed.

Lemma parse_array_sound c :
  (String.length (rest_ c) <= bound)%nat -> outcome spaced c (parse_array vp c).
Proof.
  intros Hb. unfold parse_array. pose proof (open_bracket_spec 91 93 c) as H.
  destruct (expect 91 c) as [c1|m]; [|done]. cbn [rbind]. destruct H as (w & Hw & H).
  destruct (consume 93 (skip_ws c1)) as [closed c2]. destruct H as (w' & Hw' & R). destruct closed.
  - eexists. split; [exact R|]. exists w, ("[" +:+ (w' +:+ "]")). split_and!; [done..|]. by constructor.
  - rewrite string_app_nil_r in R. pose proof (reads_length _ _ _ R) as L.
    rewrite !string_length_app in L. cbn [String.length] in L.
    pose proof (element_loop_sound (fuel_of c2) [] c2 ltac:(unfold fuel_of; lia) ltac:(lia)) as He.
    destruct (element_loop _ _ _ _) as [[r c3]|m]; [|by eapply located_reads].
    destruct He as (? & R2 & t' & vs & -> & Ht & ->). eexists. split; [exact (reads_app _ _ _ _ _ R R2)|].
    exists w, ("[" +:+ ((w' +:+ t') +:+ "]")). split_and!; [by rewrite !string_app_assoc; cbn; rewrite ?string_app_assoc|done|].
    constructor. destruct Ht; rewrite <- (string_app_assoc w'); constructor; auto using ws_app.
Qed.

Lemma parse_object_sound c :
  (String.length (rest_ c) <= bound)%nat -> outcome spaced c (parse_object vp c).
Proof.
  intros Hb. unfold parse_object. pose proof (open_bracket_spec 123 125 c) as H.
  destruct (expect 123 c) as [c1|m]; [|done]. cbn [rbind]. destruct H as (w & Hw & H).
  destruct (consume 125 (skip_ws c1)) as [closed c2]. destruct H as (w' & Hw' & R). destruct closed.
  - eexists. split; [exact R|]. exists w, ("{" +:+ (w' +:+ "}")). split_and!; [done..|]. by constructor.
  - rewrite string_app_nil_r in R. pose proof (reads_length _ _ _ R) as L.
    rewrite !string_length_app in L. cbn [String.length] in L.
    pose proof (member_loop_sound (fuel_of c2) [] c2 ltac:(unfold fuel_of; lia) ltac:(lia) ltac:(constructor)) as He.
    destruct (member_loop _ _ _ _) as [[r c3]|m]; [|by eapply located_reads].
    destruct He as (? & R2 & t' & ms & o & -> & Ht & -> & Ho & Hp). eexists. split; [exact (reads_app _ _ _ _ _ R R2)|].
    exists w, ("{" +:+ ((w' +:+ t') +:+ "}")). split_and!; [by rewrite !string_app_assoc; cbn; rewrite ?string_app_assoc|done|].
    apply value_object with ms; [|by rewrite <- Hp; apply keys_sorted_nodup|done|done].
    destruct Ht; rewrite <- (string_app_assoc w'); constructor; auto using ws_app.
Qed.

End sound.

Lemma parse_value_sound fuel c :
  (String.length (rest_ c) < fuel)%nat -> outcome spaced c (parse_value fuel c).
Proof.
  revert c. induction fuel as [|fuel IH]; intros c Hf; [lia|]. cbn [parse_value].
  destruct (proj1 (skip_ws_iff c _) eq_refl) as (w & R & Hw & _). pose proof (reads_length _ _ _ R) as L.
  set (c1 := skip_ws c) in *.
  (* a value read from [c1] is a value read from [c] *)
  assert (K : forall r, outcome spaced c1 r -> outcome spaced c r).
  { intros [[v c2]|m] Hr; cbn in *; [|by eapply located_reads]. destruct Hr as (? & R2 & w' & t & -> & Hw' & Ht).
    eexists. split; [exact (reads_app _ _ _ _ _ R R2)|]. exists (w +:+ w'), t.
    split_and!; [by rewrite string_app_assoc|by apply ws_app|done]. }
  assert (K' : forall {A} (G : string -> A -> Prop) (f : A -> JsonValue) (r : result (A * cursor)),
    outcome G c1 r -> (forall t a, G t a -> json_value t (f a)) ->
    outcome spaced c1 (let? (a, c) := r in Ok (f a, c))).
  { intros A G f [[a c2]|m] Hr HG; cbn in *; [|done]. destruct Hr as (t & R2 & Ht). exists t. split; [done|].
    exists "", t. split_and!; [done|done|by apply HG]. }
  assert (K'' : forall (l : string) v, json_value l v ->
    outcome spaced c1 (let? c := parse_literal l c1 in Ok (v, c))).
  { intros l v Hv. pose proof (parse_literal_sound l c1) as Hl. destruct (parse_literal l c1) as [c2|m]; [|done].
    destruct Hl as (t & R2 & ->). exists l. split; [done|]. by exists "", l. }
  apply K. destruct (rest_ c1) as [|ch s] eqn:E; [apply located_here|].
  destruct (is_char 123 ch); [apply (parse_object_sound _ fuel); [done|rewrite E in *; lia]|].
  destruct (is_char 91 ch); [apply (parse_array_sound _ fuel); [done|rewrite E in *; lia]|].
  destruct (is_char 34 ch).
  { apply (K' _ string_text JsonString); [apply parse_string_sound|]. intros t a (b & -> & Hb). by constructor. }
  destruct (is_char 116 ch); [apply K''; constructor|].
  destruct (is_char 102 ch); [apply K''; constructor|].
  destruct (is_char 110 ch); [apply K''; constructor|].
  destruct (_ || _); [|apply located_here].
  apply (K' _ json_number JsonNumber); [apply parse_number_sound|]. by constructor.
Qed.

(** ** Every text of the grammar is read *)

Lemma skip_ws_idemp c : skip_ws (skip_ws c) = skip_ws c.
Proof.
  destruct (proj1 (skip_ws_iff c _) eq_refl) as (w & _ & _ & Hs).
  apply skip_ws_iff. exists "". split_and!; [apply reads_nil|done..].
Qed.

Lemma skip_ws_length c : (String.length (rest_ (skip_ws c)) <= String.length (rest_ c))%nat.
Proof. destruct (proj1 (skip_ws_iff c _) eq_refl) as (w & R & _). rewrite (reads_length _ _ _ R). lia. Qed.

Lemma consume_skip ch c : consume ch (skip_ws c) = consume ch c.
Proof. unfold consume. by rewrite skip_ws_idemp. Qed.

Lemma parse_value_skip fuel c : parse_value fuel (skip_ws c) = parse_value fuel c.
Proof. destruct fuel; [done|]. cbn [parse_value]. by rewrite skip_ws_idemp. Qed.

Lemma element_loop_skip n fuel acc c :
  element_loop (parse_value n) fuel acc (skip_ws c) = element_loop (parse_value n) fuel acc c.
Proof. destruct fuel; [done|]. cbn [element_loop]. by rewrite parse_value_skip. Qed.

Lemma member_loop_skip vp fuel acc c : member_loop vp fuel acc (skip_ws c) = member_loop vp fuel acc c.
Proof. destruct fuel; [done|]. cbn [member_loop]. by rewrite skip_ws_idemp. Qed.

Lemma skip_ws_reads w ch t c c' :
  ws w -> isspace ch = false -> reads (w +:+ String ch t) c c' -> reads (String ch t) (skip_ws c) c'.
Proof.
  intros Hw Hch (c1 & R1 & R2)%reads_split. replace (skip_ws c) with c1; [done|].
  symmetry. apply skip_ws_iff. exists w. split_and!; [done..|]. by rewrite (sees_cons _ _ _ _ _ R2).
Qed.

Lemma value_head t v : json_value t v ->
  exists ch s, t = String ch s /\ isspace ch = false /\ code ch <> 93 /\ code ch <> 125.
Proof.
  intros H. destruct H as [| | |t d Hn| | | | |]; try (by eexists _, _).
  destruct Hn as (neg & int & fr & frac & et & ex & -> & Hi%integer_digits & _).
  destruct neg; [by eexists _, _|]. cbn. destruct int as [|ch int]; [by destruct Hi|].
  destruct Hi as [Hi _]. cbn in Hi. apply andb_true_iff in Hi as [Hi _].
  eexists _, _. split; [done|]. pose proof (digit_range _ Hi).
  split_and!; [by apply isdigit_not_space|lia|lia].
Qed.

Lemma delimited_ws w ch t c c' :
  ws w -> delimiter ch = true -> reads (w +:+ String ch t) c c' -> delimited c.
Proof.
  intros Hw Hch R. unfold delimited. destruct w as [|d w]; cbn in R; rewrite (sees_cons _ _ _ _ _ R).
  - by rewrite Hch.
  - unfold ws in Hw. cbn in Hw. apply andb_true_iff in Hw as [Hw _]. unfold delimiter. by rewrite Hw.
Qed.

(** Reading a comma or a closing bracket after white space. *)
Lemma consume_other ch d w t c c' :
  ws w -> isspace d = false -> code d <> ch -> reads (w +:+ String d t) c c' -> consume ch c = (false, skip_ws c).
Proof.
  intros Hw Hd Hne R. pose proof (skip_ws_reads _ _ _ _ _ Hw Hd R) as R'.
  rewrite <- consume_skip. apply (consume_absent ch "" (skip_ws c)); [done|apply reads_nil|..].
  - by rewrite (sees_cons _ _ _ _ _ R').
  - rewrite (sees_cons _ _ _ _ _ R'). by apply is_char_neq.
Qed.

Lemma reads_comma w t c c' :
  ws w -> reads (w +:+ ("," +:+ t)) c c' ->
  exists c1, expect 44 (skip_ws c) = Ok c1 /\ reads t c1 c' /\ (String.length (rest_ c1) < String.length (rest_ c))%nat.
Proof.
  intros Hw R. pose proof (skip_ws_reads w (char_of 44) t c c' Hw eq_refl R) as R'.
  change (String _ _) with ("," +:+ t) in R'. apply reads_split in R' as (c1 & R1 & R2).
  exists c1. split_and!; [by apply (expect_found 44 "")|done|].
  pose proof (reads_length _ _ _ R1). pose proof (skip_ws_length c). cbn in *. lia.
Qed.

Definition value_complete (t : string) (v : JsonValue) : Prop :=
  forall fuel w c c', (String.length (rest_ (skip_ws c)) < fuel)%nat -> ws w ->
  reads (w +:+ t) c c' -> delimited c' -> parse_value fuel c = Ok (v, c').

Definition elements_complete (t : string) (vs : list JsonValue) : Prop :=
  forall n fuel acc c c', (String.length (rest_ (skip_ws c)) < fuel)%nat -> (String.length (rest_ (skip_ws c)) < n)%nat ->
  reads (t +:+ "]") c c' -> element_loop (parse_value n) fuel acc c = Ok (JsonArray (acc ++ vs), c').

Definition members_complete (t : string) (ms : list (string * JsonValue)) : Prop :=
  forall n fuel acc o c c', (String.length (rest_ (skip_ws c)) < fuel)%nat -> (String.length (rest_ (skip_ws c)) < n)%nat ->
  keys_sorted acc -> keys_sorted o -> o ≡ₚ acc ++ ms ->
  reads (t +:+ "}") c c' -> member_loop (parse_value n) fuel acc c = Ok (JsonObject o, c').

Lemma value_reads_length t v w c c1 :
  json_value t v -> ws w -> reads (w +:+ t) c c1 ->
  (String.length (rest_ c1) < String.length (rest_ (skip_ws c)))%nat.
Proof.
  intros (ch & s & -> & Hs & _)%value_head Hw R. apply skip_ws_reads in R; [|done..].
  rewrite (reads_length _ _ _ R). cbn. lia.
Qed.

Lemma elements_last_complete w t v w' :
  ws w -> value_complete t v -> ws w' -> elements_complete (w +:+ (t +:+ w')) [v].
Proof.
  intros Hw Hv Hw' n [|fuel] acc c c' Hf Hn R; [lia|]. cbn [element_loop].
  rewrite <- (string_app_assoc w), (string_app_assoc _ w') in R. apply reads_split in R as (c1 & R1 & R2).
  rewrite (Hv n w c c1) by (done || by eapply (delimited_ws w' (char_of 93) "")). cbn [rbind].
  by rewrite (consume_found 93 w' c1 c').
Qed.

Lemma elements_more_complete w t v w' t' vs :
  ws w -> json_value t v -> value_complete t v -> ws w' -> elements_complete t' vs ->
  elements_complete (w +:+ (t +:+ (w' +:+ ("," +:+ t')))) (v :: vs).
Proof.
  intros Hw Ht Hv Hw' Hvs n [|fuel] acc c c' Hf Hn R; [lia|]. cbn [element_loop].
  rewrite <- (string_app_assoc w), (string_app_assoc _ (w' +:+ _)) in R. apply reads_split in R as (c1 & R1 & R2).
  rewrite !string_app_assoc in R2.
  rewrite (Hv n w c c1) by (done || by eapply (delimited_ws w' (char_of 44) _ _ _ Hw')). cbn [rbind].
  rewrite (consume_other 93 (char_of 44) w' (t' +:+ "]") c1 c') by done.
  destruct (reads_comma _ _ _ _ Hw' R2) as (c2 & -> & R3 & L2). cbn [rbind].
  pose proof (value_reads_length _ _ _ _ _ Ht Hw R1) as L1. pose proof (skip_ws_length c2).
  rewrite (Hvs n fuel (acc ++ [v]) c2 c') by (lia || done). by rewrite <- app_assoc.
Qed.

(** The key, the colon and the value of a member. *)
Lemma member_reads w kt k w1 w2 t v rest ch s c c' :
  ws w -> json_chars kt k -> ws w1 -> ws w2 -> json_value t v -> value_complete t v ->
  (exists w', ws w' /\ rest = w' +:+ String ch s) -> delimiter ch = true ->
  reads (w +:+ (quote +:+ (kt +:+ (quote +:+ (w1 +:+ (":" +:+ (w2 +:+ (t +:+ rest)))))))) c c' ->
  exists c1 c2 c3, sees (is_char 34) (skip_ws c) = true /\ parse_string (skip_ws c) = Ok (k, c1) /\
    expect 58 c1 = Ok c2 /\ reads rest c3 c' /\ (String.length (rest_ c3) < String.length (rest_ (skip_ws c)))%nat /\
    forall n, (String.length (rest_ (skip_ws c)) < n)%nat -> parse_value n c2 = Ok (v, c3).
Proof.
  intros Hw Hk Hw1 Hw2 Ht Hv (w' & Hw' & ->) Hch R.
  apply (skip_ws_reads w (char_of 34)) in R; [|done..]. set (c0 := skip_ws c) in *.
  change (String (char_of 34) ?x) with (quote +:+ x) in R.
  pose proof (sees_cons (is_char 34) _ _ _ _ R) as Hsee.
  rewrite <- (string_app_assoc kt quote), <- (string_app_assoc quote) in R. apply reads_split in R as (c1 & R1 & R).
  rewrite <- (string_app_assoc w1) in R. apply reads_split in R as (c2 & R2 & R).
  rewrite <- (string_app_assoc w2) in R. apply reads_split in R as (c3 & R3 & R).
  pose proof (reads_length _ _ _ R1) as L1. pose proof (reads_length _ _ _ R2) as L2.
  pose proof (reads_length _ _ _ R3) as L3. rewrite !string_length_app in *. cbn in L1.
  exists c1, c2, c3. split_and!; [done| | |done|lia|].
  - apply (parse_string_complete (quote +:+ (kt +:+ quote))); [by exists kt|done].
  - by apply (expect_found 58 w1).
  - intros n Hn. apply (Hv n w2); [|done|done|by eapply delimited_ws].
    pose proof (skip_ws_length c2). lia.
Qed.

Lemma emplace_found acc k v ms (o : list (string * JsonValue)) :
  keys_sorted acc -> keys_sorted o -> o ≡ₚ acc ++ (k, v) :: ms ->
  exists acc', map_emplace acc k v = Some acc' /\ keys_sorted acc' /\ o ≡ₚ acc' ++ ms.
Proof.
  intros Ha Ho Hp. pose proof (map_emplace_spec acc k v Ha) as Hm.
  destruct (map_emplace acc k v) as [acc'|].
  - destruct Hm as (Ha' & _ & Hpa). exists acc'. split_and!; [done..|].
    rewrite Hp, Hpa. cbn. by rewrite Permutation_middle.
  - exfalso. destruct (map_find acc k) as [v'|] eqn:E; [|by destruct Hm]. apply map_find_elem in E; [|done].
    apply keys_sorted_nodup in Ho. rewrite Hp, map_app in Ho. apply NoDup_app in Ho as (_ & Hd & _).
    apply (Hd k); [by apply (list_elem_of_fmap_2 fst) in E|cbn; set_solver].
Qed.

Lemma members_last_complete w kt k w1 w2 t v w' :
  ws w -> json_chars kt k -> ws w1 -> ws w2 -> json_value t v -> value_complete t v -> ws w' ->
  members_complete (w +:+ (quote +:+ (kt +:+ (quote +:+ (w1 +:+ (":" +:+ (w2 +:+ (t +:+ w')))))))) [(k, v)].
Proof.
  intros Hw Hk Hw1 Hw2 Ht Hv Hw' n [|fuel] acc o c c' Hf Hn Ha Ho Hp R; [lia|]. cbn [member_loop].
  rewrite !string_app_assoc in R.
  destruct (member_reads w kt k w1 w2 t v (w' +:+ "}") (char_of 125) "" c c') as
    (c1 & c2 & c3 & -> & -> & E2 & R3 & _ & Hval); [done..|by exists w'|done|done|].
  cbn [negb rbind]. rewrite E2. cbn [rbind]. rewrite (Hval n Hn). cbn [rbind].
  destruct (emplace_found acc k v [] o) as (acc' & -> & Ha' & Hp'); [done..|].
  rewrite (consume_found 125 w' c3 c') by done. rewrite app_nil_r in Hp'.
  by rewrite (keys_sorted_unique o acc').
Qed.

Lemma members_more_complete w kt k w1 w2 t v w' t' ms :
  ws w -> json_chars kt k -> ws w1 -> ws w2 -> json_value t v -> value_complete t v -> ws w' -> members_complete t' ms ->
  members_complete (w +:+ (quote +:+ (kt +:+ (quote +:+ (w1 +:+ (":" +:+ (w2 +:+ (t +:+ (w' +:+ ("," +:+ t'))))))))))
    ((k, v) :: ms).
Proof.
  intros Hw Hk Hw1 Hw2 Ht Hv Hw' Hms n [|fuel] acc o c c' Hf Hn Ha Ho Hp R; [lia|]. cbn [member_loop].
  rewrite !string_app_assoc in R.
  destruct (member_reads w kt k w1 w2 t v (w' +:+ ("," +:+ (t' +:+ "}"))) (char_of 44) (t' +:+ "}") c c') as
    (c1 & c2 & c3 & -> & -> & E2 & R3 & L3 & Hval); [done..|by exists w'|done|done|].
  cbn [negb rbind]. rewrite E2. cbn [rbind]. rewrite (Hval n Hn). cbn [rbind].
  destruct (emplace_found acc k v ms o) as (acc' & -> & Ha' & Hp'); [done..|].
  rewrite (consume_other 125 (char_of 44) w' (t' +:+ "}") c3 c') by done.
  destruct (reads_comma _ _ _ _ Hw' R3) as (c4 & -> & R4 & L4). cbn [rbind].
  pose proof (skip_ws_length c4). apply Hms; try done; lia.
Qed.

(** [parse_value] at a character, after white space. *)
Lemma parse_value_at fuel w ch t c c' :
  ws w -> isspace ch = false -> reads (w +:+ String ch t) c c' ->
  exists c1, skip_ws c = c1 /\ reads (String ch t) c1 c' /\ rest_ c1 = String ch (t +:+ rest_ c') /\
    parse_value fuel c = parse_value fuel c1.
Proof.
  intros Hw Hch R. exists (skip_ws c). pose proof (skip_ws_reads _ _ _ _ _ Hw Hch R) as R'.
  split; [done|]. split; [done|]. split; [exact (proj1 (reads_cons _ _ _ _ R'))|]. symmetry. apply parse_value_skip.
Qed.

Lemma skip_ws_id ch t c c' : isspace ch = false -> reads (String ch t) c c' -> skip_ws c = c.
Proof.
  intros Hch R. apply skip_ws_iff. exists "". split_and!; [apply reads_nil|done|].
  by rewrite (sees_cons _ _ _ _ _ R).
Qed.

(** The opening bracket of a non-empty array or object. *)
Lemma open_bracket a b w ch s c c' :
  0 <= a < 256 -> isspace (char_of a) = false -> ws w -> isspace ch = false -> code ch <> b ->
  reads (String (char_of a) (w +:+ String ch s)) c c' ->
  exists c1, expect a c = Ok c1 /\ reads (w +:+ String ch s) c1 c' /\ consume b (skip_ws c1) = (false, skip_ws c1) /\
    (String.length (rest_ (skip_ws c1)) < String.length (rest_ c))%nat.
Proof.
  intros Ha Hsa Hw Hch Hne R.
  change (reads (String (char_of a) "" +:+ (w +:+ String ch s)) c c') in R.
  apply reads_split in R as (c1 & R1 & R2). exists c1. split_and!.
  - by apply (expect_found a "").
  - done.
  - rewrite consume_skip. by eapply consume_other.
  - pose proof (reads_length _ _ _ R1) as L. pose proof (skip_ws_length c1). cbn in L. lia.
Qed.

Lemma value_empty_complete a b v w fuel c c' :
  0 <= a < 256 -> isspace (char_of a) = false -> 0 <= b < 256 -> isspace (char_of b) = false -> ws w ->
  reads (String (char_of a) (w +:+ String (char_of b) "")) c c' ->
  (let? c := expect a c in let '(closed, c) := consume b (skip_ws c) in
   if closed : bool then Ok (v, c) else fuel c) = Ok (v, c') :> result (JsonValue * cursor).
Proof.
  intros Ha Hsa Hb Hsb Hw R.
  change (reads (String (char_of a) "" +:+ (w +:+ String (char_of b) "")) c c') in R.
  apply reads_split in R as (c1 & R1 & R2). rewrite (expect_found a "" c c1) by done. cbn [rbind].
  rewrite consume_skip. by rewrite (consume_found b w c1 c').
Qed.

Lemma elements_head t vs : json_elements t vs ->
  exists w ch s, t = w +:+ String ch s /\ ws w /\ isspace ch = false /\ code ch <> 93.
Proof.
  intros H. assert (G : exists w t1 r v, t = w +:+ (t1 +:+ r) /\ ws w /\ json_value t1 v)
    by (destruct H; eauto 10). destruct G as (w & t1 & r & v & -> & Hw & (ch & s & -> & ? & ? & ?)%value_head).
  exists w, ch, (s +:+ r). done.
Qed.

Lemma members_head t ms : json_members t ms ->
  exists w s, t = w +:+ String (char_of 34) s /\ ws w.
Proof. intros H. destruct H; eexists _, _; (split; [reflexivity|done]). Qed.

Lemma value_complete_array t vs : json_elements t vs -> elements_complete t vs -> value_complete ("[" +:+ (t +:+ "]")) (JsonArray vs).
Proof.
  intros Ht Hc [|fuel] w c c' Hf Hw R _; [lia|].
  destruct (parse_value_at (S fuel) w (char_of 91) (t +:+ "]") c c') as (c1 & Es & R1 & E1 & ->); [done..|].
  rewrite Es in Hf. destruct (elements_head _ _ Ht) as (w1 & ch & s & -> & Hw1 & Hch & Hne).
  cbn [parse_value]. rewrite (skip_ws_id (char_of 91) _ _ _ eq_refl R1), E1. change (is_char 123 _) with false.
  change (is_char 91 _) with true. cbn iota. unfold parse_array. rewrite string_app_assoc in R1.
  destruct (open_bracket 91 93 w1 ch (s +:+ "]") c1 c') as (c2 & -> & R2 & E2 & L); [lia|done..|].
  cbn [rbind]. rewrite E2. rewrite element_loop_skip. apply (Hc fuel (fuel_of _) []); [unfold fuel_of; lia|lia|].
  rewrite string_app_assoc. exact R2.
Qed.

Lemma value_complete_object t ms o :
  json_members t ms -> members_complete t ms -> keys_sorted o -> o ≡ₚ ms ->
  value_complete ("{" +:+ (t +:+ "}")) (JsonObject o).
Proof.
  intros Ht Hc Ho Hp [|fuel] w c c' Hf Hw R _; [lia|].
  destruct (parse_value_at (S fuel) w (char_of 123) (t +:+ "}") c c') as (c1 & Es & R1 & E1 & ->); [done..|].
  rewrite Es in Hf. destruct (members_head _ _ Ht) as (w1 & s & -> & Hw1).
  cbn [parse_value]. rewrite (skip_ws_id (char_of 123) _ _ _ eq_refl R1), E1. change (is_char 123 _) with true.
  cbn iota. unfold parse_object. rewrite string_app_assoc in R1.
  destruct (open_bracket 123 125 w1 (char_of 34) (s +:+ "}") c1 c') as (c2 & -> & R2 & E2 & L); [lia|done..|].
  cbn [rbind]. rewrite E2. rewrite member_loop_skip.
  apply (Hc fuel (fuel_of _) [] o); [unfold fuel_of; lia|lia|constructor|done|done|].
  rewrite string_app_assoc. exact R2.
Qed.

(** A value whose first character selects the branch [f] of [parse_value]. *)
Lemma value_complete_branch t v ch s (f : cursor -> result (JsonValue * cursor)) :
  t = String ch s -> isspace ch = false ->
  (forall fuel c r, skip_ws c = c -> rest_ c = String ch r -> parse_value (S fuel) c = f c) ->
  (forall c c', reads t c c' -> delimited c' -> f c = Ok (v, c')) -> value_complete t v.
Proof.
  intros -> Hch Hbr Hf [|fuel] w c c' Hl Hw R Hd; [lia|].
  destruct (parse_value_at (S fuel) w ch s c c') as (c1 & _ & R1 & E1 & ->); [done..|].
  rewrite (Hbr fuel c1 _ (skip_ws_id _ _ _ _ Hch R1) E1). by apply Hf.
Qed.

Lemma value_complete_number t d : json_number t d -> value_complete t (JsonNumber d).
Proof.
  intros Hn. destruct (value_head t (JsonNumber d)) as (ch & s & E & Hch & _); [by constructor|].
  assert (Hc : is_char 45 ch || isdigit ch = true).
  { destruct Hn as (neg & int & fr & frac & et & ex & Et & Hi%integer_digits & _). rewrite Et in E.
    destruct neg; [by injection E as <- _|]. pose proof (digits1_head int (fr +:+ et) Hi) as Hd. cbn in E.
    rewrite E in Hd. cbn in Hd. rewrite Hd. apply orb_true_r. }
  assert (Hr : code ch = 45 \/ 48 <= code ch <= 57).
  { apply orb_true_iff in Hc as [H%is_char_code|H%digit_range]; lia. }
  apply (value_complete_branch t _ ch s (fun c => let? (d, c) := parse_number c in Ok (JsonNumber d, c))); [done..| |].
  - intros fuel c r Hs Er. cbn [parse_value]. rewrite Hs, Er.
    rewrite (is_char_neq 123), (is_char_neq 91), (is_char_neq 34), (is_char_neq 116), (is_char_neq 102), (is_char_neq 110) by lia.
    by rewrite Hc.
  - intros c c' R Hd. by rewrite (parse_number_complete t d c c').
Qed.

Lemma value_complete_all :
  (forall t v, json_value t v -> value_complete t v) /\
  (forall t vs, json_elements t vs -> elements_complete t vs) /\
  (forall t ms, json_members t ms -> members_complete t ms).
Proof.
  apply json_grammar_ind.
  - eapply (value_complete_branch _ _ _ _ (fun c => let? c := parse_literal "null" c in Ok (JsonNull, c))); [done..| |].
    + intros fuel c r Hs Er. cbn [parse_value]. by rewrite Hs, Er.
    + intros c c' R _. by rewrite (parse_literal_complete _ _ _ R).
  - eapply (value_complete_branch _ _ _ _ (fun c => let? c := parse_literal "true" c in Ok (JsonBoolean true, c))); [done..| |].
    + intros fuel c r Hs Er. cbn [parse_value]. by rewrite Hs, Er.
    + intros c c' R _. by rewrite (parse_literal_complete _ _ _ R).
  - eapply (value_complete_branch _ _ _ _ (fun c => let? c := parse_literal "false" c in Ok (JsonBoolean false, c))); [done..| |].
    + intros fuel c r Hs Er. cbn [parse_value]. by rewrite Hs, Er.
    + intros c c' R _. by rewrite (parse_literal_complete _ _ _ R).
  - intros t d Hn. by apply value_complete_number.
  - intros t s Hc.
    eapply (value_complete_branch _ _ (char_of 34) _ (fun c => let? (s, c) := parse_string c in Ok (JsonString s, c))); [done..| |].
    + intros fuel c r Hs Er. cbn [parse_value]. by rewrite Hs, Er.
    + intros c c' R _. by rewrite (parse_string_complete (quote +:+ (t +:+ quote)) s c c'); [|exists t|].
  - intros w Hw. intros [|fuel] w0 c c' Hf Hw0 R _; [lia|].
    destruct (parse_value_at (S fuel) w0 (char_of 91) (w +:+ "]") c c') as (c1 & Es & R1 & E1 & ->); [done..|].
    cbn [parse_value]. rewrite (skip_ws_id (char_of 91) _ _ _ eq_refl R1), E1. 
    exact (value_empty_complete 91 93 (JsonArray []) w (fun c => element_loop (parse_value fuel) (fuel_of c) [] c) c1 c'
             ltac:(lia) eq_refl ltac:(lia) eq_refl Hw R1).
  - intros t vs Ht IH. by apply value_complete_array.
  - intros w Hw. intros [|fuel] w0 c c' Hf Hw0 R _; [lia|].
    destruct (parse_value_at (S fuel) w0 (char_of 123) (w +:+ "}") c c') as (c1 & Es & R1 & E1 & ->); [done..|].
    cbn [parse_value]. rewrite (skip_ws_id (char_of 123) _ _ _ eq_refl R1), E1. 
    exact (value_empty_complete 123 125 (JsonObject []) w (fun c => member_loop (parse_value fuel) (fuel_of c) [] c) c1 c'
             ltac:(lia) eq_refl ltac:(lia) eq_refl Hw R1).
  - intros t ms o Ht IH Hnd Ho Hp. by eapply value_complete_object.
  - intros w t v w' Hw Ht IH Hw'. by apply elements_last_complete.
  - intros w t v w' t' vs Hw Ht IH Hw' Hvs IH'. by apply elements_more_complete.
  - intros w kt k w1 w2 t v w' Hw Hk Hw1 Hw2 Ht IH Hw'. by apply members_last_complete.
  - intros w kt k w1 w2 t v w' t' ms Hw Hk Hw1 Hw2 Ht IH Hw' Hms IH'. by apply members_more_complete.
Qed.

(** ** The parser *)

Lemma parse_sound input :
  match parse input with
  | Ok v => json_document input v
  | Throw m => located (Cursor 0 input) m
  end.
Proof.
  unfold parse. destruct (proj1 (skip_ws_iff (Cursor 0 input) _) eq_refl) as (w & R & Hw & _).
  set (c := skip_ws _) in *. pose proof (parse_value_sound (fuel_of c) c ltac:(unfold fuel_of; lia)) as H.
  destruct (parse_value _ c) as [[v c1]|m]; [|by eapply located_reads]. cbn [rbind].
  destruct H as (? & R1 & w1 & t & -> & Hw1 & Ht). pose proof (reads_app _ _ _ _ _ R R1) as R01.
  destruct (proj1 (skip_ws_iff c1 _) eq_refl) as (w2 & R2 & Hw2 & _).
  pose proof (reads_app _ _ _ _ _ R01 R2) as R02. case_bool_decide as E; cbn [negb].
  - destruct R02 as [E0 _]. rewrite E, string_app_nil_r in E0. cbn in E0. subst input.
    exists (w +:+ w1), t, w2. split_and!; [by rewrite !string_app_assoc|by apply ws_app|done|done].
  - eapply located_reads; [exact R02|apply located_here].
Qed.

(** A text of the grammar is read. *)
Lemma document_parses input v : json_document input v -> parse input = Ok v.
Proof.
  intros (w & t & w' & -> & Hw & Ht & Hw'). unfold parse.
  set (e := Cursor (Z.of_nat (String.length (w +:+ (t +:+ w')))) "").
  assert (R : reads (w +:+ (t +:+ w')) (Cursor 0 (w +:+ (t +:+ w'))) e) by (split; cbn; [by rewrite string_app_nil_r|lia]).
  rewrite <- string_app_assoc in R at 1. pose proof R as (c1 & R1 & R2)%reads_split.
  rewrite parse_value_skip. rewrite (proj1 value_complete_all t v Ht (fuel_of (skip_ws (Cursor 0 (w +:+ (t +:+ w'))))) w _ c1);
    [|unfold fuel_of; lia|done|exact R1|].
  - cbn [rbind]. replace (skip_ws c1) with e; [done|]. symmetry. apply skip_ws_iff. by exists w'.
  - destruct w' as [|ch w']; [by destruct R2 as [E _]; unfold delimited, sees; rewrite E|].
    unfold ws in Hw'. cbn in Hw'. apply andb_true_iff in Hw' as [Hsp _].
    unfold delimited. rewrite (sees_cons _ _ _ _ _ R2). unfold delimiter. by rewrite Hsp.
Qed.

(** C5: The parser accepts exactly the texts of the JSON grammar (white space in the
    sense of [std::isspace], numbers as the nearest finite double, no surrogate
    escapes, no duplicate keys), each with the value the grammar gives it. *)
Theorem json_parse_exact input v : parse input = Ok v <-> json_document input v.
Proof. split; [|apply document_parses]. intros E. pose proof (parse_sound input) as H. by rewrite E in H. Qed.

(** Whatever the parser refuses, the error names a byte position of the input
    (at most its length); in particular the parser always returns. *)
Theorem json_error_located input m :
  parse input = Throw m ->
  exists p why, 0 <= p <= Z.of_nat (String.length input) /\
    m = "invalid JSON at byte " +:+ (to_string p +:+ (": " +:+ why)).
Proof.
  intros E. pose proof (parse_sound input) as H. rewrite E in H. destruct H as (p & why & Hp & ->).
  exists p, why. cbn in Hp. split; [lia|done].
Qed.

Lemma json_error_located_witness :
  parse "[1,2" = Throw "invalid JSON at byte 4: expected ','" /\
  exists p why, 0 <= p <= 4 /\ "invalid JSON at byte 4: expected ','" = "invalid JSON at byte " +:+ (to_string p +:+ (": " +:+ why)).
Proof.
  assert (E : parse "[1,2" = Throw "invalid JSON at byte 4: expected ','") by (vm_compute; reflexivity).
  split; [exact E|exact (json_error_located "[1,2" _ E)].
Defined.
