(* ===== verification/Rules.v ===== *)
(** Detection rules: exclusions, rule definitions, rule sets and their loader
    ([include/neta/rules/rule_exclusion.hpp], [rule_definition.hpp], [rule_set.hpp],
    [rule_set_loader.hpp]).

    The conversions of [double] parameters to integers and the files and environment
    variables the loader looks at are parameters ([CastUndefined], [LoaderEnv]); the
    loader's directory is that of the Linux build.

    The theorem here is the exact meaning of an exclusion; what the loader accepts is in
    [RulesValid.v]. *)

From S2P Require Import Prelude Text StringMap Doubles Json Model.

#[local] Arguments String.append !_ _ /.

(** ** Exclusions *)

Record RuleExclusion := MkExclusion {
  rx_process_names : list string;
  rx_executable_paths : list string;
  rx_process_path_prefixes : list string;
  rx_parent_process_names : list string;
  rx_users : list string;
  rx_remote_hosts : list string;
  rx_remote_ips : list string;
  rx_remote_ports : list string;
  rx_local_ports : list string;
  rx_domains : list string;
  rx_directions : list string }.

Definition no_exclusion : RuleExclusion := MkExclusion [] [] [] [] [] [] [] [] [] [] [].

Definition is_empty {A} (l : list A) : bool := match l with [] => true | _ => false end.

Definition exclusion_empty (e : RuleExclusion) : bool :=
  is_empty (rx_process_names e) && is_empty (rx_executable_paths e) && is_empty (rx_process_path_prefixes e) &&
  is_empty (rx_parent_process_names e) && is_empty (rx_users e) && is_empty (rx_remote_hosts e) &&
  is_empty (rx_remote_ips e) && is_empty (rx_remote_ports e) && is_empty (rx_local_ports e) &&
  is_empty (rx_domains e) && is_empty (rx_directions e).

Definition normalized_char (c : ascii) : ascii := if code c =? 92 then char_of 47 else tolower c.
Definition exclusion_normalized (value : string) : string := string_map normalized_char value.

Definition exclusion_contains (values : list string) (candidate : string) : bool :=
  if bool_decide (candidate = "") then false
  else
    let normalized := exclusion_normalized candidate in
    existsb (fun value => bool_decide (exclusion_normalized value = normalized)) values.

Definition exclusion_prefix (values : list string) (candidate : string) : bool :=
  if bool_decide (candidate = "") then false
  else
    let normalized := exclusion_normalized candidate in
    existsb (fun value => let prefix := exclusion_normalized value in
                          negb (bool_decide (prefix = "")) && starts_with prefix normalized) values.

(** What follows the last ['/'], if there is one: [s.substr(s.find_last_of('/') + 1)]. *)
Fixpoint after_last_slash (s : string) : option string :=
  match s with
  | EmptyString => None
  | String c s' =>
      match after_last_slash s' with
      | Some r => Some r
      | None => if code c =? 47 then Some s' else None
      end
  end.

Definition process_basename (process : ProcessIdentity) : string :=
  let normalized := exclusion_normalized (pi_executable_path process) in
  match after_last_slash normalized with
  | None => if negb (bool_decide (pi_comm process = "")) then pi_comm process else normalized
  | Some name => name
  end.

Definition excludes_connection (exclusion : RuleExclusion) (connection : ConnectionSummary)
    (correlated_domains : list string) (parent_process_name : option string) : bool :=
  let process := cs_process connection in
  if exclusion_empty exclusion then false
  else if exclusion_contains (rx_process_names exclusion) (pi_comm process) ||
          exclusion_contains (rx_process_names exclusion) (process_basename process) then true
  else if exclusion_contains (rx_executable_paths exclusion) (pi_executable_path process) ||
          exclusion_prefix (rx_process_path_prefixes exclusion) (pi_executable_path process) then true
  else if exclusion_contains (rx_users exclusion) (to_string (pi_uid process)) then true
  else if match parent_process_name with
          | Some name => exclusion_contains (rx_parent_process_names exclusion) name
          | None => false
          end then true
  else if exclusion_contains (rx_remote_hosts exclusion) (cs_target_host connection) ||
          exclusion_contains (rx_remote_ips exclusion) (cs_remote_ip connection) then true
  else if exclusion_contains (rx_remote_ports exclusion) (to_string (cs_remote_port connection)) ||
          exclusion_contains (rx_local_ports exclusion) (to_string (cs_local_port connection)) then true
  else if existsb (exclusion_contains (rx_domains exclusion)) correlated_domains then true
  else
    let direction := match cs_direction connection with
                     | Outbound => "outbound" | Inbound => "inbound" | DirectionUnknown => "unknown" end in
    exclusion_contains (rx_directions exclusion) direction.

(** ** Definitions *)

Record RuleDefinition := MkRule {
  rd_id : string;
  rd_engine_rule_id : string;
  rd_name : string;
  rd_category : string;
  rd_severity : string;
  rd_enabled : bool;
  rd_exclude : RuleExclusion;
  rd_numeric_parameters : list (string * spec_float);
  rd_boolean_parameters : list (string * bool);
  rd_string_parameters : list (string * string);
  rd_string_list_parameters : list (string * list string) }.

Definition lookup_parameter {V} (kind : string) (m : list (string * V)) (parameter_name : string) : result V :=
  match map_find m parameter_name with
  | None => Throw ("missing " +:+ kind +:+ " rule parameter: " +:+ parameter_name)
  | Some v => Ok v
  end.

Definition numeric (d : RuleDefinition) : string -> result spec_float :=
  lookup_parameter "numeric" (rd_numeric_parameters d).
Definition boolean (d : RuleDefinition) : string -> result bool :=
  lookup_parameter "boolean" (rd_boolean_parameters d).
Definition string_list (d : RuleDefinition) : string -> result (list string) :=
  lookup_parameter "string-list" (rd_string_list_parameters d).

(** ** Rule sets *)

Definition kLegacyRuleSetVersion : string := "neta-rules/0.1.0".
Definition kPreviousRuleSetVersion : string := "neta-rules/0.2.0".
Definition kRm1RuleSetVersion : string := "neta-rules/0.3.0".
Definition kRm2RuleSetVersion : string := "neta-rules/0.4.0".
Definition kRuleSetVersion : string := "neta-rules/0.6.0".

Record RuleSet := MkRuleSet {
  rs_id : string;
  rs_revision : Z;
  rs_schema_version : Z;
  rs_version : string;
  rs_performance_enabled : bool;
  rs_rtt_ratio : spec_float;
  rs_rttvar_ratio : spec_float;
  rs_retransmission_threshold : Z;
  rs_rtt_weight : spec_float;
  rs_rttvar_weight : spec_float;
  rs_retransmission_weight : spec_float;
  rs_degraded_threshold : spec_float;
  rs_outbound_tls_identity : bool;
  rs_outbound_require_chain_valid : bool;
  rs_outbound_require_hostname_valid : bool;
  rs_outbound_compare_spki : bool;
  rs_inbound_authenticated_identity : bool;
  rs_inbound_require_exact_evidence : bool;
  rs_inbound_require_peer_certificate : bool;
  rs_inbound_require_peer_authentication : bool;
  rs_inbound_verification_failure_suspicious : bool;
  rs_inbound_compare_spki : bool;
  rs_inbound_compare_issuer : bool;
  rs_definitions : list RuleDefinition }.

(** A decimal literal of the source. *)
Definition literal (text : string) : spec_float := default S754_nan (strtod text).1.

(** [RuleSet{}] *)
Definition default_rule_set : RuleSet :=
  MkRuleSet "neta-default" 6 2 kRuleSetVersion
    true (literal "2.0") (literal "2.0") 2 (literal "0.50") (literal "0.20") (literal "0.30") (literal "0.50")
    true true true true
    true true true true true true true [].

Definition canonical_id (id : string) : string :=
  let id := if starts_with "NETA-" id then substr_from id 5 else id in
  if starts_with "CUS-" id then "CST-" +:+ substr_from id 4 else id.

(** [RuleSet::rule] *)
Definition rule (set : RuleSet) (rule_id : string) : result RuleDefinition :=
  let canonical := canonical_id rule_id in
  match find (fun d => bool_decide (rd_id d = canonical)) (rs_definitions set) with
  | Some d => Ok d
  | None => Throw ("rule is not present in rule set: " +:+ canonical)
  end.

(** ** Loader *)

Definition rm1_default_ids : list string :=
  ["PERF-001"; "PROC-001"; "PROC-002"; "PROC-003"; "PROC-004"; "PROC-005"; "TRUST-001"; "TRUST-002"].

Definition is_supported_custom_engine (id : string) : bool :=
  bool_decide (id ∈ ["PERF-001"; "TRUST-001"; "TRUST-002";
    "PROC-001"; "PROC-002"; "PROC-003"; "PROC-004"; "PROC-005";
    "BEH-001"; "NET-001"; "NET-002"; "NET-003"; "NET-004"; "NET-005";
    "DNS-001"; "DNS-002"; "DNS-003"; "TLS-001"; "TLS-002"; "ROUTE-001"]).

(** [static_cast<double>(std::numeric_limits<std::uint64_t>::max())] *)
Definition double_u64_max : spec_float := double_of_Z u64_max.

(** An iteration whose body may throw. *)
Fixpoint for_each {A} (f : A -> result unit) (l : list A) : result unit :=
  match l with [] => Ok tt | a :: l => let? _ := f a in for_each f l end.

Section loader.
Context `{CastUndefined}.

Definition require_string (object : JsonValue) (key : string) : result string :=
  let? item := json_at object key in as_string item.

Definition require_u64 (object : JsonValue) (key : string) : result Z :=
  let? item := json_at object key in
  let? value := as_number item in
  let? _ := throw_if (negb (isfinite value) || double_ltb value (double_of_Z 0) ||
                      negb (double_eqb (double_floor value) value) || double_gtb value double_u64_max)
              (key +:+ " must be a non-negative integer") in
  Ok (cast_u64 value).

Definition optional_bool (object : JsonValue) (key : string) (fallback : bool) : result bool :=
  let? value := json_find object key in
  match value with Some v => as_boolean v | None => Ok fallback end.

Definition optional_string (object : JsonValue) (key : string) : result string :=
  let? value := json_find object key in
  match value with Some v => as_string v | None => Ok "" end.

Definition ensure_keys (object : JsonValue) (allowed : list string) (context : string) : result unit :=
  let? members := as_object object in
  for_each (fun '(key, _) => throw_if (negb (bool_decide (key ∈ allowed)))
                               (context +:+ " contains unsupported field: " +:+ key)) members.

Definition ensure_parameter_keys (d : RuleDefinition) (allowed : list string) : result unit :=
  let check key := throw_if (negb (bool_decide (key ∈ allowed))) (rd_id d +:+ " contains unsupported parameter: " +:+ key) in
  let? _ := for_each check (map fst (rd_numeric_parameters d)) in
  let? _ := for_each check (map fst (rd_boolean_parameters d)) in
  let? _ := for_each check (map fst (rd_string_parameters d)) in
  for_each check (map fst (rd_string_list_parameters d)).

Fixpoint strings_of (items : list JsonValue) : result (list string) :=
  match items with
  | [] => Ok []
  | item :: items =>
      let? text := as_string item in
      let? _ := throw_if (bool_decide (text = "")) "string-list values may not be empty" in
      let? texts := strings_of items in Ok (text :: texts)
  end.

Definition string_array (value : JsonValue) : result (list string) :=
  let? items := as_array value in strings_of items.

Definition parse_exclusion (value : JsonValue) : result RuleExclusion :=
  let? _ := ensure_keys value
    ["process_names"; "executable_paths"; "process_path_prefixes"; "parent_process_names"; "users";
     "remote_hosts"; "remote_ips"; "remote_ports"; "local_ports"; "domains"; "directions"] "rule exclusion" in
  let read key :=
    let? item := json_find value key in
    match item with Some item => string_array item | None => Ok [] end in
  let? process_names := read "process_names" in
  let? executable_paths := read "executable_paths" in
  let? process_path_prefixes := read "process_path_prefixes" in
  let? parent_process_names := read "parent_process_names" in
  let? users := read "users" in
  let? remote_hosts := read "remote_hosts" in
  let? remote_ips := read "remote_ips" in
  let? remote_ports := read "remote_ports" in
  let? local_ports := read "local_ports" in
  let? domains := read "domains" in
  let? directions := read "directions" in
  let? _ := for_each (fun direction =>
      let normalized := exclusion_normalized direction in
      throw_if (negb (bool_decide (normalized = "inbound")) && negb (bool_decide (normalized = "outbound")) &&
                negb (bool_decide (normalized = "unknown")))
        "exclude.directions accepts inbound, outbound, or unknown") directions in
  Ok (MkExclusion process_names executable_paths process_path_prefixes parent_process_names users
        remote_hosts remote_ips remote_ports local_ports domains directions).

(** [m.emplace(key, value)], its result ignored. *)
Definition emplace {V} (m : list (string * V)) (key : string) (value : V) : list (string * V) :=
  default m (map_emplace m key value).

Definition add_parameter (d : RuleDefinition) (key : string) (p : JsonValue) : result RuleDefinition :=
  let 'MkRule id engine name category severity enabled exclude numbers booleans strings lists := d in
  match p with
  | JsonNumber v => Ok (MkRule id engine name category severity enabled exclude (emplace numbers key v) booleans strings lists)
  | JsonBoolean v => Ok (MkRule id engine name category severity enabled exclude numbers (emplace booleans key v) strings lists)
  | JsonString v => Ok (MkRule id engine name category severity enabled exclude numbers booleans (emplace strings key v) lists)
  | JsonArray _ =>
      let? v := string_array p in
      Ok (MkRule id engine name category severity enabled exclude numbers booleans strings (emplace lists key v))
  | _ => Throw ("unsupported parameter type for " +:+ key)
  end.

Fixpoint add_parameters (d : RuleDefinition) (parameters : list (string * JsonValue)) : result RuleDefinition :=
  match parameters with
  | [] => Ok d
  | (key, p) :: parameters => let? d := add_parameter d key p in add_parameters d parameters
  end.

Definition with_exclude (d : RuleDefinition) (exclude : RuleExclusion) : RuleDefinition :=
  let 'MkRule id engine name category severity enabled _ numbers booleans strings lists := d in
  MkRule id engine name category severity enabled exclude numbers booleans strings lists.

Definition parse_definition (value : JsonValue) (schema_version : Z) : result RuleDefinition :=
  let? _ :=
    if schema_version =? 1
    then ensure_keys value ["id"; "name"; "category"; "severity"; "enabled"; "parameters"] "rule"
    else ensure_keys value ["id"; "engine_rule_id"; "name"; "category"; "severity"; "enabled"; "parameters"; "exclude"] "rule" in
  let? id := require_string value "id" in
  let id := canonical_id id in
  let? engine := optional_string value "engine_rule_id" in
  let engine := canonical_id engine in
  let engine := if bool_decide (engine = "") then id else engine in
  let? name := require_string value "name" in
  let? category := require_string value "category" in
  let? severity := optional_string value "severity" in
  let? enabled := optional_bool value "enabled" true in
  let? _ := throw_if (bool_decide (id = "") || bool_decide (engine = "") || bool_decide (name = "") || bool_decide (category = ""))
              "rule id, engine_rule_id, name, and category must be non-empty" in
  let d := MkRule id engine name category severity enabled no_exclusion [] [] [] [] in
  let? parameters := json_find value "parameters" in
  let? d := match parameters with
            | Some parameters => let? members := as_object parameters in add_parameters d members
            | None => Ok d
            end in
  if 2 <=? schema_version then
    let? exclusion := json_find value "exclude" in
    match exclusion with
    | Some exclusion => let? exclude := parse_exclusion exclusion in Ok (with_exclude d exclude)
    | None => Ok d
    end
  else Ok d.

Definition require_category (d : RuleDefinition) (expected : string) : result unit :=
  throw_if (negb (bool_decide (rd_category d = expected))) (rd_id d +:+ " must use " +:+ expected +:+ " category").

Definition positive_integer (d : RuleDefinition) (name : string) : result Z :=
  let? value := numeric d name in
  let? _ := throw_if (negb (isfinite value) || double_leb value (double_of_Z 0) ||
                      negb (double_eqb (double_floor value) value) || double_gtb value double_u64_max)
              (rd_id d +:+ " parameter " +:+ name +:+ " must be a positive integer") in
  Ok (cast_u64 value).

Definition fraction (d : RuleDefinition) (name : string) : result unit :=
  let? value := numeric d name in
  throw_if (negb (isfinite value) || double_ltb value (double_of_Z 0) || double_gtb value (double_of_Z 1))
    (rd_id d +:+ " parameter " +:+ name +:+ " must be between 0 and 1").

Definition validate_severity (d : RuleDefinition) : result unit :=
  throw_if (negb (bool_decide (rd_severity d = "low")) && negb (bool_decide (rd_severity d = "medium")) &&
            negb (bool_decide (rd_severity d = "high")))
    (rd_id d +:+ " severity must be low, medium, or high").

(** The assignments of [validate_engine] to the fields of the set. *)
Definition set_performance (s : RuleSet) (enabled : bool) (rtt_ratio rttvar_ratio : spec_float) (threshold : Z)
    (rtt_weight rttvar_weight retransmission_weight degraded_threshold : spec_float) : RuleSet :=
  MkRuleSet (rs_id s) (rs_revision s) (rs_schema_version s) (rs_version s)
    enabled rtt_ratio rttvar_ratio threshold rtt_weight rttvar_weight retransmission_weight degraded_threshold
    (rs_outbound_tls_identity s) (rs_outbound_require_chain_valid s) (rs_outbound_require_hostname_valid s)
    (rs_outbound_compare_spki s) (rs_inbound_authenticated_identity s) (rs_inbound_require_exact_evidence s)
    (rs_inbound_require_peer_certificate s) (rs_inbound_require_peer_authentication s)
    (rs_inbound_verification_failure_suspicious s) (rs_inbound_compare_spki s) (rs_inbound_compare_issuer s)
    (rs_definitions s).

Definition set_outbound (s : RuleSet) (enabled chain hostname spki : bool) : RuleSet :=
  MkRuleSet (rs_id s) (rs_revision s) (rs_schema_version s) (rs_version s)
    (rs_performance_enabled s) (rs_rtt_ratio s) (rs_rttvar_ratio s) (rs_retransmission_threshold s)
    (rs_rtt_weight s) (rs_rttvar_weight s) (rs_retransmission_weight s) (rs_degraded_threshold s)
    enabled chain hostname spki
    (rs_inbound_authenticated_identity s) (rs_inbound_require_exact_evidence s)
    (rs_inbound_require_peer_certificate s) (rs_inbound_require_peer_authentication s)
    (rs_inbound_verification_failure_suspicious s) (rs_inbound_compare_spki s) (rs_inbound_compare_issuer s)
    (rs_definitions s).

Definition set_inbound (s : RuleSet) (enabled exact certificate authentication failure spki issuer : bool) : RuleSet :=
  MkRuleSet (rs_id s) (rs_revision s) (rs_schema_version s) (rs_version s)
    (rs_performance_enabled s) (rs_rtt_ratio s) (rs_rttvar_ratio s) (rs_retransmission_threshold s)
    (rs_rtt_weight s) (rs_rttvar_weight s) (rs_retransmission_weight s) (rs_degraded_threshold s)
    (rs_outbound_tls_identity s) (rs_outbound_require_chain_valid s) (rs_outbound_require_hostname_valid s)
    (rs_outbound_compare_spki s) enabled exact certificate authentication failure spki issuer (rs_definitions s).

Definition set_definitions (s : RuleSet) (definitions : list RuleDefinition) : RuleSet :=
  MkRuleSet (rs_id s) (rs_revision s) (rs_schema_version s) (rs_version s)
    (rs_performance_enabled s) (rs_rtt_ratio s) (rs_rttvar_ratio s) (rs_retransmission_threshold s)
    (rs_rtt_weight s) (rs_rttvar_weight s) (rs_retransmission_weight s) (rs_degraded_threshold s)
    (rs_outbound_tls_identity s) (rs_outbound_require_chain_valid s) (rs_outbound_require_hostname_valid s)
    (rs_outbound_compare_spki s) (rs_inbound_authenticated_identity s) (rs_inbound_require_exact_evidence s)
    (rs_inbound_require_peer_certificate s) (rs_inbound_require_peer_authentication s)
    (rs_inbound_verification_failure_suspicious s) (rs_inbound_compare_spki s) (rs_inbound_compare_issuer s)
    definitions.

Definition set_identity (s : RuleSet) (schema_version : Z) (id : string) (revision : Z) (version : string) : RuleSet :=
  MkRuleSet id revision schema_version version
    (rs_performance_enabled s) (rs_rtt_ratio s) (rs_rttvar_ratio s) (rs_retransmission_threshold s)
    (rs_rtt_weight s) (rs_rttvar_weight s) (rs_retransmission_weight s) (rs_degraded_threshold s)
    (rs_outbound_tls_identity s) (rs_outbound_require_chain_valid s) (rs_outbound_require_hostname_valid s)
    (rs_outbound_compare_spki s) (rs_inbound_authenticated_identity s) (rs_inbound_require_exact_evidence s)
    (rs_inbound_require_peer_certificate s) (rs_inbound_require_peer_authentication s)
    (rs_inbound_verification_failure_suspicious s) (rs_inbound_compare_spki s) (rs_inbound_compare_issuer s)
    (rs_definitions s).

(** [d.numeric(a) <= 0 || ...]: the next parameter is read only when the test before it failed. *)
Definition or_else (test : result bool) (next : result bool) : result bool :=
  let? b := test in if b : bool then Ok true else next.

Definition numeric_leb0 (d : RuleDefinition) (name : string) : result bool :=
  let? value := numeric d name in Ok (double_leb value (double_of_Z 0)).
Definition numeric_ltb0 (d : RuleDefinition) (name : string) : result bool :=
  let? value := numeric d name in Ok (double_ltb value (double_of_Z 0)).

Definition validate_performance (d : RuleDefinition) (set : RuleSet) : result RuleSet :=
  let? _ := require_category d "performance" in
  let? _ := ensure_parameter_keys d ["rtt_ratio"; "rttvar_ratio"; "retransmission_threshold"; "rtt_weight";
    "rttvar_weight"; "retransmission_weight"; "degraded_threshold"] in
  let? threshold := positive_integer d "retransmission_threshold" in
  let? invalid := or_else (numeric_leb0 d "rtt_ratio") (or_else (numeric_leb0 d "rttvar_ratio")
    (or_else (numeric_ltb0 d "rtt_weight") (or_else (numeric_ltb0 d "rttvar_weight")
    (or_else (numeric_ltb0 d "retransmission_weight") (numeric_leb0 d "degraded_threshold"))))) in
  let? _ := throw_if invalid (rd_id d +:+ " has invalid performance ratios/weights/threshold") in
  if bool_decide (rd_id d = rd_engine_rule_id d) then
    let? rtt_ratio := numeric d "rtt_ratio" in
    let? rttvar_ratio := numeric d "rttvar_ratio" in
    let? threshold := positive_integer d "retransmission_threshold" in
    let? rtt_weight := numeric d "rtt_weight" in
    let? rttvar_weight := numeric d "rttvar_weight" in
    let? retransmission_weight := numeric d "retransmission_weight" in
    let? degraded_threshold := numeric d "degraded_threshold" in
    Ok (set_performance set (rd_enabled d) rtt_ratio rttvar_ratio threshold rtt_weight rttvar_weight
          retransmission_weight degraded_threshold)
  else Ok set.

Definition validate_outbound_trust (d : RuleDefinition) (set : RuleSet) : result RuleSet :=
  let? _ := require_category d "trust" in
  let? _ := ensure_parameter_keys d ["require_chain_valid"; "require_hostname_valid"; "compare_spki"] in
  let? chain := boolean d "require_chain_valid" in
  let? hostname := boolean d "require_hostname_valid" in
  let? spki := boolean d "compare_spki" in
  Ok (if bool_decide (rd_id d = rd_engine_rule_id d) then set_outbound set (rd_enabled d) chain hostname spki else set).

Definition validate_inbound_trust (d : RuleDefinition) (set : RuleSet) : result RuleSet :=
  let? _ := require_category d "trust" in
  let? _ := ensure_parameter_keys d ["require_exact_evidence"; "require_peer_certificate"; "require_peer_authentication";
    "verification_failure_suspicious"; "compare_spki"; "compare_issuer"] in
  let? exact := boolean d "require_exact_evidence" in
  let? certificate := boolean d "require_peer_certificate" in
  let? authentication := boolean d "require_peer_authentication" in
  let? failure := boolean d "verification_failure_suspicious" in
  let? spki := boolean d "compare_spki" in
  let? issuer := boolean d "compare_issuer" in
  Ok (if bool_decide (rd_id d = rd_engine_rule_id d)
      then set_inbound set (rd_enabled d) exact certificate authentication failure spki issuer else set).

(** The checks of the other engines: the category, the parameters the engine may
    have, and each of them read as its type. *)
Definition validate_lists (d : RuleDefinition) (category : string) (names : list string) : result unit :=
  let? _ := require_category d category in
  let? _ := ensure_parameter_keys d names in
  for_each (fun name => let? _ := string_list d name in Ok tt) names.

Definition validate_integers (d : RuleDefinition) (category : string) (names : list string) : result unit :=
  let? _ := require_category d category in
  let? _ := ensure_parameter_keys d names in
  for_each (fun name => let? _ := positive_integer d name in Ok tt) names.

Definition validate_booleans (d : RuleDefinition) (category : string) (names : list string) : result unit :=
  let? _ := require_category d category in
  let? _ := ensure_parameter_keys d names in
  for_each (fun name => let? _ := boolean d name in Ok tt) names.

Definition validate_periodic (d : RuleDefinition) : result unit :=
  let? _ := require_category d "behavior" in
  let? _ := ensure_parameter_keys d ["minimum_connections"; "window_ms"; "minimum_interval_ms"; "maximum_interval_ms";
    "interval_tolerance_ratio"; "minimum_regular_fraction"; "recent_connection_limit"] in
  let? _ := for_each (fun name => let? _ := positive_integer d name in Ok tt)
    ["minimum_connections"; "window_ms"; "minimum_interval_ms"; "maximum_interval_ms"; "recent_connection_limit"] in
  let? _ := fraction d "interval_tolerance_ratio" in
  fraction d "minimum_regular_fraction".

Definition validate_asymmetry (d : RuleDefinition) : result unit :=
  let? _ := require_category d "network" in
  let? _ := ensure_parameter_keys d ["minimum_bytes_sent"; "minimum_sent_to_received_ratio"; "received_bytes_floor"] in
  let? _ := positive_integer d "minimum_bytes_sent" in
  let? ratio := numeric d "minimum_sent_to_received_ratio" in
  let? _ := throw_if (double_leb ratio (double_of_Z 1)) (rd_id d +:+ " minimum_sent_to_received_ratio must be greater than 1") in
  let? _ := positive_integer d "received_bytes_floor" in
  Ok tt.

Definition validate_engine (d : RuleDefinition) (set : RuleSet) : result RuleSet :=
  let e := rd_engine_rule_id d in
  let unchanged (check : result unit) := let? _ := check in Ok set in
  if bool_decide (e = "PERF-001") then validate_performance d set
  else if bool_decide (e = "TRUST-001") then validate_outbound_trust d set
  else if bool_decide (e = "TRUST-002") then validate_inbound_trust d set
  else if bool_decide (e = "PROC-001") then unchanged (validate_lists d "process" ["path_prefixes"; "path_substrings"])
  else if bool_decide (e = "PROC-002") then unchanged (validate_lists d "process" ["shell_names"; "expected_parent_names"])
  else if bool_decide (e = "PROC-003") then unchanged (validate_lists d "process" ["expected_parent_names"])
  else if bool_decide (e = "PROC-004") then unchanged (validate_integers d "process" ["child_count"; "window_ms"])
  else if bool_decide (e = "PROC-005") then unchanged (validate_integers d "process" ["child_count"; "max_lifetime_ms"; "window_ms"])
  else if bool_decide (e = "BEH-001") then unchanged (validate_periodic d)
  else if bool_decide (e = "NET-001") then unchanged (validate_integers d "network" ["minimum_bytes_received"])
  else if bool_decide (e = "NET-002") then unchanged (validate_integers d "network" ["retransmission_threshold"])
  else if bool_decide (e = "NET-003") then unchanged (validate_lists d "network" ["allowed_ports"])
  else if bool_decide (e = "NET-004") then unchanged (validate_integers d "network" ["maximum_prevalence"])
  else if bool_decide (e = "NET-005") then unchanged (validate_asymmetry d)
  else if bool_decide (e = "DNS-001") then unchanged (validate_integers d "dns" ["minimum_failures"])
  else if bool_decide (e = "DNS-002") then unchanged (validate_booleans d "dns" ["require_remote_ip_match"])
  else if bool_decide (e = "DNS-003") then unchanged (validate_integers d "dns" ["maximum_distinct_answers"])
  else if bool_decide (e = "TLS-001") then unchanged (validate_booleans d "tls" ["require_peer_authentication"; "verification_failure_match"])
  else if bool_decide (e = "TLS-002") then unchanged (validate_booleans d "tls" ["compare_spki"; "compare_issuer"])
  else if bool_decide (e = "ROUTE-001") then unchanged (validate_lists d "route" ["allowed_gateways"; "allowed_interfaces"])
  else Throw ("unsupported engine_rule_id: " +:+ e).

(** One turn of the loop over the rules; the ids seen so far are those of the definitions. *)
Definition add_rule (set : RuleSet) (item : JsonValue) : result RuleSet :=
  let? d := parse_definition item (rs_schema_version set) in
  let? _ := throw_if (bool_decide (rd_id d ∈ map rd_id (rs_definitions set))) ("duplicate rule id: " +:+ rd_id d) in
  let? _ := validate_severity d in
  let? _ := throw_if ((rs_schema_version set =? 1) && negb (bool_decide (rd_engine_rule_id d = rd_id d)))
              "schema v1 does not support a distinct engine_rule_id" in
  let? _ := throw_if (negb (bool_decide (rd_id d = rd_engine_rule_id d)) && negb (is_supported_custom_engine (rd_engine_rule_id d)))
              ("unsupported custom trusted engine: " +:+ rd_engine_rule_id d) in
  let? _ := throw_if (negb (bool_decide (rd_id d = rd_engine_rule_id d)) && negb (starts_with "CST-" (rd_id d)))
              "custom centrally managed rule ids must start with CST-" in
  let? set := validate_engine d set in
  Ok (set_definitions set (rs_definitions set ++ [d])).

Fixpoint add_rules (set : RuleSet) (items : list JsonValue) : result RuleSet :=
  match items with
  | [] => Ok set
  | item :: items => let? set := add_rule set item in add_rules set items
  end.

Definition parse_root (root : JsonValue) : result RuleSet :=
  let? _ := ensure_keys root ["schema_version"; "id"; "revision"; "version"; "rules"] "rule set" in
  let? schema_version := require_u64 root "schema_version" in
  let? id := require_string root "id" in
  let? revision := require_u64 root "revision" in
  let? version := require_string root "version" in
  let? _ := throw_if (negb (schema_version =? 1) && negb (schema_version =? 2)) "unsupported rule schema version" in
  let? _ := throw_if (bool_decide (id = "") || (revision =? 0) || bool_decide (version = ""))
              "rule set id/version must be non-empty and revision must be positive" in
  let set := set_identity default_rule_set schema_version id revision version in
  let? rules := json_at root "rules" in
  let? items := as_array rules in
  let? set := add_rules set items in
  let ids := map rd_id (rs_definitions set) in
  let? _ := for_each (fun required => throw_if (negb (bool_decide (required ∈ ids)))
                ("rule set is missing required default rule: " +:+ required)) rm1_default_ids in
  let? _ := throw_if ((schema_version =? 1) && negb (bool_decide ((list_to_set ids : gset string) = list_to_set rm1_default_ids)))
              "schema v1 permits only the RM1 default rule catalog" in
  Ok set.

Definition load_text (text source : string) : result RuleSet :=
  match (let? root := parse text in parse_root root) with
  | Ok set => Ok set
  | Throw what => Throw ("rule set validation failed for " +:+ source +:+ ": " +:+ what)
  end.

(** ** The built-in documents *)

(** The documents hold no apostrophe: they are written with apostrophes for quotes. *)
Definition json_quotes (s : string) : string :=
  string_map (fun c => if code c =? 39 then char_of 34 else c) s.
Definition newline : string := String (char_of 10) "".

Definition rm1_document : string := json_quotes
  ("{'schema_version':1,'id':'neta-default','revision':2,'version':'neta-rules/0.3.0','rules':[" +:+ (newline +:+
  ("{'id':'PERF-001','name':'Network path degradation','category':'performance','severity':'medium','enabled':true,'parameters':{'rtt_ratio':2.0,'rttvar_ratio':2.0,'retransmission_threshold':2,'rtt_weight':0.5,'rttvar_weight':0.2,'retransmission_weight':0.3,'degraded_threshold':0.5}}," +:+ (newline +:+
  ("{'id':'TRUST-001','name':'Outbound TLS identity','category':'trust','severity':'high','enabled':true,'parameters':{'require_chain_valid':true,'require_hostname_valid':true,'compare_spki':true}}," +:+ (newline +:+
  ("{'id':'TRUST-002','name':'Inbound authenticated TLS identity','category':'trust','severity':'high','enabled':true,'parameters':{'require_exact_evidence':true,'require_peer_certificate':true,'require_peer_authentication':true,'verification_failure_suspicious':true,'compare_spki':true,'compare_issuer':true}}," +:+ (newline +:+
  ("{'id':'PROC-001','name':'Execution from transient path','category':'process','severity':'medium','enabled':true,'parameters':{'path_prefixes':['/tmp/','/var/tmp/','/dev/shm/'],'path_substrings':['/appdata/local/temp/','/windows/temp/']}}," +:+ (newline +:+
  ("{'id':'PROC-002','name':'Shell from unexpected parent','category':'process','severity':'medium','enabled':true,'parameters':{'shell_names':['sh','bash','dash','zsh','ksh','fish','powershell','powershell.exe','pwsh','pwsh.exe','cmd','cmd.exe'],'expected_parent_names':['sh','bash','dash','zsh','ksh','fish','powershell','powershell.exe','pwsh','pwsh.exe','cmd','cmd.exe','sshd','sudo','su','login','systemd','init','tmux','screen','gnome-terminal-server','konsole','windowsterminal.exe','wt.exe','conhost.exe','explorer.exe','winlogon.exe']}}," +:+ (newline +:+
  ("{'id':'PROC-003','name':'Unexpected elevation','category':'process','severity':'medium','enabled':true,'parameters':{'expected_parent_names':['sudo','su','pkexec','doas','consent.exe']}}," +:+ (newline +:+
  ("{'id':'PROC-004','name':'Rapid child process fanout','category':'process','severity':'medium','enabled':true,'parameters':{'child_count':6,'window_ms':10000}}," +:+ (newline +:+
  ("{'id':'PROC-005','name':'Short-lived process burst','category':'process','severity':'medium','enabled':true,'parameters':{'child_count':6,'max_lifetime_ms':2000,'window_ms':15000}}]}"))))))))))))))))).

Definition default_document : string := json_quotes
  ("{'schema_version':2,'id':'neta-default','revision':6,'version':'neta-rules/0.6.0','rules':[" +:+ (newline +:+
  ("{'id':'PERF-001','engine_rule_id':'PERF-001','name':'Network path degradation','category':'performance','severity':'medium','enabled':true,'parameters':{'rtt_ratio':2.0,'rttvar_ratio':2.0,'retransmission_threshold':2,'rtt_weight':0.5,'rttvar_weight':0.2,'retransmission_weight':0.3,'degraded_threshold':0.5}}," +:+ (newline +:+
  ("{'id':'TRUST-001','engine_rule_id':'TRUST-001','name':'Outbound TLS identity','category':'trust','severity':'high','enabled':true,'parameters':{'require_chain_valid':true,'require_hostname_valid':true,'compare_spki':true}}," +:+ (newline +:+
  ("{'id':'TRUST-002','engine_rule_id':'TRUST-002','name':'Inbound authenticated TLS identity','category':'trust','severity':'high','enabled':true,'parameters':{'require_exact_evidence':true,'require_peer_certificate':true,'require_peer_authentication':true,'verification_failure_suspicious':true,'compare_spki':true,'compare_issuer':true}}," +:+ (newline +:+
  ("{'id':'PROC-001','engine_rule_id':'PROC-001','name':'Execution from transient path','category':'process','severity':'medium','enabled':true,'parameters':{'path_prefixes':['/tmp/','/var/tmp/','/dev/shm/'],'path_substrings':['/appdata/local/temp/','/windows/temp/']}}," +:+ (newline +:+
  ("{'id':'PROC-002','engine_rule_id':'PROC-002','name':'Shell from unexpected parent','category':'process','severity':'medium','enabled':true,'parameters':{'shell_names':['sh','bash','dash','zsh','ksh','fish','powershell','powershell.exe','pwsh','pwsh.exe','cmd','cmd.exe'],'expected_parent_names':['sh','bash','dash','zsh','ksh','fish','powershell','powershell.exe','pwsh','pwsh.exe','cmd','cmd.exe','sshd','sudo','su','login','systemd','init','tmux','screen','gnome-terminal-server','konsole','windowsterminal.exe','wt.exe','conhost.exe','explorer.exe','winlogon.exe']}}," +:+ (newline +:+
  ("{'id':'PROC-003','engine_rule_id':'PROC-003','name':'Unexpected elevation','category':'process','severity':'medium','enabled':true,'parameters':{'expected_parent_names':['sudo','su','pkexec','doas','consent.exe']}}," +:+ (newline +:+
  ("{'id':'PROC-004','engine_rule_id':'PROC-004','name':'Rapid child process fanout','category':'process','severity':'medium','enabled':true,'parameters':{'child_count':6,'window_ms':10000}}," +:+ (newline +:+
  ("{'id':'PROC-005','engine_rule_id':'PROC-005','name':'Short-lived process burst','category':'process','severity':'medium','enabled':true,'parameters':{'child_count':6,'max_lifetime_ms':2000,'window_ms':15000}}," +:+ (newline +:+
  ("{'id':'BEH-001','engine_rule_id':'BEH-001','name':'Periodic outbound connection pattern','category':'behavior','severity':'medium','enabled':true,'parameters':{'minimum_connections':8,'window_ms':90000,'minimum_interval_ms':3000,'maximum_interval_ms':15000,'interval_tolerance_ratio':0.2,'minimum_regular_fraction':0.8,'recent_connection_limit':512}}," +:+ (newline +:+
  ("{'id':'NET-001','engine_rule_id':'NET-001','name':'Large ingress transfer','category':'network','severity':'low','enabled':true,'parameters':{'minimum_bytes_received':268435456}}," +:+ (newline +:+
  ("{'id':'NET-002','engine_rule_id':'NET-002','name':'TCP retransmission spike','category':'network','severity':'medium','enabled':true,'parameters':{'retransmission_threshold':5}}," +:+ (newline +:+
  ("{'id':'NET-003','engine_rule_id':'NET-003','name':'Unusual outbound destination port','category':'network','severity':'low','enabled':false,'parameters':{'allowed_ports':['22','25','53','80','110','123','143','443','465','587','853','993','995','3389']}}," +:+ (newline +:+
  ("{'id':'NET-004','engine_rule_id':'NET-004','name':'Rare outbound destination','category':'network','severity':'medium','enabled':false,'parameters':{'maximum_prevalence':2}}," +:+ (newline +:+
  ("{'id':'NET-005','engine_rule_id':'NET-005','name':'High outbound transfer asymmetry','category':'network','severity':'low','enabled':true,'parameters':{'minimum_bytes_sent':33554432,'minimum_sent_to_received_ratio':8.0,'received_bytes_floor':65536}}," +:+ (newline +:+
  ("{'id':'DNS-001','engine_rule_id':'DNS-001','name':'Repeated DNS resolution failures','category':'dns','severity':'medium','enabled':true,'parameters':{'minimum_failures':3}}," +:+ (newline +:+
  ("{'id':'DNS-002','engine_rule_id':'DNS-002','name':'DNS answer and connection mismatch','category':'dns','severity':'medium','enabled':true,'parameters':{'require_remote_ip_match':true}}," +:+ (newline +:+
  ("{'id':'DNS-003','engine_rule_id':'DNS-003','name':'DNS answer churn','category':'dns','severity':'low','enabled':false,'parameters':{'maximum_distinct_answers':12}}," +:+ (newline +:+
  ("{'id':'TLS-001','engine_rule_id':'TLS-001','name':'Application TLS validation failure','category':'tls','severity':'high','enabled':true,'parameters':{'require_peer_authentication':true,'verification_failure_match':true}}," +:+ (newline +:+
  ("{'id':'TLS-002','engine_rule_id':'TLS-002','name':'TLS peer identity change','category':'tls','severity':'high','enabled':true,'parameters':{'compare_spki':true,'compare_issuer':true}}," +:+ (newline +:+
  ("{'id':'ROUTE-001','engine_rule_id':'ROUTE-001','name':'Unexpected route gateway or interface','category':'route','severity':'medium','enabled':false,'parameters':{'allowed_gateways':[],'allowed_interfaces':[]}}]}"))))))))))))))))))))))))))))))))))))))))).

Definition built_in : result RuleSet := load_text default_document "built-in default rules".
Definition rm1_built_in : result RuleSet := load_text rm1_document "built-in RM1 default rules".

(** ** The active rule set *)

(** The environment variables and files the loader looks at: the content of a
    readable file, and whether a path exists. *)
Class LoaderEnv := {
  env_get : string -> option string;
  file_content : string -> option string;
  file_exists : string -> bool }.
Context `{LoaderEnv}.

(** [getenv(name)] set and not empty. *)
Definition configured (name : string) : option string :=
  match env_get name with Some v => if bool_decide (v = "") then None else Some v | None => None end.

Definition load_file (path : string) : result RuleSet :=
  match file_content path with
  | None => Throw ("cannot open rule set file: " +:+ path)
  | Some text => load_text text path
  end.

Definition centrally_managed_path : string :=
  match configured "NETA_RULE_STATE_DIR" with
  | Some dir => path_join (path_join dir "rules") "active.json"
  | None => "/var/lib/neta/identity/rules/active.json"
  end.

Definition active : result RuleSet :=
  match configured "NETA_RULE_SET_FILE" with
  | Some path => load_file path
  | None => if file_exists centrally_managed_path then load_file centrally_managed_path else built_in
  end.

End loader.

(** ** Exclusions match without regard to case and separators *)

Definition same_text (a b : string) : Prop := exclusion_normalized a = exclusion_normalized b.

Lemma exclusion_contains_spec values candidate :
  exclusion_contains values candidate = true <->
  candidate <> "" /\ exists value, value ∈ values /\ same_text value candidate.
Proof.
  unfold exclusion_contains, same_text. case_bool_decide as E; [naive_solver|]. rewrite existsb_exists.
  setoid_rewrite bool_decide_eq_true. setoid_rewrite list_elem_of_In. naive_solver.
Qed.

Lemma exclusion_prefix_spec values candidate :
  exclusion_prefix values candidate = true <->
  candidate <> "" /\ exists value rest, value ∈ values /\ value <> "" /\
    exclusion_normalized candidate = exclusion_normalized value +:+ rest.
Proof.
  unfold exclusion_prefix. case_bool_decide as E; [naive_solver|]. rewrite existsb_exists.
  setoid_rewrite andb_true_iff. setoid_rewrite starts_with_spec. setoid_rewrite negb_true_iff.
  setoid_rewrite bool_decide_eq_false. setoid_rewrite <- list_elem_of_In.
  assert (Hn : forall v, exclusion_normalized v = "" <-> v = "") by (intros [|]; done).
  setoid_rewrite Hn. naive_solver.
Qed.

Lemma exclusion_nil candidate : exclusion_contains [] candidate = false /\ exclusion_prefix [] candidate = false.
Proof. unfold exclusion_contains, exclusion_prefix. by case_bool_decide. Qed.

(** The criteria of an exclusion that a connection can meet. *)
Inductive excluded (e : RuleExclusion) (c : ConnectionSummary) (domains : list string) (parent : option string) : Prop :=
| by_comm : exclusion_contains (rx_process_names e) (pi_comm (cs_process c)) = true -> excluded e c domains parent
| by_image : exclusion_contains (rx_process_names e) (process_basename (cs_process c)) = true -> excluded e c domains parent
| by_path : exclusion_contains (rx_executable_paths e) (pi_executable_path (cs_process c)) = true -> excluded e c domains parent
| by_prefix : exclusion_prefix (rx_process_path_prefixes e) (pi_executable_path (cs_process c)) = true -> excluded e c domains parent
| by_user : exclusion_contains (rx_users e) (to_string (pi_uid (cs_process c))) = true -> excluded e c domains parent
| by_parent name : parent = Some name -> exclusion_contains (rx_parent_process_names e) name = true -> excluded e c domains parent
| by_host : exclusion_contains (rx_remote_hosts e) (cs_target_host c) = true -> excluded e c domains parent
| by_ip : exclusion_contains (rx_remote_ips e) (cs_remote_ip c) = true -> excluded e c domains parent
| by_remote_port : exclusion_contains (rx_remote_ports e) (to_string (cs_remote_port c)) = true -> excluded e c domains parent
| by_local_port : exclusion_contains (rx_local_ports e) (to_string (cs_local_port c)) = true -> excluded e c domains parent
| by_domain domain : domain ∈ domains -> exclusion_contains (rx_domains e) domain = true -> excluded e c domains parent
| by_direction direction : direction ∈ rx_directions e ->
    exclusion_normalized direction = string_map tolower (direction_to_string (cs_direction c)) ->
    excluded e c domains parent.

Lemma exclusion_empty_none e : exclusion_empty e = true -> e = no_exclusion.
Proof.
  destruct e as [a b c d f g h i j k l]. unfold exclusion_empty. cbn. intros. to_prop.
  repeat match goal with H : is_empty ?x = true |- _ => destruct x; [clear H|done] end. done.
Qed.

Lemma direction_contains values direction :
  exclusion_contains values
    (match direction with Outbound => "outbound" | Inbound => "inbound" | DirectionUnknown => "unknown" end) = true <->
  exists value, value ∈ values /\ exclusion_normalized value = string_map tolower (direction_to_string direction).
Proof. rewrite exclusion_contains_spec. unfold same_text. destruct direction; cbn; naive_solver. Qed.

(** A rule leaves a connection out exactly when one of its exclusion criteria
    is met: criteria are alternatives, an empty list excludes nothing, text is compared
    without regard to case and path separators, and an unknown field (an empty string)
    meets no criterion. *)
Theorem excludes_connection_exact e c domains parent :
  excludes_connection e c domains parent = true <-> excluded e c domains parent.
Proof.
  unfold excludes_connection. destruct (exclusion_empty e) eqn:E0.
  { apply exclusion_empty_none in E0 as ->. split; [done|].
    intros []; cbn [rx_process_names rx_executable_paths rx_process_path_prefixes rx_parent_process_names rx_users
      rx_remote_hosts rx_remote_ips rx_remote_ports rx_local_ports rx_domains rx_directions no_exclusion] in *;
      first [by match goal with H : _ = true |- _ => rewrite ?(proj1 (exclusion_nil _)), ?(proj2 (exclusion_nil _)) in H end
            |by match goal with H : _ ∈ [] |- _ => apply not_elem_of_nil in H end]. }
  assert (Ite : forall a b : bool, (if a then true else b) = a || b) by (by intros [] []).
  rewrite !Ite, !orb_true_iff, direction_contains, existsb_exists. setoid_rewrite <- list_elem_of_In. split.
  - intros H. destruct_or?; eauto using excluded.
    + destruct parent; [eauto using excluded|done].
    + destruct H as (domain & ? & ?). by apply by_domain with domain.
    + destruct H as (value & ? & ?). by apply by_direction with value.
  - intros []; subst; tauto || eauto 20.
Qed.
