(* ===== verification/RulesValid.v ===== *)
(** What the rule-set loader accepts.

    [engine_table] is the catalog of the engines as data: the category and the typed
    parameters of each.  The theorems: the loader's check of a rule is that table
    ([validate_engine_exact]); a rule set it accepts has unique ids, the default
    catalog, a fitting schema for every rule, and settings that are those of its rules
    ([load_text_valid]); the built-in documents load and give the defaults of the struct
    ([built_in_defaults]); integer parameters are in range up to one value
    ([integer_parameter_range]). *)

From S2P Require Import Prelude Text StringMap Doubles Json Model Rules.

#[local] Arguments String.append !_ _ /.

(** ** What the loader accepts *)

(** The parameters of an engine and what each must be. *)
Inductive ParameterKind := PositiveInteger | Positive | NonNegative | AboveOne | Fraction | Flag | Texts.
#[global] Instance ParameterKind_eq_dec : EqDecision ParameterKind.
Proof. solve_decision. Defined.

Definition is_positive_integer (v : spec_float) : Prop :=
  isfinite v = true /\ double_leb v (double_of_Z 0) = false /\ double_eqb (double_floor v) v = true /\
  double_gtb v double_u64_max = false.

Definition parameter_ok (d : RuleDefinition) (name : string) (kind : ParameterKind) : Prop :=
  match kind with
  | PositiveInteger => exists v, map_find (rd_numeric_parameters d) name = Some v /\ is_positive_integer v
  | Positive => exists v, map_find (rd_numeric_parameters d) name = Some v /\ double_leb v (double_of_Z 0) = false
  | NonNegative => exists v, map_find (rd_numeric_parameters d) name = Some v /\ double_ltb v (double_of_Z 0) = false
  | AboveOne => exists v, map_find (rd_numeric_parameters d) name = Some v /\ double_leb v (double_of_Z 1) = false
  | Fraction => exists v, map_find (rd_numeric_parameters d) name = Some v /\ isfinite v = true /\
                  double_ltb v (double_of_Z 0) = false /\ double_gtb v (double_of_Z 1) = false
  | Flag => is_Some (map_find (rd_boolean_parameters d) name)
  | Texts => is_Some (map_find (rd_string_list_parameters d) name)
  end.

(** The engines: category and parameters. *)
Definition engine_table : list (string * (string * list (string * ParameterKind))) :=
  [("PERF-001", ("performance", [("rtt_ratio", Positive); ("rttvar_ratio", Positive);
      ("retransmission_threshold", PositiveInteger); ("rtt_weight", NonNegative); ("rttvar_weight", NonNegative);
      ("retransmission_weight", NonNegative); ("degraded_threshold", Positive)]));
   ("TRUST-001", ("trust", [("require_chain_valid", Flag); ("require_hostname_valid", Flag); ("compare_spki", Flag)]));
   ("TRUST-002", ("trust", [("require_exact_evidence", Flag); ("require_peer_certificate", Flag);
      ("require_peer_authentication", Flag); ("verification_failure_suspicious", Flag); ("compare_spki", Flag);
      ("compare_issuer", Flag)]));
   ("PROC-001", ("process", [("path_prefixes", Texts); ("path_substrings", Texts)]));
   ("PROC-002", ("process", [("shell_names", Texts); ("expected_parent_names", Texts)]));
   ("PROC-003", ("process", [("expected_parent_names", Texts)]));
   ("PROC-004", ("process", [("child_count", PositiveInteger); ("window_ms", PositiveInteger)]));
   ("PROC-005", ("process", [("child_count", PositiveInteger); ("max_lifetime_ms", PositiveInteger);
      ("window_ms", PositiveInteger)]));
   ("BEH-001", ("behavior", [("minimum_connections", PositiveInteger); ("window_ms", PositiveInteger);
      ("minimum_interval_ms", PositiveInteger); ("maximum_interval_ms", PositiveInteger);
      ("interval_tolerance_ratio", Fraction); ("minimum_regular_fraction", Fraction);
      ("recent_connection_limit", PositiveInteger)]));
   ("NET-001", ("network", [("minimum_bytes_received", PositiveInteger)]));
   ("NET-002", ("network", [("retransmission_threshold", PositiveInteger)]));
   ("NET-003", ("network", [("allowed_ports", Texts)]));
   ("NET-004", ("network", [("maximum_prevalence", PositiveInteger)]));
   ("NET-005", ("network", [("minimum_bytes_sent", PositiveInteger); ("minimum_sent_to_received_ratio", AboveOne);
      ("received_bytes_floor", PositiveInteger)]));
   ("DNS-001", ("dns", [("minimum_failures", PositiveInteger)]));
   ("DNS-002", ("dns", [("require_remote_ip_match", Flag)]));
   ("DNS-003", ("dns", [("maximum_distinct_answers", PositiveInteger)]));
   ("TLS-001", ("tls", [("require_peer_authentication", Flag); ("verification_failure_match", Flag)]));
   ("TLS-002", ("tls", [("compare_spki", Flag); ("compare_issuer", Flag)]));
   ("ROUTE-001", ("route", [("allowed_gateways", Texts); ("allowed_interfaces", Texts)]))].

Definition parameter_names (d : RuleDefinition) : list string :=
  map fst (rd_numeric_parameters d) ++ map fst (rd_boolean_parameters d) ++
  map fst (rd_string_parameters d) ++ map fst (rd_string_list_parameters d).

(** [d] has the category and exactly the parameters of the schema. *)
Definition fits (d : RuleDefinition) (schema : string * list (string * ParameterKind)) : Prop :=
  rd_category d = schema.1 /\ Forall (fun '(name, kind) => parameter_ok d name kind) schema.2 /\
  forall name, name ∈ parameter_names d -> name ∈ map fst schema.2.

(** The rule fits the schema of its engine. *)
Definition params_valid (d : RuleDefinition) : Prop :=
  exists schema, map_find engine_table (rd_engine_rule_id d) = Some schema /\ fits d schema.

Lemma for_each_ok {A} (f : A -> result unit) l : for_each f l = Ok tt <-> Forall (fun a => f a = Ok tt) l.
Proof.
  induction l as [|a l IH]; cbn; [naive_solver|]. rewrite Forall_cons, <- IH, rbind_ok.
  split; [intros ([] & ? & ?)|intros [? ?]; exists tt]; done.
Qed.

Lemma ok_tt (r : result unit) : is_ok r = true <-> r = Ok tt.
Proof. destruct r as [[]|]; naive_solver. Qed.

Lemma is_ok_bind {A B} (r : result A) (k : A -> result B) :
  is_ok (rbind r k) = true <-> exists a, r = Ok a /\ is_ok (k a) = true.
Proof. destruct r; naive_solver. Qed.

Section validate.
Context `{CastUndefined}.

Lemma require_category_ok d c : require_category d c = Ok tt <-> rd_category d = c.
Proof. unfold require_category. rewrite throw_if_ok. case_bool_decide; naive_solver. Qed.

Lemma ensure_parameter_keys_ok d allowed :
  ensure_parameter_keys d allowed = Ok tt <-> forall name, name ∈ parameter_names d -> name ∈ allowed.
Proof.
  unfold ensure_parameter_keys, parameter_names.
  assert (K : forall l, for_each (fun key => throw_if (negb (bool_decide (key ∈ allowed)))
      (rd_id d +:+ " contains unsupported parameter: " +:+ key)) l = Ok tt <-> forall name, name ∈ l -> name ∈ allowed).
  { intros l. rewrite for_each_ok, Forall_forall. setoid_rewrite throw_if_ok. setoid_rewrite negb_false_iff.
    by setoid_rewrite bool_decide_eq_true. }
  setoid_rewrite elem_of_app. setoid_rewrite elem_of_app. setoid_rewrite elem_of_app.
  rewrite rbind_ok. setoid_rewrite rbind_ok. setoid_rewrite rbind_ok.
  split.
  - intros ([] & H1 & [] & H2 & [] & H3 & H4). rewrite K in H1, H2, H3, H4. naive_solver.
  - intros Hall. exists tt. rewrite K. split; [auto|]. exists tt. rewrite K. split; [auto|]. exists tt.
    rewrite !K. split; auto 10.
Qed.

Lemma numeric_ok d name v : numeric d name = Ok v <-> map_find (rd_numeric_parameters d) name = Some v.
Proof. unfold numeric, lookup_parameter. destruct (map_find _ _); naive_solver. Qed.

Lemma positive_integer_ok d name z :
  positive_integer d name = Ok z <->
  exists v, map_find (rd_numeric_parameters d) name = Some v /\ is_positive_integer v /\ z = cast_u64 v.
Proof.
  unfold positive_integer, numeric, lookup_parameter, is_positive_integer.
  destruct (map_find _ _) as [v|]; cbn [rbind]; [|naive_solver].
  destruct (_ || _) eqn:E; cbn [throw_if rbind].
  - split; [done|]. intros (? & [= <-] & (A & B & C & D) & _). by rewrite A, B, C, D in E.
  - to_prop. split; [intros [= <-]; by exists v|by intros (? & [= <-] & _ & ->)].
Qed.

(** Each kind of parameter is read as such. *)
Lemma read_integer d name :
  (let? _ := positive_integer d name in Ok tt) = Ok tt <-> parameter_ok d name PositiveInteger.
Proof.
  rewrite rbind_ok. setoid_rewrite positive_integer_ok. cbn. naive_solver.
Qed.

Lemma read_flag d name : (let? _ := boolean d name in Ok tt) = Ok tt <-> parameter_ok d name Flag.
Proof. unfold boolean, lookup_parameter. cbn. destruct (map_find _ _); cbn; naive_solver. Qed.

Lemma read_texts d name : (let? _ := string_list d name in Ok tt) = Ok tt <-> parameter_ok d name Texts.
Proof. unfold string_list, lookup_parameter. cbn. destruct (map_find _ _); cbn; naive_solver. Qed.

Lemma validate_names_ok d (read : string -> result unit) kind category names :
  (forall name, read name = Ok tt <-> parameter_ok d name kind) ->
  (let? _ := require_category d category in let? _ := ensure_parameter_keys d names in for_each read names) = Ok tt <->
  fits d (category, map (fun name => (name, kind)) names).
Proof.
  intros Hread. unfold fits. cbn. rewrite map_map. cbn. rewrite map_id, Forall_map.
  rewrite rbind_ok. setoid_rewrite rbind_ok.
  assert (K : for_each read names = Ok tt <-> Forall (fun name => parameter_ok d name kind) names).
  { rewrite for_each_ok. apply Forall_proper; [|done]. intros name. apply Hread. }
  split.
  - intros ([] & H1 & [] & H2 & H3). rewrite require_category_ok in H1. rewrite ensure_parameter_keys_ok in H2.
    rewrite K in H3. split_and!; done.
  - intros (H1 & H2 & H3). exists tt. rewrite require_category_ok. split; [done|]. exists tt.
    rewrite ensure_parameter_keys_ok, K. done.
Qed.

Lemma or_else_false a b : or_else a b = Ok false <-> a = Ok false /\ b = Ok false.
Proof. unfold or_else. destruct a as [[]|]; cbn; naive_solver. Qed.

Lemma numeric_test d name (f : spec_float -> bool) :
  (let? v := numeric d name in Ok (f v)) = Ok false <->
  exists v, map_find (rd_numeric_parameters d) name = Some v /\ f v = false.
Proof.
  unfold numeric, lookup_parameter. destruct (map_find _ _) as [v|]; cbn [rbind]; [|naive_solver].
  split; [intros [= E]; by exists v|by intros (? & [= <-] & ->)].
Qed.

Lemma numeric_leb0_false d name : numeric_leb0 d name = Ok false <-> parameter_ok d name Positive.
Proof. exact (numeric_test d name _). Qed.

Lemma numeric_ltb0_false d name : numeric_ltb0 d name = Ok false <-> parameter_ok d name NonNegative.
Proof. exact (numeric_test d name _). Qed.

Lemma fraction_ok d name : fraction d name = Ok tt <-> parameter_ok d name Fraction.
Proof.
  unfold fraction, numeric, lookup_parameter, parameter_ok.
  destruct (map_find _ _) as [v|]; cbn [rbind]; [|naive_solver].
  rewrite throw_if_ok, !orb_false_iff, negb_false_iff.
  split; [intros [[] ?]; by exists v|by intros (? & [= <-] & ? & ? & ?)].
Qed.

(** The category and key checks at the head of every engine. *)
Lemma head_ok {A} d category names (k : result A) :
  is_ok (let? _ := require_category d category in let? _ := ensure_parameter_keys d names in k) = true <->
  rd_category d = category /\ (forall name, name ∈ parameter_names d -> name ∈ names) /\ is_ok k = true.
Proof.
  rewrite is_ok_bind. setoid_rewrite is_ok_bind. split.
  - intros ([] & H1 & [] & H2 & H3). by rewrite require_category_ok in H1; rewrite ensure_parameter_keys_ok in H2.
  - intros (H1 & H2 & H3). exists tt. rewrite require_category_ok. split; [done|]. exists tt.
    by rewrite ensure_parameter_keys_ok.
Qed.

Lemma is_ok_unit_bind {A} (r : result unit) (k : result A) :
  is_ok (let? _ := r in k) = true <-> r = Ok tt /\ is_ok k = true.
Proof. destruct r as [[]|]; naive_solver. Qed.

Lemma is_ok_integer d name {A} (k : Z -> result A) :
  (forall z, is_ok (k z) = is_ok (k 0)) ->
  is_ok (let? z := positive_integer d name in k z) = true <-> parameter_ok d name PositiveInteger /\ is_ok (k 0) = true.
Proof.
  intros Hk. rewrite is_ok_bind. setoid_rewrite positive_integer_ok. setoid_rewrite Hk. cbn. naive_solver.
Qed.

Lemma numeric_of d name kind :
  parameter_ok d name kind -> kind <> Flag -> kind <> Texts -> exists v, numeric d name = Ok v.
Proof. intros Hp H1 H2. setoid_rewrite numeric_ok. destruct kind; cbn in Hp; naive_solver. Qed.

(** The schema of an engine of the table. *)
Definition schema_of (engine : string) : string * list (string * ParameterKind) :=
  default ("", []) (map_find engine_table engine).

(** Unfold the schema of a known engine into a conjunction. *)
Ltac open_schema :=
  unfold fits;
  match goal with |- context [schema_of ?e] =>
    let s := eval vm_compute in (schema_of e) in change (schema_of e) with s end;
  cbn [fst snd map]; rewrite ?Forall_cons, ?Forall_nil_iff.

Lemma validate_performance_ok d set : is_ok (validate_performance d set) = true <-> fits d (schema_of "PERF-001").
Proof.
  unfold validate_performance. rewrite head_ok, is_ok_integer by done. open_schema.
  set (tests := or_else _ _).
  assert (T : tests = Ok false <-> parameter_ok d "rtt_ratio" Positive /\ parameter_ok d "rttvar_ratio" Positive /\
    parameter_ok d "rtt_weight" NonNegative /\ parameter_ok d "rttvar_weight" NonNegative /\
    parameter_ok d "retransmission_weight" NonNegative /\ parameter_ok d "degraded_threshold" Positive).
  { unfold tests. by rewrite !or_else_false, !numeric_leb0_false, !numeric_ltb0_false. }
  split.
  - intros (Hc & Hkeys & Hint & Hrest). apply is_ok_bind in Hrest as ([] & Ht & Hrest); [done|].
    apply T in Ht. tauto.
  - intros (Hc & Hp & Hkeys). split_and!; [done|done|tauto|].
    assert (Ht : tests = Ok false) by (apply T; tauto). rewrite Ht. cbn [rbind throw_if].
    destruct (bool_decide _); [|done].
    destruct (numeric_of d "rtt_ratio" Positive) as [? ->]; [tauto|done..|].
    destruct (numeric_of d "rttvar_ratio" Positive) as [? ->]; [tauto|done..|].
    destruct (numeric_of d "rtt_weight" NonNegative) as [? ->]; [tauto|done..|].
    destruct (numeric_of d "rttvar_weight" NonNegative) as [? ->]; [tauto|done..|].
    destruct (numeric_of d "retransmission_weight" NonNegative) as [? ->]; [tauto|done..|].
    destruct (numeric_of d "degraded_threshold" Positive) as [? ->]; [tauto|done..|].
    cbn [rbind]. apply is_ok_integer; [done|]. split; [tauto|done].
Qed.

Lemma is_ok_flag d name {A} (k : bool -> result A) :
  (forall b, is_ok (k b) = is_ok (k true)) ->
  is_ok (let? b := boolean d name in k b) = true <-> parameter_ok d name Flag /\ is_ok (k true) = true.
Proof.
  intros Hk. unfold boolean, lookup_parameter. cbn [parameter_ok].
  destruct (map_find _ _) as [b|]; cbn [rbind]; [rewrite (Hk b)|]; naive_solver.
Qed.

(** Whether the later flags can be read does not depend on the value of this one. *)
Ltac flags_read := intros ?; repeat (destruct (boolean _ _); [cbn [rbind]|done]); done.

Lemma validate_outbound_ok d set : is_ok (validate_outbound_trust d set) = true <-> fits d (schema_of "TRUST-001").
Proof.
  unfold validate_outbound_trust. rewrite head_ok, !is_ok_flag by flags_read. open_schema. cbn [is_ok]. tauto.
Qed.

Lemma validate_inbound_ok d set : is_ok (validate_inbound_trust d set) = true <-> fits d (schema_of "TRUST-002").
Proof.
  unfold validate_inbound_trust. rewrite head_ok, !is_ok_flag by flags_read. open_schema. cbn [is_ok]. tauto.
Qed.

Lemma validate_periodic_ok d : is_ok (validate_periodic d) = true <-> fits d (schema_of "BEH-001").
Proof.
  unfold validate_periodic. rewrite head_ok, is_ok_unit_bind, for_each_ok, !Forall_cons, Forall_nil_iff, !read_integer.
  rewrite is_ok_unit_bind, ok_tt, !fraction_ok. open_schema. tauto.
Qed.

Lemma validate_asymmetry_ok d : is_ok (validate_asymmetry d) = true <-> fits d (schema_of "NET-005").
Proof.
  unfold validate_asymmetry. rewrite head_ok, is_ok_integer by done. open_schema.
  assert (K : is_ok (let? ratio := numeric d "minimum_sent_to_received_ratio" in
      let? _ := throw_if (double_leb ratio (double_of_Z 1)) (rd_id d +:+ " minimum_sent_to_received_ratio must be greater than 1") in
      let? _ := positive_integer d "received_bytes_floor" in Ok tt) = true <->
    parameter_ok d "minimum_sent_to_received_ratio" AboveOne /\ parameter_ok d "received_bytes_floor" PositiveInteger).
  { rewrite is_ok_bind. setoid_rewrite numeric_ok. setoid_rewrite is_ok_unit_bind. setoid_rewrite throw_if_ok.
    setoid_rewrite is_ok_integer; [|done]. cbn [parameter_ok is_ok]. naive_solver. }
  rewrite K. tauto.
Qed.

Lemma unchanged_ok (check : result unit) (set : RuleSet) :
  is_ok (let? _ := check in Ok set) = true <-> check = Ok tt.
Proof. destruct check as [[]|]; naive_solver. Qed.

Lemma validate_lists_ok d category names :
  validate_lists d category names = Ok tt <-> fits d (category, map (fun name => (name, Texts)) names).
Proof. apply validate_names_ok. apply read_texts. Qed.

Lemma validate_integers_ok d category names :
  validate_integers d category names = Ok tt <-> fits d (category, map (fun name => (name, PositiveInteger)) names).
Proof. apply validate_names_ok. apply read_integer. Qed.

Lemma validate_booleans_ok d category names :
  validate_booleans d category names = Ok tt <-> fits d (category, map (fun name => (name, Flag)) names).
Proof. apply validate_names_ok. apply read_flag. Qed.

Lemma table_schema d e schema :
  rd_engine_rule_id d = e -> map_find engine_table e = Some schema -> params_valid d <-> fits d schema.
Proof. intros <- E. unfold params_valid. rewrite E. naive_solver. Qed.

(** The check of one rule: it passes exactly when the rule's engine is in the
    table and the rule has that engine's category and parameters, each of its kind, and
    no other parameter. *)
Lemma validate_engine_ok d set : is_ok (validate_engine d set) = true <-> params_valid d.
Proof.
  unfold validate_engine.
  repeat match goal with
  | |- is_ok (if bool_decide (?x = ?e) then _ else _) = true <-> _ =>
      destruct (bool_decide_reflect (x = e)) as [E|?];
      [rewrite (table_schema d e (schema_of e) E ltac:(vm_compute; reflexivity)); clear -E|]
  end;
  [apply validate_performance_ok|apply validate_outbound_ok|apply validate_inbound_ok|..];
  rewrite ?unchanged_ok.
  all: try (first [rewrite validate_lists_ok|rewrite validate_integers_ok|rewrite validate_booleans_ok]; reflexivity).
  all: try (rewrite <- ok_tt; first [apply validate_periodic_ok|apply validate_asymmetry_ok]).
  cbn [is_ok]. split; [done|]. intros (schema & Hf & _). exfalso.
  unfold engine_table in Hf. cbn [map_find] in Hf.
  repeat (rewrite bool_decide_eq_false_2 in Hf by congruence). done.
Qed.

End validate.

(** ** The settings of a loaded set *)

Section load.
Context `{CastUndefined}.

(** The fields of the set that a default rule determines. *)
Definition performance_agrees (d : RuleDefinition) (set : RuleSet) : Prop :=
  rs_performance_enabled set = rd_enabled d /\
  numeric d "rtt_ratio" = Ok (rs_rtt_ratio set) /\ numeric d "rttvar_ratio" = Ok (rs_rttvar_ratio set) /\
  positive_integer d "retransmission_threshold" = Ok (rs_retransmission_threshold set) /\
  numeric d "rtt_weight" = Ok (rs_rtt_weight set) /\ numeric d "rttvar_weight" = Ok (rs_rttvar_weight set) /\
  numeric d "retransmission_weight" = Ok (rs_retransmission_weight set) /\
  numeric d "degraded_threshold" = Ok (rs_degraded_threshold set).

Definition outbound_agrees (d : RuleDefinition) (set : RuleSet) : Prop :=
  rs_outbound_tls_identity set = rd_enabled d /\
  boolean d "require_chain_valid" = Ok (rs_outbound_require_chain_valid set) /\
  boolean d "require_hostname_valid" = Ok (rs_outbound_require_hostname_valid set) /\
  boolean d "compare_spki" = Ok (rs_outbound_compare_spki set).

Definition inbound_agrees (d : RuleDefinition) (set : RuleSet) : Prop :=
  rs_inbound_authenticated_identity set = rd_enabled d /\
  boolean d "require_exact_evidence" = Ok (rs_inbound_require_exact_evidence set) /\
  boolean d "require_peer_certificate" = Ok (rs_inbound_require_peer_certificate set) /\
  boolean d "require_peer_authentication" = Ok (rs_inbound_require_peer_authentication set) /\
  boolean d "verification_failure_suspicious" = Ok (rs_inbound_verification_failure_suspicious set) /\
  boolean d "compare_spki" = Ok (rs_inbound_compare_spki set) /\
  boolean d "compare_issuer" = Ok (rs_inbound_compare_issuer set).

Definition settings_agree (set : RuleSet) (d : RuleDefinition) : Prop :=
  (rd_id d = "PERF-001" -> performance_agrees d set) /\
  (rd_id d = "TRUST-001" -> outbound_agrees d set) /\
  (rd_id d = "TRUST-002" -> inbound_agrees d set).

Definition same_identity (set set' : RuleSet) : Prop :=
  rs_id set' = rs_id set /\ rs_revision set' = rs_revision set /\ rs_schema_version set' = rs_schema_version set /\
  rs_version set' = rs_version set /\ rs_definitions set' = rs_definitions set.

(** How the check of a rule changes the set: only the fields of its own default. *)
Definition engine_effect (d : RuleDefinition) (set set' : RuleSet) : Prop :=
  same_identity set set' /\ (rd_id d = rd_engine_rule_id d -> settings_agree set' d) /\
  forall d', rd_id d' <> rd_id d -> settings_agree set d' -> settings_agree set' d'.

Lemma unchanged_effect d set :
  rd_engine_rule_id d <> "PERF-001" -> rd_engine_rule_id d <> "TRUST-001" -> rd_engine_rule_id d <> "TRUST-002" ->
  engine_effect d set set.
Proof. intros H1 H2 H3. split; [done|]. split; [|done]. intros E. split_and!; congruence. Qed.

Lemma custom_effect d set : rd_id d <> rd_engine_rule_id d -> engine_effect d set set.
Proof. intros Hne. split; [done|]. by split. Qed.

Lemma performance_effect d set set' :
  rd_engine_rule_id d = "PERF-001" -> validate_performance d set = Ok set' -> engine_effect d set set'.
Proof.
  intros He E. unfold validate_performance in E. do 5 (apply rbind_ok in E as (? & _ & E)).
  case_bool_decide as Hid; [|injection E as <-; by apply custom_effect].
  repeat (apply rbind_ok in E as (? & ? & E)). injection E as <-. split; [done|]. split.
  - intros _. split_and!; [|congruence..]. intros _. by split_and!.
  - intros d' Hd' (Sp & So & Si). split_and!; [congruence|exact So|exact Si].
Qed.

Lemma outbound_effect d set set' :
  rd_engine_rule_id d = "TRUST-001" -> validate_outbound_trust d set = Ok set' -> engine_effect d set set'.
Proof.
  intros He E. unfold validate_outbound_trust in E. repeat (apply rbind_ok in E as (? & ? & E)). injection E as <-.
  case_bool_decide as Hid; [|by apply custom_effect]. split; [done|]. split.
  - intros _. split_and!; [congruence| |congruence]. intros _. by split_and!.
  - intros d' Hd' (Sp & So & Si). split_and!; [exact Sp|congruence|exact Si].
Qed.

Lemma inbound_effect d set set' :
  rd_engine_rule_id d = "TRUST-002" -> validate_inbound_trust d set = Ok set' -> engine_effect d set set'.
Proof.
  intros He E. unfold validate_inbound_trust in E. repeat (apply rbind_ok in E as (? & ? & E)). injection E as <-.
  case_bool_decide as Hid; [|by apply custom_effect]. split; [done|]. split.
  - intros _. split_and!; [congruence..|]. intros _. by split_and!.
  - intros d' Hd' (Sp & So & Si). split_and!; [exact Sp|exact So|congruence].
Qed.

Lemma validate_engine_effect d set set' : validate_engine d set = Ok set' -> engine_effect d set set'.
Proof.
  unfold validate_engine.
  destruct (bool_decide_reflect (rd_engine_rule_id d = "PERF-001")) as [E|H1]; [by apply performance_effect|].
  destruct (bool_decide_reflect (rd_engine_rule_id d = "TRUST-001")) as [E|H2]; [by apply outbound_effect|].
  destruct (bool_decide_reflect (rd_engine_rule_id d = "TRUST-002")) as [E|H3]; [by apply inbound_effect|].
  intros E. assert (set' = set) as ->; [|by apply unchanged_effect].
  repeat match type of E with
  | (if bool_decide ?P then _ else _) = _ => destruct (bool_decide P); [by apply rbind_ok in E as (? & _ & [= ->])|]
  end. done.
Qed.

(** ** Loaded sets *)

Definition rule_valid (schema_version : Z) (d : RuleDefinition) : Prop :=
  rd_id d <> "" /\ rd_name d <> "" /\ rd_severity d ∈ ["low"; "medium"; "high"] /\ params_valid d /\
  (rd_id d = rd_engine_rule_id d \/ schema_version = 2 /\ exists suffix, rd_id d = "CST-" +:+ suffix).

Record rule_set_valid (set : RuleSet) : Prop := {
  valid_schema : rs_schema_version set = 1 \/ rs_schema_version set = 2;
  valid_named : rs_id set <> "" /\ rs_version set <> "";
  valid_revision : rs_revision set <> 0;
  valid_unique : NoDup (map rd_id (rs_definitions set));
  valid_rules : Forall (rule_valid (rs_schema_version set)) (rs_definitions set);
  valid_settings : Forall (settings_agree set) (rs_definitions set);
  valid_catalog : forall id, id ∈ rm1_default_ids -> id ∈ map rd_id (rs_definitions set);
  valid_v1 : rs_schema_version set = 1 -> forall id, id ∈ map rd_id (rs_definitions set) -> id ∈ rm1_default_ids }.

Definition rule_head (d : RuleDefinition) : string * string * string * string * string * bool :=
  (rd_id d, rd_engine_rule_id d, rd_name d, rd_category d, rd_severity d, rd_enabled d).

Lemma add_parameters_head d parameters d' : add_parameters d parameters = Ok d' -> rule_head d' = rule_head d.
Proof.
  revert d. induction parameters as [|[key p] parameters IH]; intros d; cbn; [by intros [= ->]|].
  intros E. apply rbind_ok in E as (d1 & E1 & E2). rewrite (IH _ E2). clear E2 IH.
  destruct d, p; cbn in E1; try done; [by injection E1 as <-..|]. by apply rbind_ok in E1 as (v & _ & [= <-]).
Qed.

Lemma with_exclude_head d e : rule_head (with_exclude d e) = rule_head d.
Proof. by destruct d. Qed.

Lemma parse_definition_named v schema_version d :
  parse_definition v schema_version = Ok d -> rd_id d <> "" /\ rd_name d <> "".
Proof.
  unfold parse_definition. intros E. apply rbind_ok in E as (? & _ & E).
  apply rbind_ok in E as (id & _ & E). apply rbind_ok in E as (engine & _ & E).
  apply rbind_ok in E as (name & _ & E). apply rbind_ok in E as (category & _ & E).
  apply rbind_ok in E as (severity & _ & E). apply rbind_ok in E as (enabled & _ & E).
  apply rbind_ok in E as ([] & Hne & E). apply throw_if_ok in Hne. to_prop.
  apply rbind_ok in E as (parameters & _ & E). apply rbind_ok in E as (d1 & Hp & E).
  set (d0 := MkRule _ _ _ _ _ _ _ _ _ _ _) in *.
  assert (Hh1 : rule_head d1 = rule_head d0).
  { destruct parameters as [p|]; [|by injection Hp as <-]. apply rbind_ok in Hp as (ms & _ & Hp).
    by eapply add_parameters_head. }
  assert (Hh2 : rule_head d = rule_head d1).
  { destruct (2 <=? schema_version); [|by injection E as <-]. apply rbind_ok in E as (item & _ & E).
    destruct item as [item|]; [|by injection E as <-]. apply rbind_ok in E as (ex & _ & [= <-]). apply with_exclude_head. }
  rewrite Hh1 in Hh2. by injection Hh2 as -> _ -> _ _ _.
Qed.

(** The part of the invariant that holds during the loop over the rules. *)
Definition loading (set : RuleSet) : Prop :=
  NoDup (map rd_id (rs_definitions set)) /\ Forall (rule_valid (rs_schema_version set)) (rs_definitions set) /\
  Forall (settings_agree set) (rs_definitions set).

Lemma add_rule_valid set item set' :
  rs_schema_version set = 1 \/ rs_schema_version set = 2 -> loading set -> add_rule set item = Ok set' ->
  loading set' /\ rs_id set' = rs_id set /\ rs_revision set' = rs_revision set /\
  rs_schema_version set' = rs_schema_version set /\ rs_version set' = rs_version set.
Proof.
  intros Hschema (Hu & Hr & Hs) E. unfold add_rule in E.
  apply rbind_ok in E as (d & Hd & E). apply rbind_ok in E as ([] & Hdup & E).
  apply rbind_ok in E as ([] & Hsev & E). apply rbind_ok in E as ([] & Hv1 & E).
  apply rbind_ok in E as ([] & Hengine & E). apply rbind_ok in E as ([] & Hcst & E).
  apply rbind_ok in E as (set1 & Hval & E). injection E as <-.
  apply throw_if_ok in Hdup, Hv1, Hcst. apply bool_decide_eq_false in Hdup.
  apply parse_definition_named in Hd as [Hid Hname].
  assert (Hparams : params_valid d) by (apply (validate_engine_ok d set); by rewrite Hval).
  apply validate_engine_effect in Hval as ((I1 & I2 & I3 & I4 & I5) & Hown & Hother).
  assert (Hrule : rule_valid (rs_schema_version set) d).
  { split_and!; [done..| |done|].
    - unfold validate_severity in Hsev. apply throw_if_ok in Hsev. rewrite !elem_of_cons.
      repeat case_bool_decide; try done; tauto.
    - destruct (decide (rd_id d = rd_engine_rule_id d)) as [|Hne]; [by left|right].
      rewrite !bool_decide_eq_false_2 in Hv1, Hcst by congruence. cbn in Hv1, Hcst. rewrite andb_true_r in Hv1.
      apply negb_false_iff in Hcst. apply starts_with_spec in Hcst. to_prop. naive_solver lia. }
  unfold loading. cbn [rs_definitions set_definitions rs_schema_version]. rewrite I3, I5.
  split_and!; [|by apply Forall_app_2; [|constructor]| |done..].
  - rewrite map_app. cbn. apply NoDup_app. split_and!; [done|set_solver|apply NoDup_singleton].
  - apply Forall_app. split.
    + rewrite Forall_forall in Hs |- *. intros d' Hd'. apply (Hother d'); [|by apply Hs].
      intros Heq. apply Hdup. rewrite <- Heq. apply list_elem_of_fmap_2, Hd'.
    + constructor; [|done]. destruct Hrule as (_ & _ & _ & _ & [Heq|[_ [suffix Heq]]]); [by apply Hown|].
      unfold settings_agree. split_and!; intros Habs; rewrite Heq in Habs; done.
Qed.

Lemma add_rules_valid set items set' :
  rs_schema_version set = 1 \/ rs_schema_version set = 2 -> loading set -> add_rules set items = Ok set' ->
  loading set' /\ rs_id set' = rs_id set /\ rs_revision set' = rs_revision set /\
  rs_schema_version set' = rs_schema_version set /\ rs_version set' = rs_version set.
Proof.
  revert set. induction items as [|item items IH]; intros set Hschema Hl; cbn; [by intros [= <-]|].
  intros E. apply rbind_ok in E as (set1 & E1 & E2).
  destruct (add_rule_valid _ _ _ Hschema Hl E1) as (Hl1 & ? & ? & Hs1 & ?). rewrite <- Hs1 in Hschema.
  destruct (IH set1 Hschema Hl1 E2) as (? & ? & ? & ? & ?). split_and!; [done|congruence..].
Qed.

Lemma parse_root_valid root set : parse_root root = Ok set -> rule_set_valid set.
Proof.
  unfold parse_root. intros E. apply rbind_ok in E as (? & _ & E). apply rbind_ok in E as (schema & _ & E).
  apply rbind_ok in E as (id & _ & E). apply rbind_ok in E as (revision & _ & E).
  apply rbind_ok in E as (version & _ & E). apply rbind_ok in E as ([] & Hschema & E).
  apply rbind_ok in E as ([] & Hne & E). apply rbind_ok in E as (rules & _ & E).
  apply rbind_ok in E as (items & _ & E). apply rbind_ok in E as (set1 & Hrules & E).
  apply rbind_ok in E as ([] & Hcat & E). apply rbind_ok in E as ([] & Hv1 & E). injection E as <-.
  apply throw_if_ok in Hschema, Hne, Hv1. apply for_each_ok in Hcat. rewrite Forall_forall in Hcat.
  assert (Hs : schema = 1 \/ schema = 2).
  { destruct (schema =? 1) eqn:E1; [apply Z.eqb_eq in E1; by left|]. cbn in Hschema. to_prop. by right. }
  to_prop. apply add_rules_valid in Hrules as ((Hu & Hr & Hset) & I1 & I2 & I3 & I4); [|done|].
  2: { split_and!; cbn; constructor. }
  cbn in I1, I2, I3, I4. split; rewrite ?I1, ?I2, ?I3, ?I4 in *; try done.
  - intros i Hi. specialize (Hcat i Hi). apply throw_if_ok in Hcat. by to_prop.
  - intros -> i Hi. apply andb_false_iff in Hv1 as [Hv1|Hv1]; [done|]. to_prop.
    assert (Hin : i ∈ (list_to_set (map rd_id (rs_definitions set1)) : gset string)) by by apply elem_of_list_to_set.
    match goal with Heq : list_to_set _ = list_to_set _ |- _ => rewrite Heq in Hin end.
    by apply elem_of_list_to_set in Hin.
Qed.

Lemma load_text_root text source set :
  load_text text source = Ok set -> exists root, parse text = Ok root /\ parse_root root = Ok set.
Proof.
  unfold load_text. destruct (parse text) as [root|]; cbn; [|done]. destruct (parse_root root) eqn:E; [|done].
  intros [= <-]. eauto.
Qed.

(** The rules a loaded set is sure to have. *)
Lemma default_rule_found set id :
  rule_set_valid set -> id ∈ rm1_default_ids ->
  exists d, rule set id = Ok d /\ d ∈ rs_definitions set /\ rd_id d = id /\ rd_engine_rule_id d = id /\
    rule_valid (rs_schema_version set) d.
Proof.
  intros Hv Hid.
  assert (Hcan : canonical_id id = id).
  { unfold rm1_default_ids in Hid. repeat (apply elem_of_cons in Hid as [-> |Hid]; [vm_compute; reflexivity|]).
    by apply not_elem_of_nil in Hid. }
  pose proof (valid_catalog _ Hv id Hid) as Hin. apply list_elem_of_fmap in Hin as (d0 & -> & Hd0).
  unfold rule. rewrite Hcan. destruct (find _ (rs_definitions set)) as [d|] eqn:Ef.
  - apply find_some in Ef as [Hin Heq]. apply list_elem_of_In in Hin. apply bool_decide_eq_true in Heq.
    pose proof (valid_rules _ Hv) as Hr. rewrite Forall_forall in Hr. specialize (Hr d Hin).
    exists d. split_and!; [done..| |done]. destruct Hr as (_ & _ & _ & _ & [<-|[_ [suffix Hs]]]); [done|].
    rewrite <- Heq in Hid. rewrite Hs in Hid. unfold rm1_default_ids in Hid.
    repeat (apply elem_of_cons in Hid as [Hid|Hid]; [discriminate Hid|]). by apply not_elem_of_nil in Hid.
  - exfalso. apply find_none with (x := d0) in Ef; [|by apply list_elem_of_In].
    by rewrite bool_decide_eq_true_2 in Ef.
Qed.

End load.

(** ** What the engines may read *)

Lemma parameter_of d engine name kind :
  params_valid d -> rd_engine_rule_id d = engine -> bool_decide ((name, kind) ∈ (schema_of engine).2) = true ->
  parameter_ok d name kind.
Proof.
  intros (schema & Hf & _ & Hall & _) <- Hin. apply bool_decide_eq_true in Hin. unfold schema_of in Hin.
  rewrite Hf in Hin. rewrite Forall_forall in Hall. exact (Hall _ Hin).
Qed.

Lemma texts_of d engine name :
  params_valid d -> rd_engine_rule_id d = engine -> bool_decide ((name, Texts) ∈ (schema_of engine).2) = true ->
  exists l, string_list d name = Ok l.
Proof.
  intros Hv He Hin. destruct (parameter_of d engine name Texts Hv He Hin) as [l Hl].
  exists l. unfold string_list, lookup_parameter. by rewrite Hl.
Qed.

Lemma flag_of d engine name :
  params_valid d -> rd_engine_rule_id d = engine -> bool_decide ((name, Flag) ∈ (schema_of engine).2) = true ->
  exists b, boolean d name = Ok b.
Proof.
  intros Hv He Hin. destruct (parameter_of d engine name Flag Hv He Hin) as [b Hb].
  exists b. unfold boolean, lookup_parameter. by rewrite Hb.
Qed.

Lemma number_of d engine name kind :
  params_valid d -> rd_engine_rule_id d = engine -> bool_decide ((name, kind) ∈ (schema_of engine).2) = true ->
  kind <> Flag -> kind <> Texts -> exists v, numeric d name = Ok v.
Proof. intros Hv He Hin. apply numeric_of. by eapply parameter_of. Qed.

(** The built-in documents load. *)
Lemma built_in_ok `{CastUndefined} : exists set, built_in = Ok set /\ rs_version set = kRuleSetVersion.
Proof. eexists. split; [vm_compute; reflexivity|reflexivity]. Qed.

Lemma rm1_built_in_ok `{CastUndefined} : exists set, rm1_built_in = Ok set /\ rs_version set = kRm1RuleSetVersion.
Proof. eexists. split; [vm_compute; reflexivity|reflexivity]. Qed.

(** ** The theorems *)

(** The check of one rule, for every engine: it passes exactly when the rule's
    engine is in the table of engines and the rule has that engine's category, all its
    parameters, each of the kind the table gives, and no other parameter. *)
Theorem validate_engine_exact `{CastUndefined} d set :
  (exists set', validate_engine d set = Ok set') <-> params_valid d.
Proof.
  rewrite <- (validate_engine_ok d set). destruct (validate_engine d set); cbn; naive_solver.
Qed.

(** C6: A rule set that the loader accepts is valid: known schema, a name and a positive
    revision, no two rules with one id, every rule named, of a known severity and fitting
    its engine, custom rules marked CST- and only in schema 2, the eight default
    rules present (and nothing else in schema 1), and the performance and trust settings of the
    set are those of its PERF-001, TRUST-001 and TRUST-002 rules. *)
Theorem load_text_valid `{CastUndefined} text source set :
  load_text text source = Ok set -> rule_set_valid set.
Proof. intros (root & _ & Hr)%load_text_root. by eapply parse_root_valid. Qed.

Definition cast_zero : CastUndefined := fun _ => 0.

Lemma load_text_valid_witness :
  match load_text (H := cast_zero) rm1_document "rules.json" with
  | Ok set => rule_set_valid (H := cast_zero) set
  | Throw _ => False
  end.
Proof.
  destruct (load_text (H := cast_zero) rm1_document "rules.json") as [set|m] eqn:E.
  - exact (load_text_valid (H := cast_zero) rm1_document "rules.json" set E).
  - assert (G : is_ok (load_text (H := cast_zero) rm1_document "rules.json") = true) by (vm_compute; reflexivity).
    rewrite E in G. discriminate G.
Defined.

(** Both built-in rule documents load. The current one has the 20 rules of the engine
    table, in its settings the defaults of the struct; the RM1 document has the eight
    required rules and the same settings. *)
Theorem built_in_defaults `{CastUndefined} :
  (exists set, built_in = Ok set /\ set_definitions set [] = default_rule_set /\
     map rd_id (rs_definitions set) = map fst engine_table) /\
  (exists set, rm1_built_in = Ok set /\
     set_definitions set [] = set_identity default_rule_set 1 "neta-default" 2 kRm1RuleSetVersion /\
     map rd_id (rs_definitions set) ≡ₚ rm1_default_ids).
Proof.
  split.
  - eexists. split; [vm_compute; reflexivity|]. split; vm_compute; reflexivity.
  - eexists. split; [vm_compute; reflexivity|]. split; [vm_compute; reflexivity|].
    apply (bool_decide_unpack _). vm_compute. exact I.
Qed.

(** A parameter read by [positive_integer] is an integer from 1 to 2^64 - 1, with one
    exception: the limit is compared as a double, which rounds 2^64 - 1 up to 2^64, so
    2^64 itself is accepted although its conversion to [std::uint64_t] is undefined. *)
Theorem integer_parameter_range `{CastUndefined} d name v :
  map_find (rd_numeric_parameters d) name = Some v -> is_double v ->
  (forall z, positive_integer d name = Ok z ->
     0 < z < 2 ^ 64 \/ v = double_of_Z (2 ^ 64) /\ z = cast_undefined v) /\
  (v = double_of_Z (2 ^ 64) -> positive_integer d name = Ok (cast_undefined v)).
Proof.
  intros Hv Hd. split.
  - intros z Hz. apply positive_integer_ok in Hz as (v' & Hv' & (A & B & C & D) & ->). rewrite Hv in Hv'.
    injection Hv' as <-. destruct (double_u64_range v Hd A B C D) as [R| ->].
    + left. unfold cast_u64. rewrite A, bool_decide_eq_true_2; [done|]. unfold in_u. cbn [andb]. lia.
    + right. split; [done|]. unfold cast_u64. by vm_compute.
  - intros ->. apply positive_integer_ok. exists (double_of_Z (2 ^ 64)). split_and!; [done|by vm_compute|].
    unfold cast_u64. by vm_compute.
Qed.

Definition rule_with_number (v : spec_float) : RuleDefinition :=
  MkRule "CST-X" "NET-002" "x" "network" "low" true no_exclusion [("retransmission_threshold", v)] [] [] [].

Lemma integer_parameter_range_witness :
  positive_integer (H := cast_zero) (rule_with_number (double_of_Z (2 ^ 64))) "retransmission_threshold" = Ok 0 /\
  positive_integer (H := cast_zero) (rule_with_number (double_of_Z 5)) "retransmission_threshold" = Ok 5 /\ 0 < 5 < 2 ^ 64.
Proof.
  split.
  - exact (proj2 (integer_parameter_range (H := cast_zero) (rule_with_number (double_of_Z (2 ^ 64)))
             "retransmission_threshold" (double_of_Z (2 ^ 64)) eq_refl ltac:(vm_compute; reflexivity)) eq_refl).
  - assert (E : positive_integer (H := cast_zero) (rule_with_number (double_of_Z 5)) "retransmission_threshold" = Ok 5)
      by (vm_compute; reflexivity).
    split; [exact E|].
    destruct (proj1 (integer_parameter_range (H := cast_zero) (rule_with_number (double_of_Z 5))
             "retransmission_threshold" (double_of_Z 5) eq_refl ltac:(vm_compute; reflexivity)) 5 E) as [R|[E' _]];
      [exact R|discriminate E'].
Defined.
