(* ===== verification/ProcessFindings.v ===== *)
(** Process findings ([include/neta/process_findings.hpp] and the second half of
    [src/core/process_graph.cpp]).

    The engine judges the processes of a graph snapshot (execution from a transient
    path, a shell under an unexpected parent, unexpected elevation) and keeps, per parent
    process, the times of recent child starts and of short-lived children, to report
    fan-out and bursts.  A throwing call returns [Throw] and no state: the theorems show
    that an engine built from a loaded rule set never throws.

    The theorems, besides that: a deque of recent times is exactly the window of the
    whole history ([window_of]), and the fan-out finding is reported exactly when the
    number of child starts in the window reaches the configured count. *)

From Stdlib Require Import Sorted.
From S2P Require Import Prelude Text StringMap Doubles Model Rules RulesValid ProcessGraph.

#[local] Arguments String.append !_ _ /.

Inductive ProcessFindingSeverity := Low | Medium | High.
Inductive ProcessFindingKind :=
| ExecFromTransientPath | ShellFromUnexpectedParent | UnexpectedElevation | RapidChildFanout | ShortLivedProcessBurst.

#[global] Instance ProcessFindingKind_eq_dec : EqDecision ProcessFindingKind.
Proof. solve_decision. Defined.

Record ProcessFinding := MkFinding {
  pf_kind : ProcessFindingKind;
  pf_severity : ProcessFindingSeverity;
  pf_rule_id : string;
  pf_ruleset_version : string;
  pf_observed_at_ns : Z;
  pf_process : ProcessInstanceKey;
  pf_parent : option ProcessInstanceKey;
  pf_process_image : string;
  pf_parent_image : string;
  pf_command_line : string;
  pf_summary : string;
  pf_interpretation : string }.

(** The [.._exclude] members are never assigned; they stay empty. *)
Record ProcessFindingConfig := MkConfig {
  fc_ruleset_version : string;
  fc_transient_path_enabled : bool;
  fc_transient_path_severity : string;
  fc_transient_path_prefixes : list string;
  fc_transient_path_substrings : list string;
  fc_unexpected_shell_enabled : bool;
  fc_unexpected_shell_severity : string;
  fc_shell_names : list string;
  fc_expected_shell_parent_names : list string;
  fc_unexpected_elevation_enabled : bool;
  fc_unexpected_elevation_severity : string;
  fc_expected_elevation_parent_names : list string;
  fc_fanout_enabled : bool;
  fc_fanout_severity : string;
  fc_fanout_count : Z;
  fc_fanout_window_ns : Z;
  fc_short_lived_enabled : bool;
  fc_short_lived_severity : string;
  fc_short_lived_count : Z;
  fc_short_lived_max_ns : Z;
  fc_short_lived_window_ns : Z }.

Definition severity_to_string (severity : ProcessFindingSeverity) : string :=
  match severity with Low => "LOW" | Medium => "MEDIUM" | High => "HIGH" end.

Definition kind_to_string (kind : ProcessFindingKind) : string :=
  match kind with
  | ExecFromTransientPath => "PROCESS_EXEC_FROM_TRANSIENT_PATH"
  | ShellFromUnexpectedParent => "PROCESS_SHELL_FROM_UNEXPECTED_PARENT"
  | UnexpectedElevation => "PROCESS_UNEXPECTED_ELEVATION"
  | RapidChildFanout => "PROCESS_RAPID_CHILD_FANOUT"
  | ShortLivedProcessBurst => "PROCESS_SHORT_LIVED_BURST"
  end.

(** ** Helpers *)

Definition kNanosecondsPerMillisecond : Z := 1000000.

Definition lower_normalized (value : string) : string := string_map normalized_char value.

Definition leaf_name (node : ProcessNode) : string :=
  let value := if negb (bool_decide (pn_comm node = "")) then pn_comm node else pn_executable_path node in
  let value := lower_normalized value in
  match after_last_slash value with Some name => name | None => value end.

Definition normalized_values (values : list string) : list string := map lower_normalized values.

Definition contains_name (names : list string) (node : ProcessNode) : bool :=
  bool_decide (leaf_name node ∈ names).

Definition path_matches (raw : string) (prefixes substrings : list string) : bool :=
  let path := lower_normalized raw in
  if bool_decide (path = "") then false
  else if existsb (fun prefix => starts_with prefix path) prefixes then true
  else existsb (fun needle => has (find_from path needle 0)) substrings.

Definition is_transient_path (raw : string) (config : ProcessFindingConfig) : bool :=
  path_matches raw (fc_transient_path_prefixes config) (fc_transient_path_substrings config).

Definition find_process_node (nodes : list ProcessNode) (key : ProcessInstanceKey) : option ProcessNode :=
  List.find (fun node => bool_decide (pn_key node = key)) nodes.

Definition severity_from_string (severity : string) : result ProcessFindingSeverity :=
  let normalized := lower_normalized severity in
  if bool_decide (normalized = "low") then Ok Low
  else if bool_decide (normalized = "medium") then Ok Medium
  else if bool_decide (normalized = "high") then Ok High
  else Throw ("unsupported process finding severity: " +:+ severity).

Definition make_finding (kind : ProcessFindingKind) (rule_id : string) (severity : ProcessFindingSeverity)
    (ruleset_version : string) (node : ProcessNode) (parent : option ProcessNode)
    (summary interpretation : string) : ProcessFinding :=
  MkFinding kind severity rule_id ruleset_version (pn_started_at_ns node) (pn_key node) (pn_parent node)
    (pn_executable_path node) (match parent with None => "" | Some p => pn_executable_path p end)
    (pn_command_line node) summary interpretation.

(** [finding.observed_at_ns = t] *)
Definition observed_at (t : Z) (f : ProcessFinding) : ProcessFinding :=
  MkFinding (pf_kind f) (pf_severity f) (pf_rule_id f) (pf_ruleset_version f) t (pf_process f) (pf_parent f)
    (pf_process_image f) (pf_parent_image f) (pf_command_line f) (pf_summary f) (pf_interpretation f).

Fixpoint pop_while (p : Z -> bool) (values : list Z) : list Z :=
  match values with [] => [] | v :: rest => if p v then pop_while p rest else values end.

Definition cutoff (now window : Z) : Z := if window <? now then now - window else 0.
Definition trim_before (values : list Z) (now window : Z) : list Z :=
  pop_while (fun v => v <? cutoff now window) values.

Definition node_for_event (event : ProcessExecEvent) (nodes : list ProcessNode) : option ProcessNode :=
  let pid := value_or (pe_tgid event) (value_or (pe_pid event) 0) in
  if pid <=? 0 then None
  else
    List.find (fun node =>
      (key_pid (pn_key node) =? pid) &&
      ((has (pe_platform_process_key event) && bool_decide (key_platform_key (pn_key node) = pe_platform_process_key event)) ||
       (has (pe_process_start_time_ns event) && bool_decide (key_start_time_ns (pn_key node) = pe_process_start_time_ns event)) ||
       (bool_decide (pe_type event = Exit) && bool_decide (pn_exited_at_ns node = Some (pe_timestamp_ns event)))))
      nodes.

Definition has_custom_short_lived (rules : list RuleDefinition) : bool :=
  existsb (fun rule => rd_enabled rule && bool_decide (rd_engine_rule_id rule = "PROC-005")) rules.

(** ** Engine *)

Notation windows := (gmap ProcessInstanceKey (list Z)).

Record ProcessFindingEngine := MkEngine {
  fe_config : ProcessFindingConfig;
  fe_custom_process_rules : list RuleDefinition;
  fe_starts : gmap ProcessInstanceKey Z;
  fe_child_starts : windows;
  fe_short_exits : windows;
  fe_custom_child_starts : gmap string windows;
  fe_custom_short_exits : gmap string windows }.

Section engine.
Context `{CastUndefined}.

(** [static_cast<std::uint64_t>(rule.numeric(name)) * kNanosecondsPerMillisecond] *)
Definition milliseconds (rule : RuleDefinition) (name : string) : result Z :=
  let? value := numeric rule name in Ok (wrap_u 64 (cast_u64 value * kNanosecondsPerMillisecond)).

Definition config_from_rules (rules : RuleSet) : result ProcessFindingConfig :=
  let? transient := rule rules "PROC-001" in
  let? prefixes := string_list transient "path_prefixes" in
  let? substrings := string_list transient "path_substrings" in
  let? shell := rule rules "PROC-002" in
  let? shell_names := string_list shell "shell_names" in
  let? shell_parents := string_list shell "expected_parent_names" in
  let? elevation := rule rules "PROC-003" in
  let? elevation_parents := string_list elevation "expected_parent_names" in
  let? fanout := rule rules "PROC-004" in
  let? fanout_count := numeric fanout "child_count" in
  let? fanout_window := milliseconds fanout "window_ms" in
  let? short_lived := rule rules "PROC-005" in
  let? short_count := numeric short_lived "child_count" in
  let? short_max := milliseconds short_lived "max_lifetime_ms" in
  let? short_window := milliseconds short_lived "window_ms" in
  Ok (MkConfig (rs_version rules)
        (rd_enabled transient) (rd_severity transient) (normalized_values prefixes) (normalized_values substrings)
        (rd_enabled shell) (rd_severity shell) (normalized_values shell_names) (normalized_values shell_parents)
        (rd_enabled elevation) (rd_severity elevation) (normalized_values elevation_parents)
        (rd_enabled fanout) (rd_severity fanout) (cast_u64 fanout_count) fanout_window
        (rd_enabled short_lived) (rd_severity short_lived) (cast_u64 short_count) short_max short_window).

Definition engine_of_config (config : ProcessFindingConfig) : ProcessFindingEngine := MkEngine config [] ∅ ∅ ∅ ∅ ∅.

(** [ProcessFindingEngine(const RuleSet&)] *)
Definition engine_of_rules (rules : RuleSet) : result ProcessFindingEngine :=
  let? config := config_from_rules rules in
  Ok (MkEngine config
        (filter (fun d => rd_id d <> rd_engine_rule_id d /\ rd_category d = "process") (rs_definitions rules))
        ∅ ∅ ∅ ∅ ∅).

(** [if (condition) findings.push_back(make_finding(..., severity_from_string(severity), ...))] *)
Definition finding_if (condition : bool) (kind : ProcessFindingKind) (rule_id severity version : string)
    (node : ProcessNode) (parent : option ProcessNode) (summary interpretation : string) :
    result (list ProcessFinding) :=
  if condition then
    let? severity := severity_from_string severity in
    Ok [make_finding kind rule_id severity version node parent summary interpretation]
  else Ok [].

(** [elevated] of the node and not of its parent. *)
Definition elevation (node : ProcessNode) (parent : option ProcessNode) : bool :=
  bool_decide (pn_elevated node = Some true) &&
  match parent with Some p => bool_decide (pn_elevated p = Some false) | None => false end.

Definition parent_outside (names : list string) (parent : option ProcessNode) : bool :=
  match parent with Some p => negb (contains_name names p) | None => false end.

Definition evaluate_custom (version : string) (rule : RuleDefinition) (node : ProcessNode) (parent : option ProcessNode) :
    result (list ProcessFinding) :=
  if negb (rd_enabled rule) then Ok []
  else if bool_decide (rd_engine_rule_id rule = "PROC-001") then
    let? prefixes := string_list rule "path_prefixes" in
    let? substrings := string_list rule "path_substrings" in
    finding_if (path_matches (pn_executable_path node) (normalized_values prefixes) (normalized_values substrings))
      ExecFromTransientPath (rd_id rule) (rd_severity rule) version node parent
      "Executable matched a custom transient-path rule."
      "A centrally managed custom transient-path detection matched this process."
  else if bool_decide (rd_engine_rule_id rule = "PROC-002") then
    let? shells := string_list rule "shell_names" in
    let? parents := string_list rule "expected_parent_names" in
    finding_if (contains_name (normalized_values shells) node && parent_outside (normalized_values parents) parent)
      ShellFromUnexpectedParent (rd_id rule) (rd_severity rule) version node parent
      "A shell matched a custom unexpected-parent rule."
      "A centrally managed custom shell parent-child detection matched this process."
  else if bool_decide (rd_engine_rule_id rule = "PROC-003") then
    let? expected := string_list rule "expected_parent_names" in
    finding_if (elevation node parent && parent_outside (normalized_values expected) parent)
      UnexpectedElevation (rd_id rule) (rd_severity rule) version node parent
      "A privilege transition matched a custom elevation rule."
      "A centrally managed custom privilege-boundary detection matched this process."
  else Ok [].

(** A loop that appends what each turn yields. *)
Fixpoint collect {A B} (f : A -> result (list B)) (l : list A) : result (list B) :=
  match l with
  | [] => Ok []
  | a :: l => let? here := f a in let? later := collect f l in Ok (here ++ later)
  end.

Definition parent_node (nodes : list ProcessNode) (node : ProcessNode) : option ProcessNode :=
  match pn_parent node with Some key => find_process_node nodes key | None => None end.

Definition evaluate_node (e : ProcessFindingEngine) (node : ProcessNode) (nodes : list ProcessNode) :
    result (list ProcessFinding) :=
  let c := fe_config e in
  let version := fc_ruleset_version c in
  let parent := parent_node nodes node in
  let? transient := finding_if (fc_transient_path_enabled c && is_transient_path (pn_executable_path node) c)
    ExecFromTransientPath "PROC-001" (fc_transient_path_severity c) version node parent
    "Executable started from a transient filesystem location."
    "Execution from a transient location is compatible with staged or temporary tooling; malicious intent is not established." in
  let? shell := finding_if (fc_unexpected_shell_enabled c && contains_name (fc_shell_names c) node &&
      parent_outside (fc_expected_shell_parent_names c) parent)
    ShellFromUnexpectedParent "PROC-002" (fc_unexpected_shell_severity c) version node parent
    "A shell was spawned by a process not classified as an expected interactive shell parent."
    "This parent-child relationship resembles shell-spawn behavior worth investigation; exploitation is not established." in
  let? elevated := finding_if (fc_unexpected_elevation_enabled c && elevation node parent &&
      parent_outside (fc_expected_elevation_parent_names c) parent)
    UnexpectedElevation "PROC-003" (fc_unexpected_elevation_severity c) version node parent
    "A child process is elevated while its observed parent is not elevated."
    "A privilege-boundary transition was observed. It may be legitimate administrative activity; malicious intent is not established." in
  let? custom := collect (fun rule => evaluate_custom version rule node parent) (fe_custom_process_rules e) in
  Ok (transient ++ shell ++ elevated ++ custom).

Definition evaluate_snapshot (e : ProcessFindingEngine) (graph : ProcessGraph) : result (list ProcessFinding) :=
  let nodes := snapshot graph in collect (fun node => evaluate_node e node nodes) nodes.

(** [auto& v = m[key]; trim_before(v, now, window); v.push_back(now);]: the map and the deque. *)
Definition push_window (m : windows) (key : ProcessInstanceKey) (now window : Z) : windows * list Z :=
  let values := trim_before (default [] (m !! key)) now window ++ [now] in
  (<[key := values]> m, values).

(** The finding on the parent of the node, when the parent is in the snapshot. *)
Definition parent_finding (kind : ProcessFindingKind) (rule_id severity version : string) (nodes : list ProcessNode)
    (parent_key : ProcessInstanceKey) (now : Z) (summary interpretation : string) : result (list ProcessFinding) :=
  match find_process_node nodes parent_key with
  | None => Ok []
  | Some parent =>
      let? severity := severity_from_string severity in
      Ok [observed_at now (make_finding kind rule_id severity version parent (parent_node nodes parent) summary interpretation)]
  end.

Definition reached (values : list Z) (count : Z) : bool := Z.of_nat (length values) =? count.

(** A custom rule with a window: the deque of the rule and the parent, and the finding. *)
Definition custom_window (kind : ProcessFindingKind) (version summary interpretation : string) (nodes : list ProcessNode)
    (parent : ProcessInstanceKey) (now : Z) (rule : RuleDefinition) (m : gmap string windows) :
    result (gmap string windows * list ProcessFinding) :=
  let? window := milliseconds rule "window_ms" in
  let? count := numeric rule "child_count" in
  let '(w, values) := push_window (default ∅ (m !! rd_id rule)) parent now window in
  let m := <[rd_id rule := w]> m in
  let? found :=
    if reached values (cast_u64 count)
    then parent_finding kind (rd_id rule) (rd_severity rule) version nodes parent now summary interpretation
    else Ok [] in
  Ok (m, found).

(** The loop over the custom rules that threads their deques. *)
Fixpoint custom_loop (turn : RuleDefinition -> gmap string windows -> result (gmap string windows * list ProcessFinding))
    (rules : list RuleDefinition) (m : gmap string windows) : result (gmap string windows * list ProcessFinding) :=
  match rules with
  | [] => Ok (m, [])
  | rule :: rules =>
      let? (m, here) := turn rule m in
      let? (m, later) := custom_loop turn rules m in
      Ok (m, here ++ later)
  end.

Definition fanout_turn (version : string) (nodes : list ProcessNode) (parent : ProcessInstanceKey) (now : Z)
    (rule : RuleDefinition) (m : gmap string windows) : result (gmap string windows * list ProcessFinding) :=
  if negb (rd_enabled rule) || negb (bool_decide (rd_engine_rule_id rule = "PROC-004")) then Ok (m, [])
  else custom_window RapidChildFanout version "A process matched a custom rapid child fan-out rule."
         "A centrally managed custom fan-out detection matched this process." nodes parent now rule m.

Definition burst_turn (version : string) (nodes : list ProcessNode) (parent : ProcessInstanceKey) (now duration : Z)
    (rule : RuleDefinition) (m : gmap string windows) : result (gmap string windows * list ProcessFinding) :=
  if negb (rd_enabled rule) || negb (bool_decide (rd_engine_rule_id rule = "PROC-005")) then Ok (m, [])
  else
    let? max_lifetime := milliseconds rule "max_lifetime_ms" in
    if max_lifetime <? duration then Ok (m, [])
    else custom_window ShortLivedProcessBurst version "A process matched a custom short-lived child burst rule."
           "A centrally managed custom short-lived-process detection matched this process." nodes parent now rule m.

Definition observe_start_event (e : ProcessFindingEngine) (event : ProcessExecEvent) (node : ProcessNode)
    (nodes : list ProcessNode) : result (ProcessFindingEngine * list ProcessFinding) :=
  let c := fe_config e in
  let now := pe_timestamp_ns event in
  let starts := if fc_short_lived_enabled c || has_custom_short_lived (fe_custom_process_rules e)
                then <[pn_key node := now]> (fe_starts e) else fe_starts e in
  let? static_findings := evaluate_node e node nodes in
  match pn_parent node with
  | None =>
      Ok (MkEngine c (fe_custom_process_rules e) starts (fe_child_starts e) (fe_short_exits e)
            (fe_custom_child_starts e) (fe_custom_short_exits e), static_findings)
  | Some parent =>
      let? (child_starts, fanout) :=
        if fc_fanout_enabled c then
          let '(m, values) := push_window (fe_child_starts e) parent now (fc_fanout_window_ns c) in
          let? found :=
            if reached values (fc_fanout_count c)
            then parent_finding RapidChildFanout "PROC-004" (fc_fanout_severity c) (fc_ruleset_version c) nodes parent now
                   "A process spawned many child processes within a short window."
                   "Rapid child-process fan-out can resemble scripted or automated execution; malicious intent is not established."
            else Ok [] in
          Ok (m, found)
        else Ok (fe_child_starts e, []) in
      let? (custom_child_starts, custom) :=
        custom_loop (fanout_turn (fc_ruleset_version c) nodes parent now) (fe_custom_process_rules e) (fe_custom_child_starts e) in
      Ok (MkEngine c (fe_custom_process_rules e) starts child_starts (fe_short_exits e)
            custom_child_starts (fe_custom_short_exits e), static_findings ++ fanout ++ custom)
  end.

Definition observe_exit_event (e : ProcessFindingEngine) (event : ProcessExecEvent) (node : ProcessNode)
    (nodes : list ProcessNode) : result (ProcessFindingEngine * list ProcessFinding) :=
  let c := fe_config e in
  let now := pe_timestamp_ns event in
  match fe_starts e !! pn_key node with
  | None => Ok (e, [])
  | Some started =>
      let duration := if started <=? now then now - started else 0 in
      let starts := delete (pn_key node) (fe_starts e) in
      match pn_parent node with
      | None =>
          Ok (MkEngine c (fe_custom_process_rules e) starts (fe_child_starts e) (fe_short_exits e)
                (fe_custom_child_starts e) (fe_custom_short_exits e), [])
      | Some parent =>
          let? (short_exits, burst) :=
            if fc_short_lived_enabled c && (duration <=? fc_short_lived_max_ns c) then
              let '(m, values) := push_window (fe_short_exits e) parent now (fc_short_lived_window_ns c) in
              let? found :=
                if reached values (fc_short_lived_count c)
                then parent_finding ShortLivedProcessBurst "PROC-005" (fc_short_lived_severity c) (fc_ruleset_version c) nodes parent now
                       "A process produced a burst of short-lived child processes."
                       "A short-lived process burst can resemble scripted execution or repeated helper invocation; malicious intent is not established."
                else Ok [] in
              Ok (m, found)
            else Ok (fe_short_exits e, []) in
          let? (custom_short_exits, custom) :=
            custom_loop (burst_turn (fc_ruleset_version c) nodes parent now duration) (fe_custom_process_rules e)
              (fe_custom_short_exits e) in
          Ok (MkEngine c (fe_custom_process_rules e) starts (fe_child_starts e) short_exits
                (fe_custom_child_starts e) custom_short_exits, burst ++ custom)
      end
  end.

(** [ProcessFindingEngine::observe] *)
Definition observe_event (e : ProcessFindingEngine) (event : ProcessExecEvent) (graph : ProcessGraph) :
    result (ProcessFindingEngine * list ProcessFinding) :=
  let nodes := snapshot graph in
  match node_for_event event nodes with
  | None => Ok (e, [])
  | Some node =>
      if bool_decide (pe_type event = Start) then observe_start_event e event node nodes
      else observe_exit_event e event node nodes
  end.

(** A run: each event with the graph as it is then. *)
Fixpoint observe_run (e : ProcessFindingEngine) (events : list (ProcessExecEvent * ProcessGraph)) :
    result (ProcessFindingEngine * list ProcessFinding) :=
  match events with
  | [] => Ok (e, [])
  | (event, graph) :: events =>
      let? (e, here) := observe_event e event graph in
      let? (e, later) := observe_run e events in
      Ok (e, here ++ later)
  end.

End engine.

(** ** No finding engine throws *)

Definition severity_known (severity : string) : Prop := severity ∈ ["low"; "medium"; "high"].

Lemma severity_known_ok severity : severity_known severity -> exists s, severity_from_string severity = Ok s.
Proof.
  unfold severity_known. rewrite !elem_of_cons. intros [-> |[-> |[-> |[]%not_elem_of_nil]]].
  - by exists Low. - by exists Medium. - by exists High.
Qed.

(** What an engine keeps: the configured severities are known and the custom rules are
    rules the loader accepted. *)
Record engine_ok (e : ProcessFindingEngine) : Prop := {
  ok_transient : severity_known (fc_transient_path_severity (fe_config e));
  ok_shell : severity_known (fc_unexpected_shell_severity (fe_config e));
  ok_elevation : severity_known (fc_unexpected_elevation_severity (fe_config e));
  ok_fanout : severity_known (fc_fanout_severity (fe_config e));
  ok_short_lived : severity_known (fc_short_lived_severity (fe_config e));
  ok_custom : Forall (fun d => severity_known (rd_severity d) /\ params_valid d /\ rd_id d <> rd_engine_rule_id d /\
                               exists suffix, rd_id d = "CST-" +:+ suffix) (fe_custom_process_rules e) }.

Section total.
Context `{CastUndefined}.

Definition returns {A} (r : result A) : Prop := exists a, r = Ok a.

Lemma returns_bind {A B} (r : result A) (k : A -> result B) :
  returns r -> (forall a, r = Ok a -> returns (k a)) -> returns (rbind r k).
Proof. intros [a ->] Hk. by apply Hk. Qed.

Lemma returns_ok {A} (a : A) : returns (Ok a).
Proof. by exists a. Qed.

Lemma finding_if_returns condition kind rule_id severity version node parent summary interpretation :
  severity_known severity ->
  returns (finding_if condition kind rule_id severity version node parent summary interpretation).
Proof.
  intros Hs. unfold finding_if. destruct condition; [|apply returns_ok].
  destruct (severity_known_ok _ Hs) as [s ->]. apply returns_ok.
Qed.

Lemma parent_finding_returns kind rule_id severity version nodes parent now summary interpretation :
  severity_known severity ->
  returns (parent_finding kind rule_id severity version nodes parent now summary interpretation).
Proof.
  intros Hs. unfold parent_finding. destruct (find_process_node _ _); [|apply returns_ok].
  destruct (severity_known_ok _ Hs) as [s ->]. apply returns_ok.
Qed.

Lemma collect_returns {A B} (f : A -> result (list B)) l : Forall (fun a => returns (f a)) l -> returns (collect f l).
Proof.
  induction 1 as [|a l Ha Hl IH]; [apply returns_ok|]. cbn. apply returns_bind; [done|]. intros ? _.
  apply returns_bind; [done|]. intros ? _. apply returns_ok.
Qed.

Lemma evaluate_custom_returns version d node parent :
  severity_known (rd_severity d) -> params_valid d -> returns (evaluate_custom version d node parent).
Proof.
  intros Hs Hv. unfold evaluate_custom. destruct (negb _); [apply returns_ok|].
  destruct (bool_decide_reflect (rd_engine_rule_id d = "PROC-001")) as [E|_].
  { destruct (texts_of d _ "path_prefixes" Hv E) as [? ->]; [by vm_compute|].
    destruct (texts_of d _ "path_substrings" Hv E) as [? ->]; [by vm_compute|]. by apply finding_if_returns. }
  destruct (bool_decide_reflect (rd_engine_rule_id d = "PROC-002")) as [E|_].
  { destruct (texts_of d _ "shell_names" Hv E) as [? ->]; [by vm_compute|].
    destruct (texts_of d _ "expected_parent_names" Hv E) as [? ->]; [by vm_compute|]. by apply finding_if_returns. }
  destruct (bool_decide_reflect (rd_engine_rule_id d = "PROC-003")) as [E|_]; [|apply returns_ok].
  destruct (texts_of d _ "expected_parent_names" Hv E) as [? ->]; [by vm_compute|]. by apply finding_if_returns.
Qed.

Lemma evaluate_node_returns e node nodes : engine_ok e -> returns (evaluate_node e node nodes).
Proof.
  intros [O1 O2 O3 _ _ Oc]. unfold evaluate_node.
  apply returns_bind; [by apply finding_if_returns|intros ? _].
  apply returns_bind; [by apply finding_if_returns|intros ? _].
  apply returns_bind; [by apply finding_if_returns|intros ? _].
  apply returns_bind; [|intros ? _; apply returns_ok]. apply collect_returns.
  eapply Forall_impl; [exact Oc|]. intros d (? & ? & _). by apply evaluate_custom_returns.
Qed.

Lemma milliseconds_returns d name v : numeric d name = Ok v -> returns (milliseconds d name).
Proof. intros E. unfold milliseconds. rewrite E. apply returns_ok. Qed.

Lemma custom_window_returns kind version summary interpretation nodes parent now d m :
  severity_known (rd_severity d) -> returns (milliseconds d "window_ms") -> returns (numeric d "child_count") ->
  returns (custom_window kind version summary interpretation nodes parent now d m).
Proof.
  intros Hs Hw Hc. unfold custom_window. apply returns_bind; [done|intros window _].
  apply returns_bind; [done|intros count _]. destruct (push_window _ _ _ _) as [w values].
  apply returns_bind; [|intros ? _; apply returns_ok].
  destruct (reached _ _); [by apply parent_finding_returns|apply returns_ok].
Qed.

Lemma custom_loop_returns turn rules m :
  Forall (fun d => forall m, returns (turn d m)) rules -> returns (custom_loop turn rules m).
Proof.
  intros Hall. revert m. induction Hall as [|d rules Hd _ IH]; intros m; [apply returns_ok|]. cbn.
  apply returns_bind; [apply Hd|intros [m1 here] _]. apply returns_bind; [apply IH|intros [m2 later] _]. apply returns_ok.
Qed.

Lemma fanout_turn_returns version nodes parent now d m :
  severity_known (rd_severity d) -> params_valid d -> returns (fanout_turn version nodes parent now d m).
Proof.
  intros Hs Hv. unfold fanout_turn. destruct (negb (rd_enabled d)); [apply returns_ok|].
  destruct (bool_decide_reflect (rd_engine_rule_id d = "PROC-004")) as [E|_]; cbn; [|apply returns_ok].
  destruct (number_of d _ "window_ms" PositiveInteger Hv E) as [w Ew]; [by vm_compute|done..|].
  destruct (number_of d _ "child_count" PositiveInteger Hv E) as [c Ec]; [by vm_compute|done..|].
  apply custom_window_returns; [done|by eapply milliseconds_returns|by exists c].
Qed.

Lemma burst_turn_returns version nodes parent now duration d m :
  severity_known (rd_severity d) -> params_valid d -> returns (burst_turn version nodes parent now duration d m).
Proof.
  intros Hs Hv. unfold burst_turn. destruct (negb (rd_enabled d)); [apply returns_ok|].
  destruct (bool_decide_reflect (rd_engine_rule_id d = "PROC-005")) as [E|_]; cbn; [|apply returns_ok].
  destruct (number_of d _ "max_lifetime_ms" PositiveInteger Hv E) as [l El]; [by vm_compute|done..|].
  destruct (number_of d _ "window_ms" PositiveInteger Hv E) as [w Ew]; [by vm_compute|done..|].
  destruct (number_of d _ "child_count" PositiveInteger Hv E) as [c Ec]; [by vm_compute|done..|].
  apply returns_bind; [by eapply milliseconds_returns|intros max _]. destruct (_ <? _); [apply returns_ok|].
  apply custom_window_returns; [done|by eapply milliseconds_returns|by exists c].
Qed.

(** The rules of an engine never change. *)
Definition same_rules (e e' : ProcessFindingEngine) : Prop :=
  fe_config e' = fe_config e /\ fe_custom_process_rules e' = fe_custom_process_rules e.

Definition steps (e : ProcessFindingEngine) (r : result (ProcessFindingEngine * list ProcessFinding)) : Prop :=
  exists e' fs, r = Ok (e', fs) /\ same_rules e e'.

Lemma observe_start_steps e event node nodes : engine_ok e -> steps e (observe_start_event e event node nodes).
Proof.
  intros He. unfold observe_start_event.
  destruct (evaluate_node_returns e node nodes He) as [static ->]. cbn [rbind].
  destruct (pn_parent node) as [parent|]; [|by eexists _, _].
  assert (Hf : returns (if fc_fanout_enabled (fe_config e) then
      let '(m, values) := push_window (fe_child_starts e) parent (pe_timestamp_ns event) (fc_fanout_window_ns (fe_config e)) in
      let? found := if reached values (fc_fanout_count (fe_config e))
        then parent_finding RapidChildFanout "PROC-004" (fc_fanout_severity (fe_config e)) (fc_ruleset_version (fe_config e))
               nodes parent (pe_timestamp_ns event) "A process spawned many child processes within a short window."
               "Rapid child-process fan-out can resemble scripted or automated execution; malicious intent is not established."
        else Ok [] in Ok (m, found)
      else Ok (fe_child_starts e, []))).
  { destruct (fc_fanout_enabled _); [|apply returns_ok]. destruct (push_window _ _ _ _).
    apply returns_bind; [|intros ? _; apply returns_ok].
    destruct (reached _ _); [apply parent_finding_returns, He|apply returns_ok]. }
  destruct Hf as [[child_starts fanout] ->]. cbn [rbind].
  destruct (custom_loop_returns (fanout_turn (fc_ruleset_version (fe_config e)) nodes parent (pe_timestamp_ns event))
    (fe_custom_process_rules e) (fe_custom_child_starts e)) as [[cs custom] ->].
  { eapply Forall_impl; [apply He|]. intros d (? & ? & _) m. by apply fanout_turn_returns. }
  by eexists _, _.
Qed.

Lemma observe_exit_steps e event node nodes : engine_ok e -> steps e (observe_exit_event e event node nodes).
Proof.
  intros He. unfold observe_exit_event. destruct (fe_starts e !! _) as [started|]; [|by eexists _, _].
  destruct (pn_parent node) as [parent|]; [|by eexists _, _]. cbn zeta.
  set (duration := if started <=? pe_timestamp_ns event then _ else _).
  match goal with |- steps e (rbind ?b _) => assert (Hb : returns b) end.
  { destruct (_ && _); [|apply returns_ok]. destruct (push_window _ _ _ _).
    apply returns_bind; [|intros ? _; apply returns_ok].
    destruct (reached _ _); [apply parent_finding_returns, He|apply returns_ok]. }
  destruct Hb as [[short_exits burst] ->]. cbn [rbind].
  destruct (custom_loop_returns (burst_turn (fc_ruleset_version (fe_config e)) nodes parent (pe_timestamp_ns event) duration)
    (fe_custom_process_rules e) (fe_custom_short_exits e)) as [[cs custom] ->].
  { eapply Forall_impl; [apply He|]. intros d (? & ? & _) m. by apply burst_turn_returns. }
  by eexists _, _.
Qed.

Lemma observe_event_steps e event graph : engine_ok e -> steps e (observe_event e event graph).
Proof.
  intros He. unfold observe_event. destruct (node_for_event _ _); [|by eexists _, _].
  destruct (bool_decide _); [by apply observe_start_steps|by apply observe_exit_steps].
Qed.

Lemma same_rules_ok e e' : same_rules e e' -> engine_ok e -> engine_ok e'.
Proof. intros [E1 E2] []. split; by rewrite ?E1, ?E2. Qed.

Lemma observe_run_steps e events : engine_ok e -> steps e (observe_run e events).
Proof.
  revert e. induction events as [|[event graph] events IH]; intros e He; cbn; [by eexists _, _|].
  destruct (observe_event_steps e event graph He) as (e1 & fs & -> & Hs1). cbn [rbind].
  destruct (IH e1 (same_rules_ok _ _ Hs1 He)) as (e2 & fs2 & -> & Hs2). cbn [rbind].
  eexists _, _. split; [done|]. destruct Hs1, Hs2. split; congruence.
Qed.

Lemma valid_severity set d : rule_set_valid set -> d ∈ rs_definitions set -> severity_known (rd_severity d).
Proof. intros Hv Hd. pose proof (valid_rules _ Hv) as Hr. rewrite Forall_forall in Hr. by destruct (Hr d Hd) as (_ & _ & ? & _). Qed.

Lemma config_from_rules_returns set :
  rule_set_valid set -> exists c, config_from_rules set = Ok c /\
    severity_known (fc_transient_path_severity c) /\ severity_known (fc_unexpected_shell_severity c) /\
    severity_known (fc_unexpected_elevation_severity c) /\ severity_known (fc_fanout_severity c) /\
    severity_known (fc_short_lived_severity c).
Proof.
  intros Hv. unfold config_from_rules.
  assert (D : forall id, bool_decide (id ∈ rm1_default_ids) = true -> exists d, rule set id = Ok d /\
    rd_engine_rule_id d = id /\ params_valid d /\ severity_known (rd_severity d)).
  { intros id Hid%bool_decide_eq_true. destruct (default_rule_found set id Hv Hid) as (d & ? & ? & _ & ? & _ & _ & ? & ? & _).
    by exists d. }
  destruct (D "PROC-001") as (d1 & -> & E1 & V1 & S1); [by vm_compute|]. cbn [rbind].
  destruct (texts_of d1 _ "path_prefixes" V1 E1) as [? ->]; [by vm_compute|].
  destruct (texts_of d1 _ "path_substrings" V1 E1) as [? ->]; [by vm_compute|]. cbn [rbind].
  destruct (D "PROC-002") as (d2 & -> & E2 & V2 & S2); [by vm_compute|]. cbn [rbind].
  destruct (texts_of d2 _ "shell_names" V2 E2) as [? ->]; [by vm_compute|].
  destruct (texts_of d2 _ "expected_parent_names" V2 E2) as [? ->]; [by vm_compute|]. cbn [rbind].
  destruct (D "PROC-003") as (d3 & -> & E3 & V3 & S3); [by vm_compute|]. cbn [rbind].
  destruct (texts_of d3 _ "expected_parent_names" V3 E3) as [? ->]; [by vm_compute|]. cbn [rbind].
  destruct (D "PROC-004") as (d4 & -> & E4 & V4 & S4); [by vm_compute|]. cbn [rbind]. unfold milliseconds.
  destruct (number_of d4 _ "child_count" PositiveInteger V4 E4) as [? ->]; [by vm_compute|done..|].
  destruct (number_of d4 _ "window_ms" PositiveInteger V4 E4) as [? ->]; [by vm_compute|done..|]. cbn [rbind].
  destruct (D "PROC-005") as (d5 & -> & E5 & V5 & S5); [by vm_compute|]. cbn [rbind].
  destruct (number_of d5 _ "child_count" PositiveInteger V5 E5) as [? ->]; [by vm_compute|done..|].
  destruct (number_of d5 _ "max_lifetime_ms" PositiveInteger V5 E5) as [? ->]; [by vm_compute|done..|].
  destruct (number_of d5 _ "window_ms" PositiveInteger V5 E5) as [? ->]; [by vm_compute|done..|]. cbn [rbind].
  eexists. by split_and!.
Qed.

Lemma engine_of_rules_returns set :
  rule_set_valid set -> exists e, engine_of_rules set = Ok e /\ engine_ok e.
Proof.
  intros Hv. destruct (config_from_rules_returns set Hv) as (c & Ec & S1 & S2 & S3 & S4 & S5).
  unfold engine_of_rules. rewrite Ec. cbn [rbind]. eexists. split; [done|]. split; cbn; try done.
  apply Forall_forall. intros d [[Hne Hcat] Hd]%list_elem_of_filter.
  pose proof (valid_rules _ Hv) as Hr. rewrite Forall_forall in Hr.
  destruct (Hr d Hd) as (_ & _ & Hsev & Hp & [?|[_ Hc]]); [done|]. by split_and!.
Qed.

(** C33: From a rule set that the loader accepts, the process finding engine can always be
    built, and it never throws: over any sequence of process events, each seen with any graph,
    every call returns its findings, and so does a snapshot evaluation at the end. *)
Theorem finding_engine_total text source set events graph :
  load_text text source = Ok set ->
  exists e, engine_of_rules set = Ok e /\
    exists e' fs, observe_run e events = Ok (e', fs) /\ exists fs', evaluate_snapshot e' graph = Ok fs'.
Proof.
  intros (root & _ & Hv%parse_root_valid)%load_text_root.
  destruct (engine_of_rules_returns set Hv) as (e & E & He). exists e. split; [done|].
  destruct (observe_run_steps e events He) as (e' & fs & Er & Hs). exists e', fs. split; [done|].
  apply (collect_returns (fun node => evaluate_node e' node (snapshot graph))). apply Forall_forall. intros node _.
  apply evaluate_node_returns. by eapply same_rules_ok.
Qed.

End total.

Lemma finding_engine_total_witness :
  match load_text (H := cast_zero) rm1_document "rules.json" with
  | Ok set => exists e, engine_of_rules (H := cast_zero) set = Ok e /\
      exists e' fs, observe_run (H := cast_zero) e [(demo_event Start 5 7 (Some 5) None, demo_graph)] = Ok (e', fs) /\
      exists fs', evaluate_snapshot e' demo_graph = Ok fs'
  | Throw _ => False
  end.
Proof.
  destruct (load_text (H := cast_zero) rm1_document "rules.json") as [set|m] eqn:E.
  - exact (finding_engine_total (H := cast_zero) rm1_document "rules.json" set _ demo_graph E).
  - assert (G : is_ok (load_text (H := cast_zero) rm1_document "rules.json") = true) by (vm_compute; reflexivity).
    rewrite E in G. discriminate G.
Defined.

(** ** Windows *)

(** The times of a history that are inside the window at [now]. *)
Definition window_of (times : list Z) (now window : Z) : list Z := filter (fun t => cutoff now window <= t) times.

(** What the deque holds after a history: the window at its last time. *)
Definition deque_of (times : list Z) (window : Z) : list Z :=
  match last times with Some now => window_of times now window | None => [] end.

Definition ordered (times : list Z) : Prop := StronglySorted Z.le times /\ Forall (fun t => 0 <= t) times.

Lemma filter_all (P : Z -> Prop) `{!forall t, Decision (P t)} times : Forall P times -> filter P times = times.
Proof. induction 1; [done|]. rewrite filter_cons_True by done. by f_equal. Qed.

Lemma trim_window times now window :
  StronglySorted Z.le times -> trim_before times now window = window_of times now window.
Proof.
  unfold trim_before, window_of. set (c := cutoff now window). induction 1 as [|t times Hs IH Hall]; [done|]. cbn [pop_while].
  destruct (Z.ltb_spec t c) as [Hlt|Hge].
  - rewrite filter_cons_False by lia. exact IH.
  - rewrite filter_cons_True by lia. f_equal. symmetry. apply filter_all.
    eapply Forall_impl; [exact Hall|]. cbn. lia.
Qed.

Lemma cutoff_mono a b window : a <= b -> cutoff a window <= cutoff b window.
Proof. unfold cutoff. intros. destruct (Z.ltb_spec window a), (Z.ltb_spec window b); lia. Qed.

Lemma window_mono times a b window :
  a <= b -> window_of (window_of times a window) b window = window_of times b window.
Proof.
  intros Hab. pose proof (cutoff_mono a b window Hab). apply list_filter_filter_l. intros t. lia.
Qed.

Lemma sorted_filter (P : Z -> Prop) `{!forall t, Decision (P t)} times :
  StronglySorted Z.le times -> StronglySorted Z.le (filter P times).
Proof.
  induction 1 as [|t times Hs IH Hall]; [constructor|]. destruct (decide (P t)).
  - rewrite filter_cons_True by done. constructor; [done|]. rewrite Forall_forall in Hall |- *.
    intros u [_ Hu]%list_elem_of_filter. by apply Hall.
  - by rewrite filter_cons_False.
Qed.

Lemma ordered_snoc times now : ordered (times ++ [now]) ->
  ordered times /\ 0 <= now /\ Forall (fun t => t <= now) times.
Proof.
  intros [Hs Hp]. apply Forall_app in Hp as [Hp Hn]. inversion Hn; subst. split_and!; [|done|].
  - split; [|done]. clear Hp Hn. induction times as [|t times IH]; [constructor|]. cbn in Hs.
    inversion Hs as [|? ? Hs' Hall]; subst. apply Forall_app in Hall as [? _]. constructor; auto.
  - clear Hp Hn. induction times as [|t times IH]; [constructor|]. cbn in Hs.
    inversion Hs as [|? ? Hs' Hall]; subst. apply Forall_app in Hall as [_ Hn]. inversion Hn; subst. constructor; auto.
Qed.

(** Trimming at every insertion loses nothing that a later window needs: the deque is the
    window of the whole history. *)
Lemma push_deque times now window :
  0 <= window -> ordered (times ++ [now]) ->
  trim_before (deque_of times window) now window ++ [now] = deque_of (times ++ [now]) window.
Proof.
  intros Hw Ho. destruct (ordered_snoc _ _ Ho) as ((Hs & Hp) & Hn & Hle).
  assert (E : deque_of (times ++ [now]) window = window_of times now window ++ [now]).
  { unfold deque_of. rewrite last_snoc. unfold window_of. rewrite filter_app. f_equal.
    rewrite filter_cons_True; [done|]. unfold cutoff. destruct (Z.ltb_spec window now); lia. }
  rewrite E. f_equal. unfold deque_of. destruct (last times) as [l|] eqn:El.
  - rewrite trim_window by by apply sorted_filter. apply window_mono.
    rewrite Forall_forall in Hle. apply Hle. by apply last_Some_elem_of.
  - apply last_None in El as ->. done.
Qed.

(** ** Fan-out *)

(** An event that starts a child of [parent], with its time. *)
Definition child_start_time (parent : ProcessInstanceKey) (seen : ProcessExecEvent * ProcessGraph) : option Z :=
  match node_for_event seen.1 (snapshot seen.2) with
  | Some node =>
      if bool_decide (pe_type seen.1 = Start) && bool_decide (pn_parent node = Some parent)
      then Some (pe_timestamp_ns seen.1) else None
  | None => None
  end.

Definition child_times (parent : ProcessInstanceKey) (events : list (ProcessExecEvent * ProcessGraph)) : list Z :=
  omap (child_start_time parent) events.

Section fanout.
Context `{CastUndefined}.

Definition is_fanout (f : ProcessFinding) : Prop := pf_kind f = RapidChildFanout /\ pf_rule_id f = "PROC-004".

Lemma finding_if_kind condition kind rule_id severity version node parent summary interpretation fs :
  finding_if condition kind rule_id severity version node parent summary interpretation = Ok fs ->
  Forall (fun f => pf_kind f = kind) fs.
Proof.
  unfold finding_if. destruct condition; [|by intros [= <-]]. intros E. apply rbind_ok in E as (s & _ & [= <-]).
  by repeat constructor.
Qed.

Lemma collect_forall {A B} (P : B -> Prop) (f : A -> result (list B)) l fs :
  collect f l = Ok fs -> (forall a fs, f a = Ok fs -> Forall P fs) -> Forall P fs.
Proof.
  intros E Hf. revert fs E. induction l as [|a l IH]; intros fs; cbn; [by intros [= <-]|].
  intros E. apply rbind_ok in E as (here & Eh & E). apply rbind_ok in E as (later & El & [= <-]).
  apply Forall_app. eauto.
Qed.

Lemma evaluate_node_kinds e node nodes fs :
  evaluate_node e node nodes = Ok fs -> Forall (fun f => pf_kind f <> RapidChildFanout) fs.
Proof.
  unfold evaluate_node. intros E. apply rbind_ok in E as (f1 & E1 & E). apply rbind_ok in E as (f2 & E2 & E).
  apply rbind_ok in E as (f3 & E3 & E). apply rbind_ok in E as (f4 & E4 & [= <-]).
  assert (W : forall k fs, Forall (fun f => pf_kind f = k) fs -> k <> RapidChildFanout ->
    Forall (fun f => pf_kind f <> RapidChildFanout) fs).
  { intros k l Hl Hk. eapply Forall_impl; [exact Hl|]. cbn. congruence. }
  apply finding_if_kind in E1, E2, E3. rewrite !Forall_app. split_and!; [by eapply W..|].
  eapply collect_forall; [exact E4|]. clear -W. intros d fs E. unfold evaluate_custom in E.
  destruct (negb _); [by injection E as <-|].
  destruct (bool_decide _); [apply rbind_ok in E as (? & _ & E); apply rbind_ok in E as (? & _ & E);
    apply finding_if_kind in E; by eapply W|].
  destruct (bool_decide _); [apply rbind_ok in E as (? & _ & E); apply rbind_ok in E as (? & _ & E);
    apply finding_if_kind in E; by eapply W|].
  destruct (bool_decide _); [apply rbind_ok in E as (? & _ & E); apply finding_if_kind in E; by eapply W|].
  by injection E as <-.
Qed.

Lemma parent_finding_spec kind rule_id severity version nodes parent now summary interpretation fs :
  parent_finding kind rule_id severity version nodes parent now summary interpretation = Ok fs ->
  (fs <> [] <-> is_Some (find_process_node nodes parent)) /\
  Forall (fun f => pf_kind f = kind /\ pf_rule_id f = rule_id /\ pf_process f = parent /\ pf_observed_at_ns f = now) fs.
Proof.
  unfold parent_finding. destruct (find_process_node nodes parent) as [p|] eqn:Ep.
  - intros E. apply rbind_ok in E as (s & _ & [= <-]). split; [naive_solver|]. constructor; [|constructor]. cbn.
    unfold find_process_node in Ep. apply find_some in Ep as [_ Ep]. by apply bool_decide_eq_true in Ep.
  - intros [= <-]. split; [naive_solver|constructor].
Qed.

Lemma custom_loop_ids version nodes parent now rules m m' fs :
  custom_loop (fanout_turn version nodes parent now) rules m = Ok (m', fs) ->
  Forall (fun f => exists d, d ∈ rules /\ pf_rule_id f = rd_id d) fs.
Proof.
  revert m m' fs. induction rules as [|d rules IH]; intros m m' fs; cbn; [by intros [= _ <-]|].
  intros E. apply rbind_ok in E as ([m1 here] & Eh & E). apply rbind_ok in E as ([m2 later] & El & [= _ <-]).
  apply Forall_app. split.
  - unfold fanout_turn in Eh. destruct (_ || _); [by injection Eh as _ <-|]. unfold custom_window in Eh.
    apply rbind_ok in Eh as (window & _ & Eh). apply rbind_ok in Eh as (count & _ & Eh).
    destruct (push_window _ _ _ _) as [w values]. apply rbind_ok in Eh as (found & Ef & [= _ <-]).
    destruct (reached _ _); [|by injection Ef as <-]. apply parent_finding_spec in Ef as [_ Ef].
    eapply Forall_impl; [exact Ef|]. intros f (_ & -> & _). exists d. split; [set_solver|done].
  - eapply Forall_impl; [by apply IH in El|]. intros f (d' & ? & ?). exists d'. split; [set_solver|done].
Qed.

(** One event, as the fan-out window of [parent] sees it. *)
Lemma observe_event_window e event graph parent e' fs :
  fc_fanout_enabled (fe_config e) = true -> observe_event e event graph = Ok (e', fs) ->
  default [] (fe_child_starts e' !! parent) =
    match child_start_time parent (event, graph) with
    | Some t => trim_before (default [] (fe_child_starts e !! parent)) t (fc_fanout_window_ns (fe_config e)) ++ [t]
    | None => default [] (fe_child_starts e !! parent)
    end.
Proof.
  intros Hen. unfold observe_event, child_start_time. cbn [fst snd].
  destruct (node_for_event event (snapshot graph)) as [node|]; [|by intros [= <- _]].
  destruct (bool_decide (pe_type event = Start)); cbn [andb].
  - unfold observe_start_event. intros E. apply rbind_ok in E as (static & _ & E).
    destruct (pn_parent node) as [p|] eqn:Ep; [|by injection E as <- _].
    rewrite Hen in E. cbn [push_window] in E. apply rbind_ok in E as ([child_starts found] & Ef & E).
    apply rbind_ok in Ef as (? & _ & [= <- _]). apply rbind_ok in E as ([? ?] & _ & [= <- _]). cbn [fe_child_starts].
    destruct (bool_decide_reflect (Some p = Some parent)) as [[= ->]|Hne].
    + by rewrite lookup_insert_eq.
    + rewrite lookup_insert_ne by congruence. done.
  - unfold observe_exit_event. destruct (fe_starts e !! _); [|by intros [= <- _]].
    destruct (pn_parent node) as [p|]; [|by intros [= <- _]]. intros E.
    apply rbind_ok in E as ([? ?] & _ & E). by apply rbind_ok in E as ([? ?] & _ & [= <- _]).
Qed.

Lemma observe_event_same e event graph e' fs :
  observe_event e event graph = Ok (e', fs) -> same_rules e e'.
Proof.
  unfold observe_event. destruct (node_for_event _ _) as [node|]; [|by intros [= <- _]].
  destruct (bool_decide _).
  - unfold observe_start_event. intros E. apply rbind_ok in E as (? & _ & E).
    destruct (pn_parent node); [|by injection E as <- _]. apply rbind_ok in E as ([? ?] & _ & E).
    by apply rbind_ok in E as ([? ?] & _ & [= <- _]).
  - unfold observe_exit_event. destruct (fe_starts e !! _); [|by intros [= <- _]].
    destruct (pn_parent node); [|by intros [= <- _]]. intros E. apply rbind_ok in E as ([? ?] & _ & E).
    by apply rbind_ok in E as ([? ?] & _ & [= <- _]).
Qed.

Lemma ordered_app_l a b : ordered (a ++ b) -> ordered a.
Proof.
  revert a. induction b as [|t b IH] using rev_ind; intros a; [by rewrite app_nil_r|].
  rewrite app_assoc. intros [Ho _]%ordered_snoc. by apply IH.
Qed.

Lemma observe_run_window e events parent window before e' fs :
  fc_fanout_enabled (fe_config e) = true -> fc_fanout_window_ns (fe_config e) = window -> 0 <= window ->
  default [] (fe_child_starts e !! parent) = deque_of before window ->
  ordered (before ++ child_times parent events) ->
  observe_run e events = Ok (e', fs) ->
  same_rules e e' /\ default [] (fe_child_starts e' !! parent) = deque_of (before ++ child_times parent events) window.
Proof.
  revert e before fs. induction events as [|[event graph] events IH]; intros e before fs Hen Hw Hpos Hd Ho E; cbn in E.
  { injection E as <- _. rewrite app_nil_r. done. }
  apply rbind_ok in E as ([e1 here] & E1 & E). apply rbind_ok in E as ([e2 later] & E2 & [= <- _]).
  pose proof (observe_event_same _ _ _ _ _ E1) as [C1 C2].
  apply (observe_event_window _ _ _ parent) in E1; [|done]. rewrite Hd, Hw in E1.
  unfold child_times in *. cbn [omap list_omap] in *.
  destruct (child_start_time parent (event, graph)) as [t|].
  - rewrite cons_middle, app_assoc in Ho |- *. rewrite push_deque in E1; [|done|by eapply ordered_app_l].
    destruct (IH e1 (before ++ [t]) later) as [[S1 S2] ?]; try congruence. split; [split; congruence|done].
  - destruct (IH e1 before later) as [[S1 S2] ?]; try congruence. split; [split; congruence|done].
Qed.

Lemma observe_run_same e events e' fs : observe_run e events = Ok (e', fs) -> same_rules e e'.
Proof.
  revert e fs. induction events as [|[event graph] events IH]; intros e fs E; cbn in E; [injection E as <- _; done|].
  apply rbind_ok in E as ([e1 here] & E1 & E). apply rbind_ok in E as ([e2 later] & E2 & [= <- _]).
  destruct (observe_event_same _ _ _ _ _ E1), (IH _ _ E2). split; congruence.
Qed.

(** The findings of a start, apart from those of the fan-out rule, are not fan-out findings. *)
Lemma only_found custom static found customs :
  Forall (fun d => exists suffix, rd_id d = "CST-" +:+ suffix) custom -> Forall (fun f => pf_kind f <> RapidChildFanout) static ->
  Forall (fun f => exists d, d ∈ custom /\ pf_rule_id f = rd_id d) customs ->
  forall f, f ∈ static ++ found ++ customs -> is_fanout f -> f ∈ found.
Proof.
  rewrite !Forall_forall. intros Hcustom Hs Hc f Hf Hfan. rewrite !elem_of_app in Hf. destruct Hf as [Hf|[Hf|Hf]]; [by destruct (Hs f Hf); apply Hfan|done|].
  destruct (Hc f Hf) as (d & Hd & Hid). destruct (Hcustom d Hd) as [suffix E]. destruct Hfan as [_ Hi]. rewrite Hid, E in Hi. discriminate Hi.
Qed.

(** C9: Fan-out detection is exact. Run a fresh engine, with custom rules whose ids begin with CST- as
    the loader demands, over any events; when the next event starts a child of process [parent]
    at time [t], and the child starts of that parent have come in time order, the PROC-004 finding
    is reported exactly if the rule is on, the parent is in the snapshot and the number of child
    starts in the window (of any length that is not negative) that ends at [t] is the configured
    count; the finding names the parent and the time [t]. *)
Theorem fanout_exact config custom events event graph parent t e fs0 e' fs :
  0 <= fc_fanout_window_ns config ->
  Forall (fun d => exists suffix, rd_id d = "CST-" +:+ suffix) custom ->
  observe_run (MkEngine config custom ∅ ∅ ∅ ∅ ∅) events = Ok (e, fs0) ->
  observe_event e event graph = Ok (e', fs) ->
  child_start_time parent (event, graph) = Some t ->
  ordered (child_times parent events ++ [t]) ->
  ((exists f, f ∈ fs /\ is_fanout f) <->
   fc_fanout_enabled config = true /\
   Z.of_nat (length (window_of (child_times parent events ++ [t]) t (fc_fanout_window_ns config))) = fc_fanout_count config /\
   is_Some (find_process_node (snapshot graph) parent)) /\
  (forall f, f ∈ fs -> is_fanout f -> pf_process f = parent /\ pf_observed_at_ns f = t).
Proof.
  intros Hw Hcustom Hrun Hobs Ht Ho. destruct (observe_run_same _ _ _ _ Hrun) as [C1 C2]. cbn [fe_config fe_custom_process_rules] in C1, C2.
  assert (Hd : fc_fanout_enabled config = true ->
    default [] (fe_child_starts e !! parent) = deque_of (child_times parent events) (fc_fanout_window_ns config)).
  { intros Hen. by eapply (observe_run_window (MkEngine config custom ∅ ∅ ∅ ∅ ∅) events parent _ []); [..|exact Hrun]; try done; eapply ordered_app_l. }
  pose proof (push_deque _ t (fc_fanout_window_ns config) Hw Ho) as Hpush.
  unfold observe_event in Hobs. unfold child_start_time in Ht. cbn [fst snd] in Ht.
  destruct (node_for_event event (snapshot graph)) as [node|]; [|done].
  destruct (bool_decide (pe_type event = Start)); [|done]. cbn [andb] in Ht.
  destruct (bool_decide_reflect (pn_parent node = Some parent)) as [Hp|]; [|done]. injection Ht as <-.
  unfold observe_start_event in Hobs. apply rbind_ok in Hobs as (static & Es & Hobs). rewrite Hp, C1 in Hobs.
  apply rbind_ok in Hobs as ([m found] & Ef & Hobs). apply rbind_ok in Hobs as ([m' customs] & Ec & Hobs). injection Hobs as _ <-.
  apply evaluate_node_kinds in Es. apply custom_loop_ids in Ec. rewrite C2 in Ec.
  assert (K := only_found custom static found customs Hcustom Es Ec).
  assert (Hnil : found = [] -> ~ (exists f, f ∈ static ++ found ++ customs /\ is_fanout f)).
  { intros -> (f & Hf & Hfan). by apply K, not_elem_of_nil in Hf. }
  destruct (fc_fanout_enabled config).
  2: { injection Ef as _ <-. split; [split; [intros Hex; by destruct (Hnil eq_refl)|by intros [? _]]|]. intros f Hf Hfan. by destruct (Hnil eq_refl); exists f. }
  cbn [push_window] in Ef. rewrite (Hd eq_refl), Hpush in Ef. apply rbind_ok in Ef as (found' & Ef & [= _ <-]).
  replace (deque_of (child_times parent events ++ [pe_timestamp_ns event]) (fc_fanout_window_ns config))
    with (window_of (child_times parent events ++ [pe_timestamp_ns event]) (pe_timestamp_ns event) (fc_fanout_window_ns config)) in Ef
    by (unfold deque_of; by rewrite last_snoc).
  set (w := window_of _ _ _) in *.
  unfold reached in Ef. destruct (Z.eqb_spec (Z.of_nat (length w)) (fc_fanout_count config)) as [Hc|Hc].
  - apply parent_finding_spec in Ef as [Hne Hall]. rewrite Forall_forall in Hall. split; [split|].
    + intros (f & Hf & Hfan). split_and!; [done|done|]. apply Hne. apply K in Hf; [|done]. intros ->.
      by apply not_elem_of_nil in Hf.
    + intros (_ & _ & Hs). apply Hne in Hs. destruct found' as [|f found']; [done|]. exists f.
      destruct (Hall f ltac:(set_solver)) as (? & ? & _). split; [set_solver|done].
    + intros f Hf Hfan. destruct (Hall f (K f Hf Hfan)) as (_ & _ & ? & ?). done.
  - injection Ef as <-. split; [split; [intros Hex; by destruct (Hnil eq_refl)|tauto]|]. intros f Hf Hfan. by destruct (Hnil eq_refl); exists f.
Qed.
End fanout.

(** ** A concrete run *)

Definition fan_config : ProcessFindingConfig :=
  MkConfig "v" false "low" [] [] false "low" [] [] false "low" [] true "medium" 2 100 false "low" 2 5 100.
Definition fan_graph : ProcessGraph :=
  match new_graph 8 with
  | Ok g => observe_all [demo_event Start 10 1 (Some 10) None; demo_event Start 20 2 (Some 20) (Some 1);
                         demo_event Start 30 3 (Some 30) (Some 1)] g
  | Throw _ => MkGraph 8 ∅ [] [] (MkHealth 0 0 0 0 0)
  end.
Definition fan_engine : ProcessFindingEngine := MkEngine fan_config [] ∅ ∅ ∅ ∅ ∅.

Lemma fanout_exact_witness :
  match observe_run (H := cast_zero) fan_engine [(demo_event Start 20 2 (Some 20) (Some 1), fan_graph)] with
  | Ok (e, _) =>
      match observe_event (H := cast_zero) e (demo_event Start 30 3 (Some 30) (Some 1)) fan_graph with
      | Ok (_, fs) => exists f, f ∈ fs /\ is_fanout f
      | Throw _ => False
      end
  | Throw _ => False
  end.
Proof.
  destruct (observe_run (H := cast_zero) fan_engine [(demo_event Start 20 2 (Some 20) (Some 1), fan_graph)]) as [[e fs0]|] eqn:E1.
  2: { assert (G : is_ok (observe_run (H := cast_zero) fan_engine [(demo_event Start 20 2 (Some 20) (Some 1), fan_graph)]) = true)
         by (vm_compute; reflexivity). rewrite E1 in G. discriminate G. }
  destruct (observe_event (H := cast_zero) e (demo_event Start 30 3 (Some 30) (Some 1)) fan_graph) as [[e' fs]|] eqn:E2.
  2: { assert (G : is_ok (let? (e, _) := observe_run (H := cast_zero) fan_engine [(demo_event Start 20 2 (Some 20) (Some 1), fan_graph)] in
                           observe_event (H := cast_zero) e (demo_event Start 30 3 (Some 30) (Some 1)) fan_graph) = true)
         by (vm_compute; reflexivity). rewrite E1 in G. cbn [rbind] in G. rewrite E2 in G. discriminate G. }
  assert (Ht : child_times (MkKey 1 (Some 10) None) [(demo_event Start 20 2 (Some 20) (Some 1), fan_graph)] = [20])
    by (vm_compute; reflexivity).
  assert (Hc : child_start_time (MkKey 1 (Some 10) None) (demo_event Start 30 3 (Some 30) (Some 1), fan_graph) = Some 30)
    by (vm_compute; reflexivity).
  assert (Hp : bool_decide (is_Some (find_process_node (snapshot fan_graph) (MkKey 1 (Some 10) None))) = true)
    by (vm_compute; reflexivity).
  assert (Ho : ordered (child_times (MkKey 1 (Some 10) None) [(demo_event Start 20 2 (Some 20) (Some 1), fan_graph)] ++ [30])).
  { rewrite Ht. split; repeat constructor; lia. }
  refine (proj2 (proj1 (fanout_exact (H := cast_zero) fan_config [] _ _ _ (MkKey 1 (Some 10) None) 30 e fs0 e' fs
    ltac:(discriminate) (Forall_nil_2 _) E1 E2 Hc Ho)) _).
  rewrite Ht. split; [reflexivity|]. split; [vm_compute; reflexivity|exact (bool_decide_eq_true_1 _ Hp)].
Defined.

(** A window in milliseconds is multiplied in 64 bits: 18446744073710 ms, a valid parameter,
    becomes a window of less than half a millisecond. *)
Lemma milliseconds_wraps `{CastUndefined} :
  milliseconds (rule_with_number (double_of_Z 18446744073710)) "retransmission_threshold" = Ok 448384 /\
  positive_integer (rule_with_number (double_of_Z 18446744073710)) "retransmission_threshold" = Ok 18446744073710.
Proof. split; vm_compute; reflexivity. Qed.
