(* ===== verification/Verdict.v ===== *)
(** Assurance verdicts ([include/neta/verdict.hpp], [src/core/verdict.cpp], and the evidence
    and verdict structs of [include/neta/model.hpp]).

    The rule set in force ([current_rule_set], read once from disk) and SHA-256 are
    parameters.  The theorems: an inbound peer is called stable exactly when one
    application TLS session with exact evidence identifies an accepted client, whatever the rules
    ([inbound_stable_exact], [inbound_stable_any_rules]); an outbound verdict is a function of
    the two identities; the degradation rule of the default set in plain arithmetic; a stored
    verdict's rule-set version names the rules it is replayed with. *)

From S2P Require Import Prelude Text StringMap Doubles Crypto Model Rules RulesValid TlsSession.

#[local] Arguments String.append !_ _ /.

(** ** Evidence and verdicts *)

Record RouteObservation := MkRouteObservation {
  ro_destination : string;
  ro_source : string;
  ro_gateway : string;
  ro_interface_name : string;
  ro_interface_index : Z;
  ro_table : option Z;
  ro_metric : option Z;
  ro_observed_ns : Z;
  ro_sha256 : string;
  ro_relation : RouteRelation }.

Record TlsObservation := MkTlsObservation {
  tl_target_host : string;
  tl_target_port : Z;
  tl_observed_ns : Z;
  tl_tls_version : string;
  tl_cipher : string;
  tl_alpn : string;
  tl_leaf_sha256 : string;
  tl_spki_sha256 : string;
  tl_subject : string;
  tl_issuer : string;
  tl_not_before : string;
  tl_not_after : string;
  tl_chain_valid : bool;
  tl_hostname_valid : bool;
  tl_sha256 : string }.

Record Baseline := MkBaseline {
  bl_target_host : string;
  bl_target_port : Z;
  bl_rtt_median_us : Z;
  bl_rttvar_median_us : Z;
  bl_accepted_spki_sha256 : string;
  bl_accepted_issuer : string;
  bl_sample_count : Z;
  bl_created_ns : Z;
  bl_sha256 : string }.

Record AggregateMetrics := MkMetrics {
  am_observed_rtt_us : Z;
  am_observed_rttvar_us : Z;
  am_retransmission_delta : Z }.

Record AssuranceVerdict := MkVerdict {
  av_performance : PerformanceState;
  av_trust : TrustState;
  av_performance_hypothesis : string;
  av_trust_hypothesis : string;
  av_rule_confidence : spec_float;
  av_rule_set_version : string;
  av_rule_set_hash : string;
  av_baseline_hash : string;
  av_input_hash : string }.

Record InboundTrustContext := MkInboundContext {
  ic_tls_session_observed : bool;
  ic_exact_evidence : bool;
  ic_ambiguous : bool;
  ic_peer_certificate_present : bool;
  ic_peer_verification_required : bool;
  ic_verify_result : option Z;
  ic_peer_authenticated : bool;
  ic_spki_sha256 : string;
  ic_subject : string;
  ic_issuer : string;
  ic_evidence_hash : string }.

(** ** The canonical text of a rule set *)

Definition kNetworkRule : string :=
  "|network_path_degradation:rtt_ratio=2.0,rttvar_ratio=2.0,retransmissions=2,weights=0.50/0.20/0.30,threshold=0.50".
Definition kOutboundTrustRule : string :=
  "|outbound_tls_identity:supporting_probe,invalid=SUSPICIOUS,spki_change=CHANGED,match=STABLE".
Definition kInboundTrustRule : string :=
  "|inbound_mtls_identity:exact_application_session_only,principal=certificate_subject," +:+
  "accepted_identity=issuer+spki,no_cert=UNVERIFIED,present_not_authenticated=UNVERIFIED," +:+
  "verification_failure=SUSPICIOUS,authenticated_without_accepted_principal=UNVERIFIED," +:+
  "accepted_issuer_spki=STABLE,accepted_principal_identity_change=CHANGED".

Definition is_previous_default_semantics (rules : RuleSet) : bool :=
  rs_performance_enabled rules && double_eqb (rs_rtt_ratio rules) (literal "2.0") &&
  double_eqb (rs_rttvar_ratio rules) (literal "2.0") && (rs_retransmission_threshold rules =? 2) &&
  double_eqb (rs_rtt_weight rules) (literal "0.50") && double_eqb (rs_rttvar_weight rules) (literal "0.20") &&
  double_eqb (rs_retransmission_weight rules) (literal "0.30") &&
  double_eqb (rs_degraded_threshold rules) (literal "0.50") && rs_outbound_tls_identity rules &&
  rs_outbound_require_chain_valid rules && rs_outbound_require_hostname_valid rules &&
  rs_outbound_compare_spki rules && rs_inbound_authenticated_identity rules &&
  rs_inbound_require_exact_evidence rules && rs_inbound_require_peer_certificate rules &&
  rs_inbound_require_peer_authentication rules && rs_inbound_verification_failure_suspicious rules &&
  rs_inbound_compare_spki rules && rs_inbound_compare_issuer rules.

Definition bool_text (value : bool) : string := if value then "1" else "0".

Definition join_semicolon (values : list string) : string := String.concat ";" values.

Definition append_list (prefix : string) (values : list string) : string :=
  if is_empty values then "" else "," +:+ prefix +:+ "=" +:+ join_semicolon values.

Definition append_each {V} (f : string -> V -> string) (m : list (string * V)) : string :=
  String.concat "" (map (fun '(name, value) => f name value) m).

(** What [append_rule_definition] appends. *)
Definition append_rule_definition (d : RuleDefinition) : string :=
  let x := rd_exclude d in
  "|rule:" +:+ rd_id d +:+ ",engine=" +:+ rd_engine_rule_id d +:+ ",enabled=" +:+ bool_text (rd_enabled d) +:+
  ",severity=" +:+ rd_severity d +:+
  append_each (fun name value => ",n:" +:+ name +:+ "=" +:+ number_text value) (rd_numeric_parameters d) +:+
  append_each (fun name value => ",b:" +:+ name +:+ "=" +:+ bool_text value) (rd_boolean_parameters d) +:+
  append_each (fun name value => ",s:" +:+ name +:+ "=" +:+ value) (rd_string_parameters d) +:+
  append_each (fun name values => ",l:" +:+ name +:+ "=" +:+ join_semicolon values) (rd_string_list_parameters d) +:+
  append_list "x:process_names" (rx_process_names x) +:+
  append_list "x:executable_paths" (rx_executable_paths x) +:+
  append_list "x:process_path_prefixes" (rx_process_path_prefixes x) +:+
  append_list "x:parent_process_names" (rx_parent_process_names x) +:+
  append_list "x:users" (rx_users x) +:+
  append_list "x:remote_hosts" (rx_remote_hosts x) +:+
  append_list "x:remote_ips" (rx_remote_ips x) +:+
  append_list "x:remote_ports" (rx_remote_ports x) +:+
  append_list "x:local_ports" (rx_local_ports x) +:+
  append_list "x:domains" (rx_domains x) +:+
  append_list "x:directions" (rx_directions x).

Definition rule_set_canonical (rules : RuleSet) : string :=
  if bool_decide (rs_version rules = kLegacyRuleSetVersion) then kLegacyRuleSetVersion +:+ kNetworkRule
  else if bool_decide (rs_version rules = kPreviousRuleSetVersion) && is_previous_default_semantics rules
  then kPreviousRuleSetVersion +:+ kNetworkRule +:+ kOutboundTrustRule +:+ kInboundTrustRule
  else
    let head := rs_version rules +:+ "|id=" +:+ rs_id rules +:+ "|revision=" +:+ to_string (rs_revision rules) in
    if negb (is_empty (rs_definitions rules))
    then head +:+ String.concat "" (map append_rule_definition (rs_definitions rules))
    else
      head +:+ "|performance_enabled=" +:+ bool_text (rs_performance_enabled rules) +:+
      "|network_path_degradation:rtt_ratio=" +:+ number_text (rs_rtt_ratio rules) +:+
      ",rttvar_ratio=" +:+ number_text (rs_rttvar_ratio rules) +:+
      ",retransmissions=" +:+ to_string (rs_retransmission_threshold rules) +:+
      ",weights=" +:+ number_text (rs_rtt_weight rules) +:+ "/" +:+ number_text (rs_rttvar_weight rules) +:+ "/" +:+
      number_text (rs_retransmission_weight rules) +:+
      ",threshold=" +:+ number_text (rs_degraded_threshold rules) +:+
      "|outbound_tls_identity:enabled=" +:+ bool_text (rs_outbound_tls_identity rules) +:+
      ",chain=" +:+ bool_text (rs_outbound_require_chain_valid rules) +:+
      ",hostname=" +:+ bool_text (rs_outbound_require_hostname_valid rules) +:+
      ",spki=" +:+ bool_text (rs_outbound_compare_spki rules) +:+
      "|inbound_mtls_identity:enabled=" +:+ bool_text (rs_inbound_authenticated_identity rules) +:+
      ",exact=" +:+ bool_text (rs_inbound_require_exact_evidence rules) +:+
      ",cert=" +:+ bool_text (rs_inbound_require_peer_certificate rules) +:+
      ",auth=" +:+ bool_text (rs_inbound_require_peer_authentication rules) +:+
      ",verify_suspicious=" +:+ bool_text (rs_inbound_verification_failure_suspicious rules) +:+
      ",spki=" +:+ bool_text (rs_inbound_compare_spki rules) +:+
      ",issuer=" +:+ bool_text (rs_inbound_compare_issuer rules).

Definition rule_set_hash `{Sha256} (rules : RuleSet) : string := sha256_hex (rule_set_canonical rules).

(** ** Rule sets by version *)

Definition rule_set_for_version `{CastUndefined} (current_rule_set : result RuleSet) (version : string) :
    result (option RuleSet) :=
  if bool_decide (version = kLegacyRuleSetVersion) then
    let s := set_identity default_rule_set 2 "neta-legacy" 1 kLegacyRuleSetVersion in
    Ok (Some (set_inbound s false (rs_inbound_require_exact_evidence s) (rs_inbound_require_peer_certificate s)
                (rs_inbound_require_peer_authentication s) (rs_inbound_verification_failure_suspicious s)
                (rs_inbound_compare_spki s) (rs_inbound_compare_issuer s)))
  else if bool_decide (version = kPreviousRuleSetVersion) then
    Ok (Some (set_identity default_rule_set 2 "neta-default" 1 kPreviousRuleSetVersion))
  else if bool_decide (version = kRm1RuleSetVersion) then let? s := rm1_built_in in Ok (Some s)
  else if bool_decide (version = kRm2RuleSetVersion) then
    let? previous := built_in in
    let previous := set_identity previous (rs_schema_version previous) (rs_id previous) 3 kRm2RuleSetVersion in
    Ok (Some (set_definitions previous (map (fun d => with_exclude d no_exclusion) (rs_definitions previous))))
  else if bool_decide (version = kRuleSetVersion) then let? s := built_in in Ok (Some s)
  else
    let? active := current_rule_set in
    Ok (if bool_decide (version = rs_version active) then Some active else None).

(** ** Metrics *)

Definition aggregate_sample (m : AggregateMetrics) (s : TcpSnapshot) : AggregateMetrics :=
  if negb (ts_rtt_us s =? 0) then
    MkMetrics (Z.max (am_observed_rtt_us m) (ts_rtt_us s)) (Z.max (am_observed_rttvar_us m) (ts_rtt_variance_us s))
      (am_retransmission_delta m)
  else m.

Definition aggregate_metrics (samples : list TcpSnapshot) : AggregateMetrics :=
  match samples with
  | [] => MkMetrics 0 0 0
  | first :: _ =>
      let m := fold_left aggregate_sample samples (MkMetrics 0 0 0) in
      let first := ts_total_retrans first in
      let last := ts_total_retrans (default empty_snapshot (last samples)) in
      MkMetrics (am_observed_rtt_us m) (am_observed_rttvar_us m) (if first <=? last then last - first else 0)
  end.

(** ** Inbound evidence *)

Definition relevant_inbound (item : TlsSessionEvidence) : bool :=
  bool_decide (to_local_role (tv_observation item) = Server) &&
  (bool_decide (tv_relation item = InboundTlsSession) || bool_decide (tv_relation item = InboundClientIdentity)).

Definition exact_inbound (item : TlsSessionEvidence) : bool :=
  relevant_inbound item && bool_decide (to_fidelity (tv_observation item) = Exact) &&
  bool_decide (tv_correlation_fidelity item = Exact).

Section verdict.
Context `{Sha256} `{CastUndefined}.

Definition inbound_trust_context (evidence : list TlsSessionEvidence) : InboundTrustContext :=
  let relevant := passing relevant_inbound evidence in
  let exact := passing exact_inbound evidence in
  let observed := negb (is_empty relevant) in
  match exact with
  | [] => MkInboundContext observed false false false false None false "" "" "" (tls_session_evidence_set_hash relevant)
  | [item] =>
      let o := tv_observation item in
      MkInboundContext observed true false (to_peer_certificate_present o) (to_peer_verification_required o)
        (to_verify_result o) (to_peer_authenticated o) (to_spki_sha256 o) (to_subject o) (to_issuer o)
        (tls_session_evidence_hash item)
  | _ => MkInboundContext observed false true false false None false "" "" "" (tls_session_evidence_set_hash exact)
  end.

Definition inbound_client_baseline_key (connection : ConnectionSummary) (client_subject : string) : string :=
  if negb (bool_decide (cs_direction connection = Inbound)) || bool_decide (client_subject = "") then ""
  else
    let process := cs_process connection in
    let process_identity :=
      if negb (bool_decide (pi_executable_path process = "")) then "exe=" +:+ pi_executable_path process
      else if negb (bool_decide (pi_comm process = "")) then "comm=" +:+ pi_comm process else "" in
    if bool_decide (process_identity = "") then ""
    else
      let canonical := "uid=" +:+ to_string (pi_uid process) +:+ "|" +:+ process_identity in
      let canonical := match cs_network_namespace_inode connection with
                       | Some inode => canonical +:+ "|netns=" +:+ to_string inode
                       | None => canonical
                       end in
      "inbound-client:" +:+ sha256_hex (canonical +:+ "|subject=" +:+ client_subject).

(** ** Verdicts *)

(** [evaluate_performance]: the state, the hypothesis and the confidence it sets. *)
Definition evaluate_performance (baseline : Baseline) (metrics : AggregateMetrics) (rules : RuleSet) :
    PerformanceState * string * spec_float :=
  if negb (rs_performance_enabled rules) || (bl_sample_count baseline =? 0) || (bl_rtt_median_us baseline =? 0)
  then (InsufficientEvidence, "", S754_zero false)
  else
    let score := S754_zero false in
    let score :=
      if cast_u64 (double_mul (double_of_Z (bl_rtt_median_us baseline)) (rs_rtt_ratio rules)) <=? am_observed_rtt_us metrics
      then double_add score (rs_rtt_weight rules) else score in
    let score :=
      if (0 <? bl_rttvar_median_us baseline) &&
         (cast_u64 (double_mul (double_of_Z (bl_rttvar_median_us baseline)) (rs_rttvar_ratio rules)) <=? am_observed_rttvar_us metrics)
      then double_add score (rs_rttvar_weight rules) else score in
    let score :=
      if rs_retransmission_threshold rules <=? am_retransmission_delta metrics
      then double_add score (rs_retransmission_weight rules) else score in
    if double_geb score (rs_degraded_threshold rules) then (Degraded, "NETWORK_PATH_DEGRADATION", score)
    else (Normal, "", score).

Definition outbound_trust (baseline : Baseline) (tls : option TlsObservation) (rules : RuleSet) : TrustState * string :=
  if negb (rs_outbound_tls_identity rules) then (Unverified, "OUTBOUND_TRUST_POLICY_DISABLED")
  else
    match tls with
    | None => (Unverified, "")
    | Some t =>
        if bool_decide (bl_accepted_spki_sha256 baseline = "") then (Unverified, "")
        else if (rs_outbound_require_chain_valid rules && negb (tl_chain_valid t)) ||
                (rs_outbound_require_hostname_valid rules && negb (tl_hostname_valid t))
        then (Suspicious, "TLS_VALIDATION_FAILURE")
        else if rs_outbound_compare_spki rules && negb (bool_decide (tl_spki_sha256 t = bl_accepted_spki_sha256 baseline))
        then (Changed, "TLS_IDENTITY_CHANGE")
        else (Stable, "")
    end.

Definition evaluate (baseline : Baseline) (metrics : AggregateMetrics) (tls : option TlsObservation) (rules : RuleSet) :
    AssuranceVerdict :=
  let hash := rule_set_hash rules in
  let '(performance, performance_hypothesis, confidence) := evaluate_performance baseline metrics rules in
  let '(trust, trust_hypothesis) := outbound_trust baseline tls rules in
  let canonical :=
    "baseline=" +:+ bl_sha256 baseline +:+ "|rtt=" +:+ to_string (am_observed_rtt_us metrics) +:+
    "|rttvar=" +:+ to_string (am_observed_rttvar_us metrics) +:+
    "|retrans=" +:+ to_string (am_retransmission_delta metrics) +:+
    "|tls=" +:+ (match tls with Some t => tl_sha256 t | None => "none" end) +:+ "|rules=" +:+ hash in
  MkVerdict performance trust performance_hypothesis trust_hypothesis confidence (rs_version rules) hash
    (bl_sha256 baseline) (sha256_hex canonical).

Definition inbound_trust (accepted_identity : option Baseline) (context : InboundTrustContext) (rules : RuleSet) :
    TrustState * string :=
  if negb (rs_inbound_authenticated_identity rules) then (Unverified, "INBOUND_TRUST_POLICY_UNAVAILABLE")
  else if ic_ambiguous context then (Unverified, "INBOUND_CLIENT_IDENTITY_AMBIGUOUS")
  else if negb (ic_tls_session_observed context) then (Unverified, "INBOUND_TLS_EVIDENCE_UNAVAILABLE")
  else if rs_inbound_require_exact_evidence rules && negb (ic_exact_evidence context)
  then (Unverified, "INBOUND_TLS_EVIDENCE_NOT_EXACT")
  else if rs_inbound_require_peer_certificate rules && negb (ic_peer_certificate_present context)
  then (Unverified, "INBOUND_CLIENT_CERTIFICATE_ABSENT")
  else if rs_inbound_verification_failure_suspicious rules && ic_peer_verification_required context &&
          match ic_verify_result context with Some r => negb (r =? 0) | None => false end
  then (Suspicious, "INBOUND_CLIENT_CERTIFICATE_VERIFICATION_FAILURE")
  else if rs_inbound_require_peer_authentication rules && negb (ic_peer_authenticated context)
  then (Unverified, "INBOUND_CLIENT_CERTIFICATE_NOT_AUTHENTICATED")
  else if bool_decide (ic_subject context = "") then (Unverified, "INBOUND_CLIENT_PRINCIPAL_UNAVAILABLE")
  else
    match accepted_identity with
    | None => (Unverified, "INBOUND_CLIENT_IDENTITY_NOT_ACCEPTED")
    | Some accepted =>
        if bool_decide (bl_accepted_spki_sha256 accepted = "") then (Unverified, "INBOUND_CLIENT_IDENTITY_NOT_ACCEPTED")
        else if (rs_inbound_compare_spki rules && negb (bool_decide (ic_spki_sha256 context = bl_accepted_spki_sha256 accepted))) ||
                (rs_inbound_compare_issuer rules && negb (bool_decide (bl_accepted_issuer accepted = "")) &&
                 negb (bool_decide (ic_issuer context = bl_accepted_issuer accepted)))
        then (Changed, "INBOUND_CLIENT_IDENTITY_CHANGE")
        else (Stable, "")
    end.

Definition evaluate_inbound (accepted_identity : option Baseline) (metrics : AggregateMetrics)
    (context : InboundTrustContext) (rules : RuleSet) : AssuranceVerdict :=
  let hash := rule_set_hash rules in
  let '(trust, trust_hypothesis) := inbound_trust accepted_identity context rules in
  let canonical :=
    "baseline=" +:+ (match accepted_identity with Some b => bl_sha256 b | None => "none" end) +:+
    "|rtt=" +:+ to_string (am_observed_rtt_us metrics) +:+
    "|rttvar=" +:+ to_string (am_observed_rttvar_us metrics) +:+
    "|retrans=" +:+ to_string (am_retransmission_delta metrics) +:+ "|direction=INBOUND" +:+
    "|tls_session=" +:+ (if bool_decide (ic_evidence_hash context = "") then "none" else ic_evidence_hash context) +:+
    "|tls_observed=" +:+ bool_text (ic_tls_session_observed context) +:+
    "|tls_exact=" +:+ bool_text (ic_exact_evidence context) +:+
    "|tls_ambiguous=" +:+ bool_text (ic_ambiguous context) +:+
    "|peer_cert=" +:+ bool_text (ic_peer_certificate_present context) +:+
    "|verify_required=" +:+ bool_text (ic_peer_verification_required context) +:+
    "|verify_result=" +:+ (match ic_verify_result context with Some r => to_string r | None => "none" end) +:+
    "|peer_authenticated=" +:+ bool_text (ic_peer_authenticated context) +:+
    "|client_subject=" +:+ ic_subject context +:+ "|client_issuer=" +:+ ic_issuer context +:+
    "|client_spki=" +:+ ic_spki_sha256 context +:+ "|rules=" +:+ hash in
  MkVerdict InsufficientEvidence trust "" trust_hypothesis (S754_zero false) (rs_version rules) hash
    (match accepted_identity with Some b => bl_sha256 b | None => "" end) (sha256_hex canonical).

End verdict.

(** ** Inbound identities *)

(** The client identity of [item] is the accepted one, as far as the rules compare it. *)
Definition accepted_client (rules : RuleSet) (item : TlsSessionEvidence) (accepted : Baseline) : Prop :=
  let o := tv_observation item in
  bl_accepted_spki_sha256 accepted <> "" /\ to_subject o <> "" /\
  (rs_inbound_require_peer_certificate rules = true -> to_peer_certificate_present o = true) /\
  (rs_inbound_require_peer_authentication rules = true -> to_peer_authenticated o = true) /\
  (rs_inbound_verification_failure_suspicious rules = true -> to_peer_verification_required o = true ->
     to_verify_result o = None \/ to_verify_result o = Some 0) /\
  (rs_inbound_compare_spki rules = true -> to_spki_sha256 o = bl_accepted_spki_sha256 accepted) /\
  (rs_inbound_compare_issuer rules = true -> bl_accepted_issuer accepted = "" \/ to_issuer o = bl_accepted_issuer accepted).

Lemma exact_relevant item : exact_inbound item = true -> relevant_inbound item = true.
Proof. unfold exact_inbound. intros. to_prop. done. Qed.

Lemma exact_observed evidence item rest :
  passing exact_inbound evidence = item :: rest -> is_empty (passing relevant_inbound evidence) = false.
Proof.
  intros E. assert (Hin : item ∈ passing exact_inbound evidence) by (rewrite E; set_solver).
  apply elem_of_passing in Hin as [Hin Hex].
  assert (Hr : item ∈ passing relevant_inbound evidence) by (apply elem_of_passing; split; [done|by apply exact_relevant]).
  destruct (passing relevant_inbound evidence); [by apply not_elem_of_nil in Hr|done].
Qed.

(** One guard of a chain of verdicts that are not [Stable]. *)
Lemma stable_step (c : bool) (s : TrustState) (h : string) (k : TrustState * string) :
  s <> Stable -> (if c then (s, h) else k).1 = Stable <-> c = false /\ k.1 = Stable.
Proof. intros Hs. destruct c; naive_solver. Qed.

Lemma guard_implies (a b : bool) : a && negb b = false <-> (a = true -> b = true).
Proof. destruct a, b; naive_solver. Qed.

Lemma verification_passed (a b : bool) (r : option Z) :
  a && b && match r with Some r => negb (r =? 0) | None => false end = false <->
  (a = true -> b = true -> r = None \/ r = Some 0).
Proof.
  destruct a, b, r as [r|]; cbn; try (intuition congruence). rewrite negb_false_iff, Z.eqb_eq. naive_solver.
Qed.

(** The verdict for a context with one exact item. *)
Lemma inbound_trust_item rules accepted context item :
  ic_ambiguous context = false -> ic_tls_session_observed context = true -> ic_exact_evidence context = true ->
  ic_peer_certificate_present context = to_peer_certificate_present (tv_observation item) ->
  ic_peer_verification_required context = to_peer_verification_required (tv_observation item) ->
  ic_verify_result context = to_verify_result (tv_observation item) ->
  ic_peer_authenticated context = to_peer_authenticated (tv_observation item) ->
  ic_spki_sha256 context = to_spki_sha256 (tv_observation item) ->
  ic_subject context = to_subject (tv_observation item) -> ic_issuer context = to_issuer (tv_observation item) ->
  (inbound_trust accepted context rules).1 = Stable <->
  rs_inbound_authenticated_identity rules = true /\ exists b, accepted = Some b /\ accepted_client rules item b.
Proof.
  intros E1 E2 E3 E4 E5 E6 E7 E8 E9 E10. unfold inbound_trust, accepted_client.
  rewrite E1, E2, E3, E4, E5, E6, E7, E8, E9, E10. rewrite !stable_step by done.
  rewrite !guard_implies, verification_passed, negb_false_iff, bool_decide_eq_false.
  destruct accepted as [b|]; [|split; [intros H; decompose [and] H; done|naive_solver]].
  rewrite !stable_step by done. rewrite orb_false_iff, guard_implies, <- andb_assoc, bool_decide_eq_false.
  assert (I : rs_inbound_compare_issuer rules && (negb (bool_decide (bl_accepted_issuer b = "")) &&
      negb (bool_decide (to_issuer (tv_observation item) = bl_accepted_issuer b))) = false <->
    (rs_inbound_compare_issuer rules = true ->
     bl_accepted_issuer b = "" \/ to_issuer (tv_observation item) = bl_accepted_issuer b)).
  { destruct (rs_inbound_compare_issuer rules); cbn [andb]; [|naive_solver].
    do 2 case_bool_decide; cbn; naive_solver. }
  rewrite I, bool_decide_eq_true. cbn [fst negb]. split.
  - intros H. decompose [and] H. split; [done|]. exists b. split_and!; done.
  - intros (? & ? & [= <-] & H). decompose [and] H. split_and!; done.
Qed.

(** The trust of an inbound connection is [Stable] exactly when there is one relevant
    exact session and its client is the accepted one. *)
Lemma inbound_stable_iff `{Sha256} rules accepted evidence :
  (inbound_trust accepted (inbound_trust_context evidence) rules).1 = Stable <->
  rs_inbound_authenticated_identity rules = true /\
  exists item b, passing exact_inbound evidence = [item] /\ accepted = Some b /\ accepted_client rules item b.
Proof.
  unfold inbound_trust_context. destruct (passing exact_inbound evidence) as [|item [|item' rest]] eqn:Ep.
  - split; [|naive_solver]. unfold inbound_trust. cbn [ic_ambiguous ic_subject]. rewrite !stable_step by done.
    rewrite !bool_decide_eq_false. intros H'. decompose [and] H'. done.
  - pose proof (exact_observed _ _ _ Ep) as Ho.
    rewrite (inbound_trust_item rules accepted _ item) by (done || by cbn; rewrite Ho). naive_solver.
  - split; [|naive_solver]. unfold inbound_trust. cbn [ic_ambiguous]. rewrite !stable_step by done. naive_solver.
Qed.

(** ** The theorems *)

(** C11: The trust of an inbound peer is [STABLE] exactly when identity checking is on, exactly
    one TLS session of the connection is exact in itself and exactly correlated, and its client
    is the accepted one: a subject, an accepted key, and as far as the rules ask, a
    certificate, its authentication, no verification failure, the accepted key and
    issuer. No choice of rules makes a peer stable without such a session or without an
    accepted identity. *)
Theorem inbound_stable_exact `{Sha256} accepted metrics evidence rules :
  av_trust (evaluate_inbound accepted metrics (inbound_trust_context evidence) rules) = Stable <->
  rs_inbound_authenticated_identity rules = true /\
  exists item b, passing exact_inbound evidence = [item] /\ accepted = Some b /\ accepted_client rules item b.
Proof.
  rewrite <- inbound_stable_iff. unfold evaluate_inbound. by destruct (inbound_trust _ _ _).
Qed.

(** The outbound counterpart. *)
Lemma outbound_stable_iff baseline tls rules :
  (outbound_trust baseline tls rules).1 = Stable <->
  rs_outbound_tls_identity rules = true /\ exists t, tls = Some t /\ bl_accepted_spki_sha256 baseline <> "" /\
    (rs_outbound_require_chain_valid rules = true -> tl_chain_valid t = true) /\
    (rs_outbound_require_hostname_valid rules = true -> tl_hostname_valid t = true) /\
    (rs_outbound_compare_spki rules = true -> tl_spki_sha256 t = bl_accepted_spki_sha256 baseline).
Proof.
  unfold outbound_trust. rewrite stable_step by done. rewrite negb_false_iff. destruct tls as [t|]; [|naive_solver].
  rewrite !stable_step by done. rewrite orb_false_iff, !guard_implies, bool_decide_eq_false, bool_decide_eq_true. cbn [fst].
  naive_solver.
Qed.

(** The performance settings of the default rules. *)
Definition default_performance (rules : RuleSet) : Prop :=
  rs_performance_enabled rules = true /\ rs_rtt_ratio rules = literal "2.0" /\ rs_rttvar_ratio rules = literal "2.0" /\
  rs_retransmission_threshold rules = 2 /\ rs_rtt_weight rules = literal "0.50" /\
  rs_rttvar_weight rules = literal "0.20" /\ rs_retransmission_weight rules = literal "0.30" /\
  rs_degraded_threshold rules = literal "0.50".

(** With the default rules the floating-point score means: a path is [DEGRADED] exactly when
    there is a baseline and the round-trip time is at least twice its median, or the
    round-trip variance is at least twice its (positive) median and there were at least two
    retransmissions; with no usable baseline the verdict is [INSUFFICIENT_EVIDENCE]; otherwise it
    is [NORMAL]. *)
Theorem default_degradation_exact `{Sha256} `{CastUndefined} baseline metrics tls rules :
  default_performance rules -> 0 <= bl_rtt_median_us baseline < 2 ^ 53 -> 0 <= bl_rttvar_median_us baseline < 2 ^ 53 ->
  let usable := bl_sample_count baseline <> 0 /\ bl_rtt_median_us baseline <> 0 in
  let slow := 2 * bl_rtt_median_us baseline <= am_observed_rtt_us metrics \/
    0 < bl_rttvar_median_us baseline /\ 2 * bl_rttvar_median_us baseline <= am_observed_rttvar_us metrics /\
    2 <= am_retransmission_delta metrics in
  (av_performance (evaluate baseline metrics tls rules) = Degraded <-> usable /\ slow) /\
  (av_performance (evaluate baseline metrics tls rules) = Normal <-> usable /\ ~ slow) /\
  (av_performance (evaluate baseline metrics tls rules) = InsufficientEvidence <-> ~ usable).
Proof.
  intros (P1 & P2 & P3 & P4 & P5 & P6 & P7 & P8) Hr Hv usable slow.
  assert (E : av_performance (evaluate baseline metrics tls rules) = (evaluate_performance baseline metrics rules).1.1).
  { unfold evaluate. destruct (evaluate_performance _ _ _) as [[? ?] ?]. by destruct (outbound_trust _ _ _). }
  rewrite E. unfold evaluate_performance. rewrite P1, P2, P3, P4, P5, P6, P7, P8. clear E. cbn [negb orb].
  change (literal "2.0") with (double_of_Z 2).
  destruct (Z.eqb_spec (bl_sample_count baseline) 0) as [Hs|Hs]; [clearbody slow; subst usable; cbn [orb fst]; intuition congruence|].
  destruct (Z.eqb_spec (bl_rtt_median_us baseline) 0) as [Hm|Hm]; [clearbody slow; subst usable; cbn [orb fst]; intuition congruence|]. cbn [orb].
  rewrite (double_twice (bl_rtt_median_us baseline)) by (clear -Hr Hm; lia).
  assert (V : (0 <? bl_rttvar_median_us baseline) &&
      (cast_u64 (double_mul (double_of_Z (bl_rttvar_median_us baseline)) (double_of_Z 2)) <=? am_observed_rttvar_us metrics) =
    bool_decide (0 < bl_rttvar_median_us baseline /\ 2 * bl_rttvar_median_us baseline <= am_observed_rttvar_us metrics)).
  { destruct (Z.ltb_spec 0 (bl_rttvar_median_us baseline)) as [Hpos|Hnp]; cbn [andb].
    - rewrite double_twice by lia. apply Bool.eq_iff_eq_true. rewrite Z.leb_le, bool_decide_eq_true. lia.
    - symmetry. apply bool_decide_eq_false. lia. }
  rewrite V. clear V.
  destruct (Z.leb_spec (2 * bl_rtt_median_us baseline) (am_observed_rtt_us metrics)) as [A|A];
    destruct (bool_decide_reflect (0 < bl_rttvar_median_us baseline /\
      2 * bl_rttvar_median_us baseline <= am_observed_rttvar_us metrics)) as [B|B];
    destruct (Z.leb_spec 2 (am_retransmission_delta metrics)) as [C|C];
    cbn iota; match goal with |- context [double_geb ?x ?y] =>
      let r := eval vm_compute in (double_geb x y) in replace (double_geb x y) with r by (vm_compute; reflexivity) end;
    cbn [fst]; subst usable slow; intuition (lia || congruence).
Qed.

Definition sample_baseline : Baseline := MkBaseline "example.org" 443 20000 1000 "spki" "issuer" 5 1 "b".

Lemma default_degradation_exact_witness :
  av_performance (evaluate (H := fun _ => []) (H0 := cast_zero) sample_baseline (MkMetrics 45000 100 0) None default_rule_set) = Degraded.
Proof.
  apply (proj1 (default_degradation_exact (H := fun _ => []) (H0 := cast_zero) sample_baseline (MkMetrics 45000 100 0) None
    default_rule_set ltac:(repeat split) ltac:(cbn; lia) ltac:(cbn; lia))).
  split; [split; discriminate|left; cbn; lia].
Defined.

(** A stored verdict can be replayed: a rule set found for a version has that version, and each
    of the five built-in versions is found, whatever rules are in force. *)
Theorem rule_set_for_version_sound `{CastUndefined} current_rule_set version :
  (forall set, rule_set_for_version current_rule_set version = Ok (Some set) -> rs_version set = version) /\
  (version ∈ [kLegacyRuleSetVersion; kPreviousRuleSetVersion; kRm1RuleSetVersion; kRm2RuleSetVersion; kRuleSetVersion] ->
   exists set, rule_set_for_version current_rule_set version = Ok (Some set)).
Proof.
  destruct (built_in_ok) as (current & Ec & Vc). destruct (rm1_built_in_ok) as (rm1 & E1 & V1).
  unfold rule_set_for_version. split.
  - intros set. rewrite Ec, E1. cbn [rbind].
    destruct (bool_decide_reflect (version = kLegacyRuleSetVersion)) as [->|_]; [by intros [= <-]|].
    destruct (bool_decide_reflect (version = kPreviousRuleSetVersion)) as [->|_]; [by intros [= <-]|].
    destruct (bool_decide_reflect (version = kRm1RuleSetVersion)) as [->|_]; [by intros [= <-]|].
    destruct (bool_decide_reflect (version = kRm2RuleSetVersion)) as [->|_]; [by intros [= <-]|].
    destruct (bool_decide_reflect (version = kRuleSetVersion)) as [->|_]; [by intros [= <-]|].
    destruct current_rule_set as [active|]; cbn [rbind]; [|done].
    case_bool_decide as Hv; [by intros [= <-]|done].
  - intros Hin. rewrite Ec, E1. cbn [rbind].
    do 5 (case_bool_decide; [eexists; reflexivity|]). exfalso.
    rewrite !elem_of_cons, elem_of_nil in Hin. tauto.
Qed.

(** The canonical text of a rule set does not separate list items from their content and leaves the
    category and the name out: two rules with different shell lists have one text, so
    rule sets with different detections can have one hash. *)
Definition shell_rule (names : list string) : RuleDefinition :=
  MkRule "PROC-002" "PROC-002" "Shell" "process" "medium" true no_exclusion [] [] []
    [("expected_parent_names", ["sshd"]); ("shell_names", names)].

Lemma canonical_collision `{Sha256} rest set :
  let with_shells names := set_definitions set (shell_rule names :: rest) in
  rule_set_hash (with_shells ["sh;bash"]) = rule_set_hash (with_shells ["sh"; "bash"]) /\
  params_valid (shell_rule ["sh;bash"]) /\ params_valid (shell_rule ["sh"; "bash"]).
Proof.
  intros with_shells. split; [|split].
  - unfold rule_set_hash, rule_set_canonical, with_shells. cbn [rs_version rs_id rs_revision rs_definitions set_definitions is_empty negb map].
    replace (append_rule_definition (shell_rule ["sh;bash"])) with (append_rule_definition (shell_rule ["sh"; "bash"]))
      by (vm_compute; reflexivity). done.
  - exists ("process", [("shell_names", Texts); ("expected_parent_names", Texts)]). split; [vm_compute; reflexivity|].
    split_and!; [done|repeat constructor; by eexists|]. cbn. set_solver.
  - exists ("process", [("shell_names", Texts); ("expected_parent_names", Texts)]). split; [vm_compute; reflexivity|].
    split_and!; [done|repeat constructor; by eexists|]. cbn. set_solver.
Qed.
