(* ===== verification/ContextRules.v ===== *)
(** Context rules: detections on one connection with its correlated evidence
    ([include/neta/context_rule_engine.hpp], [src/core/context_rule_engine.cpp]).

    The theorems: with a loaded rule set the engine never throws and reports exactly the
    enabled, not excluded rules whose condition ([triggers]) holds, in the order of the set
    ([context_rules_exact]); and, composed with name-resolution correlation, that two of the
    conditions can never hold ([dns_rules_never_match]). *)

From S2P Require Import Prelude Text StringMap Doubles Crypto Model Rules RulesValid NameResolution TlsSession Verdict.

#[local] Arguments String.append !_ _ /.

Record ContextRuleMatch := MkMatch {
  cm_rule_id : string;
  cm_engine_rule_id : string;
  cm_category : string;
  cm_severity : string;
  cm_semantic_type : string;
  cm_summary : string;
  cm_interpretation : string }.

Record ConnectionRuleContext := MkContext {
  cc_connection : ConnectionSummary;
  cc_metrics : AggregateMetrics;
  cc_baseline : option Baseline;
  cc_name_resolution : list NameResolutionEvidence;
  cc_tls_sessions : list TlsSessionEvidence;
  cc_route : option RouteObservation;
  cc_bytes_sent : option Z;
  cc_bytes_received : option Z;
  cc_destination_prevalence : option Z }.

(** ** Helpers *)

Definition domains_of (item : NameResolutionEvidence) : list string :=
  let o := nv_observation item in
  (if negb (bool_decide (no_query_name o = "")) then [no_query_name o] else []) ++
  match no_canonical_name o with
  | Some name => if negb (bool_decide (name = "")) then [name] else []
  | None => []
  end.

Definition correlated_domains (evidence : list NameResolutionEvidence) : list string :=
  concat (map domains_of evidence).

Definition port_allowed (rule : RuleDefinition) (port : Z) : result bool :=
  let? allowed := string_list rule "allowed_ports" in Ok (bool_decide (to_string port ∈ allowed)).

Definition exact_outbound_tls (evidence : list TlsSessionEvidence) : option TlsSessionEvidence :=
  List.find (fun item =>
    bool_decide (tv_correlation_fidelity item = Exact) &&
    (bool_decide (tv_relation item = OutboundServerIdentity) || bool_decide (tv_relation item = OutboundTlsSession))) evidence.

Definition failed_lookup (item : NameResolutionEvidence) : bool :=
  match no_result_code (nv_observation item) with Some code => negb (code =? 0) | None => false end.
Definition failed_dns_count (evidence : list NameResolutionEvidence) : Z :=
  Z.of_nat (length (passing failed_lookup evidence)).

(** The addresses the loop of [dns_contains_remote] looks at. *)
Definition forward_addresses (evidence : list NameResolutionEvidence) : list string :=
  concat (map (fun item =>
    if bool_decide (no_query_kind (nv_observation item) = Forward) &&
       (bool_decide (nv_correlation_fidelity item = Exact) || bool_decide (nv_correlation_fidelity item = StronglyCorrelated))
    then map na_address (no_addresses (nv_observation item)) else []) evidence).

Definition address_matches (remote_ip address : string) : bool :=
  bool_decide (address = remote_ip) ||
  (starts_with "::ffff:" remote_ip && bool_decide (address = substr_from remote_ip 7)).

Definition dns_contains_remote (context : ConnectionRuleContext) : bool :=
  let remote_ip := cs_remote_ip (cc_connection context) in
  if bool_decide (remote_ip = "") then false
  else
    let addresses := forward_addresses (cc_name_resolution context) in
    if existsb (address_matches remote_ip) addresses then true else is_empty addresses.

Definition forward_answers (evidence : list NameResolutionEvidence) : gset string :=
  list_to_set (concat (map (fun item =>
    if bool_decide (no_query_kind (nv_observation item) = Forward)
    then map na_address (no_addresses (nv_observation item)) else []) evidence)).
Definition distinct_dns_answers (evidence : list NameResolutionEvidence) : Z := Z.of_nat (size (forward_answers evidence)).

Definition list_contains (values : list string) (value : string) : bool := bool_decide (value ∈ values).

Definition semantic_types : list (string * string) :=
  [("NET-002", "TCP_RETRANSMISSION_SPIKE"); ("NET-003", "UNUSUAL_OUTBOUND_DESTINATION_PORT");
   ("NET-004", "RARE_OUTBOUND_DESTINATION"); ("NET-005", "HIGH_OUTBOUND_ASYMMETRY");
   ("DNS-001", "REPEATED_DNS_FAILURES"); ("DNS-002", "DNS_CONNECTION_MISMATCH"); ("DNS-003", "DNS_ANSWER_CHURN");
   ("TLS-001", "TLS_VALIDATION_FAILURE"); ("TLS-002", "TLS_IDENTITY_CHANGE"); ("ROUTE-001", "UNEXPECTED_ROUTE")].

Definition rule_match (rule : RuleDefinition) (summary interpretation : string) : ContextRuleMatch :=
  MkMatch (rd_id rule) (rd_engine_rule_id rule) (rd_category rule) (rd_severity rule)
    (default (rd_engine_rule_id rule) (map_find semantic_types (rd_engine_rule_id rule))) summary interpretation.

(** ** Evaluation *)

Section evaluate.
Context `{CastUndefined} `{LongDouble}.

(** [if (condition) return match(...); return std::nullopt;] *)
Definition match_if (condition : bool) (rule : RuleDefinition) (summary interpretation : string) :
    result (option ContextRuleMatch) :=
  Ok (if condition then Some (rule_match rule summary interpretation) else None).

Definition is_outbound (context : ConnectionRuleContext) : bool :=
  bool_decide (cs_direction (cc_connection context) = Outbound).

Definition evaluate_transfer_asymmetry (rule : RuleDefinition) (context : ConnectionRuleContext) :
    result (option ContextRuleMatch) :=
  match cc_bytes_sent context, cc_bytes_received context with
  | Some sent, Some received =>
      if negb (is_outbound context) then Ok None
      else
        let? minimum_sent := numeric rule "minimum_bytes_sent" in
        let? minimum_ratio := numeric rule "minimum_sent_to_received_ratio" in
        let? received_floor := numeric rule "received_bytes_floor" in
        if sent <? cast_u64 minimum_sent then Ok None
        else
          let denominator := Z.max received (cast_u64 received_floor) in
          let ratio := ld_div (ld_of_Z sent) (ld_of_Z denominator) in
          match_if (double_geb ratio (ld_of_double minimum_ratio)) rule
            "Outbound transfer volume was highly asymmetric."
            "A high outbound-to-inbound byte ratio can be expected for uploads, backups, or telemetry and can also merit investigation; data exfiltration is not established."
  | _, _ => Ok None
  end.

Definition evaluate_tls_validation (rule : RuleDefinition) (context : ConnectionRuleContext) :
    result (option ContextRuleMatch) :=
  match exact_outbound_tls (cc_tls_sessions context) with
  | None => Ok None
  | Some tls =>
      let o := tv_observation tls in
      let? require := boolean rule "require_peer_authentication" in
      let unauthenticated := require && negb (to_peer_authenticated o) in
      let? match_failure := boolean rule "verification_failure_match" in
      let verification_failed := match_failure && match to_verify_result o with Some r => negb (r =? 0) | None => false end in
      match_if (unauthenticated || verification_failed) rule
        "Exact application TLS evidence failed the configured validation or authentication policy."
        "A failed or unauthenticated TLS peer can reflect interception, misconfiguration, certificate problems, or an untrusted endpoint and warrants investigation."
  end.

(** [configured && !accepted.empty() && accepted != observed] *)
Definition identity_changed (compare : bool) (accepted observed : string) : bool :=
  compare && negb (bool_decide (accepted = "")) && negb (bool_decide (accepted = observed)).

Definition evaluate_tls_identity (rule : RuleDefinition) (context : ConnectionRuleContext) :
    result (option ContextRuleMatch) :=
  match exact_outbound_tls (cc_tls_sessions context), cc_baseline context with
  | Some tls, Some baseline =>
      let o := tv_observation tls in
      let? compare_spki := boolean rule "compare_spki" in
      let? compare_issuer := boolean rule "compare_issuer" in
      match_if (identity_changed compare_spki (bl_accepted_spki_sha256 baseline) (to_spki_sha256 o) ||
                identity_changed compare_issuer (bl_accepted_issuer baseline) (to_issuer o)) rule
        "TLS peer identity differed from the accepted baseline."
        "A changed TLS identity can result from legitimate certificate rotation, load-balancer changes, interception, or endpoint replacement and should be verified."
  | _, _ => Ok None
  end.

Definition outside (allowed : list string) (value : string) : bool :=
  negb (is_empty allowed) && negb (list_contains allowed value).

Definition evaluate_route (rule : RuleDefinition) (context : ConnectionRuleContext) : result (option ContextRuleMatch) :=
  match cc_route context with
  | None => Ok None
  | Some route =>
      let? gateways := string_list rule "allowed_gateways" in
      let? interfaces := string_list rule "allowed_interfaces" in
      match_if (outside gateways (ro_gateway route) || outside interfaces (ro_interface_name route)) rule
        "Observed route used a gateway or interface outside the configured allowlist."
        "Unexpected route selection can result from VPNs, failover, local reconfiguration, or traffic redirection and should be correlated with host or network changes."
  end.

Definition evaluate_one (rule : RuleDefinition) (context : ConnectionRuleContext) : result (option ContextRuleMatch) :=
  let connection := cc_connection context in
  let engine := rd_engine_rule_id rule in
  if negb (rd_enabled rule) then Ok None
  else if excludes_connection (rd_exclude rule) connection (correlated_domains (cc_name_resolution context)) None then Ok None
  else if bool_decide (engine = "NET-002") then
    let? threshold := numeric rule "retransmission_threshold" in
    match_if (cast_u64 threshold <=? am_retransmission_delta (cc_metrics context)) rule
      "TCP retransmissions exceeded the configured rule threshold."
      "Repeated retransmissions can indicate path degradation, packet loss, interference, or deliberate disruption; malicious intent is not established."
  else if bool_decide (engine = "NET-003") then
    if negb (is_outbound context) || (cs_remote_port connection =? 0) then Ok None
    else
      let? allowed := port_allowed rule (cs_remote_port connection) in
      match_if (negb allowed) rule
        "Outbound connection used a destination port outside the configured allowlist."
        "An unusual destination port can be legitimate application behavior or a sign of tunneling or custom protocol use; malicious intent is not established."
  else if bool_decide (engine = "NET-004") then
    match cc_destination_prevalence context with
    | Some prevalence =>
        if negb (is_outbound context) then Ok None
        else
          let? maximum := numeric rule "maximum_prevalence" in
          match_if (prevalence <=? cast_u64 maximum) rule
            "Outbound connection targeted a destination with low local prevalence."
            "Rare destinations deserve additional context, especially when combined with process, DNS, TLS, or transfer anomalies; rarity alone is not malicious."
    | None => Ok None
    end
  else if bool_decide (engine = "NET-005") then evaluate_transfer_asymmetry rule context
  else if bool_decide (engine = "DNS-001") then
    let? minimum := numeric rule "minimum_failures" in
    match_if (cast_u64 minimum <=? failed_dns_count (cc_name_resolution context)) rule
      "Correlated DNS activity contained repeated resolution failures."
      "Repeated resolver failures can result from outages, stale configuration, blocked domains, or generated-domain behavior; malicious intent is not established."
  else if bool_decide (engine = "DNS-002") then
    if negb (is_outbound context) || is_empty (cc_name_resolution context) then Ok None
    else
      let? require := boolean rule "require_remote_ip_match" in
      match_if (require && negb (dns_contains_remote context)) rule
        "Correlated DNS answers did not contain the remote address used by the connection."
        "A DNS-to-connection mismatch may indicate stale correlation, proxying, address rewriting, or unexpected name resolution behavior and should be investigated."
  else if bool_decide (engine = "DNS-003") then
    let? maximum := numeric rule "maximum_distinct_answers" in
    match_if (cast_u64 maximum <? distinct_dns_answers (cc_name_resolution context)) rule
      "Correlated DNS evidence contained more distinct answers than the configured limit."
      "High DNS answer churn can be normal for CDNs but can also accompany fast-flux or rapidly changing infrastructure; malicious intent is not established."
  else if bool_decide (engine = "TLS-001") then evaluate_tls_validation rule context
  else if bool_decide (engine = "TLS-002") then evaluate_tls_identity rule context
  else if bool_decide (engine = "ROUTE-001") then evaluate_route rule context
  else Ok None.

(** [ContextRuleEngine::evaluate] *)
Fixpoint evaluate_rules (rules : list RuleDefinition) (context : ConnectionRuleContext) : result (list ContextRuleMatch) :=
  match rules with
  | [] => Ok []
  | rule :: rules =>
      let? here := evaluate_one rule context in
      let? later := evaluate_rules rules context in
      Ok (option_list here ++ later)
  end.

Definition evaluate_context (set : RuleSet) (context : ConnectionRuleContext) : result (list ContextRuleMatch) :=
  evaluate_rules (rs_definitions set) context.

End evaluate.

(** ** What the rules mean *)

Section meaning.
Context `{CastUndefined} `{LongDouble}.

Inductive triggers (d : RuleDefinition) (c : ConnectionRuleContext) : Prop :=
| on_retransmissions v :
    rd_engine_rule_id d = "NET-002" -> numeric d "retransmission_threshold" = Ok v ->
    cast_u64 v <= am_retransmission_delta (cc_metrics c) -> triggers d c
| on_port allowed :
    rd_engine_rule_id d = "NET-003" -> cs_direction (cc_connection c) = Outbound ->
    cs_remote_port (cc_connection c) <> 0 -> string_list d "allowed_ports" = Ok allowed ->
    to_string (cs_remote_port (cc_connection c)) ∉ allowed -> triggers d c
| on_rare_destination prevalence v :
    rd_engine_rule_id d = "NET-004" -> cs_direction (cc_connection c) = Outbound ->
    cc_destination_prevalence c = Some prevalence -> numeric d "maximum_prevalence" = Ok v ->
    prevalence <= cast_u64 v -> triggers d c
| on_asymmetry sent received minimum ratio floor :
    rd_engine_rule_id d = "NET-005" -> cs_direction (cc_connection c) = Outbound ->
    cc_bytes_sent c = Some sent -> cc_bytes_received c = Some received ->
    numeric d "minimum_bytes_sent" = Ok minimum -> numeric d "minimum_sent_to_received_ratio" = Ok ratio ->
    numeric d "received_bytes_floor" = Ok floor -> cast_u64 minimum <= sent ->
    double_geb (ld_div (ld_of_Z sent) (ld_of_Z (Z.max received (cast_u64 floor)))) (ld_of_double ratio) = true ->
    triggers d c
| on_dns_failures v :
    rd_engine_rule_id d = "DNS-001" -> numeric d "minimum_failures" = Ok v ->
    cast_u64 v <= failed_dns_count (cc_name_resolution c) -> triggers d c
| on_dns_mismatch :
    rd_engine_rule_id d = "DNS-002" -> cs_direction (cc_connection c) = Outbound -> cc_name_resolution c <> [] ->
    boolean d "require_remote_ip_match" = Ok true -> dns_contains_remote c = false -> triggers d c
| on_dns_churn v :
    rd_engine_rule_id d = "DNS-003" -> numeric d "maximum_distinct_answers" = Ok v ->
    cast_u64 v < Z.of_nat (size (forward_answers (cc_name_resolution c))) -> triggers d c
| on_unauthenticated tls :
    rd_engine_rule_id d = "TLS-001" -> exact_outbound_tls (cc_tls_sessions c) = Some tls ->
    boolean d "require_peer_authentication" = Ok true -> to_peer_authenticated (tv_observation tls) = false -> triggers d c
| on_verification_failure tls r :
    rd_engine_rule_id d = "TLS-001" -> exact_outbound_tls (cc_tls_sessions c) = Some tls ->
    boolean d "verification_failure_match" = Ok true -> to_verify_result (tv_observation tls) = Some r -> r <> 0 -> triggers d c
| on_key_change tls b :
    rd_engine_rule_id d = "TLS-002" -> exact_outbound_tls (cc_tls_sessions c) = Some tls -> cc_baseline c = Some b ->
    boolean d "compare_spki" = Ok true -> bl_accepted_spki_sha256 b <> "" ->
    bl_accepted_spki_sha256 b <> to_spki_sha256 (tv_observation tls) -> triggers d c
| on_issuer_change tls b :
    rd_engine_rule_id d = "TLS-002" -> exact_outbound_tls (cc_tls_sessions c) = Some tls -> cc_baseline c = Some b ->
    boolean d "compare_issuer" = Ok true -> bl_accepted_issuer b <> "" ->
    bl_accepted_issuer b <> to_issuer (tv_observation tls) -> triggers d c
| on_gateway route allowed :
    rd_engine_rule_id d = "ROUTE-001" -> cc_route c = Some route -> string_list d "allowed_gateways" = Ok allowed ->
    allowed <> [] -> ro_gateway route ∉ allowed -> triggers d c
| on_interface route allowed :
    rd_engine_rule_id d = "ROUTE-001" -> cc_route c = Some route -> string_list d "allowed_interfaces" = Ok allowed ->
    allowed <> [] -> ro_interface_name route ∉ allowed -> triggers d c.

(** The evaluation of one rule reports [P]. *)
Definition reports (d : RuleDefinition) (r : result (option ContextRuleMatch)) (P : Prop) : Prop :=
  exists o, r = Ok o /\ (is_Some o <-> P) /\ forall m, o = Some m -> cm_rule_id m = rd_id d.

Lemma reports_none d (P : Prop) : ~ P -> reports d (Ok None) P.
Proof. intros HP. exists None. split_and!; [done| |done]. split; [by intros [? ?]|done]. Qed.

Lemma reports_match_if d c P summary interpretation :
  (c = true <-> P) -> reports d (match_if c d summary interpretation) P.
Proof.
  intros HP. eexists. split; [done|]. destruct c.
  - split; [|by intros m [= <-]]. split; [intros _; by apply HP|by eexists].
  - split; [|done]. split; [by intros [? ?]|]. intros H'. apply HP in H'. done.
Qed.

(** Only the constructors of the engine at hand. *)
Ltac trigger_cases E :=
  intros []; rewrite E in *; try discriminate; simplify_eq;
  repeat match goal with H1 : ?x = Ok ?a, H2 : ?x = Ok ?b |- _ =>
    assert (a = b) by congruence; subst b; clear H2 end.

Lemma net_reports d c : params_valid d ->
  rd_engine_rule_id d = "NET-005" -> reports d (evaluate_transfer_asymmetry d c) (triggers d c).
Proof.
  intros Hv E. unfold evaluate_transfer_asymmetry.
  destruct (cc_bytes_sent c) as [sent|] eqn:Es; [|apply reports_none; trigger_cases E].
  destruct (cc_bytes_received c) as [received|] eqn:Er; [|apply reports_none; trigger_cases E].
  unfold is_outbound. case_bool_decide as Ho; cbn [negb]; [|apply reports_none; trigger_cases E; congruence].
  destruct (number_of d _ "minimum_bytes_sent" PositiveInteger Hv E) as [a Ea]; [by vm_compute|done..|].
  destruct (number_of d _ "minimum_sent_to_received_ratio" AboveOne Hv E) as [b Eb]; [by vm_compute|done..|].
  destruct (number_of d _ "received_bytes_floor" PositiveInteger Hv E) as [f Ef]; [by vm_compute|done..|].
  rewrite Ea, Eb, Ef. cbn [rbind]. destruct (Z.ltb_spec sent (cast_u64 a)) as [Hlt|Hge].
  - apply reports_none. trigger_cases E. lia.
  - apply reports_match_if. split; [intros; by eapply on_asymmetry|]. trigger_cases E. done.
Qed.

Lemma validation_reports d c : params_valid d ->
  rd_engine_rule_id d = "TLS-001" -> reports d (evaluate_tls_validation d c) (triggers d c).
Proof.
  intros Hv E. unfold evaluate_tls_validation.
  destruct (exact_outbound_tls (cc_tls_sessions c)) as [tls|] eqn:Et; [|apply reports_none; trigger_cases E].
  destruct (flag_of d _ "require_peer_authentication" Hv E) as [a Ea]; [by vm_compute|].
  destruct (flag_of d _ "verification_failure_match" Hv E) as [b Eb]; [by vm_compute|].
  rewrite Ea, Eb. cbn [rbind]. apply reports_match_if. rewrite orb_true_iff, !andb_true_iff, negb_true_iff. split.
  - intros [[-> Hp]|[-> Hr]]; [by eapply on_unauthenticated|].
    destruct (to_verify_result (tv_observation tls)) as [r|] eqn:Er; [|done]. to_prop. by eapply on_verification_failure.
  - trigger_cases E; [by left|right]. split; [done|].
    match goal with Hr : to_verify_result _ = _ |- _ => rewrite Hr end. by apply negb_true_iff, Z.eqb_neq.
Qed.

Lemma identity_changed_true compare accepted observed :
  identity_changed compare accepted observed = true <-> compare = true /\ accepted <> "" /\ accepted <> observed.
Proof.
  unfold identity_changed. rewrite !andb_true_iff, !negb_true_iff, !bool_decide_eq_false. naive_solver.
Qed.

Lemma identity_reports d c : params_valid d ->
  rd_engine_rule_id d = "TLS-002" -> reports d (evaluate_tls_identity d c) (triggers d c).
Proof.
  intros Hv E. unfold evaluate_tls_identity.
  destruct (exact_outbound_tls (cc_tls_sessions c)) as [tls|] eqn:Et; [|apply reports_none; trigger_cases E].
  destruct (cc_baseline c) as [b|] eqn:Eb; [|apply reports_none; trigger_cases E].
  destruct (flag_of d _ "compare_spki" Hv E) as [s Es]; [by vm_compute|].
  destruct (flag_of d _ "compare_issuer" Hv E) as [i Ei]; [by vm_compute|].
  rewrite Es, Ei. cbn [rbind]. apply reports_match_if. rewrite orb_true_iff, !identity_changed_true. split.
  - intros [(-> & ? & ?)|(-> & ? & ?)]; [by eapply on_key_change|by eapply on_issuer_change].
  - trigger_cases E; [by left|by right].
Qed.

Lemma outside_true allowed value : outside allowed value = true <-> allowed <> [] /\ value ∉ allowed.
Proof.
  unfold outside, list_contains. rewrite andb_true_iff, !negb_true_iff, bool_decide_eq_false.
  destruct allowed; naive_solver.
Qed.

Lemma route_reports d c : params_valid d ->
  rd_engine_rule_id d = "ROUTE-001" -> reports d (evaluate_route d c) (triggers d c).
Proof.
  intros Hv E. unfold evaluate_route.
  destruct (cc_route c) as [route|] eqn:Er; [|apply reports_none; trigger_cases E].
  destruct (texts_of d _ "allowed_gateways" Hv E) as [g Eg]; [by vm_compute|].
  destruct (texts_of d _ "allowed_interfaces" Hv E) as [i Ei]; [by vm_compute|].
  rewrite Eg, Ei. cbn [rbind]. apply reports_match_if. rewrite orb_true_iff, !outside_true. split.
  - intros [[? ?]|[? ?]]; [by eapply on_gateway|by eapply on_interface].
  - trigger_cases E; [by left|by right].
Qed.

Definition applies (d : RuleDefinition) (c : ConnectionRuleContext) : Prop :=
  rd_enabled d = true /\
  excludes_connection (rd_exclude d) (cc_connection c) (correlated_domains (cc_name_resolution c)) None = false /\
  triggers d c.

Lemma reports_iff d r P Q : (P <-> Q) -> reports d r P -> reports d r Q.
Proof. intros HPQ (o & -> & Ho & Hm). exists o. split_and!; [done| |done]. by rewrite Ho. Qed.

Lemma evaluate_one_reports d c : params_valid d -> reports d (evaluate_one d c) (applies d c).
Proof.
  intros Hv. unfold evaluate_one, applies.
  destruct (rd_enabled d); cbn [negb]; [|apply reports_none; naive_solver].
  destruct (excludes_connection _ _ _ _); [apply reports_none; naive_solver|].
  apply (reports_iff d _ (triggers d c)); [naive_solver|].
  destruct (bool_decide_reflect (rd_engine_rule_id d = "NET-002")) as [E|N2].
  { destruct (number_of d _ "retransmission_threshold" PositiveInteger Hv E) as [v Ev]; [by vm_compute|done..|].
    rewrite Ev. apply reports_match_if. rewrite Z.leb_le. split; [by eapply on_retransmissions|trigger_cases E; done]. }
  destruct (bool_decide_reflect (rd_engine_rule_id d = "NET-003")) as [E|N3].
  { unfold is_outbound. case_bool_decide as Ho; cbn [negb orb]; [|apply reports_none; trigger_cases E; congruence].
    destruct (Z.eqb_spec (cs_remote_port (cc_connection c)) 0) as [Hport|Hport]; [apply reports_none; trigger_cases E; congruence|].
    destruct (texts_of d _ "allowed_ports" Hv E) as [l El]; [by vm_compute|]. unfold port_allowed. rewrite El. cbn [rbind].
    apply reports_match_if. rewrite negb_true_iff, bool_decide_eq_false. split; [by eapply on_port|trigger_cases E; done]. }
  destruct (bool_decide_reflect (rd_engine_rule_id d = "NET-004")) as [E|N4].
  { destruct (cc_destination_prevalence c) as [p|] eqn:Ep; [|apply reports_none; trigger_cases E].
    unfold is_outbound. case_bool_decide as Ho; cbn [negb]; [|apply reports_none; trigger_cases E; congruence].
    destruct (number_of d _ "maximum_prevalence" PositiveInteger Hv E) as [v Ev]; [by vm_compute|done..|].
    rewrite Ev. apply reports_match_if. rewrite Z.leb_le. split; [by eapply on_rare_destination|trigger_cases E; done]. }
  destruct (bool_decide_reflect (rd_engine_rule_id d = "NET-005")) as [E|N5]; [by apply net_reports|].
  destruct (bool_decide_reflect (rd_engine_rule_id d = "DNS-001")) as [E|D1].
  { destruct (number_of d _ "minimum_failures" PositiveInteger Hv E) as [v Ev]; [by vm_compute|done..|].
    rewrite Ev. apply reports_match_if. rewrite Z.leb_le. split; [by eapply on_dns_failures|trigger_cases E; done]. }
  destruct (bool_decide_reflect (rd_engine_rule_id d = "DNS-002")) as [E|D2].
  { unfold is_outbound. case_bool_decide as Ho; cbn [negb orb]; [|apply reports_none; trigger_cases E; congruence].
    destruct (is_empty (cc_name_resolution c)) eqn:Hn.
    { apply reports_none. trigger_cases E. by destruct (cc_name_resolution c). }
    destruct (flag_of d _ "require_remote_ip_match" Hv E) as [b Eb]; [by vm_compute|]. rewrite Eb. cbn [rbind].
    apply reports_match_if. rewrite andb_true_iff, negb_true_iff. split.
    - intros [-> ?]. apply on_dns_mismatch; try done. by intros Hnil; rewrite Hnil in Hn.
    - trigger_cases E; done. }
  destruct (bool_decide_reflect (rd_engine_rule_id d = "DNS-003")) as [E|D3].
  { destruct (number_of d _ "maximum_distinct_answers" PositiveInteger Hv E) as [v Ev]; [by vm_compute|done..|].
    rewrite Ev. apply reports_match_if. rewrite Z.ltb_lt. split; [by eapply on_dns_churn|trigger_cases E; done]. }
  destruct (bool_decide_reflect (rd_engine_rule_id d = "TLS-001")) as [E|T1]; [by apply validation_reports|].
  destruct (bool_decide_reflect (rd_engine_rule_id d = "TLS-002")) as [E|T2]; [by apply identity_reports|].
  destruct (bool_decide_reflect (rd_engine_rule_id d = "ROUTE-001")) as [E|R1]; [by apply route_reports|].
  apply reports_none. intros []; done.
Qed.

Lemma evaluate_rules_reports rules c :
  Forall params_valid rules -> exists ms, evaluate_rules rules c = Ok ms /\
    map cm_rule_id ms `sublist_of` map rd_id rules /\
    (NoDup (map rd_id rules) -> forall d, d ∈ rules -> rd_id d ∈ map cm_rule_id ms <-> applies d c).
Proof.
  induction 1 as [|d rules Hd Hr (ms & IHe & IHs & IHa)]; cbn [evaluate_rules].
  { exists []. split_and!; [done|constructor|]. intros _ d Hin. by apply not_elem_of_nil in Hin. }
  destruct (evaluate_one_reports d c Hd) as (o & -> & Ho & Hm). rewrite IHe. cbn [rbind].
  assert (Hids : map cm_rule_id (option_list o) = match o with Some _ => [rd_id d] | None => [] end).
  { destruct o as [m|]; [|done]. cbn. by rewrite (Hm m). }
  eexists. split; [done|]. rewrite map_app, Hids. split.
  - destruct o; cbn; by constructor.
  - cbn [map]. intros [Hnin Hnd]%NoDup_cons d' Hd'. rewrite elem_of_app.
    assert (Hsub : forall id, id ∈ map cm_rule_id ms -> id ∈ map rd_id rules).
    { intros id Hin. eapply elem_of_submseteq; [exact Hin|]. by apply sublist_submseteq. }
    apply elem_of_cons in Hd' as [->|Hd'].
    + rewrite <- Ho. split.
      * intros [Hin|Hin]; [destruct o; [by eexists|by apply not_elem_of_nil in Hin]|]. by apply Hsub in Hin.
      * intros [m ->]. left. set_solver.
    + rewrite <- (IHa Hnd d' Hd'). split; [|by right]. intros [Hin|Hin]; [|done]. exfalso. apply Hnin.
      destruct o; [|by apply not_elem_of_nil in Hin]. apply list_elem_of_singleton in Hin. rewrite <- Hin.
      by apply list_elem_of_fmap_2.
Qed.

(** C10: With a rule set that the loader accepts, the context rule engine never throws; the rules it
    reports for a connection are, in the order of the set and each once, exactly those that
    are enabled, do not exclude the connection and whose condition holds for the evidence. *)
Theorem context_rules_exact text source set c :
  load_text text source = Ok set ->
  exists ms, evaluate_context set c = Ok ms /\ map cm_rule_id ms `sublist_of` map rd_id (rs_definitions set) /\
    forall d, d ∈ rs_definitions set -> rd_id d ∈ map cm_rule_id ms <-> applies d c.
Proof.
  intros (root & _ & Hv%parse_root_valid)%load_text_root.
  destruct (evaluate_rules_reports (rs_definitions set) c) as (ms & E & Hs & Ha).
  { eapply Forall_impl; [apply Hv|]. by intros d (_ & _ & _ & ? & _). }
  exists ms. split_and!; [done..|]. apply Ha. apply Hv.
Qed.

(** ** DNS rules and correlation *)

(** Evidence that the observation session attached to the connection: it is what
    [correlate_name_resolution] matched. *)
Definition attached_name_resolution (max_age_ns : Z) (connection : ConnectionSummary)
    (observations : list NameResolutionObservation) : list NameResolutionEvidence :=
  let r := correlate_name_resolution max_age_ns connection observations in
  match nr_status r, nr_evidence r with Matched, Some e => [e] | _, _ => [] end.

Definition all_attached (max_age_ns : Z) (connection : ConnectionSummary) (evidence : list NameResolutionEvidence) : Prop :=
  Forall (fun e => exists observations, e ∈ attached_name_resolution max_age_ns connection observations) evidence.

Lemma attached_explains max_age_ns connection observations e :
  e ∈ attached_name_resolution max_age_ns connection observations ->
  is_candidate max_age_ns connection (nv_observation e) = true.
Proof.
  unfold attached_name_resolution. rewrite correlate_outcome.
  destruct (passing (is_candidate max_age_ns connection) observations) as [|o [|o' rest]] eqn:Ep; cbn; try set_solver.
  intros ->%list_elem_of_singleton. cbn.
  assert (Hin : o ∈ passing (is_candidate max_age_ns connection) observations) by (rewrite Ep; set_solver).
  by apply elem_of_passing in Hin as [_ Hin].
Qed.

(** What a candidate lookup is, as far as the DNS rules look at it. *)
Lemma candidate_answers max_age_ns connection o :
  is_candidate max_age_ns connection o = true ->
  no_query_kind o = Forward /\ (no_result_code o = None \/ no_result_code o = Some 0) /\
  cs_remote_ip connection ∈ map na_address (no_addresses o).
Proof.
  unfold is_candidate. rewrite !guard_true, !negb_false_iff, bool_decide_eq_true. intros (_ & Hk & Hr & Hrest).
  split; [by apply bool_decide_eq_true in Hk|]. split.
  { destruct (no_result_code o) as [r|]; [|by left]. apply negb_false_iff, Z.eqb_eq in Hr as ->. by right. }
  assert (Hc : contains_remote_address o (cs_remote_ip connection) = true).
  { repeat match type of Hrest with
    | (if ?b then false else _) = true => apply guard_true in Hrest as [? Hrest]
    | _ /\ _ => destruct Hrest as [? Hrest]
    end; to_prop; done. }
  apply contains_remote_address_spec in Hc as (a & Ha & <-). by apply list_elem_of_fmap_2.
Qed.

Lemma attached_no_failures max_age_ns connection evidence :
  all_attached max_age_ns connection evidence -> failed_dns_count evidence = 0.
Proof.
  intros Hall. unfold failed_dns_count. destruct (passing failed_lookup evidence) as [|e rest] eqn:Ep; [done|].
  assert (Hin : e ∈ passing failed_lookup evidence) by (rewrite Ep; set_solver).
  apply elem_of_passing in Hin as [Hin Hf]. unfold all_attached in Hall. rewrite Forall_forall in Hall.
  destruct (Hall e Hin) as (observations & (_ & Hr & _)%attached_explains%candidate_answers).
  unfold failed_lookup in Hf. by destruct Hr as [Hr|Hr]; rewrite Hr in Hf.
Qed.

Lemma attached_contains_remote max_age_ns c :
  cs_remote_ip (cc_connection c) <> "" -> all_attached max_age_ns (cc_connection c) (cc_name_resolution c) ->
  dns_contains_remote c = true.
Proof.
  intros Hne Hall. unfold dns_contains_remote. rewrite bool_decide_eq_false_2 by done.
  destruct (existsb _ _) eqn:Ex; [done|]. destruct (forward_addresses (cc_name_resolution c)) as [|a l] eqn:Ea; [done|].
  exfalso. rewrite <- Ea in Ex. unfold forward_addresses in *.
  assert (Ha : a ∈ concat (map (fun item =>
    if bool_decide (no_query_kind (nv_observation item) = Forward) &&
       (bool_decide (nv_correlation_fidelity item = Exact) || bool_decide (nv_correlation_fidelity item = StronglyCorrelated))
    then map na_address (no_addresses (nv_observation item)) else []) (cc_name_resolution c))) by (rewrite Ea; set_solver).
  apply list_elem_of_In, in_concat in Ha as (addresses & Hin & Ha). apply in_map_iff in Hin as (item & Hi & Hitem).
  destruct (bool_decide _ && _) eqn:Ec; [|by subst]. subst addresses.
  assert (Hrem : In (cs_remote_ip (cc_connection c)) (map na_address (no_addresses (nv_observation item)))).
  { apply list_elem_of_In in Hitem. unfold all_attached in Hall. rewrite Forall_forall in Hall.
    destruct (Hall item Hitem) as (observations & (_ & _ & Hr)%attached_explains%candidate_answers).
    by apply list_elem_of_In. }
  apply Bool.not_true_iff_false in Ex. apply Ex. apply existsb_exists. exists (cs_remote_ip (cc_connection c)). split.
  - apply in_concat. eexists. split; [|exact Hrem]. apply in_map_iff. exists item. by rewrite Ec.
  - unfold address_matches. by rewrite bool_decide_eq_true_2.
Qed.

(** The rules for repeated DNS failures (DNS-001, with a threshold above zero) and for DNS answers that miss
    the peer (DNS-002) do not match on evidence that [correlate_name_resolution] matched to a connection with
    a remote address: a match is a successful lookup that returned the peer's address. The session attaches
    nothing else ([attached_name_resolution]); failed lookups, which the Windows sensor keeps for DNS-001, are
    observed and then not attached. *)
Theorem dns_rules_never_match max_age_ns d c v :
  all_attached max_age_ns (cc_connection c) (cc_name_resolution c) -> cs_remote_ip (cc_connection c) <> "" ->
  rd_engine_rule_id d = "DNS-001" /\ numeric d "minimum_failures" = Ok v /\ 0 < cast_u64 v \/
  rd_engine_rule_id d = "DNS-002" /\ params_valid d ->
  evaluate_one d c = Ok None.
Proof.
  intros Hall Hne [(E & Ev & Hpos)|(E & Hv)].
  - unfold evaluate_one. destruct (negb (rd_enabled d)); [done|].
    destruct (excludes_connection _ _ _ _); [done|]. rewrite E.
    rewrite !bool_decide_eq_false_2 by done. rewrite bool_decide_eq_true_2 by done. rewrite Ev. cbn [rbind].
    unfold match_if. rewrite (attached_no_failures _ _ _ Hall). by rewrite (proj2 (Z.leb_gt _ _)).
  - destruct (evaluate_one_reports d c Hv) as (o & Eo & Ho & _). rewrite Eo. f_equal.
    destruct o as [m|]; [|done]. exfalso. destruct (proj1 Ho (mk_is_Some _ _ eq_refl)) as (_ & _ & Ht).
    pose proof (attached_contains_remote _ _ Hne Hall). revert Ht. trigger_cases E. congruence.
Qed.
End meaning.

(** ** Concrete evaluations *)

Definition sample_context (evidence : list NameResolutionEvidence) : ConnectionRuleContext :=
  MkContext sample_summary (MkMetrics 0 0 9) None evidence [] None None None None.

Lemma context_rules_exact_witness :
  match load_text (H := cast_zero) default_document "rules.json" with
  | Ok set => exists ms, evaluate_context (H := cast_zero) (H0 := long_double_x87) set (sample_context []) = Ok ms /\
      map cm_rule_id ms `sublist_of` map rd_id (rs_definitions set) /\
      forall d, d ∈ rs_definitions set -> rd_id d ∈ map cm_rule_id ms <->
        applies (H := cast_zero) (H0 := long_double_x87) d (sample_context [])
  | Throw _ => False
  end.
Proof.
  destruct (load_text (H := cast_zero) default_document "rules.json") as [set|m] eqn:E.
  - exact (context_rules_exact (H := cast_zero) (H0 := long_double_x87) default_document "rules.json" set (sample_context []) E).
  - assert (G : is_ok (load_text (H := cast_zero) default_document "rules.json") = true) by (vm_compute; reflexivity).
    rewrite E in G. discriminate G.
Defined.

(** The built-in rules report the retransmission spike of this connection, and nothing else. *)
Lemma sample_context_matches :
  match load_text (H := cast_zero) default_document "rules.json" with
  | Ok set => match evaluate_context (H := cast_zero) (H0 := long_double_x87) set (sample_context []) with
              | Ok ms => map cm_rule_id ms = ["NET-002"]
              | Throw _ => False
              end
  | Throw _ => False
  end.
Proof. vm_compute. reflexivity. Qed.

Definition dns_failure_rule : RuleDefinition :=
  MkRule "DNS-001" "DNS-001" "x" "dns" "medium" true no_exclusion [("minimum_failures", double_of_Z 3)] [] [] [].

Lemma dns_rules_never_match_witness :
  evaluate_one (H := cast_zero) (H0 := long_double_x87) dns_failure_rule (sample_context [sample_evidence]) = Ok None.
Proof.
  assert (Ha : all_attached 5000000000 sample_summary [sample_evidence]).
  { constructor; [|constructor]. exists [sample_lookup].
    assert (E : attached_name_resolution 5000000000 sample_summary [sample_lookup] = [sample_evidence])
      by (vm_compute; reflexivity). rewrite E. apply list_elem_of_singleton. reflexivity. }
  assert (Hp : 0 < cast_u64 (H := cast_zero) (double_of_Z 3)) by (apply Z.ltb_lt; vm_compute; reflexivity).
  exact (dns_rules_never_match (H := cast_zero) (H0 := long_double_x87) 5000000000 dns_failure_rule (sample_context [sample_evidence])
    (double_of_Z 3) Ha ltac:(discriminate)
    (or_introl (conj eq_refl (conj eq_refl Hp)))).
Defined.
