(* ===== verification/Behavior.v ===== *)
(** Periodic outbound connections ([include/neta/behavior_detection.hpp]).

    The theorems: a finding is sound and complete evidence of a periodic group
    ([periodic_finding_exact]: the connections named are all those of the window that share
    process, host and port with the trigger, at strictly increasing times, and the interval
    statistics are the true ones, with no 64-bit overflow), and it does not depend on the order in
    which the store returns the recent connections ([periodic_order_independent]). *)

From Stdlib Require Import Sorted.
From stdpp Require Import sorting.
From S2P Require Import Prelude Text Doubles Crypto Model.

#[local] Arguments String.append !_ _ /.

Record PeriodicOutboundPolicy := MkPolicy {
  pp_minimum_connections : Z;
  pp_window_ns : Z;
  pp_minimum_interval_ns : Z;
  pp_maximum_interval_ns : Z;
  pp_interval_tolerance_ratio : spec_float;
  pp_minimum_regular_fraction : spec_float;
  pp_recent_connection_limit : Z }.

Definition default_policy : PeriodicOutboundPolicy :=
  MkPolicy 8 90000000000 3000000000 15000000000
    (default S754_nan (strtod "0.20").1) (default S754_nan (strtod "0.80").1) 512.

Record PeriodicOutboundFinding := MkPeriodic {
  po_type : string;
  po_severity : string;
  po_confidence : spec_float;
  po_malicious_intent : string;
  po_process_identity : string;
  po_process_name : string;
  po_host : string;
  po_port : Z;
  po_first_seen_ns : Z;
  po_last_seen_ns : Z;
  po_median_interval_ns : Z;
  po_regular_interval_fraction : spec_float;
  po_connection_ids : list Z;
  po_finding_key : string;
  po_finding_id : string;
  po_evidence_root : string;
  po_interpretation : string }.

(** ** Groups *)

Definition process_identity (connection : ConnectionSummary) : string :=
  if negb (bool_decide (pi_executable_path (cs_process connection) = "")) then "exe=" +:+ pi_executable_path (cs_process connection)
  else if negb (bool_decide (pi_comm (cs_process connection) = "")) then "comm=" +:+ pi_comm (cs_process connection)
  else "".

Definition process_name (connection : ConnectionSummary) : string :=
  if negb (bool_decide (pi_comm (cs_process connection) = "")) then pi_comm (cs_process connection)
  else pi_executable_path (cs_process connection).

Definition remote_host (connection : ConnectionSummary) : string :=
  if negb (bool_decide (cs_target_host connection = "")) then cs_target_host connection else cs_remote_ip connection.

Definition same_group (left right : ConnectionSummary) : bool :=
  bool_decide (cs_direction left = Outbound) && bool_decide (cs_direction right = Outbound) &&
  bool_decide (process_identity left = process_identity right) && negb (bool_decide (process_identity left = "")) &&
  bool_decide (remote_host left = remote_host right) && negb (bool_decide (remote_host left = "")) &&
  (cs_remote_port left =? cs_remote_port right) && negb (cs_remote_port left =? 0).

Definition median (values : list Z) : Z :=
  match values with
  | [] => 0
  | _ =>
      let sorted := merge_sort Z.le values in
      let midpoint := (length sorted / 2)%nat in
      if negb (length sorted mod 2 =? 0)%nat then sorted !!! midpoint
      else wrap_u 64 (sorted !!! (midpoint - 1)%nat + sorted !!! midpoint) / 2
  end.

(** The order of the sorted group: by time, then by id. *)
Definition seen_before (left right : ConnectionSummary) : Prop :=
  cs_first_seen_ns left < cs_first_seen_ns right \/
  cs_first_seen_ns left = cs_first_seen_ns right /\ cs_id left <= cs_id right.
#[global] Instance seen_before_dec : RelDecision seen_before.
Proof. unfold RelDecision, seen_before. intros. apply _. Defined.

(** The tests of the loop that collects the group. *)
Definition in_window (window : Z) (trigger connection : ConnectionSummary) : bool :=
  negb (cs_first_seen_ns connection =? 0) && same_group connection trigger &&
  negb (cs_first_seen_ns trigger <? cs_first_seen_ns connection) &&
  negb (window <? cs_first_seen_ns trigger - cs_first_seen_ns connection).

(** The loop over neighbours: [None] when two times are not increasing. *)
Fixpoint intervals_of (times : list Z) : option (list Z) :=
  match times with
  | a :: ((b :: _) as rest) => if b <=? a then None else cons (b - a) <$> intervals_of rest
  | _ => Some []
  end.

Section detect.
Context `{Sha256} `{LongDouble}.

Definition absolute_difference (a b : Z) : Z := if b <? a then a - b else b - a.

Definition regular_count (intervals : list Z) (median_interval : Z) (ratio : spec_float) : Z :=
  let tolerance := ld_mul (ld_of_Z median_interval) (ld_of_double ratio) in
  Z.of_nat (length (passing (fun i => double_leb (ld_of_Z (absolute_difference i median_interval)) tolerance) intervals)).

Definition policy_usable (policy : PeriodicOutboundPolicy) : bool :=
  negb ((pp_minimum_connections policy <? 2) || (pp_window_ns policy =? 0) || (pp_minimum_interval_ns policy =? 0) ||
        (pp_maximum_interval_ns policy <? pp_minimum_interval_ns policy) ||
        double_ltb (pp_interval_tolerance_ratio policy) (double_of_Z 0) ||
        double_ltb (pp_minimum_regular_fraction policy) (double_of_Z 0) ||
        double_gtb (pp_minimum_regular_fraction policy) (double_of_Z 1)).

Definition kPeriodicType : string := "PERIODIC_OUTBOUND_CONNECTION".

Definition make_periodic (trigger : ConnectionSummary) (group : list ConnectionSummary) (median_interval : Z)
    (regular_fraction : spec_float) : PeriodicOutboundFinding :=
  let target := remote_host trigger +:+ ":" +:+ to_string (cs_remote_port trigger) in
  let evidence :=
    "type=" +:+ kPeriodicType +:+ "|process=" +:+ process_identity trigger +:+ "|target=" +:+ target +:+
    String.concat "" (map (fun c => "|connection=" +:+ to_string (cs_id c) +:+ "@" +:+ to_string (cs_first_seen_ns c)) group) in
  let evidence_root := "sha256:" +:+ sha256_hex evidence in
  let finding_key := "sha256:" +:+ sha256_hex (kPeriodicType +:+ "|" +:+ process_identity trigger +:+ "|" +:+ target) in
  MkPeriodic kPeriodicType "LOW" regular_fraction "UNKNOWN" (process_identity trigger) (process_name trigger)
    (remote_host trigger) (cs_remote_port trigger)
    (match head group with Some c => cs_first_seen_ns c | None => 0 end)
    (match last group with Some c => cs_first_seen_ns c | None => 0 end)
    median_interval regular_fraction (map cs_id group) finding_key
    ("FINDING-BEHAVIOR-" +:+ substr (substr_from evidence_root 7) 0 12) evidence_root
    ("Repeated outbound connections exhibit a strongly periodic beacon-like communication " +:+
     "pattern. Malicious intent is not established.").

Definition detect_periodic_outbound (recent_connections : list ConnectionSummary) (trigger_connection_id : Z)
    (policy : PeriodicOutboundPolicy) : option PeriodicOutboundFinding :=
  if negb (policy_usable policy) then None
  else
    match List.find (fun c => cs_id c =? trigger_connection_id) recent_connections with
    | None => None
    | Some trigger =>
        if negb (bool_decide (cs_direction trigger = Outbound)) || (cs_first_seen_ns trigger =? 0) ||
           (cs_remote_port trigger =? 0) || bool_decide (process_identity trigger = "") ||
           bool_decide (remote_host trigger = "") then None
        else
          let group := passing (in_window (pp_window_ns policy) trigger) recent_connections in
          if Z.of_nat (length group) <? pp_minimum_connections policy then None
          else
            let group := merge_sort seen_before group in
            if negb (bool_decide ((cs_id <$> last group) = Some trigger_connection_id)) then None
            else
              match intervals_of (map cs_first_seen_ns group) with
              | None => None
              | Some intervals =>
                  let median_interval := median intervals in
                  if (median_interval <? pp_minimum_interval_ns policy) || (pp_maximum_interval_ns policy <? median_interval) then None
                  else
                    let regular := regular_count intervals median_interval (pp_interval_tolerance_ratio policy) in
                    let regular_fraction := double_div (double_of_Z regular) (double_of_Z (Z.of_nat (length intervals))) in
                    if double_ltb regular_fraction (pp_minimum_regular_fraction policy) then None
                    else Some (make_periodic trigger group median_interval regular_fraction)
              end
    end.

End detect.

(** ** Sorting and searching *)

#[local] Instance seen_before_trans : Transitive seen_before.
Proof. unfold seen_before. intros a b c. lia. Qed.
#[local] Instance seen_before_total : Total seen_before.
Proof. unfold seen_before. intros a b. lia. Qed.

Definition distinct_ids (connections : list ConnectionSummary) : Prop := NoDup (map cs_id connections).

Lemma same_id connections a b :
  distinct_ids connections -> a ∈ connections -> b ∈ connections -> cs_id a = cs_id b -> a = b.
Proof.
  unfold distinct_ids. induction connections as [|c connections IH]; [set_solver|]. cbn. intros [Hn Hd]%NoDup_cons Ha Hb E.
  assert (Hin : forall x, x ∈ connections -> cs_id x ∈ map cs_id connections) by (intros x Hx; by apply list_elem_of_fmap_2).
  apply elem_of_cons in Ha as [->|Ha], Hb as [->|Hb]; [done| | |by apply IH].
  - exfalso. apply Hn. rewrite E. by apply Hin.
  - exfalso. apply Hn. rewrite <- E. by apply Hin.
Qed.

Lemma find_id_spec connections id :
  match List.find (fun c => cs_id c =? id) connections with
  | Some c => c ∈ connections /\ cs_id c = id
  | None => forall c, c ∈ connections -> cs_id c <> id
  end.
Proof.
  destruct (List.find _ connections) as [c|] eqn:E.
  - apply find_some in E as [Hin Hid]. split; [by apply list_elem_of_In|by apply Z.eqb_eq].
  - intros c Hc%list_elem_of_In Hid. apply (find_none _ _ E) in Hc. by apply Z.eqb_neq in Hc.
Qed.

Lemma find_id_perm l l' id :
  distinct_ids l -> l ≡ₚ l' -> List.find (fun c => cs_id c =? id) l = List.find (fun c => cs_id c =? id) l'.
Proof.
  intros Hd Hp. pose proof (find_id_spec l id) as H1. pose proof (find_id_spec l' id) as H2.
  destruct (List.find _ l) as [a|], (List.find _ l') as [b|]; [|exfalso|exfalso|done].
  - destruct H1 as [Ha E1], H2 as [Hb E2]. f_equal. rewrite <- Hp in Hb. eapply same_id; [done..|congruence].
  - destruct H1 as [Ha E1]. apply (H2 a); [by rewrite <- Hp|done].
  - destruct H2 as [Hb E2]. apply (H1 b); [by rewrite Hp|done].
Qed.

Lemma passing_distinct p l : distinct_ids l -> distinct_ids (passing p l).
Proof.
  unfold distinct_ids, passing. induction l as [|c l IH]; [done|]. cbn [map]. intros [Hn Hd]%NoDup_cons.
  destruct (decide (p c = true)) as [Hp|Hp].
  - rewrite filter_cons_True by done. cbn [map]. apply NoDup_cons. split; [|by apply IH].
    intros Hin. apply Hn. apply list_elem_of_fmap in Hin as (x & -> & [_ Hx]%list_elem_of_filter). by apply list_elem_of_fmap_2.
  - rewrite filter_cons_False by done. by apply IH.
Qed.

Lemma sort_perm l l' : distinct_ids l -> l ≡ₚ l' -> merge_sort seen_before l = merge_sort seen_before l'.
Proof.
  intros Hd Hp. apply (Sorted_unique_strong seen_before); [|by apply Sorted_merge_sort, _..|by rewrite !merge_sort_Permutation].
  intros a b Ha Hb H1 H2. rewrite merge_sort_Permutation in Ha. rewrite merge_sort_Permutation, <- Hp in Hb.
  apply (same_id l); [done..|]. unfold seen_before in *. lia.
Qed.

(** ** Intervals *)

Definition true_median (values : list Z) : Z :=
  match values with
  | [] => 0
  | _ =>
      let sorted := merge_sort Z.le values in
      let midpoint := (length sorted / 2)%nat in
      if negb (length sorted mod 2 =? 0)%nat then sorted !!! midpoint
      else (sorted !!! (midpoint - 1)%nat + sorted !!! midpoint) / 2
  end.

Definition total (values : list Z) : Z := foldr Z.add 0 values.

Lemma total_perm l l' : l ≡ₚ l' -> total l = total l'.
Proof. unfold total. induction 1; cbn; lia. Qed.

Lemma total_nonneg l : Forall (fun v => 0 <= v) l -> 0 <= total l.
Proof. unfold total. induction 1; cbn; lia. Qed.

Lemma two_values_le_total l i :
  Forall (fun v => 0 <= v) l -> (S i < length l)%nat -> l !!! i + l !!! S i <= total l.
Proof.
  intros Hl. revert i. induction Hl as [|v l Hv Hl IH]; intros i Hi; [cbn in Hi; lia|].
  pose proof (total_nonneg l Hl). unfold total in *. destruct i as [|i]; cbn in *.
  - destruct Hl as [|w l Hw Hl]; cbn in *; [lia|]. apply (total_nonneg l) in Hl. unfold total in Hl. lia.
  - specialize (IH i ltac:(lia)). change (l !!! i + l !!! S i <= v + foldr Z.add 0 l). lia.
Qed.

Lemma median_exact values :
  Forall (fun v => 0 <= v) values -> total values < 2 ^ 64 -> median values = true_median values.
Proof.
  intros Hv Ht. unfold median, true_median. destruct values as [|v values]; [done|].
  set (sorted := merge_sort Z.le (v :: values)). cbn zeta.
  assert (Hp : sorted ≡ₚ v :: values) by apply merge_sort_Permutation.
  destruct (negb _) eqn:Em; [done|]. f_equal. apply negb_false_iff, Nat.eqb_eq in Em. apply wrap_u_id.
  assert (Hs : Forall (fun v => 0 <= v) sorted) by by rewrite Hp.
  assert (Hlen : (1 <= length sorted / 2)%nat).
  { assert (E0 : length sorted <> 0%nat) by (rewrite Hp; cbn; lia). pose proof (Nat.div_mod_eq (length sorted) 2). lia. }
  pose proof (two_values_le_total sorted (length sorted / 2 - 1) Hs) as Hle.
  assert (Hlt : (length sorted / 2 < length sorted)%nat) by (pose proof (Nat.div_mod_eq (length sorted) 2); lia).
  replace (S (length sorted / 2 - 1))%nat with (length sorted / 2)%nat in Hle by lia. specialize (Hle Hlt).
  rewrite (total_perm _ _ Hp) in Hle. unfold in_u.
  assert (Hnn : forall i, 0 <= sorted !!! i).
  { intros i. rewrite list_lookup_total_alt. destruct (sorted !! i) as [x|] eqn:Ex; cbn; [|lia].
    rewrite Forall_forall in Hs. apply Hs. by eapply list_elem_of_lookup_2. }
  pose proof (Hnn (length sorted / 2 - 1)%nat). pose proof (Hnn (length sorted / 2)%nat). lia.
Qed.

(** The differences of neighbours. *)
Definition gaps (times : list Z) : list Z := zip_with (fun a b => b - a) times (tail times).

Lemma intervals_of_iff times intervals :
  intervals_of times = Some intervals <-> StronglySorted Z.lt times /\ intervals = gaps times.
Proof.
  revert intervals. induction times as [|a [|b times] IH]; intros intervals.
  - split; [intros [= <-]; by repeat constructor|by intros [_ ->]].
  - split; [intros [= <-]; by repeat constructor|by intros [_ ->]].
  - cbn [intervals_of]. change (gaps (a :: b :: times)) with (b - a :: gaps (b :: times)). destruct (Z.leb_spec b a) as [Hle|Hlt].
    { split; [done|]. intros [[_ Hall]%StronglySorted_inv _]. apply Forall_cons in Hall as [? _]. lia. }
    rewrite fmap_Some. setoid_rewrite IH. split.
    + intros (? & [Hs ->] & ->). split; [|done]. constructor; [done|]. constructor; [done|].
      apply StronglySorted_inv in Hs as [_ Hall]. eapply Forall_impl; [exact Hall|]. cbn. lia.
    + intros [[Hs _]%StronglySorted_inv ->]. eauto.
Qed.

(** Increasing times have positive gaps that add up to the span. *)
Lemma gaps_spec times :
  StronglySorted Z.lt times ->
  Forall (fun v => 0 < v) (gaps times) /\
  total (gaps times) = match head times, last times with Some a, Some b => b - a | _, _ => 0 end.
Proof.
  induction times as [|a [|b times] IH]; intros Hs; [by split; [constructor|]|by split; [constructor|cbn; lia]|].
  apply StronglySorted_inv in Hs as [Hs Hall]. apply Forall_cons in Hall as [Hab _]. destruct (IH Hs) as [Hpos Ht].
  change (gaps (a :: b :: times)) with (b - a :: gaps (b :: times)). split; [constructor; [lia|done]|].
  unfold total in *. cbn [foldr head] in *. rewrite Ht, !last_cons. destruct (last times); cbn; lia.
Qed.

Lemma gaps_median times :
  StronglySorted Z.lt times -> Forall (in_u 64) times -> median (gaps times) = true_median (gaps times).
Proof.
  intros Hs Hu. destruct (gaps_spec times Hs) as [Hpos Ht]. apply median_exact; [by eapply Forall_impl; [exact Hpos|]; cbn; lia|].
  rewrite Ht. rewrite Forall_forall in Hu. destruct times as [|a times]; [done|]. cbn [head].
  destruct (last (a :: times)) as [b|] eqn:El; [|lia].
  pose proof (Hu a ltac:(set_solver)). pose proof (Hu b ltac:(by apply last_Some_elem_of)). unfold in_u in *. lia.
Qed.

(** ** What a finding is evidence of *)

Section evidence.
Context `{Sha256} `{LongDouble}.

(** A connection that can trigger: outbound, with a time, a port, a process and a host. *)
Definition triggering (trigger : ConnectionSummary) : Prop :=
  cs_direction trigger = Outbound /\ cs_first_seen_ns trigger <> 0 /\ cs_remote_port trigger <> 0 /\
  process_identity trigger <> "" /\ remote_host trigger <> "".

(** [connection] opens the same conversation as [trigger], at most [window] before it. *)
Definition precedes (window : Z) (trigger connection : ConnectionSummary) : Prop :=
  cs_direction connection = Outbound /\ process_identity connection = process_identity trigger /\
  remote_host connection = remote_host trigger /\ cs_remote_port connection = cs_remote_port trigger /\
  cs_first_seen_ns connection <> 0 /\
  cs_first_seen_ns trigger - window <= cs_first_seen_ns connection <= cs_first_seen_ns trigger.

Definition fraction_regular (policy : PeriodicOutboundPolicy) (intervals : list Z) : spec_float :=
  double_div (double_of_Z (regular_count intervals (true_median intervals) (pp_interval_tolerance_ratio policy)))
    (double_of_Z (Z.of_nat (length intervals))).

Record periodic_evidence (policy : PeriodicOutboundPolicy) (recent : list ConnectionSummary)
    (trigger : ConnectionSummary) (group : list ConnectionSummary) : Prop := {
  pe_trigger : trigger ∈ recent /\ triggering trigger;
  pe_members : NoDup group /\ forall c, c ∈ group <-> c ∈ recent /\ precedes (pp_window_ns policy) trigger c;
  pe_ordered : StronglySorted Z.lt (map cs_first_seen_ns group);
  pe_enough : pp_minimum_connections policy <= Z.of_nat (length group);
  pe_median : pp_minimum_interval_ns policy <= true_median (gaps (map cs_first_seen_ns group)) <= pp_maximum_interval_ns policy;
  pe_regular : double_ltb (fraction_regular policy (gaps (map cs_first_seen_ns group))) (pp_minimum_regular_fraction policy) = false }.

Lemma triggering_check trigger :
  negb (bool_decide (cs_direction trigger = Outbound)) || (cs_first_seen_ns trigger =? 0) ||
  (cs_remote_port trigger =? 0) || bool_decide (process_identity trigger = "") ||
  bool_decide (remote_host trigger = "") = false <-> triggering trigger.
Proof.
  unfold triggering. rewrite !orb_false_iff, negb_false_iff, bool_decide_eq_true, !bool_decide_eq_false, !Z.eqb_neq. tauto.
Qed.

Lemma in_window_iff window trigger c :
  triggering trigger -> in_window window trigger c = true <-> precedes window trigger c.
Proof.
  unfold triggering, in_window, precedes, same_group. intros (E1 & E2 & E3 & E4 & E5).
  rewrite !andb_true_iff, !negb_true_iff, !bool_decide_eq_true, !bool_decide_eq_false, !Z.ltb_ge, !Z.eqb_eq, !Z.eqb_neq.
  intuition (first [lia|congruence]).
Qed.

Lemma distinct_nodup recent : distinct_ids recent -> NoDup recent.
Proof. unfold distinct_ids. apply NoDup_fmap_1. Qed.

Lemma window_member policy recent trigger c :
  triggering trigger ->
  c ∈ merge_sort seen_before (passing (in_window (pp_window_ns policy) trigger) recent) <->
  c ∈ recent /\ precedes (pp_window_ns policy) trigger c.
Proof.
  intros Ht. rewrite merge_sort_Permutation. unfold passing. rewrite list_elem_of_filter, in_window_iff by done. tauto.
Qed.

Lemma increasing_sorted group : StronglySorted Z.lt (map cs_first_seen_ns group) -> Sorted seen_before group.
Proof.
  intros Hs. apply StronglySorted_Sorted. induction group as [|c group IH]; [constructor|].
  cbn in Hs. apply StronglySorted_inv in Hs as [Hs Hall]. constructor; [by apply IH|].
  rewrite Forall_map in Hall. eapply Forall_impl; [exact Hall|]. unfold seen_before. cbn. lia.
Qed.

(** The group in order is the sorted one. *)
Lemma group_unique policy recent trigger group :
  distinct_ids recent -> triggering trigger -> NoDup group ->
  (forall c, c ∈ group <-> c ∈ recent /\ precedes (pp_window_ns policy) trigger c) ->
  StronglySorted Z.lt (map cs_first_seen_ns group) ->
  group = merge_sort seen_before (passing (in_window (pp_window_ns policy) trigger) recent).
Proof.
  intros Hd Ht Hn Hm Hs. apply (Sorted_unique_strong seen_before).
  - intros a b Ha Hb H1 H2. apply (same_id recent); [done|by apply Hm| |unfold seen_before in *; lia].
    by apply window_member in Hb as [? _].
  - by apply increasing_sorted.
  - by apply Sorted_merge_sort, _.
  - apply NoDup_Permutation; [done| |].
    + rewrite merge_sort_Permutation. by apply distinct_nodup, passing_distinct.
    + intros c. by rewrite Hm, window_member.
Qed.

(** The trigger is in its own window, and last in it. *)
Lemma trigger_precedes policy trigger : triggering trigger -> 0 <= pp_window_ns policy -> precedes (pp_window_ns policy) trigger trigger.
Proof. unfold triggering, precedes. intuition lia. Qed.

Lemma trigger_last policy recent trigger group :
  periodic_evidence policy recent trigger group -> 0 <= pp_window_ns policy -> last group = Some trigger.
Proof.
  intros [[Hr Ht] [_ Hm] Hs _ _ _] Hw.
  assert (Hin : trigger ∈ group) by (apply Hm; split; [done|by apply trigger_precedes]).
  destruct (list_elem_of_split _ _ Hin) as (l1 & l2 & E). rewrite E. destruct l2 as [|c l2]; [by rewrite last_snoc|]. exfalso.
  assert (Hc : c ∈ group) by (rewrite E; set_solver). apply Hm in Hc as (_ & _ & _ & _ & _ & _ & Hle).
  rewrite E, map_app in Hs. cbn in Hs. clear -Hs Hle.
  induction l1 as [|x l1 IH]; cbn in Hs; apply StronglySorted_inv in Hs as [Hs Hall]; [|by apply IH].
  apply Forall_cons in Hall as [? _]. lia.
Qed.

Lemma evidence_detected policy recent trigger group :
  distinct_ids recent -> Forall (in_u 64) (map cs_first_seen_ns recent) -> in_u 64 (pp_window_ns policy) ->
  policy_usable policy = true -> periodic_evidence policy recent trigger group ->
  detect_periodic_outbound recent (cs_id trigger) policy =
  Some (make_periodic trigger group (true_median (gaps (map cs_first_seen_ns group)))
          (fraction_regular policy (gaps (map cs_first_seen_ns group)))).
Proof.
  intros Hd Hu [Hw _] Hp Hev. pose proof (trigger_last _ _ _ _ Hev Hw) as Hlast. destruct Hev as [[Hr Ht] [Hn Hm] Hs He Hmed Hreg].
  unfold detect_periodic_outbound. rewrite Hp. cbn [negb].
  pose proof (find_id_spec recent (cs_id trigger)) as Hf. destruct (List.find _ recent) as [t|]; [|by edestruct Hf].
  destruct Hf as [Hin Hid]. rewrite (same_id recent t trigger Hd Hin Hr Hid). clear t Hin Hid.
  rewrite (proj2 (triggering_check trigger) Ht). cbn zeta.
  rewrite <- (merge_sort_Permutation seen_before (passing _ recent)), <- (group_unique policy recent trigger group) by done.
  rewrite (proj2 (Z.ltb_ge _ _)) by done. rewrite Hlast, bool_decide_true by done. cbn [negb].
  rewrite (proj2 (intervals_of_iff _ _) (conj Hs eq_refl)).
  rewrite gaps_median; [|done|].
  - rewrite !(proj2 (Z.ltb_ge _ _)) by lia. cbn [orb]. unfold fraction_regular in *. by rewrite Hreg.
  - rewrite Forall_map in *. rewrite Forall_forall in *. intros c Hc. apply Hu. by apply Hm in Hc as [? _].
Qed.

Lemma detected_evidence policy recent id f :
  distinct_ids recent -> Forall (in_u 64) (map cs_first_seen_ns recent) ->
  detect_periodic_outbound recent id policy = Some f ->
  policy_usable policy = true /\ exists trigger group, cs_id trigger = id /\ periodic_evidence policy recent trigger group /\
  f = make_periodic trigger group (true_median (gaps (map cs_first_seen_ns group)))
        (fraction_regular policy (gaps (map cs_first_seen_ns group))).
Proof.
  intros Hd Hu. unfold detect_periodic_outbound. destruct (policy_usable policy); [|done]. cbn [negb].
  pose proof (find_id_spec recent id) as Hf. destruct (List.find _ recent) as [trigger|]; [|done]. destruct Hf as [Hr Hid].
  destruct (_ || _) eqn:Ht; [done|]. apply triggering_check in Ht. cbn zeta.
  set (group := merge_sort seen_before (passing (in_window (pp_window_ns policy) trigger) recent)).
  assert (Hl : length (passing (in_window (pp_window_ns policy) trigger) recent) = length group).
  { unfold group. by rewrite merge_sort_Permutation. }
  rewrite Hl. destruct (Z.ltb_spec (Z.of_nat (length group)) (pp_minimum_connections policy)) as [|He]; [done|].
  destruct (negb _); [done|]. destruct (intervals_of _) as [l|] eqn:Ei; [|done]. apply intervals_of_iff in Ei as [Hs ->].
  assert (Hm : forall c, c ∈ group <-> c ∈ recent /\ precedes (pp_window_ns policy) trigger c) by (intros c; by apply window_member).
  rewrite gaps_median; [|done|].
  2:{ rewrite Forall_map in *. rewrite Forall_forall in *. intros c Hc. apply Hu. by apply Hm in Hc as [? _]. }
  destruct (_ || _) eqn:Eb; [done|]. apply orb_false_iff in Eb as [E1%Z.ltb_ge E2%Z.ltb_ge].
  destruct (double_ltb _ _) eqn:Er; [done|]. intros [= <-]. split; [done|]. exists trigger, group. split_and!; [done| |done].
  constructor; [done| |done|done|lia|done]. split; [|done]. unfold group. rewrite merge_sort_Permutation.
  by apply distinct_nodup, passing_distinct.
Qed.

(** C12: the detector reports a finding exactly when the policy is usable and the trigger has
    periodic evidence: the connections of the window that share direction, process, host and port
    with the trigger, at strictly increasing times, are enough, their median interval (the true
    one: the 64-bit sum inside the median never wraps) is within the policy's bounds and enough of
    the intervals are regular; and the finding is then the one that names exactly that group. The
    recent connections have distinct ids, as rows of one table, and 64-bit times. *)
Theorem periodic_finding_exact policy recent id f :
  distinct_ids recent -> Forall (in_u 64) (map cs_first_seen_ns recent) -> in_u 64 (pp_window_ns policy) ->
  detect_periodic_outbound recent id policy = Some f <->
  policy_usable policy = true /\ exists trigger group, cs_id trigger = id /\ periodic_evidence policy recent trigger group /\
  f = make_periodic trigger group (true_median (gaps (map cs_first_seen_ns group)))
        (fraction_regular policy (gaps (map cs_first_seen_ns group))).
Proof.
  intros Hd Hu Hw. split; [by apply detected_evidence|]. intros (Hp & trigger & group & <- & Hev & ->). by apply evidence_detected.
Qed.

(** the order in which the store returns the recent connections does not matter. *)
Theorem periodic_order_independent policy recent recent' id :
  distinct_ids recent -> recent ≡ₚ recent' ->
  detect_periodic_outbound recent id policy = detect_periodic_outbound recent' id policy.
Proof.
  intros Hd Hp. unfold detect_periodic_outbound. rewrite (find_id_perm recent recent' id Hd Hp).
  destruct (negb _); [done|]. destruct (List.find _ recent') as [trigger|]; [|done]. destruct (_ || _); [done|]. cbn zeta.
  assert (Hg : passing (in_window (pp_window_ns policy) trigger) recent ≡ₚ passing (in_window (pp_window_ns policy) trigger) recent')
    by (unfold passing; by rewrite Hp).
  rewrite (Permutation_length Hg). rewrite (sort_perm _ _ (passing_distinct _ _ Hd) Hg). done.
Qed.

End evidence.

(** ** Concrete runs: eight connections five seconds apart, and one to another port *)

Definition beacon (id port seconds : Z) : ConnectionSummary :=
  MkConnectionSummary id (seconds * 10 ^ 9) (seconds * 10 ^ 9) None Outbound 0 0 None (MkProcessIdentity 7 0 None "curl" "/usr/bin/curl")
    "10.0.0.1" 40000 "203.0.113.7" port "" "" Normal Unverified.

Definition beacons : list ConnectionSummary :=
  beacon 9 80 33 :: map (fun i => beacon i 443 (5 * i)) (seqZ 1 8).

Lemma beacons_distinct : distinct_ids beacons.
Proof. unfold distinct_ids. vm_compute. repeat constructor; set_solver. Qed.

Lemma beacons_times : Forall (in_u 64) (map cs_first_seen_ns beacons).
Proof.
  apply Forall_forall. intros t Ht. apply list_elem_of_fmap in Ht as (c & -> & Hc). unfold beacons in Hc.
  apply elem_of_cons in Hc as [->|Hc]; [by cbv|]. apply list_elem_of_fmap in Hc as (i & -> & Hi).
  apply elem_of_seqZ in Hi. unfold in_u, beacon. cbn [cs_first_seen_ns]. lia.
Qed.

Lemma default_window : in_u 64 (pp_window_ns default_policy).
Proof. unfold default_policy. cbn [pp_window_ns]. unfold in_u. lia. Qed.

Lemma periodic_finding_exact_witness :
  exists f, detect_periodic_outbound (H := sum_digest) (H0 := long_double_x87) beacons 8 default_policy = Some f /\
    po_connection_ids f = seqZ 1 8 /\ po_median_interval_ns f = 5 * 10 ^ 9 /\
    exists trigger group, cs_id trigger = 8 /\
      periodic_evidence (H0 := long_double_x87) default_policy beacons trigger group.
Proof.
  destruct (detect_periodic_outbound (H := sum_digest) (H0 := long_double_x87) beacons 8 default_policy) as [f|] eqn:E;
    [|by vm_compute in E].
  exists f. split; [done|]. split; [by vm_compute in E; injection E as <-|]. split; [by vm_compute in E; injection E as <-|].
  destruct (proj1 (periodic_finding_exact (H := sum_digest) (H0 := long_double_x87) default_policy beacons 8 f
    beacons_distinct beacons_times default_window) E) as (_ & trigger & group & Hid & Hev & _).
  exact (ex_intro _ trigger (ex_intro _ group (conj Hid Hev))).
Defined.

Lemma periodic_order_independent_witness :
  detect_periodic_outbound (H := sum_digest) (H0 := long_double_x87) (rev beacons) 8 default_policy =
  detect_periodic_outbound (H := sum_digest) (H0 := long_double_x87) beacons 8 default_policy.
Proof. symmetry. apply periodic_order_independent; [exact beacons_distinct|apply Permutation_rev]. Defined.
