(* ===== verification/RuleUpdate.v ===== *)
(** Central rules ([src/core/rule_fleet_client.cpp], [src/core/rule_convergence.cpp]): fetching a rule
    bundle from the coordinator, activating it with a rollback, deciding from a heartbeat response
    that an update is needed, and the central YARA content.

    [Site] is what these operations work on: the files below the state directory, the agent service
    with the rules it runs, the requests the coordinator has received and the update workers that
    were launched.  Every operation on it may fail or be the point where the process is killed
    ([Faults]).  Files are replaced by [atomic_write], a [replace_file] of which closing the temporary
    file may lose a part without an error; [s_lost] records that this has happened to the rule file.
    The TLS exchange with the coordinator is a parameter.

    The theorems: what an update leaves, however it ends ([rules_update_exact]); an error before the
    new rules are in use leaves the old ones ([failed_update_restores]); when a worker is launched
    ([convergence_exact]); an update of the YARA content that stops between its two files leaves
    content that is refused from then on ([torn_yara_content]). *)

From S2P Require Import Prelude Text Wire Faults Crypto Doubles Json Rules RulesValid Verdict NapSequence OutboundQueue Dispatcher UpgradeText UpgradeStore UpgradeWorker.

#[local] Arguments String.append !_ _ /.
#[local] Open Scope io_scope.

(** ** Talking to the coordinator *)

Record ParsedUrl := MkParsedUrl { pu_host : string; pu_port : string }.

Definition count_char (n : Z) (s : string) : nat := length (filter (fun c => is_char n c = true) (String.list_ascii_of_string s)).

Definition parse_https_url (url : string) : result ParsedUrl :=
  if negb (starts_with "https://" url) then Throw "coordinator URL must use https://"
  else
    let authority := before_char 47 (substr_from url 8) in
    let? out :=
      if begins (is_char 91) authority then
        if negb (has_char 93 authority) then Throw "invalid coordinator IPv6 URL"
        else
          let rest := after_char 93 authority in
          Ok (MkParsedUrl (before_char 93 (behind authority)) (if begins (is_char 58) rest then behind rest else "443"))
      else if bool_decide (count_char 58 authority = 1%nat) then Ok (MkParsedUrl (before_char 58 authority) (after_char 58 authority))
      else Ok (MkParsedUrl authority "443") in
    if bool_decide (pu_host out = "") || bool_decide (pu_port out = "") then Throw "invalid coordinator URL" else Ok out.

(** [std::stoull(text, nullptr, 16)]: the digits may follow [0x]; [None] when it throws. *)
Definition stoull_hex (text : string) : option Z :=
  let s := drop_while isspace text in
  let '(negative, s) :=
    match s with
    | String c s' => if is_char 45 c then (true, s') else if is_char 43 c then (false, s') else (false, s)
    | EmptyString => (false, s)
    end in
  let s := match s with
           | String z (String x s') =>
               if is_char 48 z && (is_char 120 x || is_char 88 x) && begins isxdigit s' then s' else s
           | _ => s
           end in
  let digits := take_while isxdigit s in
  if bool_decide (digits = "") || (u64_max <? hex_digits_value 0 digits) then None
  else Some (if negative : bool then wrap_u 64 (- hex_digits_value 0 digits) else hex_digits_value 0 digits).

(** [rest] is the part of [body] from the position of the loop on. *)
Fixpoint dechunk_loop (fuel : nat) (body out rest : string) : result string :=
  match fuel with
  | O => Throw "fuel"
  | S fuel =>
      match find_from rest crlf 0 with
      | None => Ok body
      | Some line_end =>
          match stoull_hex (before_char 59 (substr rest 0 line_end)) with
          | None => Ok body
          | Some size =>
              let rest := substr_from rest (line_end + 2) in
              if size =? 0 then Ok out
              else if Z.of_nat (String.length rest) <? size then Throw "truncated chunked coordinator response"
              else
                let out := out +:+ substr rest 0 (Z.to_nat size) in
                let rest := substr_from rest (Z.to_nat size) in
                if negb (starts_with crlf rest) then Throw "invalid chunked coordinator response"
                else dechunk_loop fuel body out (substr_from rest 2)
          end
      end
  end.

Definition dechunk (body : string) : result string := dechunk_loop (S (String.length body)) body "" body.

Fixpoint header_lookup (needle : string) (ls : list string) : string :=
  match ls with
  | [] => ""
  | line :: ls =>
      let line := strip_cr line in
      if has_char 58 line && bool_decide (lower (before_char 58 line +:+ ":") = needle)
      then drop_while isspace (after_char 58 line) else header_lookup needle ls
  end.

(** [authenticated_post] from the received bytes on. *)
Definition read_answer (response : string) : result string :=
  match find_from response (crlf +:+ crlf) 0 with
  | None => Throw "invalid coordinator HTTP response"
  | Some header_end =>
      let status := status_of (match find_from response crlf 0 with Some n => substr response 0 n | None => response end) in
      let headers := substr response 0 (header_end + 2) in
      let body := substr_from response (header_end + 4) in
      let? body := if contains_text (lower (header_lookup "transfer-encoding:" (lines headers))) "chunked" then dechunk body else Ok body in
      if status =? 204 then Ok ""
      else if (status <? 200) || (300 <=? status)
      then Throw ("coordinator rule request failed with HTTP " +:+ to_string status +:+ ": " +:+ body)
      else Ok body
  end.

Definition request_text (url : ParsedUrl) (path body : string) : string :=
  "POST " +:+ path +:+ " HTTP/1.1" +:+ crlf +:+ "Host: " +:+ pu_host url +:+ crlf +:+ "Content-Type: application/json" +:+ crlf +:+
  "Accept: application/json, text/plain" +:+ crlf +:+ "Connection: close" +:+ crlf +:+ "Content-Length: " +:+
  to_string (Z.of_nat (String.length body)) +:+ crlf +:+ crlf +:+ body.

(** ** The site *)

Record Site := MkSite {
  s_identity : Tree;                       (* identity files *)
  s_rules : option string;                 (* state_dir/rules/active.json *)
  s_marker : option (string * Z);          (* state_dir/rules/convergence.pending, and when it was written *)
  s_content : option string;               (* state_dir/yarax-content/active.yar *)
  s_meta : option string;                  (* state_dir/yarax-content/active.meta *)
  s_service : option (option string);      (* the running service, with the rule file it has loaded *)
  s_received : list (string * string);     (* requests the coordinator has received: path and body *)
  s_workers : list string;                 (* update workers that were launched *)
  s_lost : bool }.                         (* closing the new rule file has lost a part of it; nothing reads this *)

Definition set_rules (v : option string) (s : Site) : Site :=
  MkSite (s_identity s) v (s_marker s) (s_content s) (s_meta s) (s_service s) (s_received s) (s_workers s) (s_lost s).
Definition set_marker (v : option (string * Z)) (s : Site) : Site :=
  MkSite (s_identity s) (s_rules s) v (s_content s) (s_meta s) (s_service s) (s_received s) (s_workers s) (s_lost s).
Definition set_content (v : option string) (s : Site) : Site :=
  MkSite (s_identity s) (s_rules s) (s_marker s) v (s_meta s) (s_service s) (s_received s) (s_workers s) (s_lost s).
Definition set_meta (v : option string) (s : Site) : Site :=
  MkSite (s_identity s) (s_rules s) (s_marker s) (s_content s) v (s_service s) (s_received s) (s_workers s) (s_lost s).
Definition set_service (v : option (option string)) (s : Site) : Site :=
  MkSite (s_identity s) (s_rules s) (s_marker s) (s_content s) (s_meta s) v (s_received s) (s_workers s) (s_lost s).
Definition add_received (r : string * string) (s : Site) : Site :=
  MkSite (s_identity s) (s_rules s) (s_marker s) (s_content s) (s_meta s) (s_service s) (s_received s ++ [r]) (s_workers s) (s_lost s).
Definition add_worker (sha : string) (s : Site) : Site :=
  MkSite (s_identity s) (s_rules s) (s_marker s) (s_content s) (s_meta s) (s_service s) (s_received s) (s_workers s ++ [sha]) (s_lost s).

(** The files that are replaced: the new content, and whether it is only a part of what was written. *)
Definition put_rules (lost : bool) (v : option string) (s : Site) : Site :=
  if lost then MkSite (s_identity s) v (s_marker s) (s_content s) (s_meta s) (s_service s) (s_received s) (s_workers s) true else set_rules v s.
Definition put_content (lost : bool) (v : option string) (s : Site) : Site := set_content v s.
Definition put_meta (lost : bool) (v : option string) (s : Site) : Site := set_meta v s.

(** A file replaced with [content], of which only [cut] bytes may have reached it. *)
Definition placed (put : bool -> option string -> Site -> Site) (content : string) (cut : option nat) (s : Site) : Site :=
  match cut with
  | None => put false (Some content) s
  | Some n => put true (Some (substr content 0 n)) s
  end.

Notation R := (IO Site).

(** What the coordinator answers to a request sent to an address, or why the exchange failed. *)
Class Coordinator := coordinator_exchange : ParsedUrl -> string -> result string.

(** [try { m } catch (...) {}] *)
Definition ignoring {A} (m : R A) : R unit := let* _ := trying m in ret tt.

(** As in the POSIX builds; on Windows a failed rename is tried again after removing the target. *)
Definition atomic_write (put : bool -> option string -> Site -> Site) (content : string) : R unit :=
  replace_file true "cannot atomically activate rule bundle: " (placed put content).

Definition restore_previous (put : bool -> option string -> Site -> Site) (previous : option string) : R unit :=
  match previous with
  | Some text => atomic_write put text
  | None => catch (io_update (put false None)) (fun _ => ret tt)
  end.

(** [systemctl restart]: the service comes up with the rule file of that moment; a failed restart may
    leave it stopped. *)
Definition restart_service : R unit := fun fs s =>
  match next_fault fs with
  | (IoDone, fs') => (Done tt, fs', set_service (Some (s_rules s)) s)
  | (IoThrows _ kept, fs') =>
      (Threw "failed to restart neta-agent.service after rule update", fs', match kept with None => s | Some _ => set_service None s end)
  | (IoCrashes kept, fs') => (Crashed, fs', match kept with None => s | Some _ => set_service None s end)
  end.

Definition reload_service_if_running : R bool :=
  let* active := catch (io_read (fun s => has (s_service s))) (fun _ => ret false) in
  if active : bool then let* _ := restart_service in ret true else ret false.

Section site.
Context `{Sha256} `{CastUndefined} `{Coordinator} (state_dir : string).

(** The exchange: an error may come before or after the coordinator has received the request. *)
Definition exchange (url : ParsedUrl) (path body : string) : R string := fun fs s =>
  let sent kept := match kept with None => s | Some _ => add_received (path, body) s end in
  match next_fault fs with
  | (IoDone, fs') =>
      match coordinator_exchange url (request_text url path body) with
      | Ok response => (Done response, fs', add_received (path, body) s)
      | Throw message => (Threw message, fs', s)
      end
  | (IoThrows message kept, fs') => (Threw message, fs', sent kept)
  | (IoCrashes kept, fs') => (Crashed, fs', sent kept)
  end.

Definition authenticated_post (path body : string) : R string :=
  let* files := io_read s_identity in
  let* identity := lift (load_identity state_dir files) in
  let* url := lift (parse_https_url (fi_coordinator identity)) in
  let* response := exchange url path body in
  lift (read_answer response).

(** *** Rule bundles *)

Record ActiveRuleBundleState := MkBundleState {
  ab_path : string; ab_revision : Z; ab_version : string; ab_sha256 : string; ab_rule_count : Z; ab_centrally_managed : bool }.

Definition rules_path : string := path_join (path_join state_dir "rules") "active.json".

Definition state_from_text (path text : string) (centrally_managed : bool) : result ActiveRuleBundleState :=
  let? loaded := load_text text path in
  Ok (MkBundleState path (rs_revision loaded) (rs_version loaded) (sha256_hex text)
        (Z.of_nat (length (rs_definitions loaded))) centrally_managed).

Definition fetch_rule_bundle : R string := authenticated_post "/api/v1/agent/rules/fetch" "{}".

Definition rule_ack_body (revision : Z) (sha256 status error : string) : string :=
  "{" +:+ field "revision" (to_string revision) +:+ "," +:+ text_field "sha256" (json_escape sha256) +:+ "," +:+
  text_field "status" (json_escape status) +:+ "," +:+ text_field "error" (json_escape error) +:+ "}".

Definition acknowledge_rule_bundle (revision : Z) (sha256 status error : string) : R string :=
  authenticated_post "/api/v1/agent/rules/ack" (rule_ack_body revision sha256 status error).

Definition update_rules_from_coordinator : R ActiveRuleBundleState :=
  let* bundle := fetch_rule_bundle in
  let* parsed := lift (load_text bundle "coordinator rule bundle") in
  let* _ := lift (throw_if (negb (rs_schema_version parsed =? 2)) "coordinator rule bundle must use schema version 2") in
  let hash := sha256_hex bundle in
  let* previous := io_read s_rules in
  let* _ := atomic_write put_rules bundle in
  let* _ := catch (acknowledge_rule_bundle (rs_revision parsed) hash "INSTALLED" "")
              (fun error => let* _ := restore_previous put_rules previous in raise error) in
  let* reloaded := catch reload_service_if_running (fun error =>
                     let* _ := restore_previous put_rules previous in
                     let* _ := ignoring reload_service_if_running in
                     let* _ := ignoring (acknowledge_rule_bundle (rs_revision parsed) hash "APPLY_FAILED" error) in
                     raise error) in
  let* _ := if reloaded : bool then acknowledge_rule_bundle (rs_revision parsed) hash "ACTIVE" "" else ret "" in
  lift (state_from_text rules_path bundle true).

Definition active_rule_bundle_state : R ActiveRuleBundleState :=
  let* text := io_read s_rules in
  match text with
  | Some text => lift (state_from_text rules_path text true)
  | None =>
      let* set := lift built_in in
      ret (MkBundleState "" (rs_revision set) (rs_version set) (rule_set_hash set) (Z.of_nat (length (rs_definitions set))) false)
  end.

(** *** Heartbeat responses *)

Record RuleControlDecision := MkDecision {
  rc_present : bool; rc_fetch_required : bool; rc_refresh_requested : bool; rc_desired_revision : Z; rc_desired_sha256 : string }.

Definition no_decision : RuleControlDecision := MkDecision false false false 0 "".

Definition parse_rule_control_response (response_body : string) : result RuleControlDecision :=
  let? root := parse response_body in
  let? control := json_find root "rules" in
  match control with
  | None => Ok no_decision
  | Some control =>
      let? revision_value := json_at control "desiredRevision" in
      let? revision := as_number revision_value in
      let? _ := throw_if (negb (isfinite revision) || double_leb revision (double_of_Z 0) ||
                          negb (double_eqb (double_floor revision) revision) || double_gtb revision double_u64_max)
                  "heartbeat desired rule revision is invalid" in
      let? sha_value := json_at control "desiredSha256" in
      let? sha := as_string sha_value in
      let desired := lower sha in
      let? _ := throw_if (negb (is_hex desired 64)) "heartbeat desired rule SHA-256 is invalid" in
      let? fetch_value := json_at control "fetchRequired" in
      let? fetch_required := as_boolean fetch_value in
      let? refresh := json_find control "refreshRequested" in
      let? refresh_requested := match refresh with Some v => as_boolean v | None => Ok false end in
      Ok (MkDecision true fetch_required refresh_requested (cast_u64 revision) desired)
  end.

(** *** Convergence *)

Definition kMarkerLifetimeNs : Z := 10 * 60 * kNanosecondsPerSecond.

Definition marker_text (text : string) : string := lower (strip_cr (value_or (head (lines text)) "")).

Definition write_marker (sha256 : string) (now : Z) : R unit :=
  replace_file false "cannot activate rule convergence marker: "
    (placed (fun _ text => set_marker ((fun t => (t, now)) <$> text)) (sha256 +:+ newline)).

Definition remove_marker : R unit := catch (io_update (set_marker None)) (fun _ => ret tt).

Definition marker_recent (desired_sha256 : string) (now : Z) : R bool :=
  let* present := io_read (fun s => has (s_marker s)) in
  if negb present then ret false
  else
    let* value := catch (io_read (fun s => match s_marker s with Some (text, _) => marker_text text | None => "" end)) (fun _ => ret "") in
    if negb (bool_decide (value = desired_sha256)) then ret false
    else
      let* modified := catch (io_read (fun s => snd <$> s_marker s)) (fun _ => ret None) in
      ret (match modified with Some modified => now - modified <? kMarkerLifetimeNs | None => false end).

Definition launch_worker (desired_sha256 : string) : R unit := io_update (add_worker desired_sha256).

Definition accept_rule_control_from_coordinator_response (response_body : string) (now : Z) : R bool :=
  let* decision := lift (parse_rule_control_response response_body) in
  if negb (rc_present decision) then ret false
  else
    let* active := active_rule_bundle_state in
    let active_sha := strip_prefix "sha256:" (lower (ab_sha256 active)) in
    let drift := negb (bool_decide (active_sha = rc_desired_sha256 decision)) in
    if negb drift && negb (rc_refresh_requested decision) then let* _ := remove_marker in ret false
    else if negb drift && negb (rc_fetch_required decision) && negb (rc_refresh_requested decision) then ret false
    else
      let* recent := marker_recent (rc_desired_sha256 decision) now in
      if recent : bool then ret false
      else
        let* _ := write_marker (rc_desired_sha256 decision) now in
        let* _ := catch (launch_worker (rc_desired_sha256 decision)) (fun error => let* _ := remove_marker in raise error) in
        ret true.

(** *** YARA content *)

Record ParsedYaraContent := MkYaraContent { yc_bundle_id : string; yc_revision : Z; yc_sha256 : string; yc_content : string }.

Definition two_newlines : string := newline +:+ newline.
Definition yara_magic : string := "NETA-YARAX-CONTENT/1" +:+ newline.

(** The loop over header lines, which the envelope and the metadata file share: the last value of each
    key counts. *)
Fixpoint content_headers (ls : list string) (bundle_id : string) (revision : Z) (sha256 : string) : result (string * Z * string) :=
  match ls with
  | [] => Ok (bundle_id, revision, sha256)
  | line :: ls =>
      if negb (has_char 58 line) then content_headers ls bundle_id revision sha256
      else
        let key := before_char 58 line in
        let value := after_char 58 line in
        if bool_decide (key = "bundle-id") then content_headers ls value revision sha256
        else if bool_decide (key = "revision") then let? revision := stoull value in content_headers ls bundle_id revision sha256
        else if bool_decide (key = "sha256") then content_headers ls bundle_id revision (lower value)
        else content_headers ls bundle_id revision sha256
  end.

Definition parse_yarax_content (envelope : string) : result ParsedYaraContent :=
  if negb (starts_with yara_magic envelope) then Throw "invalid central YARA content envelope"
  else
    match find_from envelope two_newlines (String.length yara_magic) with
    | None => Throw "central YARA content envelope has no content separator"
    | Some split =>
        let? headers := content_headers (lines (substr envelope (String.length yara_magic) (split - String.length yara_magic))) "" 0 "" in
        let '(bundle_id, revision, sha256) := headers in
        let content := substr_from envelope (split + 2) in
        let? _ := throw_if (bool_decide (bundle_id = "") || (revision =? 0) || negb (is_hex sha256 64))
                    "central YARA content metadata is incomplete or invalid" in
        let? _ := throw_if (negb (bool_decide (sha256_hex content = sha256))) "central YARA content SHA-256 mismatch" in
        Ok (MkYaraContent bundle_id revision sha256 content)
    end.

Definition yarax_meta (content : ParsedYaraContent) : string :=
  "bundle-id:" +:+ yc_bundle_id content +:+ newline +:+ "revision:" +:+ to_string (yc_revision content) +:+ newline +:+
  "sha256:" +:+ yc_sha256 content +:+ newline.

Record YaraXContentState := MkYaraState {
  ys_path : string; ys_bundle_id : string; ys_revision : Z; ys_sha256 : string; ys_centrally_managed : bool }.

Definition yara_path : string := path_join (path_join state_dir "yarax-content") "active.yar".

Definition yarax_state_from_meta (meta : string) : R YaraXContentState :=
  let* headers := lift (content_headers (lines meta) "" 0 "") in
  let '(bundle_id, revision, sha256) := headers in
  let* _ := lift (throw_if (bool_decide (bundle_id = "") || (revision =? 0) || negb (bool_decide (String.length sha256 = 64%nat)))
                    "invalid active YARA content metadata") in
  let* content := io_read s_content in
  match content with
  | None => raise "active YARA content file is missing"
  | Some content =>
      let* _ := lift (throw_if (negb (bool_decide (sha256_hex content = sha256))) "active YARA content SHA-256 mismatch") in
      ret (MkYaraState yara_path bundle_id revision sha256 true)
  end.

Definition yara_ack_body (content : ParsedYaraContent) (status error : string) : string :=
  "{" +:+ text_field "bundleId" (json_escape (yc_bundle_id content)) +:+ "," +:+ field "revision" (to_string (yc_revision content)) +:+ "," +:+
  text_field "sha256" (json_escape (yc_sha256 content)) +:+ "," +:+ text_field "state" (json_escape status) +:+ "," +:+
  text_field "error" (json_escape error) +:+ "}".

Definition acknowledge_yarax_content_bundle (content : ParsedYaraContent) (status error : string) : R string :=
  authenticated_post "/api/v1/agent/yarax/content/ack" (yara_ack_body content status error).

Definition fetch_yarax_content_bundle : R string := authenticated_post "/api/v1/agent/yarax/content/fetch" "{}".

Definition restore_yara (content meta : option string) : R unit :=
  let* _ := restore_previous put_content content in restore_previous put_meta meta.

Definition meta_path : string := path_join (path_join state_dir "yarax-content") "active.meta".

(** Reading the metadata file that was found. *)
Definition read_meta : R string :=
  let* meta := io_read s_meta in
  match meta with Some meta => ret meta | None => raise ("cannot open rule bundle: " +:+ meta_path) end.

Definition update_yarax_content_from_coordinator : R YaraXContentState :=
  let* envelope := fetch_yarax_content_bundle in
  if bool_decide (envelope = "") then
    let* present := io_read (fun s => has (s_meta s)) in
    if present : bool then let* meta := read_meta in yarax_state_from_meta meta
    else raise "no centrally managed YARA content is assigned to this endpoint"
  else
    let* parsed := lift (parse_yarax_content envelope) in
    let* previous_content := io_read s_content in
    let* previous_meta := io_read s_meta in
    let* _ := atomic_write put_content (yc_content parsed) in
    let* _ := atomic_write put_meta (yarax_meta parsed) in
    let* _ := catch (acknowledge_yarax_content_bundle parsed "INSTALLED" "")
                (fun error => let* _ := restore_yara previous_content previous_meta in raise error) in
    let* reloaded := catch reload_service_if_running (fun error =>
                       let* _ := restore_yara previous_content previous_meta in
                       let* _ := ignoring reload_service_if_running in
                       let* _ := ignoring (acknowledge_yarax_content_bundle parsed "APPLY_FAILED" error) in
                       raise error) in
    let* _ := if reloaded : bool then acknowledge_yarax_content_bundle parsed "ACTIVE" "" else ret "" in
    let* meta := read_meta in yarax_state_from_meta meta.

Definition active_yarax_content_state : R YaraXContentState :=
  let* meta := io_read s_meta in
  match meta with
  | None => ret (MkYaraState "" "" 0 "" false)
  | Some _ => let* meta := read_meta in yarax_state_from_meta meta
  end.

End site.

(** ** What an update leaves *)

Section exact.
Context `{Sha256} `{CastUndefined} `{Coordinator} (state_dir : string).

(** The answer to one request, when identity, address and coordinator are all right. *)
Definition answered (s : Site) (path body answer : string) : Prop :=
  exists identity url response, load_identity state_dir (s_identity s) = Ok identity /\ parse_https_url (fi_coordinator identity) = Ok url /\
    coordinator_exchange url (request_text url path body) = Ok response /\ read_answer response = Ok answer.

Definition maybe_received (r : string * string) (s w : Site) : Prop := w = s \/ w = add_received r s.

Lemma post_spec s path body :
  triple (fun w => w = s) (authenticated_post state_dir path body)
    (fun answer w => answered s path body answer /\ w = add_received (path, body) s)
    (fun _ => maybe_received (path, body) s) (maybe_received (path, body) s).
Proof.
  intros fs w ->. unfold authenticated_post, bind, io_read, lift, ret, raise, exchange.
  destruct (next_fault fs) as [[|m k|k] fs1]; [|by left..].
  destruct (load_identity state_dir (s_identity s)) as [identity|m] eqn:Ei; [|by left].
  destruct (parse_https_url (fi_coordinator identity)) as [url|m] eqn:Eu; [|by left].
  destruct (next_fault fs1) as [[|m [k|]|[k|]] fs2]; [|by right|by left|by right|by left].
  destruct (coordinator_exchange url (request_text url path body)) as [response|m] eqn:Er; [|by left].
  destruct (read_answer response) as [answer|m] eqn:Ea; [|by right]. split; [|done]. by exists identity, url, response.
Qed.

(** A request changes only what the coordinator has received. *)
Lemma post_keeps (P : Site -> Prop) path body :
  (forall s, P s -> P (add_received (path, body) s)) -> triple P (authenticated_post state_dir path body) (fun _ => P) (fun _ => P) P.
Proof.
  intros HP fs s Hs. pose proof (post_spec s path body fs s eq_refl) as Hp.
  destruct (authenticated_post _ _ _ fs s) as [[[a|m|] fs'] w]; [destruct Hp as [_ ->]|destruct Hp as [->| ->]..]; auto.
Qed.

(** Putting the previous file back. *)
Lemma restore_keeps (P : Site -> Prop) put previous :
  (forall text cut s, previous = Some text -> P s -> P (placed put text cut s)) -> (forall s, previous = None -> P s -> P (put false None s)) ->
  triple P (restore_previous put previous) (fun _ => P) (fun _ => P) P.
Proof.
  intros Hs Hn. destruct previous as [text|]; cbn; [apply triple_replace_keep; auto|].
  eapply triple_catch; [apply triple_keep; auto|]. intros m. by apply triple_ret.
Qed.

Lemma ignoring_keeps {A} (m : R A) (P : Site -> Prop) T :
  triple P m (fun _ => P) (fun _ => P) P -> triple P (ignoring m) (fun _ => P) T P.
Proof.
  intros Hm. eapply (triple_bind _ _ _ (fun _ => P)); [|intros r; by apply triple_ret].
  intros fs s Hs. pose proof (triple_trying m P _ T _ P Hm fs s Hs) as Ht. by destruct (trying m fs s) as [[[[]|?|] ?] ?].
Qed.

(** Reloading changes only the service, which afterwards runs the rules of the file. *)
Lemma reload_spec s (C : Site -> Prop) :
  C s -> (forall v, C (set_service v s)) ->
  triple (fun w => w = s) reload_service_if_running
    (fun reloaded w => if reloaded : bool then s_service s <> None /\ w = set_service (Some (s_rules s)) s else w = s) (fun _ => C) C.
Proof.
  intros Ha Hb fs w ->. unfold reload_service_if_running, bind, catch, io_read, ret, restart_service.
  destruct (next_fault fs) as [[|m k|k] fs1]; cbn; [|done|done].
  destruct (s_service s) eqn:Es; cbn; [|done].
  by destruct (next_fault fs1) as [[|m [k|]|[k|]] fs2].
Qed.

Lemma reload_keeps (P : Site -> Prop) : (forall s v, P s -> P (set_service v s)) -> triple P reload_service_if_running (fun _ => P) (fun _ => P) P.
Proof.
  intros HP fs s Hs. pose proof (reload_spec s P Hs (fun v => HP s v Hs) fs s eq_refl) as Hr.
  destruct (reload_service_if_running fs s) as [[[[]|m|] fs'] w]; [destruct Hr as [_ ->]; auto|by subst|done|done].
Qed.

(** *** Rule bundles *)

Definition fetched (s : Site) (bundle : string) : Prop := answered s "/api/v1/agent/rules/fetch" "{}" bundle.

Definition bundle_ok (bundle : string) (set : RuleSet) : Prop :=
  load_text bundle "coordinator rule bundle" = Ok set /\ rs_schema_version set = 2.

Definition rule_ack (bundle : string) (set : RuleSet) (status : string) : string * string :=
  ("/api/v1/agent/rules/ack", rule_ack_body (rs_revision set) (sha256_hex bundle) status "").

Definition bundle_state (bundle : string) (set : RuleSet) : ActiveRuleBundleState :=
  MkBundleState (rules_path state_dir) (rs_revision set) (rs_version set) (sha256_hex bundle) (Z.of_nat (length (rs_definitions set))) true.

(** [s] after the bundle was fetched, written and acknowledged as installed; of the file, [cut] bytes
    may be left. *)
Definition installed_site (bundle : string) (cut : option nat) (set : RuleSet) (s : Site) : Site :=
  add_received (rule_ack bundle set "INSTALLED") (placed put_rules bundle cut (add_received ("/api/v1/agent/rules/fetch", "{}") s)).

(** [s] after the service was restarted with it as well. *)
Definition activated_site (bundle : string) (cut : option nat) (set : RuleSet) (s : Site) : Site :=
  let w := installed_site bundle cut set s in add_received (rule_ack bundle set "ACTIVE") (set_service (Some (s_rules w)) w).

(** The old rule file, or a bundle that was fetched and that loads. *)
Definition rule_text (s : Site) (text : string) : Prop :=
  s_rules s = Some text \/ exists set, fetched s text /\ bundle_ok text set.

(** Only the rule file, the service and the received requests may differ, requests are only added,
    and the rule file is as before, or the old one or the new bundle was put there: as a whole, or,
    when closing it has lost something, the beginning of it. *)
Definition rules_frame (s w : Site) : Prop :=
  s_identity w = s_identity s /\ s_marker w = s_marker s /\ s_content w = s_content s /\ s_meta w = s_meta s /\ s_workers w = s_workers s /\
  (exists new, s_received w = s_received s ++ new) /\ (s_lost s = true -> s_lost w = true) /\
  (s_rules w = s_rules s \/
   exists text, rule_text s text /\ (s_rules w = Some text \/ s_lost w = true /\ exists n, s_rules w = Some (substr text 0 n))).

Lemma frame_received s r w : rules_frame s w -> rules_frame s (add_received r w).
Proof.
  intros (? & ? & ? & ? & ? & [new Hn] & ? & ?). split_and!; [done..| |done|done]. exists (new ++ [r]). cbn. by rewrite Hn, (assoc_L (++)).
Qed.
Lemma frame_service s v w : rules_frame s w -> rules_frame s (set_service v w).
Proof. done. Qed.
Lemma frame_placed s w text cut : rule_text s text -> rules_frame s w -> rules_frame s (placed put_rules text cut w).
Proof.
  intros Ht (? & ? & ? & ? & ? & Hn & Hl & _). destruct cut as [n|]; (split_and!; [done..|exact Hn|by auto|]); right; exists text; (split; [done|]).
  - right. split; [done|]. by exists n.
  - by left.
Qed.
Lemma frame_restored s w : s_rules s = None -> rules_frame s w -> rules_frame s (put_rules false None w).
Proof. intros E (? & ? & ? & ? & ? & Hn & Hl & _). split_and!; [done..|exact Hn|exact Hl|]. left. by rewrite E. Qed.
Lemma frame_refl s : rules_frame s s.
Proof. split_and!; [done..| |done|by left]. exists []. by rewrite app_nil_r. Qed.

Lemma restore_frame s : triple (rules_frame s) (restore_previous put_rules (s_rules s)) (fun _ => rules_frame s) (fun _ => rules_frame s) (rules_frame s).
Proof.
  apply restore_keeps; [|intros w; apply frame_restored]. intros text cut w E. apply frame_placed. by left.
Qed.

Lemma load_text_source text a b set : load_text text a = Ok set -> load_text text b = Ok set.
Proof. unfold load_text. by destruct (let? root := parse text in parse_root root). Qed.

(** The acknowledgement with its rollback. *)
Lemma installed_spec bundle cut set s :
  fetched s bundle -> bundle_ok bundle set ->
  triple (fun w => w = placed put_rules bundle cut (add_received ("/api/v1/agent/rules/fetch", "{}") s))
    (catch (acknowledge_rule_bundle state_dir (rs_revision set) (sha256_hex bundle) "INSTALLED" "")
       (fun error => let* _ := restore_previous put_rules (s_rules s) in raise error))
    (fun _ w => w = installed_site bundle cut set s) (fun _ => rules_frame s) (rules_frame s).
Proof.
  intros Hf Hb. set (s2 := placed _ _ _ _).
  assert (Hs2 : rules_frame s s2) by (apply frame_placed; [right; by exists set|apply frame_received, frame_refl]).
  eapply (triple_catch _ _ _ _ _ (fun _ => rules_frame s)).
  - eapply triple_weaken; [apply (post_spec s2)|done|by intros a w [_ ->]| |]; [intros m w|intros w]; intros [->| ->]; [done|by apply frame_received|done|by apply frame_received].
  - intros m. eapply (triple_bind _ _ _ (fun _ => rules_frame s)); [apply restore_frame|]. intros []. by apply triple_raise.
Qed.

(** The restart with its rollback. *)
Lemma reloaded_spec bundle cut set s :
  fetched s bundle -> bundle_ok bundle set ->
  triple (fun w => w = installed_site bundle cut set s)
    (catch reload_service_if_running (fun error =>
       let* _ := restore_previous put_rules (s_rules s) in
       let* _ := ignoring reload_service_if_running in
       let* _ := ignoring (acknowledge_rule_bundle state_dir (rs_revision set) (sha256_hex bundle) "APPLY_FAILED" error) in
       raise error))
    (fun reloaded w => if reloaded : bool then s_service s <> None /\ w = set_service (Some (s_rules (installed_site bundle cut set s))) (installed_site bundle cut set s)
                       else w = installed_site bundle cut set s)
    (fun _ => rules_frame s) (rules_frame s).
Proof.
  intros Hf Hb. set (s3 := installed_site bundle cut set s).
  assert (Hs3 : rules_frame s s3) by (apply frame_received, frame_placed; [right; by exists set|apply frame_received, frame_refl]).
  assert (Hsv : s_service s3 = s_service s) by (unfold s3, installed_site; by destruct cut).
  eapply (triple_catch _ _ _ _ _ (fun _ => rules_frame s)).
  - eapply triple_weaken; [apply (reload_spec s3 (rules_frame s)); [done|intros v; by apply frame_service]|done| |done|done].
    intros [] w; [|done]. by rewrite Hsv.
  - intros m. eapply (triple_bind _ _ _ (fun _ => rules_frame s)); [apply restore_frame|]. intros [].
    eapply (triple_bind _ _ _ (fun _ => rules_frame s)); [apply ignoring_keeps, reload_keeps; intros w v; apply frame_service|]. intros [].
    eapply (triple_bind _ _ _ (fun _ => rules_frame s)); [apply ignoring_keeps, post_keeps; intros w; apply frame_received|].
    intros []. by apply triple_raise.
Qed.

Lemma update_rules_spec s :
  triple (fun w => w = s) (update_rules_from_coordinator state_dir)
    (fun st w => exists bundle set cut, fetched s bundle /\ bundle_ok bundle set /\ st = bundle_state bundle set /\
       (w = installed_site bundle cut set s \/ s_service s <> None /\ w = activated_site bundle cut set s))
    (fun _ => rules_frame s) (rules_frame s).
Proof.
  unfold update_rules_from_coordinator. set (s1 := add_received ("/api/v1/agent/rules/fetch", "{}") s).
  assert (Hs1 : rules_frame s s1) by apply frame_received, frame_refl.
  eapply (triple_bind _ _ _ (fun bundle w => fetched s bundle /\ w = s1)).
  { eapply triple_weaken; [apply (post_spec s)|done|done| |]; [intros m w|intros w]; (intros [->| ->]; [apply frame_refl|done]). }
  intros bundle. apply triple_pure. intros Hf.
  eapply (triple_bind _ _ _ (fun set w => load_text bundle "coordinator rule bundle" = Ok set /\ w = s1)).
  { apply triple_lift; [by intros set w -> ->|by intros m w _ ->]. }
  intros set. apply triple_pure. intros Hl.
  eapply (triple_bind _ _ _ (fun _ w => rs_schema_version set = 2 /\ w = s1)).
  { apply triple_lift; [|by intros m w _ ->]. intros [] w E ->. apply throw_if_ok in E. split; [by to_prop|done]. }
  intros _. apply triple_pure. intros Hv. assert (Hb : bundle_ok bundle set) by by split.
  eapply (triple_bind _ _ _ (fun previous w => previous = s_rules s /\ w = s1)).
  { eapply triple_weaken; [apply (triple_read s_rules (fun w => w = s1) (fun _ => rules_frame s) (rules_frame s)); by intros; subst|done| |done|done].
    by intros p w [-> ->]. }
  intros previous. apply triple_pure. intros ->.
  eapply (triple_bind _ _ _ (fun _ w => exists cut, w = placed put_rules bundle cut s1)).
  { apply triple_replace; [by intros m w ->|by intros w ->|]. intros cut w ->. split; [by exists cut|]. apply frame_placed; [right; by exists set|done]. }
  intros [] fs w [cut ->]. refine ((_ : triple (fun w => w = placed put_rules bundle cut s1) _ _ _ _) fs _ eq_refl). clear fs.
  eapply triple_bind; [by apply installed_spec|]. intros ack.
  eapply triple_bind; [by apply reloaded_spec|]. intros reloaded.
  eapply (triple_bind _ _ _ (fun _ w => w = installed_site bundle cut set s \/ s_service s <> None /\ w = activated_site bundle cut set s)).
  - assert (Hs3 : rules_frame s (installed_site bundle cut set s)) by (apply frame_received, frame_placed; [right; by exists set|done]).
    destruct reloaded; [|apply triple_ret; intros w ->; by left]. apply triple_pure. intros Hrun.
    eapply triple_weaken; [apply (post_spec (set_service (Some (s_rules (installed_site bundle cut set s))) (installed_site bundle cut set s)))|done| | |].
    + intros a w [_ ->]. by right.
    + intros m w [->| ->]; [by apply frame_service|by apply frame_received, frame_service].
    + intros w [->| ->]; [by apply frame_service|by apply frame_received, frame_service].
  - intros _. unfold state_from_text. rewrite (load_text_source _ _ _ _ Hl). apply triple_ret. intros w Hw. by exists bundle, set, cut.
Qed.

(** C17: Updating the rules from the coordinator on Linux, whatever fails and wherever the process is
    killed (nothing is synced: a loss of power is not covered).  When it returns, the bundle that was
    fetched loads with schema version 2 and was written to the rule file, of which closing it may
    have lost a part unnoticed (without that the file is the bundle); the returned state describes
    the bundle, the coordinator was told that it is installed, and the service is as before, or it
    was running, has been restarted with the rule file and this was acknowledged; nothing else
    changes.  In every other case the rule file is as it was, or the old rules or such a bundle were
    put there, as a whole unless closing the file lost a part; the service may have been restarted or
    stopped and requests may have been sent, and nothing else changes. *)
Theorem rules_update_exact fs s :
  match update_rules_from_coordinator state_dir fs s with
  | (Done st, _, w) => exists bundle set cut, fetched s bundle /\ bundle_ok bundle set /\ st = bundle_state bundle set /\
      (w = installed_site bundle cut set s \/ s_service s <> None /\ w = activated_site bundle cut set s)
  | (_, _, w) => rules_frame s w
  end.
Proof.
  pose proof (update_rules_spec s fs s eq_refl) as Hs.
  by destruct (update_rules_from_coordinator state_dir fs s) as [[[st|m|] fs'] w].
Qed.

(** *** Errors are rolled back *)

(** The first [n] operations complete, the next one fails, and everything after it completes. *)
Definition fails_once (n : nat) (message : string) (kept : option nat) : list io_fault := repeat IoDone n ++ [IoThrows message kept].

(** The coordinator can be reached and accepts every request. *)
Definition responsive (s : Site) : Prop := forall path body, exists answer, answered s path body answer.

Lemma post_runs s path body fs fs1 fs2 :
  next_fault fs = (IoDone, fs1) -> next_fault fs1 = (IoDone, fs2) -> responsive s ->
  exists answer, answered s path body answer /\ authenticated_post state_dir path body fs s = (Done answer, fs2, add_received (path, body) s).
Proof.
  intros E1 E2 Hr. destruct (Hr path body) as (answer & identity & url & response & Ei & Eu & Er & Ea). exists answer.
  split; [by exists identity, url, response|]. unfold authenticated_post, bind, io_read, lift, exchange, ret. rewrite E1, Ei, Eu, E2, Er. by rewrite Ea.
Qed.

Lemma post_fails s path body n m k :
  (n < 2)%nat -> responsive s -> exists w, authenticated_post state_dir path body (fails_once n m k) s = (Threw m, [], w) /\ maybe_received (path, body) s w.
Proof.
  intros Hn Hr. destruct (Hr path body) as (answer & identity & url & response & Ei & Eu & Er & Ea).
  destruct n as [|[|]]; [|..|lia]; unfold authenticated_post, bind, io_read, lift, exchange; cbn; [exists s; by split; [|left]|].
  rewrite Ei. cbn. rewrite Eu. cbn. eexists. split; [done|]. destruct k; [by right|by left].
Qed.

Lemma restored_runs put previous w : restore_previous put previous [] w = (Done tt, [], put false previous w).
Proof. by destruct previous. Qed.

(** The acknowledgement of an installed bundle that fails. *)
Lemma installed_fails bundle set previous n m k w :
  (n < 2)%nat -> responsive w ->
  match catch (acknowledge_rule_bundle state_dir (rs_revision set) (sha256_hex bundle) "INSTALLED" "")
          (fun error => let* _ := restore_previous put_rules previous in raise error) (fails_once n m k) w with
  | (Done _, _, _) => False | (_, _, w') => s_rules w' = previous end.
Proof.
  intros Hn Hr. unfold catch, acknowledge_rule_bundle.
  destruct (post_fails w "/api/v1/agent/rules/ack" (rule_ack_body (rs_revision set) (sha256_hex bundle) "INSTALLED" "") n m k Hn Hr) as (w' & -> & _).
  unfold bind. by rewrite restored_runs.
Qed.

Definition apply_rollback (bundle : string) (set : RuleSet) (previous : option string) (error : string) : R bool :=
  let* _ := restore_previous put_rules previous in
  let* _ := ignoring reload_service_if_running in
  let* _ := ignoring (acknowledge_rule_bundle state_dir (rs_revision set) (sha256_hex bundle) "APPLY_FAILED" error) in
  raise error.

Lemma apply_rollback_restores bundle set previous error w :
  match apply_rollback bundle set previous error [] w with (Done _, _, _) => False | (_, _, w') => s_rules w' = previous end.
Proof.
  unfold apply_rollback. unfold bind at 1. rewrite restored_runs.
  pose proof (ignoring_keeps reload_service_if_running (fun w => s_rules w = previous) (fun _ w => s_rules w = previous)
                (reload_keeps (fun w => s_rules w = previous) (fun _ _ E => E)) [] (put_rules false previous w) eq_refl) as Hr.
  unfold bind at 1. destruct (ignoring _ [] _) as [[[[]|e|] fs'] w1]; [|done..].
  pose proof (ignoring_keeps _ (fun w => s_rules w = previous) (fun _ w => s_rules w = previous)
                (post_keeps (fun w => s_rules w = previous) "/api/v1/agent/rules/ack" (rule_ack_body (rs_revision set) (sha256_hex bundle) "APPLY_FAILED" error) (fun _ E => E)) fs' w1 Hr) as Ha.
  unfold bind. unfold acknowledge_rule_bundle. by destruct (ignoring _ fs' w1) as [[[[]|e|] fs''] w2].
Qed.

(** How an update that throws may leave the rules: as they were, or the new ones in use. *)
Definition rolled_back (s : Site) (r : outcome ActiveRuleBundleState * list io_fault * Site) : Prop :=
  match r with
  | (Done _, _, _) => True
  | (_, _, w) => s_rules w = s_rules s \/ exists bundle, s_rules w = Some bundle /\ s_service w = Some (Some bundle)
  end.

(** From the installed bundle on. *)
Lemma activation_rolled_back bundle text set s w n m k :
  responsive w -> s_rules w = Some text -> load_text bundle "coordinator rule bundle" = Ok set ->
  rolled_back s ((let* reloaded := catch reload_service_if_running (apply_rollback bundle set (s_rules s)) in
    let* _ := if reloaded : bool then acknowledge_rule_bundle state_dir (rs_revision set) (sha256_hex bundle) "ACTIVE" "" else ret "" in
    lift (state_from_text (rules_path state_dir) bundle true)) (fails_once n m k) w).
Proof.
  intros Hr Hrules Hl. assert (Hst : forall fs w, lift (W := Site) (state_from_text (rules_path state_dir) bundle true) fs w =
    (Done (MkBundleState (rules_path state_dir) (rs_revision set) (rs_version set) (sha256_hex bundle) (Z.of_nat (length (rs_definitions set))) true), fs, w)).
  { intros fs w0. unfold state_from_text. by rewrite (load_text_source _ _ _ _ Hl). }
  unfold bind at 1, catch, reload_service_if_running. destruct n as [|[|n]].
  - unfold bind, catch, io_read, ret. cbn. by rewrite Hst.
  - unfold bind at 1. cbn. destruct (s_service w) as [loaded|] eqn:Es; unfold bind, catch, ret; cbn.
    + pose proof (apply_rollback_restores bundle set (s_rules s) "failed to restart neta-agent.service after rule update"
        (match k with None => w | Some _ => set_service None w end)) as Hx.
      destruct (apply_rollback _ _ _ _ [] _) as [[[b|e|] fs'] w']; [done|by left..].
    + by rewrite Hst.
  - unfold bind at 1. cbn. destruct (s_service w) as [loaded|] eqn:Es; unfold bind, catch, ret, restart_service; cbn; [|by rewrite Hst].
    set (w1 := set_service (Some (s_rules w)) w). assert (Hr1 : responsive w1) by exact Hr.
    destruct (decide (n < 2)%nat) as [Hn|Hn].
    + unfold acknowledge_rule_bundle. destruct (post_fails w1 "/api/v1/agent/rules/ack"
        (rule_ack_body (rs_revision set) (sha256_hex bundle) "ACTIVE" "") n m k Hn Hr1) as (w2 & E & Hw2).
      unfold fails_once in E. rewrite E. right. exists text. destruct Hw2 as [->| ->]; cbn; by rewrite Hrules.
    + destruct n as [|[|n]]; [lia..|]. unfold acknowledge_rule_bundle.
      destruct (post_runs w1 "/api/v1/agent/rules/ack" (rule_ack_body (rs_revision set) (sha256_hex bundle) "ACTIVE" "")
        (repeat IoDone (S (S n)) ++ [IoThrows m k]) (repeat IoDone (S n) ++ [IoThrows m k]) (repeat IoDone n ++ [IoThrows m k]) eq_refl eq_refl Hr1) as (a & _ & E).
      rewrite E. by rewrite Hst.
Qed.

(** Without a failure the update returns. *)
Lemma activation_runs bundle set previous s w :
  responsive w -> load_text bundle "coordinator rule bundle" = Ok set ->
  rolled_back s ((let* _ := catch (acknowledge_rule_bundle state_dir (rs_revision set) (sha256_hex bundle) "INSTALLED" "")
                       (fun error => let* _ := restore_previous put_rules previous in raise error) in
    let* reloaded := catch reload_service_if_running (apply_rollback bundle set previous) in
    let* _ := if reloaded : bool then acknowledge_rule_bundle state_dir (rs_revision set) (sha256_hex bundle) "ACTIVE" "" else ret "" in
    lift (state_from_text (rules_path state_dir) bundle true)) [] w).
Proof.
  intros Hr Hl. unfold bind at 1, catch at 1, acknowledge_rule_bundle at 1.
  destruct (post_runs w "/api/v1/agent/rules/ack" (rule_ack_body (rs_revision set) (sha256_hex bundle) "INSTALLED" "") [] [] [] eq_refl eq_refl Hr) as (a & _ & ->).
  set (w1 := add_received _ w). assert (Hr1 : responsive w1) by exact Hr. unfold state_from_text. rewrite (load_text_source _ _ (rules_path state_dir) _ Hl). cbn [rbind lift].
  unfold bind at 1, catch. assert (El : reload_service_if_running [] w1 =
    (Done (has (s_service w1)), [], if has (s_service w1) then set_service (Some (s_rules w1)) w1 else w1)).
  { unfold reload_service_if_running, bind, catch, io_read, ret, restart_service, next_fault. by destruct (s_service w1). }
  rewrite El. destruct (has (s_service w1)); [|done]. unfold bind, acknowledge_rule_bundle.
  set (w2 := set_service (Some (s_rules w1)) w1). assert (Hr2 : responsive w2) by exact Hr.
  by destruct (post_runs w2 "/api/v1/agent/rules/ack" (rule_ack_body (rs_revision set) (sha256_hex bundle) "ACTIVE" "") [] [] [] eq_refl eq_refl Hr2) as (a' & _ & ->).
Qed.

(** C18: When the coordinator can be reached and a single operation of an update fails, of whatever
    kind and wherever in its course, an update that ends in an error leaves the rule file as it was,
    unless the service already runs with the new rules and only their last acknowledgement failed. *)
Theorem failed_update_restores n m k s :
  responsive s -> rolled_back s (update_rules_from_coordinator state_dir (fails_once n m k) s).
Proof.
  intros Hr. unfold update_rules_from_coordinator.
  assert (Hn2 : (n < 2)%nat \/ exists n', n = S (S n')) by (destruct n as [|[|n]]; [left; lia..|right; by exists n]).
  unfold bind at 1, fetch_rule_bundle. destruct Hn2 as [Hn|[n' ->]].
  { destruct (post_fails s "/api/v1/agent/rules/fetch" "{}" n m k Hn Hr) as (w & -> & [->| ->]); by left. }
  destruct (post_runs s "/api/v1/agent/rules/fetch" "{}" (fails_once (S (S n')) m k) (fails_once (S n') m k) (fails_once n' m k) eq_refl eq_refl Hr) as (bundle & Hb & ->).
  rename n' into n. set (s1 := add_received ("/api/v1/agent/rules/fetch", "{}") s).
  destruct (load_text bundle "coordinator rule bundle") as [set|e] eqn:Hl; unfold bind at 1, lift at 1; [|by left].
  unfold ret at 1, bind at 1, lift at 1. destruct (throw_if _ _) as [[]|e]; [|by left]. unfold ret at 1.
  unfold bind at 1, io_read. destruct n as [|n]; [by left|]. cbn [repeat fails_once app next_fault].
  change (repeat IoDone n ++ [IoThrows m k]) with (fails_once n m k). change (s_rules s1) with (s_rules s).
  unfold bind at 1, atomic_write. do 3 (destruct n as [|n]; [by left|]).
  destruct n as [|n].
  { change (replace_file true _ _ (fails_once 3 m k) s1) with (Done tt, @nil io_fault, placed put_rules bundle (Some (default 0%nat k)) s1).
    by apply activation_runs. }
  do 2 (destruct n as [|n]; [by left|]).
  change (replace_file true _ _ (fails_once (S (S (S (S (S (S n)))))) m k) s1) with (Done tt, fails_once n m k, placed put_rules bundle None s1).
  set (s2 := placed put_rules bundle None s1). assert (Hr2 : responsive s2) by exact Hr.
  assert (Hn2 : (n < 2)%nat \/ exists n', n = S (S n')) by (destruct n as [|[|n]]; [left; lia..|right; by exists n]).
  unfold bind at 1. destruct Hn2 as [Hn|[n' ->]].
  - pose proof (installed_fails bundle set (s_rules s) n m k s2 Hn Hr2) as Hx.
    destruct (catch _ _ (fails_once n m k) s2) as [[[a|e|] fs'] w]; [done|by left..].
  - unfold catch at 1, acknowledge_rule_bundle at 1.
    destruct (post_runs s2 "/api/v1/agent/rules/ack" (rule_ack_body (rs_revision set) (sha256_hex bundle) "INSTALLED" "")
      (fails_once (S (S n')) m k) (fails_once (S n') m k) (fails_once n' m k) eq_refl eq_refl Hr2) as (a & _ & ->).
    by apply (activation_rolled_back bundle bundle).
Qed.

(** *** The rule file always loads *)

Definition rules_load (s : Site) : Prop := forall text, s_rules s = Some text -> exists set, load_text text (rules_path state_dir) = Ok set.

Lemma marker_recent_keeps (P : Site -> Prop) desired now : triple P (marker_recent desired now) (fun _ => P) (fun _ => P) P.
Proof.
  assert (Hcatch : forall A (m : R A) (d : A), triple P m (fun _ => P) (fun _ => P) P -> triple P (catch m (fun _ => ret d)) (fun _ => P) (fun _ => P) P).
  { intros A m d Hm. eapply triple_catch; [exact Hm|]. intros e. by apply triple_ret. }
  unfold marker_recent. eapply triple_bind; [apply triple_look|]. intros []; cbn; [|by apply triple_ret].
  eapply triple_bind; [apply Hcatch, triple_look|]. intros value. case_bool_decide; cbn; [|by apply triple_ret].
  eapply triple_bind; [apply Hcatch, triple_look|]. intros modified. by apply triple_ret.
Qed.

Lemma remove_marker_keeps (P : Site -> Prop) :
  (forall s, P s -> P (set_marker None s)) -> triple P remove_marker (fun _ => P) (fun _ => P) P.
Proof. intros HP. eapply triple_catch; [by apply triple_keep|]. intros e. by apply triple_ret. Qed.

Lemma active_state_keeps (P : Site -> Prop) : triple P (active_rule_bundle_state state_dir) (fun _ => P) (fun _ => P) P.
Proof.
  unfold active_rule_bundle_state. eapply triple_bind; [apply triple_look|]. intros [text|]; [by apply triple_lift|].
  eapply (triple_bind _ _ _ (fun _ => P)); [by apply triple_lift|]. intros set. by apply triple_ret.
Qed.

(** Deciding about an update changes only the marker and the launched workers. *)
Lemma control_keeps (P : Site -> Prop) response now :
  (forall s v, P s -> P (set_marker v s)) -> (forall s sha, P s -> P (add_worker sha s)) ->
  triple P (accept_rule_control_from_coordinator_response state_dir response now) (fun _ => P) (fun _ => P) P.
Proof.
  intros Hm Hw. unfold accept_rule_control_from_coordinator_response.
  eapply (triple_bind _ _ _ (fun _ => P)); [by apply triple_lift|]. intros d. destruct (negb (rc_present d)); [by apply triple_ret|].
  eapply triple_bind; [apply active_state_keeps|]. intros active. cbv zeta.
  assert (Hremove : triple P remove_marker (fun _ => P) (fun _ => P) P) by (apply remove_marker_keeps; auto).
  destruct (_ && _); [eapply triple_bind; [exact Hremove|]; intros []; by apply triple_ret|].
  destruct (_ && _ && _); [by apply triple_ret|].
  eapply triple_bind; [apply marker_recent_keeps|]. intros []; [by apply triple_ret|].
  eapply (triple_bind _ _ _ (fun _ => P)).
  { apply triple_replace_keep. intros [] w Hx; by apply Hm. }
  intros []. eapply (triple_bind _ _ _ (fun _ => P)); [|intros []; by apply triple_ret].
  eapply triple_catch; [apply triple_keep; auto|]. intros e. eapply triple_bind; [exact Hremove|]. intros []. by apply triple_raise.
Qed.

End exact.

Section history.
Context `{Sha256} `{CastUndefined} (state_dir : string).

(** What happens to a site, each under its own faults: an update with the answers the coordinator gives
    at that time, or a heartbeat response. *)
Inductive RuleOp :=
| OpUpdateRules (answers : Coordinator)
| OpControl (response : string) (now : Z).

Definition run_rule_op (s : Site) (op : RuleOp * list io_fault) : Site :=
  match op with
  | (OpUpdateRules answers, fs) => snd (update_rules_from_coordinator (H1 := answers) state_dir fs s)
  | (OpControl response now, fs) => snd (accept_rule_control_from_coordinator_response state_dir response now fs s)
  end.

(** The rule file can be loaded, or closing one has lost a part of it. *)
Definition rules_kept (s : Site) : Prop := s_lost s = true \/ rules_load state_dir s.

Lemma placed_kept bundle set cut s :
  load_text bundle "coordinator rule bundle" = Ok set -> rules_kept (placed put_rules bundle cut s).
Proof.
  intros Hl. destruct cut; [by left|]. right. intros text E. change (Some bundle = Some text) in E. apply (inj Some) in E as <-.
  exists set. by eapply load_text_source.
Qed.

Lemma frame_kept answers s w : rules_kept s -> rules_frame (H1 := answers) state_dir s w -> rules_kept w.
Proof.
  intros Hs (_ & _ & _ & _ & _ & _ & Hm & Hr). destruct Hs as [Hs|Hs]; [left; by apply Hm|].
  destruct Hr as [E|(text & Ht & [E|[Hl _]])]; [right; intros text; rewrite E; apply Hs| |by left].
  right. intros text'. rewrite E. intros [= <-]. destruct Ht as [Ht|(set & _ & Hb & _)]; [by apply Hs|]. exists set. by eapply load_text_source.
Qed.

Lemma rule_op_keeps s op : rules_kept s -> rules_kept (run_rule_op s op).
Proof.
  intros Hs. destruct op as [[answers|response now] fs]; cbn.
  - pose proof (update_rules_spec (H1 := answers) state_dir s fs s eq_refl) as Hu.
    destruct (update_rules_from_coordinator state_dir fs s) as [[[st|m|] fs'] w]; cbn; [|by eapply frame_kept..].
    destruct Hu as (bundle & set & cut & Hf & [Hl Hv] & _ & [->|[_ ->]]); exact (placed_kept bundle set cut _ Hl).
  - pose proof (control_keeps state_dir rules_kept response now (fun _ _ x => x) (fun _ _ x => x) fs s Hs) as Hc.
    by destruct (accept_rule_control_from_coordinator_response _ _ _ fs s) as [[[b|m|] fs'] w].
Qed.

(** C19: An agent on Linux never loses its rules by an update: over any sequence of updates, with
    whatever bundles the coordinator sends, and of heartbeat responses, with any operation failing or
    the process being killed at any point (nothing is synced: a loss of power is not covered), the
    active rule set can be loaded at the end if it could at the beginning, unless closing a new rule
    file lost a part of it, which the code does not notice. *)
Theorem rules_always_load ops s :
  rules_load state_dir s -> s_lost (fold_left run_rule_op ops s) = false ->
  exists st, active_rule_bundle_state state_dir [] (fold_left run_rule_op ops s) = (Done st, [], fold_left run_rule_op ops s).
Proof.
  intros Hs Hlost. assert (Hl : rules_kept (fold_left run_rule_op ops s)).
  { assert (Hk : rules_kept s) by by right. clear Hs Hlost. revert s Hk. induction ops as [|op ops IH]; intros s Hk; [done|]. cbn. by apply IH, rule_op_keeps. }
  set (w := fold_left run_rule_op ops s) in *. destruct Hl as [Hl|Hl]; [congruence|].
  unfold active_rule_bundle_state, bind, io_read, next_fault. cbv beta iota.
  destruct (s_rules w) as [text|] eqn:E.
  - destruct (Hl text E) as [set Hset]. unfold state_from_text. rewrite Hset. by eexists.
  - destruct built_in_ok as (set & -> & _). by eexists.
Qed.

End history.

(** ** Convergence *)

Section convergence.
Context `{Sha256} `{CastUndefined} (state_dir : string).

(** The digest of the active rules, as the code compares it. *)
Definition active_digest (s : Site) : result string :=
  match s_rules s with
  | Some text => let? _ := load_text text (rules_path state_dir) in Ok (strip_prefix "sha256:" (lower (sha256_hex text)))
  | None => let? set := built_in in Ok (strip_prefix "sha256:" (lower (rule_set_hash set)))
  end.

(** The marker names the wanted digest and is younger than ten minutes. *)
Definition marker_blocks (desired : string) (now : Z) (s : Site) : bool :=
  match s_marker s with
  | Some (text, modified) => bool_decide (marker_text text = desired) && (now - modified <? kMarkerLifetimeNs)
  | None => false
  end.

Lemma active_runs fs fs' s digest :
  next_fault fs = (IoDone, fs') -> active_digest s = Ok digest ->
  exists st, active_rule_bundle_state state_dir fs s = (Done st, fs', s) /\ strip_prefix "sha256:" (lower (ab_sha256 st)) = digest.
Proof.
  intros Hf. unfold active_digest, active_rule_bundle_state, bind, io_read, state_from_text. rewrite Hf.
  destruct (s_rules s) as [text|].
  - destruct (load_text text (rules_path state_dir)) as [set|]; [|done]. intros [= <-]. by eexists.
  - destruct built_in as [set|]; [|done]. intros [= <-]. by eexists.
Qed.

Lemma marker_recent_runs desired now s : marker_recent desired now [] s = (Done (marker_blocks desired now s), [], s).
Proof.
  unfold marker_recent, marker_blocks, bind, io_read, catch, next_fault, ret. destruct (s_marker s) as [[text modified]|] eqn:E; [|done].
  cbn [has negb]. rewrite E. case_bool_decide; cbn [negb]; [|done]. by rewrite E.
Qed.

Lemma lines_one s rest : string_all (fun c => negb (is_char 10 c)) s = true -> lines (s +:+ newline +:+ rest) = s :: lines rest.
Proof.
  induction s as [|c s IH]; [done|]. cbn [string_all String.append]. intros [Hc Hs]%andb_true_iff. cbn [lines].
  apply negb_true_iff in Hc. rewrite Hc. by rewrite IH.
Qed.

Lemma strip_cr_hex s : string_all isxdigit s = true -> strip_cr s = s.
Proof.
  intros Hs. unfold strip_cr. destruct (back s) as [c|] eqn:E; [|done]. pose proof (back_all _ _ _ Hs E) as Hc.
  by destruct c as [[] [] [] [] [] [] [] []].
Qed.

(** The marker that is written reads back. *)
Lemma marker_text_written desired : is_hex desired 64 = true -> lower desired = desired -> marker_text (desired +:+ newline) = desired.
Proof.
  unfold is_hex. intros [_ Hx]%andb_true_iff Hl. unfold marker_text.
  rewrite <- (string_app_nil_r newline), lines_one.
  - cbn [head value_or default]. by rewrite strip_cr_hex.
  - eapply string_all_impl; [|exact Hx]. intros c Hc. by destruct c as [[] [] [] [] [] [] [] []].
Qed.

Lemma lower_lower s : lower (lower s) = lower s.
Proof. apply lower_all_lower, lower_no_upper. Qed.

Lemma decision_digest response d :
  parse_rule_control_response response = Ok d -> rc_present d = true -> is_hex (rc_desired_sha256 d) 64 = true /\ lower (rc_desired_sha256 d) = rc_desired_sha256 d.
Proof.
  unfold parse_rule_control_response. intros E Hp. apply rbind_ok in E as (root & _ & E). apply rbind_ok in E as (control & _ & E).
  destruct control as [control|]; [|by injection E as <-].
  do 3 apply rbind_ok in E as (? & _ & E). do 2 apply rbind_ok in E as (? & _ & E).
  apply rbind_ok in E as ([] & Hh & E). apply throw_if_ok, negb_false_iff in Hh. do 4 apply rbind_ok in E as (? & _ & E).
  injection E as <-. cbn. split; [done|apply lower_lower].
Qed.

(** C20: What a heartbeat response that names a wanted rule set does.  If the active rules have the
    wanted digest and no refresh was asked for, the marker is removed and nothing is launched;
    otherwise, if a marker for the same digest is younger than ten minutes, nothing happens; otherwise
    the marker is written and one update worker is launched.  A marker written like this blocks any
    other worker for the same rules for ten minutes, as long as it is in place (a response that finds
    the active rules to be the wanted ones, and asks for no refresh, removes it); and when there was
    no marker and launching fails, the marker is gone, so that the next response tries again.  The
    response parses and the active rules can be loaded; apart from the failing launch, no operation
    fails. *)
Theorem convergence_exact response now s d digest :
  parse_rule_control_response response = Ok d -> rc_present d = true -> active_digest s = Ok digest ->
  let desired := rc_desired_sha256 d in
  let launched := add_worker desired (set_marker (Some (desired +:+ newline, now)) s) in
  let converged := bool_decide (digest = desired) && negb (rc_refresh_requested d) in
  accept_rule_control_from_coordinator_response state_dir response now [] s =
    (if converged then (Done false, [], set_marker None s)
     else if marker_blocks desired now s then (Done false, [], s)
     else (Done true, [], launched)) /\
  (forall s' now', s_marker s' = s_marker launched -> now' - now < kMarkerLifetimeNs -> marker_blocks desired now' s' = true) /\
  (converged = false -> s_marker s = None -> forall m k,
     exists w, accept_rule_control_from_coordinator_response state_dir response now (fails_once 7 m k) s = (Threw m, [], w) /\
       s_marker w = None /\ s_workers w = s_workers s).
Proof.
  intros Hd Hp Ha. cbv zeta. split_and!.
  - unfold accept_rule_control_from_coordinator_response. unfold bind at 1, lift at 1. rewrite Hd. unfold ret at 1. rewrite Hp. cbn [negb].
    destruct (active_runs [] [] s digest eq_refl Ha) as (st & Est & Esha). unfold bind at 1. rewrite Est, Esha.
    destruct (bool_decide (digest = rc_desired_sha256 d)), (rc_refresh_requested d); cbn [negb andb]; rewrite ?andb_false_r; try reflexivity.
    all: unfold bind at 1; rewrite marker_recent_runs; by destruct (marker_blocks _ _ s).
  - intros s' now' Hm Hnow. unfold marker_blocks. rewrite Hm. cbn. destruct (decision_digest response d Hd Hp) as [Hx Hl].
    rewrite bool_decide_eq_true_2 by by apply marker_text_written. by apply Z.ltb_lt.
  - intros Hc Hm m k. unfold accept_rule_control_from_coordinator_response. unfold bind at 1, lift at 1. rewrite Hd. unfold ret at 1. rewrite Hp. cbn [negb].
    destruct (active_runs (fails_once 7 m k) (fails_once 6 m k) s digest eq_refl Ha) as (st & Est & Esha). unfold bind at 1. rewrite Est, Esha.
    destruct (bool_decide (digest = rc_desired_sha256 d)), (rc_refresh_requested d); try discriminate Hc; cbn [negb andb]; rewrite ?andb_false_r.
    all: unfold bind at 1, marker_recent; unfold bind at 1, io_read; cbn [fails_once repeat app next_fault]; rewrite Hm; eexists; by split.
Qed.

End convergence.

(** ** YARA content *)

Section yara.
Context `{Sha256} (state_dir : string).

Lemma lines_no_newline s line : line ∈ lines s -> string_all (fun c => negb (is_char 10 c)) line = true.
Proof.
  revert line. induction s as [|c s IH]; intros line; [by intros ?%not_elem_of_nil|]. cbn [lines].
  destruct (is_char 10 c) eqn:Ec; [intros [->|Hin]%elem_of_cons; [done|by apply IH]|].
  destruct (lines s) as [|l rest] eqn:El.
  - intros ->%list_elem_of_singleton. cbn. by rewrite Ec.
  - intros [->|Hin]%elem_of_cons; [cbn; rewrite Ec; apply IH; by left|apply IH; by right].
Qed.

Lemma drop_while_all q p s : string_all q s = true -> string_all q (drop_while p s) = true.
Proof. induction s as [|c s IH]; [done|]. cbn. intros E. destruct (p c); [|done]. apply IH. by apply andb_true_iff in E as [_ ?]. Qed.

Lemma after_char_all q n s : string_all q s = true -> string_all q (after_char n s) = true.
Proof.
  intros Hs. apply (drop_while_all q (fun c => negb (is_char n c))) in Hs. unfold after_char.
  destruct (drop_while _ s) as [|c s']; [done|]. cbn in *. by apply andb_true_iff in Hs as [_ ?].
Qed.

(** The values the header loop finds. *)
Definition header_ok (h : string * Z * string) : Prop :=
  string_all (fun c => negb (is_char 10 c)) h.1.1 = true /\ in_u 64 h.1.2 /\ lower h.2 = h.2.

Lemma stoull_range s z : stoull s = Ok z -> in_u 64 z.
Proof.
  unfold stoull. destruct (match drop_while isspace s with EmptyString => _ | String c s' => _ end) as [negative rest].
  case_bool_decide; [done|]. destruct (u64_max <? _) eqn:E; [done|]. intros [= <-]. apply Z.ltb_ge in E.
  assert (Hn : 0 <= digits_value 0 (take_while isdigit rest)) by (apply digits_value_lower; [lia|apply take_while_string_all]).
  unfold in_u, u64_max in *. destruct negative; [apply Z.mod_pos_bound; lia|lia].
Qed.

Lemma content_headers_ok ls b r sha h :
  Forall (fun line => string_all (fun c => negb (is_char 10 c)) line = true) ls -> header_ok (b, r, sha) ->
  content_headers ls b r sha = Ok h -> header_ok h.
Proof.
  revert b r sha. induction ls as [|line ls IH]; intros b r sha Hls Hh E; [by injection E as <-|]. apply Forall_cons in Hls as [Hl Hls].
  destruct Hh as (Hb & Hr & Hs). cbn in Hb, Hr, Hs. cbn [content_headers] in E. destruct (negb (has_char 58 line)); [by apply (IH b r sha)|].
  case_bool_decide; [eapply IH; [done| |exact E]; unfold header_ok; cbn; split_and!; [by apply after_char_all|done|done]|].
  case_bool_decide; [apply rbind_ok in E as (r' & Er & E); eapply IH; [done| |exact E]; unfold header_ok; cbn; split_and!; [done|by eapply stoull_range|done]|].
  case_bool_decide; [eapply IH; [done| |exact E]; unfold header_ok; cbn; split_and!; [done|done|apply lower_lower]|by apply (IH b r sha)].
Qed.

Lemma parse_yara_ok envelope p :
  parse_yarax_content envelope = Ok p ->
  header_ok (yc_bundle_id p, yc_revision p, yc_sha256 p) /\ yc_bundle_id p <> "" /\ yc_revision p <> 0 /\
  is_hex (yc_sha256 p) 64 = true /\ sha256_hex (yc_content p) = yc_sha256 p.
Proof.
  unfold parse_yarax_content. destruct (negb _); [done|]. destruct (find_from _ _ _) as [split|]; [|done]. intros E.
  apply rbind_ok in E as ([[b r] sha] & Eh & E). apply rbind_ok in E as ([] & Hv & E). apply throw_if_ok in Hv.
  apply rbind_ok in E as ([] & Hx & E). apply throw_if_ok, negb_false_iff, bool_decide_eq_true in Hx. injection E as <-. cbn.
  apply orb_false_iff in Hv as [[Hb Hr]%orb_false_iff Hh]. apply negb_false_iff in Hh. apply bool_decide_eq_false in Hb. apply Z.eqb_neq in Hr.
  split_and!; [|done..]. eapply (content_headers_ok _ "" 0 "" (b, r, sha)); [|split; [done|split; [unfold in_u; cbn; lia|done]]|exact Eh].
  apply Forall_forall. intros line Hin. by eapply lines_no_newline.
Qed.

Lemma line_value key value :
  has_char 58 key = false -> has_char 58 (key +:+ ":" +:+ value) = true /\
  before_char 58 (key +:+ ":" +:+ value) = key /\ after_char 58 (key +:+ ":" +:+ value) = value.
Proof.
  unfold has_char. intros Hk. apply negb_false_iff in Hk. rewrite string_all_app, Hk. cbn. split; [done|].
  unfold before_char, after_char. rewrite take_while_all by done. cbn. rewrite string_app_nil_r. split; [done|].
  induction key as [|c key IH]; [done|]. cbn [string_all] in Hk. apply andb_true_iff in Hk as [Hc Hk]. cbn. rewrite Hc. by apply IH.
Qed.

(** The metadata file of parsed content reads back. *)
Lemma meta_round_trip envelope p :
  parse_yarax_content envelope = Ok p -> content_headers (lines (yarax_meta p)) "" 0 "" = Ok (yc_bundle_id p, yc_revision p, yc_sha256 p).
Proof.
  intros ((Hb & Hr & Hl) & _ & _ & Hx & _)%parse_yara_ok. cbn [fst snd] in Hb, Hr, Hl. unfold yarax_meta.
  assert (Hx' : string_all (fun c => negb (is_char 10 c)) (yc_sha256 p) = true).
  { unfold is_hex in Hx. apply andb_true_iff in Hx as [_ Hx]. eapply string_all_impl; [|exact Hx]. intros c Hc. by destruct c as [[] [] [] [] [] [] [] []]. }
  assert (Hd : string_all (fun c => negb (is_char 10 c)) (to_string (yc_revision p)) = true).
  { eapply string_all_impl; [|apply to_string_digits; destruct Hr; lia]. intros c Hc. by destruct c as [[] [] [] [] [] [] [] []]. }
  assert (E : lines ("bundle-id:" +:+ yc_bundle_id p +:+ newline +:+ "revision:" +:+ to_string (yc_revision p) +:+ newline +:+ "sha256:" +:+ yc_sha256 p +:+ newline) =
    ["bundle-id:" +:+ yc_bundle_id p; "revision:" +:+ to_string (yc_revision p); "sha256:" +:+ yc_sha256 p]).
  { rewrite <- (string_app_assoc "bundle-id:"), lines_one by (by rewrite string_all_app, Hb).
    rewrite <- (string_app_assoc "revision:"), lines_one by (by rewrite string_all_app, Hd).
    rewrite <- (string_app_assoc "sha256:"), <- (string_app_nil_r newline), lines_one by (by rewrite string_all_app, Hx'). done. }
  rewrite E. cbn [content_headers].
  destruct (line_value "bundle-id" (yc_bundle_id p) eq_refl) as (Ha & Hb' & Hc).
  destruct (line_value "revision" (to_string (yc_revision p)) eq_refl) as (Hd' & He & Hf).
  destruct (line_value "sha256" (yc_sha256 p) eq_refl) as (Hg & Hh & Hi).
  change ("bundle-id:" +:+ ?x) with ("bundle-id" +:+ ":" +:+ x). change ("revision:" +:+ ?x) with ("revision" +:+ ":" +:+ x).
  change ("sha256:" +:+ ?x) with ("sha256" +:+ ":" +:+ x). rewrite Ha, Hb', Hc, Hd', He, Hf, Hg, Hh, Hi. cbn [negb].
  rewrite !bool_decide_eq_true_2 by done. rewrite !bool_decide_eq_false_2 by done. rewrite stoull_to_string by done. cbn [rbind]. by rewrite Hl.
Qed.

Context `{Coordinator}.

(** The coordinator's answer to a request for content. *)
Definition served (s : Site) (envelope : string) : Prop := answered state_dir s "/api/v1/agent/yarax/content/fetch" "{}" envelope.

Lemma fetch_yara_runs s envelope fs fs1 fs2 :
  next_fault fs = (IoDone, fs1) -> next_fault fs1 = (IoDone, fs2) -> served s envelope ->
  fetch_yarax_content_bundle state_dir fs s = (Done envelope, fs2, add_received ("/api/v1/agent/yarax/content/fetch", "{}") s).
Proof.
  intros E1 E2 (identity & url & response & Ei & Eu & Er & Ea).
  unfold fetch_yarax_content_bundle, authenticated_post, bind, io_read, lift, exchange, ret. rewrite E1, Ei, Eu, E2, Er. by rewrite Ea.
Qed.

(** Metadata that names another digest than that of the content is refused. *)
Lemma mismatch_refused meta b r sha content fs w :
  content_headers (lines meta) "" 0 "" = Ok (b, r, sha) -> s_content w = Some content -> sha256_hex content <> sha ->
  match yarax_state_from_meta state_dir meta fs w with (Done _, _, _) => False | (_, _, w') => w' = w end.
Proof.
  intros Eh Ec Hn. unfold yarax_state_from_meta, bind at 1, lift at 1. rewrite Eh. unfold ret at 1, bind at 1, lift at 1.
  destruct (throw_if _ _) as [[]|e]; [|done]. unfold ret at 1, bind at 1, io_read. destruct (next_fault fs) as [[|m k|k] fs']; [|done..].
  rewrite Ec. unfold bind, lift. by rewrite bool_decide_eq_false_2.
Qed.

(** The active content is unusable: reading its state never succeeds. *)
Definition unusable (w : Site) : Prop :=
  forall fs, match active_yarax_content_state state_dir fs w with (Done _, _, _) => False | (_, _, w') => w' = w end.

Lemma mismatch_unusable meta b r sha content w :
  s_meta w = Some meta -> content_headers (lines meta) "" 0 "" = Ok (b, r, sha) -> s_content w = Some content -> sha256_hex content <> sha -> unusable w.
Proof.
  intros Em Eh Ec Hn fs. unfold active_yarax_content_state, bind at 1, io_read. destruct (next_fault fs) as [[|m k|k] fs']; [|done..].
  rewrite Em. unfold bind at 1, read_meta, bind at 1, io_read. destruct (next_fault fs') as [[|m k|k] fs2]; [|done..].
  rewrite Em. by eapply mismatch_refused.
Qed.

(** New YARA content that stops, by an error or a crash, after the content file was replaced and
    before the metadata file is: the update does not succeed, the old metadata now names another
    digest than that of the content, and from then on the content is refused, although the previous
    content was in order; there is no rollback. *)
Theorem torn_yara_content s st envelope p f fs :
  active_yarax_content_state state_dir [] s = (Done st, [], s) -> ys_centrally_managed st = true ->
  served s envelope -> parse_yarax_content envelope = Ok p -> yc_sha256 p <> ys_sha256 st -> f <> IoDone ->
  exists r fs' w, update_yarax_content_from_coordinator state_dir (repeat IoDone 10 ++ f :: fs) s = (r, fs', w) /\
    (forall st', r <> Done st') /\ s_content w = Some (yc_content p) /\ s_meta w = s_meta s /\ unusable w.
Proof.
  intros Hact Hcm Hserved Hparse Hne Hf.
  assert (Hmeta : exists meta b r, s_meta s = Some meta /\ content_headers (lines meta) "" 0 "" = Ok (b, r, ys_sha256 st)).
  { revert Hact. unfold active_yarax_content_state, bind at 1, io_read. cbn [next_fault]. destruct (s_meta s) as [meta|] eqn:Em; [|by intros [= <-]].
    unfold bind at 1, read_meta, bind at 1, io_read. cbn [next_fault]. rewrite Em. unfold ret at 1, yarax_state_from_meta, bind at 1, lift at 1.
    destruct (content_headers _ _ _ _) as [[[b r] sha]|] eqn:Eh; [|done]. unfold ret at 1, bind at 1, lift at 1. destruct (throw_if _ _); [|done].
    unfold ret at 1, bind at 1, io_read. cbn [next_fault]. destruct (s_content s); [|done]. unfold bind, lift. destruct (throw_if _ _); [|done].
    cbn. intros [= <-]. by exists meta, b, r. }
  destruct Hmeta as (meta & b & r & Em & Eh). pose proof (parse_yara_ok _ _ Hparse) as (_ & _ & _ & _ & Hsha).
  set (w := set_content (Some (yc_content p)) (add_received ("/api/v1/agent/yarax/content/fetch", "{}") s)).
  assert (Hu : unusable w) by (eapply (mismatch_unusable meta); [exact Em|exact Eh|done|by rewrite Hsha]).
  assert (Hrun : exists r fs', update_yarax_content_from_coordinator state_dir (repeat IoDone 10 ++ f :: fs) s = (r, fs', w) /\ forall st', r <> Done st').
  { unfold update_yarax_content_from_coordinator, bind at 1. rewrite (fetch_yara_runs s envelope (repeat IoDone 10 ++ f :: fs) (repeat IoDone 9 ++ f :: fs) (repeat IoDone 8 ++ f :: fs) eq_refl eq_refl Hserved).
    rewrite bool_decide_eq_false_2 by by intros ->. unfold bind at 1, lift at 1. rewrite Hparse. unfold ret at 1.
    destruct f as [|m k|k]; [done|..]; eexists _, _; (split; [reflexivity|done]). }
  destruct Hrun as (res & fs' & E & Hres). exists res, fs', w. by split_and!.
Qed.

End yara.

(** ** Concrete runs *)

Definition demo_identity : Tree :=
  {[ "identity.conf" := "coordinator=https://fleet.example:8443/" +:+ newline +:+ "fleet_id=f" +:+ newline +:+ "agent_id=a" +:+ newline +:+ "certificate_sha256=c" +:+ newline ]}.

(** A coordinator that answers every request with the same body. *)
Definition answering (body : string) : Coordinator := fun _ _ => Ok ("HTTP/1.1 200 OK" +:+ crlf +:+ crlf +:+ body).

(** A running agent without central rules. *)
Definition demo_site : Site := MkSite demo_identity None None None None (Some None) [] [] false.

Lemma demo_responsive body :
  read_answer ("HTTP/1.1 200 OK" +:+ crlf +:+ crlf +:+ body) = Ok body ->
  responsive (H1 := answering body) "/var/lib/neta" demo_site.
Proof.
  intros Hb path req. exists body, (MkIdentity "https://fleet.example:8443/" "f" "a" "c" "/var/lib/neta"), (MkParsedUrl "fleet.example" "8443"),
    ("HTTP/1.1 200 OK" +:+ crlf +:+ crlf +:+ body).
  split_and!; [vm_compute; reflexivity|vm_compute; reflexivity|reflexivity|exact Hb].
Qed.

(** The restart fails: the bundle was already installed, and is taken back. *)
Definition failed_restart : outcome ActiveRuleBundleState * list io_fault * Site :=
  update_rules_from_coordinator (H := sum_digest) (H0 := cast_zero) (H1 := answering default_document) "/var/lib/neta"
    (fails_once 12 "no" None) demo_site.

Lemma failed_update_restores_witness :
  (exists w, failed_restart = (Threw "failed to restart neta-agent.service after rule update", [], w) /\ length (s_received w) = 3%nat) /\
  rolled_back demo_site failed_restart.
Proof.
  split; [eexists; split; vm_compute; reflexivity|].
  apply (failed_update_restores (H := sum_digest) (H0 := cast_zero) (H1 := answering default_document)).
  apply demo_responsive. vm_compute. reflexivity.
Defined.

Definition demo_rule_ops : list (RuleOp * list io_fault) :=
  [(OpUpdateRules (answering "not a rule set"), []); (OpUpdateRules (answering default_document), repeat IoDone 10 ++ [IoCrashes None])].

Lemma rules_always_load_witness :
  s_rules (fold_left (run_rule_op (H := sum_digest) (H0 := cast_zero) "/var/lib/neta") demo_rule_ops demo_site) = Some default_document /\
  exists st, active_rule_bundle_state (H := sum_digest) (H0 := cast_zero) "/var/lib/neta" []
    (fold_left (run_rule_op (H := sum_digest) (H0 := cast_zero) "/var/lib/neta") demo_rule_ops demo_site) =
    (Done st, [], fold_left (run_rule_op (H := sum_digest) (H0 := cast_zero) "/var/lib/neta") demo_rule_ops demo_site).
Proof.
  split; [vm_compute; reflexivity|]. apply rules_always_load; [intros text E; discriminate E|vm_compute; reflexivity].
Defined.

Definition sixty_four (c : ascii) : string := String.string_of_list_ascii (repeat c 64).

Definition demo_response : string := json_quotes
  ("{'rules':{'desiredRevision':7,'desiredSha256':'" +:+ sixty_four "A" +:+ "','fetchRequired':true}}").

Definition demo_decision : RuleControlDecision := MkDecision true true false 7 (sixty_four "a").

Lemma convergence_exact_witness :
  let launched := add_worker (sixty_four "a") (set_marker (Some (sixty_four "a" +:+ newline, 5)) demo_site) in
  accept_rule_control_from_coordinator_response (H := sum_digest) (H0 := cast_zero) "/var/lib/neta" demo_response 5 [] demo_site = (Done true, [], launched) /\
  (forall now', now' - 5 < kMarkerLifetimeNs -> marker_blocks (sixty_four "a") now' launched = true).
Proof.
  assert (Hd : parse_rule_control_response (H0 := cast_zero) demo_response = Ok demo_decision) by (vm_compute; reflexivity).
  destruct (active_digest (H := sum_digest) (H0 := cast_zero) "/var/lib/neta" demo_site) as [digest|m] eqn:Ea.
  - destruct (convergence_exact (H := sum_digest) (H0 := cast_zero) "/var/lib/neta" demo_response 5 demo_site demo_decision digest Hd eq_refl Ea) as (E & Hb & _).
    cbv zeta in E, Hb. split; [|intros now' Hn; by apply Hb]. rewrite E. revert Ea. vm_compute. intros [= <-]. reflexivity.
  - exfalso. vm_compute in Ea. discriminate Ea.
Defined.

Definition demo_content (id revision content : string) : string :=
  "bundle-id:" +:+ id +:+ newline +:+ "revision:" +:+ revision +:+ newline +:+ "sha256:" +:+ sha256_hex (H := sum_digest) content +:+ newline.

Definition yara_site : Site := MkSite demo_identity None None (Some "rule a {}") (Some (demo_content "b1" "1" "rule a {}")) None [] [] false.
Definition new_envelope : string := yara_magic +:+ demo_content "b2" "2" "rule b {}" +:+ newline +:+ "rule b {}".

Lemma torn_yara_content_witness :
  exists r fs' w, update_yarax_content_from_coordinator (H := sum_digest) (H1 := answering new_envelope) "/var/lib/neta"
      (repeat IoDone 10 ++ [IoCrashes None]) yara_site = (r, fs', w) /\
    (forall st', r <> Done st') /\ s_content w = Some "rule b {}" /\ s_meta w = s_meta yara_site /\
    unusable (H := sum_digest) "/var/lib/neta" w.
Proof.
  apply (torn_yara_content (H := sum_digest) "/var/lib/neta" (H0 := answering new_envelope) yara_site
    (MkYaraState "/var/lib/neta/yarax-content/active.yar" "b1" 1 (sha256_hex (H := sum_digest) "rule a {}") true) new_envelope
    (MkYaraContent "b2" 2 (sha256_hex (H := sum_digest) "rule b {}") "rule b {}")).
  - vm_compute. reflexivity.
  - reflexivity.
  - exists (MkIdentity "https://fleet.example:8443/" "f" "a" "c" "/var/lib/neta"), (MkParsedUrl "fleet.example" "8443"),
      ("HTTP/1.1 200 OK" +:+ crlf +:+ crlf +:+ new_envelope).
    split_and!; vm_compute; reflexivity.
  - vm_compute. reflexivity.
  - vm_compute. discriminate.
  - discriminate.
Defined.
