(* ===== verification/JsonPrint.v ===== *)
(** The JSON texts the agent prints: findings, acknowledgements and reports are assembled by hand, from
    escaped strings, numbers, arrays and objects.

    [Printed] is the tree behind such a text.  [printed_parses] says that the agent's own parser reads
    every printed text back to exactly the printed values, whatever bytes the strings hold. *)

From S2P Require Import Prelude Text StringMap Doubles Json JsonGrammar Wire Crypto NapSequence OutboundQueue Dispatcher.

#[local] Arguments String.append !_ _ /.

(** ** Printing *)

Inductive Printed :=
| PString (s : string)
| PNumber (z : Z)
| PLiteral (text : string) (v : JsonValue)
| PArray (l : list Printed)
| PObject (l : list (string * Printed)).

Fixpoint print (p : Printed) : string :=
  match p with
  | PString s => quoted (json_escape s)
  | PNumber z => to_string z
  | PLiteral text _ => text
  | PArray l => "[" +:+ String.concat "," (map print l) +:+ "]"
  | PObject l => "{" +:+ String.concat "," (map (fun '(k, q) => field k (print q)) l) +:+ "}"
  end.

(** ** The value that is printed *)

(** The members of an object in the order in which the parser keeps them. *)
Fixpoint object_of {V} (ms : list (string * V)) : list (string * V) :=
  match ms with
  | [] => []
  | (k, v) :: ms => let o := object_of ms in value_or (map_emplace o k v) o
  end.

Fixpoint meaning (p : Printed) : JsonValue :=
  match p with
  | PString s => JsonString s
  | PNumber z => JsonNumber (if z =? 0 then S754_zero false else double_of_Z z)
  | PLiteral _ v => v
  | PArray l => JsonArray (map meaning l)
  | PObject l => JsonObject (object_of (map (fun '(k, q) => (k, meaning q)) l))
  end.

(** Numbers that every reader keeps exactly, distinct member names without escapes. *)
Fixpoint printable (p : Printed) : Prop :=
  match p with
  | PString _ => True
  | PNumber z => 0 <= z < 2 ^ 53
  | PLiteral text v => json_value text v
  | PArray l => foldr (fun q P => printable q /\ P) True l
  | PObject l => NoDup (map fst l) /\ Forall (fun k => json_escape k = k) (map fst l) /\ foldr (fun '(_, q) P => printable q /\ P) True l
  end.

Section induction.
Context (P : Printed -> Prop)
  (Hs : forall s, P (PString s)) (Hn : forall z, P (PNumber z)) (Hl : forall t v, P (PLiteral t v))
  (Ha : forall l, Forall P l -> P (PArray l)) (Ho : forall l, Forall (fun m => P m.2) l -> P (PObject l)).

Fixpoint Printed_nested_ind (p : Printed) : P p :=
  match p with
  | PString s => Hs s
  | PNumber z => Hn z
  | PLiteral t v => Hl t v
  | PArray l => Ha l ((fix go l := match l return Forall P l with
                                   | [] => proj2 (Forall_nil P) I
                                   | q :: l => Forall_cons_2 P q l (Printed_nested_ind q) (go l)
                                   end) l)
  | PObject l => Ho l ((fix go l := match l return Forall (fun m => P m.2) l with
                                    | [] => proj2 (Forall_nil _) I
                                    | m :: l => Forall_cons_2 (fun m => P m.2) m l (Printed_nested_ind m.2) (go l)
                                    end) l)
  end.
End induction.

(** ** Printed texts are texts of the grammar *)

(** An escape of a control character by its number. *)
Lemma unicode_control h3 h4 v3 v4 c t s :
  Json.hex_value h3 = Some v3 -> Json.hex_value h4 = Some v4 -> 0 <= 16 * v3 + v4 < 32 -> c = char_of (16 * v3 + v4) -> json_chars t s ->
  json_chars ("\u00" +:+ String h3 (String h4 t)) (String c s).
Proof.
  intros E3 E4 Hv -> Ht.
  pose proof (chars_unicode "\" "u" "0" "0" h3 h4 0 0 v3 v4 t s eq_refl eq_refl eq_refl eq_refl E3 E4 ltac:(lia) Ht) as Hu.
  replace (4096 * 0 + 256 * 0 + 16 * v3 + v4) with (16 * v3 + v4) in Hu by lia.
  assert (E : utf8_of (16 * v3 + v4) = String (char_of (16 * v3 + v4)) "").
  { unfold utf8_of. by rewrite (proj2 (Z.leb_le _ _)) by lia. }
  rewrite E in Hu. exact Hu.
Qed.

Lemma escape_char_grammar c t s : json_chars t s -> json_chars (escape_char c +:+ t) (String c s).
Proof.
  intros Ht. destruct (code c <? 32) eqn:E32.
  - destruct c as [[] [] [] [] [] [] [] []]; try discriminate E32.
    all: match goal with |- json_chars (escape_char ?c +:+ _) _ => let e := eval vm_compute in (escape_char c) in change (escape_char c) with e end.
    all: first [apply (chars_escape "\" "n" 10); [done|done|exact Ht]|apply (chars_escape "\" "r" 13); [done|done|exact Ht]
      |apply (chars_escape "\" "t" 9); [done|done|exact Ht]|eapply unicode_control; [vm_compute; reflexivity|vm_compute; reflexivity|lia|reflexivity|exact Ht]].
  - unfold escape_char. destruct (Ascii.eqb c "\") eqn:E1; [apply Ascii.eqb_eq in E1 as ->; by apply (chars_escape "\" "\" 92)|].
    destruct (Ascii.eqb c "034") eqn:E2; [apply Ascii.eqb_eq in E2 as ->; by apply (chars_escape "\" "034" 34)|].
    to_prop. rewrite !(proj2 (Z.eqb_neq (code c) _)) by lia. rewrite (proj2 (Z.ltb_ge (code c) 32)) by lia.
    apply chars_plain; [done| | |done]; intros E; apply Ascii.eqb_neq in E1, E2.
    + apply E2. by apply code_inj.
    + apply E1. by apply code_inj.
Qed.

Lemma escape_grammar s : json_chars (json_escape s) s.
Proof. induction s as [|c s IH]; [constructor|]. by apply escape_char_grammar. Qed.

Lemma quoted_value s : json_value (quoted (json_escape s)) (JsonString s).
Proof. apply (value_string (json_escape s) s), escape_grammar. Qed.

(** *** Numbers *)

Lemma pretty_N_go_head x s : (0 < x)%N -> starts_with "0" (pretty_N_go x s) = false.
Proof.
  revert s. induction (N.lt_wf_0 x) as [x _ IH]; intros s Hx. rewrite pretty_N_go_step by lia.
  destruct (decide (x / 10 = 0)%N) as [E|E]; [|apply IH; [apply N.div_lt; lia|by apply N.neq_0_lt_0]].
  rewrite E, pretty_N_go_0. assert (Hlt : (x < 10)%N) by (apply N.div_small_iff in E; lia). rewrite N.mod_small by done.
  assert (x = 1 \/ x = 2 \/ x = 3 \/ x = 4 \/ x = 5 \/ x = 6 \/ x = 7 \/ x = 8 \/ x = 9)%N as Hd by lia.
  by repeat destruct Hd as [->|Hd]; [..|subst].
Qed.

Lemma to_string_integer z : 0 <= z -> integer_text (to_string z).
Proof.
  intros Hz. destruct (decide (z = 0)) as [->|Hnz]; [by left|]. right. destruct (to_string_digits z Hz) as (D1 & D2 & _).
  split; [done|]. destruct z as [|p|p]; [done| |lia].
  unfold to_string, pretty, pretty_Z, pretty, pretty_positive, pretty, pretty_N. rewrite decide_False by done. by apply pretty_N_go_head.
Qed.

Lemma number_value z : 0 <= z < 2 ^ 53 -> json_value (to_string z) (meaning (PNumber z)).
Proof.
  intros Hz. apply value_number. exists false, (to_string z), "", "", "", 0. destruct (to_string_digits z) as (_ & _ & Hv); [lia|].
  rewrite !string_app_nil_r. split_and!; [done|by apply to_string_integer; lia|by left|by left| |].
  - rewrite Hv. unfold decimal_value, double_of_Z. cbn [String.length Z.of_nat Z.sub Z.opp Z.add Z.leb]. 
    destruct (z =? 0) eqn:E; [done|]. cbn. rewrite Z.mul_1_r. by destruct z.
  - destruct (z =? 0) eqn:E; [done|]. to_prop. destruct (double_of_Z_exact z) as (m & e & -> & _); [lia|done].
Qed.

(** *** Arrays and objects *)

Lemma object_of_spec {V} (ms : list (string * V)) :
  keys_sorted (object_of ms) /\ (NoDup (map fst ms) -> object_of ms ≡ₚ ms) /\ (forall k, k ∈ map fst (object_of ms) -> k ∈ map fst ms).
Proof.
  induction ms as [|[k v] ms (I1 & I2 & I3)]; cbn; [split_and!; [constructor|done|done]|].
  pose proof (map_emplace_spec (object_of ms) k v I1) as He. destruct (map_emplace (object_of ms) k v) as [o|]; cbn.
  - destruct He as (E1 & E2 & E3). split_and!; [done| |].
    + intros [_ Hnd]%NoDup_cons. by rewrite E3, I2.
    + intros k' Hk'. rewrite E3 in Hk'. cbn in Hk'. apply elem_of_cons in Hk' as [->|Hk']; [by left|right; by apply I3].
  - split_and!; [done| |intros k' Hk'; right; by apply I3]. intros [Hk Hnd]%NoDup_cons. destruct He as [w Hw].
    apply (map_find_elem _ _ _ I1) in Hw. destruct Hk. apply I3. by apply (list_elem_of_fmap_2 fst) in Hw.
Qed.

(** The text behind a comma, if anything follows. *)
Lemma concat_comma x l : String.concat "," (x :: l) = x +:+ match l with [] => "" | _ => "," +:+ String.concat "," l end.
Proof. destruct l; cbn; [by rewrite string_app_nil_r|done]. Qed.

Lemma elements_printed l :
  l <> [] -> Forall (fun q => json_value (print q) (meaning q)) l -> json_elements (String.concat "," (map print l)) (map meaning l).
Proof.
  induction l as [|q l IH]; [done|]. intros _ [Hq Hl]%Forall_cons. cbn [map]. rewrite concat_comma. destruct l as [|q' l].
  - cbn [map]. rewrite string_app_nil_r. rewrite <- (string_app_nil_r (print q)). by apply (elements_last "" (print q) (meaning q) "").
  - specialize (IH ltac:(done) Hl). change (map print (q' :: l)) with (print q' :: map print l) at 1.
    by apply (elements_more "" (print q) (meaning q) "" (String.concat "," (map print (q' :: l))) (map meaning (q' :: l))).
Qed.

Lemma members_printed l :
  l <> [] -> Forall (fun k => json_escape k = k) (map fst l) -> Forall (fun m => json_value (print m.2) (meaning m.2)) l ->
  json_members (String.concat "," (map (fun '(k, q) => field k (print q)) l)) (map (fun '(k, q) => (k, meaning q)) l).
Proof.
  induction l as [|[k q] l IH]; [done|]. intros _ [Hk Hks]%Forall_cons [Hq Hl]%Forall_cons. cbn [map fst snd] in *. rewrite concat_comma.
  pose proof (escape_grammar k) as Hc. rewrite Hk in Hc. unfold field, quoted. rewrite !string_app_assoc. destruct l as [|m l].
  - cbn [map]. exact (members_last "" k k "" "" (print q) (meaning q) "" eq_refl Hc eq_refl eq_refl Hq eq_refl).
  - specialize (IH ltac:(done) Hks Hl).
    exact (members_more "" k k "" "" (print q) (meaning q) "" _ _ eq_refl Hc eq_refl eq_refl Hq eq_refl IH).
Qed.

Lemma foldr_Forall {A} (P : A -> Prop) l : foldr (fun q R => P q /\ R) True l <-> Forall P l.
Proof. induction l; cbn; [by rewrite Forall_nil|by rewrite IHl, Forall_cons]. Qed.

Lemma print_value p : printable p -> json_value (print p) (meaning p).
Proof.
  induction p as [s|z|t v|l IH|l IH] using Printed_nested_ind; cbn [printable].
  - intros _. apply quoted_value.
  - apply number_value.
  - done.
  - rewrite foldr_Forall. intros Hl. cbn [print meaning]. destruct l as [|q l]; [by apply (value_array_empty "")|].
    apply value_array, elements_printed; [done|]. rewrite Forall_forall in *. naive_solver.
  - intros (Hnd & Hks & Hl). cbn [print meaning]. destruct l as [|m l]; [by apply (value_object_empty "")|].
    set (ms := map _ (m :: l)). destruct (object_of_spec (map (fun '(k, q) => (k, meaning q)) (m :: l))) as (H1 & H2 & _).
    assert (E : map fst (map (fun '(k, q) => (k, meaning q)) (m :: l)) = map fst (m :: l)) by (rewrite map_map; apply map_ext; by intros []).
    eapply value_object; [apply members_printed; [done|done|]|by rewrite E|exact H1|apply H2; by rewrite E].
    assert (Hl' : Forall (fun m => printable m.2) (m :: l)).
    { apply foldr_Forall. revert Hl. generalize (m :: l). induction l0 as [|[k q] l0 IHl]; cbn; [done|]. naive_solver. }
    rewrite Forall_forall in *. naive_solver.
Qed.

(** Whatever is printed is read back: the agent's JSON parser accepts the text of every tree of
    strings, numbers below 2^53, arrays and objects with distinct names, and returns its values, with
    strings of arbitrary bytes unchanged. *)
Lemma printed_parses p : printable p -> parse (print p) = Ok (meaning p).
Proof.
  intros Hp. apply document_parses. exists "", (print p), "". rewrite string_app_nil_r. split_and!; [done|done|by apply print_value|done].
Qed.

(** A member of a printed object. *)
Lemma printed_member l k q :
  NoDup (map fst l) -> (k, q) ∈ l -> json_find (meaning (PObject l)) k = Ok (Some (meaning q)).
Proof.
  intros Hnd Hin. cbn [meaning]. unfold json_find. cbn [as_object rbind]. f_equal.
  destruct (object_of_spec (map (fun '(k, q) => (k, meaning q)) l)) as (Hs & Hp & _).
  apply map_find_elem; [done|]. rewrite Hp.
  - apply list_elem_of_fmap. by exists (k, q).
  - rewrite map_map. erewrite map_ext; [exact Hnd|]. by intros [].
Qed.

Lemma printed_no_member l k : k ∉ map fst l -> json_find (meaning (PObject l)) k = Ok None.
Proof.
  intros Hk. cbn [meaning]. unfold json_find. cbn [as_object rbind]. f_equal. apply map_find_none. intros Hin.
  destruct (object_of_spec (map (fun '(k, q) => (k, meaning q)) l)) as (_ & _ & Hi). apply Hi in Hin. destruct Hk.
  rewrite map_map in Hin. erewrite map_ext in Hin; [exact Hin|]. by intros [].
Qed.

(** *** Printed texts hold no NUL, so that they pass through C strings unchanged *)

Definition no_nul (s : string) : bool := string_all (fun c => negb (code c =? 0)) s.

Lemma c_str_no_nul s : no_nul s = true -> c_str s = s.
Proof. intros Hs. unfold c_str. rewrite <- (string_app_nil_r s) at 1. rewrite take_while_all by exact Hs. by rewrite string_app_nil_r. Qed.

Lemma json_escape_no_nul s : no_nul (json_escape s) = true.
Proof.
  induction s as [|c s IH]; [done|]. cbn [json_escape]. unfold no_nul. rewrite string_all_app. apply andb_true_iff. split; [|exact IH].
  by destruct c as [[] [] [] [] [] [] [] []].
Qed.

Lemma concat_no_nul l : Forall (fun s => no_nul s = true) l -> no_nul (String.concat "," l) = true.
Proof.
  induction l as [|x l IH]; [done|]. intros [Hx Hl]%Forall_cons. rewrite concat_comma. unfold no_nul in *. rewrite string_all_app, Hx. cbn [andb].
  destruct l; [done|]. by apply IH.
Qed.

(** Literals without NUL. *)
Fixpoint plain_literals (p : Printed) : Prop :=
  match p with
  | PNumber z => 0 <= z
  | PLiteral text _ => no_nul text = true
  | PArray l => foldr (fun q P => plain_literals q /\ P) True l
  | PObject l => foldr (fun '(k, q) P => (no_nul k = true /\ plain_literals q) /\ P) True l
  | PString _ => True
  end.

Lemma print_no_nul p : plain_literals p -> no_nul (print p) = true.
Proof.
  induction p as [s|z|t v|l IH|l IH] using Printed_nested_ind; cbn [plain_literals print].
  - intros _. unfold no_nul, quoted. rewrite !string_all_app. rewrite !andb_true_iff. split_and!; [done|apply json_escape_no_nul|done].
  - intros Hz. destruct (to_string_digits z Hz) as (Hd & _). eapply string_all_impl; [|exact Hd]. intros c Hc. by destruct c as [[] [] [] [] [] [] [] []].
  - done.
  - rewrite foldr_Forall. intros Hl. unfold no_nul. rewrite !string_all_app, !andb_true_iff. split_and!; [done| |done]. apply concat_no_nul.
    apply Forall_map. rewrite Forall_forall in *. naive_solver.
  - intros Hl. unfold no_nul. rewrite !string_all_app, !andb_true_iff. split_and!; [done| |done]. apply concat_no_nul.
    induction l as [|[k q] l IHl]; [by apply Forall_nil|]. apply Forall_cons in IH as [Hq IH]. destruct Hl as [[Hk Hp] Hl]. cbn [map].
    apply Forall_cons. split; [|by apply IHl]. unfold field, quoted, no_nul in *. rewrite !string_all_app, !andb_true_iff. split_and!; [done|exact Hk|done|done|by apply Hq].
Qed.
