(* ===== verification/Announcement.v ===== *)
(** Announcing findings ([src/core/reliable_fleet_client.cpp]): the payload of a finding, its place in
    the outbox, and one delivery run.

    The payload is assembled from the finding and the active rule bundle ([RuleUpdate]), enqueued in
    the outbox ([OutboundQueue]) and delivered by the dispatcher ([Dispatcher]).  The environment
    variable, the identity file and the answers of the coordinator are arguments.

    The theorems: a finding's payload is read back with every field as given, or refused for a stated
    reason ([finding_payload_round_trip]); the outbox keeps exactly that text under its digest, once
    for each finding and evidence ([finding_enqueued_exact]). *)

From S2P Require Import Prelude Text Wire Faults StringMap Doubles Json Crypto NapSequence OutboundQueue Dispatcher Rules UpgradeText UpgradeStore UpgradeWorker RuleUpdate JsonPrint.

#[local] Arguments String.append !_ _ /.

Definition islower (c : ascii) : bool := (97 <=? code c) && (code c <=? 122).
Definition toupper (c : ascii) : ascii := if islower c then char_of (code c - 32) else c.
Definition uppercase (value : string) : string := string_map toupper value.

(** ** Findings *)

Record FindingAnnouncementInput := MkFinding {
  fa_finding_id : string; fa_finding_key : string; fa_host : string; fa_port : Z; fa_transport : string;
  fa_subject_type : string; fa_subject_id : string; fa_subject_pid : option Z; fa_subject_parent_pid : option Z;
  fa_subject_image : string; fa_subject_parent_image : string; fa_subject_command_line : string;
  fa_severity : string; fa_rule_id : string; fa_rule_set_id : string; fa_rule_set_version : string;
  fa_interpretation : string; fa_changes : list string;
  fa_performance_verdict : string; fa_trust_verdict : string; fa_evidence_root : string }.

(** [FindingAnnouncementInput{}] *)
Definition empty_finding : FindingAnnouncementInput :=
  MkFinding "" "" "" 0 "tcp" "" "" None None "" "" "" "" "" "" "" "" [] "UNKNOWN" "UNVERIFIED" "".

(** ** The payload *)

(** A member that is printed only when its text is not empty. *)
Definition optional_text (key value : string) : list (string * Printed) :=
  if bool_decide (value = "") then [] else [(key, PString value)].

Definition optional_number (key : string) (value : option Z) : list (string * Printed) :=
  match value with Some z => [(key, PNumber z)] | None => [] end.

Definition has_subject (f : FindingAnnouncementInput) : bool :=
  negb (bool_decide (fa_subject_type f = "")) && negb (bool_decide (fa_subject_id f = "")).

Definition subject_tree (f : FindingAnnouncementInput) : Printed :=
  PObject ([("type", PString (fa_subject_type f)); ("id", PString (fa_subject_id f))] ++
    optional_number "pid" (fa_subject_pid f) ++ optional_number "parent_pid" (fa_subject_parent_pid f) ++
    optional_text "image" (fa_subject_image f) ++ optional_text "parent_image" (fa_subject_parent_image f) ++
    optional_text "command_line" (fa_subject_command_line f)).

Definition target_tree (f : FindingAnnouncementInput) : Printed :=
  PObject [("host", PString (fa_host f)); ("port", PNumber (fa_port f)); ("transport", PString (fa_transport f))].

Definition prefixed_hash (hash : string) : string := if starts_with "sha256:" hash then hash else "sha256:" +:+ hash.

Definition rule_set_tree (rules : ActiveRuleBundleState) (f : FindingAnnouncementInput) : Printed :=
  PObject [("id", PString (if bool_decide (fa_rule_set_id f = "")
                           then (if ab_centrally_managed rules then "neta-production" else "neta-default") else fa_rule_set_id f));
    ("version", PString (if bool_decide (fa_rule_set_version f = "") then ab_version rules else fa_rule_set_version f));
    ("revision", PNumber (ab_revision rules)); ("hash", PString (prefixed_hash (ab_sha256 rules)))].

Definition finding_members (rules : ActiveRuleBundleState) (f : FindingAnnouncementInput) : list (string * Printed) :=
  [("finding_id", PString (fa_finding_id f))] ++ optional_text "finding_key" (fa_finding_key f) ++
  optional_text "severity" (fa_severity f) ++ optional_text "rule_id" (fa_rule_id f) ++
  optional_text "interpretation" (fa_interpretation f) ++
  [if has_subject f then ("subject", subject_tree f) else ("target", target_tree f)] ++
  [("changes", PArray (map PString (fa_changes f))); ("performance_verdict", PString (fa_performance_verdict f));
   ("trust_verdict", PString (fa_trust_verdict f)); ("rule_set", rule_set_tree rules f);
   ("evidence_root", PString (fa_evidence_root f))].

(** [rules] is what [active_rule_bundle_state] ends with. *)
Definition finding_payload (rules : result ActiveRuleBundleState) (f : FindingAnnouncementInput) : result string :=
  let? _ := throw_if (bool_decide (fa_finding_id f = "")) "finding_id is required" in
  let? _ := throw_if (negb (has_subject f) && (bool_decide (fa_host f = "") || (fa_port f =? 0)))
              "finding target or subject is required" in
  let? _ := throw_if (bool_decide (fa_evidence_root f = "")) "evidence_root is required" in
  let? rule_state := rules in
  Ok (print (PObject (finding_members rule_state f))).

Definition finding_priority (severity : string) : Z :=
  let severity := uppercase severity in
  if bool_decide (severity = "CRITICAL") then 4
  else if bool_decide (severity = "HIGH") then 3
  else if bool_decide (severity = "MEDIUM") then 2
  else 1.

(** ** Submitting *)

(** [value] is the environment variable [NETA_OUTBOX_MAX_MB]. *)
Definition outbox_max_bytes (value : option string) : result Z :=
  match value with
  | None | Some EmptyString => Ok (32 * 1024 * 1024)
  | Some value =>
      let? megabytes := stoull value in
      let? _ := throw_if ((megabytes =? 0) || (4096 <? megabytes)) "NETA_OUTBOX_MAX_MB must be between 1 and 4096" in
      Ok (megabytes * 1024 * 1024)
  end.

(** What a submission finds: the identity file, the environment, the active rules, the clock, and the
    rounds of the delivery run. *)
Record SubmitEnv := MkSubmitEnv {
  se_identity : result Dispatcher.FleetIdentity;
  se_max_mb : option string;
  se_rules : result ActiveRuleBundleState;
  se_now_ns : Z;
  se_drain_now_ns : Z;
  se_rounds : nat -> AttemptEnv }.

Section submit.
Context `{Sha256} (path : SeqFile -> string) (windows : bool).

Definition producer_key (f : FindingAnnouncementInput) : string :=
  "FindingAnnouncement:" +:+ fa_finding_id f +:+ ":" +:+ fa_evidence_root f.

Definition payload_digest (payload : string) : string := "sha256:" +:+ sha256_hex payload.

Definition enqueue_finding (agent_id : string) (max_bytes now_ns : Z) (f : FindingAnnouncementInput) (payload : string) :
    Outbox -> result string * Outbox :=
  enqueue agent_id max_bytes (producer_key f) "FindingAnnouncement" (fa_rule_id f) (fa_finding_key f)
    (finding_priority (fa_severity f)) payload (payload_digest payload) now_ns.

(** The end of both submissions: a delivery run, then whether the event is acknowledged. *)
Definition drain_and_check (agent_id : string) (max_bytes : Z) (env : SubmitEnv) (event_id : string) (s : DispatcherState) :
    outcome bool * DispatcherState :=
  match drain agent_id max_bytes path windows 32 (se_drain_now_ns env) (se_rounds env) s with
  | (Done _, s) => (Done (is_acknowledged event_id (ds_outbox s)), s)
  | (Threw e, s) => (Threw e, s)
  | (Crashed, s) => (Crashed, s)
  end.

Definition submit_finding (env : SubmitEnv) (f : FindingAnnouncementInput) (s : DispatcherState) : outcome bool * DispatcherState :=
  match (let? identity := se_identity env in let? max_bytes := outbox_max_bytes (se_max_mb env) in
         let? payload := finding_payload (se_rules env) f in Ok (Dispatcher.fi_agent_id identity, max_bytes, payload)) with
  | Throw e => (Threw e, s)
  | Ok (agent_id, max_bytes, payload) =>
      let '(enqueued, ob) := enqueue_finding agent_id max_bytes (se_now_ns env) f payload (ds_outbox s) in
      let s := MkDispatcherState ob (ds_disk s) in
      match enqueued with
      | Throw e => (Threw e, s)
      | Ok event_id => drain_and_check agent_id max_bytes env event_id s
      end
  end.

Definition submit_evidence_summary (env : SubmitEnv) (key summary_json : string) (s : DispatcherState) : outcome bool * DispatcherState :=
  match (let? _ := throw_if (bool_decide (summary_json = "")) "evidence summary JSON is required" in
         let? identity := se_identity env in let? max_bytes := outbox_max_bytes (se_max_mb env) in Ok (Dispatcher.fi_agent_id identity, max_bytes)) with
  | Throw e => (Threw e, s)
  | Ok (agent_id, max_bytes) =>
      let '(enqueued, ob) := enqueue agent_id max_bytes ("EvidenceSummary:" +:+ key) "EvidenceSummary" "EVIDENCE_SUMMARY" "" 2
                               summary_json (payload_digest summary_json) (se_now_ns env) (ds_outbox s) in
      let s := MkDispatcherState ob (ds_disk s) in
      match enqueued with
      | Throw e => (Threw e, s)
      | Ok event_id => drain_and_check agent_id max_bytes env event_id s
      end
  end.

End submit.

(** ** What the coordinator reads *)

Definition small (z : Z) : Prop := 0 <= z < 2 ^ 53.

(** The numbers of a finding fit a JSON number; a port and process ids do, and so does every revision
    that a rule document can hold exactly. *)
Definition numbers_ok (rules : ActiveRuleBundleState) (f : FindingAnnouncementInput) : Prop :=
  small (fa_port f) /\ small (ab_revision rules) /\
  (forall z, fa_subject_pid f = Some z -> small z) /\ (forall z, fa_subject_parent_pid f = Some z -> small z).

(** Which optional members are there. *)
Ltac split_optional :=
  unfold optional_text, optional_number;
  repeat match goal with
  | |- context [if bool_decide (?x = EmptyString) then [] else _] => destruct (bool_decide (x = EmptyString))
  | |- context [match ?x with Some _ => _ | None => [] end] => destruct x
  end.
Ltac split_members f := unfold finding_members; try destruct (has_subject f); split_optional.

(** Objects whose member names are among distinct plain ones. *)
Lemma printable_object l :
  bool_decide (NoDup (map fst l)) = true -> forallb (fun k => bool_decide (json_escape k = k)) (map fst l) = true ->
  Forall (fun m => printable m.2) l -> printable (PObject l).
Proof.
  intros Hn Hk Hl. apply bool_decide_eq_true in Hn. cbn [printable]. split; [done|]. split.
  - apply Forall_forall. intros k Hin. rewrite forallb_forall in Hk. specialize (Hk k). rewrite bool_decide_eq_true in Hk. apply Hk. by apply list_elem_of_In.
  - induction l as [|[k q] l IH]; [done|]. apply Forall_cons in Hl as [Hq Hl]. cbn. split; [done|]. apply IH; [|cbn in Hk; by apply andb_true_iff in Hk as [_ ?]|done].
    by apply NoDup_cons in Hn as [_ ?].
Qed.

Lemma optional_text_forall (P : string * Printed -> Prop) key value : P (key, PString value) -> Forall P (optional_text key value).
Proof. intros H. unfold optional_text. case_bool_decide; [by apply Forall_nil|]. by apply Forall_cons; split; [|apply Forall_nil]. Qed.

Lemma optional_number_forall (P : string * Printed -> Prop) key value :
  (forall z, value = Some z -> P (key, PNumber z)) -> Forall P (optional_number key value).
Proof. intros H. destruct value as [z|]; cbn; [|by apply Forall_nil]. apply Forall_cons. split; [by apply H|by apply Forall_nil]. Qed.

Lemma subject_printable f :
  (forall z, fa_subject_pid f = Some z -> small z) -> (forall z, fa_subject_parent_pid f = Some z -> small z) -> printable (subject_tree f).
Proof.
  intros H1 H2. apply printable_object.
  1,2: unfold subject_tree; split_optional; vm_compute; reflexivity.
  rewrite !Forall_app, !Forall_cons, Forall_nil. split_and!; [done|done|done|apply optional_number_forall; by intros z ?%H1|
    apply optional_number_forall; by intros z ?%H2|by apply optional_text_forall..].
Qed.

Lemma members_distinct rules f : bool_decide (NoDup (map fst (finding_members rules f))) = true.
Proof. split_members f; vm_compute; reflexivity. Qed.

Lemma finding_printable rules f : numbers_ok rules f -> printable (PObject (finding_members rules f)).
Proof.
  intros (Hp & Hr & H1 & H2). apply printable_object; [apply members_distinct| |].
  - split_members f; vm_compute; reflexivity.
  - unfold finding_members. rewrite !Forall_app, !Forall_cons, !Forall_nil.
    assert (Hchanges : printable (PArray (map PString (fa_changes f)))) by (cbn; by induction (fa_changes f)).
    assert (Hrules : printable (rule_set_tree rules f)).
    { apply printable_object; [vm_compute; reflexivity|vm_compute; reflexivity|]. by rewrite !Forall_cons, Forall_nil. }
    assert (Htarget : printable (target_tree f)).
    { apply printable_object; [vm_compute; reflexivity|vm_compute; reflexivity|]. by rewrite !Forall_cons, Forall_nil. }
    pose proof (subject_printable f H1 H2).
    split_and!; try done; try (by apply optional_text_forall). by destruct (has_subject f).
Qed.

Lemma members_plain l : forallb no_nul (map fst l) = true -> Forall (fun m => plain_literals m.2) l -> plain_literals (PObject l).
Proof.
  induction l as [|[k q] l IH]; [done|]. cbn. intros [Hk Hks]%andb_true_iff [Hq Hl]%Forall_cons. split; [by split|]. by apply IH.
Qed.

Lemma finding_plain rules f : numbers_ok rules f -> plain_literals (PObject (finding_members rules f)).
Proof.
  intros (Hp & Hr & H1 & H2). apply members_plain.
  - split_members f; vm_compute; reflexivity.
  - unfold finding_members. rewrite !Forall_app, !Forall_cons, !Forall_nil.
    assert (Hchanges : plain_literals (PArray (map PString (fa_changes f)))) by (cbn; by induction (fa_changes f)).
    assert (Hrules : plain_literals (rule_set_tree rules f)).
    { apply members_plain; [vm_compute; reflexivity|]. rewrite !Forall_cons, Forall_nil. cbn. unfold small in *. split_and!; done || lia. }
    assert (Htarget : plain_literals (target_tree f)).
    { apply members_plain; [vm_compute; reflexivity|]. rewrite !Forall_cons, Forall_nil. cbn. unfold small in *. split_and!; done || lia. }
    assert (Hsubject : plain_literals (subject_tree f)).
    { apply members_plain.
      - unfold subject_tree; split_optional; vm_compute; reflexivity.
      - rewrite !Forall_app, !Forall_cons, Forall_nil. split_and!; [done|done|done|apply optional_number_forall; intros z Hz%H1; cbn; unfold small in *; lia|
          apply optional_number_forall; intros z Hz%H2; cbn; unfold small in *; lia|by apply optional_text_forall..]. }
    split_and!; try done; try (by apply optional_text_forall). by destruct (has_subject f).
Qed.

Definition optional_value (value : string) : option JsonValue := if bool_decide (value = "") then None else Some (JsonString value).

Lemma throw_if_cases c m : (c = true /\ throw_if c m = Throw m) \/ (c = false /\ throw_if c m = Ok tt).
Proof. destruct c; [by left|by right]. Qed.

(** What a reader of the payload finds. *)
Definition finding_reads (rules : ActiveRuleBundleState) (f : FindingAnnouncementInput) (v : JsonValue) : Prop :=
  json_find v "finding_id" = Ok (Some (JsonString (fa_finding_id f))) /\
  json_find v "evidence_root" = Ok (Some (JsonString (fa_evidence_root f))) /\
  json_find v "performance_verdict" = Ok (Some (JsonString (fa_performance_verdict f))) /\
  json_find v "trust_verdict" = Ok (Some (JsonString (fa_trust_verdict f))) /\
  json_find v "changes" = Ok (Some (JsonArray (map JsonString (fa_changes f)))) /\
  json_find v "rule_set" = Ok (Some (meaning (rule_set_tree rules f))) /\
  json_find v "finding_key" = Ok (optional_value (fa_finding_key f)) /\
  json_find v "severity" = Ok (optional_value (fa_severity f)) /\
  json_find v "rule_id" = Ok (optional_value (fa_rule_id f)) /\
  json_find v "interpretation" = Ok (optional_value (fa_interpretation f)) /\
  json_find v "subject" = Ok (if has_subject f then Some (meaning (subject_tree f)) else None) /\
  json_find v "target" = Ok (if has_subject f then None else Some (meaning (target_tree f))).

Lemma optional_text_empty key : optional_text key "" = [].
Proof. done. Qed.

Lemma optional_text_in key value : value <> "" -> (key, PString value) ∈ optional_text key value.
Proof. intros Hv. unfold optional_text. rewrite bool_decide_eq_false_2 by done. by left. Qed.

(** A pair is in a concatenation of lists of which one shows it. *)
Ltac member_of := rewrite ?elem_of_app, ?elem_of_cons; tauto.

(** A name is none of the names of the members. *)
Ltac absent f := split_members f; apply (bool_decide_unpack _); vm_compute; exact I.

Lemma finding_members_read rules f : finding_reads rules f (meaning (PObject (finding_members rules f))).
Proof.
  pose proof (members_distinct rules f) as Hnd. apply bool_decide_eq_true in Hnd. unfold finding_reads.
  assert (Hstr : forall k t, (k, PString t) ∈ finding_members rules f -> json_find (meaning (PObject (finding_members rules f))) k = Ok (Some (JsonString t)))
    by (intros k t; apply (printed_member _ k (PString t) Hnd)).
  split_and!.
  1-4: apply Hstr; unfold finding_members; member_of.
  3-6: unfold optional_value; case_bool_decide as E;
    [apply printed_no_member; unfold finding_members; rewrite E, optional_text_empty; absent f
    |apply Hstr; unfold finding_members; rewrite !elem_of_app; pose proof (fun k => optional_text_in k _ E); naive_solver].
  - rewrite (printed_member _ "changes" (PArray (map PString (fa_changes f))) Hnd) by (unfold finding_members; member_of).
    cbn [meaning]. by rewrite map_map.
  - apply (printed_member _ _ _ Hnd). unfold finding_members. member_of.
  - destruct (has_subject f) eqn:E; [apply (printed_member _ _ _ Hnd)|apply printed_no_member]; unfold finding_members; rewrite E; [member_of|absent f].
  - destruct (has_subject f) eqn:E; [apply printed_no_member|apply (printed_member _ _ _ Hnd)]; unfold finding_members; rewrite E; [absent f|member_of].
Qed.

Lemma payload_reads rules f text :
  numbers_ok rules f -> finding_payload (Ok rules) f = Ok text -> c_str text = text /\ exists v, parse text = Ok v /\ finding_reads rules f v.
Proof.
  intros Hnum E. unfold finding_payload in E. do 3 (apply rbind_ok in E as ([] & _ & E)). cbn [rbind] in E.
  assert (text = print (PObject (finding_members rules f))) as -> by congruence.
  split; [by apply c_str_no_nul, print_no_nul, finding_plain|].
  eexists. split; [by apply printed_parses, finding_printable|apply finding_members_read].
Qed.

(** C21: The payload of a finding.  It is refused exactly when the finding has no id, names neither a
    subject nor a host with a port, or has no evidence root, or when the active rule bundle cannot be
    loaded; otherwise it is a text without NUL that the JSON parser reads, and what it reads are the
    fields of the finding, byte for byte: its id, evidence root, verdicts and changes, the optional
    fields exactly when they are not empty, and the subject, or else the target, but never both; and
    the revision and hash of the active bundle.  The numbers of the finding and the bundle (process
    ids, port, revision) are assumed not to be negative and to be below 2^53, where the parser is
    exact. *)
Theorem finding_payload_round_trip rules f :
  (forall bundle, rules = Ok bundle -> numbers_ok bundle f) ->
  match finding_payload rules f with
  | Throw e =>
      fa_finding_id f = "" \/ has_subject f = false /\ (fa_host f = "" \/ fa_port f = 0) \/ fa_evidence_root f = "" \/ rules = Throw e
  | Ok text =>
      fa_finding_id f <> "" /\ (has_subject f = true \/ fa_host f <> "" /\ fa_port f <> 0) /\ fa_evidence_root f <> "" /\
      c_str text = text /\
      exists bundle v, rules = Ok bundle /\ parse text = Ok v /\ finding_reads bundle f v
  end.
Proof.
  intros Hnum. assert (Hreads := fun bundle => payload_reads bundle f). unfold finding_payload in *.
  destruct (throw_if_cases (bool_decide (fa_finding_id f = "")) "finding_id is required") as [[B1 E1]|[B1 E1]]; rewrite E1 in *; cbn [rbind] in *;
    [left; by to_prop|].
  destruct (throw_if_cases (negb (has_subject f) && (bool_decide (fa_host f = "") || (fa_port f =? 0))) "finding target or subject is required")
    as [[B2 E2]|[B2 E2]]; rewrite E2 in *; cbn [rbind] in *.
  { right; left. apply andb_true_iff in B2 as [B2 [?|?]%orb_true_iff]; to_prop; naive_solver. }
  destruct (throw_if_cases (bool_decide (fa_evidence_root f = "")) "evidence_root is required") as [[B3 E3]|[B3 E3]]; rewrite E3 in *; cbn [rbind] in *;
    [do 2 right; left; by to_prop|].
  destruct rules as [bundle|e]; cbn [rbind]; [|by do 3 right].
  split; [by to_prop|]. split; [|split; [by to_prop|]].
  - destruct (has_subject f); [by left|right]. cbn in B2. apply orb_false_iff in B2 as [B2 B2']. by split; to_prop.
  - destruct (Hreads bundle _ (Hnum bundle eq_refl) eq_refl) as [Ht (v & H1 & H2)]. split; [done|]. by exists bundle, v.
Qed.

Definition demo_rules : ActiveRuleBundleState := MkBundleState "/s/rules/active.json" 7 "2" "ab" 3 true.
Definition demo_finding : FindingAnnouncementInput :=
  MkFinding "f1" "" "" 0 "tcp" "process" "p1" (Some 41) None "C:\p.exe" "" "" "high" "R1" "" "" "" ["x"; "y"] "UNKNOWN" "UNVERIFIED" "root".

Lemma demo_numbers : numbers_ok demo_rules demo_finding.
Proof. unfold numbers_ok, small. cbn. split_and!; try lia; intros z [= <-]; lia. Defined.

Lemma finding_payload_round_trip_witness :
  exists text v, finding_payload (Ok demo_rules) demo_finding = Ok text /\ parse text = Ok v /\ finding_reads demo_rules demo_finding v.
Proof.
  assert (Hn : forall bundle, Ok demo_rules = Ok bundle -> numbers_ok bundle demo_finding) by (intros bundle [= <-]; exact demo_numbers).
  pose proof (finding_payload_round_trip (Ok demo_rules) demo_finding Hn) as T.
  destruct (finding_payload (Ok demo_rules) demo_finding) as [text|e] eqn:E; [|vm_compute in E; discriminate E].
  destruct T as (_ & _ & _ & _ & bundle & v & Hb & Hp & Hv). injection Hb as Hb. subst bundle. exists text, v. split; [reflexivity|]. split; assumption.
Defined.

(** ** The outbox *)

Lemma digest_c_str `{Sha256} payload : c_str (payload_digest payload) = payload_digest payload.
Proof.
  apply c_str_no_nul. unfold payload_digest, no_nul. rewrite string_all_app. apply andb_true_iff. split; [done|].
  eapply string_all_impl; [|apply (finalize_hex_shape (sha256_digest payload))]. intros c. by destruct c as [[] [] [] [] [] [] [] []].
Qed.

(** What an outbox row of a finding holds. *)
Definition finding_row `{Sha256} (rules : ActiveRuleBundleState) (f : FindingAnnouncementInput) (text : string) (r : Row) : Prop :=
  om_state r = Pending /\ om_producer_key r = c_str (producer_key f) /\ om_priority r = finding_priority (fa_severity f) /\
  om_payload_json r = text /\ om_payload_hash r = payload_digest (om_payload_json r) /\
  exists v, parse (om_payload_json r) = Ok v /\ finding_reads rules f v.

(** Enqueueing a finding: an earlier announcement of the same finding and evidence is returned and no
    row changes, or one pending row is appended that holds exactly the payload, under its digest, or
    the outbox is full and stays as it was. *)
Theorem finding_enqueued_exact `{Sha256} agent_id max_bytes rules f text now_ns ob :
  numbers_ok rules f -> finding_payload (Ok rules) f = Ok text ->
  agent_ok agent_id -> in_u 64 max_bytes -> string_ok text -> md_next_event_counter (ob_meta ob) < 2 ^ 63 -> outbox_inv agent_id max_bytes ob ->
  let '(outcome, ob') := enqueue_finding agent_id max_bytes now_ns f text ob in
  outbox_inv agent_id max_bytes ob' /\
  match outcome with
  | Ok id => (exists r, r ∈ ob_rows ob /\ om_producer_key r = c_str (producer_key f) /\ id = om_event_id r /\ ob_rows ob' = ob_rows ob) \/
      (forall r, r ∈ ob_rows ob -> om_producer_key r <> c_str (producer_key f)) /\
      exists ob1 r, shrunk ob ob1 /\ ob_rows ob' = ob_rows ob1 ++ [r] /\ om_event_id r = id /\ finding_row rules f text r
  | Throw message => ob' = ob /\ message = capacity_message
  end.
Proof.
  intros Hnum Htext Ha Hm Hs Hn Hi.
  destruct (enqueue_outcome agent_id max_bytes (producer_key f) "FindingAnnouncement" (fa_rule_id f) (fa_finding_key f)
    (finding_priority (fa_severity f)) text (payload_digest text) now_ns ob Ha Hm Hs Hn Hi) as [Hp Hi'].
  unfold enqueue_finding. unfold enqueue_post in Hp. destruct (enqueue _ _ _ _ _ _ _ _ _ _ ob) as [[id|m] ob'].
  2: { destruct Hp as (? & ? & _). by split. }
  split; [done|]. destruct Hp as [(r & Hr & Hk & -> & ->)|(Hfresh & Hid & ob1 & Hsh & Hrows & _)].
  - left. by exists r.
  - right. split; [done|]. eexists ob1, _. split; [done|]. split; [exact Hrows|].
    destruct (payload_reads _ _ _ Hnum Htext) as (Hc & v & Hv). cbn [new_row om_event_id]. split; [subst id; apply c_str_event_id; [done|pose proof (oi_next _ _ _ Hi); lia]|].
    unfold finding_row. cbn [new_row om_state om_producer_key om_priority om_payload_json om_payload_hash]. rewrite Hc, (digest_c_str text). split_and!; try done. by exists v.
Qed.
