(* ===== verification/Cooldown.v ===== *)
(** Cooldown files ([fleet_reporting.hpp], [behavior_reporting.hpp], [transfer_assurance.hpp],
    [rm2_reporting.hpp]): when a finding was last announced, one line per finding key.

    A reporter reads the file into an [unordered_map] with formatted input and writes it back with
    formatted output; the order in which an [unordered_map] is walked is a parameter.

    The theorem: what is written is read back, in whatever order it was written
    ([load_saved]). *)

From stdpp Require Import gmap fin_maps.
From S2P Require Import Prelude Text Crypto NapSequence.

#[local] Arguments String.append !_ _ /.

Abbreviation Cooldowns := (gmap string Z).

(** ** Formatted input *)

Definition not_space (c : ascii) : bool := negb (isspace c).

(** [input >> key] for a string. *)
Definition extract_word (s : string) : option (string * string) :=
  let s := drop_while isspace s in
  let word := take_while not_space s in
  if bool_decide (word = "") then None else Some (word, drop_while not_space s).

(** [input >> epoch] for a [std::int64_t]: a number that does not fit sets [failbit]. *)
Definition extract_int64 (s : string) : option (Z * string) :=
  let s := drop_while isspace s in
  let '(negative, s) :=
    match s with
    | String c s' => if is_char 45 c then (true, s') else if is_char 43 c then (false, s') else (false, s)
    | EmptyString => (false, s)
    end in
  let digits := take_while isdigit s in
  let value := if negative : bool then - digits_value 0 digits else digits_value 0 digits in
  if bool_decide (digits = "") || (value <? - 2 ^ 63) || (2 ^ 63 - 1 <? value) then None
  else Some (value, drop_while isdigit s).

(** [while (input >> key >> epoch) result[key] = epoch;] *)
Fixpoint load_entries (fuel : nat) (s : string) (result : Cooldowns) : Cooldowns :=
  match fuel with
  | O => result
  | S fuel =>
      match extract_word s with
      | None => result
      | Some (key, s) =>
          match extract_int64 s with
          | None => result
          | Some (epoch, s) => load_entries fuel s (<[key := epoch]> result)
          end
      end
  end.

Definition load_text (s : string) : Cooldowns := load_entries (S (String.length s)) s ∅.

(** ** Formatted output *)

(** The order in which an [unordered_map] is walked. *)
Class BucketOrder := buckets : Cooldowns -> list (string * Z).
Class BucketOrderLaws (B : BucketOrder) : Prop := buckets_all : forall m, buckets m ≡ₚ map_to_list m.

Definition entry_text (entry : string * Z) : string := entry.1 +:+ " " +:+ to_string entry.2 +:+ newline.
Fixpoint entries_text (entries : list (string * Z)) : string :=
  match entries with [] => "" | entry :: entries => entry_text entry +:+ entries_text entries end.
Definition save_text `{BucketOrder} (m : Cooldowns) : string := entries_text (buckets m).

(** ** Cooldowns *)

(** [now - previous->second >= policy.cooldown.count()]; the difference of the times does not
    overflow when both are epochs. *)
Definition cooldown_allows (key : string) (cooldowns : Cooldowns) (now cooldown : Z) : bool :=
  match cooldowns !! key with None => true | Some previous => cooldown <=? now - previous end.

(** ** Reading what was written *)

Lemma drop_while_prefix p s rest : string_all p s = true -> drop_while p (s +:+ rest) = drop_while p rest.
Proof. induction s as [|c s IH]; [done|]. cbn. intros [-> H]%andb_true_iff. by apply IH. Qed.

Lemma drop_while_length p s : (String.length (drop_while p s) <= String.length s)%nat.
Proof. induction s as [|c s IH]; cbn; [lia|]. destruct (p c); cbn; lia. Qed.

(** Keys that formatted input reads as one word. *)
Definition word (key : string) : Prop := key <> "" /\ string_all not_space key = true.

Lemma word_head key : word key -> exists c k, key = String c k /\ isspace c = false.
Proof.
  intros [Hn Ha]. destruct key as [|c k]; [done|]. exists c, k. split; [done|].
  cbn in Ha. apply andb_true_iff in Ha as [Hc _]. by apply negb_true_iff.
Qed.

Lemma extract_word_line blanks key rest :
  string_all isspace blanks = true -> word key -> extract_word (blanks +:+ key +:+ " " +:+ rest) = Some (key, " " +:+ rest).
Proof.
  intros Hb Hk. destruct (word_head key Hk) as (c & k & E & Hc). destruct Hk as [Hn Ha]. unfold extract_word.
  rewrite drop_while_prefix by done. assert (E' : drop_while isspace (key +:+ " " +:+ rest) = key +:+ " " +:+ rest) by (subst; cbn; by rewrite Hc).
  rewrite E'. rewrite take_while_all, drop_while_prefix by done. cbn. rewrite string_app_nil_r. by rewrite bool_decide_eq_false_2.
Qed.

Lemma to_string_negative z : z < 0 -> to_string z = "-" +:+ to_string (- z).
Proof. destruct z; [lia|lia|done]. Qed.

Lemma digits_head z : 0 <= z -> exists c s, to_string z = String c s /\ isdigit c = true.
Proof.
  intros Hz. destruct (to_string_digits z Hz) as (D1 & D2 & _). destruct (to_string z) as [|c s]; [done|]. exists c, s. split; [done|].
  by apply andb_true_iff in D1 as [? _].
Qed.

Lemma extract_int64_line z rest : in_s 64 z -> extract_int64 (" " +:+ to_string z +:+ newline +:+ rest) = Some (z, newline +:+ rest).
Proof.
  intros Hz. unfold extract_int64, in_s in *. change (drop_while isspace (" " +:+ ?x)) with (drop_while isspace x).
  assert (Hpos : forall n, 0 <= n -> take_while isdigit (to_string n +:+ newline +:+ rest) = to_string n /\
    drop_while isdigit (to_string n +:+ newline +:+ rest) = newline +:+ rest /\ bool_decide (to_string n = "") = false /\ digits_value 0 (to_string n) = n).
  { intros n Hn. destruct (to_string_digits n Hn) as (D1 & D2 & D3). rewrite take_while_all, drop_while_prefix by done. cbn. rewrite string_app_nil_r.
    split_and!; [done..| |done]. by apply bool_decide_eq_false_2. }
  destruct (Z.lt_ge_cases z 0) as [Hneg|Hnn].
  - rewrite to_string_negative by done. destruct (Hpos (- z)) as (P1 & P2 & P3 & P4); [lia|]. revert P1 P2 P3 P4.
    generalize (to_string (- z)) (newline +:+ rest). intros t r P1 P2 P3 P4. cbn.
    change (isspace "-") with false. cbn. change (is_char 45 "-") with true. cbn. rewrite P1, P2, P3, P4. cbn.
    rewrite (proj2 (Z.ltb_ge _ _)), (proj2 (Z.ltb_ge _ _)) by lia. cbn. by rewrite Z.opp_involutive.
  - destruct (digits_head z Hnn) as (c & s & E & Hc). destruct (Hpos z Hnn) as (P1 & P2 & P3 & P4). rewrite E in *. cbn [String.append] in *.
    cbn [drop_while]. rewrite (isdigit_not_space c Hc). assert (48 <= code c) by (unfold isdigit in Hc; to_prop; lia).
    unfold is_char. rewrite (proj2 (Z.eqb_neq (code c) 45)), (proj2 (Z.eqb_neq (code c) 43)) by lia. rewrite P1, P2, P3, P4. cbn.
    by rewrite (proj2 (Z.ltb_ge _ _)), (proj2 (Z.ltb_ge _ _)) by lia.
Qed.

Lemma load_entries_line fuel blanks key z rest result :
  string_all isspace blanks = true -> word key -> in_s 64 z ->
  load_entries (S fuel) (blanks +:+ entry_text (key, z) +:+ rest) result = load_entries fuel (newline +:+ rest) (<[key := z]> result).
Proof.
  intros Hb Hk Hz. cbn [load_entries]. unfold entry_text. cbn [fst snd]. rewrite !string_app_assoc, extract_word_line by done.
  by rewrite extract_int64_line.
Qed.

Lemma load_entries_written entries : forall fuel blanks result,
  Forall (fun e => word e.1 /\ in_s 64 e.2) entries -> (length entries < fuel)%nat -> string_all isspace blanks = true ->
  load_entries fuel (blanks +:+ entries_text entries) result = fold_left (fun m e => <[e.1 := e.2]> m) entries result.
Proof.
  induction entries as [|[k z] entries IH]; intros fuel blanks result Hall Hf Hb; (destruct fuel as [|fuel]; [cbn in Hf; lia|]).
  - cbn [entries_text fold_left load_entries]. rewrite string_app_nil_r. unfold extract_word.
    rewrite <- (string_app_nil_r blanks), drop_while_prefix by done. done.
  - apply Forall_cons in Hall as [[Hk Hz] Hall]. cbn [entries_text fold_left]. rewrite load_entries_line by done. apply IH; [done|cbn in Hf; lia|done].
Qed.

Lemma fold_insert entries (m0 : Cooldowns) :
  NoDup entries.*1 -> fold_left (fun m e => <[e.1 := e.2]> m) entries m0 = list_to_map entries ∪ m0.
Proof.
  revert m0. induction entries as [|[k z] entries IH]; intros m0 Hnd; cbn; [by rewrite (left_id_L ∅ (∪))|].
  apply NoDup_cons in Hnd as [Hk Hnd]. rewrite IH by done. cbn. rewrite <- insert_union_l, insert_union_r; [done|].
  by apply not_elem_of_list_to_map_1.
Qed.

Lemma entries_text_length entries : (length entries <= String.length (entries_text entries))%nat.
Proof.
  induction entries as [|e entries IH]; [done|]. cbn [entries_text length]. unfold entry_text. rewrite !string_length_app. cbn. lia.
Qed.

(** Every key is a word and every time fits. *)
Definition storable (m : Cooldowns) : Prop := map_Forall (fun key z => word key /\ in_s 64 z) m.

(** The cooldowns that were saved are the cooldowns that are loaded, in whatever order the map was
    walked. *)
Lemma load_saved `{BucketOrderLaws} m : storable m -> load_text (save_text m) = m.
Proof.
  intros Hm. unfold load_text, save_text. pose proof (buckets_all m) as Hp. set (entries := buckets m) in *.
  assert (Hall : Forall (fun e => word e.1 /\ in_s 64 e.2) entries).
  { apply Forall_forall. intros [k z] Hin. rewrite Hp in Hin. apply elem_of_map_to_list in Hin. by apply (Hm k z). }
  pose proof (load_entries_written entries (S (String.length (entries_text entries))) "" ∅ Hall) as E. cbn [String.append] in E.
  rewrite E; [|pose proof (entries_text_length entries); lia|done].
  assert (Hnd : NoDup entries.*1) by (rewrite Hp; apply NoDup_fst_map_to_list).
  rewrite fold_insert, (right_id_L ∅ (∪)) by done. rewrite (list_to_map_proper entries (map_to_list m)) by done. apply list_to_map_to_list.
Qed.

(** Enough fuel: the loop ends at the end of the text or at the first entry that cannot be read. *)
Lemma load_entries_fuel f1 f2 s result :
  (String.length s < f1)%nat -> (String.length s < f2)%nat -> load_entries f1 s result = load_entries f2 s result.
Proof.
  revert f2 s result. induction f1 as [|f1 IH]; intros [|f2] s result H1 H2; try lia. cbn [load_entries].
  destruct (extract_word s) as [[key s1]|] eqn:E1; [|done]. destruct (extract_int64 s1) as [[epoch s2]|] eqn:E2; [|done].
  assert (String.length s2 < String.length s)%nat; [|apply IH; lia].
  assert (String.length s1 < String.length s)%nat.
  { unfold extract_word in E1. case_bool_decide as Ew; [done|]. injection E1 as <- <-. pose proof (drop_while_length isspace s).
    destruct (drop_while isspace s) as [|c t]; [done|]. cbn in *. destruct (not_space c); [|done]. pose proof (drop_while_length not_space t). lia. }
  assert (String.length s2 <= String.length s1)%nat; [|lia].
  unfold extract_int64 in E2. pose proof (drop_while_length isspace s1) as Hl. destruct (drop_while isspace s1) as [|c t]; [done|].
  destruct (is_char 45 c), (is_char 43 c); cbn -[drop_while take_while] in *.
  all: match type of E2 with (if ?b then _ else _) = _ => destruct b; [done|] end; injection E2 as _ <-.
  all: try destruct (isdigit c); pose proof (drop_while_length isdigit t); cbn [String.length]; lia.
Qed.


(** An order to evaluate with. *)
Definition list_order : BucketOrder := map_to_list.
Lemma list_order_laws : BucketOrderLaws list_order.
Proof. intros m. reflexivity. Qed.
