(* ===== verification/HistoryEvidence.v ===== *)
(** Evidence about connections in the history database ([src/core/history_name_resolution.cpp],
    [history_tls_session.cpp]): name resolutions with their addresses, and TLS sessions.

    A row has the columns of the table, bound and read back with the conversions of the code: unsigned
    64-bit numbers are stored as signed ones, texts end at their first NUL, except that of ALPN, and
    enumerations are stored by name.  [known] are the ids of the table of connections, to which the
    foreign keys refer.

    The theorems: evidence that was added is read back as it was, with its addresses in order and
    without duplicates, and its hash is the hash that was stored ([name_evidence_round_trip],
    [tls_evidence_round_trip]); nothing else changes. *)

From stdpp Require Import sorting.
From S2P Require Import Prelude Text Wire Crypto Model History NameResolution TlsSession.

#[local] Arguments String.append !_ _ /.

Definition fidelity_from_string (value : string) : EvidenceFidelity :=
  if bool_decide (value = "EXACT") then Exact
  else if bool_decide (value = "STRONGLY_CORRELATED") then StronglyCorrelated
  else if bool_decide (value = "SUPPORTING") then Supporting
  else Contextual.

(** [static_cast<NetworkAddressFamily>(n)] *)
Definition family_of_index (n : Z) : NetworkAddressFamily :=
  if n =? 0 then FamilyUnknown else if n =? 1 then IPv4 else if n =? 2 then IPv6 else FamilyRaw n.

(** ** Name resolutions *)

Record NameColumns := MkNameColumns {
  nc_connection_id : Z; nc_started_ns : Z; nc_completed_ns : Z; nc_query_kind : string; nc_mechanism : string; nc_query_name : string;
  nc_canonical_name : option string; nc_source : string; nc_result_code : option Z; nc_observation_fidelity : string;
  nc_correlation_fidelity : string; nc_relation : string; nc_agent_pid : option Z; nc_agent_tgid : option Z; nc_kernel_pid : option Z;
  nc_kernel_tgid : option Z; nc_uid : option Z; nc_process_start_ticks : option Z; nc_comm : option string;
  nc_network_namespace_inode : option Z; nc_sha256 : string }.

(** [connection_name_resolution_evidence] and [connection_name_resolution_addresses]. *)
Record NameTables := MkNameTables { nt_evidence : list (Z * NameColumns); nt_addresses : list (Z * Z * string) }.

(** [UNIQUE(connection_id,completed_ns,query_name,source,relation)] *)
Definition name_key (c : NameColumns) : Z * Z * string * string * string :=
  (nc_connection_id c, nc_completed_ns c, nc_query_name c, nc_source c, nc_relation c).

Definition bind_name `{Sha256} (connection_id : Z) (e : NameResolutionEvidence) : NameColumns :=
  let o := nv_observation e in
  let p := no_process o in
  MkNameColumns connection_id (wrap_s 64 (no_started_ns o)) (wrap_s 64 (no_completed_ns o)) (query_kind_to_string (no_query_kind o))
    (mechanism_to_string (no_mechanism o)) (c_str (no_query_name o)) (c_str <$> no_canonical_name o) (c_str (no_source o)) (no_result_code o)
    (fidelity_to_string (no_fidelity o)) (fidelity_to_string (nv_correlation_fidelity e)) (relation_to_string (nv_relation e))
    (lpi_pid (lpc_agent_visible p)) (lpi_tgid (lpc_agent_visible p)) (lpi_pid (lpc_kernel p)) (lpi_tgid (lpc_kernel p)) (lpc_uid p)
    (wrap_s 64 <$> lpc_start_ticks p) (c_str <$> lpc_comm p) (wrap_s 64 <$> no_network_namespace_inode o) (name_resolution_evidence_hash e).

(** [INSERT OR IGNORE] into the addresses of one evidence. *)
Definition insert_address (id : Z) (rows : list (Z * Z * string)) (a : NameResolutionAddress) : list (Z * Z * string) :=
  let row := (id, family_index (na_family a), c_str (na_address a)) in
  if bool_decide (row ∈ rows) then rows else rows ++ [row].

(** The conflict clause sets every column that is not in the key; the others are equal. *)
Definition upsert_name (known : Z -> bool) (row : NameColumns) (rows : list (Z * NameColumns)) : result (Z * list (Z * NameColumns)) :=
  match List.find (fun r => bool_decide (name_key r.2 = name_key row)) rows with
  | Some (id, _) => Ok (id, map (fun r => if r.1 =? id then (id, row) else r) rows)
  | None => if known (nc_connection_id row) then let id := next_rowid (map fst rows) in Ok (id, rows ++ [(id, row)])
            else Throw "FOREIGN KEY constraint failed"
  end.

Definition add_name_resolution_evidence `{Sha256} (known : Z -> bool) (connection_id : Z) (e : NameResolutionEvidence) (t : NameTables) :
    result (Z * NameTables) :=
  let? upserted := upsert_name known (bind_name connection_id e) (nt_evidence t) in
  let (id, rows) := upserted : Z * list (Z * NameColumns) in
  let cleared := filter (fun a => a.1.1 <> id) (nt_addresses t) in
  Ok (id, MkNameTables rows (fold_left (insert_address id) (no_addresses (nv_observation e)) cleared)).

Definition read_name (addresses : list (Z * string)) (c : NameColumns) : NameResolutionEvidence :=
  MkNameResolutionEvidence
    (MkNameResolutionObservation (wrap_u 64 (nc_started_ns c)) (wrap_u 64 (nc_completed_ns c))
      (name_resolution_query_kind_from_string (nc_query_kind c)) (name_resolution_mechanism_from_string (nc_mechanism c))
      (MkLifecycleProcessContext (MkLifecycleProcessIds (nc_agent_pid c) (nc_agent_tgid c)) (MkLifecycleProcessIds (nc_kernel_pid c) (nc_kernel_tgid c))
         None (wrap_u 32 <$> nc_uid c) (wrap_u 64 <$> nc_process_start_ticks c) (nc_comm c))
      (wrap_u 64 <$> nc_network_namespace_inode c) (nc_query_name c) (nc_canonical_name c)
      (map (fun a => MkNameResolutionAddress (family_of_index a.1) a.2) addresses)
      (nc_result_code c) (fidelity_from_string (nc_observation_fidelity c)) (nc_source c))
    (name_resolution_relation_from_string (nc_relation c)) (fidelity_from_string (nc_correlation_fidelity c)).

(** [ORDER BY address_family,address] *)
Definition address_before (a b : Z * string) : Prop := a.1 < b.1 \/ a.1 = b.1 /\ String.le a.2 b.2.
#[global] Instance address_before_dec : RelDecision address_before.
Proof. intros a b. unfold address_before. apply _. Defined.

Definition addresses_for (id : Z) (rows : list (Z * Z * string)) : list (Z * string) :=
  merge_sort address_before (map (fun a => (a.1.2, a.2)) (filter (fun a => a.1.1 = id) rows)).

(** [ORDER BY completed_ns,id] and [ORDER BY observed_ns,id] *)
Definition row_before {A} (time : A -> Z) (a b : Z * A) : Prop := time a.2 < time b.2 \/ time a.2 = time b.2 /\ a.1 <= b.1.
#[global] Instance row_before_dec {A} (time : A -> Z) : RelDecision (row_before time).
Proof. intros a b. unfold row_before. apply _. Defined.

Definition name_resolution_evidence_for_connection (connection_id : Z) (t : NameTables) : list NameResolutionEvidence :=
  map (fun r => read_name (addresses_for r.1 (nt_addresses t)) r.2)
    (merge_sort (row_before nc_completed_ns) (filter (fun r => nc_connection_id r.2 = connection_id) (nt_evidence t))).

(** ** TLS sessions *)

Record TlsColumns := MkTlsColumns {
  tc_connection_id : Z; tc_observed_ns : Z; tc_local_role : string; tc_relation : string; tc_source : string; tc_observation_fidelity : string;
  tc_correlation_fidelity : string; tc_pid : Z; tc_uid : Z; tc_process_start_ticks : option Z; tc_comm : string;
  tc_network_namespace_inode : option Z; tc_socket_cookie : option Z; tc_local_address : string; tc_local_port : Z; tc_remote_address : string;
  tc_remote_port : Z; tc_tls_version : string; tc_cipher : string; tc_alpn : string; tc_sni : string; tc_expected_peer_name : option string;
  tc_matched_peer_name : option string; tc_peer_certificate_present : bool; tc_peer_verification_required : bool; tc_verify_result : option Z;
  tc_peer_authenticated : bool; tc_leaf_sha256 : string; tc_spki_sha256 : string; tc_subject : string; tc_issuer : string;
  tc_not_before : string; tc_not_after : string; tc_session_key : string; tc_sha256 : string }.

Definition bind_tls `{Sha256} (connection_id : Z) (e : TlsSessionEvidence) : TlsColumns :=
  let o := tv_observation e in
  let p := to_process o in
  MkTlsColumns connection_id (wrap_s 64 (to_observed_ns o)) (role_to_string (to_local_role o)) (tls_relation_to_string (tv_relation e))
    (c_str (to_source o)) (fidelity_to_string (to_fidelity o)) (fidelity_to_string (tv_correlation_fidelity e)) (pi_pid p) (pi_uid p)
    (wrap_s 64 <$> pi_start_ticks p) (c_str (pi_comm p)) (wrap_s 64 <$> to_network_namespace_inode o) (wrap_s 64 <$> to_socket_cookie o)
    (c_str (te_address (to_local o))) (te_port (to_local o)) (c_str (te_address (to_remote o))) (te_port (to_remote o))
    (c_str (to_tls_version o)) (c_str (to_cipher o)) (to_alpn o) (c_str (to_sni o)) (c_str <$> to_expected_peer_name o)
    (c_str <$> to_matched_peer_name o) (to_peer_certificate_present o) (to_peer_verification_required o) (to_verify_result o)
    (to_peer_authenticated o) (c_str (to_leaf_sha256 o)) (c_str (to_spki_sha256 o)) (c_str (to_subject o)) (c_str (to_issuer o))
    (c_str (to_not_before o)) (c_str (to_not_after o)) (tls_session_identity_key o) (tls_session_evidence_hash e).

(** [UNIQUE(connection_id, session_key)] *)
Definition tls_key (c : TlsColumns) : Z * string := (tc_connection_id c, tc_session_key c).

(** [INSERT OR IGNORE], then the id of the row with the key. *)
Definition add_tls_session_evidence `{Sha256} (known : Z -> bool) (connection_id : Z) (e : TlsSessionEvidence) (rows : list (Z * TlsColumns)) :
    result (Z * list (Z * TlsColumns)) :=
  let row := bind_tls connection_id e in
  match List.find (fun r => bool_decide (tls_key r.2 = tls_key row)) rows with
  | Some (id, _) => Ok (id, rows)
  | None => if known connection_id then let id := next_rowid (map fst rows) in Ok (id, rows ++ [(id, row)])
            else Throw "FOREIGN KEY constraint failed"
  end.

Definition read_tls (c : TlsColumns) : TlsSessionEvidence :=
  MkTlsSessionEvidence
    (MkTlsSessionObservation (wrap_u 64 (tc_observed_ns c)) (tls_session_role_from_string (tc_local_role c))
      (MkProcessIdentity (tc_pid c) (wrap_u 32 (tc_uid c)) (wrap_u 64 <$> tc_process_start_ticks c) (tc_comm c) "")
      (wrap_u 64 <$> tc_network_namespace_inode c) (wrap_u 64 <$> tc_socket_cookie c)
      (MkTlsSessionEndpoint (tc_local_address c) (wrap_u 16 (tc_local_port c))) (MkTlsSessionEndpoint (tc_remote_address c) (wrap_u 16 (tc_remote_port c)))
      (tc_tls_version c) (tc_cipher c) (tc_alpn c) (tc_sni c) (tc_expected_peer_name c) (tc_matched_peer_name c) (tc_peer_certificate_present c)
      (tc_peer_verification_required c) (tc_verify_result c) (tc_peer_authenticated c) (tc_leaf_sha256 c) (tc_spki_sha256 c) (tc_subject c)
      (tc_issuer c) (tc_not_before c) (tc_not_after c) (fidelity_from_string (tc_observation_fidelity c)) (tc_source c))
    (tls_session_relation_from_string (tc_relation c)) (fidelity_from_string (tc_correlation_fidelity c)).

Definition tls_session_evidence_for_connection (connection_id : Z) (rows : list (Z * TlsColumns)) : list TlsSessionEvidence :=
  map (fun r => read_tls r.2) (merge_sort (row_before tc_observed_ns) (filter (fun r => tc_connection_id r.2 = connection_id) rows)).

(** ** Rows with a unique key *)

Lemma map_fmap {A B} (f : A -> B) l : map f l = f <$> l.
Proof. reflexivity. Qed.

Section Keyed.
Context {A K : Type} `{EqDecision K} (key : A -> K).

(** Ids and keys are unique. *)
Definition rows_ok (rows : list (Z * A)) : Prop := NoDup (map fst rows) /\ NoDup (map (fun r => key r.2) rows).

Lemma key_unique rows r r' : rows_ok rows -> r ∈ rows -> r' ∈ rows -> key r.2 = key r'.2 -> r = r'.
Proof.
  intros [_ Hk] [i Hi]%list_elem_of_lookup [j Hj]%list_elem_of_lookup E.
  assert (i = j) as ->; [|congruence].
  eapply NoDup_lookup; [exact Hk|rewrite map_fmap, list_lookup_fmap, Hi; reflexivity|].
  by rewrite map_fmap, list_lookup_fmap, Hj, E.
Qed.

Lemma id_unique rows r r' : rows_ok rows -> r ∈ rows -> r' ∈ rows -> r.1 = r'.1 -> r = r'.
Proof.
  intros [Hk _] [i Hi]%list_elem_of_lookup [j Hj]%list_elem_of_lookup E.
  assert (i = j) as ->; [|congruence].
  eapply NoDup_lookup; [exact Hk|rewrite map_fmap, list_lookup_fmap, Hi; reflexivity|].
  by rewrite map_fmap, list_lookup_fmap, Hj, E.
Qed.

Lemma find_key_some (rows : list (Z * A)) k r :
  List.find (fun r => bool_decide (key r.2 = k)) rows = Some r -> r ∈ rows /\ key r.2 = k.
Proof. intros [Hin Hk]%List.find_some. apply bool_decide_eq_true in Hk. by rewrite list_elem_of_In. Qed.

Lemma find_key_none (rows : list (Z * A)) k r :
  List.find (fun r => bool_decide (key r.2 = k)) rows = None -> r ∈ rows -> key r.2 <> k.
Proof.
  intros Hn Hin%list_elem_of_In E. pose proof (List.find_none _ _ Hn _ Hin) as Hf. simpl in Hf.
  by apply bool_decide_eq_false in Hf.
Qed.

Lemma append_row_ok rows row :
  rows_ok rows -> List.find (fun r => bool_decide (key r.2 = key row)) rows = None ->
  rows_ok (rows ++ [(next_rowid (map fst rows), row)]).
Proof.
  intros [Hi Hk] Hn. split; rewrite map_app; apply NoDup_app; (split_and!; [done| |apply NoDup_singleton]);
    intros x Hx Hy%list_elem_of_singleton; subst x.
  - by apply next_rowid_fresh in Hx.
  - rewrite map_fmap in Hx. apply list_elem_of_fmap in Hx as (r & E & Hr). by eapply find_key_none.
Qed.

Lemma append_row_elem (rows : list (Z * A)) row r :
  List.find (fun r => bool_decide (key r.2 = key row)) rows = None ->
  r ∈ rows ++ [(next_rowid (map fst rows), row)] <->
  r = (next_rowid (map fst rows), row) \/ r ∈ rows /\ key r.2 <> key row.
Proof.
  intros Hn. rewrite elem_of_app, list_elem_of_singleton. split; [|tauto].
  intros [Hr| ->]; [|by left]. right. split; [done|]. by eapply find_key_none.
Qed.

Lemma replace_row_map {B} (f : Z * A -> B) id row rows :
  (forall r, r ∈ rows -> r.1 = id -> f r = f (id, row)) ->
  map f (map (fun r => if r.1 =? id then (id, row) else r) rows) = map f rows.
Proof.
  intros Hf. rewrite map_map. apply map_ext_in. intros r Hr%list_elem_of_In.
  destruct (Z.eqb_spec r.1 id) as [E|]; [symmetry; auto|done].
Qed.

Lemma replace_row_ok id old row rows :
  rows_ok rows -> (id, old) ∈ rows -> key old = key row ->
  rows_ok (map (fun r => if r.1 =? id then (id, row) else r) rows).
Proof.
  intros Hok Hin Hk. unfold rows_ok. rewrite !replace_row_map; [done| |].
  - intros r Hr E. by rewrite (id_unique rows r (id, old)).
  - done.
Qed.

Lemma replace_row_elem id old row rows r :
  rows_ok rows -> (id, old) ∈ rows -> key old = key row ->
  r ∈ map (fun r => if r.1 =? id then (id, row) else r) rows <-> r = (id, row) \/ r ∈ rows /\ key r.2 <> key row.
Proof.
  intros Hok Hin Hk. rewrite map_fmap, list_elem_of_fmap. split.
  - intros (r' & -> & Hr'). destruct (Z.eqb_spec r'.1 id) as [E|E]; [by left|]. right. split; [done|].
    intros E'. apply E. by rewrite (key_unique rows r' (id, old) Hok Hr' Hin) by (simpl; congruence).
  - intros [->|[Hr Hne]]; [exists (id, old); by rewrite Z.eqb_refl|]. exists r. split; [|done].
    destruct (Z.eqb_spec r.1 id) as [E|]; [|done]. exfalso. apply Hne.
    by rewrite (id_unique rows r (id, old) Hok Hr Hin E).
Qed.
End Keyed.

(** ** Values that fit their columns *)

Definition text_ok (s : string) : Prop := c_str s = s.
Definition opt_ok {A} (P : A -> Prop) (o : option A) : Prop := match o with Some x => P x | None => True end.
#[global] Instance text_ok_dec s : Decision (text_ok s).
Proof. unfold text_ok. apply _. Defined.
#[global] Instance opt_ok_dec {A} (P : A -> Prop) `{forall x, Decision (P x)} o : Decision (opt_ok P o).
Proof. destruct o; simpl; apply _. Defined.

Lemma opt_u64_back o : opt_ok (in_u 64) o -> wrap_u 64 <$> (wrap_s 64 <$> o) = o.
Proof. destruct o; simpl; [intros; by rewrite wrap_u_wrap_s|done]. Qed.

Lemma opt_u32_back o : opt_ok (in_u 32) o -> wrap_u 32 <$> o = o.
Proof. destruct o; simpl; [intros; by rewrite wrap_u_id|done]. Qed.

Lemma opt_text_back o : opt_ok text_ok o -> c_str <$> o = o.
Proof. unfold text_ok. destruct o; simpl; congruence. Qed.

Lemma fidelity_back f : fidelity_from_string (fidelity_to_string f) = f.
Proof. by destruct f. Qed.

(** ** Name resolutions are read back *)

Definition name_storable (e : NameResolutionEvidence) : Prop :=
  let o := nv_observation e in
  let p := no_process o in
  in_u 64 (no_started_ns o) /\ in_u 64 (no_completed_ns o) /\ text_ok (no_query_name o) /\ opt_ok text_ok (no_canonical_name o) /\
  text_ok (no_source o) /\ opt_ok (in_u 32) (lpc_uid p) /\ opt_ok (in_u 64) (lpc_start_ticks p) /\ opt_ok text_ok (lpc_comm p) /\
  opt_ok (in_u 64) (no_network_namespace_inode o) /\
  Forall (fun a => text_ok (na_address a) /\ family_of_index (family_index (na_family a)) = na_family a) (no_addresses o).

(** The evidence with other addresses and without what no column holds. *)
Definition recorded (e : NameResolutionEvidence) (addresses : list NameResolutionAddress) : NameResolutionEvidence :=
  let o := nv_observation e in
  let p := no_process o in
  MkNameResolutionEvidence
    (MkNameResolutionObservation (no_started_ns o) (no_completed_ns o) (no_query_kind o) (no_mechanism o)
      (MkLifecycleProcessContext (lpc_agent_visible p) (lpc_kernel p) None (lpc_uid p) (lpc_start_ticks p) (lpc_comm p))
      (no_network_namespace_inode o) (no_query_name o) (no_canonical_name o) addresses (no_result_code o) (no_fidelity o) (no_source o))
    (nv_relation e) (nv_correlation_fidelity e).

Lemma process_ids_eta i : MkLifecycleProcessIds (lpi_pid i) (lpi_tgid i) = i.
Proof. by destruct i. Qed.

Lemma read_bind_name `{Sha256} c e addresses :
  name_storable e ->
  read_name addresses (bind_name c e) =
    recorded e (map (fun a => MkNameResolutionAddress (family_of_index a.1) a.2) addresses).
Proof.
  unfold name_storable, read_name, bind_name, recorded. cbv zeta.
  cbn [nc_started_ns nc_completed_ns nc_query_kind nc_mechanism nc_query_name nc_canonical_name nc_source nc_result_code
    nc_observation_fidelity nc_correlation_fidelity nc_relation nc_agent_pid nc_agent_tgid nc_kernel_pid nc_kernel_tgid nc_uid
    nc_process_start_ticks nc_comm nc_network_namespace_inode].
  intros (H1 & H2 & H3 & H4 & H5 & H6 & H7 & H8 & H9 & _).
  destruct name_text_round_trip as (Hk & Hm & Hr).
  by rewrite !process_ids_eta, Hk, Hm, Hr, !fidelity_back, !wrap_u_wrap_s, !opt_u64_back, opt_u32_back, !opt_text_back, H3, H5.
Qed.

Definition address_row (id : Z) (a : NameResolutionAddress) : Z * Z * string := (id, family_index (na_family a), c_str (na_address a)).

Lemma insert_addresses_elem id l rows r :
  r ∈ fold_left (insert_address id) l rows <-> r ∈ rows \/ r ∈ map (address_row id) l.
Proof.
  revert rows. induction l as [|a l IH]; intros rows; simpl; [set_solver|].
  rewrite IH, elem_of_cons. unfold insert_address. cbv zeta. fold (address_row id a). case_bool_decide; set_solver.
Qed.

Lemma insert_addresses_nodup id l rows : NoDup rows -> NoDup (fold_left (insert_address id) l rows).
Proof.
  revert rows. induction l as [|a l IH]; intros rows Hr; simpl; [done|]. apply IH. unfold insert_address. cbv zeta.
  case_bool_decide; [done|]. apply NoDup_app. split_and!; [done| |apply NoDup_singleton]. set_solver.
Qed.

Lemma insert_addresses_other id id' l rows :
  id <> id' -> filter (fun a : Z * Z * string => a.1.1 = id') (fold_left (insert_address id) l rows) = filter (fun a => a.1.1 = id') rows.
Proof.
  intros Hne. revert rows. induction l as [|a l IH]; intros rows; simpl; [done|]. rewrite IH. unfold insert_address. cbv zeta.
  case_bool_decide; [done|]. rewrite filter_app, filter_cons_False, filter_nil; [by rewrite app_nil_r|done].
Qed.

#[global] Instance address_before_total : Total address_before.
Proof.
  intros [f a] [g b]. unfold address_before. simpl.
  destruct (Z.lt_total f g) as [|[->|]]; [tauto| |tauto]. destruct (total String.le a b); tauto.
Qed.

(** The constraints of the two tables: ids and keys are unique, no address is stored twice, and every
    address belongs to evidence that is stored. *)
Definition tables_ok (t : NameTables) : Prop :=
  rows_ok name_key (nt_evidence t) /\ NoDup (nt_addresses t) /\
  (forall a, a ∈ nt_addresses t -> a.1.1 ∈ map fst (nt_evidence t)).

Definition address_sorted (l : list NameResolutionAddress) : Prop :=
  Sorted (fun a b => address_before (family_index (na_family a), na_address a) (family_index (na_family b), na_address b)) l.

Lemma sorted_map_iff {A B} (R : B -> B -> Prop) (S : A -> A -> Prop) (f : A -> B) l :
  (forall a b, a ∈ l -> b ∈ l -> S a b -> R (f a) (f b)) -> Sorted S l -> Sorted R (map f l).
Proof.
  intros Hf. induction 1 as [|a l Hs IH Hh]; simpl; constructor.
  - apply IH. set_solver.
  - destruct Hh as [|b l Hab]; simpl; constructor. apply Hf; set_solver.
Qed.

Definition address_of_row (a : Z * string) : NameResolutionAddress := MkNameResolutionAddress (family_of_index a.1) a.2.
Definition row_of_address (a : NameResolutionAddress) : Z * string := (family_index (na_family a), na_address a).

(** The addresses read back for the id under which [l] was stored. *)
Lemma addresses_read_back id l rows :
  Forall (fun a => text_ok (na_address a) /\ family_of_index (family_index (na_family a)) = na_family a) l ->
  NoDup rows -> (forall a, a ∈ rows -> a.1.1 <> id) ->
  let back := map address_of_row (addresses_for id (fold_left (insert_address id) l rows)) in
  address_sorted back /\ NoDup back /\ forall a, a ∈ back <-> a ∈ l.
Proof.
  intros Hl Hn Hid back. rewrite Forall_forall in Hl.
  assert (Hrow : forall a, a ∈ l -> address_of_row (row_of_address a) = a).
  { intros [f s] Ha. specialize (Hl _ Ha). unfold address_of_row, row_of_address. simpl in *. by destruct Hl as [_ ->]. }
  set (sorted := addresses_for _ _) in back.
  assert (Hel : forall x, x ∈ sorted <-> x ∈ map row_of_address l).
  { intros x. unfold sorted, addresses_for. rewrite merge_sort_Permutation, !map_fmap, !list_elem_of_fmap. split.
    - intros (r & -> & [Hr Hin]%list_elem_of_filter). apply insert_addresses_elem in Hin as [Hin|Hin]; [by apply Hid in Hin|].
      rewrite map_fmap in Hin. apply list_elem_of_fmap in Hin as (a & -> & Ha). exists a. split; [|done].
      unfold address_row, row_of_address. simpl. by rewrite (proj1 (Hl _ Ha)).
    - intros (a & -> & Ha). exists (address_row id a). split.
      + unfold address_row, row_of_address. simpl. by rewrite (proj1 (Hl _ Ha)).
      + apply list_elem_of_filter. split; [done|]. apply insert_addresses_elem. right. rewrite map_fmap. by apply list_elem_of_fmap_2. }
  assert (Hback : forall x, x ∈ sorted -> row_of_address (address_of_row x) = x).
  { intros x Hx. apply Hel in Hx. rewrite map_fmap in Hx. apply list_elem_of_fmap in Hx as (a & -> & Ha). by rewrite Hrow. }
  assert (Hnd : NoDup sorted).
  { unfold sorted, addresses_for. rewrite merge_sort_Permutation, map_fmap. apply NoDup_fmap_2_strong.
    - intros [[i f] s] [[i' f'] s'] [Hi _]%list_elem_of_filter [Hi' _]%list_elem_of_filter. simpl in *. congruence.
    - by apply NoDup_filter, insert_addresses_nodup. }
  split_and!.
  - eapply (sorted_map_iff _ address_before); [|apply Sorted_merge_sort, _].
    intros a b Ha Hb. change (address_before a b -> address_before (row_of_address (address_of_row a)) (row_of_address (address_of_row b))).
    by rewrite !Hback.
  - unfold back. rewrite map_fmap. apply NoDup_fmap_2_strong; [|done]. intros x y Hx Hy E. by rewrite <- (Hback x), <- (Hback y), E.
  - intros a. unfold back. rewrite map_fmap, list_elem_of_fmap. split.
    + intros (x & -> & Hx). apply Hel in Hx. rewrite map_fmap in Hx. apply list_elem_of_fmap in Hx as (b & -> & Hb). by rewrite Hrow.
    + intros Ha. exists (row_of_address a). rewrite Hrow by done. split; [done|]. apply Hel. rewrite map_fmap. by apply list_elem_of_fmap_2.
Qed.

Lemma recorded_hash `{Sha256} e l : l ≡ₚ no_addresses (nv_observation e) ->
  name_resolution_evidence_hash (recorded e l) = name_resolution_evidence_hash e.
Proof.
  intros Hp. unfold name_resolution_evidence_hash, evidence_material, recorded.
  cbn [nv_observation nv_relation nv_correlation_fidelity no_process no_started_ns no_completed_ns no_query_name no_canonical_name no_source
    no_query_kind no_mechanism no_result_code no_fidelity no_network_namespace_inode no_addresses lpc_agent_visible lpc_kernel lpc_uid
    lpc_start_ticks lpc_comm].
  do 2 f_equal. apply sort_strings_perm. by rewrite Hp.
Qed.

Lemma upsert_name_ok known row rows :
  rows_ok name_key rows -> known (nc_connection_id row) = true ->
  exists id rows', upsert_name known row rows = Ok (id, rows') /\ rows_ok name_key rows' /\
    (forall r, r ∈ rows' <-> r = (id, row) \/ r ∈ rows /\ name_key r.2 <> name_key row) /\
    (forall r, r ∈ rows -> r.1 = id -> name_key r.2 = name_key row) /\
    (forall x, x ∈ map fst rows -> x ∈ map fst rows') /\
    (forall c, c <> nc_connection_id row ->
       filter (fun r => nc_connection_id r.2 = c) rows' = filter (fun r => nc_connection_id r.2 = c) rows).
Proof.
  intros Hok Hknown. unfold upsert_name. destruct (List.find _ _) as [[id old]|] eqn:Hf.
  - apply find_key_some in Hf as [Hin Hk]. simpl in Hk. exists id. eexists. split; [reflexivity|]. split_and!.
    + by eapply replace_row_ok.
    + intros r. by eapply replace_row_elem.
    + intros r Hr E. by rewrite (id_unique name_key rows r (id, old) Hok Hr Hin E).
    + by rewrite replace_row_map.
    + intros c Hc. assert (Hall : forall r, r ∈ rows -> r.1 = id -> nc_connection_id r.2 = nc_connection_id row).
      { intros r Hr E. rewrite (id_unique name_key rows r (id, old) Hok Hr Hin E). unfold name_key in Hk. simpl. congruence. }
      clear Hok Hin Hk. induction rows as [|r rows IH]; [done|]. simpl. rewrite !filter_cons, IH by set_solver.
      destruct (Z.eqb_spec r.1 id) as [E|]; [|done]. rewrite (Hall r) by (done || set_solver). by rewrite !decide_False.
  - rewrite Hknown. do 2 eexists. split; [reflexivity|]. split_and!.
    + by apply append_row_ok.
    + intros r. by apply append_row_elem.
    + intros r Hr E. exfalso. apply (next_rowid_fresh (map fst rows)). rewrite <- E at 1. rewrite map_fmap. by apply list_elem_of_fmap_2.
    + intros x Hx. rewrite map_app, elem_of_app. by left.
    + intros c Hc. rewrite filter_app, filter_cons_False, filter_nil, app_nil_r; [done|]. simpl. congruence.
Qed.

Lemma name_rows_elem c t x :
  x ∈ name_resolution_evidence_for_connection c t <->
  exists r, r ∈ nt_evidence t /\ nc_connection_id r.2 = c /\ x = read_name (addresses_for r.1 (nt_addresses t)) r.2.
Proof.
  unfold name_resolution_evidence_for_connection. rewrite map_fmap, list_elem_of_fmap. split.
  - intros (r & -> & Hr). rewrite merge_sort_Permutation in Hr. apply list_elem_of_filter in Hr as [? ?]. by exists r.
  - intros (r & Hr & Hc & ->). exists r. split; [done|]. rewrite merge_sort_Permutation. by apply list_elem_of_filter.
Qed.

Lemma filter_twice (P Q : Z * Z * string -> Prop) `{!forall x, Decision (P x), !forall x, Decision (Q x)} (l : list (Z * Z * string)) :
  (forall x, P x -> Q x) -> filter P (filter Q l) = filter P l.
Proof.
  intros HPQ. rewrite list_filter_filter. apply list_filter_iff. naive_solver.
Qed.

(** Name evidence that is stored is read back: the same record with its addresses sorted and without repetitions, which has the same hash if
    no address was repeated; evidence with the same key is replaced, and the evidence of other connections is read as before. *)
Theorem name_evidence_round_trip `{Sha256} known c e t :
  tables_ok t -> name_storable e -> known c = true ->
  exists id t' addresses, add_name_resolution_evidence known c e t = Ok (id, t') /\ tables_ok t' /\
    address_sorted addresses /\ NoDup addresses /\ (forall a, a ∈ addresses <-> a ∈ no_addresses (nv_observation e)) /\
    (NoDup (no_addresses (nv_observation e)) ->
       name_resolution_evidence_hash (recorded e addresses) = name_resolution_evidence_hash e) /\
    (forall x, x ∈ name_resolution_evidence_for_connection c t' <->
       x = recorded e addresses \/
       exists r, r ∈ nt_evidence t /\ nc_connection_id r.2 = c /\ name_key r.2 <> name_key (bind_name c e) /\
         x = read_name (addresses_for r.1 (nt_addresses t)) r.2) /\
    (forall c', c' <> c -> name_resolution_evidence_for_connection c' t' = name_resolution_evidence_for_connection c' t).
Proof.
  intros (Hok & Hnd & Hfk) Hs Hknown.
  destruct (upsert_name_ok known (bind_name c e) (nt_evidence t) Hok Hknown) as (id & rows' & Hu & Hok' & Hel & Hid & Hsub & Hother).
  unfold add_name_resolution_evidence. rewrite Hu. simpl rbind. cbv zeta.
  set (cleared := filter _ (nt_addresses t)). set (addrs := fold_left _ _ cleared).
  assert (Hcl : forall a, a ∈ cleared -> a.1.1 <> id) by (by intros a [Ha _]%list_elem_of_filter).
  assert (Hsame : forall id', id' <> id -> addresses_for id' addrs = addresses_for id' (nt_addresses t)).
  { intros id' Hne. unfold addresses_for, addrs. rewrite insert_addresses_other by congruence. unfold cleared.
    rewrite filter_twice; [done|]. intros x ->. done. }
  destruct (addresses_read_back id (no_addresses (nv_observation e)) cleared) as (Hsort & Hback & Hback').
  { apply Hs. } { by apply NoDup_filter. } { done. }
  do 3 eexists. split; [reflexivity|]. split_and!.
  - split_and!; [done|by apply insert_addresses_nodup, NoDup_filter|]. intros a Ha. simpl in *.
    apply insert_addresses_elem in Ha as [Ha|Ha].
    + apply Hsub, Hfk. by apply list_elem_of_filter in Ha as [_ ?].
    + rewrite map_fmap in Ha. apply list_elem_of_fmap in Ha as (b & -> & _). simpl.
      change id with (id, bind_name c e).1. rewrite map_fmap. apply list_elem_of_fmap_2, Hel. by left.
  - exact Hsort.
  - exact Hback.
  - exact Hback'.
  - intros Hn. apply recorded_hash, NoDup_Permutation; done.
  - intros x. rewrite name_rows_elem. simpl. fold addrs. split.
    + intros (r & Hr & Hc & ->). apply Hel in Hr as [->|[Hr Hk]]; [left; by apply read_bind_name|].
      right. exists r. split_and!; try done. rewrite Hsame; [done|]. intros E. by apply Hk, Hid.
    + intros [->|(r & Hr & Hc & Hk & ->)].
      * exists (id, bind_name c e). split_and!; [apply Hel; by left|done|]. symmetry. by apply read_bind_name.
      * exists r. split_and!; [apply Hel; by right|done|]. rewrite Hsame; [done|]. intros E. by apply Hk, Hid.
  - intros c' Hc. unfold name_resolution_evidence_for_connection. simpl. rewrite Hother by done. fold addrs.
    rewrite !map_fmap. apply list_fmap_ext. intros i r Hr%list_elem_of_lookup_2. rewrite merge_sort_Permutation in Hr.
    apply list_elem_of_filter in Hr as [Hc' Hr]. rewrite Hsame; [done|]. intros E. apply Hc. rewrite <- Hc'.
    pose proof (Hid _ Hr E) as Hk. unfold name_key in Hk. simpl in Hk. congruence.
Qed.

(** Evidence for a connection that does not exist is refused, unless the key is already there, which the
    foreign key excludes. *)
Lemma name_evidence_unknown_connection `{Sha256} known c e t :
  known c = false -> (forall r, r ∈ nt_evidence t -> nc_connection_id r.2 <> c) ->
  add_name_resolution_evidence known c e t = Throw "FOREIGN KEY constraint failed".
Proof.
  intros Hk Hr. unfold add_name_resolution_evidence, upsert_name.
  destruct (List.find _ _) as [[id old]|] eqn:Hf; [|simpl; by rewrite Hk].
  apply find_key_some in Hf as [Hin E]. exfalso. apply (Hr _ Hin). unfold name_key in E. simpl in *. congruence.
Qed.

(** ** TLS sessions are read back *)

Definition tls_storable (e : TlsSessionEvidence) : Prop :=
  let o := tv_observation e in
  let p := to_process o in
  in_u 64 (to_observed_ns o) /\ text_ok (to_source o) /\ in_u 32 (pi_uid p) /\ opt_ok (in_u 64) (pi_start_ticks p) /\ text_ok (pi_comm p) /\
  opt_ok (in_u 64) (to_network_namespace_inode o) /\ opt_ok (in_u 64) (to_socket_cookie o) /\ text_ok (te_address (to_local o)) /\
  in_u 16 (te_port (to_local o)) /\ text_ok (te_address (to_remote o)) /\ in_u 16 (te_port (to_remote o)) /\ text_ok (to_tls_version o) /\
  text_ok (to_cipher o) /\ text_ok (to_sni o) /\ opt_ok text_ok (to_expected_peer_name o) /\ opt_ok text_ok (to_matched_peer_name o) /\
  text_ok (to_leaf_sha256 o) /\ text_ok (to_spki_sha256 o) /\ text_ok (to_subject o) /\ text_ok (to_issuer o) /\
  text_ok (to_not_before o) /\ text_ok (to_not_after o).

(** The evidence without the path of the executable, which no column holds. *)
Definition without_path (e : TlsSessionEvidence) : TlsSessionEvidence :=
  let o := tv_observation e in
  let p := to_process o in
  MkTlsSessionEvidence
    (MkTlsSessionObservation (to_observed_ns o) (to_local_role o)
      (MkProcessIdentity (pi_pid p) (pi_uid p) (pi_start_ticks p) (pi_comm p) "") (to_network_namespace_inode o) (to_socket_cookie o)
      (to_local o) (to_remote o) (to_tls_version o) (to_cipher o) (to_alpn o) (to_sni o) (to_expected_peer_name o) (to_matched_peer_name o)
      (to_peer_certificate_present o) (to_peer_verification_required o) (to_verify_result o) (to_peer_authenticated o) (to_leaf_sha256 o)
      (to_spki_sha256 o) (to_subject o) (to_issuer o) (to_not_before o) (to_not_after o) (to_fidelity o) (to_source o))
    (tv_relation e) (tv_correlation_fidelity e).

Lemma endpoint_eta p : MkTlsSessionEndpoint (te_address p) (te_port p) = p.
Proof. by destruct p. Qed.

Lemma read_bind_tls `{Sha256} c e : tls_storable e -> read_tls (bind_tls c e) = without_path e.
Proof.
  unfold tls_storable, read_tls, bind_tls, without_path. cbv zeta.
  cbn [tc_observed_ns tc_local_role tc_relation tc_source tc_observation_fidelity tc_correlation_fidelity tc_pid tc_uid tc_process_start_ticks
    tc_comm tc_network_namespace_inode tc_socket_cookie tc_local_address tc_local_port tc_remote_address tc_remote_port tc_tls_version tc_cipher
    tc_alpn tc_sni tc_expected_peer_name tc_matched_peer_name tc_peer_certificate_present tc_peer_verification_required tc_verify_result
    tc_peer_authenticated tc_leaf_sha256 tc_spki_sha256 tc_subject tc_issuer tc_not_before tc_not_after].
  unfold text_ok at 1 2 3 4 5 6 7 10 11 12 13 14 15.
  intros (H1 & H2 & H3 & H4 & H5 & H6 & H7 & H8 & H9 & H10 & H11 & H12 & H13 & H14 & H15 & H16 & H17 & H18 & H19 & H20 & H21 & H22).
  destruct tls_text_round_trip as (Hr & Hl).
  rewrite Hr, Hl, !fidelity_back, wrap_u_wrap_s, !opt_u64_back, !opt_text_back, !wrap_u_id by done.
  by rewrite H2, H5, H8, H10, H12, H13, H14, H17, H18, H19, H20, H21, H22, !endpoint_eta.
Qed.

Lemma find_past {A} (f : A -> bool) l l' :
  List.find f (l ++ l') = match List.find f l with Some x => Some x | None => List.find f l' end.
Proof. induction l as [|x l IH]; simpl; [done|]. by destruct (f x). Qed.

Lemma without_path_hash `{Sha256} e : tls_session_evidence_hash (without_path e) = tls_session_evidence_hash e.
Proof. reflexivity. Qed.

Lemma tls_rows_elem c rows x :
  x ∈ tls_session_evidence_for_connection c rows <-> exists r, r ∈ rows /\ tc_connection_id r.2 = c /\ x = read_tls r.2.
Proof.
  unfold tls_session_evidence_for_connection. rewrite map_fmap, list_elem_of_fmap. split.
  - intros (r & -> & Hr). rewrite merge_sort_Permutation in Hr. apply list_elem_of_filter in Hr as [? ?]. by exists r.
  - intros (r & Hr & Hc & ->). exists r. split; [done|]. rewrite merge_sort_Permutation. by apply list_elem_of_filter.
Qed.

(** TLS session evidence that is stored is read back, but for the path of the executable; a session that is already known changes nothing,
    and the evidence of other connections is read as before. *)
Theorem tls_evidence_round_trip `{Sha256} known c e rows :
  rows_ok tls_key rows -> tls_storable e -> known c = true ->
  exists id rows', add_tls_session_evidence known c e rows = Ok (id, rows') /\ rows_ok tls_key rows' /\
    add_tls_session_evidence known c e rows' = Ok (id, rows') /\
    tls_session_evidence_hash (without_path e) = tls_session_evidence_hash e /\
    (forall x, x ∈ tls_session_evidence_for_connection c rows' <->
       x ∈ tls_session_evidence_for_connection c rows \/
       x = without_path e /\ forall r, r ∈ rows -> tls_key r.2 <> (c, tls_session_identity_key (tv_observation e))) /\
    (forall c', c' <> c -> tls_session_evidence_for_connection c' rows' = tls_session_evidence_for_connection c' rows).
Proof.
  intros Hok Hs Hknown. unfold add_tls_session_evidence. cbv zeta.
  destruct (List.find _ rows) as [[id old]|] eqn:Hf.
  - exists id, rows. rewrite Hf. apply find_key_some in Hf as [Hin Hk]. split_and!; try done.
    intros x. split; [by left|]. intros [Hx|[_ Hno]]; [done|]. by destruct (Hno _ Hin).
  - rewrite Hknown. set (id := next_rowid _). exists id, (rows ++ [(id, bind_tls c e)]).
    assert (Hf' : List.find (fun r => bool_decide (tls_key r.2 = tls_key (bind_tls c e))) (rows ++ [(id, bind_tls c e)]) =
      Some (id, bind_tls c e)) by (rewrite find_past, Hf; simpl; by rewrite bool_decide_true).
    rewrite Hf'. split_and!; try done.
    + by apply append_row_ok.
    + intros x. rewrite !tls_rows_elem. split.
      * intros (r & Hr & Hc & ->). apply (append_row_elem tls_key rows (bind_tls c e) r Hf) in Hr as [->|[Hr Hk]].
        -- right. split; [by apply read_bind_tls|]. intros r Hr E. by apply (find_key_none _ _ _ _ Hf Hr).
        -- left. by exists r.
      * intros [(r & Hr & Hc & ->)|[-> _]]; [exists r; set_solver|]. exists (id, bind_tls c e).
        split_and!; [set_solver|done|]. symmetry. by apply read_bind_tls.
    + intros c' Hc. unfold tls_session_evidence_for_connection.
      rewrite filter_app, filter_cons_False, filter_nil, app_nil_r; [done|]. simpl. congruence.
Qed.

(** ** Witnesses *)

#[global] Instance name_storable_dec e : Decision (name_storable e).
Proof. unfold name_storable. cbv zeta. apply _. Defined.
#[global] Instance tls_storable_dec e : Decision (tls_storable e).
Proof. unfold tls_storable. cbv zeta. apply _. Defined.

Definition no_names : NameTables := MkNameTables [] [].

Lemma name_evidence_round_trip_witness :
  exists id t' addresses, add_name_resolution_evidence (H := sum_digest) (fun _ => true) 3 sample_evidence no_names = Ok (id, t') /\
    recorded sample_evidence addresses ∈ name_resolution_evidence_for_connection 3 t'.
Proof.
  destruct (name_evidence_round_trip (H := sum_digest) (fun _ => true) 3 sample_evidence no_names)
    as (id & t' & l & E & _ & _ & _ & _ & _ & Hel & _).
  - split_and!; [split; constructor|constructor|]. intros a Ha. by apply not_elem_of_nil in Ha.
  - apply (bool_decide_unpack _). vm_compute. exact I.
  - reflexivity.
  - exists id, t', l. split; [exact E|]. apply Hel. left. reflexivity.
Defined.

Definition sample_tls_evidence : TlsSessionEvidence := MkTlsSessionEvidence sample_session OutboundServerIdentity Exact.

Lemma tls_evidence_round_trip_witness :
  exists id rows, add_tls_session_evidence (H := sum_digest) (fun _ => true) 3 sample_tls_evidence [] = Ok (id, rows) /\
    without_path sample_tls_evidence ∈ tls_session_evidence_for_connection 3 rows.
Proof.
  destruct (tls_evidence_round_trip (H := sum_digest) (fun _ => true) 3 sample_tls_evidence []) as (id & rows & E & _ & _ & _ & Hel & _).
  - split; constructor.
  - apply (bool_decide_unpack _). vm_compute. exact I.
  - reflexivity.
  - exists id, rows. split; [exact E|]. apply Hel. right. split; [reflexivity|]. intros r Hr. by apply not_elem_of_nil in Hr.
Defined.

(** A resolution that returned an address twice, as [getaddrinfo] does for several socket types: the hash
    that is stored covers both, the evidence that is read back holds one, and its hash is another. *)
Definition repeated_evidence : NameResolutionEvidence :=
  recorded sample_evidence [MkNameResolutionAddress IPv4 "10.0.0.2"; MkNameResolutionAddress IPv4 "10.0.0.2"].

Lemma repeated_address_changes_hash :
  match add_name_resolution_evidence (H := sum_digest) (fun _ => true) 3 repeated_evidence no_names with
  | Ok (_, t) =>
      map (fun r => nc_sha256 r.2) (nt_evidence t) = [name_resolution_evidence_hash (H := sum_digest) repeated_evidence] /\
      map (name_resolution_evidence_hash (H := sum_digest)) (name_resolution_evidence_for_connection 3 t) <>
        map (fun r => nc_sha256 r.2) (nt_evidence t)
  | Throw _ => False
  end.
Proof. vm_compute. split; [reflexivity|discriminate]. Qed.
