(* ===== verification/HistoryRecords.v ===== *)
(** The rest of the history database ([src/core/history_store.cpp]): routes, TLS observations, baselines
    and verdicts, the columns of a connection that a verdict sets, and everything that is read back.

    [HistoryDb] is [History.HistoryStore] with these tables; here the foreign keys are checked, so that
    writing about a connection that is gone throws.  A row holds the values as they are bound: texts end at
    their first NUL, unsigned 64-bit numbers are signed, enumerations are texts.  What a query orders by a
    time alone is ordered by the time and then by the row, and databases that an older version created are
    not considered.

    [db_ok] is what the schema and the code keep true: rows refer to rows that exist and keys are unique.  The
    theorems: every operation keeps it ([db_step_ok]); an assessment whose saving returned is what every
    reader sees ([verdict_read_everywhere]), one whose saving failed half way is not ([torn_verdict]); the
    baseline in force is the newest that was saved ([baseline_for_newest], [save_baseline_in_force]); an event
    is read back as it was but for two fields and its provenance ([lifecycle_event_round_trip]). *)

From stdpp Require Import sorting.
From S2P Require Import Prelude Text Wire Doubles Crypto Model History NameResolution TlsSession Verdict HistoryEvidence.

#[local] Arguments String.append !_ _ /.

(** ** Tables *)

Record VerdictRow := MkVerdictRow {
  vr_performance_state : string; vr_trust_state : string; vr_performance_hypothesis : string; vr_trust_hypothesis : string;
  vr_rule_confidence : spec_float; vr_rule_set_version : string; vr_rule_set_hash : string; vr_baseline_hash : string;
  vr_input_hash : string; vr_tls_observation_id : option Z }.

Record RouteRow := MkRouteRow {
  rt_connection_id : Z; rt_observed_ns : Z; rt_destination : string; rt_source : string; rt_gateway : string;
  rt_interface_name : string; rt_interface_index : Z; rt_sha256 : string; rt_relation : string }.

(** [db_states] has the columns [performance_state] and [trust_state] of the connections. *)
Record HistoryDb := MkHistoryDb {
  db_store : HistoryStore;
  db_states : gmap Z (string * string);
  db_routes : list (Z * RouteRow);
  db_tls : list (Z * TlsObservation);
  db_baselines : list (Z * Baseline);
  db_verdicts : gmap Z VerdictRow }.

Definition with_store (f : HistoryStore -> HistoryStore) (d : HistoryDb) : HistoryDb :=
  MkHistoryDb (f (db_store d)) (db_states d) (db_routes d) (db_tls d) (db_baselines d) (db_verdicts d).

Definition has_connection (d : HistoryDb) (id : Z) : bool := bool_decide (is_Some (hs_connections (db_store d) !! id)).
Definition has_tls (d : HistoryDb) (id : Z) : bool := bool_decide (id ∈ map fst (db_tls d)).

(** ** Connections *)

(** The connection is inserted with the default states, which it keeps when the link to the pending TLS
    observation fails. *)
Definition db_begin_connection (socket : SocketObservation) (process : option ProcessIdentity) (target_host : string)
    (first_seen_ns : Z) (direction : ConnectionDirection) (d : HistoryDb) : result Z * HistoryDb :=
  let '(r, s) := store_begin_connection (has_tls d) socket process target_host first_seen_ns direction (db_store d) in
  let id := next_rowid (elements (dom (hs_connections (db_store d)))) in
  (r, MkHistoryDb s (<[id := ("INSUFFICIENT_EVIDENCE", "UNVERIFIED")]> (db_states d)) (db_routes d) (db_tls d) (db_baselines d) (db_verdicts d)).

Definition db_touch_connection (id last_seen_ns : Z) (lifecycle_state : string) : HistoryDb -> HistoryDb :=
  with_store (store_touch_connection id last_seen_ns lifecycle_state).

Definition db_update_socket_cookie (id cookie : Z) (d : HistoryDb) : bool * HistoryDb :=
  let (changed, s) := store_update_socket_cookie id cookie (db_store d) in (changed, with_store (fun _ => s) d).

Definition db_promote_direction (id : Z) (direction : ConnectionDirection) (d : HistoryDb) : bool * HistoryDb :=
  let (changed, s) := store_promote_direction id direction (db_store d) in (changed, with_store (fun _ => s) d).

Definition db_add_tcp_sample `{Sha256} (id : Z) (sample : TcpSnapshot) (d : HistoryDb) : result HistoryDb :=
  let? s := store_add_tcp_sample id sample (db_store d) in Ok (with_store (fun _ => s) d).

Definition db_add_lifecycle_event (id : Z) (event : ConnectionLifecycleEvent) (d : HistoryDb) : result HistoryDb :=
  let? s := store_add_lifecycle_event id event (db_store d) in Ok (with_store (fun _ => s) d).

(** ** Routes, TLS observations, baselines and verdicts *)

Definition bind_route (connection_id : Z) (r : RouteObservation) : RouteRow :=
  MkRouteRow connection_id (wrap_s 64 (ro_observed_ns r)) (c_str (ro_destination r)) (c_str (ro_source r)) (c_str (ro_gateway r))
    (c_str (ro_interface_name r)) (ro_interface_index r) (c_str (ro_sha256 r)) (route_relation_to_string (ro_relation r)).

(** [INSERT OR REPLACE] under [UNIQUE(connection_id)]: the new id is chosen before the old row goes. *)
Definition add_route (connection_id : Z) (r : RouteObservation) (d : HistoryDb) : result (Z * HistoryDb) :=
  if has_connection d connection_id then
    let id := next_rowid (map fst (db_routes d)) in
    Ok (id, MkHistoryDb (db_store d) (db_states d)
      (filter (fun r => rt_connection_id r.2 <> connection_id) (db_routes d) ++ [(id, bind_route connection_id r)])
      (db_tls d) (db_baselines d) (db_verdicts d))
  else Throw foreign_key_failed.

Definition bind_tls_observation (t : TlsObservation) : TlsObservation :=
  MkTlsObservation (c_str (tl_target_host t)) (tl_target_port t) (wrap_s 64 (tl_observed_ns t)) (c_str (tl_tls_version t)) (c_str (tl_cipher t))
    (c_str (tl_alpn t)) (c_str (tl_leaf_sha256 t)) (c_str (tl_spki_sha256 t)) (c_str (tl_subject t)) (c_str (tl_issuer t))
    (c_str (tl_not_before t)) (c_str (tl_not_after t)) (tl_chain_valid t) (tl_hostname_valid t) (c_str (tl_sha256 t)).

Definition set_pending (p : option (Z * string * Z)) (s : HistoryStore) : HistoryStore :=
  MkHistoryStore (hs_processes s) (hs_connections s) (hs_lifecycle_events s) (hs_transport_samples s) (hs_tls_links s) p (hs_capture_now_ns s).

Definition add_tls (t : TlsObservation) (d : HistoryDb) : Z * HistoryDb :=
  let id := next_rowid (map fst (db_tls d)) in
  (id, MkHistoryDb (set_pending (Some (id, tl_target_host t, tl_target_port t)) (db_store d)) (db_states d) (db_routes d)
         (db_tls d ++ [(id, bind_tls_observation t)]) (db_baselines d) (db_verdicts d)).

Definition set_links (f : gmap Z Z -> gmap Z Z) (s : HistoryStore) : HistoryStore :=
  MkHistoryStore (hs_processes s) (hs_connections s) (hs_lifecycle_events s) (hs_transport_samples s) (f (hs_tls_links s)) (hs_pending_tls s)
    (hs_capture_now_ns s).

Definition link_tls_observation (connection_id tls_id : Z) (d : HistoryDb) : result HistoryDb :=
  if has_connection d connection_id && has_tls d tls_id then Ok (with_store (set_links (insert connection_id tls_id)) d)
  else Throw foreign_key_failed.

Definition bind_baseline (b : Baseline) : Baseline :=
  MkBaseline (c_str (bl_target_host b)) (bl_target_port b) (wrap_s 64 (bl_rtt_median_us b)) (wrap_s 64 (bl_rttvar_median_us b))
    (c_str (bl_accepted_spki_sha256 b)) (c_str (bl_accepted_issuer b)) (wrap_s 64 (bl_sample_count b)) (wrap_s 64 (bl_created_ns b))
    (c_str (bl_sha256 b)).

(** [INSERT OR IGNORE] under [sha256 TEXT NOT NULL UNIQUE]. *)
Definition save_baseline (b : Baseline) (d : HistoryDb) : HistoryDb :=
  let row := bind_baseline b in
  match List.find (fun r => bool_decide (bl_sha256 r.2 = bl_sha256 row)) (db_baselines d) with
  | Some _ => d
  | None => MkHistoryDb (db_store d) (db_states d) (db_routes d) (db_tls d)
              (db_baselines d ++ [(next_rowid (map fst (db_baselines d)), row)]) (db_verdicts d)
  end.

(** SQLite keeps a real without fraction as an integer, which has no negative zero, and a NaN as [NULL]. *)
Definition bind_real (x : spec_float) : option spec_float :=
  match x with
  | S754_nan => None
  | S754_zero _ => Some (S754_zero false)
  | _ => Some x
  end.

Definition bind_verdict (v : AssuranceVerdict) (confidence : spec_float) (tls_id : option Z) : VerdictRow :=
  MkVerdictRow (performance_to_string (av_performance v)) (trust_to_string (av_trust v)) (c_str (av_performance_hypothesis v))
    (c_str (av_trust_hypothesis v)) confidence (c_str (av_rule_set_version v)) (c_str (av_rule_set_hash v)) (c_str (av_baseline_hash v))
    (c_str (av_input_hash v)) tls_id.

(** The first statement of [save_verdict]: the verdict of the connection is inserted or replaced. *)
Definition insert_verdict (connection_id : Z) (v : AssuranceVerdict) (tls_id : option Z) (d : HistoryDb) : result HistoryDb :=
  match bind_real (av_rule_confidence v) with
  | None => Throw "NOT NULL constraint failed: verdicts.rule_confidence"
  | Some confidence =>
      if has_connection d connection_id && (match tls_id with Some id => has_tls d id | None => true end) then
        Ok (MkHistoryDb (db_store d) (db_states d) (db_routes d) (db_tls d) (db_baselines d)
              (<[connection_id := bind_verdict v confidence tls_id]> (db_verdicts d)))
      else Throw foreign_key_failed
  end.

(** The second one: the states of the connection, if it is there. *)
Definition update_states (connection_id : Z) (v : AssuranceVerdict) (d : HistoryDb) : HistoryDb :=
  MkHistoryDb (db_store d) (alter (fun _ => (performance_to_string (av_performance v), trust_to_string (av_trust v))) connection_id (db_states d))
    (db_routes d) (db_tls d) (db_baselines d) (db_verdicts d).

(** The two statements are not in a transaction: the second may fail by itself ([failed]: a full disk, a
    locked file), and a program that ends between them or a reader that comes between them finds what such a
    failure leaves. *)
Definition save_verdict (connection_id : Z) (v : AssuranceVerdict) (tls_id : option Z) (failed : option string) (d : HistoryDb) :
    result unit * HistoryDb :=
  match insert_verdict connection_id v tls_id d with
  | Throw error => (Throw error, d)
  | Ok d =>
      match failed with
      | Some error => (Throw error, d)
      | None => (Ok tt, update_states connection_id v d)
      end
  end.

(** ** Reading *)

(** [LIMIT n], which has no effect when it is negative. *)
Definition sql_limit {A} (n : Z) (l : list A) : list A :=
  if n <? 0 then l else take (Z.to_nat (Z.min n (Z.of_nat (length l)))) l.

(** Rows in the order of a time, those of the same time in the order in which they were inserted. *)
Definition order_by {A} (time : A -> Z) (l : list A) : list A :=
  map snd (merge_sort (row_before time) (imap (fun i x => (Z.of_nat i, x)) l)).

Definition process_of_row (d : HistoryDb) (process_id : option Z) : ProcessIdentity :=
  match process_id with
  | Some id =>
      match List.find (fun p => pr_id p =? id) (hs_processes (db_store d)) with
      | Some p => MkProcessIdentity (pr_pid p) (wrap_u 32 (pr_uid p)) (wrap_u 64 <$> pr_start_ticks_observed p) (pr_comm p) (pr_executable_path p)
      | None => MkProcessIdentity (-1) 0 None "" ""
      end
  | None => MkProcessIdentity (-1) 0 None "" ""
  end.

Definition states_of (d : HistoryDb) (id : Z) : string * string := default ("INSUFFICIENT_EVIDENCE", "UNVERIFIED") (db_states d !! id).

Definition summary_of (d : HistoryDb) (id : Z) (r : ConnectionRow) : ConnectionSummary :=
  let states := states_of d id in
  MkConnectionSummary id (wrap_u 64 (cr_first_seen_ns r)) (wrap_u 64 (cr_last_seen_ns r)) (Some (wrap_u 64 (cr_captured_at_ns r)))
    (cr_direction r) (wrap_u 64 (cr_socket_cookie r)) (wrap_u 64 (cr_socket_inode r)) (wrap_u 64 <$> cr_network_namespace_inode r)
    (process_of_row d (cr_process_id r)) (cr_local_ip r) (wrap_u 16 (cr_local_port r)) (cr_remote_ip r) (wrap_u 16 (cr_remote_port r))
    (cr_target_host r) (cr_lifecycle_state r) (performance_state_from_string states.1) (trust_state_from_string states.2).

Definition connection (id : Z) (d : HistoryDb) : option ConnectionSummary := summary_of d id <$> hs_connections (db_store d) !! id.

(** [ORDER BY COALESCE(captured_at_ns,first_seen_ns) DESC,id DESC LIMIT ?] *)
Definition recent_connections (limit : Z) (d : HistoryDb) : list ConnectionSummary :=
  map (fun r => summary_of d r.1 r.2)
    (sql_limit (wrap_s 64 limit) (rev (merge_sort (row_before cr_captured_at_ns) (map_to_list (hs_connections (db_store d)))))).

(** The sample as its row holds it; what no column holds has its default. *)
Definition sample_from_row (s : TcpSnapshot) : TcpSnapshot :=
  MkTcpSnapshot (wrap_u 64 (wrap_s 64 (ts_observed_ns s))) (wrap_u 8 (ts_state s)) (wrap_u 32 (ts_rtt_us s)) (wrap_u 32 (ts_rtt_variance_us s))
    (wrap_u 32 (ts_total_retrans s)) (wrap_u 32 (ts_lost s)) (wrap_u 32 (ts_unacked s)) (wrap_u 32 (ts_snd_cwnd s)) (wrap_u 32 (ts_snd_ssthresh s))
    (wrap_u 32 (ts_snd_mss s)) (wrap_u 32 (ts_rcv_mss s)) (wrap_u 32 (ts_send_queue_bytes s)) (wrap_u 32 (ts_recv_queue_bytes s))
    None None "" Contextual.

Definition sample_time (r : SampleRow) : Z := wrap_s 64 (ts_observed_ns (sr_sample r)).

Definition samples_for_connection (id : Z) (d : HistoryDb) : list TcpSnapshot :=
  map (fun r => sample_from_row (sr_sample r)) (order_by sample_time (filter (fun r => sr_connection_id r = id) (hs_transport_samples (db_store d)))).

(** [(c.target_host=? OR (c.target_host='' AND c.remote_ip=?)) AND c.remote_port=?] *)
Definition for_target (host : string) (port : Z) (r : ConnectionRow) : bool :=
  (bool_decide (cr_target_host r = c_str host) || bool_decide (cr_target_host r = "") && bool_decide (cr_remote_ip r = c_str host)) &&
  (cr_remote_port r =? port).

Definition sample_for_target (host : string) (port : Z) (d : HistoryDb) (r : SampleRow) : bool :=
  match hs_connections (db_store d) !! sr_connection_id r with Some c => for_target host port c | None => false end.

(** [ORDER BY s.observed_ns DESC LIMIT ?], reversed afterwards. *)
Definition recent_samples_for_target (host : string) (port limit : Z) (d : HistoryDb) : list TcpSnapshot :=
  rev (map (fun r => sample_from_row (sr_sample r)) (sql_limit (wrap_s 64 limit) (rev (order_by sample_time
    (filter (fun r => sample_for_target host port d r = true) (hs_transport_samples (db_store d))))))).

Definition event_type_of_text (t : string) : ConnectionLifecycleEventType :=
  if bool_decide (t = "ACCEPT") then Accept else if bool_decide (t = "CLOSE") then Close else Connect.

Definition provenance_of_text (t : string) : LifecycleProvenance :=
  if bool_decide (t = "DETERMINISTIC_TEST") then DeterministicTest else EbpfCore.

(** [static_cast<int>(protocol)] and back. *)
Definition protocol_index (p : TransportProtocol) : Z := match p with ProtocolUnknown => 0 | Tcp => 1 | ProtocolRaw n => n end.
Definition protocol_of_index (n : Z) : TransportProtocol := if n =? 0 then ProtocolUnknown else if n =? 1 then Tcp else ProtocolRaw n.

Definition endpoint_of_columns (e : option NetworkEndpoint) : option NetworkEndpoint :=
  (fun e => MkNetworkEndpoint (c_str (ne_address e)) (wrap_u 16 <$> ne_port e)) <$> e.

(** The event as its row holds it: [endpoint_kind] and [platform_connection_id] have no column. *)
Definition event_from_row (r : LifecycleRow) : ConnectionLifecycleEvent :=
  let e := lr_event r in
  let p := le_process e in
  MkLifecycleEvent (event_type_of_text (lr_event_type r)) (wrap_u 64 (lr_observed_ns r)) (provenance_of_text (provenance_to_string (le_provenance e)))
    (MkLifecycleProcessContext (lpc_agent_visible p) (lpc_kernel p)
       ((fun n => MkProcessNamespaceIdentity (wrap_u 64 (wrap_s 64 (pni_device n))) (wrap_u 64 (wrap_s 64 (pni_inode n)))) <$> lpc_agent_pid_namespace p)
       (wrap_u 32 <$> lpc_uid p) (wrap_u 64 <$> (wrap_s 64 <$> lpc_start_ticks p)) (c_str <$> lpc_comm p))
    (wrap_u 64 <$> (wrap_s 64 <$> le_network_namespace_inode e)) (family_of_index (family_index (le_address_family e)))
    (protocol_of_index (protocol_index (le_protocol e))) EndpointUnknown (endpoint_of_columns (le_local e)) (endpoint_of_columns (le_remote e))
    (wrap_u 64 <$> (wrap_s 64 <$> le_socket_cookie e)) None (wrap_u 8 <$> le_tcp_state e).

Definition lifecycle_events_for_connection (id : Z) (d : HistoryDb) : list ConnectionLifecycleEvent :=
  map event_from_row (order_by lr_observed_ns (filter (fun r => lr_connection_id r = id) (hs_lifecycle_events (db_store d)))).

Definition route_from_row (r : RouteRow) : RouteObservation :=
  MkRouteObservation (rt_destination r) (rt_source r) (rt_gateway r) (rt_interface_name r) (wrap_u 32 (rt_interface_index r)) None None
    (wrap_u 64 (rt_observed_ns r)) (rt_sha256 r) (route_relation_from_string (rt_relation r)).

Definition route_for_connection (id : Z) (d : HistoryDb) : option RouteObservation :=
  (fun r => route_from_row r.2) <$> List.find (fun r => rt_connection_id r.2 =? id) (db_routes d).

Definition tls_from_row (t : TlsObservation) : TlsObservation :=
  MkTlsObservation (tl_target_host t) (wrap_u 16 (tl_target_port t)) (wrap_u 64 (tl_observed_ns t)) (tl_tls_version t) (tl_cipher t) (tl_alpn t)
    (tl_leaf_sha256 t) (tl_spki_sha256 t) (tl_subject t) (tl_issuer t) (tl_not_before t) (tl_not_after t) (tl_chain_valid t) (tl_hostname_valid t)
    (tl_sha256 t).

(** [ORDER BY observed_ns DESC LIMIT 1], with the smaller id first. *)
Definition latest_before (a b : Z * TlsObservation) : Prop :=
  tl_observed_ns b.2 < tl_observed_ns a.2 \/ tl_observed_ns a.2 = tl_observed_ns b.2 /\ a.1 <= b.1.
#[global] Instance latest_before_dec : RelDecision latest_before.
Proof. intros a b. unfold latest_before. apply _. Defined.

Definition latest_tls_for_target (host : string) (port : Z) (d : HistoryDb) : option TlsObservation :=
  (fun r => tls_from_row r.2) <$>
    head (merge_sort latest_before (filter (fun r => tl_target_host r.2 = c_str host /\ tl_target_port r.2 = port) (db_tls d))).

Definition baseline_from_row (b : Baseline) : Baseline :=
  MkBaseline (bl_target_host b) (wrap_u 16 (bl_target_port b)) (wrap_u 64 (bl_rtt_median_us b)) (wrap_u 64 (bl_rttvar_median_us b))
    (bl_accepted_spki_sha256 b) (bl_accepted_issuer b) (wrap_u 64 (bl_sample_count b)) (wrap_u 64 (bl_created_ns b)) (bl_sha256 b).

(** [ORDER BY created_ns DESC,id DESC LIMIT 1] *)
Definition baseline_for (host : string) (port : Z) (d : HistoryDb) : option Baseline :=
  (fun r => baseline_from_row r.2) <$>
    last (merge_sort (row_before bl_created_ns) (filter (fun r => bl_target_host r.2 = c_str host /\ bl_target_port r.2 = port) (db_baselines d))).

Definition verdict_from_row (v : VerdictRow) : AssuranceVerdict :=
  MkVerdict (performance_state_from_string (vr_performance_state v)) (trust_state_from_string (vr_trust_state v)) (vr_performance_hypothesis v)
    (vr_trust_hypothesis v) (vr_rule_confidence v) (vr_rule_set_version v) (vr_rule_set_hash v) (vr_baseline_hash v) (vr_input_hash v).

Definition verdict_for_connection (id : Z) (d : HistoryDb) : option AssuranceVerdict := verdict_from_row <$> db_verdicts d !! id.

Record ExportData := MkExportData {
  ex_connection : ConnectionSummary; ex_samples : list TcpSnapshot; ex_lifecycle_events : list ConnectionLifecycleEvent;
  ex_route : option RouteObservation; ex_tls : option TlsObservation; ex_baseline : option Baseline; ex_verdict : option AssuranceVerdict }.

(** The TLS observation of the verdict, or else the one that was linked to the connection. *)
Definition linked_tls (id : Z) (d : HistoryDb) : option Z :=
  match db_verdicts d !! id with
  | Some (MkVerdictRow _ _ _ _ _ _ _ _ _ (Some tls)) => Some tls
  | _ => hs_tls_links (db_store d) !! id
  end.

Definition export_data (id : Z) (d : HistoryDb) : result ExportData :=
  match connection id d with
  | None => Throw "connection not found"
  | Some c =>
      let verdict := verdict_for_connection id d in
      let baseline :=
        match verdict with
        | Some v => if bool_decide (av_baseline_hash v = "") then None
                    else (fun r => baseline_from_row r.2) <$>
                           List.find (fun r => bool_decide (bl_sha256 r.2 = c_str (av_baseline_hash v))) (db_baselines d)
        | None => None
        end in
      let tls := tls_id ← linked_tls id d; (fun r => tls_from_row r.2) <$> List.find (fun r => r.1 =? tls_id) (db_tls d) in
      Ok (MkExportData c (samples_for_connection id d) (lifecycle_events_for_connection id d) (route_for_connection id d) tls baseline verdict)
  end.

(** ** What the database keeps true *)

Record db_ok (d : HistoryDb) : Prop := {
  ok_states : dom (db_states d) = dom (hs_connections (db_store d));
  ok_verdicts id v : db_verdicts d !! id = Some v ->
    id ∈ dom (hs_connections (db_store d)) /\ forall t, vr_tls_observation_id v = Some t -> t ∈ map fst (db_tls d);
  ok_links id t : hs_tls_links (db_store d) !! id = Some t -> id ∈ dom (hs_connections (db_store d)) /\ t ∈ map fst (db_tls d);
  ok_samples r : r ∈ hs_transport_samples (db_store d) -> sr_connection_id r ∈ dom (hs_connections (db_store d));
  ok_events r : r ∈ hs_lifecycle_events (db_store d) -> lr_connection_id r ∈ dom (hs_connections (db_store d));
  ok_routes : rows_ok rt_connection_id (db_routes d);
  ok_route_connections r : r ∈ db_routes d -> rt_connection_id r.2 ∈ dom (hs_connections (db_store d));
  ok_tls : NoDup (map fst (db_tls d));
  ok_baselines : rows_ok bl_sha256 (db_baselines d);
  ok_processes id c p : hs_connections (db_store d) !! id = Some c -> cr_process_id c = Some p -> p ∈ map pr_id (hs_processes (db_store d)) }.

(** What an operation on a connection that exists may change of the tables of [History]. *)
Record store_frame (s s' : HistoryStore) : Prop := {
  sf_dom : dom (hs_connections s') = dom (hs_connections s);
  sf_rows id c' : hs_connections s' !! id = Some c' -> exists c, hs_connections s !! id = Some c /\ cr_process_id c = cr_process_id c';
  sf_processes : hs_processes s' = hs_processes s;
  sf_links : hs_tls_links s' = hs_tls_links s;
  sf_samples r : r ∈ hs_transport_samples s' -> r ∈ hs_transport_samples s \/ sr_connection_id r ∈ dom (hs_connections s);
  sf_events r : r ∈ hs_lifecycle_events s' -> r ∈ hs_lifecycle_events s \/ lr_connection_id r ∈ dom (hs_connections s) }.

Lemma frame_ok d s' : db_ok d -> store_frame (db_store d) s' -> db_ok (with_store (fun _ => s') d).
Proof.
  intros [] []. split; unfold with_store; cbn [db_store db_states db_routes db_tls db_baselines db_verdicts]; try done.
  - by rewrite sf_dom0.
  - by rewrite sf_dom0.
  - rewrite sf_dom0, sf_links0. done.
  - intros r Hr. rewrite sf_dom0. apply sf_samples0 in Hr as [?|?]; auto.
  - intros r Hr. rewrite sf_dom0. apply sf_events0 in Hr as [?|?]; auto.
  - intros r Hr. rewrite sf_dom0. auto.
  - intros id c p Hc Hp. rewrite sf_processes0. apply sf_rows0 in Hc as (c0 & Hc0 & E). apply (ok_processes0 _ _ _ Hc0). congruence.
Qed.

Lemma store_frame_refl s : store_frame s s.
Proof. split; eauto. Qed.

Lemma frame_connections s f :
  dom (f (hs_connections s)) = dom (hs_connections s) ->
  (forall id c', f (hs_connections s) !! id = Some c' -> exists c, hs_connections s !! id = Some c /\ cr_process_id c = cr_process_id c') ->
  store_frame s (set_connections f s).
Proof. intros Hd Hr. split; simpl; eauto. Qed.

Lemma frame_insert s id c c' :
  hs_connections s !! id = Some c -> cr_process_id c' = cr_process_id c -> store_frame s (set_connections (insert id c') s).
Proof.
  intros Hc Hp. apply frame_connections.
  - rewrite dom_insert_L. apply elem_of_dom_2 in Hc. set_solver.
  - intros id' r. destruct (decide (id' = id)) as [->|]; [rewrite lookup_insert_eq; intros [= <-]; eauto|rewrite lookup_insert_ne by done; eauto].
Qed.

Lemma touch_frame id t state s : store_frame s (store_touch_connection id t state s).
Proof.
  apply frame_connections; [by rewrite dom_alter_L|]. intros id' r. destruct (decide (id' = id)) as [->|].
  - rewrite lookup_alter_eq. destruct (hs_connections s !! id) as [c|]; [|done]. intros [= <-]. by exists c.
  - rewrite lookup_alter_ne by done. eauto.
Qed.

Lemma cookie_frame id cookie s : store_frame s (store_update_socket_cookie id cookie s).2.
Proof.
  unfold store_update_socket_cookie. destruct (hs_connections s !! id) as [c|] eqn:E; [|apply store_frame_refl].
  case_match; [|apply store_frame_refl]. by eapply frame_insert.
Qed.

Lemma direction_frame id direction s : store_frame s (store_promote_direction id direction s).2.
Proof.
  unfold store_promote_direction. case_bool_decide; [apply store_frame_refl|].
  destruct (hs_connections s !! id) as [c|] eqn:E; [|apply store_frame_refl]. case_bool_decide; [|apply store_frame_refl]. by eapply frame_insert.
Qed.

Lemma has_row_dom s id : has_row s id = true <-> id ∈ dom (hs_connections s).
Proof. unfold has_row. rewrite elem_of_dom. destruct (hs_connections s !! id); split; try done; by intros []. Qed.

Lemma sample_frame_ok `{Sha256} id sample s s' : store_add_tcp_sample id sample s = Ok s' -> store_frame s s'.
Proof.
  unfold store_add_tcp_sample. destruct (has_row s id) eqn:Hid; [|done]. apply has_row_dom in Hid. intros [= <-].
  split; simpl; eauto. intros r [Hr|Hr%list_elem_of_singleton]%elem_of_app; [by left|subst r; by right].
Qed.

Lemma event_frame_ok id event s s' : store_add_lifecycle_event id event s = Ok s' -> store_frame s s'.
Proof.
  unfold store_add_lifecycle_event. cbv zeta. destruct (has_row s id) eqn:Hid; [|done]. apply has_row_dom in Hid. cbn [negb].
  destruct (existsb _ _); intros [= <-]; [apply store_frame_refl|].
  split; simpl; eauto. intros r [Hr|Hr%list_elem_of_singleton]%elem_of_app; [by left|subst r; by right].
Qed.

Lemma has_connection_dom d id : has_connection d id = true <-> id ∈ dom (hs_connections (db_store d)).
Proof. unfold has_connection. by rewrite bool_decide_eq_true, elem_of_dom. Qed.

Lemma has_tls_elem d id : has_tls d id = true <-> id ∈ map fst (db_tls d).
Proof. unfold has_tls. by rewrite bool_decide_eq_true. Qed.

Lemma upsert_process_ids p s :
  (upsert_process p s).1 ∈ map pr_id (hs_processes (upsert_process p s).2) /\
  (forall x, x ∈ map pr_id (hs_processes s) -> x ∈ map pr_id (hs_processes (upsert_process p s).2)) /\
  hs_connections (upsert_process p s).2 = hs_connections s /\ hs_tls_links (upsert_process p s).2 = hs_tls_links s /\
  hs_transport_samples (upsert_process p s).2 = hs_transport_samples s /\ hs_lifecycle_events (upsert_process p s).2 = hs_lifecycle_events s /\
  hs_pending_tls (upsert_process p s).2 = hs_pending_tls s.
Proof.
  unfold upsert_process. destruct (durable_start p) as [start|]; cbn [fst snd set_processes hs_processes hs_connections hs_tls_links
    hs_transport_samples hs_lifecycle_events hs_pending_tls].
  - destruct (filter _ (hs_processes s)) as [|r l] eqn:Hf; cbn [fst snd set_processes hs_processes hs_connections hs_tls_links
      hs_transport_samples hs_lifecycle_events hs_pending_tls].
    + split_and!; try done; [|intros x Hx]; rewrite map_app, elem_of_app; [right; by apply list_elem_of_singleton|by left].
    + assert (E : map pr_id (update_process p (wrap_s 64 start) <$> hs_processes s) = map pr_id (hs_processes s)).
      { rewrite !map_fmap, <- list_fmap_compose. apply list_fmap_ext. intros i x _. unfold update_process. simpl. by case_bool_decide. }
      rewrite E. split_and!; try done. rewrite map_fmap. apply list_elem_of_fmap_2.
      assert (Hr : r ∈ r :: l) by set_solver. rewrite <- Hf in Hr. by apply list_elem_of_filter in Hr as [_ ?].
  - split_and!; try done; [|intros x Hx]; rewrite map_app, elem_of_app; [right; by apply list_elem_of_singleton|by left].
Qed.

(** What [begin_connection] does to the tables. *)
Lemma begin_shape tls_exists socket process host t direction s :
  let id := next_rowid (elements (dom (hs_connections s))) in
  exists r row s', store_begin_connection tls_exists socket process host t direction s = (r, s') /\
    id ∉ dom (hs_connections s) /\ hs_connections s' = <[id := row]> (hs_connections s) /\
    (hs_tls_links s' = hs_tls_links s \/ exists tls, tls_exists tls = true /\ hs_tls_links s' = <[id := tls]> (hs_tls_links s)) /\
    hs_transport_samples s' = hs_transport_samples s /\ hs_lifecycle_events s' = hs_lifecycle_events s /\
    (forall p, cr_process_id row = Some p -> p ∈ map pr_id (hs_processes s')) /\
    (forall x, x ∈ map pr_id (hs_processes s) -> x ∈ map pr_id (hs_processes s')).
Proof.
  cbv zeta. unfold store_begin_connection.
  set (r := match process with Some p => _ | None => _ end).
  assert (Hr : hs_connections r.2 = hs_connections s /\ hs_tls_links r.2 = hs_tls_links s /\ hs_transport_samples r.2 = hs_transport_samples s /\
    hs_lifecycle_events r.2 = hs_lifecycle_events s /\ hs_pending_tls r.2 = hs_pending_tls s /\
    (forall p, r.1 = Some p -> p ∈ map pr_id (hs_processes r.2)) /\ forall x, x ∈ map pr_id (hs_processes s) -> x ∈ map pr_id (hs_processes r.2)).
  { unfold r. destruct process as [p|]; [|by split_and!]. destruct (upsert_process_ids p s) as (H1 & H2 & H3 & H4 & H5 & H6 & H7).
    destruct (upsert_process p s) as [pid s1]. simpl in *. split_and!; try done. by intros ? [= <-]. }
  clearbody r. destruct r as [pid s1]. simpl in Hr. destruct Hr as (H1 & H2 & H3 & H4 & H5 & H6 & H7).
  assert (Hfresh : next_rowid (elements (dom (hs_connections s))) ∉ dom (hs_connections s)).
  { intros Hin. apply (next_rowid_fresh (elements (dom (hs_connections s)))). by apply elem_of_elements. }
  rewrite H1. destruct (pending_link host _ s1) as [tls|]; [destruct (tls_exists tls) eqn:Ht|]; (do 3 eexists); (split; [reflexivity|]);
    cbn [hs_connections hs_tls_links hs_transport_samples hs_lifecycle_events hs_processes cr_process_id]; rewrite ?H1, ?H2; split_and!; eauto.
Qed.

Lemma begin_ok socket process host t direction d :
  db_ok d -> db_ok (db_begin_connection socket process host t direction d).2.
Proof.
  intros [Hst Hv Hl Hs He Hr Hrc Ht Hb Hp]. unfold db_begin_connection.
  destruct (begin_shape (has_tls d) socket process host t direction (db_store d)) as (r & row & s & -> & Hid & Hc & Hli & Hsa & Hev & Hpr & Hsub).
  set (id := next_rowid _) in *. assert (Hfresh : forall id', id' ∈ dom (hs_connections (db_store d)) -> id' <> id) by (intros id' Hin ->; done).
  assert (Hdom : dom (hs_connections s) = {[id]} ∪ dom (hs_connections (db_store d))) by (rewrite Hc; apply dom_insert_L).
  split; cbn [snd db_store db_states db_routes db_tls db_baselines db_verdicts]; try done.
  - by rewrite dom_insert_L, Hst, Hdom.
  - intros i v Hi. destruct (Hv _ _ Hi) as [Hvs Hvt]. split; [|done]. rewrite Hdom. set_solver.
  - assert (Hold : forall i x, hs_tls_links (db_store d) !! i = Some x -> i ∈ dom (hs_connections s) /\ x ∈ map fst (db_tls d)).
    { intros i x Hi. destruct (Hl _ _ Hi). rewrite Hdom. set_solver. }
    intros i x. destruct Hli as [->|(tls & Htls%has_tls_elem & ->)]; [apply Hold|].
    destruct (decide (i = id)) as [->|]; [rewrite lookup_insert_eq; intros [= <-]; rewrite Hdom; set_solver|].
    rewrite lookup_insert_ne by done. apply Hold.
  - intros x. rewrite Hsa, Hdom. intros Hin%Hs. set_solver.
  - intros x. rewrite Hev, Hdom. intros Hin%He. set_solver.
  - intros x. rewrite Hdom. intros Hin%Hrc. set_solver.
  - intros i c p. rewrite Hc. destruct (decide (i = id)) as [->|].
    + rewrite lookup_insert_eq. intros [= <-]. apply Hpr.
    + rewrite lookup_insert_ne by done. intros Hi Hip. apply Hsub. by eapply Hp.
Qed.

Lemma map_filter_nodup {A B} (f : A -> B) (P : A -> Prop) `{!forall x, Decision (P x)} (l : list A) :
  NoDup (map f l) -> NoDup (map f (filter P l)).
Proof.
  induction l as [|x l IH]; simpl; [done|]. intros [Hx Hl]%NoDup_cons. rewrite filter_cons. case_decide; [|by apply IH].
  simpl. apply NoDup_cons. split; [|by apply IH]. rewrite map_fmap in *. intros (y & E & [_ Hy]%list_elem_of_filter)%list_elem_of_fmap.
  apply Hx. rewrite E. by apply list_elem_of_fmap_2.
Qed.

Lemma add_route_ok id r d n d' : db_ok d -> add_route id r d = Ok (n, d') -> db_ok d'.
Proof.
  intros Hok. unfold add_route. destruct (has_connection d id) eqn:Hc; [|done]. apply has_connection_dom in Hc.
  intros E. assert (d' = (MkHistoryDb (db_store d) (db_states d)
    (filter (fun r => rt_connection_id r.2 <> id) (db_routes d) ++ [(next_rowid (map fst (db_routes d)), bind_route id r)])
    (db_tls d) (db_baselines d) (db_verdicts d))) as -> by congruence. clear E.
  destruct Hok as [Hst Hv Hl Hs He [Hr1 Hr2] Hrc Ht Hb Hp]. split; try done; simpl.
  - split; rewrite map_app; apply NoDup_app; (split_and!; [|simpl|apply NoDup_singleton]).
    + by apply map_filter_nodup.
    + intros x Hx Hy%list_elem_of_singleton. subst x. apply (next_rowid_fresh (map fst (db_routes d))).
      rewrite map_fmap in *. apply list_elem_of_fmap in Hx as (y & E & [_ Hy]%list_elem_of_filter).
      replace (next_rowid (fst <$> db_routes d)) with y.1 by (rewrite <- E; done). by apply list_elem_of_fmap_2.
    + by apply map_filter_nodup.
    + intros x Hx Hy%list_elem_of_singleton. subst x.
      rewrite map_fmap in *. by apply list_elem_of_fmap in Hx as (y & E & [? Hy]%list_elem_of_filter).
  - intros x [[_ Hx]%list_elem_of_filter|Hx%list_elem_of_singleton]%elem_of_app; [auto|by subst x].
Qed.

Lemma add_tls_ok t d : db_ok d -> db_ok (add_tls t d).2.
Proof.
  intros [Hst Hv Hl Hs He Hr Hrc Ht Hb Hp]. unfold add_tls. simpl.
  assert (Hsub : forall x, x ∈ map fst (db_tls d) -> x ∈ map fst (db_tls d ++ [(next_rowid (map fst (db_tls d)), bind_tls_observation t)]))
    by (intros x Hx; rewrite map_app, elem_of_app; by left).
  split; try done; simpl.
  - intros id v Hid. destruct (Hv _ _ Hid) as [? Hvt]. split; [done|]. intros x Hx. by apply Hsub, Hvt.
  - intros id x Hid. destruct (Hl _ _ Hid). auto.
  - rewrite map_app. apply NoDup_app. split_and!; [done| |apply NoDup_singleton]. intros x Hx Hy%list_elem_of_singleton. subst x.
    by apply next_rowid_fresh in Hx.
Qed.

Lemma link_ok c t d d' : db_ok d -> link_tls_observation c t d = Ok d' -> db_ok d'.
Proof.
  intros [Hst Hv Hl Hs He Hr Hrc Ht Hb Hp]. unfold link_tls_observation.
  destruct (has_connection d c) eqn:Hc; [|done]. destruct (has_tls d t) eqn:Htls; [|done]. simpl. intros [= <-].
  apply has_connection_dom in Hc. apply has_tls_elem in Htls. split; try done; simpl.
  intros id x. destruct (decide (id = c)) as [->|]; [rewrite lookup_insert_eq; by intros [= <-]|]. rewrite lookup_insert_ne by done. apply Hl.
Qed.

Lemma save_baseline_ok b d : db_ok d -> db_ok (save_baseline b d).
Proof.
  intros Hok. unfold save_baseline. cbv zeta. destruct (List.find _ _) eqn:Hf; [done|].
  destruct Hok as [Hst Hv Hl Hs He Hr Hrc Ht Hb Hp]. split; try done; simpl. by apply append_row_ok.
Qed.

Lemma insert_verdict_ok c v t d d' : db_ok d -> insert_verdict c v t d = Ok d' -> db_ok d'.
Proof.
  intros [Hst Hv Hl Hs He Hr Hrc Ht Hb Hp]. unfold insert_verdict. destruct (bind_real _) as [x|]; [|done].
  destruct (has_connection d c) eqn:Hc; [|done]. cbn [andb]. destruct (match t with Some _ => _ | None => _ end) eqn:Htls; [|done].
  intros [= <-]. apply has_connection_dom in Hc. split; try done; cbn [db_store db_states db_routes db_tls db_baselines db_verdicts].
  intros id r. destruct (decide (id = c)) as [->|].
  - rewrite lookup_insert_eq. intros E. assert (r = bind_verdict v x t) as -> by congruence. split; [done|].
    intros y Hy. assert (t = Some y) as -> by exact Hy. by apply has_tls_elem.
  - rewrite lookup_insert_ne by done. apply Hv.
Qed.

Lemma update_states_ok c v d : db_ok d -> db_ok (update_states c v d).
Proof. intros []. split; try done; cbn. by rewrite dom_alter_L. Qed.

Lemma save_verdict_ok c v t failed d : db_ok d -> db_ok (save_verdict c v t failed d).2.
Proof.
  intros Hok. unfold save_verdict. destruct (insert_verdict c v t d) as [d'|] eqn:E; [|done].
  pose proof (insert_verdict_ok _ _ _ _ _ Hok E). destruct failed; [done|by apply update_states_ok].
Qed.

(** ** Every operation keeps the invariant *)

Section steps.
Context `{Sha256}.

(** The operations that do not save a verdict. *)
Inductive db_write : HistoryDb -> HistoryDb -> Prop :=
| step_clock now d : db_write d (with_store (fun s => MkHistoryStore (hs_processes s) (hs_connections s) (hs_lifecycle_events s)
    (hs_transport_samples s) (hs_tls_links s) (hs_pending_tls s) now) d)
| step_begin socket process host t direction d : db_write d (db_begin_connection socket process host t direction d).2
| step_touch id t state d : db_write d (db_touch_connection id t state d)
| step_cookie id cookie d : db_write d (db_update_socket_cookie id cookie d).2
| step_direction id direction d : db_write d (db_promote_direction id direction d).2
| step_sample id sample d d' : db_add_tcp_sample id sample d = Ok d' -> db_write d d'
| step_event id event d d' : db_add_lifecycle_event id event d = Ok d' -> db_write d d'
| step_route id r d n d' : add_route id r d = Ok (n, d') -> db_write d d'
| step_tls t d : db_write d (add_tls t d).2
| step_link c t d d' : link_tls_observation c t d = Ok d' -> db_write d d'
| step_baseline b d : db_write d (save_baseline b d).

Inductive db_step : HistoryDb -> HistoryDb -> Prop :=
| step_write d d' : db_write d d' -> db_step d d'
| step_verdict c v t failed d : db_step d (save_verdict c v t failed d).2.

Lemma db_write_ok d d' : db_write d d' -> db_ok d -> db_ok d'.
Proof.
  intros Hs Hok. destruct Hs as [now d|socket process host t direction d|id t state d|id cookie d|id direction d|id sample d d' E|id event d d' E
    |id r d n d' E|t d|c t d d' E|b d].
  - by apply frame_ok; [|split; eauto].
  - by apply begin_ok.
  - apply frame_ok; [done|]. apply touch_frame.
  - unfold db_update_socket_cookie. pose proof (cookie_frame id cookie (db_store d)) as Hf. destruct (store_update_socket_cookie _ _ _).
    by apply frame_ok.
  - unfold db_promote_direction. pose proof (direction_frame id direction (db_store d)) as Hf. destruct (store_promote_direction _ _ _).
    by apply frame_ok.
  - unfold db_add_tcp_sample in E. apply rbind_ok in E as (s & Es & [= <-]). apply frame_ok; [done|]. by eapply sample_frame_ok.
  - unfold db_add_lifecycle_event in E. apply rbind_ok in E as (s & Es & [= <-]). apply frame_ok; [done|]. by eapply event_frame_ok.
  - by eapply add_route_ok.
  - by apply add_tls_ok.
  - by eapply link_ok.
  - by apply save_baseline_ok.
Qed.

Lemma db_step_ok d d' : db_step d d' -> db_ok d -> db_ok d'.
Proof. intros [? ? Hw|c v t failed ?]; [by apply db_write_ok|apply save_verdict_ok]. Qed.

(** A database as [initialize_schema] makes it. *)
Definition empty_db (now : Z) : HistoryDb := MkHistoryDb (MkHistoryStore [] ∅ [] [] ∅ None now) ∅ [] [] [] ∅.

Lemma empty_db_ok now : db_ok (empty_db now).
Proof.
  split; simpl; try (intros; by rewrite ?lookup_empty in * ); try (intros r Hr; by apply not_elem_of_nil in Hr); try (split; constructor); try constructor.
Qed.

Lemma reachable_ok now d : rtc db_step (empty_db now) d -> db_ok d.
Proof.
  remember (empty_db now) as d0 eqn:E. intros Hr. assert (Hok : db_ok d0) by (rewrite E; apply empty_db_ok). clear E.
  induction Hr; eauto using db_step_ok.
Qed.
End steps.

(** ** Verdicts *)

Lemma performance_back p : performance_state_from_string (performance_to_string p) = p.
Proof. by destruct p. Qed.
Lemma trust_back t : trust_state_from_string (trust_to_string t) = t.
Proof. by destruct t. Qed.

Lemma export_ok d id c : connection id d = Some c ->
  exists ex, export_data id d = Ok ex /\ ex_connection ex = c /\ ex_verdict ex = verdict_for_connection id d /\
    forall v b, ex_verdict ex = Some v -> ex_baseline ex = Some b -> bl_sha256 b = c_str (av_baseline_hash v).
Proof.
  intros Hc. unfold export_data. rewrite Hc. eexists. split; [reflexivity|]. cbn [ex_connection ex_verdict ex_baseline].
  split_and!; [done..|]. intros v b Hv Hb. rewrite Hv in Hb. case_bool_decide; [done|].
  destruct (List.find _ _) as [r|] eqn:Hf; [|done]. apply (find_key_some bl_sha256) in Hf as [_ Hk]. simpl in Hb. injection Hb as <-. exact Hk.
Qed.

Lemma sql_limit_elem {A} n (l : list A) x : x ∈ sql_limit n l -> x ∈ l.
Proof. unfold sql_limit. case_match; [done|]. intros Hx. eapply subseteq_take, Hx. Qed.

Lemma recent_connections_elem limit d s : s ∈ recent_connections limit d -> connection (cs_id s) d = Some s.
Proof.
  unfold recent_connections. rewrite map_fmap. intros ([id r] & -> & Hr)%list_elem_of_fmap. apply sql_limit_elem in Hr.
  apply list_elem_of_In, in_rev, list_elem_of_In in Hr. rewrite merge_sort_Permutation in Hr. apply elem_of_map_to_list in Hr.
  unfold connection. simpl. by rewrite Hr.
Qed.

(** The states of the connection are those of its verdict, if it has one. *)
Definition shown (d : HistoryDb) (id : Z) : Prop :=
  forall v, db_verdicts d !! id = Some v -> db_states d !! id = Some (vr_performance_state v, vr_trust_state v).

(** Runs of the operations from a new database, with the connections for which the last [save_verdict] has
    thrown. *)
Inductive db_run `{Sha256} (now : Z) : HistoryDb -> gset Z -> Prop :=
| run_new : db_run now (empty_db now) ∅
| run_write d torn d' : db_run now d torn -> db_write d d' -> db_run now d' torn
| run_saved c v t failed d torn d' : db_run now d torn -> save_verdict c v t failed d = (Ok tt, d') -> db_run now d' (torn ∖ {[c]})
| run_torn c v t failed d torn error d' : db_run now d torn -> save_verdict c v t failed d = (Throw error, d') -> db_run now d' ({[c]} ∪ torn).

(** An operation that is not about verdicts leaves them, and the states of every connection that has one. *)
Lemma db_write_verdicts `{Sha256} d d' :
  db_write d d' -> db_ok d -> db_verdicts d' = db_verdicts d /\ forall id, id ∈ dom (db_verdicts d) -> db_states d' !! id = db_states d !! id.
Proof.
  intros Hw Hok. destruct Hw as [now d|socket process host t direction d|id t state d|id cookie d|id direction d|id sample d d' E|id event d d' E
    |id r d n d' E|t d|c t d d' E|b d]; try done.
  - unfold db_begin_connection.
    destruct (begin_shape (has_tls d) socket process host t direction (db_store d)) as (r & row & s & -> & Hid & _). split; [done|].
    intros id [v Hv]%elem_of_dom. destruct (ok_verdicts d Hok id v Hv) as [Hin _]. cbn. apply lookup_insert_ne. by intros <-.
  - unfold db_update_socket_cookie. by destruct (store_update_socket_cookie _ _ _).
  - unfold db_promote_direction. by destruct (store_promote_direction _ _ _).
  - unfold db_add_tcp_sample in E. by apply rbind_ok in E as (s & _ & [= <-]).
  - unfold db_add_lifecycle_event in E. by apply rbind_ok in E as (s & _ & [= <-]).
  - unfold add_route in E. destruct (has_connection d id); [|done]. by injection E as _ <-.
  - unfold link_tls_observation in E. destruct (_ && _); [|done]. by injection E as <-.
  - unfold save_baseline. cbv zeta. by destruct (List.find _ _).
Qed.

Lemma insert_verdict_shape c v t d d' :
  insert_verdict c v t d = Ok d' ->
  exists x, bind_real (av_rule_confidence v) = Some x /\ c ∈ dom (hs_connections (db_store d)) /\ db_states d' = db_states d /\ db_store d' = db_store d /\
    db_verdicts d' = <[c := bind_verdict v x t]> (db_verdicts d).
Proof.
  unfold insert_verdict. destruct (bind_real _) as [x|]; [|done]. destruct (has_connection d c) eqn:Hc; [|done]. cbn [andb].
  destruct (match t with Some _ => _ | None => _ end); [|done]. intros [= <-]. exists x. apply has_connection_dom in Hc. by split_and!.
Qed.

Lemma run_shown `{Sha256} now d torn : db_run now d torn -> db_ok d /\ forall id, id ∉ torn -> shown d id.
Proof.
  induction 1 as [|d torn d' _ [Hok IH] Hw|c v t failed d torn d' _ [Hok IH] E|c v t failed d torn error d' _ [Hok IH] E].
  - split; [apply empty_db_ok|]. intros id _ v Hv. cbn in Hv. by rewrite lookup_empty in Hv.
  - split; [by eapply db_write_ok|]. destruct (db_write_verdicts d d' Hw Hok) as [Ev Es]. intros id Hid v. rewrite Ev. intros Hv.
    rewrite Es by (by eapply elem_of_dom_2). by apply IH.
  - split; [replace d' with (save_verdict c v t failed d).2 by (by rewrite E); by apply save_verdict_ok|]. revert E. unfold save_verdict.
    destruct (insert_verdict c v t d) as [d1|] eqn:Ei; [|done]. destruct failed; [done|]. intros [= <-].
    apply insert_verdict_shape in Ei as (x & _ & Hc & Es & Est & Ev). intros id Hid r. cbn [update_states db_verdicts db_states]. rewrite Ev, Es.
    destruct (decide (id = c)) as [->|Hne].
    + rewrite lookup_insert_eq, lookup_alter_eq. intros Hr. assert (r = bind_verdict v x t) as -> by congruence.
      rewrite <- (ok_states d Hok) in Hc. apply elem_of_dom in Hc as [st Hst]. by rewrite Hst.
    + rewrite lookup_insert_ne, lookup_alter_ne by done. apply IH. set_solver.
  - split; [replace d' with (save_verdict c v t failed d).2 by (by rewrite E); by apply save_verdict_ok|]. revert E. unfold save_verdict.
    destruct (insert_verdict c v t d) as [d1|] eqn:Ei; [destruct failed; [|done]|]; intros [= <-]; subst; intros id Hid.
    + apply insert_verdict_shape in Ei as (x & _ & _ & Es & _ & Ev). intros r. rewrite Ev, Es, lookup_insert_ne by set_solver. apply IH. set_solver.
    + apply IH. set_solver.
Qed.

(** C26: A verdict is read the same everywhere.  After any operations on a new database, some of which may
    throw, if a connection has a verdict and the last [save_verdict] for it has returned (its two statements
    are not in a transaction: one that throws, or is still under way, may have stored the verdict only), then the connection
    exists and shows the performance and trust states of the verdict, in the list of recent connections as
    well; its export returns this verdict and, if any baseline, the one the verdict names.  Storage
    maintenance is not one of the operations. *)
Theorem verdict_read_everywhere `{Sha256} now d torn id v :
  db_run now d torn -> id ∉ torn -> verdict_for_connection id d = Some v ->
  exists c ex, connection id d = Some c /\ cs_performance c = av_performance v /\ cs_trust c = av_trust v /\
    (forall limit s, s ∈ recent_connections limit d -> cs_id s = id -> s = c) /\
    export_data id d = Ok ex /\ ex_connection ex = c /\ ex_verdict ex = Some v /\
    forall b, ex_baseline ex = Some b -> bl_sha256 b = c_str (av_baseline_hash v).
Proof.
  intros [Hok Hsh]%run_shown Hid Hv. pose proof Hv as Hv'. unfold verdict_for_connection in Hv'.
  destruct (db_verdicts d !! id) as [row|] eqn:E; [|done]. simpl in Hv'. injection Hv' as <-.
  pose proof (Hsh id Hid row E) as Hs. destruct (ok_verdicts d Hok id row E) as [Hd _].
  apply elem_of_dom in Hd as [r Hr].
  assert (Hc : connection id d = Some (summary_of d id r)) by (unfold connection; by rewrite Hr).
  destruct (export_ok d id _ Hc) as (ex & Hex & Hexc & Hexv & Hb).
  exists (summary_of d id r), ex. split_and!; try done.
  - unfold summary_of, states_of. rewrite Hs. reflexivity.
  - unfold summary_of, states_of. rewrite Hs. reflexivity.
  - intros limit s Hin <-. apply recent_connections_elem in Hin. congruence.
  - congruence.
  - intros b Hb'. apply (Hb _ b); congruence.
Qed.

(** When the second statement fails, the new verdict is stored and read back, while the connection still
    shows the states it had. *)
Theorem torn_verdict c v t error d d1 :
  insert_verdict c v t d = Ok d1 ->
  exists d' stored, save_verdict c v t (Some error) d = (Throw error, d') /\ verdict_for_connection c d' = Some stored /\
    av_performance stored = av_performance v /\ av_trust stored = av_trust v /\ connection c d' = connection c d.
Proof.
  intros Ei. pose proof (insert_verdict_shape _ _ _ _ _ Ei) as (x & _ & _ & Es & Est & Ev). unfold save_verdict. rewrite Ei.
  exists d1, (verdict_from_row (bind_verdict v x t)). split; [done|]. unfold verdict_for_connection. rewrite Ev, lookup_insert_eq.
  split; [done|]. split; [apply performance_back|]. split; [apply trust_back|]. unfold connection, summary_of, states_of. rewrite Est, Es.
  destruct (hs_connections (db_store d) !! c) as [r|]; [|done]. cbn. do 2 f_equal. unfold process_of_row. by rewrite Est.
Qed.

(** ** Baselines *)

#[global] Instance row_before_total {A} (time : A -> Z) : Total (row_before time).
Proof. intros a b. unfold row_before. lia. Qed.
#[global] Instance row_before_trans {A} (time : A -> Z) : Transitive (row_before time).
Proof. intros a b c. unfold row_before. lia. Qed.

Lemma last_sorted {A} (R : A -> A -> Prop) `{!RelDecision R, !Total R, !Transitive R} l x :
  last (merge_sort R l) = Some x -> x ∈ l /\ forall y, y ∈ l -> R y x.
Proof.
  intros Hl. pose proof (StronglySorted_merge_sort R l) as Hs.
  assert (Hp : forall y, y ∈ merge_sort R l <-> y ∈ l) by (intros y; by rewrite merge_sort_Permutation).
  set (s := merge_sort R l) in *. clearbody s. split; [by apply Hp, last_Some_elem_of|].
  intros y Hy%Hp. clear Hp. apply last_Some in Hl as [k ->]. apply elem_of_app in Hy as [Hy|Hy%list_elem_of_singleton].
  - induction k as [|z k IH]; [by apply not_elem_of_nil in Hy|]. simpl in Hs. inversion Hs as [|? ? Hs' Hz]; subst.
    apply elem_of_cons in Hy as [->|Hy]; [|by apply IH]. rewrite Forall_forall in Hz. apply Hz. set_solver.
  - subst y. destruct (total R x x); done.
Qed.

Lemma last_sorted_none {A} (R : A -> A -> Prop) `{!RelDecision R} l : last (merge_sort R l) = None -> l = [].
Proof.
  intros Hl%last_None. pose proof (merge_sort_Permutation R l) as Hp. rewrite Hl in Hp. by apply Permutation_nil_l in Hp.
Qed.

Definition of_target (host : string) (port : Z) (r : Z * Baseline) : Prop := bl_target_host r.2 = c_str host /\ bl_target_port r.2 = port.

(** The baseline in force for a target is the newest that is stored for it. *)
Lemma baseline_for_newest host port d b :
  baseline_for host port d = Some b ->
  exists r, r ∈ db_baselines d /\ of_target host port r /\ b = baseline_from_row r.2 /\
    forall r', r' ∈ db_baselines d -> of_target host port r' -> row_before bl_created_ns r' r.
Proof.
  unfold baseline_for. destruct (last _) as [r|] eqn:Hl; [|done]. simpl. intros [= <-].
  apply (last_sorted _) in Hl as [[Ht Hr]%list_elem_of_filter Hmax]. exists r. split_and!; try done; [apply Ht..|].
  intros r' Hr' Ht'. apply Hmax, list_elem_of_filter. by split.
Qed.

Lemma next_rowid_above ids x : x ∈ ids -> x < next_rowid ids.
Proof.
  unfold next_rowid. induction ids as [|y ids IH]; [by intros ?%not_elem_of_nil|]. simpl. intros [->|Hx]%elem_of_cons; [lia|].
  specialize (IH Hx). lia.
Qed.

Definition baseline_storable (b : Baseline) : Prop :=
  text_ok (bl_target_host b) /\ in_u 16 (bl_target_port b) /\ in_u 64 (bl_rtt_median_us b) /\ in_u 64 (bl_rttvar_median_us b) /\
  text_ok (bl_accepted_spki_sha256 b) /\ text_ok (bl_accepted_issuer b) /\ in_u 64 (bl_sample_count b) /\ in_u 64 (bl_created_ns b) /\
  text_ok (bl_sha256 b).
#[global] Instance baseline_storable_dec b : Decision (baseline_storable b).
Proof. unfold baseline_storable. apply _. Defined.

Lemma baseline_back b : baseline_storable b -> baseline_from_row (bind_baseline b) = b.
Proof.
  intros (H1 & H2 & H3 & H4 & H5 & H6 & H7 & H8 & H9). unfold baseline_from_row, bind_baseline, text_ok in *. simpl.
  rewrite H1, H5, H6, H9, !wrap_u_wrap_s, wrap_u_id by done. by destruct b.
Qed.

(** A new baseline that is not older than those of its target is the one in force for it; other targets keep theirs, and saving it again
    changes nothing. *)
Theorem save_baseline_in_force b d :
  db_ok d -> baseline_storable b ->
  (forall r, r ∈ db_baselines d -> bl_sha256 r.2 <> bl_sha256 b) ->
  (forall r, r ∈ db_baselines d -> of_target (bl_target_host b) (bl_target_port b) r -> bl_created_ns r.2 <= wrap_s 64 (bl_created_ns b)) ->
  baseline_for (bl_target_host b) (bl_target_port b) (save_baseline b d) = Some b /\
  (forall host port, c_str host <> bl_target_host b \/ port <> bl_target_port b ->
     baseline_for host port (save_baseline b d) = baseline_for host port d) /\
  save_baseline b (save_baseline b d) = save_baseline b d.
Proof.
  intros Hok Hb Hsha Hold. pose proof Hb as (Hhost & Hport & _ & _ & _ & _ & _ & _ & Hshab).
  set (row := bind_baseline b). set (id := next_rowid (map fst (db_baselines d))).
  assert (Hrow : bl_sha256 row = bl_sha256 b) by (exact Hshab).
  assert (Hsave : save_baseline b d = MkHistoryDb (db_store d) (db_states d) (db_routes d) (db_tls d) (db_baselines d ++ [(id, row)]) (db_verdicts d)).
  { unfold save_baseline. cbv zeta. destruct (List.find _ _) as [r|] eqn:Hf; [|done].
    apply (find_key_some bl_sha256) in Hf as [Hin Hk]. fold row in Hk. rewrite Hrow in Hk. by apply Hsha in Hin. }
  split_and!.
  - rewrite Hsave. destruct (baseline_for _ _ _) as [b'|] eqn:Hf.
    + apply baseline_for_newest in Hf as (r & Hr & Ht & -> & Hmax). f_equal. cbn [db_baselines] in *.
      assert (Htb : of_target (bl_target_host b) (bl_target_port b) (id, row)) by done.
      specialize (Hmax (id, row) ltac:(set_solver) Htb). apply elem_of_app in Hr as [Hr|Hr%list_elem_of_singleton].
      * exfalso. specialize (Hold r Hr Ht). assert (r.1 < id) by (apply next_rowid_above; rewrite map_fmap; by apply list_elem_of_fmap_2).
        unfold row_before in Hmax. simpl in Hmax. lia.
      * subst r. by apply baseline_back.
    + unfold baseline_for in Hf. cbn [db_baselines] in Hf. destruct (last _) eqn:Hl; [done|]. apply last_sorted_none in Hl.
      rewrite filter_app, filter_cons_True in Hl by done. by apply app_eq_nil in Hl as [_ ?].
  - intros host port Hne. rewrite Hsave. unfold baseline_for. cbn [db_baselines].
    rewrite filter_app, filter_cons_False, filter_nil, app_nil_r; [done|]. cbn [snd]. intros [E1 E2]. simpl in E1, E2. unfold text_ok in Hhost.
    destruct Hne; congruence.
  - rewrite Hsave. unfold save_baseline at 1. cbv zeta. cbn [db_baselines]. fold row. rewrite find_past.
    destruct (List.find _ (db_baselines d)); [done|]. simpl. by rewrite bool_decide_true.
Qed.

(** ** Lifecycle events *)

Definition endpoint_storable (e : option NetworkEndpoint) : Prop := opt_ok (fun e => text_ok (ne_address e) /\ opt_ok (in_u 16) (ne_port e)) e.

Definition event_storable (e : ConnectionLifecycleEvent) : Prop :=
  let p := le_process e in
  (le_type e = Connect \/ le_type e = Accept \/ le_type e = Close) /\ in_u 64 (le_timestamp_ns e) /\
  opt_ok (fun n => in_u 64 (pni_device n) /\ in_u 64 (pni_inode n)) (lpc_agent_pid_namespace p) /\ opt_ok (in_u 32) (lpc_uid p) /\
  opt_ok (in_u 64) (lpc_start_ticks p) /\ opt_ok text_ok (lpc_comm p) /\ opt_ok (in_u 64) (le_network_namespace_inode e) /\
  family_of_index (family_index (le_address_family e)) = le_address_family e /\
  protocol_of_index (protocol_index (le_protocol e)) = le_protocol e /\ endpoint_storable (le_local e) /\ endpoint_storable (le_remote e) /\
  opt_ok (in_u 64) (le_socket_cookie e) /\ opt_ok (in_u 8) (le_tcp_state e).

(** The event without what its row does not hold.  Of the provenances only that of a test is told apart. *)
#[global] Instance event_storable_dec e : Decision (event_storable e).
Proof. unfold event_storable, endpoint_storable. cbv zeta. apply _. Defined.

Definition recorded_event (e : ConnectionLifecycleEvent) : ConnectionLifecycleEvent :=
  MkLifecycleEvent (le_type e) (le_timestamp_ns e) (if bool_decide (le_provenance e = DeterministicTest) then DeterministicTest else EbpfCore)
    (le_process e) (le_network_namespace_inode e) (le_address_family e) (le_protocol e) EndpointUnknown (le_local e) (le_remote e)
    (le_socket_cookie e) None (le_tcp_state e).

Lemma opt_fmap_back {A} (P : A -> Prop) (f : A -> A) o : (forall x, P x -> f x = x) -> opt_ok P o -> f <$> o = o.
Proof. destruct o; simpl; [intros; f_equal; auto|done]. Qed.

Lemma endpoint_back e : endpoint_storable e -> endpoint_of_columns e = e.
Proof.
  apply opt_fmap_back. intros [a p] [Ha Hp]. simpl in *. rewrite Ha. f_equal. eapply opt_fmap_back; [|exact Hp]. intros; by apply wrap_u_id.
Qed.

Lemma event_back id e : event_storable e ->
  event_from_row (MkLifecycleRow id (event_type_to_string (le_type e)) (wrap_s 64 (le_timestamp_ns e)) e) = recorded_event e.
Proof.
  intros (Ht & Hns & Hns' & Hu & Hst & Hc & Hni & Hf & Hpr & Hl & Hr & Hco & Htcp). unfold event_from_row, recorded_event.
  cbn [lr_event lr_event_type lr_observed_ns].
  rewrite !endpoint_back, Hf, Hpr, wrap_u_wrap_s, !opt_u64_back, opt_u32_back, opt_text_back by done.
  replace (event_type_of_text (event_type_to_string (le_type e))) with (le_type e) by (by destruct Ht as [-> | [-> | ->]]).
  replace (provenance_of_text (provenance_to_string (le_provenance e))) with
    (if bool_decide (le_provenance e = DeterministicTest) then DeterministicTest else EbpfCore) by (by destruct (le_provenance e)).
  replace (wrap_u 8 <$> le_tcp_state e) with (le_tcp_state e) by (symmetry; eapply opt_fmap_back; [|exact Htcp]; intros; by apply wrap_u_id).
  f_equal. destruct (le_process e) as [av k ns u st cm]. simpl in *. f_equal. eapply opt_fmap_back; [|exact Hns'].
  intros [dv ino] [H1 H2]. simpl in *. by rewrite !wrap_u_wrap_s.
Qed.

Lemma order_by_elem {A} (time : A -> Z) l x : x ∈ order_by time l <-> x ∈ l.
Proof.
  unfold order_by. rewrite map_fmap, list_elem_of_fmap. split.
  - intros ([i y] & -> & Hy). rewrite merge_sort_Permutation in Hy. simpl. apply list_elem_of_lookup in Hy as [k Hk].
    rewrite list_lookup_imap in Hk. destruct (l !! k) eqn:E; [|done]. simpl in Hk. injection Hk as _ ->. by eapply list_elem_of_lookup_2.
  - intros [k Hk]%list_elem_of_lookup. exists (Z.of_nat k, x). split; [done|]. rewrite merge_sort_Permutation.
    apply list_elem_of_lookup. exists k. by rewrite list_lookup_imap, Hk.
Qed.

(** An event that is stored is read back as [recorded_event] says, events of other connections are read as before, and storing it
    again changes nothing. *)
Theorem lifecycle_event_round_trip id e d d' :
  event_storable e ->
  (forall r, r ∈ hs_lifecycle_events (db_store d) -> lr_connection_id r = id -> lr_event_type r = event_type_to_string (le_type e) ->
     lr_observed_ns r <> wrap_s 64 (le_timestamp_ns e)) ->
  db_add_lifecycle_event id e d = Ok d' ->
  (forall x, x ∈ lifecycle_events_for_connection id d' <-> x = recorded_event e \/ x ∈ lifecycle_events_for_connection id d) /\
  (forall id', id' <> id -> lifecycle_events_for_connection id' d' = lifecycle_events_for_connection id' d) /\
  db_add_lifecycle_event id e d' = Ok d'.
Proof.
  intros Hs Hnew. unfold db_add_lifecycle_event. destruct (has_row (db_store d) id) eqn:Hc; [|unfold store_add_lifecycle_event; by rewrite Hc].
  set (row := MkLifecycleRow id (event_type_to_string (le_type e)) (wrap_s 64 (le_timestamp_ns e)) e).
  set (s' := MkHistoryStore (hs_processes (db_store d)) (hs_connections (db_store d)) (hs_lifecycle_events (db_store d) ++ [row])
    (hs_transport_samples (db_store d)) (hs_tls_links (db_store d)) (hs_pending_tls (db_store d)) (hs_capture_now_ns (db_store d))).
  assert (Hadd : store_add_lifecycle_event id e (db_store d) = Ok s').
  { unfold store_add_lifecycle_event. cbv zeta. rewrite Hc. cbn [negb]. fold row. destruct (existsb _ _) eqn:Hx; [|done]. exfalso.
    apply existsb_exists in Hx as (r & Hr%list_elem_of_In & [[H1 H2]%andb_true_iff H3]%andb_true_iff).
    apply bool_decide_eq_true in H2. simpl in *. apply (Hnew r Hr); lia || done. }
  rewrite Hadd. cbn [rbind]. intros [= <-].
  split_and!.
  - intros x. unfold lifecycle_events_for_connection, with_store. cbn [db_store hs_lifecycle_events s'].
    rewrite !map_fmap, !list_elem_of_fmap. setoid_rewrite order_by_elem. setoid_rewrite list_elem_of_filter. setoid_rewrite elem_of_app.
    setoid_rewrite list_elem_of_singleton. split.
    + intros (r & -> & Hid & [Hr| ->]); [right; eauto|left; by apply event_back].
    + intros [->|(r & -> & Hid & Hr)]; [|eauto 10]. exists row. split_and!; [symmetry; by apply event_back|done|by right].
  - intros id' Hne. unfold lifecycle_events_for_connection, with_store. cbn [db_store hs_lifecycle_events s'].
    rewrite filter_app, filter_cons_False, filter_nil, app_nil_r; [done|]. simpl. congruence.
  - unfold with_store. cbn [db_store].
    unfold store_add_lifecycle_event. cbv zeta. change (has_row s' id) with (has_row (db_store d) id). rewrite Hc. cbn [negb]. fold row. cbn [hs_lifecycle_events s']. rewrite existsb_app. simpl.
    rewrite !Z.eqb_refl, bool_decide_true, orb_true_r by done. done.
Qed.

(** ** Witnesses *)

Definition record_socket : SocketObservation :=
  MkSocketObservation 99 7 (Some 5) (Some 7) 0 "10.0.0.1" 40000 "10.0.0.2" 443 Connection
    (MkTcpSnapshot 1500 1 0 0 0 0 0 0 0 0 0 0 0 None None "" Contextual).

Definition begun : HistoryDb :=
  (db_begin_connection record_socket (Some (MkProcessIdentity 7 0 (Some 42) "curl" "/usr/bin/curl")) "example.org" 1000 Outbound (empty_db 2000)).2.

Definition degraded : AssuranceVerdict := MkVerdict Degraded Changed "slow" "other key" (S754_zero false) "1" "rules" "" "inputs".

Definition judged : HistoryDb := (save_verdict 1 degraded None None begun).2.

Lemma judged_reachable `{Sha256} : rtc db_step (empty_db 2000) judged.
Proof. eapply rtc_l; [apply step_write, step_begin|]. eapply rtc_l; [|apply rtc_refl]. apply step_verdict. Qed.

Lemma judged_run `{Sha256} : db_run 2000 judged ∅.
Proof.
  replace (∅ : gset Z) with ((∅ : gset Z) ∖ {[1]}) by set_solver. apply (run_saved 2000 1 degraded None None begun).
  - eapply run_write; [apply run_new|apply step_begin].
  - unfold judged. destruct (save_verdict 1 degraded None None begun) as [[[]|e] d] eqn:E; [done|]. exfalso. revert E.
    unfold save_verdict, insert_verdict. assert (Hc : has_connection begun 1 = true) by (vm_compute; reflexivity). simpl bind_real. by rewrite Hc.
Qed.

Lemma verdict_read_everywhere_witness :
  exists c, connection 1 judged = Some c /\ cs_performance c = Degraded /\ cs_trust c = Changed.
Proof.
  destruct (verdict_read_everywhere (H := sum_digest) 2000 judged ∅ 1 degraded) as (c & ex & Hc & Hp & Ht & _).
  - apply judged_run.
  - apply not_elem_of_empty.
  - vm_compute. reflexivity.
  - exists c. split; [exact Hc|]. split; [exact Hp|exact Ht].
Defined.

Definition first_baseline : Baseline := MkBaseline "example.org" 443 20000 500 "spki" "CN=ca" 12 1000 "sha-1".

Lemma save_baseline_in_force_witness :
  baseline_for "example.org" 443 (save_baseline first_baseline (empty_db 0)) = Some first_baseline.
Proof.
  destruct (save_baseline_in_force first_baseline (empty_db 0)) as [E _].
  - apply empty_db_ok.
  - apply (bool_decide_unpack _). vm_compute. exact I.
  - intros r Hr. by apply not_elem_of_nil in Hr.
  - intros r Hr. by apply not_elem_of_nil in Hr.
  - exact E.
Defined.

Definition etw_close : ConnectionLifecycleEvent :=
  MkLifecycleEvent Close 3000 WindowsEtw
    (MkLifecycleProcessContext (MkLifecycleProcessIds (Some 7) (Some 7)) (MkLifecycleProcessIds (Some 7) (Some 7)) None None (Some 42) (Some "curl.exe"))
    None IPv4 Tcp Connection (Some (MkNetworkEndpoint "10.0.0.1" (Some 40000))) (Some (MkNetworkEndpoint "10.0.0.2" (Some 443))) None (Some 11) (Some 7).

Lemma lifecycle_event_round_trip_witness :
  exists d, db_add_lifecycle_event 1 etw_close begun = Ok d /\ recorded_event etw_close ∈ lifecycle_events_for_connection 1 d.
Proof.
  assert (Hc : has (match db_add_lifecycle_event 1 etw_close begun with Ok d => Some d | Throw _ => None end) = true) by (vm_compute; reflexivity).
  destruct (db_add_lifecycle_event 1 etw_close begun) as [d|] eqn:E; [|discriminate Hc].
  exists d. split; [reflexivity|]. apply (lifecycle_event_round_trip 1 etw_close begun d).
  - apply (bool_decide_unpack _). vm_compute. exact I.
  - intros r Hr. by apply not_elem_of_nil in Hr.
  - exact E.
  - left. reflexivity.
Defined.

(** An event that Windows tracing observed is read back as one that eBPF observed, and prints as such. *)
Lemma etw_provenance_lost :
  match db_add_lifecycle_event 1 etw_close begun with
  | Ok d => map (fun e => provenance_to_string (le_provenance e)) (lifecycle_events_for_connection 1 d) = ["EBPF_CORE"]
  | Throw _ => False
  end /\ provenance_to_string (le_provenance etw_close) = "WINDOWS_ETW".
Proof. split; vm_compute; reflexivity. Qed.

(** ** Samples *)

(** What is read for a target are rows of its connections, at most [limit] of them. *)
Lemma recent_samples_bounds host port limit d :
  0 <= limit < 2 ^ 63 ->
  Z.of_nat (length (recent_samples_for_target host port limit d)) <= limit /\
  forall x, x ∈ recent_samples_for_target host port limit d ->
    exists r, r ∈ hs_transport_samples (db_store d) /\ sample_for_target host port d r = true /\ x = sample_from_row (sr_sample r).
Proof.
  intros Hl. unfold recent_samples_for_target. rewrite wrap_s_id by (unfold in_s; lia). split.
  - rewrite length_rev, map_fmap, length_fmap. unfold sql_limit. destruct (Z.ltb_spec limit 0); [lia|]. rewrite length_take. lia.
  - intros x Hx%list_elem_of_In%in_rev%list_elem_of_In. rewrite map_fmap in Hx. apply list_elem_of_fmap in Hx as (r & -> & Hr).
    apply sql_limit_elem in Hr. apply list_elem_of_In, in_rev, list_elem_of_In, order_by_elem, list_elem_of_filter in Hr as [? ?]. eauto.
Qed.
