(* ===== verification/HistoryEnvironment.v ===== *)
(** The host and network environment of connections ([src/core/history_environment.cpp],
    [include/neta/host_network_environment.hpp], [src/platform/linux/host_network_environment.cpp]).

    An environment is stored in four tables: the host, its boots, the network environments of a boot, and the
    link of a connection to its environment.  The first two are shared and updated in place; a network
    environment is written once for its fingerprint.

    The theorems: what was stored is read back ([environment_round_trip]); the evidence of the other
    connections of the same host takes on the host's new name and system ([rehosted]), everything else is as it
    was; and the fingerprint, which covers the name, then no longer is that of what is read
    ([renamed_host_breaks_fingerprint]).  *)

From S2P Require Import Prelude Text Wire Crypto Model History NameResolution TlsSession Verdict HistoryEvidence HistoryRecords.

#[local] Arguments String.append !_ _ /.

Record HostNetworkEnvironmentEvidence := MkEnvironment {
  he_captured_at_ns : Z; he_fidelity : EvidenceFidelity; he_source : string; he_host_id : string; he_hostname : string; he_boot_id : string;
  he_os : string; he_kernel_release : string; he_architecture : string; he_environment_class : string; he_network_namespace_inode : option Z;
  he_interface_index : option Z; he_interface_name : string; he_interface_mac : string; he_interface_mtu : option Z; he_local_address : string;
  he_gateway : string; he_preferred_source : string; he_route_table : option Z; he_route_metric : option Z; he_environment_fingerprint : string }.

Definition host_network_environment_fingerprint `{Sha256} (e : HostNetworkEnvironmentEvidence) : string :=
  sha256_hex ("neta-env-v2|" +:+ he_host_id e +:+ "|" +:+ he_hostname e +:+ "|" +:+ he_os e +:+ "|" +:+ he_boot_id e +:+ "|" +:+
    he_kernel_release e +:+ "|" +:+ he_architecture e +:+ "|" +:+ he_environment_class e +:+ "|" +:+
    optional_integer (he_network_namespace_inode e) +:+ "|" +:+ optional_integer (he_interface_index e) +:+ "|" +:+ he_interface_name e +:+ "|" +:+
    he_interface_mac e +:+ "|" +:+ optional_integer (he_interface_mtu e) +:+ "|" +:+ he_local_address e +:+ "|" +:+ he_gateway e +:+ "|" +:+
    he_preferred_source e +:+ "|" +:+ optional_integer (he_route_table e) +:+ "|" +:+ optional_integer (he_route_metric e)).

(** ** Capture *)

(** What the functions of the capture read: the first lines of files, a number in a file, [gethostname] and [uname]. *)
Record HostReads := MkHostReads {
  hr_first_line : string -> string; hr_number : string -> option Z; hr_wall_now_ns : Z; hr_hostname : option string;
  hr_uname : option (string * string) }.

(** [read_u32]: a number that does not fit is not taken. *)
Definition read_u32 (reads : HostReads) (path : string) : option Z :=
  match hr_number reads path with Some v => if 4294967295 <? v then None else Some v | None => None end.

Definition detect_environment_class (reads : HostReads) : string :=
  let version := string_map tolower (hr_first_line reads "/proc/version") in
  if has (String.index 0 "microsoft" version) || has (String.index 0 "wsl" version) then "WSL" else "LINUX_HOST".

Definition host_id `{Sha256} (reads : HostReads) : string :=
  let machine_id := hr_first_line reads "/etc/machine-id" in
  if bool_decide (machine_id = "") then "" else sha256_hex ("neta-host-id-v1|" +:+ machine_id).

Definition set_fingerprint (f : string) (e : HostNetworkEnvironmentEvidence) : HostNetworkEnvironmentEvidence :=
  MkEnvironment (he_captured_at_ns e) (he_fidelity e) (he_source e) (he_host_id e) (he_hostname e) (he_boot_id e) (he_os e) (he_kernel_release e)
    (he_architecture e) (he_environment_class e) (he_network_namespace_inode e) (he_interface_index e) (he_interface_name e) (he_interface_mac e)
    (he_interface_mtu e) (he_local_address e) (he_gateway e) (he_preferred_source e) (he_route_table e) (he_route_metric e) f.

Definition capture_host_network_environment `{Sha256} (reads : HostReads) (c : ConnectionSummary) (route : RouteObservation) :
    HostNetworkEnvironmentEvidence :=
  let base := "/sys/class/net/" +:+ ro_interface_name route +:+ "/" in
  let named := negb (bool_decide (ro_interface_name route = "")) in
  let e := MkEnvironment (hr_wall_now_ns reads) StronglyCorrelated "linux:host-network-environment" (host_id reads)
    (value_or (hr_hostname reads) "") (hr_first_line reads "/proc/sys/kernel/random/boot_id") "Linux"
    (match hr_uname reads with Some u => u.1 | None => "" end) (match hr_uname reads with Some u => u.2 | None => "" end)
    (detect_environment_class reads) (cs_network_namespace_inode c)
    (if ro_interface_index route =? 0 then None else Some (ro_interface_index route)) (ro_interface_name route)
    (if named then hr_first_line reads (base +:+ "address") else "") (if named then read_u32 reads (base +:+ "mtu") else None)
    (cs_local_ip c) (ro_gateway route) (ro_source route) (ro_table route) (ro_metric route) "" in
  set_fingerprint (host_network_environment_fingerprint e) e.

(** ** Tables *)

Record HostRow := MkHostRow { ho_host_id : string; ho_hostname : string; ho_os : string; ho_architecture : string; ho_environment_class : string }.
Record BootRow := MkBootRow { bo_host_identity_id : Z; bo_boot_id : string; bo_kernel_release : string }.
Record EnvironmentRow := MkEnvironmentRow {
  en_host_boot_id : Z; en_network_namespace_inode : option Z; en_interface_index : option Z; en_interface_name : string; en_interface_mac : string;
  en_interface_mtu : option Z; en_local_address : string; en_gateway : string; en_preferred_source : string; en_route_table : option Z;
  en_route_metric : option Z; en_environment_fingerprint : string }.
Record LinkRow := MkLinkRow { li_network_environment_id : Z; li_captured_at_ns : Z; li_fidelity : string; li_source : string }.

Record EnvTables := MkEnvTables {
  et_hosts : list (Z * HostRow); et_boots : list (Z * BootRow); et_environments : list (Z * EnvironmentRow); et_links : gmap Z LinkRow }.

(** [INSERT ... ON CONFLICT(key) DO UPDATE] of all the other columns, and the id of the row. *)
Definition upsert_row {A K} `{EqDecision K} (key : A -> K) (row : A) (rows : list (Z * A)) : Z * list (Z * A) :=
  match List.find (fun r => bool_decide (key r.2 = key row)) rows with
  | Some (id, _) => (id, map (fun r => if r.1 =? id then (id, row) else r) rows)
  | None => let id := next_rowid (map fst rows) in (id, rows ++ [(id, row)])
  end.

(** [INSERT ... ON CONFLICT(key) DO NOTHING], and the id of the row with the key. *)
Definition insert_once {A K} `{EqDecision K} (key : A -> K) (row : A) (rows : list (Z * A)) : Z * list (Z * A) :=
  match List.find (fun r => bool_decide (key r.2 = key row)) rows with
  | Some (id, _) => (id, rows)
  | None => let id := next_rowid (map fst rows) in (id, rows ++ [(id, row)])
  end.

Definition bind_host (e : HostNetworkEnvironmentEvidence) : HostRow :=
  MkHostRow (c_str (he_host_id e)) (c_str (he_hostname e)) (c_str (he_os e)) (c_str (he_architecture e)) (c_str (he_environment_class e)).

Definition boot_key (b : BootRow) : Z * string := (bo_host_identity_id b, bo_boot_id b).

Definition bind_environment (boot : Z) (e : HostNetworkEnvironmentEvidence) : EnvironmentRow :=
  MkEnvironmentRow boot (wrap_s 64 <$> he_network_namespace_inode e) (he_interface_index e) (c_str (he_interface_name e)) (c_str (he_interface_mac e))
    (he_interface_mtu e) (c_str (he_local_address e)) (c_str (he_gateway e)) (c_str (he_preferred_source e)) (he_route_table e) (he_route_metric e)
    (c_str (he_environment_fingerprint e)).

Definition bind_link (environment : Z) (e : HostNetworkEnvironmentEvidence) : LinkRow :=
  MkLinkRow environment (wrap_s 64 (he_captured_at_ns e)) (fidelity_to_string (he_fidelity e)) (c_str (he_source e)).

(** Each statement is its own transaction: when the link fails, what was written before stays. *)
Definition add_host_network_environment (known : Z -> bool) (connection_id : Z) (e : HostNetworkEnvironmentEvidence) (t : EnvTables) :
    result Z * EnvTables :=
  let '(host, hosts) := upsert_row ho_host_id (bind_host e) (et_hosts t) in
  let '(boot, boots) := upsert_row boot_key (MkBootRow host (c_str (he_boot_id e)) (c_str (he_kernel_release e))) (et_boots t) in
  let '(env, envs) := insert_once en_environment_fingerprint (bind_environment boot e) (et_environments t) in
  if known connection_id
  then (Ok env, MkEnvTables hosts boots envs (<[connection_id := bind_link env e]> (et_links t)))
  else (Throw foreign_key_failed, MkEnvTables hosts boots envs (et_links t)).

(** ** Reading *)

Definition environment_fidelity_from_string (value : string) : EvidenceFidelity :=
  if bool_decide (value = "EXACT") then Exact else if bool_decide (value = "SUPPORTING") then Supporting
  else if bool_decide (value = "CONTEXTUAL") then Contextual else StronglyCorrelated.

Definition row_by_id {A} (id : Z) (rows : list (Z * A)) : option A := snd <$> List.find (fun r => r.1 =? id) rows.

Definition read_environment (l : LinkRow) (n : EnvironmentRow) (b : BootRow) (h : HostRow) : HostNetworkEnvironmentEvidence :=
  MkEnvironment (wrap_u 64 (li_captured_at_ns l)) (environment_fidelity_from_string (li_fidelity l)) (li_source l) (ho_host_id h) (ho_hostname h)
    (bo_boot_id b) (ho_os h) (bo_kernel_release b) (ho_architecture h) (ho_environment_class h) (wrap_u 64 <$> en_network_namespace_inode n)
    (wrap_u 32 <$> en_interface_index n) (en_interface_name n) (en_interface_mac n) (wrap_u 32 <$> en_interface_mtu n) (en_local_address n)
    (en_gateway n) (en_preferred_source n) (wrap_u 32 <$> en_route_table n) (wrap_u 32 <$> en_route_metric n) (en_environment_fingerprint n).

(** The join of the four tables. *)
Definition host_network_environment_for_connection (connection_id : Z) (t : EnvTables) : option HostNetworkEnvironmentEvidence :=
  l ← et_links t !! connection_id;
  n ← row_by_id (li_network_environment_id l) (et_environments t);
  b ← row_by_id (en_host_boot_id n) (et_boots t);
  h ← row_by_id (bo_host_identity_id b) (et_hosts t);
  Some (read_environment l n b h).

(** ** Rows by id *)

Section ById.
Context {A K : Type} `{EqDecision K} (key : A -> K).

Lemma row_by_id_some id (rows : list (Z * A)) row : row_by_id id rows = Some row -> (id, row) ∈ rows.
Proof.
  unfold row_by_id. destruct (List.find _ rows) as [[i x]|] eqn:E; [|done]. simpl. intros [= ->].
  apply List.find_some in E as [Hin E]. simpl in E. apply Z.eqb_eq in E as ->. by apply list_elem_of_In.
Qed.

Lemma row_by_id_elem id (rows : list (Z * A)) row : rows_ok key rows -> (id, row) ∈ rows -> row_by_id id rows = Some row.
Proof.
  intros Hok Hin. destruct (row_by_id id rows) as [x|] eqn:E.
  - apply row_by_id_some in E. pose proof (id_unique key rows _ _ Hok E Hin eq_refl). congruence.
  - unfold row_by_id in E. destruct (List.find _ rows) eqn:Hf; [done|]. apply list_elem_of_In in Hin.
    pose proof (List.find_none _ _ Hf _ Hin) as Hn. simpl in Hn. by rewrite Z.eqb_refl in Hn.
Qed.

Lemma row_by_id_append id (rows : list (Z * A)) i row : i <> id -> row_by_id i (rows ++ [(id, row)]) = row_by_id i rows.
Proof.
  intros Hne. unfold row_by_id. rewrite find_past. destruct (List.find _ rows); [done|]. simpl. by destruct (Z.eqb_spec id i).
Qed.

Lemma row_by_id_replace id (rows : list (Z * A)) i row :
  i <> id -> row_by_id i (map (fun r => if r.1 =? id then (id, row) else r) rows) = row_by_id i rows.
Proof.
  intros Hne. unfold row_by_id. induction rows as [|r rows IH]; [done|]. simpl.
  destruct (Z.eqb_spec r.1 id) as [E|]; simpl; [|by destruct (Z.eqb_spec r.1 i)].
  destruct (Z.eqb_spec id i); [done|]. destruct (Z.eqb_spec r.1 i); [congruence|done].
Qed.

Lemma upsert_row_spec row rows id rows' :
  rows_ok key rows -> upsert_row key row rows = (id, rows') ->
  rows_ok key rows' /\ row_by_id id rows' = Some row /\ (forall i, i <> id -> row_by_id i rows' = row_by_id i rows) /\
  (forall old, row_by_id id rows = Some old -> key old = key row) /\
  (forall i old, row_by_id i rows = Some old -> key old = key row -> i = id).
Proof.
  intros Hok. unfold upsert_row. destruct (List.find _ rows) as [[i old]|] eqn:Hf.
  - apply find_key_some in Hf as [Hin Hk]. simpl in Hk. intros [= <- <-].
    pose proof (replace_row_ok key i old row rows Hok Hin Hk) as Hok'. split_and!; [done| | | |].
    + apply row_by_id_elem; [done|]. apply (replace_row_elem key i old row rows _ Hok Hin Hk). by left.
    + intros j Hj. by apply row_by_id_replace.
    + intros x Hx%row_by_id_some. pose proof (id_unique key rows _ _ Hok Hx Hin eq_refl). congruence.
    + intros j x Hx%row_by_id_some Hkx. pose proof (key_unique key rows _ _ Hok Hx Hin ltac:(simpl; congruence)). congruence.
  - intros [= <- <-]. split_and!; [by apply append_row_ok| | | |].
    + apply row_by_id_elem; [by apply append_row_ok|]. set_solver.
    + intros j Hj. by apply row_by_id_append.
    + intros x Hx%row_by_id_some. exfalso. apply (next_rowid_fresh (map fst rows)). rewrite map_fmap at 2.
      change (next_rowid (map fst rows)) with (next_rowid (map fst rows), x).1 at 1. by apply list_elem_of_fmap_2.
    + intros j x Hx%row_by_id_some Hkx. by destruct (find_key_none key _ _ _ Hf Hx).
Qed.

Lemma insert_once_spec row rows id rows' :
  rows_ok key rows -> insert_once key row rows = (id, rows') ->
  rows_ok key rows' /\
  (exists kept, row_by_id id rows' = Some kept /\ key kept = key row /\ (kept = row \/ (id, kept) ∈ rows)) /\
  (forall i x, row_by_id i rows = Some x -> row_by_id i rows' = Some x) /\
  (forall x, row_by_id id rows' = Some x -> x = row \/ row_by_id id rows = Some x) /\
  (forall i x, row_by_id i rows' = Some x -> i = id \/ row_by_id i rows = Some x).
Proof.
  intros Hok. unfold insert_once. destruct (List.find _ rows) as [[i old]|] eqn:Hf.
  - apply find_key_some in Hf as [Hin Hk]. simpl in Hk. intros [= <- <-]. split_and!; auto.
    exists old. split_and!; [by apply row_by_id_elem|done|by right].
  - intros [= <- <-]. pose proof (append_row_ok key rows row Hok Hf) as Hok'. set (id0 := next_rowid (map fst rows)) in *.
    assert (Hself : row_by_id id0 (rows ++ [(id0, row)]) = Some row) by (apply row_by_id_elem; [done|set_solver]).
    split_and!; [done| | | |].
    + exists row. auto.
    + intros j x Hx. rewrite row_by_id_append; [done|]. intros ->. apply row_by_id_some in Hx.
      apply (next_rowid_fresh (map fst rows)). fold id0. rewrite map_fmap. change id0 with (id0, x).1. by apply list_elem_of_fmap_2.
    + intros x Hx. left. congruence.
    + intros j x Hx. destruct (decide (j = id0)); [by left|]. right. by rewrite row_by_id_append in Hx.
Qed.
End ById.

(** ** Environments are read back *)

(** Ids and keys are unique, and the rows refer to rows that exist. *)
Record env_ok (t : EnvTables) : Prop := {
  eo_hosts : rows_ok ho_host_id (et_hosts t);
  eo_boots : rows_ok boot_key (et_boots t);
  eo_environments : rows_ok en_environment_fingerprint (et_environments t);
  eo_boot_host b : b ∈ et_boots t -> is_Some (row_by_id (bo_host_identity_id b.2) (et_hosts t));
  eo_environment_boot n : n ∈ et_environments t -> is_Some (row_by_id (en_host_boot_id n.2) (et_boots t));
  eo_link c l : et_links t !! c = Some l -> is_Some (row_by_id (li_network_environment_id l) (et_environments t)) }.

Definition environment_storable (e : HostNetworkEnvironmentEvidence) : Prop :=
  in_u 64 (he_captured_at_ns e) /\ text_ok (he_source e) /\ text_ok (he_host_id e) /\ text_ok (he_hostname e) /\ text_ok (he_boot_id e) /\
  text_ok (he_os e) /\ text_ok (he_kernel_release e) /\ text_ok (he_architecture e) /\ text_ok (he_environment_class e) /\
  opt_ok (in_u 64) (he_network_namespace_inode e) /\ opt_ok (in_u 32) (he_interface_index e) /\ text_ok (he_interface_name e) /\
  text_ok (he_interface_mac e) /\ opt_ok (in_u 32) (he_interface_mtu e) /\ text_ok (he_local_address e) /\ text_ok (he_gateway e) /\
  text_ok (he_preferred_source e) /\ opt_ok (in_u 32) (he_route_table e) /\ opt_ok (in_u 32) (he_route_metric e) /\
  text_ok (he_environment_fingerprint e).
#[global] Instance environment_storable_dec e : Decision (environment_storable e).
Proof. unfold environment_storable. apply _. Defined.

Lemma environment_back e env boot host : environment_storable e ->
  read_environment (bind_link env e) (bind_environment boot e) (MkBootRow host (c_str (he_boot_id e)) (c_str (he_kernel_release e))) (bind_host e) = e.
Proof.
  unfold environment_storable, text_ok.
  intros (H1 & H2 & H3 & H4 & H5 & H6 & H7 & H8 & H9 & H10 & H11 & H12 & H13 & H14 & H15 & H16 & H17 & H18 & H19 & H20).
  unfold read_environment, bind_link, bind_environment, bind_host.
  cbn [li_captured_at_ns li_fidelity li_source ho_host_id ho_hostname bo_boot_id ho_os bo_kernel_release ho_architecture ho_environment_class
    en_network_namespace_inode en_interface_index en_interface_name en_interface_mac en_interface_mtu en_local_address en_gateway
    en_preferred_source en_route_table en_route_metric en_environment_fingerprint].
  rewrite H2, H3, H4, H5, H6, H7, H8, H9, H12, H13, H15, H16, H17, H20, wrap_u_wrap_s, opt_u64_back, !opt_u32_back by done.
  replace (environment_fidelity_from_string (fidelity_to_string (he_fidelity e))) with (he_fidelity e) by (by destruct (he_fidelity e)).
  by destruct e.
Qed.

(** What another connection's evidence becomes when [e] is stored: the row of the host, and that of the boot, are the new ones. *)
Definition rehosted (e x : HostNetworkEnvironmentEvidence) : HostNetworkEnvironmentEvidence :=
  if bool_decide (he_host_id x = c_str (he_host_id e)) then
    MkEnvironment (he_captured_at_ns x) (he_fidelity x) (he_source x) (he_host_id x) (c_str (he_hostname e)) (he_boot_id x) (c_str (he_os e))
      (if bool_decide (he_boot_id x = c_str (he_boot_id e)) then c_str (he_kernel_release e) else he_kernel_release x) (c_str (he_architecture e))
      (c_str (he_environment_class e)) (he_network_namespace_inode x) (he_interface_index x) (he_interface_name x) (he_interface_mac x)
      (he_interface_mtu x) (he_local_address x) (he_gateway x) (he_preferred_source x) (he_route_table x) (he_route_metric x)
      (he_environment_fingerprint x)
  else x.

(** The row that is stored for the fingerprint of [e], if any, describes [e] on its boot of its host. *)
Definition fingerprint_honest (e : HostNetworkEnvironmentEvidence) (t : EnvTables) : Prop :=
  forall n, n ∈ et_environments t -> en_environment_fingerprint n.2 = c_str (he_environment_fingerprint e) ->
  exists b h, n.2 = bind_environment (en_host_boot_id n.2) e /\ row_by_id (en_host_boot_id n.2) (et_boots t) = Some b /\
    bo_boot_id b = c_str (he_boot_id e) /\ row_by_id (bo_host_identity_id b) (et_hosts t) = Some h /\ ho_host_id h = c_str (he_host_id e).

Section add.
Context (e : HostNetworkEnvironmentEvidence) (t : EnvTables) (Hok : env_ok t).
Context (host boot env : Z) (hosts : list (Z * HostRow)) (boots : list (Z * BootRow)) (envs : list (Z * EnvironmentRow)).
Let boot_row := MkBootRow host (c_str (he_boot_id e)) (c_str (he_kernel_release e)).
Context (Eh : upsert_row ho_host_id (bind_host e) (et_hosts t) = (host, hosts))
  (Eb : upsert_row boot_key boot_row (et_boots t) = (boot, boots))
  (Ee : insert_once en_environment_fingerprint (bind_environment boot e) (et_environments t) = (env, envs)).

Lemma host_kept i : is_Some (row_by_id i (et_hosts t)) -> is_Some (row_by_id i hosts).
Proof.
  destruct (upsert_row_spec ho_host_id _ _ _ _ (eo_hosts t Hok) Eh) as (_ & Hid & Hother & _).
  intros Hi. destruct (decide (i = host)) as [->|]; [rewrite Hid; eauto|by rewrite Hother].
Qed.

Lemma boot_kept i : is_Some (row_by_id i (et_boots t)) -> is_Some (row_by_id i boots).
Proof.
  destruct (upsert_row_spec boot_key _ _ _ _ (eo_boots t Hok) Eb) as (_ & Hid & Hother & _).
  intros Hi. destruct (decide (i = boot)) as [->|]; [rewrite Hid; eauto|by rewrite Hother].
Qed.

Lemma added_ok links :
  (forall c l, links !! c = Some l -> is_Some (row_by_id (li_network_environment_id l) envs)) -> env_ok (MkEnvTables hosts boots envs links).
Proof.
  intros Hl. destruct (upsert_row_spec ho_host_id _ _ _ _ (eo_hosts t Hok) Eh) as (Hh & Hhid & Hho & _).
  destruct (upsert_row_spec boot_key _ _ _ _ (eo_boots t Hok) Eb) as (Hb & Hbid & Hbo & _).
  destruct (insert_once_spec en_environment_fingerprint _ _ _ _ (eo_environments t Hok) Ee) as (Hn & _ & _ & Hnew & Hother).
  split; try done; cbn [et_hosts et_boots et_environments et_links].
  - intros [i b] Hin. simpl. apply (row_by_id_elem boot_key) in Hin; [|done]. destruct (decide (i = boot)) as [->|].
    + assert (b = boot_row) as -> by congruence. simpl. rewrite Hhid. eauto.
    + rewrite Hbo in Hin by done. apply row_by_id_some in Hin. apply host_kept. exact (eo_boot_host t Hok _ Hin).
  - intros [i n] Hin. simpl. apply (row_by_id_elem en_environment_fingerprint) in Hin; [|done].
    destruct (Hother _ _ Hin) as [->|Hold]; [destruct (Hnew _ Hin) as [->|Hold]|].
    + simpl. rewrite Hbid. eauto.
    + apply boot_kept. exact (eo_environment_boot t Hok _ (row_by_id_some _ _ _ Hold)).
    + apply boot_kept. exact (eo_environment_boot t Hok _ (row_by_id_some _ _ _ Hold)).
Qed.

(** The evidence of the connections whose link does not change. *)
Lemma others_rehosted l :
  is_Some (row_by_id (li_network_environment_id l) (et_environments t)) ->
  (n ← row_by_id (li_network_environment_id l) envs; b ← row_by_id (en_host_boot_id n) boots;
   h ← row_by_id (bo_host_identity_id b) hosts; Some (read_environment l n b h)) =
  rehosted e <$> (n ← row_by_id (li_network_environment_id l) (et_environments t); b ← row_by_id (en_host_boot_id n) (et_boots t);
                  h ← row_by_id (bo_host_identity_id b) (et_hosts t); Some (read_environment l n b h)).
Proof.
  intros [n Hn]. destruct (upsert_row_spec ho_host_id _ _ _ _ (eo_hosts t Hok) Eh) as (_ & Hhid & Hho & Hhk & Hhu).
  destruct (upsert_row_spec boot_key _ _ _ _ (eo_boots t Hok) Eb) as (_ & Hbid & Hbo & Hbk & Hbu).
  destruct (insert_once_spec en_environment_fingerprint _ _ _ _ (eo_environments t Hok) Ee) as (_ & _ & Hkeep & _).
  rewrite (Hkeep _ _ Hn), Hn. simpl. destruct (eo_environment_boot t Hok _ (row_by_id_some _ _ _ Hn)) as [b Hb]. simpl in Hb. rewrite Hb.
  destruct (eo_boot_host t Hok _ (row_by_id_some _ _ _ Hb)) as [h Hh]. simpl in Hh. simpl. rewrite Hh. simpl.
  unfold rehosted, read_environment. cbn [he_host_id he_boot_id].
  destruct (decide (en_host_boot_id n = boot)) as [Eboot|Hne].
  - pose proof Hb as Hbk'. rewrite Eboot in Hbk'. apply Hbk in Hbk'. unfold boot_key, boot_row in Hbk'. simpl in Hbk'.
    assert (bo_host_identity_id b = host) as Ehost by congruence. assert (bo_boot_id b = c_str (he_boot_id e)) as Ebid by congruence.
    rewrite Ehost in Hh. pose proof (Hhk _ Hh) as Hhk'. simpl in Hhk'.
    rewrite Eboot, Hbid. simpl. rewrite Hhid. simpl. rewrite Hhk', !bool_decide_true by done. simpl. by rewrite Ebid.
  - rewrite Hbo, Hb by done. simpl. destruct (decide (bo_host_identity_id b = host)) as [Ehost|Hneh].
    + rewrite Ehost in *. pose proof (Hhk _ Hh) as Hhk'. simpl in Hhk'. rewrite Hhid. simpl.
      rewrite Hhk', bool_decide_true by done. simpl. rewrite bool_decide_false; [done|].
      intros Ebid. apply Hne. apply (Hbu _ b Hb). unfold boot_key, boot_row. simpl. congruence.
    + rewrite Hho, Hh by done. simpl. rewrite bool_decide_false; [done|]. intros Eid. apply Hneh. exact (Hhu _ _ Hh Eid).
Qed.

(** The environment row that the new link refers to. *)
Lemma linked_row : fingerprint_honest e t ->
  exists n, row_by_id env envs = Some n /\ n = bind_environment boot e.
Proof.
  intros Hf. destruct (upsert_row_spec ho_host_id _ _ _ _ (eo_hosts t Hok) Eh) as (_ & Hhid & Hho & Hhk & Hhu).
  destruct (upsert_row_spec boot_key _ _ _ _ (eo_boots t Hok) Eb) as (_ & Hbid & Hbo & Hbk & Hbu).
  destruct (insert_once_spec en_environment_fingerprint _ _ _ _ (eo_environments t Hok) Ee) as (_ & (n & Hn & Hk & Hor) & _).
  exists n. split; [done|]. destruct Hor as [->|Hin]; [done|].
  destruct (Hf _ Hin Hk) as (b & h & En & Hb & Hbid' & Hh & Hhid'). simpl in *.
  assert (Ehost : bo_host_identity_id b = host) by exact (Hhu _ _ Hh Hhid').
  assert (Eboot : en_host_boot_id n = boot) by (apply (Hbu _ b Hb); unfold boot_key, boot_row; simpl; congruence).
  by rewrite Eboot in En.
Qed.
End add.

(** An environment that is stored for a connection is read back as it was, if no environment with its fingerprint but other columns is
    stored; the environments of other connections are read as before, but for what the new one says of its host. *)
Theorem environment_round_trip known c e t :
  env_ok t -> environment_storable e -> fingerprint_honest e t -> known c = true ->
  exists id t', add_host_network_environment known c e t = (Ok id, t') /\ env_ok t' /\
    host_network_environment_for_connection c t' = Some e /\
    forall c', c' <> c -> host_network_environment_for_connection c' t' = rehosted e <$> host_network_environment_for_connection c' t.
Proof.
  intros Hok Hs Hf Hknown. unfold add_host_network_environment.
  destruct (upsert_row ho_host_id _ _) as [host hosts] eqn:Eh. destruct (upsert_row boot_key _ _) as [boot boots] eqn:Eb.
  destruct (insert_once _ _ _) as [env envs] eqn:Ee. rewrite Hknown. do 2 eexists. split; [reflexivity|].
  destruct (linked_row e t Hok _ _ _ _ _ _ Eh Eb Ee Hf) as (n & Hn & En).
  destruct (insert_once_spec en_environment_fingerprint _ _ _ _ (eo_environments t Hok) Ee) as (_ & _ & Hkeep & _).
  assert (Hlinked : forall l, is_Some (row_by_id (li_network_environment_id l) (et_environments t)) ->
    is_Some (row_by_id (li_network_environment_id l) envs)) by (intros l [x Hx]; rewrite (Hkeep _ _ Hx); eauto).
  split_and!.
  - eapply added_ok; [exact Hok|exact Eh|exact Eb|exact Ee|]. intros c' l. destruct (decide (c' = c)) as [->|].
    + rewrite lookup_insert_eq. intros [= <-]. simpl. rewrite Hn. eauto.
    + rewrite lookup_insert_ne by done. intros Hl. apply Hlinked. exact (eo_link t Hok _ _ Hl).
  - unfold host_network_environment_for_connection. cbn [et_links et_environments et_boots et_hosts]. rewrite lookup_insert_eq.
    simpl. rewrite Hn, En. simpl. destruct (upsert_row_spec boot_key _ _ _ _ (eo_boots t Hok) Eb) as (_ & -> & _). simpl.
    destruct (upsert_row_spec ho_host_id _ _ _ _ (eo_hosts t Hok) Eh) as (_ & -> & _). simpl. f_equal. by apply environment_back.
  - intros c' Hne. unfold host_network_environment_for_connection. cbn [et_links et_environments et_boots et_hosts].
    rewrite lookup_insert_ne by done. destruct (et_links t !! c') as [l|] eqn:El; [|done].
    exact (others_rehosted e t Hok _ _ _ _ _ _ Eh Eb Ee l (eo_link t Hok _ _ El)).
Qed.

(** ** Witnesses *)

Definition no_environments : EnvTables := MkEnvTables [] [] [] ∅.

Definition captured (hostname : string) : HostNetworkEnvironmentEvidence :=
  capture_host_network_environment (H := sum_digest)
    (MkHostReads (fun path => if bool_decide (path = "/proc/version") then "Linux version 6.1" else "x") (fun _ => Some 1500) 7 (Some hostname)
       (Some ("6.1.0", "x86_64")))
    sample_summary (MkRouteObservation "10.0.0.2" "10.0.0.1" "10.0.0.254" "eth0" 2 None None 5 "" OutboundSelectedRoute).

Lemma environment_round_trip_witness :
  exists id t', add_host_network_environment (fun _ => true) 3 (captured "alpha") no_environments = (Ok id, t') /\
    host_network_environment_for_connection 3 t' = Some (captured "alpha").
Proof.
  destruct (environment_round_trip (fun _ => true) 3 (captured "alpha") no_environments) as (id & t' & E & _ & Hr & _).
  - split; cbn [no_environments et_hosts et_boots et_environments et_links map]; try (split; constructor).
    + intros b Hb. by apply not_elem_of_nil in Hb.
    + intros n Hn. by apply not_elem_of_nil in Hn.
    + intros c l Hl. by rewrite lookup_empty in Hl.
  - apply (bool_decide_unpack _). vm_compute. exact I.
  - intros n Hn. by apply not_elem_of_nil in Hn.
  - reflexivity.
  - exists id, t'. split; [exact E|exact Hr].
Defined.

(** After the host was renamed and another connection was captured, the evidence of the first connection reads with the new name and
    its old fingerprint, which is no longer the fingerprint of what is read. *)
Lemma renamed_host_breaks_fingerprint :
  let t := (add_host_network_environment (fun _ => true) 4 (captured "beta")
              (add_host_network_environment (fun _ => true) 3 (captured "alpha") no_environments).2).2 in
  host_network_environment_fingerprint (H := sum_digest) (captured "alpha") = he_environment_fingerprint (captured "alpha") /\
  match host_network_environment_for_connection 3 t with
  | Some e => he_hostname e = "beta" /\ he_environment_fingerprint e = he_environment_fingerprint (captured "alpha") /\
              host_network_environment_fingerprint (H := sum_digest) e <> he_environment_fingerprint e
  | None => False
  end.
Proof. vm_compute. split; [reflexivity|]. split_and!; [reflexivity..|discriminate]. Qed.
