(* ===== verification/Session.v ===== *)
(** The observation session ([src/core/observation_session.cpp], [include/neta/observation_session.hpp]):
    the loop that puts together admission, tracking, the evidence scheduler and the correlation of names and
    TLS sessions, and reports what happens to its caller.

    [S] is everything outside the session: the history database, which it writes through [HistoryOps] and
    [EvidenceStore], and the operating system's observers and clock ([Observers]).  The callbacks and the
    storage maintenance are functions on it.  The variables of [run] are a [Session], its lambdas are programs
    of a state monad.  [ss_log] is a ghost: what the session did to which connection, in order.

    A [std::set] is iterated in ascending order, an [unordered_map] in the order of [map_to_list]; observations
    with the same time keep their order when they are sorted.  A database error, which would leave [run] as an
    exception, is not modelled.  The loop has fuel: what is proved holds after any number of rounds
    ([SessionLife]). *)

From stdpp Require Import sorting.
From S2P Require Import Prelude Text Wire Crypto Model History Tracker NameResolution TlsSession Scheduler Verdict HistoryEnvironment.

#[local] Arguments String.append !_ _ /.

(** ** What the session is given *)

Class Observers (S : Type) := {
  steady_now : S -> Z * S;                                   (* nanoseconds *)
  stop_requested : S -> bool * S;
  sleep_for : Z -> S -> S;                                   (* milliseconds *)
  socket_snapshot : S -> list SocketObservation * S;
  lifecycle_dropped_events : S -> option Z;
  poll_lifecycle : Z -> S -> list ConnectionLifecycleEvent * S;
  poll_names : S -> list NameResolutionObservation * S;
  poll_tls : S -> list TlsSessionObservation * S;
  resolve_inode : S -> Z -> option ProcessIdentity;
  resolve_socket : S -> SocketObservation -> option ProcessIdentity;
  route_to : string -> S -> option RouteObservation * S;
  read_host : S -> HostReads * S }.

Class EvidenceStore (S : Type) := {
  read_connection : S -> Z -> option ConnectionSummary;
  store_name_evidence : Z -> NameResolutionEvidence -> S -> S;
  store_tls_evidence : Z -> TlsSessionEvidence -> S -> S;
  store_route : Z -> RouteObservation -> S -> S;
  store_environment : Z -> HostNetworkEnvironmentEvidence -> S -> S }.

Record Callbacks (S : Type) := MkCallbacks {
  cb_started : option (S -> S);
  cb_periodic : option (S -> S);
  cb_transport_observed : option (Z -> TcpSnapshot -> S -> S);
  cb_connection_completed : option (Z -> S -> S) }.
Arguments MkCallbacks {S}.
Arguments cb_started {S} _.
Arguments cb_periodic {S} _.
Arguments cb_transport_observed {S} _.
Arguments cb_connection_completed {S} _.

Record LifecycleCapability := MkLifecycleCapability {
  lc_connect_events : bool; lc_accept_events : bool; lc_close_events : bool }.
Definition lifecycle_available (c : LifecycleCapability) : bool :=
  lc_connect_events c && lc_accept_events c && lc_close_events c.
Definition outbound_available (c : LifecycleCapability) : bool := lc_connect_events c && lc_close_events c.

Record NameResolutionCapability := MkNameCapability {
  nc_application_resolver_api : bool; nc_glibc_getaddrinfo : bool; nc_system_resolver_events : bool }.
Definition names_available (c : NameResolutionCapability) : bool :=
  (nc_application_resolver_api c && nc_glibc_getaddrinfo c) || nc_system_resolver_events c.

Record TlsSessionCapability := MkTlsCapability {
  tp_application_instrumentation : bool; tp_sender_credentials_verified : bool }.
Definition tls_available (c : TlsSessionCapability) : bool :=
  tp_application_instrumentation c && tp_sender_credentials_verified c.

(** [health().evidence_may_be_incomplete()] *)
Definition evidence_may_be_incomplete (dropped_events : option Z) : bool :=
  match dropped_events with Some n => negb (n =? 0) | None => false end.

(** The members of the session and the arguments of [run]; an observer that is missing is [None]. *)
Record SessionConfig (S : Type) := MkSessionConfig {
  oc_policy : AdmissionPolicyConfig;
  oc_target_label : string;
  oc_lifecycle : LifecycleCapability;
  oc_names : option NameResolutionCapability;
  oc_tls : option TlsSessionCapability;
  oc_maintenance : option (Z -> S -> S);
  oc_duration : option Z;                                    (* seconds *)
  oc_transport_poll_interval : Z;                            (* milliseconds *)
  oc_callbacks : Callbacks S }.
Arguments MkSessionConfig {S}.
Arguments oc_policy {S} _.
Arguments oc_target_label {S} _.
Arguments oc_lifecycle {S} _.
Arguments oc_names {S} _.
Arguments oc_tls {S} _.
Arguments oc_maintenance {S} _.
Arguments oc_duration {S} _.
Arguments oc_transport_poll_interval {S} _.
Arguments oc_callbacks {S} _.

Definition has_process_filters (config : AdmissionPolicyConfig) : bool :=
  negb (bool_decide (cf_include_processes (ap_filter config) = ∅)) ||
  negb (bool_decide (cf_exclude_processes (ap_filter config) = ∅)).

(** ** State *)

Record RouteRequest := MkRouteRequest { rq_remote_address : string; rq_direction : ConnectionDirection }.

Record PendingSnapshotCandidate := MkCandidate {
  pc_socket : SocketObservation;
  pc_process : option ProcessIdentity;
  pc_first_seen_ns : Z;
  pc_last_seen_ns : Z;
  pc_startup : bool }.

(** The counters of [ObservationRunResult]. *)
Record RunCounts := MkCounts {
  rc_admitted : nat; rc_names_observed : nat; rc_names_attached : nat; rc_names_ambiguous : nat;
  rc_tls_observed : nat; rc_tls_attached : nat; rc_tls_ambiguous : nat }.

Inductive run_counter := CountAdmitted | CountNames | CountNamed | CountUnclear | CountTls | CountTlsAttached | CountTlsAmbiguous.

Definition raise (c : run_counter) (n : nat) (r : RunCounts) : RunCounts :=
  let '(MkCounts a b d e f g h) := r in
  match c with
  | CountAdmitted => MkCounts (a + n) b d e f g h
  | CountNames => MkCounts a (b + n) d e f g h
  | CountNamed => MkCounts a b (d + n) e f g h
  | CountUnclear => MkCounts a b d (e + n) f g h
  | CountTls => MkCounts a b d e (f + n) g h
  | CountTlsAttached => MkCounts a b d e f (g + n) h
  | CountTlsAmbiguous => MkCounts a b d e f g (h + n)
  end.

(** What happened to a connection: it was admitted, a sample of it was reported, a name or a TLS session (by
    its key) was attached, its route was looked up, it was closed, its completion was reported, or nobody
    wanted to be told of it. *)
Inductive session_event :=
| Entered (id : Z) | Sampled (id : Z) | Named (id : Z) | TlsAttached (id : Z) (key : string) | Routed (id : Z)
| Closed (id : Z) | Completed (id : Z) | Dropped (id : Z).

Record Session (S : Type) := MkSession {
  ss_tracker : Tracker S;
  ss_scheduler : EvidenceScheduler;
  ss_counts : RunCounts;
  ss_connection_ids : gset Z;
  ss_pending_completed : gmap Z Z;
  ss_dispatched_completed : gset Z;
  ss_route_requests : gmap Z RouteRequest;
  ss_candidates : gmap string PendingSnapshotCandidate;
  ss_names : list NameResolutionObservation;
  ss_name_attached : gset Z;
  ss_name_ambiguous : gset Z;
  ss_tls : list TlsSessionObservation;
  ss_tls_keys : gset string;
  ss_log : list session_event }.
Arguments MkSession {S}.
Arguments ss_tracker {S} _.
Arguments ss_scheduler {S} _.
Arguments ss_counts {S} _.
Arguments ss_connection_ids {S} _.
Arguments ss_pending_completed {S} _.
Arguments ss_dispatched_completed {S} _.
Arguments ss_route_requests {S} _.
Arguments ss_candidates {S} _.
Arguments ss_names {S} _.
Arguments ss_name_attached {S} _.
Arguments ss_name_ambiguous {S} _.
Arguments ss_tls {S} _.
Arguments ss_tls_keys {S} _.
Arguments ss_log {S} _.

Definition ss_env {S} (s : Session S) : S := tk_store (ss_tracker s).

Section Setters.
Context {S : Type}.
Definition set_tracker (f : Tracker S -> Tracker S) (s : Session S) : Session S :=
  let '(MkSession t e c i p d r k n a u l y g) := s in MkSession (f t) e c i p d r k n a u l y g.
Definition set_scheduler (f : EvidenceScheduler -> EvidenceScheduler) (s : Session S) : Session S :=
  let '(MkSession t e c i p d r k n a u l y g) := s in MkSession t (f e) c i p d r k n a u l y g.
Definition set_counts (f : RunCounts -> RunCounts) (s : Session S) : Session S :=
  let '(MkSession t e c i p d r k n a u l y g) := s in MkSession t e (f c) i p d r k n a u l y g.
Definition set_ids (f : gset Z -> gset Z) (s : Session S) : Session S :=
  let '(MkSession t e c i p d r k n a u l y g) := s in MkSession t e c (f i) p d r k n a u l y g.
Definition set_pending_completed (f : gmap Z Z -> gmap Z Z) (s : Session S) : Session S :=
  let '(MkSession t e c i p d r k n a u l y g) := s in MkSession t e c i (f p) d r k n a u l y g.
Definition set_dispatched (f : gset Z -> gset Z) (s : Session S) : Session S :=
  let '(MkSession t e c i p d r k n a u l y g) := s in MkSession t e c i p (f d) r k n a u l y g.
Definition set_requests (f : gmap Z RouteRequest -> gmap Z RouteRequest) (s : Session S) : Session S :=
  let '(MkSession t e c i p d r k n a u l y g) := s in MkSession t e c i p d (f r) k n a u l y g.
Definition set_candidates (f : gmap string PendingSnapshotCandidate -> gmap string PendingSnapshotCandidate) (s : Session S) : Session S :=
  let '(MkSession t e c i p d r k n a u l y g) := s in MkSession t e c i p d r (f k) n a u l y g.
Definition set_names (f : list NameResolutionObservation -> list NameResolutionObservation) (s : Session S) : Session S :=
  let '(MkSession t e c i p d r k n a u l y g) := s in MkSession t e c i p d r k (f n) a u l y g.
Definition set_attached (f : gset Z -> gset Z) (s : Session S) : Session S :=
  let '(MkSession t e c i p d r k n a u l y g) := s in MkSession t e c i p d r k n (f a) u l y g.
Definition set_ambiguous (f : gset Z -> gset Z) (s : Session S) : Session S :=
  let '(MkSession t e c i p d r k n a u l y g) := s in MkSession t e c i p d r k n a (f u) l y g.
Definition set_tls (f : list TlsSessionObservation -> list TlsSessionObservation) (s : Session S) : Session S :=
  let '(MkSession t e c i p d r k n a u l y g) := s in MkSession t e c i p d r k n a u (f l) y g.
Definition set_keys (f : gset string -> gset string) (s : Session S) : Session S :=
  let '(MkSession t e c i p d r k n a u l y g) := s in MkSession t e c i p d r k n a u l (f y) g.
Definition set_log (f : list session_event -> list session_event) (s : Session S) : Session S :=
  let '(MkSession t e c i p d r k n a u l y g) := s in MkSession t e c i p d r k n a u l y (f g).
End Setters.

(** ** Programs *)

Definition M (S A : Type) : Type := Session S -> A * Session S.

Section Programs.
Context {S : Type}.
Definition ret {A} (a : A) : M S A := fun s => (a, s).
Definition bind {A B} (m : M S A) (k : A -> M S B) : M S B := fun s => let '(a, s') := m s in k a s'.
Definition get {A} (f : Session S -> A) : M S A := fun s => (f s, s).
Definition modify (f : Session S -> Session S) : M S unit := fun s => (tt, f s).
(** A call of something outside that may change it, one that only reads, and a call of the tracker. *)
Definition env {A} (f : S -> A * S) : M S A := fun s =>
  let '(a, e) := f (ss_env s) in (a, set_tracker (with_store (fun _ => e)) s).
Definition act (f : S -> S) : M S unit := env (fun e => (tt, f e)).
Definition tracking {A} (f : Tracker S -> A * Tracker S) : M S A := fun s =>
  let '(a, t) := f (ss_tracker s) in (a, set_tracker (fun _ => t) s).
Definition tell (e : session_event) : M S unit := modify (set_log (fun log => log ++ [e])).
Definition count (c : run_counter) (n : nat) : M S unit := modify (set_counts (raise c n)).

Fixpoint fold_each {A B} (f : A -> B -> M S A) (l : list B) (a : A) : M S A :=
  match l with [] => ret a | b :: l' => bind (f a b) (fold_each f l') end.
Definition for_each {B} (l : list B) (f : B -> M S unit) : M S unit := fold_each (fun _ => f) l tt.
End Programs.

Declare Scope session_scope.
Delimit Scope session_scope with session.
Notation "'let*' x := c 'in' k" := (bind c (fun x => k)) (at level 10, x pattern, c at level 100, k at level 200) : session_scope.
Notation "'do' c 'then' k" := (bind c (fun _ => k)) (at level 10, c at level 100, k at level 200) : session_scope.
#[local] Open Scope session_scope.

(** ** Keys, windows and buffers *)

Definition snapshot_reconciliation_grace_ns : Z := 250000000.
Definition snapshot_candidate_stale_ns : Z := 5000000000.
Definition max_snapshot_reconciliation_candidates : nat := 4096.
Definition max_name_resolution_observations : nat := 4096.
Definition max_tls_session_observations : nat := 4096.
(** [NameResolutionCorrelationPolicy{}], [TlsSessionCorrelationPolicy{}] *)
Definition name_max_age_ns : Z := 5000000000.
Definition tuple_max_age_ns : Z := 30000000000.
(** [completion_evidence_grace], in nanoseconds *)
Definition completion_evidence_grace : Z := 350 * ns_per_ms.
(** [std::chrono::milliseconds::max()] *)
Definition milliseconds_max : Z := 2 ^ 63 - 1.

Definition key_of (local_ip : string) (local_port : Z) (remote_ip : string) (remote_port : Z) (process : string) : string :=
  local_ip +:+ ":" +:+ to_string local_port +:+ "->" +:+ remote_ip +:+ ":" +:+ to_string remote_port +:+ process.

Definition pid_part (pid start : Z) : string := "|pid:" +:+ to_string pid +:+ "|start:" +:+ to_string start.

Definition snapshot_tuple_key (socket : SocketObservation) (process : option ProcessIdentity) : string :=
  key_of (so_local_ip socket) (so_local_port socket) (so_remote_ip socket) (so_remote_port socket)
    match process, so_owning_pid socket with
    | Some p, _ => pid_part (pi_pid p) (value_or (pi_start_ticks p) 0)
    | None, Some pid => pid_part pid 0
    | None, None => ""
    end.

Definition lifecycle_tuple_key (event : ConnectionLifecycleEvent) (reverse : bool) : string :=
  match le_local event, le_remote event with
  | Some l, Some r =>
      let local := if reverse then r else l in
      let remote := if reverse then l else r in
      key_of (ne_address local) (value_or (ne_port local) 0) (ne_address remote) (value_or (ne_port remote) 0)
        match lpi_tgid (lpc_agent_visible (le_process event)) with
        | Some tgid => pid_part tgid (value_or (lpc_start_ticks (le_process event)) 0)
        | None => ""
        end
  | _, _ => ""
  end.

(** A [std::set<std::int64_t>] in the order of its iteration. *)
Definition ascending (ids : gset Z) : list Z := merge_sort Z.le (elements ids).

(** The last [n] of a vector: the excess is erased from its front. *)
Definition keep_last {A} (n : nat) (l : list A) : list A := drop (length l - n) l.

Definition completed_before (a b : NameResolutionObservation) : Prop := no_completed_ns a <= no_completed_ns b.
#[global] Instance completed_before_dec : RelDecision completed_before.
Proof. intros a b. unfold completed_before. apply _. Defined.

(** Erasing what is before [std::lower_bound]. *)
Fixpoint erase_before (threshold : Z) (l : list NameResolutionObservation) : list NameResolutionObservation :=
  match l with
  | [] => []
  | o :: l' => if no_completed_ns o <? threshold then erase_before threshold l' else l
  end.

(** What [drain_name_resolution] keeps: the window before the newest lookup, at most 4096 of them. *)
Definition keep_current (observations : list NameResolutionObservation) : list NameResolutionObservation :=
  let sorted := merge_sort completed_before observations in
  match last sorted with
  | None => []
  | Some newest =>
      let threshold := if name_max_age_ns <? no_completed_ns newest then no_completed_ns newest - name_max_age_ns else 0 in
      keep_last max_name_resolution_observations (erase_before threshold sorted)
  end.

(** The loop of [completion_wait_time] over the due times. *)
Fixpoint due_wait (now wait : Z) (due : list Z) : Z :=
  match due with
  | [] => wait
  | d :: due' => if d <=? now then 0 else due_wait now (Z.min wait (Z.quot (d - now) ns_per_ms)) due'
  end.

Definition completion_wait_time (now : Z) (pending : gmap Z Z) : Z :=
  due_wait now milliseconds_max (map_to_list pending).*2.

Definition set_relation (relation : RouteRelation) (r : RouteObservation) : RouteObservation :=
  MkRouteObservation (ro_destination r) (ro_source r) (ro_gateway r) (ro_interface_name r) (ro_interface_index r)
    (ro_table r) (ro_metric r) (ro_observed_ns r) (ro_sha256 r) relation.

Definition relation_of (direction : ConnectionDirection) : RouteRelation :=
  match direction with
  | Outbound => OutboundSelectedRoute
  | Inbound => InboundResponseRoute
  | DirectionUnknown => RouteRelationUnknown
  end.

(** [while (size() > 4096) erase(begin())] *)
Definition shed_candidates (c : gmap string PendingSnapshotCandidate) : gmap string PendingSnapshotCandidate :=
  list_to_map (keep_last max_snapshot_reconciliation_candidates (map_to_list c)).

Definition grace_elapsed (c : PendingSnapshotCandidate) : bool :=
  (pc_first_seen_ns c <=? pc_last_seen_ns c) &&
  (snapshot_reconciliation_grace_ns <=? pc_last_seen_ns c - pc_first_seen_ns c).

Definition stale (c : PendingSnapshotCandidate) : bool :=
  (pc_first_seen_ns c <=? pc_last_seen_ns c) &&
  (snapshot_candidate_stale_ns <? pc_last_seen_ns c - pc_first_seen_ns c).

(** The newest time of the connections and observations ([correlation_watermark_ns]). *)
Definition watermark (connections : list ConnectionSummary) (observations : list TlsSessionObservation) : Z :=
  fold_left Z.max (map to_observed_ns observations) (fold_left Z.max (map cs_last_seen_ns connections) 0).

(** ** The lambdas of [run] *)

Section Run.
Context {S : Type} `{HistoryOps S} `{Observers S} `{EvidenceStore S} `{Sha256}.
Context (config : SessionConfig S).

Definition lifecycle_events_active : bool :=
  match ap_mode (oc_policy config) with
  | ModeTarget | ModeOutbound => outbound_available (oc_lifecycle config)
  | ModeInbound => lc_accept_events (oc_lifecycle config) && lc_close_events (oc_lifecycle config)
  | ModeAll => lifecycle_available (oc_lifecycle config)
  end.

Definition name_resolution_events_active : bool :=
  match oc_names config with Some c => names_available c | None => false end.

Definition tls_session_events_active : bool :=
  match oc_tls config with Some c => tls_available c | None => false end.

(** *** Names *)

Definition drain_name_resolution : M S unit :=
  if negb name_resolution_events_active then ret tt
  else
    let* observations := env poll_names in
    do count CountNames (length observations) then
    do modify (set_names (fun l => l ++ filter (fun o => no_completed_ns o <> 0) observations)) then
    modify (set_names keep_current).

Definition attach_name_resolution (connection_id : Z) (direction : ConnectionDirection) : M S unit :=
  let* attached := get ss_name_attached in
  if negb name_resolution_events_active || negb (bool_decide (direction = Outbound)) ||
     bool_decide (connection_id ∈ attached) then ret tt
  else
    let* connection := get (fun s => read_connection (ss_env s) connection_id) in
    match connection with
    | None => ret tt
    | Some c =>
        let* observations := get ss_names in
        let correlation := correlate_name_resolution name_max_age_ns c observations in
        match nr_status correlation, nr_evidence correlation with
        | Ambiguous, _ =>
            let* ambiguous := get ss_name_ambiguous in
            if bool_decide (connection_id ∈ ambiguous) then ret tt
            else do modify (set_ambiguous (union {[connection_id]})) then count CountUnclear 1
        | Matched, Some evidence =>
            do act (store_name_evidence connection_id evidence) then
            do tell (Named connection_id) then
            do modify (set_attached (union {[connection_id]})) then
            do modify (set_ambiguous (fun l => l ∖ {[connection_id]})) then
            count CountNamed 1
        | _, _ => ret tt
        end
    end.

Definition retry_one (connection_id : Z) : M S unit :=
  let* attached := get ss_name_attached in
  if bool_decide (connection_id ∈ attached) then ret tt
  else
    let* connection := get (fun s => read_connection (ss_env s) connection_id) in
    match connection with
    | None => ret tt
    | Some c => attach_name_resolution connection_id (cs_direction c)
    end.

Definition retry_name_resolution : M S unit :=
  let* observations := get ss_names in
  if negb name_resolution_events_active || bool_decide (length observations = 0%nat) then ret tt
  else
    let* ids := get ss_connection_ids in
    for_each (ascending ids) retry_one.

(** *** TLS sessions *)

(** A completed connection is due again, and at once, when evidence arrives. *)
Definition complete_again (connection_id now : Z) (s : Session S) : Session S :=
  match ss_pending_completed s !! connection_id with
  | Some _ => set_pending_completed (insert connection_id now) s
  | None =>
      if bool_decide (connection_id ∈ ss_dispatched_completed s)
      then set_pending_completed (insert connection_id now) (set_dispatched (fun d => d ∖ {[connection_id]}) s)
      else s
  end.

(** One observation of the loop; whether it stays unresolved. *)
Definition correlate_one (connections : list ConnectionSummary) (watermark_ns : Z) (o : TlsSessionObservation) : M S bool :=
  if (to_observed_ns o <? watermark_ns) && (tuple_max_age_ns <? watermark_ns - to_observed_ns o) then ret false
  else
    let correlation := correlate_tls_session tuple_max_age_ns o connections in
    match tr_status correlation, tr_connection_id correlation, tr_evidence correlation with
    | TlsAmbiguous, _, _ => do count CountTlsAmbiguous 1 then ret false
    | TlsMatched, Some connection_id, Some evidence =>
        let key := tls_session_identity_key (tv_observation evidence) in
        let* keys := get ss_tls_keys in
        if bool_decide (key ∈ keys) then ret false
        else
          do modify (set_keys (union {[key]})) then
          do act (store_tls_evidence connection_id evidence) then
          do tell (TlsAttached connection_id key) then
          do count CountTlsAttached 1 then
          let* now := env steady_now in
          do modify (complete_again connection_id now) then ret false
    | _, _, _ => ret true
    end.

Definition correlate_tls_sessions : M S unit :=
  let* observations := get ss_tls in
  let* ids := get ss_connection_ids in
  if negb tls_session_events_active || bool_decide (length observations = 0%nat) || bool_decide (ids = ∅) then ret tt
  else
    let* connections := get (fun s => omap (read_connection (ss_env s)) (ascending ids)) in
    if bool_decide (length connections = 0%nat) then ret tt
    else
      let* unresolved := fold_each (fun left o =>
        let* stays := correlate_one connections (watermark connections observations) o in
        ret (if stays : bool then left ++ [o] else left)) observations [] in
      modify (set_tls (fun _ => unresolved)).

Definition drain_tls_sessions : M S unit :=
  if negb tls_session_events_active then ret tt
  else
    let* observations := env poll_tls in
    do count CountTls (length observations) then
    do modify (set_tls (fun l => keep_last max_tls_session_observations
                          (l ++ filter (fun o => to_observed_ns o <> 0) observations))) then
    correlate_tls_sessions.

(** *** Completed connections *)

Definition dispatch_one (force : bool) (now : Z) (callback : Z -> S -> S) (entry : Z * Z) : M S unit :=
  let '(connection_id, due) := entry in
  if negb force && (now <? due) then ret tt
  else
    do modify (set_pending_completed (delete connection_id)) then
    let* dispatched := get ss_dispatched_completed in
    if bool_decide (connection_id ∈ dispatched) then ret tt
    else
      do modify (set_dispatched (union {[connection_id]})) then
      do tell (Completed connection_id) then
      act (callback connection_id).

Definition dispatch_completed (force : bool) : M S unit :=
  let* pending := get ss_pending_completed in
  match cb_connection_completed (oc_callbacks config) with
  | None =>
      do for_each (map_to_list pending).*1 (fun connection_id => tell (Dropped connection_id)) then
      modify (set_pending_completed (fun _ => ∅))
  | Some callback =>
      let* now := env steady_now in
      for_each (map_to_list pending) (dispatch_one force now callback)
  end.

Definition queue_completed (connection_id : Z) : M S unit :=
  let* now := env steady_now in
  modify (set_pending_completed (insert connection_id (now + completion_evidence_grace))).

(** What both places do with a connection that ended. *)
Definition connection_ended (connection_id : Z) : M S unit :=
  do modify (set_scheduler (connection_closed connection_id)) then
  do modify (set_requests (delete connection_id)) then
  do tell (Closed connection_id) then
  queue_completed connection_id.

(** *** Admission *)

Definition record_admission (a : ConnectionAdmission) (remote_address : string) (direction : ConnectionDirection) : M S unit :=
  if negb (ca_newly_admitted a) then ret tt
  else
    let connection_id := ca_connection_id a in
    do modify (set_scheduler (connection_admitted connection_id)) then
    do count CountAdmitted 1 then
    do modify (set_ids (union {[connection_id]})) then
    do modify (set_requests (fun requests =>
         match requests !! connection_id with
         | Some _ => requests
         | None => <[connection_id := MkRouteRequest remote_address direction]> requests
         end)) then
    do tell (Entered connection_id) then
    do attach_name_resolution connection_id direction then
    correlate_tls_sessions.

Definition record_direction_promotion (a : ConnectionAdmission) (remote_address : string) : M S unit :=
  if negb (ca_direction_promoted a) then ret tt
  else
    do modify (set_requests (alter (fun _ => MkRouteRequest remote_address (ca_direction a)) (ca_connection_id a))) then
    attach_name_resolution (ca_connection_id a) (ca_direction a).

Definition erase_key (key : string) : Session S -> Session S :=
  set_candidates (fun c => if bool_decide (key = "") then c else delete key c).

Definition erase_candidate_for_lifecycle (event : ConnectionLifecycleEvent) : M S unit :=
  do modify (erase_key (lifecycle_tuple_key event false)) then
  if bool_decide (le_type event = Close) then modify (erase_key (lifecycle_tuple_key event true)) else ret tt.

(** *** Snapshots *)

Definition observe (socket : SocketObservation) (direction : ConnectionDirection) (allow_new : bool)
    (origin : ConnectionObservationOrigin) : M S (option ConnectionAdmission) :=
  let* e := get ss_env in
  tracking (observe_socket (oc_target_label config) (resolve_inode e) (resolve_socket e) socket direction allow_new origin).

Definition transport_observed (connection_id : Z) (sample : TcpSnapshot) : M S unit :=
  match cb_transport_observed (oc_callbacks config) with
  | Some callback => do tell (Sampled connection_id) then act (callback connection_id sample)
  | None => ret tt
  end.

(** The three places that may admit a socket. *)
Definition admit_from_snapshot (socket : SocketObservation) (direction : ConnectionDirection) (allow_new : bool)
    (origin : ConnectionObservationOrigin) : M S unit :=
  let* admission := observe socket direction allow_new origin in
  match admission with
  | Some a =>
      do transport_observed (ca_connection_id a) (so_transport socket) then
      record_admission a (so_remote_ip socket) direction
  | None => ret tt
  end.

Definition loss_origin : ConnectionObservationOrigin := SnapshotReconciledAfterLifecycleLoss.

(** [try_emplace] of the candidate, or its update. *)
Definition update_candidate (socket : SocketObservation) (process : option ProcessIdentity) (startup : bool)
    (old : option PendingSnapshotCandidate) : PendingSnapshotCandidate :=
  let observed := ts_observed_ns (so_transport socket) in
  match old with
  | None => MkCandidate socket process observed observed startup
  | Some c => MkCandidate socket process (pc_first_seen_ns c) observed (pc_startup c || startup)
  end.

(** A socket while lifecycle events are active; the keys of the candidates seen so far. *)
Definition sample_with_lifecycle (startup degraded : bool) (seen : gset string) (socket : SocketObservation)
    (process : option ProcessIdentity) : M S (gset string) :=
  let key := snapshot_tuple_key socket process in
  let* enrichment := observe socket DirectionUnknown false SnapshotPreexisting in
  match enrichment with
  | Some a =>
      do transport_observed (ca_connection_id a) (so_transport socket) then
      do modify (set_candidates (delete key)) then ret seen
  | None =>
      if negb (ad_admit (evaluate_reconciliation_socket (oc_policy config) socket (pi_comm <$> process))) then ret seen
      else
        let* candidates := get ss_candidates in
        let candidate := update_candidate socket process startup (candidates !! key) in
        do modify (set_candidates (insert key candidate)) then
        if degraded || grace_elapsed candidate then
          do admit_from_snapshot (pc_socket candidate) DirectionUnknown true
               (if degraded then loss_origin else SnapshotPreexisting) then
          do modify (set_candidates (delete key)) then ret ({[key]} ∪ seen)
        else ret ({[key]} ∪ seen)
  end.

Definition sample_socket (startup degraded : bool) (seen : gset string) (socket : SocketObservation) : M S (gset string) :=
  let* process := get (fun s =>
    if has (so_owning_pid socket) || has_process_filters (oc_policy config) then resolve_socket (ss_env s) socket else None) in
  if lifecycle_events_active then sample_with_lifecycle startup degraded seen socket process
  else
    let decision := evaluate_new_socket (oc_policy config) socket (pi_comm <$> process) in
    do admit_from_snapshot socket (ad_direction decision) (ad_admit decision) SnapshotPreexisting then ret seen.

(** A candidate that this snapshot did not have. *)
Definition settle_candidate (degraded : bool) (seen : gset string) (entry : string * PendingSnapshotCandidate) : M S unit :=
  if bool_decide (entry.1 ∈ seen) then ret tt
  else
    do (if degraded then admit_from_snapshot (pc_socket entry.2) DirectionUnknown true loss_origin else ret tt) then
    modify (set_candidates (delete entry.1)).

Definition settle_candidates (degraded : bool) (seen : gset string) : M S unit :=
  let* candidates := get ss_candidates in
  do for_each (map_to_list candidates) (settle_candidate degraded seen) then
  do modify (set_candidates shed_candidates) then
  modify (set_candidates (filter (fun kv => stale kv.2 = false))).

Definition sample_transport (startup_snapshot : bool) : M S unit :=
  do drain_name_resolution then
  do retry_name_resolution then
  do tracking (fun t => (tt, begin_snapshot t)) then
  let* degraded := get (fun s => lifecycle_events_active &&
    evidence_may_be_incomplete (lifecycle_dropped_events (ss_env s))) in
  let* sockets := env socket_snapshot in
  let* seen := fold_each (sample_socket startup_snapshot degraded) sockets ∅ in
  do (if lifecycle_events_active then settle_candidates degraded seen else ret tt) then
  let* ended := tracking (end_snapshot (negb lifecycle_events_active) degraded) in
  do for_each ended connection_ended then
  do drain_tls_sessions then
  dispatch_completed false.

(** *** Routes *)

Definition observe_route (connection_id : Z) : M S unit :=
  let* requests := get ss_route_requests in
  match requests !! connection_id with
  | None => ret tt
  | Some request =>
      let* route := env (route_to (rq_remote_address request)) in
      do match route with
         | Some r =>
             let r := set_relation (relation_of (rq_direction request)) r in
             do act (store_route connection_id r) then
             let* connection := get (fun s => read_connection (ss_env s) connection_id) in
             match connection with
             | Some c =>
                 let* reads := env read_host in
                 act (store_environment connection_id (capture_host_network_environment reads c r))
             | None => ret tt
             end
         | None => ret tt
         end then
      do tell (Routed connection_id) then
      modify (set_requests (delete connection_id))
  end.

Definition observe_scheduled_routes : M S unit :=
  let* due := get (fun s => (take_route_observations_due (ss_scheduler s)).1) in
  do modify (set_scheduler (fun e => (take_route_observations_due e).2)) then
  for_each due observe_route.

(** [sample_transport(...); scheduler.transport_sampled(...); observe_scheduled_routes();] *)
Definition sample_round (startup_snapshot : bool) : M S unit :=
  do sample_transport startup_snapshot then
  let* now := env steady_now in
  do modify (set_scheduler (transport_sampled now)) then
  observe_scheduled_routes.

(** *** Lifecycle events *)

Definition handle_event (event : ConnectionLifecycleEvent) : M S unit :=
  do erase_candidate_for_lifecycle event then
  let decision := policy_evaluate (oc_policy config) event in
  if negb (ad_admit decision) then ret tt
  else
    let* admission := tracking (observe_lifecycle (oc_target_label config) event (ad_direction decision)) in
    match admission with
    | None => ret tt
    | Some a =>
        do match le_remote event with Some r => record_direction_promotion a (ne_address r) | None => ret tt end then
        do (if ca_closed a then connection_ended (ca_connection_id a) else ret tt) then
        match ca_newly_admitted a, le_remote event with
        | true, Some r =>
            do record_admission a (ne_address r) (ad_direction decision) then sample_round false
        | _, _ => ret tt
        end
    end.

Definition poll_timeout (deadline : option Z) (now : Z) (s : Session S) : Z :=
  let wait := wait_time now (ss_scheduler s) in
  let timeout := match deadline with Some d => Z.min wait (Z.quot (d - now) ns_per_ms) | None => wait end in
  Z.min timeout (completion_wait_time now (ss_pending_completed s)).

Definition handle_lifecycle (deadline : option Z) : M S unit :=
  let* now := env steady_now in
  let* timeout := get (poll_timeout deadline now) in
  let* events := env (poll_lifecycle timeout) in
  do drain_name_resolution then
  do retry_name_resolution then
  do for_each events handle_event then
  do drain_tls_sessions then
  dispatch_completed false.

(** *** The loop *)

(** An optional function of the caller. *)
Definition call (f : option (S -> S)) : M S unit := match f with Some g => act g | None => ret tt end.

Definition iteration (deadline : option Z) : M S unit :=
  do (if lifecycle_events_active then handle_lifecycle deadline else ret tt) then
  let* now := env steady_now in
  let* due := get (fun s =>
    let reconciliation_poll_required := lifecycle_events_active && negb (bool_decide (ss_candidates s = ∅)) in
    transport_due now (negb lifecycle_events_active || reconciliation_poll_required) (ss_scheduler s)) in
  do (if due : bool then sample_round false else ret tt) then
  do call ((fun f => f now) <$> oc_maintenance config) then
  do call (cb_periodic (oc_callbacks config)) then
  if negb lifecycle_events_active then act (sleep_for (oc_transport_poll_interval config)) else ret tt.

(** The condition of the loop. *)
Definition goes_on (deadline : option Z) : M S bool :=
  let* in_time := match deadline with
                  | None => ret true
                  | Some d => let* now := env steady_now in ret (now <? d)
                  end in
  if in_time : bool then let* stop := env stop_requested in ret (negb stop) else ret false.

(** At most [fuel] rounds; whether the loop has ended. *)
Fixpoint rounds (fuel : nat) (deadline : option Z) : M S bool :=
  match fuel with
  | O => ret false
  | Datatypes.S fuel' =>
      let* more := goes_on deadline in
      if negb more then ret true else do iteration deadline then rounds fuel' deadline
  end.

Definition set_deadline : M S (option Z) :=
  match oc_duration config with
  | Some d => let* now := env steady_now in ret (Some (now + d * 1000000000))
  | None => ret None
  end.

(** What [run] does before its loop. *)
Definition prepare : M S unit :=
  do call (cb_started (oc_callbacks config)) then
  do drain_name_resolution then
  do retry_name_resolution then
  do drain_tls_sessions then
  if lifecycle_events_active then sample_round true else ret tt.

Definition start : M S (option Z) :=
  let* deadline := set_deadline in
  do prepare then
  ret deadline.

Definition finish : M S unit :=
  do drain_name_resolution then
  do retry_name_resolution then
  do drain_tls_sessions then
  do dispatch_completed true then
  do correlate_tls_sessions then
  do dispatch_completed true then
  tracking (fun t => (tt, finish_observation (negb lifecycle_events_active) t)).

Record ObservationRunResult := MkRunResult {
  or_connection_ids : list Z;
  or_counts : RunCounts;
  or_lifecycle_events_active : bool;
  or_name_resolution_events_active : bool;
  or_tls_session_events_active : bool }.

(** The state [run] starts with: fresh variables around what is outside. *)
Definition new_session (e : S) : Session S :=
  MkSession (new_tracker e) (new_scheduler (oc_transport_poll_interval config) 50) (MkCounts 0 0 0 0 0 0 0)
    ∅ ∅ ∅ ∅ ∅ [] ∅ ∅ [] ∅ [].

(** [run] with at most [fuel] rounds of its loop: whether the loop ended by itself, and the result. *)
Definition run (fuel : nat) : M S (bool * ObservationRunResult) :=
  let* deadline := start in
  let* ended := rounds fuel deadline in
  do finish then
  let* result := get (fun s => MkRunResult (ascending (ss_connection_ids s)) (ss_counts s) lifecycle_events_active
    name_resolution_events_active tls_session_events_active) in
  ret (ended, result).
End Run.
