(* ===== verification/SessionTrack.v ===== *)
(** The tracker as the session sees it ([Tracker], [Session]): which connections are tracked after a call, and
    that a call keeps whatever the database operations keep ([history_stable]). *)

From S2P Require Import Prelude Text Wire Crypto Model History Tracker.

(** A property of the outside that no database operation of the tracker ends. *)
Record history_stable {S} `{HistoryOps S} (J : S -> Prop) : Prop := {
  hs_begin : forall socket process host t direction e, J e -> J (begin_connection socket process host t direction e).2;
  hs_touch : forall id t state e, J e -> J (touch_connection id t state e);
  hs_cookie : forall id cookie e, J e -> J (update_socket_cookie id cookie e).2;
  hs_promote : forall id direction e, J e -> J (promote_connection_direction id direction e).2;
  hs_sample : forall id sample e, J e -> J (add_tcp_sample id sample e);
  hs_event : forall id event e, J e -> J (add_lifecycle_event id event e) }.

Section Stable.
Context {S : Type} `{HistoryOps S} (J : S -> Prop) (HJ : history_stable J).
Context (target_host : string).
Context (resolve_inode : Z -> option ProcessIdentity) (resolve_socket : SocketObservation -> option ProcessIdentity).
Implicit Types t : Tracker S.

Lemma remove_store identity t : tk_store (remove_correlation_identity identity t) = tk_store t.
Proof. unfold remove_correlation_identity. by case_match. Qed.

Lemma promote_stable previous canonical cookie t :
  J (tk_store t) -> J (tk_store (promote_socket_cookie_identity previous canonical cookie t).2).
Proof.
  intros Ht. unfold promote_socket_cookie_identity. destruct (tk_connections t !! previous) as [c|]; [|done].
  pose proof (hs_cookie J HJ (tc_connection_id c) cookie _ Ht) as Hc.
  destruct (update_socket_cookie _ cookie (tk_store t)) as [[] e]; [by rewrite rekey_store|done].
Qed.

Lemma adopt_stable event existing identity t : J (tk_store t) -> J (tk_store (adopt_identity event existing identity t).2).
Proof.
  intros Ht. unfold adopt_identity. case_bool_decide; [done|]. destruct (event_cookie event) as [n|].
  - pose proof (promote_stable existing identity n t Ht). by destruct (promote_socket_cookie_identity _ _ _ t).
  - pose proof (rekey_store existing identity t) as E. destruct (rekey_identity existing identity t). simpl in *. by rewrite E.
Qed.

Lemma lifecycle_stable event direction t :
  J (tk_store t) -> J (tk_store (observe_lifecycle target_host event direction t).2).
Proof.
  intros Ht. unfold observe_lifecycle. destruct (negb _); [done|].
  destruct (identity_for_event event) as [identity|]; [|done].
  assert (Ha : forall e, J (tk_store (adopt_identity event e identity t).2)) by (intros; by apply adopt_stable).
  assert (Hc : forall e t', J (tk_store t') -> J (tk_store (close_connection event e t').2)).
  { intros e t' Ht'. unfold close_connection. destruct (tk_connections t' !! e); [|done]. simpl. rewrite remove_store. simpl.
    by apply hs_event, hs_touch. }
  assert (Hf : forall p e t', J (tk_store t') -> J (tk_store (confirm_connection event direction p e t').2)).
  { intros p e t' Ht'. unfold confirm_connection. destruct (tk_connections t' !! e) as [c|]; [|done].
    pose proof (hs_promote J HJ (tc_connection_id c) direction _ (hs_event J HJ (tc_connection_id c) event _ Ht')) as Hp.
    by destruct (promote_connection_direction _ _ _). }
  assert (Hd : forall p l r port, J (tk_store (admit_event target_host event direction identity p l r port t).2)).
  { intros p l r port. unfold admit_event. set (socket := socket_of_event _ _ _ _ _).
    pose proof (hs_begin J HJ socket (Some p) target_host (le_timestamp_ns event) direction _ Ht) as Hb.
    destruct (begin_connection _ _ _ _ _ (tk_store t)). by apply hs_event. }
  destruct (find_existing event identity (process_from event) t) as [e|].
  - specialize (Ha e). destruct (adopt_identity event e identity t) as [e' t']. simpl in Ha.
    repeat case_match; try done; first [by apply Hc|by apply Hf].
  - repeat case_match; try done; by apply Hd.
Qed.

Lemma sample_connection_stable socket direction identity t :
  J (tk_store t) -> J (tk_store (sample_connection socket direction identity t).2).
Proof.
  intros Ht. unfold sample_connection, persist_sample. destruct (tk_connections t !! identity); [|done]. simpl.
  apply hs_touch; [done|]. destruct (_ || _); [by apply hs_sample|done].
Qed.

Lemma socket_stable socket direction allow origin t :
  J (tk_store t) -> J (tk_store (observe_socket target_host resolve_inode resolve_socket socket direction allow origin t).2).
Proof.
  intros Ht. unfold observe_socket. set (key := if has _ then _ else _).
  assert (Ha : forall k i p, J (tk_store (admit_socket target_host socket direction origin k i p t).2)).
  { intros k i p. unfold admit_socket. set (now := ts_observed_ns _).
    pose proof (hs_begin J HJ socket (Some p) target_host now direction _ Ht) as Hb.
    destruct (begin_connection _ _ _ _ _ (tk_store t)). simpl in *. destruct (origin_state origin).
    - by apply hs_touch, hs_sample.
    - by apply hs_sample. }
  destruct (has _ && _); [done|].
  destruct (has (tk_connections t !! identity_for_socket socket)), (unique_active_correlation_match key t) as [m|];
    try by apply sample_connection_stable.
  - destruct (_ && _); [|by apply sample_connection_stable].
    pose proof (promote_stable m (identity_for_socket socket) (so_socket_cookie socket) t Ht) as Hp.
    destruct (promote_socket_cookie_identity _ _ _ t) as [[] t']; [by apply sample_connection_stable|done].
  - repeat case_match; try done; by apply Ha.
Qed.

Lemma end_snapshot_stable polling incomplete t : J (tk_store t) -> J (tk_store (end_snapshot polling incomplete t).2).
Proof.
  unfold end_snapshot. generalize (map_to_list (tk_connections t)) as todo. intros todo. generalize (@nil Z) as ended.
  revert t. induction todo as [|[i c] todo IH]; intros t ended Ht; simpl; [done|].
  unfold end_snapshot_one. destruct (tc_present_in_snapshot c); [by apply IH|].
  destruct (retires polling incomplete c); apply IH; [|done]. simpl. rewrite remove_store. simpl. by apply hs_touch.
Qed.

Lemma finish_stable polling t : J (tk_store t) -> J (tk_store (finish_observation polling t)).
Proof.
  unfold finish_observation. simpl. generalize (tk_store t) as e. induction ((map_to_list (tk_connections t)).*2) as [|c l IH];
    intros e He; simpl; [done|]. apply IH. unfold finish_one. by apply hs_touch.
Qed.
End Stable.

(** ** Tracked connections *)

Definition tracked (m : gmap string TrackedConnection) (id : Z) : Prop :=
  exists i c, m !! i = Some c /\ tc_connection_id c = id.

Lemma tracked_update m i c c' id :
  m !! i = Some c -> tc_connection_id c' = tc_connection_id c -> tracked (<[i := c']> m) id <-> tracked m id.
Proof.
  intros E Eid. split.
  - intros (j & x & [[<- <-]|[_ Ex]]%lookup_insert_Some & <-); [exists i, c|exists j, x]; auto.
  - intros (j & x & Ex & <-). destruct (decide (j = i)) as [->|Hn].
    + exists i, c'. rewrite lookup_insert_eq. split; [done|]. congruence.
    + exists j, x. by rewrite lookup_insert_ne.
Qed.

Lemma tracked_new m i c id :
  m !! i = None -> tracked (<[i := c]> m) id <-> id = tc_connection_id c \/ tracked m id.
Proof.
  intros E. split.
  - intros (j & x & [[<- <-]|[_ Ex]]%lookup_insert_Some & <-); [by left|right; by exists j, x].
  - intros [->|(j & x & Ex & <-)]; [exists i, c; by rewrite lookup_insert_eq|].
    exists j, x. rewrite lookup_insert_ne by congruence. done.
Qed.

Lemma tracked_gone m i c id :
  m !! i = Some c ->
  (forall i1 i2 c1 c2, m !! i1 = Some c1 -> m !! i2 = Some c2 -> tc_connection_id c1 = tc_connection_id c2 -> i1 = i2) ->
  tracked (delete i m) id <-> id <> tc_connection_id c /\ tracked m id.
Proof.
  intros E Hinj. split.
  - intros (j & x & [Hn Ex]%lookup_delete_Some & <-). split; [|by exists j, x]. intros Eid. by apply Hn, (Hinj i j c x).
  - intros [Hn (j & x & Ex & <-)]. exists j, x. rewrite lookup_delete_ne; [done|]. intros <-. congruence.
Qed.

Lemma tracked_moved (m m' : gmap string TrackedConnection) p q c id :
  m !! p = Some c -> m' !! q = Some c -> delete q m' = delete p m -> tracked m' id <-> tracked m id.
Proof.
  intros Ep Eq Ed.
  assert (H : forall x y (a b : gmap string TrackedConnection), a !! x = Some c -> b !! y = Some c -> delete x a = delete y b -> tracked a id -> tracked b id).
  { intros x y a b Ea Eb E (j & z & Ez & <-). destruct (decide (j = x)) as [->|Hn].
    - exists y, c. split; [done|]. congruence.
    - assert (Ez' : delete y b !! j = Some z) by (by rewrite <- E, lookup_delete_ne).
      apply lookup_delete_Some in Ez' as [_ Ez']. by exists j, z. }
  split; eapply H; eauto.
Qed.

Lemma tracked_begin {S} (t : Tracker S) id : tracked (tk_connections (begin_snapshot t)) id <-> tracked (tk_connections t) id.
Proof.
  unfold begin_snapshot; simpl. split.
  - intros (i & c & (x & <- & E)%lookup_fmap_Some & <-). by exists i, x.
  - intros (i & c & E & <-). exists i. eexists. rewrite lookup_fmap, E. done.
Qed.

Section Tracked.
Context {S : Type} `{Hlaws : HistoryLaws S}.
Context (target_host : string).
Context (resolve_inode : Z -> option ProcessIdentity) (resolve_socket : SocketObservation -> option ProcessIdentity).
Implicit Types t : Tracker S.

(** What a call that returned [outcome] did. *)
Definition tracks (t : Tracker S) (outcome : option ConnectionAdmission) (t' : Tracker S) : Prop :=
  match outcome with
  | None => forall id, tracked (tk_connections t') id <-> tracked (tk_connections t) id
  | Some a =>
      if ca_newly_admitted a then
        ca_closed a = false /\ ca_direction_promoted a = false /\ row_cookie (tk_store t) (ca_connection_id a) = None /\
        is_Some (row_cookie (tk_store t') (ca_connection_id a)) /\
        forall id, tracked (tk_connections t') id <-> id = ca_connection_id a \/ tracked (tk_connections t) id
      else if ca_closed a then
        ca_direction_promoted a = false /\ tracked (tk_connections t) (ca_connection_id a) /\
        forall id, tracked (tk_connections t') id <-> id <> ca_connection_id a /\ tracked (tk_connections t) id
      else tracked (tk_connections t) (ca_connection_id a) /\
        forall id, tracked (tk_connections t') id <-> tracked (tk_connections t) id
  end.

(** A row of a connection stays. *)
Lemma row_stable id : history_stable (fun e => is_Some (row_cookie e id)).
Proof.
  split.
  - intros socket process host t direction e He. pose proof (begin_fresh socket process host t direction e) as Hb.
    destruct (begin_connection socket process host t direction e) as [i e']. destruct Hb as (_ & Hc & _ & _ & Ho). simpl.
    destruct (decide (id = i)) as [->|Hn]; [rewrite Hc; eauto|]. by destruct (Ho id Hn) as [-> _].
  - intros i t state e He. by destruct (touch_row i t state e id) as [-> _].
  - intros i cookie e He. pose proof (cookie_once i cookie e) as Hc. destruct (update_socket_cookie i cookie e) as [changed e'].
    destruct Hc as [_ Hc]. simpl. destruct (Hc id) as (_ & _ & ->). destruct (decide _); [by eexists|done].
  - intros i direction e He. pose proof (direction_once i direction e) as Hd.
    destruct (promote_connection_direction i direction e) as [changed e']. destruct Hd as [_ Hd]. simpl. by destruct (Hd id) as (_ & -> & _).
  - intros i sample e He. by destruct (sample_frame i sample e id) as [-> _].
  - intros i event e He. by destruct (event_frame i event e id) as [-> _].
Qed.

Lemma adopt_tracked event e identity t c :
  tk_connections t !! e = Some c ->
  let '(e', t') := adopt_identity event e identity t in
  tk_connections t' !! e' = Some c /\ forall id, tracked (tk_connections t') id <-> tracked (tk_connections t) id.
Proof.
  intros E. pose proof (adopt_effect event e identity t c E) as Ha.
  destruct (adopt_identity event e identity t) as [e' t']. destruct Ha as (E' & Hd & _).
  split; [done|]. intros id. by eapply tracked_moved.
Qed.

Lemma lifecycle_tracks event direction t :
  event_ok event -> tracker_inv t ->
  tracks t (observe_lifecycle target_host event direction t).1 (observe_lifecycle target_host event direction t).2.
Proof.
  intros Hok Hinv. unfold observe_lifecycle. destruct (negb (bool_decide (le_protocol event = Tcp))); [done|].
  destruct (identity_for_event event) as [identity|] eqn:Hid; [|done].
  destruct (find_existing event identity (process_from event) t) as [e|] eqn:Ef.
  - destruct (find_existing_tracked _ _ _ _ _ Ef) as [c Ec].
    pose proof (adopt_tracked event e identity t c Ec) as Ha.
    pose proof (inv_adopt event e identity t Hok Hid Hinv) as Hi.
    destruct (adopt_identity event e identity t) as [e' t']. destruct Ha as [Ec' Hs]. simpl in Hi.
    assert (Htr : tracked (tk_connections t) (tc_connection_id c)) by (by exists e, c).
    destruct (bool_decide (le_type event = Close)).
    + unfold close_connection. rewrite Ec'. simpl. set (t1 := with_store _ t').
      destruct (remove_correlation_connections e' t1) as [-> _]. split_and!; [done|done|]. simpl. intros id.
      rewrite (tracked_gone _ e' c) by (done || apply Hi). by rewrite Hs.
    + destruct (negb _); [by simpl|]. destruct (le_local event), (le_remote event) as [r|], (process_from event) as [p|]; try by simpl.
      destruct (ne_port r); [|by simpl]. unfold confirm_connection. rewrite Ec'.
      destruct (promote_connection_direction _ _ _) as [promoted s]. simpl. split; [done|]. intros id.
      rewrite (tracked_update _ e' c) by done. by apply Hs.
  - apply find_existing_none in Ef. destruct (bool_decide (le_type event = Close)); [by simpl|].
    destruct (negb _); [by simpl|]. destruct (le_local event), (le_remote event) as [r|], (process_from event) as [p|]; try by simpl.
    destruct (ne_port r) as [port|]; [|by simpl]. unfold admit_event. set (socket := socket_of_event _ _ _ _ _).
    pose proof (begin_fresh socket (Some p) target_host (le_timestamp_ns event) direction (tk_store t)) as Hb.
    destruct (begin_connection _ _ _ _ _ (tk_store t)) as [id s]. destruct Hb as (Hf & Hc & _). simpl.
    rewrite Ef. split_and!; [done|done|done| |].
    + destruct (event_frame id event s id) as [-> _]. eauto.
    + intros id'. by rewrite tracked_new.
Qed.

(** Only an event with a remote endpoint is admitted. *)
Lemma admitted_remote event direction t a :
  (observe_lifecycle target_host event direction t).1 = Some a -> ca_newly_admitted a = true -> is_Some (le_remote event).
Proof.
  destruct (le_remote event) as [r|] eqn:Er; [by eexists|]. unfold observe_lifecycle. rewrite Er.
  destruct (negb _); [done|]. destruct (identity_for_event event) as [identity|]; [|done].
  destruct (bool_decide _); [|destruct (negb _), (le_local event); done].
  destruct (find_existing event identity (process_from event) t) as [e|]; [|done].
  destruct (adopt_identity event e identity t) as [e' t']. unfold close_connection. destruct (tk_connections t' !! e'); [|done].
  intros [= <-]. done.
Qed.

Lemma sample_tracks socket direction identity t c :
  tk_connections t !! identity = Some c ->
  let '(outcome, t') := sample_connection socket direction identity t in
  outcome = Some (MkAdmission (tc_connection_id c) false false false direction) /\
  forall id, tracked (tk_connections t') id <-> tracked (tk_connections t) id.
Proof.
  intros E. unfold sample_connection, persist_sample. rewrite E. simpl. split; [done|]. intros id.
  apply (tracked_update _ identity c); [done|]. unfold note_snapshot. by case_bool_decide.
Qed.

Lemma promote_tracked previous canonical cookie t c :
  tk_connections t !! previous = Some c -> previous <> canonical ->
  let '(ok, t') := promote_socket_cookie_identity previous canonical cookie t in
  (ok = true -> tk_connections t' !! canonical = Some c) /\
  forall id, tracked (tk_connections t') id <-> tracked (tk_connections t) id.
Proof.
  intros E Hn. unfold promote_socket_cookie_identity. rewrite E.
  destruct (update_socket_cookie _ cookie (tk_store t)) as [[] s]; [|done].
  pose proof (rekey_effect (with_store (fun _ => s) t) previous canonical c E Hn) as Hr.
  destruct (rekey_identity previous canonical _) as [[] t']; destruct Hr as [_ Hr].
  - destruct Hr as [E' Hd]. split; [done|]. intros id. by apply (tracked_moved _ _ previous canonical c).
  - by subst t'.
Qed.

Lemma unique_tracked key t m : unique_active_correlation_match key t = Some m -> is_Some (tk_connections t !! m).
Proof. apply unique_match_tracked. Qed.

(** A socket closes nothing, and admits only if it may. *)
Lemma socket_tracks socket direction allow origin t :
  let r := observe_socket target_host resolve_inode resolve_socket socket direction allow origin t in
  tracks t r.1 r.2 /\ match r.1 with Some a => ca_closed a = false /\ (ca_newly_admitted a = true -> allow = true) | None => True end.
Proof.
  cbv zeta. unfold observe_socket. set (key := if has _ then _ else _).
  assert (Hsam : forall m t', is_Some (tk_connections t' !! m) ->
    (forall id, tracked (tk_connections t') id <-> tracked (tk_connections t) id) ->
    let r := sample_connection socket direction m t' in
    tracks t r.1 r.2 /\ match r.1 with Some a => ca_closed a = false /\ (ca_newly_admitted a = true -> allow = true) | None => True end).
  { intros m t' [c Ec] Ht. pose proof (sample_tracks socket direction m t' c Ec) as Hs.
    destruct (sample_connection socket direction m t') as [o t'']. destruct Hs as [-> Hs]. simpl.
    split; [|done]. split; [apply Ht; by exists m, c|]. intros id. by rewrite Hs. }
  destruct (unique_active_correlation_match key t) as [m|] eqn:Em;
    destruct (tk_connections t !! identity_for_socket socket) as [c|] eqn:Ec; cbn [has andb].
  - destruct (negb _); [done|]. apply Hsam; [by rewrite Ec|done].
  - destruct (unique_tracked _ _ _ Em) as [x Ex]. destruct (_ && negb (bool_decide (m = _))) eqn:Ev.
    + to_prop. pose proof (promote_tracked m (identity_for_socket socket) (so_socket_cookie socket) t x Ex ltac:(done)) as Hp.
      destruct (promote_socket_cookie_identity _ _ _ t) as [[] t']; destruct Hp as [Hp Hs]; [|done].
      apply Hsam; [rewrite Hp by done; eauto|done].
    + apply Hsam; [eauto|done].
  - apply Hsam; [by rewrite Ec|done].
  - destruct allow; [|done]. destruct (negb (eligible_connection_seed _)); [done|].
    destruct (if has (so_owning_pid socket) then resolve_socket socket else resolve_inode (so_socket_inode socket)) as [p|]; [|done].
    unfold admit_socket. set (now := ts_observed_ns _).
    pose proof (begin_fresh socket (Some p) target_host now direction (tk_store t)) as Hb.
    destruct (begin_connection _ _ _ _ _ (tk_store t)) as [id s]. destruct Hb as (Hf & Hc & _). simpl. rewrite Ec.
    split; [|done]. split_and!; [done|done|done| |].
    + destruct (sample_frame id (so_transport socket) s id) as [Hs _]. rewrite Hc in Hs.
      destruct (origin_state origin) as [state|]; [|rewrite Hs; eauto].
      destruct (touch_row id now state (add_tcp_sample id (so_transport socket) s) id) as [-> _]. rewrite Hs. eauto.
    + intros id'. by rewrite tracked_new.
Qed.

(** The end of a pass: the connections it returns are no longer tracked, each is returned once. *)
Lemma end_snapshot_tracks polling incomplete t :
  tracker_inv t ->
  let '(ended, t') := end_snapshot polling incomplete t in
  NoDup ended /\ (forall id, id ∈ ended -> tracked (tk_connections t) id) /\
  forall id, tracked (tk_connections t') id <-> tracked (tk_connections t) id /\ id ∉ ended.
Proof.
  intros Hinv. pose proof (end_snapshot_outcome polling incomplete t Hinv) as He.
  destruct (end_snapshot polling incomplete t) as [ended t']. destruct He as (_ & -> & Hc).
  set (m := tk_connections t) in *.
  assert (Hin : forall id, id ∈ retired_ids polling incomplete (map_to_list m) <->
    exists i c, m !! i = Some c /\ tc_connection_id c = id /\ retires polling incomplete c = true).
  { intros id. unfold retired_ids. rewrite list_elem_of_omap. split.
    - intros ([i c] & Hin%elem_of_map_to_list & E). simpl in E. destruct (retires _ _ c) eqn:Er; simplify_eq. eauto.
    - intros (i & c & E & <- & Hr). exists (i, c). split; [by apply elem_of_map_to_list|]. simpl. by rewrite Hr. }
  split_and!.
  - unfold retired_ids. assert (Hnd : NoDup (map_to_list m).*1) by apply NoDup_fst_map_to_list.
    assert (Hm : forall i c, (i, c) ∈ map_to_list m -> m !! i = Some c) by (intros; by apply elem_of_map_to_list).
    clear Hin. induction (map_to_list m) as [|[i c] l IH]; simpl; [constructor|].
    simpl in Hnd. apply NoDup_cons in Hnd as [Hni Hnd].
    assert (IH' := IH Hnd ltac:(intros; apply Hm; by right)).
    destruct (retires polling incomplete c); [|done]. constructor; [|done].
    rewrite list_elem_of_omap. intros ([j x] & Hj & E). simpl in E. destruct (retires _ _ x); simplify_eq.
    apply Hni, list_elem_of_fmap. exists (j, x). split; [|done]. simpl.
    apply (ti_inj t Hinv i j c x); [apply Hm; by left|apply Hm; by right|done].
  - intros id (i & c & E & <- & _)%Hin. by exists i, c.
  - intros id. split.
    + intros (i & c & E & <-). rewrite Hc in E. destruct (m !! i) as [x|] eqn:Ex; simpl in E; [|done].
      unfold after_pass in E. assert (Eid : tc_connection_id c = tc_connection_id x) by (repeat case_match; simplify_eq; done).
      rewrite Eid. split; [by exists i, x|]. intros (j & y & Ey & Hj & Hr)%Hin.
      assert (j = i) as -> by (by apply (ti_inj t Hinv j i y x)). assert (y = x) as -> by congruence.
      rewrite Hr in E. unfold retires in Hr. destruct (tc_present_in_snapshot x); done.
    + intros [(i & c & E & <-) Hn]. assert (Hr : retires polling incomplete c = false).
      { destruct (retires polling incomplete c) eqn:Er; [|done]. destruct Hn. apply Hin. eauto. }
      exists i. rewrite Hc, E. simpl. unfold after_pass. rewrite Hr. destruct (tc_present_in_snapshot c); by eexists.
Qed.

Lemma finish_tracked polling t id : tracked (tk_connections (finish_observation polling t)) id <-> tracked (tk_connections t) id.
Proof. done. Qed.
End Tracked.
