(* ===== verification/SessionLife.v ===== *)
(** The life of a connection in an observation session ([Session]).

    [phase_step] is the automaton of a connection: it is admitted, sampled and routed while it is active, then
    closed, and its completion is reported; evidence of a TLS session that arrives later makes it due again.
    [Life] is the part of a session's variables that says where each connection is, and [life_ok] that the
    automaton, run over the log, says the same.  Each lemma is one event. *)

From S2P Require Import Prelude Session.

(** ** The automaton *)

Inductive Stage := Unknown | Active | Pending | Reported | Untold.
#[global] Instance Stage_eq_dec : EqDecision Stage.
Proof. solve_decision. Defined.

(** Where a connection is, whether its route is still to be looked up, and whether it has a name. *)
Record Phase := MkPhase { ph_stage : Stage; ph_waiting : bool; ph_named : bool }.

Definition event_id (e : session_event) : Z :=
  match e with
  | Entered id | Sampled id | Named id | TlsAttached id _ | Routed id | Closed id | Completed id | Dropped id => id
  end.

Definition phase_step (ph : Phase) (e : session_event) : option Phase :=
  let '(MkPhase stage waiting named) := ph in
  match e, stage with
  | Entered _, Unknown => Some (MkPhase Active true named)
  | Sampled _, (Unknown | Active) => Some ph
  | Routed _, Active => if waiting then Some (MkPhase Active false named) else None
  | Closed _, Active => Some (MkPhase Pending false named)
  | Completed _, Pending => Some (MkPhase Reported waiting named)
  | Dropped _, Pending => Some (MkPhase Untold waiting named)
  | Named _, (Active | Pending | Reported | Untold) => if named then None else Some (MkPhase stage waiting true)
  | TlsAttached _ _, Reported => Some (MkPhase Pending waiting named)
  | TlsAttached _ _, (Active | Pending | Untold) => Some ph
  | _, _ => None
  end.

Definition follow (id : Z) (log : list session_event) : option Phase :=
  foldl (fun ph e => if decide (event_id e = id) then ph ≫= (fun p => phase_step p e) else ph)
    (Some (MkPhase Unknown false false)) log.

Lemma follow_snoc id log e :
  follow id (log ++ [e]) = if decide (event_id e = id) then follow id log ≫= (fun p => phase_step p e) else follow id log.
Proof. unfold follow. by rewrite foldl_app. Qed.

(** ** Where the variables say a connection is *)

Record Life := MkLife {
  lf_active : gset Z; lf_pending : gset Z; lf_reported : gset Z; lf_waiting : gset Z; lf_named : gset Z;
  lf_ids : gset Z; lf_log : list session_event }.

Definition phase_of (l : Life) (id : Z) : Phase :=
  MkPhase (if decide (id ∈ lf_active l) then Active else if decide (id ∈ lf_pending l) then Pending
           else if decide (id ∈ lf_reported l) then Reported else if decide (id ∈ lf_ids l) then Untold else Unknown)
    (bool_decide (id ∈ lf_waiting l)) (bool_decide (id ∈ lf_named l)).

(** [told]: somebody wants to hear of completed connections. *)
Record life_ok (told : bool) (l : Life) : Prop := {
  lo_active : lf_active l ⊆ lf_ids l;
  lo_pending : lf_pending l ⊆ lf_ids l ∖ lf_active l;
  lo_reported : lf_reported l ⊆ lf_ids l ∖ (lf_active l ∪ lf_pending l);
  lo_waiting : lf_waiting l ⊆ lf_active l;
  lo_named : lf_named l ⊆ lf_ids l;
  lo_told : told = true -> lf_ids l ⊆ lf_active l ∪ lf_pending l ∪ lf_reported l;
  lo_untold : told = false -> lf_reported l = ∅;
  lo_phase : forall id, follow id (lf_log l) = Some (phase_of l id) }.

(** One event that changes the place of one connection. *)
Lemma phases_snoc l e active pending reported waiting named ids :
  let l' := MkLife active pending reported waiting named ids (lf_log l ++ [e]) in
  (forall id, follow id (lf_log l) = Some (phase_of l id)) ->
  (forall id, id <> event_id e -> phase_of l' id = phase_of l id) ->
  phase_step (phase_of l (event_id e)) e = Some (phase_of l' (event_id e)) ->
  forall id, follow id (lf_log l') = Some (phase_of l' id).
Proof.
  intros l' Hf Ho Hs id. subst l'. cbn [lf_log]. rewrite follow_snoc, Hf. case_decide as E.
  - subst id. simpl. exact Hs.
  - f_equal. symmetry. by apply Ho.
Qed.

(** The invariant at one connection. *)
Lemma life_at told l id :
  life_ok told l ->
  (id ∈ lf_active l -> id ∈ lf_ids l) /\ (id ∈ lf_pending l -> id ∈ lf_ids l /\ id ∉ lf_active l) /\
  (id ∈ lf_reported l -> id ∈ lf_ids l /\ id ∉ lf_active l /\ id ∉ lf_pending l) /\
  (id ∈ lf_waiting l -> id ∈ lf_active l) /\ (id ∈ lf_named l -> id ∈ lf_ids l) /\
  (told = true -> id ∈ lf_ids l -> id ∈ lf_active l \/ id ∈ lf_pending l \/ id ∈ lf_reported l) /\
  (told = false -> id ∉ lf_reported l).
Proof.
  intros [H1 H2 H3 H4 H5 H6 H7 _]. specialize (H1 id). specialize (H2 id). specialize (H3 id). specialize (H4 id). specialize (H5 id).
  split_and!; try done.
  - set_solver.
  - set_solver.
  - intros Ht Hi. specialize (H6 Ht id Hi). set_solver.
  - intros Ht. rewrite H7 by done. set_solver.
Qed.

(** The invariant from what it says of every connection. *)
Lemma life_from told l :
  (forall id, (id ∈ lf_active l -> id ∈ lf_ids l) /\ (id ∈ lf_pending l -> id ∈ lf_ids l /\ id ∉ lf_active l) /\
     (id ∈ lf_reported l -> id ∈ lf_ids l /\ id ∉ lf_active l /\ id ∉ lf_pending l) /\
     (id ∈ lf_waiting l -> id ∈ lf_active l) /\ (id ∈ lf_named l -> id ∈ lf_ids l) /\
     (told = true -> id ∈ lf_ids l -> id ∈ lf_active l \/ id ∈ lf_pending l \/ id ∈ lf_reported l) /\
     (told = false -> id ∉ lf_reported l)) ->
  (forall id, follow id (lf_log l) = Some (phase_of l id)) -> life_ok told l.
Proof.
  intros Hp Hf. split; [..|done].
  - intros id. apply Hp.
  - intros id Hi. destruct (Hp id) as (_ & H & _). destruct (H Hi). set_solver.
  - intros id Hi. destruct (Hp id) as (_ & _ & H & _). destruct (H Hi) as (? & ? & ?). set_solver.
  - intros id. apply Hp.
  - intros id. apply Hp.
  - intros Ht id Hi. destruct (Hp id) as (_ & _ & _ & _ & _ & H & _). specialize (H Ht Hi). set_solver.
  - intros Ht. apply set_eq. intros id. destruct (Hp id) as (_ & _ & _ & _ & _ & _ & H). specialize (H Ht). set_solver.
Qed.

(** An element other than the one added or removed is where it was. *)
Lemma phase_of_congr l l' id :
  (id ∈ lf_active l <-> id ∈ lf_active l') -> (id ∈ lf_pending l <-> id ∈ lf_pending l') ->
  (id ∈ lf_reported l <-> id ∈ lf_reported l') -> (id ∈ lf_waiting l <-> id ∈ lf_waiting l') ->
  (id ∈ lf_named l <-> id ∈ lf_named l') -> (id ∈ lf_ids l <-> id ∈ lf_ids l') -> phase_of l' id = phase_of l id.
Proof.
  intros H1 H2 H3 H4 H5 H6. unfold phase_of.
  rewrite (bool_decide_ext _ _ H4), (bool_decide_ext _ _ H5). f_equal. repeat case_decide; done || tauto.
Qed.

Section Life.
Context (told : bool) (active pending reported waiting named ids : gset Z) (log : list session_event).
#[local] Abbreviation l := (MkLife active pending reported waiting named ids log).
Context (Hl : life_ok told l).

(** One step: the places of the other connections are as they were, and the one concerned moves as the
    automaton says. *)
Ltac place := repeat ((case_decide || case_bool_decide); try (exfalso; set_unfold; tauto)); try done; naive_solver.
Ltac life_step e :=
  apply life_from; cbn [lf_active lf_pending lf_reported lf_waiting lf_named lf_ids lf_log];
  [ let i := fresh "i" in intros i; pose proof (life_at told l i Hl) as Hi;
    cbn [lf_active lf_pending lf_reported lf_waiting lf_named lf_ids] in Hi;
    destruct (decide (i = event_id e)) as [Ei|Ei]; simpl in Ei; [subst i|]; set_unfold; split_and!; tauto || naive_solver congruence
  | apply (phases_snoc l e); [apply Hl|intros i Hi; simpl in Hi; apply phase_of_congr; set_solver|];
    let id := eval simpl in (event_id e) in pose proof (life_at told l id Hl) as Hi;
    unfold phase_of; cbn [lf_active lf_pending lf_reported lf_waiting lf_named lf_ids event_id] in *; place ].

Lemma life_admitted id :
  id ∉ ids ->
  life_ok told (MkLife ({[id]} ∪ active) pending reported ({[id]} ∪ waiting) named ({[id]} ∪ ids) (log ++ [Entered id])).
Proof. intros. life_step (Entered id). Qed.

Lemma life_sampled id :
  id ∈ active \/ id ∉ ids ->
  life_ok told (MkLife active pending reported waiting named ids (log ++ [Sampled id])).
Proof. intros. life_step (Sampled id). Qed.

Lemma life_named id :
  id ∈ ids -> id ∉ named ->
  life_ok told (MkLife active pending reported waiting ({[id]} ∪ named) ids (log ++ [Named id])).
Proof. intros. life_step (Named id). Qed.

Lemma life_routed id :
  id ∈ waiting ->
  life_ok told (MkLife active pending reported (waiting ∖ {[id]}) named ids (log ++ [Routed id])).
Proof. intros. life_step (Routed id). Qed.

Lemma life_closed id :
  id ∈ active ->
  life_ok told (MkLife (active ∖ {[id]}) ({[id]} ∪ pending) reported (waiting ∖ {[id]}) named ids (log ++ [Closed id])).
Proof. intros. life_step (Closed id). Qed.

Lemma life_completed id :
  told = true -> id ∈ pending ->
  life_ok told (MkLife active (pending ∖ {[id]}) ({[id]} ∪ reported) waiting named ids (log ++ [Completed id])).
Proof. intros. life_step (Completed id). Qed.

Lemma life_dropped id :
  told = false -> id ∈ pending ->
  life_ok told (MkLife active (pending ∖ {[id]}) reported waiting named ids (log ++ [Dropped id])).
Proof. intros. life_step (Dropped id). Qed.

(** Evidence for a connection that was reported makes it due again; for any other it changes nothing. *)
Lemma life_tls_again id key :
  id ∈ reported ->
  life_ok told (MkLife active ({[id]} ∪ pending) (reported ∖ {[id]}) waiting named ids (log ++ [TlsAttached id key])).
Proof. intros. life_step (TlsAttached id key). Qed.

Lemma life_tls_same id key :
  id ∈ ids -> id ∉ reported ->
  life_ok told (MkLife active pending reported waiting named ids (log ++ [TlsAttached id key])).
Proof. intros. life_step (TlsAttached id key). Qed.

End Life.
