(* ===== verification/SessionRun.v ===== *)
(** What an observation session keeps true ([Session]).

    [spec] are the triples of its programs.  [outside] lists its calls to the database, the observers and its
    caller, [SessionLaws] is what they promise.  [session_inv] is the invariant, relative to a [View]: where in
    the code it is taken.  [keep] says that a program keeps it.

    The theorems, for everything outside the session that keeps the laws, and as long as storage maintenance
    deletes no connection ([maintenance_idle]): every connection follows the
    automaton of [SessionLife], and at the end of [run] none is left whose completion was not reported
    ([session_follows_life]); buffers are bounded, counts are exact and routes do not wait ([session_bounded]);
    with a duration and without lifecycle events, the loop ends by itself ([session_ends]). *)

From stdpp Require Import sorting.
From S2P Require Import Prelude Text Wire Crypto Model History HistoryRecords Tracker NameResolution TlsSession Scheduler Verdict HistoryEnvironment Session SessionTrack SessionLife.

(** ** Programs and their specifications *)

Section Specs.
Context {S : Type}.
Implicit Types P : Session S -> Prop.

Definition spec {A} P (m : M S A) (Q : A -> Session S -> Prop) : Prop := forall s, P s -> Q (m s).1 (m s).2.

Lemma spec_bind {A B} P (m : M S A) R (k : A -> M S B) Q :
  spec P m R -> (forall a, spec (R a) (k a) Q) -> spec P (bind m k) Q.
Proof. intros Hm Hk s Hs. unfold bind. specialize (Hm s Hs). destruct (m s). by apply Hk. Qed.

(** The first part of a program that is nested to the right. *)
Lemma spec_assoc {A B C} P (m : M S A) (f : A -> M S B) (k : B -> M S C) R Q :
  spec P (bind m f) R -> (forall b, spec (R b) (k b) Q) -> spec P (bind m (fun a => bind (f a) k)) Q.
Proof. intros Hm Hk s Hs. specialize (Hm s Hs). unfold bind in *. destruct (m s) as [a s']. destruct (f a s'). by apply Hk. Qed.

Lemma spec_ret {A} P (a : A) (Q : A -> Session S -> Prop) : (forall s, P s -> Q a s) -> spec P (ret a) Q.
Proof. intros H s Hs. by apply H. Qed.

Lemma spec_get {A} P (f : Session S -> A) (Q : A -> Session S -> Prop) : (forall s, P s -> Q (f s) s) -> spec P (get f) Q.
Proof. intros H s Hs. by apply H. Qed.

Lemma spec_modify P f (Q : unit -> Session S -> Prop) : (forall s, P s -> Q tt (f s)) -> spec P (modify f) Q.
Proof. intros H s Hs. by apply H. Qed.

Lemma spec_pre {A} P P' (m : M S A) Q : (forall s, P s -> P' s) -> spec P' m Q -> spec P m Q.
Proof. intros H Hm s Hs. apply Hm. by apply H. Qed.

Lemma spec_post {A} P (m : M S A) (Q Q' : A -> Session S -> Prop) : spec P m Q' -> (forall a s, Q' a s -> Q a s) -> spec P m Q.
Proof. intros Hm H s Hs. by apply H, Hm. Qed.

(** A pure fact that the precondition carries. *)
Lemma spec_pure {A} P (phi : Prop) (m : M S A) Q : (phi -> spec P m Q) -> spec (fun s => phi /\ P s) m Q.
Proof. intros H s [Hp Hs]. by apply H. Qed.

Lemma spec_for_each {B} P (l : list B) (f : B -> M S unit) :
  (forall b, b ∈ l -> spec P (f b) (fun _ => P)) -> spec P (for_each l f) (fun _ => P).
Proof.
  unfold for_each. induction l as [|b l IH]; intros H; simpl; [by apply spec_ret|].
  eapply spec_bind; [apply H; by left|]. intros []. apply IH. intros b' Hb. apply H. by right.
Qed.

(** A loop that carries a value; its invariant may depend on how far it has come. *)
Lemma spec_fold {A B} (R : nat -> A -> Session S -> Prop) (l : list B) (f : A -> B -> M S A) a n :
  (forall b a n, b ∈ l -> spec (R n a) (f a b) (fun a' => R (Datatypes.S n) a')) ->
  spec (R n a) (fold_each f l a) (fun a' => R (n + length l)%nat a').
Proof.
  revert a n. induction l as [|b l IH]; intros a n H; simpl.
  - apply spec_ret. by rewrite Nat.add_0_r.
  - eapply spec_bind; [apply H; by left|]. intros a'. eapply spec_post; [apply IH; intros; apply H; by right|].
    intros a'' s Hs. by replace (n + Datatypes.S (length l))%nat with (Datatypes.S n + length l)%nat by lia.
Qed.
End Specs.

Lemma keep_last_length {A} n (l : list A) : (length (keep_last n l) <= n)%nat.
Proof. unfold keep_last. rewrite length_drop. lia. Qed.

(** ** What the outside promises *)

Section Laws.
Context {S : Type} `{HistoryOps S} `{Observers S} `{EvidenceStore S} `{Sha256} (config : SessionConfig S).

(** The calls of the session that may change the outside, other than those of the tracker. *)
Inductive outside : (S -> S) -> Prop :=
| out_now : outside (fun e => (steady_now e).2)
| out_stop : outside (fun e => (stop_requested e).2)
| out_sleep t : outside (sleep_for t)
| out_snapshot : outside (fun e => (socket_snapshot e).2)
| out_lifecycle t : outside (fun e => (poll_lifecycle t e).2)
| out_names : outside (fun e => (poll_names e).2)
| out_tls : outside (fun e => (poll_tls e).2)
| out_route a : outside (fun e => (route_to a e).2)
| out_host : outside (fun e => (read_host e).2)
| out_store_name id evidence : outside (store_name_evidence id evidence)
| out_store_tls id evidence : outside (store_tls_evidence id evidence)
| out_store_route id route : outside (store_route id route)
| out_store_environment id environment : outside (store_environment id environment)
| out_started f : cb_started (oc_callbacks config) = Some f -> outside f
| out_periodic f : cb_periodic (oc_callbacks config) = Some f -> outside f
| out_transport f id sample : cb_transport_observed (oc_callbacks config) = Some f -> outside (f id sample)
| out_completed f id : cb_connection_completed (oc_callbacks config) = Some f -> outside (f id)
| out_maintenance f now : oc_maintenance config = Some f -> outside (f now).

(** A property of the outside that the session never ends. *)
Definition stable (J : S -> Prop) : Prop := history_stable J /\ forall f e, outside f -> J e -> J (f e).

(** All that the proofs need of the outside. *)
Record OutsideLaws : Prop := {
  ol_rows : forall f e id, outside f -> row_cookie (f e) id = row_cookie e id;
  ol_sockets : forall e, Forall socket_ok (socket_snapshot e).1;
  ol_events : forall t e, Forall event_ok (poll_lifecycle t e).1;
  ol_connection : forall e id c, read_connection e id = Some c -> cs_id c = id }.
End Laws.

(** The configuration without storage maintenance. *)
Definition unmaintained {S} (config : SessionConfig S) : SessionConfig S :=
  MkSessionConfig (oc_policy config) (oc_target_label config) (oc_lifecycle config) (oc_names config) (oc_tls config)
    None (oc_duration config) (oc_transport_poll_interval config) (oc_callbacks config).

Section SessionLaws.
Context {S : Type} `{HistoryOps S} `{Observers S} `{EvidenceStore S} `{Sha256} (config : SessionConfig S).

(** Among the calls other than storage maintenance, only those of the tracker make and change the rows of
    connections.  Observers return values of their types, a connection is read under its id. *)
Record SessionLaws : Prop := {
  sl_rows : forall f e id, outside (unmaintained config) f -> row_cookie (f e) id = row_cookie e id;
  sl_sockets : forall e, Forall socket_ok (socket_snapshot e).1;
  sl_events : forall t e, Forall event_ok (poll_lifecycle t e).1;
  sl_connection : forall e id c, read_connection e id = Some c -> cs_id c = id }.

(** Storage maintenance, if there is any, deletes no connection: the database stays within its budget.  (Over
    the budget it deletes the oldest connections, observed or not; a sample of a connection that is gone makes
    the session end with an error, see [HistoryPrune].) *)
Definition maintenance_idle : Prop :=
  forall f now e id, oc_maintenance config = Some f -> row_cookie (f now e) id = row_cookie e id.

Lemma outside_laws : SessionLaws -> maintenance_idle -> OutsideLaws config.
Proof.
  intros [Hr Hs He Hc] Hm. split; try done. intros f e id Hf.
  assert (Hx : outside (unmaintained config) f \/ exists g now, oc_maintenance config = Some g /\ f = g now)
    by (destruct Hf; first [by left; constructor|right; eauto]).
  destruct Hx as [Hx|(g & now & Eg & ->)]; [by apply Hr|by apply Hm].
Qed.
End SessionLaws.

(** A TLS session is attached to one of the connections that were considered. *)
Lemma correlated_among age o connections id :
  tr_connection_id (correlate_tls_session age o connections) = Some id -> exists c, c ∈ connections /\ cs_id c = id.
Proof.
  unfold correlate_tls_session.
  assert (Hm : forall l s, (forall c, sc_match s = Some c -> c ∈ connections) -> (forall c, c ∈ l -> c ∈ connections) ->
    forall c, sc_match (fold_left (scan_one age o) l s) = Some c -> c ∈ connections).
  { induction l as [|c l IH]; intros s Hs Hl; simpl; [done|]. apply IH; [|intros; apply Hl; by right].
    intros x. unfold scan_one. destruct (candidate_kind age o c), (sc_match s) eqn:E; simpl; intros Hx; simplify_eq;
      first [by apply Hs|apply Hl; by left|congruence]. }
  specialize (Hm connections (MkScan 0 None false 0) ltac:(done) ltac:(done)).
  set (s := fold_left _ _ _) in *. destruct (_ && _); [done|]. destruct (_ =? 0); [done|].
  destruct (sc_match s) as [c|]; [|done]. destruct (negb _); [done|]. simpl. intros [= <-]. exists c. auto.
Qed.

(** ** The invariant *)

#[local] Arguments ss_env {S} !s /.

Definition tls_keys (log : list session_event) : list string :=
  omap (fun e => match e with TlsAttached _ key => Some key | _ => None end) log.

Definition life_of {S} (s : Session S) : Life :=
  MkLife (es_active (ss_scheduler s)) (dom (ss_pending_completed s)) (ss_dispatched_completed s)
    (dom (ss_route_requests s)) (ss_name_attached s) (ss_connection_ids s) (ss_log s).
#[local] Arguments life_of {S} !s /.

(** Where in the code the invariant is taken: connections that are known to be in [connection_ids], the one the
    tracker admitted and those it gave up that are not yet recorded, the routes taken from the scheduler that
    are not yet looked up, whether there are no others, and whether the candidates have been shed. *)
Record View := MkView {
  v_known : gset Z; v_fresh : gset Z; v_gone : gset Z; v_taken : gset Z; v_quiet : bool; v_shed : bool }.

Definition knowing (known : gset Z) (v : View) : View := MkView known (v_fresh v) (v_gone v) (v_taken v) (v_quiet v) (v_shed v).

Definition plain (known : gset Z) : View := MkView known ∅ ∅ ∅ true true.

Section Invariant.
Context {S : Type} `{Hlaws : HistoryLaws S} `{Observers S} `{EvidenceStore S} `{Sha256} (config : SessionConfig S).
Context (Hout : OutsideLaws config) (J : S -> Prop) (HJ : stable config J).

Definition told : bool := has (cb_connection_completed (oc_callbacks config)).

Record session_inv (v : View) (s : Session S) : Prop := {
  iv_tracker : tracker_inv (ss_tracker s);
  iv_tracked : forall id, tracked (tk_connections (ss_tracker s)) id <->
    (id ∈ es_active (ss_scheduler s) \/ id ∈ v_fresh v) /\ id ∉ v_gone v;
  iv_routes : dom (ss_route_requests s) = v_taken v ∪ es_pending_routes (ss_scheduler s);
  iv_apart : v_taken v ## es_pending_routes (ss_scheduler s);
  iv_known : v_known v ⊆ ss_connection_ids s;
  iv_fresh : forall id, id ∈ v_fresh v -> id ∉ ss_connection_ids s;
  iv_rows : forall id, id ∈ ss_connection_ids s \/ id ∈ v_fresh v -> is_Some (row_cookie (ss_env s) id);
  iv_life : life_ok told (life_of s);
  iv_candidates : forall key c, ss_candidates s !! key = Some c -> socket_ok (pc_socket c);
  iv_shed : v_shed v = true -> (size (ss_candidates s) <= max_snapshot_reconciliation_candidates)%nat;
  iv_quiet : v_quiet v = true -> dom (ss_route_requests s) ⊆ v_taken v;
  iv_names : (length (ss_names s) <= max_name_resolution_observations)%nat;
  iv_tls : (length (ss_tls s) <= max_tls_session_observations)%nat;
  iv_keys : NoDup (tls_keys (ss_log s)) /\ forall key, key ∈ tls_keys (ss_log s) <-> key ∈ ss_tls_keys s;
  iv_counts : rc_admitted (ss_counts s) = size (ss_connection_ids s) /\
    rc_names_attached (ss_counts s) = size (ss_name_attached s) /\ rc_tls_attached (ss_counts s) = size (ss_tls_keys s);
  iv_env : J (ss_env s) }.

Definition keep {A} (v : View) (m : M S A) : Prop := spec (session_inv v) m (fun _ => session_inv v).

(** Taking the invariant apart, and proving it for a state that differs in a few variables. *)
Ltac open_inv s Hs :=
  destruct s as [tracker scheduler counts ids pending dispatched requests candidates names attached ambiguous tls keys log];
  destruct Hs as [Htracker Htracked Hroutes Hapart Hknown Hfresh Hrows Hlife Hcandidates Hshed Hquiet Hnames Htls Hkeys Hcounts Henv];
  simpl in *.

(** *** Calls of the outside *)

Lemma keep_env {A} v (f : S -> A * S) : outside config (fun e => (f e).2) -> keep v (env f).
Proof.
  intros Hf s Hs. unfold env.
  pose proof (proj2 HJ _ (ss_env s) Hf (iv_env v s Hs)) as HJ'.
  pose proof (fun id => ol_rows config Hout _ (ss_env s) id Hf) as Hr. cbv beta in Hr, HJ'.
  destruct (f (ss_env s)) as [a e]. simpl in *. open_inv s Hs. split; simpl; try done.
  - by apply inv_store.
  - intros id Hid. rewrite Hr. by apply Hrows.
Qed.

Lemma keep_act v f : outside config f -> keep v (act f).
Proof. intros Hf. by apply keep_env. Qed.

Lemma keep_bind {A B} v (m : M S A) (k : A -> M S B) : keep v m -> (forall a, keep v (k a)) -> keep v (bind m k).
Proof. intros Hm Hk. by eapply spec_bind. Qed.

Lemma keep_bind_assoc {A B C} v (m : M S A) (f : A -> M S B) (k : B -> M S C) :
  keep v (bind (bind m f) k) -> keep v (bind m (fun a => bind (f a) k)).
Proof. intros Hk s Hs. specialize (Hk s Hs). revert Hk. unfold bind. by destruct (m s). Qed.

Lemma keep_ret {A} v (a : A) : keep v (ret a).
Proof. by apply spec_ret. Qed.

Lemma keep_get {A} v (f : Session S -> A) : keep v (get f).
Proof. by apply spec_get. Qed.

(** A variable that the invariant does not read, or reads only by a bound. *)
Lemma keep_count v c n :
  c = CountNames \/ c = CountUnclear \/ c = CountTls \/ c = CountTlsAmbiguous -> keep v (count c n).
Proof.
  intros Hc. apply spec_modify. intros s Hs. open_inv s Hs. split; simpl; try done.
  destruct counts as [a b d e f g h]. destruct Hc as [->|[->|[->| ->]]]; simpl in *; lia.
Qed.

Lemma keep_ambiguous v f : keep v (modify (set_ambiguous f)).
Proof. apply spec_modify. intros s Hs. open_inv s Hs. by split. Qed.

Lemma keep_call v f : (forall g, f = Some g -> outside config g) -> keep v (call f).
Proof. intros Hf. unfold call. destruct f as [g|]; [apply keep_act; by apply Hf|apply keep_ret]. Qed.

(** Evaluating a straight piece of a program. *)
Ltac eval_prog := unfold bind, get, act, env, tell, modify, count, ret; cbn [fst snd].

(** *** Names *)

Lemma keep_drain_names v : keep v (drain_name_resolution config).
Proof.
  unfold drain_name_resolution. destruct (negb _); [apply keep_ret|].
  apply keep_bind; [apply keep_env, out_names|]. intros observations.
  apply keep_bind; [apply keep_count; auto|]. intros _ s Hs. eval_prog. open_inv s Hs. split; simpl; try done.
  unfold keep_current. destruct (last _); simpl; [apply keep_last_length|lia].
Qed.

Lemma keep_attach v id direction : id ∈ v_known v -> keep v (attach_name_resolution config id direction).
Proof.
  intros Hid s Hs. unfold attach_name_resolution. eval_prog.
  destruct (negb _ || _ || bool_decide (id ∈ _)) eqn:Eg; [done|]. to_prop.
  destruct (read_connection (ss_env s) id) as [c|]; [|done].
  set (r := correlate_name_resolution _ _ _).
  destruct (nr_status r); [done| |].
  - destruct (nr_evidence r) as [evidence|]; [|done].
    pose proof (keep_act v _ (out_store_name config id evidence) s Hs) as Hs'. revert Hs'. eval_prog.
    set (e := store_name_evidence id evidence (ss_env s)). intros Hs'. open_inv s Hs'.
    split; simpl; try done.
    + apply (life_named _ _ _ _ _ _ _ _ Hlife); [by apply Hknown|done].
    + unfold tls_keys. rewrite omap_app. simpl. by rewrite app_nil_r.
    + destruct counts. simpl in *. rewrite size_union, size_singleton by set_solver. lia.
  - destruct (bool_decide (id ∈ ss_name_ambiguous s)); [done|]. open_inv s Hs. split; simpl; try done.
    destruct counts. simpl in *. lia.
Qed.

(** [connection_ids] is read, and from then on known. *)
Lemma keep_with_ids {A} v (k : gset Z -> M S A) :
  (forall ids, keep (knowing ids v) (k ids)) -> keep v (bind (get ss_connection_ids) k).
Proof.
  intros Hk s Hs. eval_prog. assert (Hs' : session_inv (knowing (ss_connection_ids s) v) s) by (destruct Hs; by split).
  pose proof (Hk (ss_connection_ids s) s Hs') as H'. pose proof (iv_known v s Hs) as Hv.
  destruct H'. split; try done. by etrans.
Qed.

Lemma keep_for_each {B} v (l : list B) (f : B -> M S unit) : (forall b, b ∈ l -> keep v (f b)) -> keep v (for_each l f).
Proof. apply spec_for_each. Qed.

Lemma ascending_in id ids : id ∈ ascending ids <-> id ∈ ids.
Proof. unfold ascending. by rewrite (merge_sort_Permutation Z.le), elem_of_elements. Qed.

Lemma keep_retry v : keep v (retry_name_resolution config).
Proof.
  unfold retry_name_resolution. apply keep_bind; [apply keep_get|]. intros observations.
  destruct (_ || _); [apply keep_ret|]. apply keep_with_ids. intros ids. apply keep_for_each. intros id Hid%ascending_in.
  unfold retry_one. apply keep_bind; [apply keep_get|]. intros attached. destruct (bool_decide _); [apply keep_ret|].
  apply keep_bind; [apply keep_get|]. intros [c|]; [by apply keep_attach|apply keep_ret].
Qed.

(** *** TLS sessions *)

Lemma keep_correlate_one v connections w o :
  (forall c, c ∈ connections -> cs_id c ∈ v_known v) -> keep v (correlate_one connections w o).
Proof.
  intros Hc s Hs. unfold correlate_one. destruct (_ && _); [done|].
  pose proof (correlated_among tuple_max_age_ns o connections) as Hin. set (r := correlate_tls_session _ _ _) in *.
  destruct (tr_status r); [done|done| |by apply (keep_bind v _ _ (keep_count v _ _ ltac:(auto)) (fun _ => keep_ret v _))].
  destruct (tr_connection_id r) as [id|]; [|done]. destruct (tr_evidence r) as [evidence|]; [|done].
  assert (Hid : id ∈ v_known v) by (destruct (Hin id eq_refl) as (c & Hc' & <-); by apply Hc).
  eval_prog. set (key := tls_session_identity_key _). destruct (bool_decide (key ∈ _)) eqn:Ek; [done|]. to_prop.
  pose proof (keep_bind v _ _ (keep_act v _ (out_store_tls config id evidence))
    (fun _ => keep_env v steady_now (out_now config)) s Hs) as Hs'. revert Hs'. eval_prog.
  destruct s as [tracker scheduler counts ids pending dispatched requests candidates names attached ambiguous tls keys log].
  cbn. destruct (steady_now _) as [now e]. cbn. intros Hs'. 
  destruct Hs' as [Htracker Htracked Hroutes Hapart Hknown Hfresh Hrows Hlife Hcandidates Hshed Hquiet Hnames Htls Hkeys Hcounts Henv].
  simpl in *.
  assert (Hkeys' : NoDup (tls_keys (log ++ [TlsAttached id key])) /\ forall k, k ∈ tls_keys (log ++ [TlsAttached id key]) <-> k ∈ {[key]} ∪ keys).
  { destruct Hkeys as [Hnd Hk]. unfold tls_keys. rewrite omap_app. simpl. split.
    - apply NoDup_app. split_and!; [done| |apply NoDup_singleton]. intros k Hk' ->%list_elem_of_singleton. by apply Ek, Hk.
    - intros k. rewrite elem_of_app, list_elem_of_singleton. specialize (Hk k). unfold tls_keys in Hk. set_solver. }
  assert (Hcounts' : rc_admitted (raise CountTlsAttached 1 counts) = size ids /\
    rc_names_attached (raise CountTlsAttached 1 counts) = size attached /\ rc_tls_attached (raise CountTlsAttached 1 counts) = size ({[key]} ∪ keys)).
  { destruct counts. simpl in *. rewrite size_union, size_singleton by set_solver. lia. }
  assert (Hids : id ∈ ids) by (by apply Hknown).
  unfold complete_again. simpl. destruct (pending !! id) as [due|] eqn:Ep; [|case_bool_decide as Ed].
  - assert (Hd : dom (<[id := now]> pending) = dom pending) by (apply dom_insert_lookup_L; eauto).
    split; simpl; try done. rewrite Hd. apply (life_tls_same _ _ _ _ _ _ _ _ Hlife); [done|].
    intros Hr. apply elem_of_dom_2 in Ep. destruct (life_at _ _ id Hlife) as (_ & _ & H' & _). by apply H'.
  - split; simpl; try done. rewrite dom_insert_L. by apply (life_tls_again _ _ _ _ _ _ _ _ Hlife).
  - split; simpl; try done. by apply (life_tls_same _ _ _ _ _ _ _ _ Hlife).
Qed.

Lemma set_tls_short v l : (length l <= max_tls_session_observations)%nat -> keep v (modify (set_tls (fun _ => l))).
Proof. intros Hl. apply spec_modify. intros s Hs. open_inv s Hs. by split. Qed.

(** The loop over the observations; what it returns is no longer than what it has seen. *)
Lemma keep_correlate_each v connections w observations :
  (forall c, c ∈ connections -> cs_id c ∈ v_known v) ->
  spec (session_inv v)
    (fold_each (fun left o => bind (correlate_one connections w o) (fun stays => ret (if stays : bool then left ++ [o] else left))) observations [])
    (fun left s => (length left <= length observations)%nat /\ session_inv v s).
Proof.
  intros Hc. apply (spec_pre _ (fun s => (length ([] : list TlsSessionObservation) <= 0)%nat /\ session_inv v s)); [done|].
  apply (spec_fold (fun n left s => (length left <= n)%nat /\ session_inv v s) observations _ [] 0%nat).
  intros o left n _. apply spec_pure. intros Hn. eapply spec_bind; [by apply keep_correlate_one|]. intros stays.
  apply spec_ret. intros s Hs. split; [|done]. destruct stays; rewrite ?length_app; simpl; lia.
Qed.

Lemma keep_correlate v : keep v (correlate_tls_sessions config).
Proof.
  unfold correlate_tls_sessions.
  apply (spec_bind _ _ (fun obs s => (length obs <= max_tls_session_observations)%nat /\ session_inv v s));
    [apply spec_get; intros s Hs; split; [apply Hs|done]|].
  intros observations. apply spec_pure. intros Hlen. apply keep_with_ids. intros ids.
  destruct (_ || _); [apply keep_ret|].
  apply (spec_bind _ _ (fun cs s => (forall c, c ∈ cs -> cs_id c ∈ ids) /\ session_inv (knowing ids v) s)).
  { apply spec_get. intros s Hs. split; [|done]. intros c (id & Hid%ascending_in & E)%list_elem_of_omap.
    by rewrite (ol_connection config Hout _ _ _ E). }
  intros connections. apply spec_pure. intros Hc. destruct (bool_decide _); [apply keep_ret|].
  eapply spec_bind; [by apply keep_correlate_each|]. intros left. apply spec_pure. intros Hl.
  apply set_tls_short. lia.
Qed.

Lemma keep_drain_tls v : keep v (drain_tls_sessions config).
Proof.
  unfold drain_tls_sessions. destruct (negb _); [apply keep_ret|].
  apply keep_bind; [apply keep_env, out_tls|]. intros observations. apply keep_bind; [apply keep_count; auto|]. intros _.
  apply keep_bind; [|intros _; apply keep_correlate]. apply spec_modify. intros s Hs. open_inv s Hs. split; simpl; try done.
  apply keep_last_length.
Qed.

(** *** Completed connections *)

Lemma tls_keys_other log e : (forall id key, e <> TlsAttached id key) -> tls_keys (log ++ [e]) = tls_keys log.
Proof. intros He. unfold tls_keys. rewrite omap_app. destruct e; simpl; by rewrite ?app_nil_r || destruct (He id key). Qed.

(** The completion callback is called for each connection that is due, once. *)
Lemma dispatch_loop v force now callback l :
  cb_connection_completed (oc_callbacks config) = Some callback -> NoDup (map fst l) ->
  spec (fun s => (forall id, id ∈ map fst l -> id ∈ dom (ss_pending_completed s)) /\
            (force = true -> forall id, id ∈ dom (ss_pending_completed s) -> id ∈ map fst l) /\ session_inv v s)
    (for_each l (dispatch_one force now callback))
    (fun _ s => (force = true -> ss_pending_completed s = ∅) /\ session_inv v s).
Proof.
  intros Hcb. unfold for_each. induction l as [|[id due] l IH]; intros Hnd; simpl.
  - apply spec_ret. intros s (_ & Hall & Hs). split; [|done]. intros Hf. apply dom_empty_inv_L.
    apply set_eq. intros id. specialize (Hall Hf id). set_solver.
  - apply NoDup_cons in Hnd as [Hni Hnd]. simpl in Hni. apply (spec_bind _ _ (fun _ s => (forall id, id ∈ map fst l -> id ∈ dom (ss_pending_completed s)) /\
      (force = true -> forall id, id ∈ dom (ss_pending_completed s) -> id ∈ map fst l) /\ session_inv v s)); [|intros []; by apply IH].
    intros s (Hin & Hall & Hs). unfold dispatch_one. destruct (negb force && _) eqn:Ef.
    { simpl. split_and!; [intros i Hi; apply Hin; by right| |done]. intros ->. done. }
    eval_prog. assert (Hid : id ∈ dom (ss_pending_completed s)) by (apply Hin; by left).
    assert (Hnot : id ∉ ss_dispatched_completed s).
    { intros Hd. destruct (life_at _ _ id (iv_life v s Hs)) as (_ & _ & H' & _). by apply H'. }
    rewrite (bool_decide_eq_false_2) by (destruct s; exact Hnot).
    pose proof (keep_act v _ (out_completed config callback id Hcb) s Hs) as Hs'. revert Hs'. eval_prog.
    destruct s as [tracker scheduler counts ids pending dispatched requests candidates names attached ambiguous tls keys log].
    simpl in *. intros Hs'. split_and!.
    + intros i Hi. rewrite dom_delete_L. assert (i <> id) by (by intros ->). specialize (Hin i). set_solver.
    + intros Hf i. rewrite dom_delete_L. intros [Hi Hne]%elem_of_difference. specialize (Hall Hf i Hi). set_solver.
    + destruct Hs' as [Htracker Htracked Hroutes Hapart Hknown Hfresh Hrows Hlife Hcandidates Hshed Hquiet Hnames Htls Hkeys Hcounts Henv].
      split; simpl in *; try done.
      * rewrite dom_delete_L. apply (life_completed _ _ _ _ _ _ _ _ Hlife); [|done]. unfold told. by rewrite Hcb.
      * by rewrite tls_keys_other.
Qed.

Lemma drop_loop v l :
  cb_connection_completed (oc_callbacks config) = None -> NoDup l ->
  spec (fun s => (forall id, id ∈ l <-> id ∈ dom (ss_pending_completed s)) /\ session_inv v s)
    (bind (for_each l (fun id => tell (Dropped id))) (fun _ => modify (set_pending_completed (fun _ => ∅))))
    (fun _ s => ss_pending_completed s = ∅ /\ session_inv v s).
Proof.
  intros Hcb Hnd s [Hl Hs]. unfold bind.
  assert (Hlog : forall l s, for_each l (fun id => @tell S (Dropped id)) s = (tt, set_log (fun log => log ++ map Dropped l) s)).
  { clear. unfold for_each. induction l as [|id l IH]; intros s; simpl; [destruct s; simpl; by rewrite app_nil_r|].
    unfold bind. change (tell (Dropped id) s) with (tt, set_log (fun log => log ++ [Dropped id]) s). cbv beta iota.
    rewrite IH. destruct s. simpl. by rewrite <- app_assoc. }
  rewrite Hlog. cbn [fst snd modify]. clear Hlog.
  assert (Ht : told = false) by (unfold told; by rewrite Hcb). open_inv s Hs. split; [done|]. split; simpl; try done.
  - rewrite dom_empty_L. clear - Hlife Hl Hnd Ht.
    assert (E : dom pending = list_to_set l) by (apply set_eq; intros id; rewrite elem_of_list_to_set; symmetry; apply Hl).
    rewrite E in Hlife. clear E Hl. revert log Hlife. induction l as [|id l IH]; intros log Hlife; simpl; [by rewrite app_nil_r|].
    apply NoDup_cons in Hnd as [Hni Hnd]. replace (log ++ Dropped id :: map Dropped l) with ((log ++ [Dropped id]) ++ map Dropped l) by (by rewrite <- app_assoc).
    apply IH; [done|]. simpl in Hlife. pose proof (life_dropped _ _ _ _ _ _ _ _ Hlife id Ht ltac:(set_solver)) as H'.
    replace (list_to_set l : gset Z) with (({[id]} ∪ list_to_set l) ∖ {[id]} : gset Z); [done|]. apply set_eq. intros i. set_solver.
  - assert (E : tls_keys (log ++ map Dropped l) = tls_keys log); [|by rewrite E].
    unfold tls_keys. rewrite omap_app. replace (omap _ (map Dropped l)) with (@nil string); [by rewrite app_nil_r|].
    clear. by induction l.
Qed.

Lemma dispatch_all v force :
  spec (session_inv v) (dispatch_completed config force) (fun _ s => (force = true -> ss_pending_completed s = ∅) /\ session_inv v s).
Proof.
  unfold dispatch_completed.
  apply (spec_bind _ _ (fun p s => (forall id, id ∈ map fst (map_to_list p) <-> id ∈ dom (ss_pending_completed s)) /\ session_inv v s)).
  { apply spec_get. intros s Hs. split; [|done]. intros id. rewrite elem_of_dom, (list_elem_of_fmap fst). split.
    - intros ([i d] & -> & Hi%elem_of_map_to_list). by exists d.
    - intros [d Hd]. exists (id, d). by rewrite elem_of_map_to_list. }
  intros pending. assert (Hnd : NoDup (map fst (map_to_list pending))) by apply NoDup_fst_map_to_list.
  destruct (cb_connection_completed (oc_callbacks config)) as [callback|] eqn:Hcb.
  - eapply spec_bind; [|intros now; by apply dispatch_loop].
    intros s [Hp Hs]. pose proof (keep_env v steady_now (out_now config) s Hs) as Hs'. revert Hs'. unfold env.
    destruct (steady_now (ss_env s)) as [now e]. simpl. intros Hs'. destruct s. simpl in *.
    split_and!; [intros id; apply Hp|intros _ id; apply Hp|done].
  - eapply spec_post; [by apply drop_loop|]. intros _ s [E Hs]. done.
Qed.

Lemma keep_dispatch v force : keep v (dispatch_completed config force).
Proof. eapply spec_post; [apply dispatch_all|]. by intros _ s [_ Hs]. Qed.

(** *** Connections that end *)

(** A view is weakened by knowing less. *)
Lemma view_less v v' s :
  v_known v' ⊆ v_known v -> v_fresh v' = v_fresh v -> v_gone v' = v_gone v -> v_taken v' = v_taken v ->
  (v_quiet v' = true -> v_quiet v = true) -> (v_shed v' = true -> v_shed v = true) -> session_inv v s -> session_inv v' s.
Proof.
  intros Hk Hf Hg Ht Hq Hsh [? ? ? ? ? ? ? ? ? ? ? ? ? ? ? ?]. split; rewrite ?Hf, ?Hg, ?Ht; try done; first [by etrans|by auto].
Qed.

Definition gone (l : list Z) (v : View) : View := MkView (v_known v) (v_fresh v) (list_to_set l) (v_taken v) (v_quiet v) (v_shed v).

Lemma ended_one v id l :
  v_taken v = ∅ -> id ∉ l ->
  spec (fun s => (forall i, i ∈ id :: l -> i ∈ es_active (ss_scheduler s)) /\ session_inv (gone (id :: l) v) s)
    (connection_ended id)
    (fun _ s => (forall i, i ∈ l -> i ∈ es_active (ss_scheduler s)) /\ session_inv (gone l v) s).
Proof.
  intros Ht Hn s [Hl Hs]. unfold connection_ended, queue_completed. eval_prog.
  pose proof (keep_env _ steady_now (out_now config) s Hs) as Hs'. revert Hs'. unfold env.
  destruct s as [tracker scheduler counts ids pending dispatched requests candidates names attached ambiguous tls keys log].
  cbn. destruct (steady_now _) as [now e]. cbn. intros Hs'.
  destruct Hs' as [Htracker Htracked Hroutes Hapart Hknown Hfresh Hrows Hlife Hcandidates Hshed Hquiet Hnames Htls Hkeys Hcounts Henv].
  simpl in *. assert (Hid : id ∈ es_active scheduler) by (apply Hl; by left).
  assert (Hids : id ∈ ids) by (by apply (lo_active _ _ Hlife)).
  split.
  { intros i Hi. assert (i <> id) by (by intros ->). specialize (Hl i). set_solver. }
  split; simpl; try done.
  - intros i. rewrite Htracked. specialize (Hfresh i). destruct (decide (i = id)) as [->|Hne]; set_solver.
  - rewrite dom_delete_L, Hroutes, Ht. set_solver.
  - rewrite Ht. set_solver.
  - rewrite dom_delete_L, dom_insert_L. by apply (life_closed _ _ _ _ _ _ _ _ Hlife).
  - intros Hq. specialize (Hquiet Hq). rewrite dom_delete_L. set_solver.
  - by rewrite tls_keys_other.
Qed.

Lemma ended_all v l :
  v_taken v = ∅ -> NoDup l ->
  spec (fun s => (forall i, i ∈ l -> i ∈ es_active (ss_scheduler s)) /\ session_inv (gone l v) s)
    (for_each l connection_ended) (fun _ => session_inv (gone [] v)).
Proof.
  intros Ht. unfold for_each. induction l as [|id l IH]; intros Hnd; simpl.
  - apply spec_ret. by intros s [_ Hs].
  - apply NoDup_cons in Hnd as [Hn Hnd]. eapply spec_bind; [by apply ended_one|]. intros []. by apply IH.
Qed.

(** *** Admission *)

Definition busy (known : gset Z) (shed : bool) : View := MkView known ∅ ∅ ∅ false shed.
Definition fresh (id : Z) (known : gset Z) (shed : bool) : View := MkView known {[id]} ∅ ∅ false shed.

Lemma record_keeps known shed a address direction :
  ca_newly_admitted a = true ->
  spec (session_inv (fresh (ca_connection_id a) known shed)) (record_admission config a address direction)
    (fun _ => session_inv (busy known shed)).
Proof.
  intros Hn. unfold record_admission. rewrite Hn. simpl. set (id := ca_connection_id a).
  apply (spec_post _ _ _ (fun _ => session_inv (busy ({[id]} ∪ known) shed)));
    [|intros _ s; apply view_less; simpl; [set_solver|done..]].
  set (m := attach_name_resolution config id direction).
  intros s Hs. unfold bind at 1 2 3 4 5. cbn [modify count tell fst snd].
  match goal with |- session_inv _ (?k ?s').2 => assert (Hs' : session_inv (busy ({[id]} ∪ known) shed) s') end.
  { open_inv s Hs. assert (Hid : id ∉ ids) by (apply Hfresh; set_solver).
    assert (Er : requests !! id = None).
    { apply not_elem_of_dom. intros Hd. apply Hid, (lo_active _ _ Hlife), (lo_waiting _ _ Hlife), Hd. }
    rewrite Er. split; simpl; try done.
    - intros i. rewrite Htracked. set_solver.
    - rewrite dom_insert_L, Hroutes. set_solver.
    - set_solver.
    - intros i Hi. apply Hrows. set_solver.
    - rewrite dom_insert_L. by apply (life_admitted _ _ _ _ _ _ _ _ Hlife).
    - by rewrite tls_keys_other.
    - destruct counts. simpl in *. rewrite size_union, size_singleton by set_solver. lia. }
  assert (Ha : keep (busy ({[id]} ∪ known) shed) m) by (apply keep_attach; simpl; set_solver).
  exact (keep_bind _ m (fun _ => correlate_tls_sessions config) Ha (fun _ => keep_correlate _) _ Hs').
Qed.

Lemma keep_promotion v a address :
  ca_connection_id a ∈ v_known v -> keep v (record_direction_promotion config a address).
Proof.
  intros Hid. unfold record_direction_promotion. destruct (negb _); [apply keep_ret|].
  apply keep_bind; [|intros _; by apply keep_attach]. apply spec_modify. intros s Hs. open_inv s Hs.
  split; simpl; rewrite ?dom_alter_L; done.
Qed.

(** *** The tracker *)

(** A call of the tracker: its invariant, what it tracks, and what it keeps of the outside. *)
Lemma tracker_changes v v' s t' :
  session_inv v s -> tracker_inv t' ->
  (forall id, tracked (tk_connections t') id <-> (id ∈ es_active (ss_scheduler s) \/ id ∈ v_fresh v') /\ id ∉ v_gone v') ->
  (forall K, history_stable K -> K (ss_env s) -> K (tk_store t')) ->
  (forall id, id ∈ v_fresh v' -> id ∉ ss_connection_ids s /\ is_Some (row_cookie (tk_store t') id)) ->
  v_known v' = v_known v -> v_taken v' = v_taken v -> v_quiet v' = v_quiet v -> v_shed v' = v_shed v ->
  session_inv v' (set_tracker (fun _ => t') s).
Proof.
  intros Hs Hi Htr Hst Hfr Hk Ht Hq Hsh. open_inv s Hs. split; simpl; rewrite ?Hk, ?Ht, ?Hq, ?Hsh; try done.
  - intros id Hid. by apply Hfr.
  - intros id [Hid|Hid]; [|by apply Hfr]. apply (Hst _ (row_stable id)). apply Hrows. by left.
  - apply (Hst J); [apply HJ|done].
Qed.

(** What the session knows when the tracker has answered, if it was given a socket. *)
Definition answered (known : gset Z) (shed : bool) (o : option ConnectionAdmission) (s : Session S) : Prop :=
  match o with
  | None => session_inv (busy known shed) s
  | Some a =>
      if ca_newly_admitted a then session_inv (fresh (ca_connection_id a) known shed) s
      else ca_connection_id a ∈ es_active (ss_scheduler s) /\ session_inv (busy known shed) s
  end.

Lemma tracked_active known shed s id :
  session_inv (busy known shed) s -> tracked (tk_connections (ss_tracker s)) id <-> id ∈ es_active (ss_scheduler s).
Proof. intros Hs. rewrite (iv_tracked _ s Hs). simpl. set_solver. Qed.

(** A row that does not exist yet is not one of a known connection. *)
Lemma new_row v s id : session_inv v s -> row_cookie (ss_env s) id = None -> id ∉ ss_connection_ids s.
Proof. intros Hs E Hid. destruct (iv_rows v s Hs id (or_introl Hid)) as [x Hx]. congruence. Qed.

Lemma observe_answers known shed socket direction allow origin :
  socket_ok socket ->
  spec (session_inv (busy known shed)) (observe config socket direction allow origin)
    (fun o s => answered known shed o s /\ match o with Some a => allow = false -> ca_newly_admitted a = false | None => True end).
Proof.
  intros Hok s Hs. unfold observe, bind, get, tracking.
  set (ri := resolve_inode (ss_env s)). set (rs := resolve_socket (ss_env s)).
  pose proof (socket_tracks (Hlaws := Hlaws) (oc_target_label config) ri rs socket direction allow origin (ss_tracker s)) as Ht.
  pose proof (observe_socket_inv (oc_target_label config) ri rs socket direction allow origin (ss_tracker s) Hok (iv_tracker _ s Hs)) as Hi.
  pose proof (fun K HK => socket_stable K HK (oc_target_label config) ri rs socket direction allow origin (ss_tracker s)) as Hst.
  destruct (observe_socket _ _ _ _ _ _ _ _) as [o t']. simpl in *. destruct Ht as [Ht Hc].
  pose proof (fun id => tracked_active _ _ _ id Hs) as Hact.
  destruct o as [a|]; simpl in *.
  - destruct Hc as [Hcl Hnew]. rewrite Hcl in Ht. split; [|intros ->; destruct (ca_newly_admitted a); naive_solver].
    destruct (ca_newly_admitted a).
    + destruct Ht as (_ & _ & Hn & Hsome & Htr).
      apply (tracker_changes (busy known shed) _ s t' Hs Hi); try done; simpl.
      * intros id. rewrite Htr, Hact. set_solver.
      * intros id ->%elem_of_singleton. split; [by eapply new_row|done].
    + destruct Ht as [Hta Htr]. split; [apply Hact in Hta; by destruct s|].
      apply (tracker_changes (busy known shed) _ s t' Hs Hi); try done; simpl.
      intros id. rewrite Htr, Hact. set_solver.
  - split; [|done]. apply (tracker_changes (busy known shed) _ s t' Hs Hi); try done; simpl.
    intros id. rewrite Ht, Hact. set_solver.
Qed.

Lemma transport_keeps v id sample :
  spec (fun s => (id ∈ es_active (ss_scheduler s) \/ id ∉ ss_connection_ids s) /\ session_inv v s)
    (transport_observed config id sample) (fun _ => session_inv v).
Proof.
  unfold transport_observed. destruct (cb_transport_observed _) as [f|] eqn:Hf; [|apply spec_ret; by intros s [_ Hs]].
  apply (spec_bind _ _ (fun _ => session_inv v)); [|intros _; apply keep_act; by constructor].
  apply spec_modify. intros s [Hid Hs]. open_inv s Hs. split; simpl; try done.
  - by apply (life_sampled _ _ _ _ _ _ _ _ Hlife).
  - by rewrite tls_keys_other.
Qed.

Lemma keep_admit known shed socket direction allow origin :
  socket_ok socket -> keep (busy known shed) (admit_from_snapshot config socket direction allow origin).
Proof.
  intros Hok. unfold admit_from_snapshot. eapply spec_bind; [by apply observe_answers|]. intros [a|]; simpl.
  - destruct (ca_newly_admitted a) eqn:Hn.
    + apply (spec_bind _ _ (fun _ => session_inv (fresh (ca_connection_id a) known shed))); [|intros _; by apply record_keeps].
      eapply spec_pre; [|apply transport_keeps]. intros s [Hs _]. split; [|done]. right. apply (iv_fresh _ s Hs). simpl. set_solver.
    + apply (spec_bind _ _ (fun _ => session_inv (busy known shed))).
      * eapply spec_pre; [|apply transport_keeps]. intros s [[Hid Hs] _]. auto.
      * intros _. unfold record_admission. rewrite Hn. apply keep_ret.
  - apply spec_ret. by intros s [Hs _].
Qed.

(** *** Candidates *)

Lemma keep_fewer v f : (forall m, f m ⊆ m) -> keep v (modify (set_candidates f)).
Proof.
  intros Hf. apply spec_modify. intros s Hs. open_inv s Hs. split; simpl; try done.
  - intros key c E. apply (Hcandidates key). by eapply lookup_weaken.
  - intros Hv. specialize (Hshed Hv). pose proof (map_subseteq_size _ _ (Hf candidates)). lia.
Qed.

Lemma keep_erase v key : keep v (modify (set_candidates (delete key))).
Proof. apply keep_fewer. intros m. apply delete_subseteq. Qed.

Lemma keep_insert known key c : socket_ok (pc_socket c) -> keep (busy known false) (modify (set_candidates (insert key c))).
Proof.
  intros Hc. apply spec_modify. intros s Hs. open_inv s Hs. split; simpl; try done.
  intros k x [[_ <-]|[_ E]]%lookup_insert_Some; [done|by eapply Hcandidates].
Qed.

Lemma keep_sample_with_lifecycle known startup degraded seen socket process :
  socket_ok socket -> keep (busy known false) (sample_with_lifecycle config startup degraded seen socket process).
Proof.
  intros Hok. unfold sample_with_lifecycle. eapply spec_bind; [by apply observe_answers|]. intros [a|]; simpl.
  - apply (spec_bind _ _ (fun _ => session_inv (busy known false))).
    + eapply spec_pre; [|apply transport_keeps]. intros s [Ha Hn]. rewrite Hn in Ha by done. destruct Ha. auto.
    + intros _. apply keep_bind; [apply keep_erase|intros _; apply keep_ret].
  - eapply spec_pre; [intros s [Hs _]; exact Hs|]. destruct (negb _); [apply keep_ret|].
    apply keep_bind; [apply keep_get|]. intros candidates. set (c := update_candidate _ _ _ _).
    assert (Hc : pc_socket c = socket) by (unfold c, update_candidate; by case_match).
    apply keep_bind; [apply keep_insert; by rewrite Hc|]. intros _. destruct (_ || _); [|apply keep_ret].
    apply keep_bind; [apply keep_admit; by rewrite Hc|]. intros _. apply keep_bind; [apply keep_erase|intros _; apply keep_ret].
Qed.

Lemma keep_sample_socket known shed startup degraded seen socket :
  socket_ok socket -> (shed = true -> lifecycle_events_active config = false) ->
  keep (busy known shed) (sample_socket config startup degraded seen socket).
Proof.
  intros Hok Hsh. unfold sample_socket. apply keep_bind; [apply keep_get|]. intros process.
  destruct (lifecycle_events_active config).
  - destruct shed; [by specialize (Hsh eq_refl)|]. by apply keep_sample_with_lifecycle.
  - apply keep_bind; [by apply keep_admit|]. intros _. apply keep_ret.
Qed.

Lemma shed_subseteq m : shed_candidates m ⊆ m.
Proof.
  unfold shed_candidates, keep_last. apply map_subseteq_spec. intros key c E.
  apply elem_of_list_to_map_2 in E. apply elem_of_map_to_list.
  rewrite <- (take_drop (length (map_to_list m) - max_snapshot_reconciliation_candidates)). apply elem_of_app. by right.
Qed.

Lemma shed_size m : (size (shed_candidates m) <= max_snapshot_reconciliation_candidates)%nat.
Proof.
  unfold shed_candidates. rewrite map_size_list_to_map; [apply keep_last_length|].
  unfold keep_last. rewrite fmap_drop. eapply sublist_NoDup; [apply (NoDup_fst_map_to_list m)|apply sublist_drop].
Qed.

Lemma settle_sheds known degraded seen :
  spec (session_inv (busy known false)) (settle_candidates config degraded seen) (fun _ => session_inv (busy known true)).
Proof.
  unfold settle_candidates.
  apply (spec_bind _ _ (fun c s => (forall key x, c !! key = Some x -> socket_ok (pc_socket x)) /\ session_inv (busy known false) s));
    [apply spec_get; intros s Hs; split; [apply Hs|done]|].
  intros now_pending. apply spec_pure. intros Hc.
  apply (spec_bind _ _ (fun _ => session_inv (busy known false))).
  { apply keep_for_each. intros [key c] Hin%elem_of_map_to_list. unfold settle_candidate. simpl.
    destruct (bool_decide _); [apply keep_ret|].
    apply keep_bind; [destruct degraded; [apply keep_admit; by eapply Hc|apply keep_ret]|]. intros _. apply keep_erase. }
  intros _. apply (spec_bind _ _ (fun _ => session_inv (busy known true))).
  - apply spec_modify. intros s Hs. open_inv s Hs. split; simpl; try done.
    + intros key c E. apply (Hcandidates key). eapply lookup_weaken; [done|apply shed_subseteq].
    + intros _. apply shed_size.
  - intros _. apply keep_fewer. intros m. apply map_filter_subseteq.
Qed.

(** *** Snapshots *)

Lemma keep_begin_snapshot known shed : keep (busy known shed) (tracking (fun t => (tt, begin_snapshot t))).
Proof.
  intros s Hs. unfold tracking. cbn [fst snd]. apply (tracker_changes (busy known shed) _ s); try done.
  - apply begin_snapshot_inv, Hs.
  - intros id. by rewrite tracked_begin, (iv_tracked _ s Hs).
Qed.

Lemma end_snapshot_ends known shed polling incomplete :
  keep (busy known shed) (bind (tracking (end_snapshot polling incomplete)) (fun ended => for_each ended connection_ended)).
Proof.
  apply (spec_bind _ _ (fun ended s => NoDup ended /\ (forall i, i ∈ ended -> i ∈ es_active (ss_scheduler s)) /\
    session_inv (gone ended (busy known shed)) s)).
  - intros s Hs. unfold tracking.
    pose proof (end_snapshot_tracks polling incomplete (ss_tracker s) (iv_tracker _ s Hs)) as Ht.
    pose proof (end_snapshot_outcome polling incomplete (ss_tracker s) (iv_tracker _ s Hs)) as Hi.
    pose proof (fun K HK => end_snapshot_stable K HK polling incomplete (ss_tracker s)) as Hst.
    destruct (end_snapshot polling incomplete (ss_tracker s)) as [ended t']. destruct Ht as (Hnd & Hin & Htr). destruct Hi as [Hi _].
    pose proof (fun id => tracked_active _ _ _ id Hs) as Hact. simpl in *. split_and!; [done| |].
    + intros i Hi'. apply Hin, Hact in Hi'. by destruct s.
    + apply (tracker_changes (busy known shed) _ s t' Hs Hi); try done; simpl. intros id. rewrite Htr, Hact, elem_of_list_to_set. set_solver.
  - intros ended. apply spec_pure. intros Hnd. by apply ended_all.
Qed.

Lemma keep_snapshot known startup :
  spec (session_inv (busy known true)) (sample_transport config startup) (fun _ => session_inv (busy known true)).
Proof.
  unfold sample_transport. apply keep_bind; [apply keep_drain_names|]. intros _. apply keep_bind; [apply keep_retry|]. intros _.
  apply keep_bind; [apply keep_begin_snapshot|]. intros _. apply keep_bind; [apply keep_get|]. intros degraded.
  apply (spec_bind _ _ (fun sockets s => Forall socket_ok sockets /\ session_inv (busy known true) s)).
  { intros s Hs. split; [|by apply keep_env; [apply out_snapshot|]]. unfold env.
    pose proof (ol_sockets config Hout (ss_env s)). by destruct (socket_snapshot (ss_env s)). }
  intros sockets. apply spec_pure. intros Hok. rewrite Forall_forall in Hok.
  assert (Hloop : forall shed, (shed = true -> lifecycle_events_active config = false) ->
    keep (busy known shed) (fold_each (sample_socket config startup degraded) sockets ∅)).
  { intros shed Hsh. apply (spec_fold (fun _ _ => session_inv (busy known shed)) sockets _ ∅ 0%nat).
    intros socket seen n Hin. apply keep_sample_socket; [|done]. by apply Hok. }
  destruct (lifecycle_events_active config) eqn:Ha.
  - apply (spec_bind _ _ (fun _ => session_inv (busy known false))).
    { eapply spec_pre; [|by apply (Hloop false)]. intros s. by apply view_less. }
    intros seen. apply (spec_bind _ _ (fun _ => session_inv (busy known true))); [apply settle_sheds|].
    intros _. apply keep_bind_assoc, keep_bind; [apply end_snapshot_ends|]. intros _.
    apply keep_bind; [apply keep_drain_tls|]. intros _. apply keep_dispatch.
  - apply keep_bind; [by apply Hloop|]. intros seen. apply keep_bind; [apply keep_ret|].
    intros _. apply keep_bind_assoc, keep_bind; [apply end_snapshot_ends|]. intros _.
    apply keep_bind; [apply keep_drain_tls|]. intros _. apply keep_dispatch.
Qed.

(** *** Routes *)

Definition taking (l : list Z) (known : gset Z) : View := MkView known ∅ ∅ (list_to_set l) true true.

Lemma keep_route_evidence v id request :
  keep v (bind (env (route_to (rq_remote_address request))) (fun route =>
    match route with
    | Some r =>
        let r := set_relation (relation_of (rq_direction request)) r in
        bind (act (store_route id r)) (fun _ => bind (get (fun s => read_connection (ss_env s) id)) (fun connection =>
          match connection with
          | Some c => bind (env read_host) (fun reads => act (store_environment id (capture_host_network_environment reads c r)))
          | None => ret tt
          end))
    | None => ret tt
    end)).
Proof.
  apply keep_bind; [apply keep_env; constructor|]. intros [r|]; [|apply keep_ret].
  apply keep_bind; [apply keep_act; constructor|]. intros _. apply keep_bind; [apply keep_get|].
  intros [c|]; [|apply keep_ret]. apply keep_bind; [apply keep_env; constructor|]. intros reads. apply keep_act. constructor.
Qed.

Lemma route_one known id l :
  id ∉ l -> spec (session_inv (taking (id :: l) known)) (observe_route id) (fun _ => session_inv (taking l known)).
Proof.
  intros Hn s Hs. unfold observe_route. unfold bind at 1. cbn [get fst snd].
  destruct (ss_route_requests s !! id) as [request|] eqn:Er.
  2: { exfalso. apply not_elem_of_dom in Er. rewrite (iv_routes _ s Hs) in Er. simpl in Er. set_solver. }
  refine (spec_assoc (session_inv (taking (id :: l) known)) _ _ _ (fun _ => session_inv (taking (id :: l) known))
    (fun _ => session_inv (taking l known)) (keep_route_evidence _ id request) _ s Hs).
  clear s Hs Er. intros _ s Hs. eval_prog. open_inv s Hs.
  assert (Hid : id ∈ dom requests) by (rewrite Hroutes; set_solver).
  split; simpl; try done.
  - rewrite dom_delete_L, Hroutes. set_solver.
  - set_solver.
  - rewrite dom_delete_L. by apply (life_routed _ _ _ _ _ _ _ _ Hlife).
  - intros _. specialize (Hquiet eq_refl). rewrite dom_delete_L. set_solver.
  - by rewrite tls_keys_other.
Qed.

Lemma route_all known l :
  NoDup l -> spec (session_inv (taking l known)) (for_each l observe_route) (fun _ => session_inv (plain known)).
Proof.
  unfold for_each. induction l as [|id l IH]; intros Hnd; simpl; [by apply spec_ret|].
  apply NoDup_cons in Hnd as [Hn Hnd]. eapply spec_bind; [by apply route_one|]. intros []. by apply IH.
Qed.

(** After a sample no route waits. *)
Lemma routes_taken known now :
  spec (session_inv (busy known true))
    (bind (modify (set_scheduler (transport_sampled now))) (fun _ => observe_scheduled_routes))
    (fun _ => session_inv (plain known)).
Proof.
  intros s Hs. unfold observe_scheduled_routes. eval_prog.
  set (due := elements (es_pending_routes (ss_scheduler s))).
  match goal with |- context [for_each ?l observe_route ?s'] => assert (Hd : l = due /\ session_inv (taking due known) s') end.
  { destruct s as [tracker scheduler counts ids pending dispatched requests candidates names attached ambiguous tls keys log].
    destruct Hs as [Htracker Htracked Hroutes Hapart Hknown Hfresh Hrows Hlife Hcandidates Hshed Hquiet Hnames Htls Hkeys Hcounts Henv].
    subst due. simpl in *. unfold take_route_observations_due. simpl.
    destruct (bool_decide (es_pending_routes scheduler = ∅)) eqn:Ee; to_prop; simpl.
    - rewrite Ee in *. rewrite elements_empty. split; [done|]. split; simpl; rewrite ?Ee; try done. rewrite Hroutes. set_solver.
    - split; [done|]. split; simpl; try done; rewrite ?list_to_set_elements_L; [rewrite Hroutes|..]; set_solver. }
  destruct Hd as [-> Hs']. exact (route_all known due (NoDup_elements _) _ Hs').
Qed.

Lemma sample_round_keeps known startup :
  spec (session_inv (busy known true)) (sample_round config startup) (fun _ => session_inv (plain known)).
Proof.
  unfold sample_round. apply (spec_bind _ _ (fun _ => session_inv (busy known true))); [apply keep_snapshot|]. intros _.
  apply (spec_bind _ _ (fun _ => session_inv (busy known true))); [apply keep_env; constructor|]. intros now. apply routes_taken.
Qed.

Lemma plain_busy known s : session_inv (plain known) s -> session_inv (busy known true) s.
Proof. by apply view_less. Qed.

(** *** Lifecycle events *)

Lemma keep_erase_key v key : keep v (modify (erase_key key)).
Proof. apply keep_fewer. intros m. destruct (bool_decide _); [done|apply delete_subseteq]. Qed.

Lemma keep_erase_candidate v event : keep v (erase_candidate_for_lifecycle event).
Proof.
  unfold erase_candidate_for_lifecycle. apply keep_bind; [apply keep_erase_key|]. intros _.
  destruct (bool_decide _); [apply keep_erase_key|apply keep_ret].
Qed.

(** What the session knows when the tracker has answered to an event. *)
Definition event_answer (known : gset Z) (event : ConnectionLifecycleEvent) (o : option ConnectionAdmission) (s : Session S) : Prop :=
  match o with
  | None => session_inv (plain known) s
  | Some a =>
      if ca_newly_admitted a then
        (is_Some (le_remote event) /\ ca_closed a = false /\ ca_direction_promoted a = false) /\
        session_inv (fresh (ca_connection_id a) known true) s
      else if ca_closed a then
        ca_direction_promoted a = false /\ (forall i, i ∈ [ca_connection_id a] -> i ∈ es_active (ss_scheduler s)) /\
        session_inv (gone [ca_connection_id a] (plain known)) s
      else session_inv (plain ({[ca_connection_id a]} ∪ known)) s
  end.

Lemma event_answers known event direction :
  event_ok event ->
  spec (session_inv (plain known)) (tracking (observe_lifecycle (oc_target_label config) event direction)) (event_answer known event).
Proof.
  intros Hok s Hs. unfold tracking.
  pose proof (lifecycle_tracks (Hlaws := Hlaws) (oc_target_label config) event direction (ss_tracker s) Hok (iv_tracker _ s Hs)) as Ht.
  pose proof (observe_lifecycle_inv (oc_target_label config) event direction (ss_tracker s) Hok (iv_tracker _ s Hs)) as Hi.
  pose proof (fun K HK => lifecycle_stable K HK (oc_target_label config) event direction (ss_tracker s)) as Hst.
  pose proof (admitted_remote (oc_target_label config) event direction (ss_tracker s)) as Hrem.
  destruct (observe_lifecycle _ _ _ _) as [o t']. simpl in *.
  assert (Hact : forall id, tracked (tk_connections (ss_tracker s)) id <-> id ∈ es_active (ss_scheduler s)).
  { intros id. rewrite (iv_tracked _ s Hs). simpl. set_solver. }
  destruct o as [a|]; simpl in *.
  - specialize (Hrem a eq_refl). destruct (ca_newly_admitted a); [|destruct (ca_closed a)].
    + destruct Ht as (Hc & Hp & Hn & Hsome & Htr). split; [auto|].
      apply (view_less (MkView known {[ca_connection_id a]} ∅ ∅ true true)); try done.
      apply (tracker_changes (plain known) _ s t' Hs Hi); try done; simpl.
      * intros id. rewrite Htr, Hact. set_solver.
      * intros id ->%elem_of_singleton. split; [by eapply new_row|done].
    + destruct Ht as (Hp & Hta & Htr). apply Hact in Hta. split_and!; [done|intros i ->%list_elem_of_singleton; by destruct s|].
      apply (tracker_changes (plain known) _ s t' Hs Hi); try done; simpl. intros id. rewrite Htr, Hact. set_solver.
    + destruct Ht as [Hta Htr]. apply Hact in Hta.
      assert (Hs' : session_inv (plain ({[ca_connection_id a]} ∪ known)) s).
      { pose proof (lo_active _ _ (iv_life _ s Hs) _ Hta) as Hin. destruct Hs. split; try done. simpl in *. set_solver. }
      apply (tracker_changes (plain ({[ca_connection_id a]} ∪ known)) _ s t' Hs' Hi); try done; simpl. intros id. rewrite Htr, Hact. set_solver.
  - apply (tracker_changes (plain known) _ s t' Hs Hi); try done; simpl. intros id. rewrite Ht, Hact. set_solver.
Qed.

Lemma keep_event known event : event_ok event -> keep (plain known) (handle_event config event).
Proof.
  intros Hok. unfold handle_event. apply keep_bind; [apply keep_erase_candidate|]. intros _. cbv zeta.
  destruct (negb _); [apply keep_ret|]. eapply spec_bind; [by apply event_answers|]. intros [a|]; [|by apply spec_ret].
  unfold event_answer. destruct (ca_newly_admitted a) eqn:Hn; [|destruct (ca_closed a) eqn:Hc].
  - apply spec_pure. intros ([r Hr] & Hcl & Hp). rewrite Hr, Hcl. unfold record_direction_promotion. rewrite Hp. simpl.
    do 2 (eapply spec_bind; [apply keep_ret|]; intros []).
    eapply spec_bind; [by apply record_keeps|]. intros []. apply sample_round_keeps.
  - apply spec_pure. intros Hp.
    apply (spec_bind _ _ (fun _ s => (forall i, i ∈ [ca_connection_id a] -> i ∈ es_active (ss_scheduler s)) /\
      session_inv (gone [ca_connection_id a] (plain known)) s)).
    { destruct (le_remote event); [|by apply spec_ret]. unfold record_direction_promotion. rewrite Hp. by apply spec_ret. }
    intros _. apply (spec_bind _ _ (fun _ => session_inv (plain known))).
    { eapply spec_post; [apply (ended_one (plain known) (ca_connection_id a) []); [done|set_solver]|]. by intros _ s [_ Hs]. }
    intros _. apply keep_ret.
  - apply (spec_post _ _ _ (fun _ => session_inv (plain ({[ca_connection_id a]} ∪ known))));
      [|intros _ s; apply view_less; simpl; [set_solver|done..]].
    apply keep_bind.
    { destruct (le_remote event); [|apply keep_ret]. apply keep_promotion. simpl. set_solver. }
    intros _. apply keep_bind; intros; apply keep_ret.
Qed.

Lemma keep_lifecycle known deadline : keep (plain known) (handle_lifecycle config deadline).
Proof.
  unfold handle_lifecycle. apply keep_bind; [apply keep_env; constructor|]. intros now.
  apply keep_bind; [apply keep_get|]. intros timeout.
  apply (spec_bind _ _ (fun events s => Forall event_ok events /\ session_inv (plain known) s)).
  { intros s Hs. split; [|by apply keep_env; [apply (out_lifecycle config timeout)|]]. unfold env.
    pose proof (ol_events config Hout timeout (ss_env s)). by destruct (poll_lifecycle timeout (ss_env s)). }
  intros events. apply spec_pure. intros Hok. rewrite Forall_forall in Hok.
  apply keep_bind; [apply keep_drain_names|]. intros _. apply keep_bind; [apply keep_retry|]. intros _.
  apply keep_bind; [apply keep_for_each; intros e He; apply keep_event; by apply Hok|]. intros _.
  apply keep_bind; [apply keep_drain_tls|]. intros _. apply keep_dispatch.
Qed.

(** *** The loop *)

Lemma sampled known startup : keep (plain known) (sample_round config startup).
Proof. eapply spec_pre; [apply plain_busy|apply sample_round_keeps]. Qed.

Lemma keep_iteration known deadline : keep (plain known) (iteration config deadline).
Proof.
  unfold iteration. apply keep_bind; [destruct (lifecycle_events_active config); [apply keep_lifecycle|apply keep_ret]|]. intros _.
  apply keep_bind; [apply keep_env; constructor|]. intros now. apply keep_bind; [apply keep_get|]. intros due.
  apply keep_bind; [destruct due; [apply sampled|apply keep_ret]|]. intros _.
  apply keep_bind. { apply keep_call. destruct (oc_maintenance config) eqn:E; intros g [= <-]. by constructor. }
  intros _. apply keep_bind; [apply keep_call; intros g; constructor; done|]. intros _.
  destruct (negb _); [apply keep_act; constructor|apply keep_ret].
Qed.

Lemma keep_goes_on v deadline : keep v (goes_on deadline).
Proof.
  unfold goes_on. apply keep_bind.
  - destruct deadline; [apply keep_bind; [apply keep_env; constructor|intros; apply keep_ret]|apply keep_ret].
  - intros []; [apply keep_bind; [apply keep_env; constructor|intros; apply keep_ret]|apply keep_ret].
Qed.

Lemma keep_rounds known fuel deadline : keep (plain known) (rounds config fuel deadline).
Proof.
  induction fuel as [|fuel IH]; simpl; [apply keep_ret|]. apply keep_bind; [apply keep_goes_on|]. intros more.
  destruct (negb more); [apply keep_ret|]. apply keep_bind; [apply keep_iteration|]. by intros _.
Qed.

Lemma keep_prepare known : keep (plain known) (prepare config).
Proof.
  unfold prepare. apply keep_bind; [apply keep_call; intros g; by constructor|]. intros _.
  apply keep_bind; [apply keep_drain_names|]. intros _. apply keep_bind; [apply keep_retry|]. intros _.
  apply keep_bind; [apply keep_drain_tls|]. intros _.
  destruct (lifecycle_events_active config); [apply sampled|apply keep_ret].
Qed.

Lemma keep_start known : keep (plain known) (start config).
Proof.
  unfold start, set_deadline. apply keep_bind.
  - destruct (oc_duration config); [apply keep_bind; [apply keep_env; constructor|intros; apply keep_ret]|apply keep_ret].
  - intros deadline. apply keep_bind; [apply keep_prepare|]. intros _. apply keep_ret.
Qed.

Lemma finish_keeps known :
  spec (session_inv (plain known)) (finish config) (fun _ s => ss_pending_completed s = ∅ /\ session_inv (plain known) s).
Proof.
  unfold finish. apply (spec_bind _ _ (fun _ => session_inv (plain known))); [apply keep_drain_names|]. intros _.
  apply (spec_bind _ _ (fun _ => session_inv (plain known))); [apply keep_retry|]. intros _.
  apply (spec_bind _ _ (fun _ => session_inv (plain known))); [apply keep_drain_tls|]. intros _.
  apply (spec_bind _ _ (fun _ => session_inv (plain known))); [apply keep_dispatch|]. intros _.
  apply (spec_bind _ _ (fun _ => session_inv (plain known))); [apply keep_correlate|]. intros _.
  eapply spec_bind; [apply dispatch_all|]. intros _ s [Hp Hs]. specialize (Hp eq_refl). unfold tracking. cbn [fst snd].
  split; [by destruct s|]. apply (tracker_changes (plain known) _ s); try done.
  - apply finish_observation_inv, Hs.
  - intros id. apply (iv_tracked _ s Hs).
  - intros K HK. by apply finish_stable.
Qed.

Lemma new_session_inv e : J e -> session_inv (plain ∅) (new_session config e).
Proof.
  intros He. split; simpl; try done.
  - apply new_tracker_inv.
  - intros id. split; [intros (i & c & E & _); by rewrite lookup_empty in E|set_solver].
  - set_solver.
  - intros _. rewrite map_size_empty. apply Nat.le_0_l.
  - apply Nat.le_0_l.
  - apply Nat.le_0_l.
  - split; [constructor|]. intros key. set_solver.
Qed.

(** The state at the end of [run]. *)
Lemma run_inv fuel e :
  J e -> let s := (run config fuel (new_session config e)).2 in
  session_inv (plain ∅) s /\ ss_pending_completed s = ∅ /\
  or_connection_ids (run config fuel (new_session config e)).1.2 = ascending (ss_connection_ids s) /\
  or_counts (run config fuel (new_session config e)).1.2 = ss_counts s.
Proof.
  intros He. apply (spec_bind (session_inv (plain ∅)) (start config) (fun _ => session_inv (plain ∅)) _
    (fun r s => session_inv (plain ∅) s /\ ss_pending_completed s = ∅ /\
       or_connection_ids r.2 = ascending (ss_connection_ids s) /\ or_counts r.2 = ss_counts s));
    [apply keep_start| |by apply new_session_inv].
  intros deadline. eapply spec_bind; [apply keep_rounds|]. intros ended. eapply spec_bind; [apply finish_keeps|]. intros [] s [Hp Hs]. unfold bind, get, ret. simpl. auto.
Qed.
End Invariant.

(** ** The theorems *)

Section Theorems.
Context {S : Type} `{Hlaws : HistoryLaws S} `{Observers S} `{EvidenceStore S} `{Sha256} (config : SessionConfig S).

Lemma always_stable : stable config (fun _ => True).
Proof. split; [by split|done]. Qed.

(** C4: Every connection follows its life, whatever the observers report and after however many rounds the loop is
    left, as long as storage maintenance deletes no connection during the run (as when the database stays within
    its budget) and only the tracker writes the rows of connections: the log has no event that the automaton does not allow next, so that a connection is admitted once, its route
    is looked up at most once and only while it is active, it has at most one name, it is closed once, and a
    completion is reported only after it was closed or after new TLS evidence.  At the end no route waits; a
    connection is unknown, still tracked, or its completion was reported after the last TLS evidence (nobody
    being told only if there is no callback); and the result lists exactly the connections that were admitted. *)
Theorem session_follows_life fuel e :
  SessionLaws config -> maintenance_idle config ->
  let '((_, result), s) := run config fuel (new_session config e) in
  forall id, exists ph, follow id (ss_log s) = Some ph /\ ph_waiting ph = false /\ ph_stage ph <> Pending /\
    (ph_stage ph = Active <-> tracked (tk_connections (ss_tracker s)) id) /\
    (ph_stage ph <> Unknown <-> id ∈ or_connection_ids result) /\
    (cb_connection_completed (oc_callbacks config) <> None -> ph_stage ph <> Untold).
Proof.
  intros Hlw Hm. pose proof (outside_laws config Hlw Hm) as Hout. pose proof (run_inv config Hout _ always_stable fuel e I) as Hr. cbv zeta in Hr.
  destruct (run config fuel (new_session config e)) as [[ended result] s]. simpl in Hr. destruct Hr as (Hs & Hp & Hids & _).
  intros id. exists (phase_of (life_of s) id). pose proof (iv_life _ _ _ _ Hs) as Hl. split; [apply Hl|].
  pose proof (life_at _ _ id Hl) as Ha. 
  assert (Ht : tracked (tk_connections (ss_tracker s)) id <-> id ∈ es_active (ss_scheduler s)).
  { rewrite (iv_tracked _ _ _ _ Hs id). simpl. clear. set_solver. }
  assert (Hw : id ∉ dom (ss_route_requests s)) by (pose proof (iv_quiet _ _ _ _ Hs eq_refl); set_solver).
  assert (Hq : id ∉ dom (ss_pending_completed s)) by (rewrite Hp, dom_empty_L; set_solver).
  assert (Hsess : id ∈ or_connection_ids result <-> id ∈ ss_connection_ids s) by (rewrite Hids; apply ascending_in).
  assert (Hcb : cb_connection_completed (oc_callbacks config) <> None -> id ∈ ss_connection_ids s ->
    id ∈ es_active (ss_scheduler s) \/ id ∈ dom (ss_pending_completed s) \/ id ∈ ss_dispatched_completed s).
  { destruct Ha as (_ & _ & _ & _ & _ & Ha & _). intros Hcb. apply Ha. unfold told. by destruct (cb_connection_completed _). }
  destruct Ha as (Ha1 & _ & Ha3 & _). simpl in *. unfold phase_of. simpl. rewrite bool_decide_eq_false_2 by done. rewrite Ht, Hsess.
  clear - Ha1 Ha3 Hq Hcb. repeat case_decide; split_and!; try done; try (intros; tauto); split; intros; done || tauto.
Qed.

(** C38: What a session keeps is bounded, and what it counts is exact, after the start and any number of rounds, as
    long as storage maintenance deletes no connection during the run (as when the database stays within its
    budget) and only the tracker writes the rows of connections: it
    buffers at most 4096 lookups, 4096 TLS sessions and 4096 unadmitted sockets; no route request is left
    over; no TLS session was attached twice; and the counters are the numbers of admitted connections, of those
    with a name, and of attached TLS sessions. *)
Theorem session_bounded fuel e :
  SessionLaws config -> maintenance_idle config ->
  let '(_, s) := bind (start config) (rounds config fuel) (new_session config e) in
  (length (ss_names s) <= 4096)%nat /\ (length (ss_tls s) <= 4096)%nat /\ (size (ss_candidates s) <= 4096)%nat /\
  ss_route_requests s = ∅ /\ NoDup (tls_keys (ss_log s)) /\
  rc_admitted (ss_counts s) = size (ss_connection_ids s) /\
  rc_names_attached (ss_counts s) = size (ss_name_attached s) /\
  rc_tls_attached (ss_counts s) = length (tls_keys (ss_log s)).
Proof.
  intros Hlw Hm. pose proof (outside_laws config Hlw Hm) as Hout.
  assert (Hr : spec (session_inv config (fun _ => True) (plain ∅)) (bind (start config) (rounds config fuel))
    (fun _ => session_inv config (fun _ => True) (plain ∅))).
  { eapply spec_bind; [by apply keep_start, always_stable|]. intros deadline. by apply keep_rounds, always_stable. }
  specialize (Hr _ (new_session_inv config Hout _ always_stable e I)). destruct (bind _ _ _) as [ended s]. simpl in Hr.
  destruct (iv_counts _ _ _ _ Hr) as (Hc1 & Hc2 & Hc3). destruct (iv_keys _ _ _ _ Hr) as [Hnd Hk].
  split_and!; try done; try apply Hr; [done| |].
  - apply dom_empty_inv_L, set_eq. intros id. pose proof (iv_quiet _ _ _ _ Hr eq_refl). set_solver.
  - rewrite Hc3. replace (ss_tls_keys s) with (list_to_set (tls_keys (ss_log s)) : gset string).
    + by rewrite size_list_to_set.
    + apply set_eq. intros key. by rewrite elem_of_list_to_set.
Qed.

(** ** The end of the loop *)

(** A clock that does not go back; a sleep takes its time. *)
Record ClockLaws (time : S -> Z) : Prop := {
  cl_reads : forall e, time e <= (steady_now e).1 <= time (steady_now e).2;
  cl_outside : forall f e, outside config f -> time e <= time (f e);
  cl_history : forall t, history_stable (fun e => t <= time e);
  cl_sleeps : forall t e, time e + t * ns_per_ms <= time (sleep_for t e) }.

Section Time.
Context (Hout : OutsideLaws config) (time : S -> Z) (Hclock : ClockLaws time).
Context (Hpolling : lifecycle_events_active config = false).

Lemma time_stable t : stable config (fun e => t <= time e).
Proof. split; [apply Hclock|]. intros f e Hf He. pose proof (cl_outside time Hclock f e Hf). lia. Qed.

Definition from_time (t : Z) : Session S -> Prop := session_inv config (fun e => t <= time e) (plain ∅).

Lemma from_time_env t t' s : from_time t s -> t' <= time (ss_env s) -> from_time t' s.
Proof. intros [? ? ? ? ? ? ? ? ? ? ? ? ? ? ? ?] Ht. by split. Qed.

(** A round takes at least the polling interval. *)
Lemma iteration_takes t deadline :
  spec (from_time t) (iteration config deadline) (fun _ => from_time (t + oc_transport_poll_interval config * ns_per_ms)).
Proof.
  unfold iteration. rewrite Hpolling. simpl. pose proof (time_stable t) as HJ.
  eapply spec_bind; [by apply keep_ret|]. intros [].
  eapply spec_bind; [apply (keep_env config Hout _ HJ); constructor|]. intros now.
  eapply spec_bind; [apply keep_get|]. intros due.
  eapply spec_bind; [destruct due; [apply (sampled config Hout _ HJ)|apply keep_ret]|]. intros [].
  eapply spec_bind.
  { apply (keep_call config Hout _ HJ). destruct (oc_maintenance config) eqn:E; intros g [= <-]. by constructor. }
  intros []. eapply spec_bind; [apply (keep_call config Hout _ HJ); intros g; by constructor|]. intros [].
  intros s Hs. apply (from_time_env t).
  - by apply (keep_act config Hout _ HJ); [constructor|].
  - pose proof (iv_env _ _ _ _ Hs) as He. pose proof (cl_sleeps time Hclock (oc_transport_poll_interval config) (ss_env s)).
    unfold act, env. destruct s. simpl in *. lia.
Qed.

Lemma rounds_end n t deadline :
  deadline <= t + Z.of_nat n * (oc_transport_poll_interval config * ns_per_ms) ->
  spec (from_time t) (rounds config (Datatypes.S n) (Some deadline)) (fun ended _ => ended = true).
Proof.
  revert t. induction n as [|n IH]; intros t Hd;
    change (rounds config (Datatypes.S ?k) ?d) with (bind (goes_on d) (fun more => if negb more then ret true else
      bind (iteration config d) (fun _ => rounds config k d))).
  - intros s Hs. unfold bind at 1, goes_on. unfold bind at 1 2. unfold env at 1.
    pose proof (cl_reads time Hclock (ss_env s)) as Hc. pose proof (iv_env _ _ _ _ Hs) as He. simpl in He.
    destruct (steady_now (ss_env s)) as [now e]. simpl in *. replace (now <? deadline) with false by lia. done.
  - eapply spec_bind; [apply (keep_goes_on config Hout _ (time_stable t))|]. intros more. destruct (negb more); [by apply spec_ret|].
    eapply spec_bind; [apply iteration_takes|]. intros []. apply IH. lia.
Qed.
End Time.

(** C39: Without lifecycle events, a session with a duration ends by itself, if the clock does not go back, a sleep takes
    its time, storage maintenance deletes no connection during the run (as when the database stays within its
    budget) and only the tracker writes the rows of connections: the loop is left after at most one round for every polling interval in the duration, and one more
    look at the clock. *)
Theorem session_ends time duration fuel e :
  SessionLaws config -> maintenance_idle config -> ClockLaws time -> lifecycle_events_active config = false ->
  oc_duration config = Some duration ->
  duration * 1000 <= Z.of_nat fuel * oc_transport_poll_interval config ->
  (run config (Datatypes.S fuel) (new_session config e)).1.1 = true.
Proof.
  intros Hlw Hm Hclock Hpoll Hd Hf. pose proof (outside_laws config Hlw Hm) as Hout. unfold run.
  set (begun := fun deadline s => exists t, deadline = Some (t + duration * 1000000000) /\ from_time time t s).
  apply (spec_bind (from_time time (time e)) (start config) begun _ (fun r _ => r.1 = true));
    [| |apply (new_session_inv config Hout _ (time_stable time Hclock (time e))); lia].
  - unfold start, set_deadline. rewrite Hd. apply (spec_bind _ _ begun).
    + intros s Hs. unfold bind, ret.
      pose proof (keep_env config Hout _ (time_stable time Hclock (time e)) (plain ∅) steady_now (out_now config) s Hs) as Hs'.
      revert Hs'. unfold env. pose proof (cl_reads time Hclock (ss_env s)) as Hc. destruct (steady_now (ss_env s)) as [now e']. simpl in *.
      intros Hs'. exists now. split; [done|]. apply (from_time_env time (time e)); [done|]. destruct s. simpl. lia.
    + intros deadline s (t & -> & Hs). unfold bind.
      pose proof (keep_prepare config Hout _ (time_stable time Hclock t) ∅ s Hs) as Hs'. destruct (prepare config s) as [u s'].
      exists t. done.
  - intros deadline s (t & -> & Hs). unfold bind.
    pose proof (rounds_end Hout time Hclock Hpoll fuel t (t + duration * 1000000000) ltac:(unfold ns_per_ms; lia) s Hs) as He.
    destruct (rounds config _ _ s) as [ended s']. simpl in He. subst ended. by destruct (finish config s').
Qed.
End Theorems.

(** ** A session from a script *)

(** The database of [History] with something else beside it. *)
Section Beside.
Context {A B : Type} {ops : HistoryOps A}.

#[local] Instance beside_ops : HistoryOps (A * B) := {
  begin_connection := fun socket process host t direction e =>
    let '(id, a) := begin_connection socket process host t direction e.1 in (id, (a, e.2));
  touch_connection := fun id t state e => (touch_connection id t state e.1, e.2);
  update_socket_cookie := fun id cookie e => let '(changed, a) := update_socket_cookie id cookie e.1 in (changed, (a, e.2));
  promote_connection_direction := fun id direction e =>
    let '(changed, a) := promote_connection_direction id direction e.1 in (changed, (a, e.2));
  add_tcp_sample := fun id sample e => (add_tcp_sample id sample e.1, e.2);
  add_lifecycle_event := fun id event e => (add_lifecycle_event id event e.1, e.2);
  row_cookie := fun e => row_cookie e.1;
  row_state := fun e => row_state e.1;
  row_direction := fun e => row_direction e.1 }.

Lemma beside_laws : HistoryLaws ops -> HistoryLaws beside_ops.
Proof.
  intros Hl. split; simpl.
  - intros e. apply Hl.
  - intros socket process host t direction e. pose proof (begin_fresh socket process host t direction e.1) as H.
    by destruct (begin_connection _ _ _ _ _ e.1).
  - intros id t state e. apply (touch_row id t state e.1).
  - intros id cookie e. pose proof (cookie_once id cookie e.1) as H. by destruct (update_socket_cookie id cookie e.1).
  - intros id direction e. pose proof (direction_once id direction e.1) as H. by destruct (promote_connection_direction id direction e.1).
  - intros id sample e. apply (sample_frame id sample e.1).
  - intros id event e. apply (event_frame id event e.1).
Qed.

(** What holds of the other part is not touched by the database. *)
Lemma beside_stable (K : B -> Prop) : history_stable (fun e : A * B => K e.2).
Proof.
  split; simpl; try done; intros.
  - by destruct (begin_connection socket process host t direction e.1).
  - by destruct (update_socket_cookie id cookie e.1).
  - by destruct (promote_connection_direction id direction e.1).
Qed.
End Beside.

(** A clock that advances by a second with every look, and what the observers return, poll after poll; the
    caller asks to stop when there are no more events. *)
Record Script := MkScript {
  sp_now : Z; sp_events : list (list ConnectionLifecycleEvent); sp_tls : list (list TlsSessionObservation) }.

Section Script.
#[local] Existing Instance sum_digest.
#[local] Existing Instance beside_ops.
#[local] Abbreviation World := (TrackingDb * Script)%type.

Definition scripted_route (address : string) : RouteObservation :=
  MkRouteObservation address "10.0.0.1" "10.0.0.254" "eth0" 2 None None 5 "" RouteRelationUnknown.

Definition scripted_host : HostReads := MkHostReads (fun _ => "") (fun _ => None) 0 None None.

#[local] Instance event_ok_dec event : Decision (event_ok event).
Proof. unfold event_ok. destruct (le_socket_cookie event); apply _. Defined.

#[local] Instance scripted : Observers World := {
  steady_now := fun e => (sp_now e.2, (e.1, MkScript (sp_now e.2 + 1000000000) (sp_events e.2) (sp_tls e.2)));
  stop_requested := fun e => (bool_decide (length (sp_events e.2) = 0%nat), e);
  sleep_for := fun t e => (e.1, MkScript (sp_now e.2 + Z.max 0 t * ns_per_ms) (sp_events e.2) (sp_tls e.2));
  socket_snapshot := fun e => ([], e);
  lifecycle_dropped_events := fun _ => None;
  poll_lifecycle := fun _ e => (filter event_ok (default [] (head (sp_events e.2))), (e.1, MkScript (sp_now e.2) (tail (sp_events e.2)) (sp_tls e.2)));
  poll_names := fun e => ([], e);
  poll_tls := fun e => (default [] (head (sp_tls e.2)), (e.1, MkScript (sp_now e.2) (sp_events e.2) (tail (sp_tls e.2))));
  resolve_inode := fun _ _ => None;
  resolve_socket := fun _ _ => None;
  route_to := fun address e => (Some (scripted_route address), e);
  read_host := fun e => (scripted_host, e) }.

#[local] Instance scripted_store : EvidenceStore World := {
  read_connection := fun e id => connection id (MkHistoryDb (td_store e.1) ∅ [] [] [] ∅);
  store_name_evidence := fun _ _ e => e;
  store_tls_evidence := fun _ _ e => e;
  store_route := fun _ _ e => e;
  store_environment := fun _ _ e => e }.

Definition scripted_config (lifecycle : bool) (duration : option Z) : SessionConfig World :=
  MkSessionConfig (MkAdmissionPolicyConfig ModeAll (MkConnectionFilter None None ∅ ∅) ∅ 0) "host"
    (MkLifecycleCapability lifecycle lifecycle lifecycle) None (Some (MkTlsCapability true true)) None duration 1000
    (MkCallbacks None None None (Some (fun _ e => e))).

Lemma scripted_connection (e : World) id c : read_connection e id = Some c -> cs_id c = id.
Proof. simpl. unfold connection. intros (r & _ & ->)%fmap_Some. done. Qed.

Definition sample_tls : TlsSessionObservation :=
  MkTlsSessionObservation 1500 Client (MkProcessIdentity 7 0 (Some 42) "curl" "") None (Some 99)
    (MkTlsSessionEndpoint "10.0.0.1" 40000) (MkTlsSessionEndpoint "10.0.0.2" 443) "TLSv1.3" "" "" "" None None
    true true None true "" "" "" "" "" "" Exact "sample".

Definition sample_world : World := (sample_store, MkScript 0 [[sample_connect]; [sample_close]; []; []] [[]; []; []; []; []; []; [sample_tls]]).

Lemma scripted_laws lifecycle duration : SessionLaws (scripted_config lifecycle duration).
Proof.
  split.
  - intros f e id Hf. destruct Hf; simpl in *; simplify_eq; done.
  - intros e. constructor.
  - intros t e. simpl. apply Forall_forall. intros event [He _]%list_elem_of_filter. exact He.
  - apply scripted_connection.
Qed.

Lemma scripted_idle lifecycle duration : maintenance_idle (scripted_config lifecycle duration).
Proof. intros f now e id E. discriminate E. Qed.

Lemma scripted_clock lifecycle duration : ClockLaws (scripted_config lifecycle duration) (fun e => sp_now e.2).
Proof.
  split.
  - intros e. simpl. lia.
  - intros f e Hf. destruct Hf; simpl in *; simplify_eq; unfold ns_per_ms; lia.
  - intros t. apply (beside_stable (fun script => t <= sp_now script)).
  - intros t e. simpl. unfold ns_per_ms. lia.
Qed.

(** Evidence of a TLS session that arrives after a connection was reported has it reported again. *)
Example late_tls_reports_again :
  map event_id (ss_log (run (scripted_config true None) 10 (new_session (scripted_config true None) sample_world)).2) = [1; 1; 1; 1; 1; 1] /\
  match ss_log (run (scripted_config true None) 10 (new_session (scripted_config true None) sample_world)).2 with
  | [Entered _; Routed _; Closed _; Completed _; TlsAttached _ _; Completed _] => True
  | _ => False
  end.
Proof. vm_compute. split; [reflexivity|exact I]. Qed.

Lemma session_follows_life_witness :
  (SessionLaws (scripted_config true None) /\ maintenance_idle (scripted_config true None)) /\
  exists ph, follow 1 (ss_log (run (scripted_config true None) 10 (new_session (scripted_config true None) sample_world)).2) = Some ph /\
    ph_stage ph <> Pending.
Proof.
  split; [split; [exact (scripted_laws true None)|exact (scripted_idle true None)]|].
  pose proof (session_follows_life (Hlaws := beside_laws tracking_laws) (scripted_config true None) 10 sample_world (scripted_laws true None) (scripted_idle true None)) as Hr.
  destruct (run (scripted_config true None) 10 _) as [[ended result] s]. destruct (Hr 1) as (ph & Hf & _ & Hp & _).
  exists ph. split; [exact Hf|exact Hp].
Defined.

Lemma session_bounded_witness :
  (SessionLaws (scripted_config true None) /\ maintenance_idle (scripted_config true None)) /\
  NoDup (tls_keys (ss_log (bind (start (scripted_config true None)) (rounds (scripted_config true None) 10)
    (new_session (scripted_config true None) sample_world)).2)).
Proof.
  split; [split; [exact (scripted_laws true None)|exact (scripted_idle true None)]|].
  pose proof (session_bounded (Hlaws := beside_laws tracking_laws) (scripted_config true None) 10 sample_world (scripted_laws true None) (scripted_idle true None)) as Hr.
  destruct (bind _ _ _) as [ended s]. exact (proj1 (proj2 (proj2 (proj2 (proj2 Hr))))).
Defined.

Lemma session_ends_witness :
  (SessionLaws (scripted_config false (Some 3)) /\ maintenance_idle (scripted_config false (Some 3)) /\ ClockLaws (scripted_config false (Some 3)) (fun e => sp_now e.2) /\
   lifecycle_events_active (scripted_config false (Some 3)) = false /\ 3 * 1000 <= Z.of_nat 3 * 1000) /\
  (run (scripted_config false (Some 3)) 4 (new_session (scripted_config false (Some 3)) sample_world)).1.1 = true.
Proof.
  split; [split_and!; [exact (scripted_laws false (Some 3))|exact (scripted_idle false (Some 3))|exact (scripted_clock false (Some 3))|reflexivity|lia]|].
  apply (session_ends (Hlaws := beside_laws tracking_laws) (scripted_config false (Some 3)) (fun e => sp_now e.2) 3 3 sample_world
    (scripted_laws false (Some 3)) (scripted_idle false (Some 3)) (scripted_clock false (Some 3)) eq_refl eq_refl). simpl. lia.
Defined.
End Script.
