(* ===== verification/FindingStore.v ===== *)
(** The stored processes and process findings ([src/core/process_finding_store.cpp]), and how a stored finding is announced
    ([announcement] of [src/core/process_finding_runtime.cpp]).

    The tables are lists in the order of their rows.  A process is one row per [stable_process_key]; a finding is one row per
    rule, process and parent, which is counted when it is found again and goes back to [PENDING] only when its evidence changed.

    The theorems: the constraints of the tables are kept ([upsert_finding_ok], [put_instance_ok]); finding something again counts it,
    keeps when it was first seen, and reports it again exactly when the evidence is new ([finding_recurrence]); what is handed out for
    reporting is pending, due and at most [limit] ([pending_due]), and what was reported is not handed out again
    ([reported_not_pending]); the keys of processes with a durable identity do not collide ([stable_process_key_inj]). *)

From stdpp Require Import sorting.
From S2P Require Import Prelude Text StringMap Wire Crypto Model History NameResolution TlsSession Verdict HistoryEvidence HistoryRecords Rules ProcessGraph ProcessFindings.

#[local] Arguments String.append !_ _ /.

Definition stable_process_key (key : ProcessInstanceKey) : string :=
  match key_platform_key key with
  | Some platform => "native:" +:+ to_string platform +:+ ":pid:" +:+ to_string (key_pid key)
  | None =>
      match key_start_time_ns key with
      | Some start => "start-ns:" +:+ to_string start +:+ ":pid:" +:+ to_string (key_pid key)
      | None => "unstable:pid:" +:+ to_string (key_pid key)
      end
  end.

Definition optional_process_key (key : option ProcessInstanceKey) : string :=
  match key with Some key => stable_process_key key | None => "" end.

(** [NULL] for an empty text. *)
Definition bind_parent_key (key : string) : option string := if bool_decide (key = "") then None else Some (c_str key).

(** ** Tables *)

Record InstanceRow := MkInstanceRow {
  in_process_key : string; in_pid : Z; in_parent_key : option string; in_parent_pid : option Z; in_started_at_ns : Z; in_exited_at_ns : option Z;
  in_exit_code : option Z; in_uid : option Z; in_gid : option Z; in_session_id : option Z; in_user_identity : string; in_integrity_level : string;
  in_elevated : option bool; in_comm : string; in_executable_path : string; in_command_line : string; in_working_directory : string;
  in_updated_at_ns : Z }.

Record FindingRow := MkFindingRow {
  fr_finding_id : string; fr_finding_key : string; fr_rule_id : string; fr_ruleset_version : string; fr_severity : string; fr_process_key : string;
  fr_parent_key : option string; fr_pid : Z; fr_parent_pid : option Z; fr_process_image : string; fr_parent_image : string;
  fr_command_line : string; fr_summary : string; fr_interpretation : string; fr_evidence_root : string; fr_observed_at_ns : Z;
  fr_first_seen_ns : Z; fr_last_seen_ns : Z; fr_occurrence_count : Z; fr_report_state : string; fr_last_report_attempt_ns : option Z;
  fr_reported_at_ns : option Z }.

Record FindingTables := MkFindingTables { ft_instances : list InstanceRow; ft_findings : list FindingRow }.

(** ** Processes *)

Definition bind_process (node : ProcessNode) : InstanceRow :=
  MkInstanceRow (c_str (stable_process_key (pn_key node))) (key_pid (pn_key node)) (bind_parent_key (optional_process_key (pn_parent node)))
    (pn_parent_pid node) (wrap_s 64 (pn_started_at_ns node)) (wrap_s 64 <$> pn_exited_at_ns node) (pn_exit_code node) (pn_uid node) (pn_gid node)
    (pn_session_id node) (c_str (pn_user_identity node)) (c_str (pn_integrity_level node)) (pn_elevated node) (c_str (pn_comm node))
    (c_str (pn_executable_path node)) (c_str (pn_command_line node)) (c_str (pn_working_directory node))
    (wrap_s 64 (value_or (pn_exited_at_ns node) (pn_started_at_ns node))).

(** The conflict clause leaves the pid and the start of the row as they are. *)
Definition update_instance (old new : InstanceRow) : InstanceRow :=
  MkInstanceRow (in_process_key old) (in_pid old) (in_parent_key new) (in_parent_pid new) (in_started_at_ns old) (in_exited_at_ns new)
    (in_exit_code new) (in_uid new) (in_gid new) (in_session_id new) (in_user_identity new) (in_integrity_level new) (in_elevated new)
    (in_comm new) (in_executable_path new) (in_command_line new) (in_working_directory new) (in_updated_at_ns new).

(** What the statement does when it succeeds. *)
Definition put_instance (node : ProcessNode) (t : FindingTables) : FindingTables :=
  let row := bind_process node in
  let same r := bool_decide (in_process_key r = in_process_key row) in
  MkFindingTables (if existsb same (ft_instances t) then map (fun r => if same r then update_instance r row else r) (ft_instances t)
                   else ft_instances t ++ [row]) (ft_findings t).

(** [failed] is the error of a statement that could not be prepared or run, as when the disk is full or the database stays locked. *)
Definition upsert_instance (failed : option string) (node : ProcessNode) (t : FindingTables) : result FindingTables :=
  match failed with
  | Some message => Throw message
  | None => Ok (put_instance node t)
  end.

(** ** Findings *)

Definition finding_key_of (f : ProcessFinding) : string :=
  pf_rule_id f +:+ "|" +:+ stable_process_key (pf_process f) +:+ "|" +:+ optional_process_key (pf_parent f).

Section hashed.
Context `{Sha256}.

Definition finding_id_of (f : ProcessFinding) : string := "FINDING-PROC-" +:+ String.substring 0 24 (sha256_hex (finding_key_of f)).

Definition evidence_root_of (f : ProcessFinding) : string :=
  "sha256:" +:+ sha256_hex (pf_rule_id f +:+ "|" +:+ pf_ruleset_version f +:+ "|" +:+ stable_process_key (pf_process f) +:+ "|" +:+
    optional_process_key (pf_parent f) +:+ "|" +:+ pf_process_image f +:+ "|" +:+ pf_parent_image f +:+ "|" +:+ pf_command_line f +:+ "|" +:+
    to_string (pf_observed_at_ns f)).

Definition bind_finding (f : ProcessFinding) : FindingRow :=
  MkFindingRow (c_str (finding_id_of f)) (c_str (finding_key_of f)) (c_str (pf_rule_id f)) (c_str (pf_ruleset_version f))
    (severity_to_string (pf_severity f)) (c_str (stable_process_key (pf_process f))) (bind_parent_key (optional_process_key (pf_parent f)))
    (key_pid (pf_process f)) (key_pid <$> pf_parent f) (c_str (pf_process_image f)) (c_str (pf_parent_image f)) (c_str (pf_command_line f))
    (c_str (pf_summary f)) (c_str (pf_interpretation f)) (c_str (evidence_root_of f)) (wrap_s 64 (pf_observed_at_ns f))
    (wrap_s 64 (pf_observed_at_ns f)) (wrap_s 64 (pf_observed_at_ns f)) 1 "PENDING" None None.

Definition update_finding (old new : FindingRow) : FindingRow :=
  MkFindingRow (fr_finding_id old) (fr_finding_key old) (fr_rule_id old) (fr_ruleset_version old) (fr_severity new) (fr_process_key old)
    (fr_parent_key old) (fr_pid old) (fr_parent_pid old) (fr_process_image new) (fr_parent_image new) (fr_command_line new) (fr_summary new)
    (fr_interpretation new) (fr_evidence_root new) (fr_observed_at_ns new) (fr_first_seen_ns old) (fr_last_seen_ns new)
    (fr_occurrence_count old + 1) (if bool_decide (fr_evidence_root old = fr_evidence_root new) then fr_report_state old else "PENDING")
    (fr_last_report_attempt_ns old) (fr_reported_at_ns old).

(** The row that is inserted or updated and the tables; a shortened digest that another key has, or a process without a row, throws. *)
Definition upsert_finding (f : ProcessFinding) (t : FindingTables) : result (FindingRow * FindingTables) :=
  let row := bind_finding f in
  let same r := bool_decide (fr_finding_key r = fr_finding_key row) in
  match List.find same (ft_findings t) with
  | Some old => Ok (update_finding old row, MkFindingTables (ft_instances t) (map (fun r => if same r then update_finding r row else r) (ft_findings t)))
  | None =>
      if existsb (fun r => bool_decide (fr_finding_id r = fr_finding_id row)) (ft_findings t)
      then Throw "UNIQUE constraint failed: process_findings_ms5.finding_id"
      else if existsb (fun i => bool_decide (in_process_key i = fr_process_key row)) (ft_instances t)
      then Ok (row, MkFindingTables (ft_instances t) (ft_findings t ++ [row]))
      else Throw foreign_key_failed
  end.

(** The same when the statements themselves can fail: the insertion, or after it, when the row is stored already, reading it back. *)
Inductive finding_fault := InsertFails (message : string) | ReadBackFails (message : string).

Definition store_finding (failed : option finding_fault) (f : ProcessFinding) (t : FindingTables) : result FindingRow * FindingTables :=
  match failed, upsert_finding f t with
  | Some (InsertFails message), _ => (Throw message, t)
  | _, Throw message => (Throw message, t)
  | Some (ReadBackFails message), Ok (_, t) => (Throw message, t)
  | None, Ok (row, t) => (Ok row, t)
  end.
End hashed.

(** ** Reading and marking *)

Record StoredProcessFinding := MkStored {
  sf_finding_id : string; sf_finding_key : string; sf_rule_id : string; sf_ruleset_version : string; sf_severity : string; sf_process_key : string;
  sf_parent_key : string; sf_pid : Z; sf_parent_pid : option Z; sf_process_image : string; sf_parent_image : string; sf_command_line : string;
  sf_summary : string; sf_interpretation : string; sf_evidence_root : string; sf_observed_at_ns : Z; sf_first_seen_ns : Z; sf_last_seen_ns : Z;
  sf_occurrence_count : Z; sf_report_state : string }.

Definition finding_from_row (r : FindingRow) : StoredProcessFinding :=
  MkStored (fr_finding_id r) (fr_finding_key r) (fr_rule_id r) (fr_ruleset_version r) (fr_severity r) (fr_process_key r)
    (value_or (fr_parent_key r) "") (fr_pid r) (fr_parent_pid r) (fr_process_image r) (fr_parent_image r) (fr_command_line r) (fr_summary r)
    (fr_interpretation r) (fr_evidence_root r) (wrap_u 64 (fr_observed_at_ns r)) (wrap_u 64 (fr_first_seen_ns r)) (wrap_u 64 (fr_last_seen_ns r))
    (wrap_u 64 (fr_occurrence_count r)) (fr_report_state r).

(** [ORDER BY last_seen_ns DESC LIMIT ?] *)
Definition recent_findings (limit : Z) (t : FindingTables) : list StoredProcessFinding :=
  map finding_from_row (sql_limit (wrap_s 64 limit) (rev (order_by fr_last_seen_ns (ft_findings t)))).

(** [now_ns > retry_after_ns ? now_ns - retry_after_ns : 0] *)
Definition retry_cutoff (now_ns retry_after_ns : Z) : Z := if retry_after_ns <? now_ns then now_ns - retry_after_ns else 0.

Definition report_due (cutoff : Z) (r : FindingRow) : bool :=
  bool_decide (fr_report_state r = "PENDING") && (match fr_last_report_attempt_ns r with Some t => t <=? wrap_s 64 cutoff | None => true end).

Definition pending_for_report (limit now_ns retry_after_ns : Z) (t : FindingTables) : list StoredProcessFinding :=
  map finding_from_row (sql_limit (wrap_s 64 limit)
    (order_by fr_last_seen_ns (filter (fun r => report_due (retry_cutoff now_ns retry_after_ns) r = true) (ft_findings t)))).

Definition set_report (state : option string) (attempt : Z) (reported : option Z) (r : FindingRow) : FindingRow :=
  MkFindingRow (fr_finding_id r) (fr_finding_key r) (fr_rule_id r) (fr_ruleset_version r) (fr_severity r) (fr_process_key r) (fr_parent_key r)
    (fr_pid r) (fr_parent_pid r) (fr_process_image r) (fr_parent_image r) (fr_command_line r) (fr_summary r) (fr_interpretation r)
    (fr_evidence_root r) (fr_observed_at_ns r) (fr_first_seen_ns r) (fr_last_seen_ns r) (fr_occurrence_count r)
    (value_or state (fr_report_state r)) (Some attempt) (match reported with Some t => Some t | None => fr_reported_at_ns r end).

Definition mark (finding_id : string) (f : FindingRow -> FindingRow) (t : FindingTables) : FindingTables :=
  MkFindingTables (ft_instances t) (map (fun r => if bool_decide (fr_finding_id r = c_str finding_id) then f r else r) (ft_findings t)).

Definition mark_report_attempt (finding_id : string) (now_ns : Z) : FindingTables -> FindingTables :=
  mark finding_id (set_report None (wrap_s 64 now_ns) None).

Definition mark_reported (finding_id : string) (now_ns : Z) : FindingTables -> FindingTables :=
  mark finding_id (set_report (Some "REPORTED") (wrap_s 64 now_ns) (Some (wrap_s 64 now_ns))).

Definition mark_suppressed (finding_id : string) (now_ns : Z) : FindingTables -> FindingTables :=
  mark finding_id (set_report (Some "SUPPRESSED") (wrap_s 64 now_ns) None).

(** ** The keys of processes *)

Lemma number_before_colon a b x y : 0 <= a -> 0 <= b -> to_string a +:+ ":" +:+ x = to_string b +:+ ":" +:+ y -> a = b /\ x = y.
Proof.
  intros Ha Hb E. destruct (to_string_digits a Ha) as (D & _ & _). destruct (to_string_digits b Hb) as (D' & _ & _).
  assert (Et : to_string a = to_string b).
  { pose proof (f_equal (take_while isdigit) E) as Et. rewrite (take_while_all _ (to_string a)), (take_while_all _ (to_string b)) in Et by done.
    change (take_while isdigit (":" +:+ x)) with "" in Et. change (take_while isdigit (":" +:+ y)) with "" in Et. rewrite !string_app_nil_r in Et. exact Et. }
  split; [by apply to_string_inj|]. rewrite Et in E. clear D' Et. induction (to_string b) as [|c s IH]; simpl in E; injection E as E; [exact E|by apply IH].
Qed.

Definition key_in_range (k : ProcessInstanceKey) : Prop :=
  durable k = true /\ opt_ok (fun n => 0 <= n) (key_platform_key k) /\ opt_ok (fun n => 0 <= n) (key_start_time_ns k).

(** Two processes share a key only when the graph takes them for one: same pid, and same native key or, without one, same start. *)
Lemma stable_process_key_inj k k' : key_in_range k -> key_in_range k' -> stable_process_key k = stable_process_key k' ->
  key_pid k = key_pid k' /\ key_platform_key k = key_platform_key k' /\ (key_platform_key k = None -> key_start_time_ns k = key_start_time_ns k').
Proof.
  destruct k as [p s n], k' as [p' s' n']. unfold key_in_range, durable, stable_process_key. simpl.
  intros (D & Hn & Hs) (D' & Hn' & Hs').
  assert (Htail : forall a b, "pid:" +:+ to_string a = "pid:" +:+ to_string b -> a = b) by (intros a b E; simpl in E; apply to_string_inj; congruence).
  destruct n as [n|], n' as [n'|]; simpl in *.
  - intros E. assert (E' : to_string n +:+ ":" +:+ ("pid:" +:+ to_string p) = to_string n' +:+ ":" +:+ ("pid:" +:+ to_string p')) by (simpl; congruence).
    apply number_before_colon in E' as [-> E']; [|done..]. apply Htail in E'. by subst.
  - destruct s' as [s'|]; [discriminate|]. by rewrite andb_false_r in D'.
  - destruct s as [s|]; [discriminate|]. by rewrite andb_false_r in D.
  - destruct s as [s|]; [|by rewrite andb_false_r in D]. destruct s' as [s'|]; [|by rewrite andb_false_r in D'].
    intros E. assert (E' : to_string s +:+ ":" +:+ ("pid:" +:+ to_string p) = to_string s' +:+ ":" +:+ ("pid:" +:+ to_string p')) by (simpl; congruence).
    apply number_before_colon in E' as [-> E']; [|done..]. apply Htail in E'. by subst.
Qed.

(** ** The tables keep their constraints *)

Record findings_ok (t : FindingTables) : Prop := {
  fo_instances : NoDup (map in_process_key (ft_instances t));
  fo_keys : NoDup (map fr_finding_key (ft_findings t));
  fo_ids : NoDup (map fr_finding_id (ft_findings t));
  fo_process f : f ∈ ft_findings t -> fr_process_key f ∈ map in_process_key (ft_instances t) }.

Lemma map_if_same {A B} (f : A -> B) (p : A -> bool) (g : A -> A) l :
  (forall x, f (g x) = f x) -> map f (map (fun x => if p x then g x else x) l) = map f l.
Proof. intros Hg. rewrite map_map. apply map_ext. intros x. by destruct (p x). Qed.

Lemma exists_key {A} (f : A -> string) k (l : list A) : existsb (fun x => bool_decide (f x = k)) l = bool_decide (k ∈ map f l).
Proof.
  apply Bool.eq_iff_eq_true. rewrite existsb_exists, bool_decide_eq_true, map_fmap, list_elem_of_fmap. split.
  - intros (x & Hx & E%bool_decide_eq_true). exists x. split; [done|by apply list_elem_of_In].
  - intros (x & -> & Hx). exists x. split; [by apply list_elem_of_In|by apply bool_decide_eq_true].
Qed.

Lemma NoDup_snoc {A} (l : list A) x : NoDup l -> x ∉ l -> NoDup (l ++ [x]).
Proof.
  intros Hl Hx. apply NoDup_app. split_and!; [done| |apply NoDup_singleton]. intros y Hy E%list_elem_of_singleton. by subst y.
Qed.

Lemma put_instance_keys node t :
  map in_process_key (ft_instances (put_instance node t)) =
    (if bool_decide (c_str (stable_process_key (pn_key node)) ∈ map in_process_key (ft_instances t)) then map in_process_key (ft_instances t)
     else map in_process_key (ft_instances t) ++ [c_str (stable_process_key (pn_key node))]).
Proof.
  unfold put_instance. cbn [ft_instances]. rewrite exists_key. cbn [in_process_key bind_process]. case_bool_decide; [by apply map_if_same|].
  by rewrite map_app.
Qed.

Lemma put_instance_ok node t : findings_ok t ->
  findings_ok (put_instance node t) /\ c_str (stable_process_key (pn_key node)) ∈ map in_process_key (ft_instances (put_instance node t)) /\
  (forall k, k ∈ map in_process_key (ft_instances t) -> k ∈ map in_process_key (ft_instances (put_instance node t))).
Proof.
  intros [Hi Hk Hd Hp]. pose proof (put_instance_keys node t) as E.
  assert (Hsub : forall k, k ∈ map in_process_key (ft_instances t) -> k ∈ map in_process_key (ft_instances (put_instance node t)))
    by (intros k Hin; rewrite E; case_bool_decide; set_solver).
  split_and!; [|rewrite E; case_bool_decide; set_solver|done]. split; try done.
  - rewrite E. case_bool_decide; [done|by apply NoDup_snoc].
  - intros f Hf. by apply Hsub, Hp.
Qed.

Lemma upsert_finding_ok `{Sha256} f t row t' : findings_ok t -> upsert_finding f t = Ok (row, t') -> findings_ok t'.
Proof.
  intros [Hi Hk Hd Hp]. unfold upsert_finding. cbv zeta. destruct (List.find _ _) as [old|] eqn:Hf.
  - intros E. assert (t' = MkFindingTables (ft_instances t) (map (fun r => if bool_decide (fr_finding_key r = fr_finding_key (bind_finding f))
      then update_finding r (bind_finding f) else r) (ft_findings t))) as -> by congruence. clear E. split; cbn [ft_instances ft_findings]; [done| | |].
    + by rewrite map_if_same.
    + by rewrite map_if_same.
    + intros x Hx. rewrite map_fmap in Hx. apply list_elem_of_fmap in Hx as (y & -> & Hy). specialize (Hp _ Hy). by case_bool_decide.
  - rewrite !exists_key. case_bool_decide as Hid; [done|]. case_bool_decide as Hin; [|done]. intros E.
    assert (t' = MkFindingTables (ft_instances t) (ft_findings t ++ [bind_finding f])) as -> by congruence. clear E.
    split; cbn [ft_instances ft_findings]; [done| | |].
    + rewrite map_app. apply NoDup_snoc; [done|]. intros Hin'. rewrite map_fmap in Hin'. apply list_elem_of_fmap in Hin' as (x & E & Hx%list_elem_of_In).
      pose proof (List.find_none _ _ Hf _ Hx) as Hn. simpl in Hn. by apply bool_decide_eq_false in Hn.
    + rewrite map_app. by apply NoDup_snoc.
    + intros x [Hx|Hx%list_elem_of_singleton]%elem_of_app; [by apply Hp|by subst x].
Qed.

Lemma upsert_finding_instances `{Sha256} f t row t' : upsert_finding f t = Ok (row, t') -> ft_instances t' = ft_instances t.
Proof.
  unfold upsert_finding. repeat case_match; try done; intros E; by assert (t' = _) as -> by (apply (f_equal (fun x => match x with Ok y => y.2 | Throw _ => t' end)) in E; symmetry; exact E).
Qed.

(** Storing a finding, whichever statement fails: the tables stay well formed and the processes are as before. *)
Lemma store_finding_ok `{Sha256} failed f t : findings_ok t ->
  findings_ok (store_finding failed f t).2 /\ ft_instances (store_finding failed f t).2 = ft_instances t.
Proof.
  intros Hok. unfold store_finding. destruct (upsert_finding f t) as [[row t']|e] eqn:E; [|by destruct failed as [[]|]].
  pose proof (upsert_finding_ok _ _ _ _ Hok E). pose proof (upsert_finding_instances _ _ _ _ E). by destruct failed as [[]|].
Qed.

Lemma mark_ok id f t : (forall r, fr_finding_key (f r) = fr_finding_key r /\ fr_finding_id (f r) = fr_finding_id r /\ fr_process_key (f r) = fr_process_key r) ->
  findings_ok t -> findings_ok (mark id f t).
Proof.
  intros Hf [Hi Hk Hd Hp]. unfold mark. split; cbn [ft_instances ft_findings]; [done| | |].
  - rewrite map_if_same; [done|]. intros x. apply Hf.
  - rewrite map_if_same; [done|]. intros x. apply Hf.
  - intros x Hx. rewrite map_fmap in Hx. apply list_elem_of_fmap in Hx as (y & -> & Hy). specialize (Hp _ Hy). case_bool_decide; [|done].
    by rewrite (proj2 (proj2 (Hf y))).
Qed.

(** ** Finding something again *)

(** Storing a finding: it is stored with its evidence and the time it was seen; the first time it is pending and counted once; when it is
    found again it keeps its id and the time it was first seen, its count grows by one, and it is pending again exactly if it was, or if
    its evidence is new.  No other finding and no process changes. *)
Theorem finding_recurrence `{Sha256} f t row t' :
  findings_ok t -> upsert_finding f t = Ok (row, t') ->
  findings_ok t' /\ row ∈ ft_findings t' /\ fr_finding_key row = c_str (finding_key_of f) /\
  fr_evidence_root row = c_str (evidence_root_of f) /\ fr_last_seen_ns row = wrap_s 64 (pf_observed_at_ns f) /\
  ft_instances t' = ft_instances t /\
  (forall r, fr_finding_key r <> fr_finding_key row -> r ∈ ft_findings t' <-> r ∈ ft_findings t) /\
  ((fr_occurrence_count row = 1 /\ fr_first_seen_ns row = fr_last_seen_ns row /\ fr_report_state row = "PENDING" /\
    length (ft_findings t') = S (length (ft_findings t)) /\ forall r, r ∈ ft_findings t -> fr_finding_key r <> fr_finding_key row) \/
   exists old, old ∈ ft_findings t /\ fr_finding_key old = fr_finding_key row /\ fr_finding_id row = fr_finding_id old /\
     fr_occurrence_count row = fr_occurrence_count old + 1 /\ fr_first_seen_ns row = fr_first_seen_ns old /\
     length (ft_findings t') = length (ft_findings t) /\
     (fr_report_state row = "PENDING" <-> fr_report_state old = "PENDING" \/ fr_evidence_root old <> fr_evidence_root row) /\
     (fr_report_state row = fr_report_state old \/ fr_report_state row = "PENDING")).
Proof.
  intros Hok E. pose proof (upsert_finding_ok _ _ _ _ Hok E) as Hok'. split; [done|]. revert E. unfold upsert_finding. cbv zeta.
  set (new := bind_finding f). destruct (List.find _ _) as [old|] eqn:Hf.
  - apply List.find_some in Hf as [Hin Hk]. apply list_elem_of_In in Hin. apply bool_decide_eq_true in Hk. intros E.
    assert (row = update_finding old new) as -> by congruence.
    assert (t' = MkFindingTables (ft_instances t) (map (fun r => if bool_decide (fr_finding_key r = fr_finding_key new)
      then update_finding r new else r) (ft_findings t))) as -> by congruence. clear E. cbn [ft_instances ft_findings].
    assert (Hrow : update_finding old new ∈ map (fun r => if bool_decide (fr_finding_key r = fr_finding_key new) then update_finding r new else r) (ft_findings t)).
    { rewrite map_fmap, list_elem_of_fmap. exists old. split; [|done]. by rewrite bool_decide_true. }
    split_and!; try done.
    + intros r Hne. rewrite map_fmap, list_elem_of_fmap. cbn [fr_finding_key update_finding] in Hne. split.
      * intros (x & -> & Hx). case_bool_decide as Hd; [|done]. cbn [fr_finding_key update_finding] in Hne. congruence.
      * intros Hr. exists r. split; [|done]. rewrite bool_decide_false; [done|]. congruence.
    + right. exists old. cbn [fr_finding_key fr_finding_id fr_occurrence_count fr_first_seen_ns fr_report_state fr_evidence_root update_finding].
      split_and!; try done; [by rewrite map_fmap, length_fmap| |]; case_bool_decide; tauto.
  - rewrite !exists_key. case_bool_decide as Hid; [done|]. case_bool_decide as Hin; [|done]. intros E.
    assert (row = new) as -> by congruence.
    assert (t' = MkFindingTables (ft_instances t) (ft_findings t ++ [new])) as -> by congruence. clear E. cbn [ft_instances ft_findings].
    assert (Hne : forall r, r ∈ ft_findings t -> fr_finding_key r <> fr_finding_key new).
    { intros r Hr%list_elem_of_In Ek. pose proof (List.find_none _ _ Hf _ Hr) as Hn. simpl in Hn. by apply bool_decide_eq_false in Hn. }
    split_and!; try done; [set_solver| |].
    + intros r Hr. rewrite elem_of_app, list_elem_of_singleton. split; [|tauto]. intros [?| ->]; done.
    + left. split_and!; try done. rewrite length_app. simpl. lia.
Qed.

(** ** Reporting *)

Lemma sql_limit_length {A} n (l : list A) : 0 <= n -> Z.of_nat (length (sql_limit n l)) <= n.
Proof. intros Hn. unfold sql_limit. destruct (Z.ltb_spec n 0); [lia|]. rewrite length_take. lia. Qed.

(** What is handed out for reporting. *)
Lemma pending_due limit now retry t x : 0 <= limit < 2 ^ 63 -> x ∈ pending_for_report limit now retry t ->
  exists r, r ∈ ft_findings t /\ x = finding_from_row r /\ report_due (retry_cutoff now retry) r = true.
Proof.
  intros _. unfold pending_for_report. rewrite map_fmap. intros (r & -> & Hr)%list_elem_of_fmap.
  apply sql_limit_elem, order_by_elem, list_elem_of_filter in Hr as [? ?]. by exists r.
Qed.

Lemma marked_rows id f t r : r ∈ ft_findings (mark id f t) ->
  exists r0, r0 ∈ ft_findings t /\ r = if bool_decide (fr_finding_id r0 = c_str id) then f r0 else r0.
Proof. unfold mark. cbn [ft_findings]. rewrite map_fmap. intros (r0 & -> & Hr)%list_elem_of_fmap. eauto. Qed.

(** A finding that was attempted is not handed out before the retry time has passed; one that was reported or suppressed is not handed
    out until its evidence changes. *)
Lemma attempted_not_due id now later retry t r :
  in_s 64 now -> 0 <= now -> 0 <= later < 2 ^ 63 -> 0 <= retry -> later < now + retry -> 0 < now ->
  r ∈ ft_findings (mark_report_attempt id now t) -> fr_finding_id r = c_str id -> report_due (retry_cutoff later retry) r = false.
Proof.
  intros Hs Hn Hl Hr Hlt Hpos (r0 & Hr0 & ->)%marked_rows Hid. case_bool_decide as Hd; [|congruence].
  unfold report_due. cbn [fr_report_state fr_last_report_attempt_ns set_report]. apply andb_false_iff. right.
  rewrite wrap_s_id by (done || lia). apply Z.leb_gt. unfold retry_cutoff. destruct (Z.ltb_spec retry later).
  - rewrite wrap_s_id; [lia|lia|unfold in_s; lia].
  - rewrite wrap_s_id; [lia|lia|unfold in_s; lia].
Qed.

Lemma reported_not_pending id now t r :
  r ∈ ft_findings (mark_reported id now t) -> fr_finding_id r = c_str id -> forall cutoff, report_due cutoff r = false.
Proof.
  intros (r0 & Hr0 & ->)%marked_rows Hid cutoff. case_bool_decide as Hd; [|congruence]. unfold report_due. cbn [fr_report_state set_report value_or].
  by rewrite bool_decide_false.
Qed.

(** ** Witnesses *)

Definition shell_key : ProcessInstanceKey := MkKey 42 (Some 1000) None.
Definition shell_node : ProcessNode :=
  MkNode shell_key None None (Some 0) (Some 0) None "" "" None "sh" "/tmp/sh" "sh -c id" "/" 1000 None None.
Definition shell_finding (t : Z) : ProcessFinding :=
  MkFinding ExecFromTransientPath High "PROC-001" "1" t shell_key None "/tmp/sh" "" "sh -c id" "exec from /tmp" "".
Definition one_process : FindingTables := put_instance shell_node (MkFindingTables [] []).

Lemma one_process_ok : findings_ok one_process.
Proof.
  apply put_instance_ok. split; cbn [ft_instances ft_findings map]; try constructor. intros f Hf. by apply not_elem_of_nil in Hf.
Qed.

Lemma finding_recurrence_witness :
  exists row t, upsert_finding (H := sum_digest) (shell_finding 2000) one_process = Ok (row, t) /\ row ∈ ft_findings t /\ findings_ok t.
Proof.
  destruct (upsert_finding (H := sum_digest) (shell_finding 2000) one_process) as [[row t]|] eqn:E; [|vm_compute in E; discriminate E].
  destruct (finding_recurrence (H := sum_digest) (shell_finding 2000) one_process row t) as (Hok & Hin & _).
  - apply one_process_ok.
  - exact E.
  - exists row, t. split; [reflexivity|]. split; [exact Hin|exact Hok].
Defined.

(** Found three times, reported after the first: the second time the evidence is the same and it stays reported, the third it is new. *)
Example recurrence_states :
  let again f t := match upsert_finding (H := sum_digest) f t with Ok (_, t) => t | Throw _ => t end in
  let states t := map (fun r => (fr_report_state r, fr_occurrence_count r, fr_first_seen_ns r, fr_last_seen_ns r)) (ft_findings t) in
  let first := again (shell_finding 2000) one_process in
  let reported := mark_reported (finding_id_of (H := sum_digest) (shell_finding 2000)) 2500 first in
  states (again (shell_finding 2000) reported) = [("REPORTED", 2, 2000, 2000)] /\
  states (again (shell_finding 3000) (again (shell_finding 2000) reported)) = [("PENDING", 3, 2000, 3000)].
Proof. vm_compute. split; reflexivity. Qed.

(** When storing a process fails, a finding about it is refused until the process is stored again. *)
Example unstored_process :
  let empty := MkFindingTables [] [] in
  upsert_instance (Some "database is locked") shell_node empty = Throw "database is locked" /\
  (store_finding (H := sum_digest) None (shell_finding 2000) empty).1 = Throw foreign_key_failed.
Proof. vm_compute. split; reflexivity. Qed.
