(* ===== verification/HistoryPrune.v ===== *)
(** Keeping the history within its budget ([src/core/history_maintenance.cpp], [src/core/storage_maintenance.cpp]).

    [HistoryTables] are all the tables of the database file that are pruned.  Deleting a connection deletes
    what the schema says [ON DELETE CASCADE] of.  Every statement commits by itself and can fail or be the
    point where the process is killed: the programs run under the fault schedules of [Faults].  A query for a
    table that does not fail answers truly; tables that do not exist yet are empty.  The size of the files
    and the vacuum mode are oracles: [sizes i] is the [i]-th measurement of a run.  The loop has one unit of
    fuel per row that can be removed, and one more; it returns [None] when it runs out, which it never does.

    The theorems: a run ends, with nine tenths of the budget, or with what cannot be removed, or with an error,
    and leaves well-formed tables ([prune_bounded]); what is known of a connection that is kept is read as
    before, and so is the baseline in force for every target ([prune_keeps_evidence]); anomalous connections,
    and findings that were not reported, go only after what is less important ([prune_order]). *)

From stdpp Require Import sorting.
From S2P Require Import Prelude Text Wire Doubles Faults Crypto Model History NameResolution TlsSession Verdict HistoryEvidence HistoryRecords HistoryEnvironment FindingStore.
#[local] Open Scope io_scope.

(** ** The tables *)

Record HistoryTables := MkTables {
  ht_db : HistoryDb; ht_names : NameTables; ht_sessions : list (Z * TlsColumns); ht_env : EnvTables; ht_findings : FindingTables }.

Definition connections_of (t : HistoryTables) : gmap Z ConnectionRow := hs_connections (db_store (ht_db t)).

(** [DELETE FROM connections WHERE id IN ids] with its cascades. *)
Definition delete_connections (ids : list Z) (t : HistoryTables) : HistoryTables :=
  let d := ht_db t in
  let s := db_store d in
  let names := filter (fun r => nc_connection_id r.2 ∉ ids) (nt_evidence (ht_names t)) in
  let e := ht_env t in
  MkTables
    (MkHistoryDb
       (MkHistoryStore (hs_processes s) (filter (fun kv => kv.1 ∉ ids) (hs_connections s))
          (filter (fun r => lr_connection_id r ∉ ids) (hs_lifecycle_events s)) (filter (fun r => sr_connection_id r ∉ ids) (hs_transport_samples s))
          (filter (fun kv => kv.1 ∉ ids) (hs_tls_links s)) (hs_pending_tls s) (hs_capture_now_ns s))
       (filter (fun kv => kv.1 ∉ ids) (db_states d)) (filter (fun r => rt_connection_id r.2 ∉ ids) (db_routes d)) (db_tls d) (db_baselines d)
       (filter (fun kv => kv.1 ∉ ids) (db_verdicts d)))
    (MkNameTables names (filter (fun a => a.1.1 ∈ map fst names) (nt_addresses (ht_names t))))
    (filter (fun r => tc_connection_id r.2 ∉ ids) (ht_sessions t))
    (MkEnvTables (et_hosts e) (et_boots e) (et_environments e) (filter (fun kv => kv.1 ∉ ids) (et_links e)))
    (ht_findings t).

(** ** Rows nothing refers to *)

(** The statements, one by one. *)
Definition with_env (f : EnvTables -> EnvTables) (t : HistoryTables) : HistoryTables :=
  MkTables (ht_db t) (ht_names t) (ht_sessions t) (f (ht_env t)) (ht_findings t).

Definition prune_environments (e : EnvTables) : EnvTables :=
  let linked := map (fun kv => li_network_environment_id kv.2) (map_to_list (et_links e)) in
  MkEnvTables (et_hosts e) (et_boots e) (filter (fun r => r.1 ∈ linked) (et_environments e)) (et_links e).

Definition prune_boots (e : EnvTables) : EnvTables :=
  MkEnvTables (et_hosts e) (filter (fun r => r.1 ∈ map (fun n => en_host_boot_id n.2) (et_environments e)) (et_boots e)) (et_environments e) (et_links e).

Definition prune_hosts (e : EnvTables) : EnvTables :=
  MkEnvTables (filter (fun r => r.1 ∈ map (fun b => bo_host_identity_id b.2) (et_boots e)) (et_hosts e)) (et_boots e) (et_environments e) (et_links e).

(** The query changes nothing. *)
Definition table_exists : IO HistoryTables unit := io_step.

Definition prune_environment_orphans : IO HistoryTables unit :=
  let* _ := table_exists in
  let* _ := table_exists in
  let* _ := table_exists in
  let* _ := table_exists in
  let* _ := io_update (with_env prune_environments) in
  let* _ := io_update (with_env prune_boots) in
  io_update (with_env prune_hosts).

(** [exited_at_ns IS NOT NULL] and no finding is about the process. *)
Definition unreferenced (t : FindingTables) (p : InstanceRow) : Prop :=
  in_exited_at_ns p <> None /\ in_process_key p ∉ map fr_process_key (ft_findings t).
#[global] Instance unreferenced_dec t p : Decision (unreferenced t p).
Proof. unfold unreferenced. apply _. Defined.

Definition with_ft (f : FindingTables -> FindingTables) (t : HistoryTables) : HistoryTables :=
  MkTables (ht_db t) (ht_names t) (ht_sessions t) (ht_env t) (f (ht_findings t)).

Definition prune_instances (t : FindingTables) : FindingTables :=
  MkFindingTables (filter (fun p => ~ unreferenced t p) (ft_instances t)) (ft_findings t).

Definition prune_process_orphans : IO HistoryTables unit :=
  let* _ := table_exists in
  let* _ := table_exists in
  io_update (with_ft prune_instances).

Definition newer (a b : Z * Baseline) : Prop :=
  bl_target_host a.2 = bl_target_host b.2 /\ bl_target_port a.2 = bl_target_port b.2 /\
  (bl_created_ns b.2 < bl_created_ns a.2 \/ bl_created_ns a.2 = bl_created_ns b.2 /\ b.1 < a.1).
#[global] Instance newer_dec a b : Decision (newer a b).
Proof. unfold newer. apply _. Defined.

Definition tls_used (d : HistoryDb) : list Z :=
  omap (fun kv => vr_tls_observation_id kv.2) (map_to_list (db_verdicts d)) ++ map snd (map_to_list (hs_tls_links (db_store d))).

Definition baseline_needed (d : HistoryDb) (b : Z * Baseline) : Prop :=
  bl_sha256 b.2 ∈ map (fun kv => vr_baseline_hash kv.2) (map_to_list (db_verdicts d)) \/ ~ Exists (fun a => newer a b) (db_baselines d).
#[global] Instance baseline_needed_dec d b : Decision (baseline_needed d b).
Proof. unfold baseline_needed. apply _. Defined.

Definition with_db (f : HistoryDb -> HistoryDb) (t : HistoryTables) : HistoryTables :=
  MkTables (f (ht_db t)) (ht_names t) (ht_sessions t) (ht_env t) (ht_findings t).

Definition prune_processes (d : HistoryDb) : HistoryDb :=
  let s := db_store d in
  let used := omap (fun kv => cr_process_id kv.2) (map_to_list (hs_connections s)) in
  MkHistoryDb
    (MkHistoryStore (filter (fun p => pr_id p ∈ used) (hs_processes s)) (hs_connections s) (hs_lifecycle_events s) (hs_transport_samples s)
       (hs_tls_links s) (hs_pending_tls s) (hs_capture_now_ns s))
    (db_states d) (db_routes d) (db_tls d) (db_baselines d) (db_verdicts d).

Definition prune_tls (d : HistoryDb) : HistoryDb :=
  MkHistoryDb (db_store d) (db_states d) (db_routes d) (filter (fun r => r.1 ∈ tls_used d) (db_tls d)) (db_baselines d) (db_verdicts d).

Definition prune_baselines (d : HistoryDb) : HistoryDb :=
  MkHistoryDb (db_store d) (db_states d) (db_routes d) (db_tls d) (filter (baseline_needed d) (db_baselines d)) (db_verdicts d).

Definition prune_orphans : IO HistoryTables unit :=
  let* _ := io_update (with_db prune_processes) in
  let* _ := io_update (with_db prune_tls) in
  let* _ := io_update (with_db prune_baselines) in
  let* _ := prune_environment_orphans in
  prune_process_orphans.

(** ** One round *)

Definition anomalous (states : string * string) : bool :=
  bool_decide (states.1 ∈ ["DEGRADED"; "FAILED"]) || bool_decide (states.2 ∈ ["CHANGED"; "SUSPICIOUS"]).

Definition is_anomalous (t : HistoryTables) (id : Z) : bool := anomalous (states_of (ht_db t) id).

(** [ORDER BY COALESCE(captured_at_ns,first_seen_ns) ASC,id ASC LIMIT n] *)
Definition oldest_connections (n : nat) (wanted : bool) (t : HistoryTables) : list Z :=
  map fst (take n (merge_sort (row_before cr_captured_at_ns) (filter (fun kv => is_anomalous t kv.1 = wanted) (map_to_list (connections_of t))))).

Definition text_before {A} (time : A -> Z) (name : A -> string) (a b : A) : Prop := time a < time b \/ time a = time b /\ String.le (name a) (name b).
#[global] Instance text_before_dec {A} (time : A -> Z) (name : A -> string) : RelDecision (text_before time name).
Proof. intros a b. unfold text_before. apply _. Defined.

Definition delete_findings (ids : list string) (t : FindingTables) : FindingTables :=
  MkFindingTables (ft_instances t) (filter (fun f => fr_finding_id f ∉ ids) (ft_findings t)).

Definition is_reported (f : FindingRow) : bool := bool_decide (fr_report_state f = "REPORTED").

(** The order of the last resort: reported findings first. *)
Definition last_resort_before (a b : FindingRow) : Prop :=
  is_reported a = true /\ is_reported b = false \/ is_reported a = is_reported b /\ text_before fr_last_seen_ns fr_finding_id a b.
#[global] Instance last_resort_before_dec : RelDecision last_resort_before.
Proof. intros a b. unfold last_resort_before. apply _. Defined.

(** What [sqlite3_changes] counts is the length of the list of ids, which are keys of the rows that are selected. *)
Definition old_process_findings (reported_only : bool) (t : FindingTables) : list string :=
  map fr_finding_id
    (if reported_only then take 8 (merge_sort (text_before fr_last_seen_ns fr_finding_id) (filter (fun f => is_reported f = true) (ft_findings t)))
     else take 1 (merge_sort last_resort_before (ft_findings t))).

Definition delete_old_findings (reported_only : bool) (t : HistoryTables) : nat * HistoryTables :=
  let ids := old_process_findings reported_only (ht_findings t) in
  (length ids, with_ft (delete_findings ids) t).

Definition prune_old_process_findings (reported_only : bool) : IO HistoryTables nat :=
  let* _ := table_exists in
  io_change (delete_old_findings reported_only).

Definition unreferenced_batch (t : FindingTables) : list string :=
  map in_process_key (take 128 (merge_sort (text_before in_updated_at_ns in_process_key) (filter (unreferenced t) (ft_instances t)))).

Definition delete_instances (keys : list string) (t : FindingTables) : FindingTables :=
  MkFindingTables (filter (fun p => in_process_key p ∉ keys) (ft_instances t)) (ft_findings t).

Definition delete_batch (t : HistoryTables) : nat * HistoryTables :=
  let keys := unreferenced_batch (ht_findings t) in
  (length keys, with_ft (delete_instances keys) t).

Definition prune_unreferenced_process_batch : IO HistoryTables nat :=
  let* _ := table_exists in
  let* _ := table_exists in
  io_change delete_batch.

Definition delete_oldest (n : nat) (wanted : bool) (t : HistoryTables) : nat * HistoryTables :=
  let ids := oldest_connections n wanted t in
  (length ids, delete_connections ids t).

(** [if (removed == 0) removed = next();] *)
Definition or_else (removed : nat) (next : IO HistoryTables nat) : IO HistoryTables nat :=
  match removed with
  | O => next
  | _ => ret removed
  end.

Definition prune_round : IO HistoryTables nat :=
  let* removed := io_change (delete_oldest 64 false) in
  let* removed := or_else removed prune_unreferenced_process_batch in
  let* removed := or_else removed (prune_old_process_findings true) in
  let* removed := or_else removed (io_change (delete_oldest 8 true)) in
  or_else removed (prune_old_process_findings false).

(** ** The loop *)

Definition removable (t : HistoryTables) : nat :=
  size (connections_of t) + length (ft_instances (ht_findings t)) + length (ft_findings (ht_findings t)).

Section budget.
Context (sizes auto_vacuum_mode : nat -> Z).

(** The statements of [compact_and_measure]; the measurement that follows is the [i]-th. *)
Definition compact (i : nat) : IO HistoryTables unit :=
  let* _ := prune_orphans in
  let* _ := io_step in
  let* _ := if auto_vacuum_mode i =? 2 then io_step else let* _ := io_step in io_step in
  io_step.

(** [bytes] is [sizes i], the last measurement; returned is the last one of the loop. *)
Fixpoint prune_loop (fuel : nat) (target : Z) (i : nat) : IO HistoryTables (option nat) :=
  if sizes i <=? target then ret (Some i)
  else match fuel with
  | O => ret None
  | S fuel =>
      let* removed := prune_round in
      match removed with
      | O => ret (Some i)
      | S _ => let* _ := compact (S i) in prune_loop fuel target (S i)
      end
  end.

Definition cap_unmet : string := "SQLite history cannot satisfy configured storage cap".

Definition prune_to_budget (max_bytes : Z) : IO HistoryTables (option unit) :=
  if max_bytes =? 0 then ret (Some tt)
  else if sizes 0%nat <=? max_bytes then ret (Some tt)
  else
    let target := max_bytes - max_bytes / 10 in
    let* _ := io_step in
    if sizes 1%nat <=? target then ret (Some tt)
    else
      let* _ := compact 2 in
      let* last := fun fs t => prune_loop (S (removable t)) target 2 fs t in
      match last with
      | Some i => if max_bytes <? sizes i then raise cap_unmet else ret (Some tt)
      | None => ret None
      end.

(** ** When it runs *)

Record StorageMaintenance := MkMaintenance { sm_max_bytes : Z; sm_interval : Z; sm_next_run : Z }.

Definition storage_maintenance (max_bytes interval : Z) : StorageMaintenance := MkMaintenance max_bytes interval (- 2 ^ 63).

(** The maintenance after a run that returns; one that throws leaves it as it is. *)
Definition run_now (clock : Z) (m : StorageMaintenance) : IO HistoryTables (option StorageMaintenance) :=
  let* r := prune_to_budget (sm_max_bytes m) in
  ret ((fun _ => MkMaintenance (sm_max_bytes m) (sm_interval m) (clock + sm_interval m)) <$> r).

Definition run_if_due (now : Z) (m : StorageMaintenance) : IO HistoryTables (option (bool * StorageMaintenance)) :=
  if now <? sm_next_run m then ret (Some (false, m))
  else
    let* r := prune_to_budget (sm_max_bytes m) in
    ret ((fun _ => (true, MkMaintenance (sm_max_bytes m) (sm_interval m) (now + sm_interval m))) <$> r).
End budget.

Record StorageStatus := MkStatus { ss_bytes : Z; ss_max_bytes : Z; ss_connection_count : Z; ss_sample_count : Z }.

Definition status (bytes max_bytes : Z) (t : HistoryTables) : StorageStatus :=
  MkStatus bytes max_bytes (Z.of_nat (size (connections_of t))) (Z.of_nat (length (hs_transport_samples (db_store (ht_db t))))).

(** ** What the tables keep true *)

Record history_ok (t : HistoryTables) : Prop := {
  hk_db : db_ok (ht_db t);
  hk_names : tables_ok (ht_names t);
  hk_name_connections r : r ∈ nt_evidence (ht_names t) -> nc_connection_id r.2 ∈ dom (connections_of t);
  hk_sessions : rows_ok tls_key (ht_sessions t);
  hk_session_connections r : r ∈ ht_sessions t -> tc_connection_id r.2 ∈ dom (connections_of t);
  hk_env : env_ok (ht_env t);
  hk_links : dom (et_links (ht_env t)) ⊆ dom (connections_of t);
  hk_findings : findings_ok (ht_findings t);
  hk_hashes c v : db_verdicts (ht_db t) !! c = Some v -> text_ok (vr_baseline_hash v) }.

Lemma rows_ok_sublist {A K} (key : A -> K) rows rows' : rows' `sublist_of` rows -> rows_ok key rows -> rows_ok key rows'.
Proof. intros Hs [H1 H2]. split; (eapply sublist_NoDup; [eassumption|by apply (fmap_sublist _)]). Qed.

Lemma dom_filter_ids {A} (m : gmap Z A) (ids : list Z) : dom (filter (fun kv => kv.1 ∉ ids) m) = filter (fun k => k ∉ ids) (dom m).
Proof.
  apply set_eq. intros k. rewrite elem_of_filter, !elem_of_dom. unfold is_Some. setoid_rewrite map_lookup_filter_Some. simpl. naive_solver.
Qed.

Lemma lookup_filter_ids {A} (m : gmap Z A) (ids : list Z) k : k ∉ ids -> filter (fun kv => kv.1 ∉ ids) m !! k = m !! k.
Proof. intros Hk. destruct (m !! k) as [x|] eqn:E; [by apply map_lookup_filter_Some|by apply map_lookup_filter_None_2; left]. Qed.

Lemma row_by_id_is_some {A} i (rows : list (Z * A)) : is_Some (row_by_id i rows) <-> i ∈ map fst rows.
Proof.
  split.
  - intros [x Hx%row_by_id_some]. rewrite map_fmap. change i with (i, x).1. by apply list_elem_of_fmap_2.
  - intros (r & -> & Hr)%list_elem_of_fmap. unfold row_by_id. destruct (List.find _ rows) as [x|] eqn:Hf; [eauto|].
    pose proof (List.find_none _ _ Hf r (proj1 (list_elem_of_In _ _) Hr)) as Hn. cbv beta in Hn. by rewrite Z.eqb_refl in Hn.
Qed.

Lemma delete_connections_ok ids t : history_ok t -> history_ok (delete_connections ids t).
Proof.
  intros [[S1 S2 S3 S4 S5 S6 S7 S8 S9 S10] (N1 & N2 & N3) Hnc Hse Hsc [E1 E2 E3 E4 E5 E6] Hli Hfi Hha].
  split; [|split_and!| | | | | |done|]; unfold connections_of, delete_connections in *;
    cbn [ht_db ht_names ht_sessions ht_env db_store hs_connections nt_evidence nt_addresses et_links db_verdicts] in *; rewrite ?dom_filter_ids.
  - split; cbn [db_states db_store hs_connections db_verdicts db_tls hs_tls_links hs_transport_samples hs_lifecycle_events db_routes db_baselines hs_processes].
    + by rewrite !dom_filter_ids, S1.
    + intros id v [Hv Hid]%map_lookup_filter_Some. rewrite dom_filter_ids, elem_of_filter. destruct (S2 id v Hv). auto.
    + intros id k [Hk Hid]%map_lookup_filter_Some. rewrite dom_filter_ids, elem_of_filter. destruct (S3 id k Hk). auto.
    + intros r [Hi Hr]%list_elem_of_filter. rewrite dom_filter_ids, elem_of_filter. auto.
    + intros r [Hi Hr]%list_elem_of_filter. rewrite dom_filter_ids, elem_of_filter. auto.
    + eapply rows_ok_sublist; [apply sublist_filter|done].
    + intros r [Hi Hr]%list_elem_of_filter. rewrite dom_filter_ids, elem_of_filter. auto.
    + done.
    + done.
    + intros id c p [Hc _]%map_lookup_filter_Some. by apply S10 with id.
  - eapply rows_ok_sublist; [apply sublist_filter|done].
  - by apply NoDup_filter.
  - intros a [Ha _]%list_elem_of_filter. exact Ha.
  - intros r [Hi Hr]%list_elem_of_filter. rewrite elem_of_filter. auto.
  - eapply rows_ok_sublist; [apply sublist_filter|done].
  - intros r [Hi Hr]%list_elem_of_filter. rewrite elem_of_filter. auto.
  - split; try done. cbn [et_links et_environments]. intros c l [Hl _]%map_lookup_filter_Some. by apply E6 with c.
  - set_solver.
  - intros c v [Hv _]%map_lookup_filter_Some. by apply Hha with c.
Qed.

(** The rows that others refer to stay. *)
Lemma kept_row {A} (rows : list (Z * A)) (used : list Z) i : i ∈ used -> i ∈ map fst rows -> i ∈ map fst (filter (fun r => r.1 ∈ used) rows).
Proof.
  rewrite !map_fmap, !list_elem_of_fmap. intros Hu (r & -> & Hr). exists r. split; [done|]. by apply list_elem_of_filter.
Qed.

Lemma prune_environments_ok e : env_ok e -> env_ok (prune_environments e).
Proof.
  intros [E1 E2 E3 E4 E5 E6]. split; cbn [prune_environments et_hosts et_boots et_environments et_links]; try done.
  - eapply rows_ok_sublist; [apply sublist_filter|done].
  - intros n [_ Hn]%list_elem_of_filter. by apply E5.
  - intros c l Hl. apply row_by_id_is_some, kept_row; [|by eapply row_by_id_is_some, E6].
    rewrite map_fmap. apply (list_elem_of_fmap_2' _ _ (c, l)); [by apply elem_of_map_to_list|done].
Qed.

Lemma prune_boots_ok e : env_ok e -> env_ok (prune_boots e).
Proof.
  intros [E1 E2 E3 E4 E5 E6]. split; cbn [prune_boots et_hosts et_boots et_environments et_links]; try done.
  - eapply rows_ok_sublist; [apply sublist_filter|done].
  - intros b [_ Hb]%list_elem_of_filter. by apply E4.
  - intros n Hn. apply row_by_id_is_some, kept_row; [rewrite map_fmap; by apply (list_elem_of_fmap_2 (fun n : Z * EnvironmentRow => en_host_boot_id n.2))|].
    by apply row_by_id_is_some, E5.
Qed.

Lemma prune_hosts_ok e : env_ok e -> env_ok (prune_hosts e).
Proof.
  intros [E1 E2 E3 E4 E5 E6]. split; cbn [prune_hosts et_hosts et_boots et_environments et_links]; try done.
  - eapply rows_ok_sublist; [apply sublist_filter|done].
  - intros b Hb. apply row_by_id_is_some, kept_row; [rewrite map_fmap; by apply (list_elem_of_fmap_2 (fun b : Z * BootRow => bo_host_identity_id b.2))|].
    by apply row_by_id_is_some, E4.
Qed.

Lemma with_env_ok f t : history_ok t -> env_ok (f (ht_env t)) -> et_links (f (ht_env t)) = et_links (ht_env t) -> history_ok (with_env f t).
Proof. intros [] Hf El. split; try done. cbn [with_env ht_env]. by rewrite El. Qed.

Lemma with_ft_ok f t : history_ok t -> findings_ok (f (ht_findings t)) -> history_ok (with_ft f t).
Proof. intros [] Hf. by split. Qed.

Lemma with_db_ok f t :
  history_ok t -> db_ok (f (ht_db t)) -> hs_connections (db_store (f (ht_db t))) = hs_connections (db_store (ht_db t)) ->
  db_verdicts (f (ht_db t)) = db_verdicts (ht_db t) -> history_ok (with_db f t).
Proof. intros [] Hf Ec Ev. split; try done; unfold connections_of; cbn [with_db ht_db]; rewrite ?Ec, ?Ev; done. Qed.

Lemma findings_ok_sublist t instances findings :
  findings_ok t -> instances `sublist_of` ft_instances t -> findings `sublist_of` ft_findings t ->
  (forall p, p ∈ ft_instances t -> p ∈ instances \/ in_process_key p ∉ map fr_process_key findings) -> findings_ok (MkFindingTables instances findings).
Proof.
  intros [F1 F2 F3 F4] Hi Hf Hkeep. split; cbn [ft_instances ft_findings].
  - eapply sublist_NoDup; [exact F1|by apply (fmap_sublist _)].
  - eapply sublist_NoDup; [exact F2|by apply (fmap_sublist _)].
  - eapply sublist_NoDup; [exact F3|by apply (fmap_sublist _)].
  - intros f Hfin. specialize (F4 f ltac:(by eapply elem_of_sublist)). rewrite map_fmap in F4 |- *. apply list_elem_of_fmap in F4 as (p & E & Hp).
    rewrite E. apply list_elem_of_fmap_2. destruct (Hkeep p Hp) as [|Hni]; [done|]. destruct Hni.
    rewrite map_fmap, <- E. by apply list_elem_of_fmap_2.
Qed.

Lemma in_filter_not {A} (P : A -> Prop) `{!forall x, Decision (P x)} (l : list A) x : x ∈ l -> x ∈ filter (fun y => ~ P y) l \/ P x.
Proof. intros Hx. destruct (decide (P x)); [by right|left]. by apply list_elem_of_filter. Qed.

Lemma prune_instances_ok t : findings_ok t -> findings_ok (prune_instances t).
Proof.
  intros Hok. apply (findings_ok_sublist t); [done|apply sublist_filter|done|]. intros p Hp.
  destruct (in_filter_not (unreferenced t) _ p Hp) as [|[_ ?]]; auto.
Qed.

Lemma delete_findings_ok ids t : findings_ok t -> findings_ok (delete_findings ids t).
Proof. intros Hok. apply (findings_ok_sublist t); [done|done|apply sublist_filter|auto]. Qed.

Lemma batch_unreferenced t key : key ∈ unreferenced_batch t -> exists p, p ∈ ft_instances t /\ in_process_key p = key /\ unreferenced t p.
Proof.
  unfold unreferenced_batch. rewrite map_fmap. intros (p & -> & Hp)%list_elem_of_fmap. exists p.
  assert (p ∈ filter (unreferenced t) (ft_instances t)) as [? ?]%list_elem_of_filter; [|done].
  rewrite <- (merge_sort_Permutation (text_before in_updated_at_ns in_process_key)). eapply elem_of_sublist; [exact Hp|apply sublist_take].
Qed.

Lemma delete_instances_ok t : findings_ok t -> findings_ok (delete_instances (unreferenced_batch t) t).
Proof.
  intros Hok. apply (findings_ok_sublist t); [done|apply sublist_filter|done|]. intros p Hp.
  destruct (in_filter_not (fun p => in_process_key p ∈ unreferenced_batch t) _ p Hp) as [|Hb]; [by left|right].
  apply batch_unreferenced in Hb as (q & _ & <- & _ & ?). done.
Qed.

Lemma prune_processes_ok d : db_ok d -> db_ok (prune_processes d).
Proof.
  intros [S1 S2 S3 S4 S5 S6 S7 S8 S9 S10]. split; try done. cbn [prune_processes db_store hs_connections hs_processes].
  intros id c p Hc Hp. specialize (S10 id c p Hc Hp). rewrite map_fmap in S10 |- *. apply list_elem_of_fmap in S10 as (q & -> & Hq).
  apply list_elem_of_fmap_2, list_elem_of_filter. split; [|done]. apply list_elem_of_omap. exists (id, c). split; [by apply elem_of_map_to_list|done].
Qed.

Lemma prune_tls_ok d : db_ok d -> db_ok (prune_tls d).
Proof.
  intros [S1 S2 S3 S4 S5 S6 S7 S8 S9 S10]. split; cbn [prune_tls db_store db_states db_routes db_tls db_baselines db_verdicts]; try done.
  - intros id v Hv. destruct (S2 id v Hv) as [H1 H2]. split; [done|]. intros k Hk. apply kept_row; [|by apply H2].
    apply elem_of_app. left. apply list_elem_of_omap. exists (id, v). split; [by apply elem_of_map_to_list|done].
  - intros id k Hk. destruct (S3 id k Hk) as [H1 H2]. split; [done|]. apply kept_row; [|done]. apply elem_of_app. right.
    rewrite map_fmap. apply (list_elem_of_fmap_2' _ _ (id, k)); [by apply elem_of_map_to_list|done].
  - eapply sublist_NoDup; [exact S8|]. apply (fmap_sublist _), sublist_filter.
Qed.

Lemma prune_baselines_ok d : db_ok d -> db_ok (prune_baselines d).
Proof. intros [S1 S2 S3 S4 S5 S6 S7 S8 S9 S10]. split; try done. eapply rows_ok_sublist; [apply sublist_filter|done]. Qed.

(** ** What pruning keeps *)

(** What is stored of a connection itself. *)
Definition own_rows (c : Z) (t : HistoryTables) :=
  let d := ht_db t in
  let names := filter (fun r => nc_connection_id r.2 = c) (nt_evidence (ht_names t)) in
  (hs_connections (db_store d) !! c, db_states d !! c, db_verdicts d !! c, hs_tls_links (db_store d) !! c, et_links (ht_env t) !! c,
   filter (fun r => sr_connection_id r = c) (hs_transport_samples (db_store d)), filter (fun r => lr_connection_id r = c) (hs_lifecycle_events (db_store d)),
   filter (fun r => rt_connection_id r.2 = c) (db_routes d), names, filter (fun a => a.1.1 ∈ map fst names) (nt_addresses (ht_names t)),
   filter (fun r => tc_connection_id r.2 = c) (ht_sessions t)).

Record prunes (t t' : HistoryTables) : Prop := {
  pu_connections : connections_of t' ⊆ connections_of t;
  pu_own c : c ∈ dom (connections_of t') -> own_rows c t' = own_rows c t;
  pu_processes : hs_processes (db_store (ht_db t')) `sublist_of` hs_processes (db_store (ht_db t));
  pu_process c r p : connections_of t' !! c = Some r -> cr_process_id r = Some p ->
    filter (fun q => pr_id q = p) (hs_processes (db_store (ht_db t'))) = filter (fun q => pr_id q = p) (hs_processes (db_store (ht_db t)));
  pu_tls : db_tls (ht_db t') `sublist_of` db_tls (ht_db t);
  pu_baselines : db_baselines (ht_db t') `sublist_of` db_baselines (ht_db t);
  pu_hosts : et_hosts (ht_env t') `sublist_of` et_hosts (ht_env t);
  pu_boots : et_boots (ht_env t') `sublist_of` et_boots (ht_env t);
  pu_environments : et_environments (ht_env t') `sublist_of` et_environments (ht_env t);
  pu_instances : ft_instances (ht_findings t') `sublist_of` ft_instances (ht_findings t);
  pu_findings : ft_findings (ht_findings t') `sublist_of` ft_findings (ht_findings t);
  pu_verdicts : db_verdicts (ht_db t') ⊆ db_verdicts (ht_db t);
  pu_needed b : b ∈ db_baselines (ht_db t) ->
    (exists c v, db_verdicts (ht_db t') !! c = Some v /\ vr_baseline_hash v = bl_sha256 b.2) \/ (forall a, a ∈ db_baselines (ht_db t) -> ~ newer a b) ->
    b ∈ db_baselines (ht_db t');
  pu_running p : p ∈ ft_instances (ht_findings t) -> in_exited_at_ns p = None -> p ∈ ft_instances (ht_findings t');
  pu_pending : hs_pending_tls (db_store (ht_db t')) = hs_pending_tls (db_store (ht_db t)) }.

Lemma prunes_refl t : prunes t t.
Proof. by split. Qed.

Lemma prunes_trans t u v : prunes t u -> prunes u v -> prunes t v.
Proof.
  intros P Q. split; try solve [etrans; [apply Q|apply P]].
  - intros c Hc. rewrite (pu_own _ _ Q c Hc). apply (pu_own _ _ P). eapply subseteq_dom; [apply (pu_connections _ _ Q)|done].
  - intros c r p Hc Hp. etrans; [by eapply (pu_process _ _ Q)|]. eapply (pu_process _ _ P); [eapply lookup_weaken; [exact Hc|apply Q]|done].
  - intros b Hb Hor. assert (Hbu : b ∈ db_baselines (ht_db u)).
    { apply (pu_needed _ _ P b Hb). destruct Hor as [(c & w & Hw & E)|Hnew]; [left|by right]. exists c, w. split; [|done].
      eapply lookup_weaken; [exact Hw|apply (pu_verdicts _ _ Q)]. }
    apply (pu_needed _ _ Q b Hbu). destruct Hor as [|Hnew]; [by left|right]. intros a Ha. apply Hnew. eapply elem_of_sublist; [exact Ha|apply P].
  - intros p Hp Hr. apply (pu_running _ _ Q); [by apply (pu_running _ _ P)|done].
Qed.

Lemma filter_keep {A} (P Q : A -> Prop) `{!forall x, Decision (P x)} `{!forall x, Decision (Q x)} (l : list A) :
  (forall x, x ∈ l -> P x -> Q x) -> filter P (filter Q l) = filter P l.
Proof.
  induction l as [|x l IH]; intros Hpq; [done|]. rewrite !filter_cons. specialize (IH ltac:(intros y ?; apply Hpq; set_solver)).
  destruct (decide (Q x)) as [|Hq]; [rewrite filter_cons; by destruct (decide (P x)); rewrite IH|].
  destruct (decide (P x)) as [Hp|]; [|done]. destruct Hq. apply Hpq; [set_solver|done].
Qed.

Lemma delete_connections_prunes ids t : prunes t (delete_connections ids t).
Proof.
  split; unfold connections_of, delete_connections;
    cbn [ht_db ht_names ht_sessions ht_env ht_findings db_store hs_connections db_tls db_baselines hs_processes et_hosts et_boots et_environments db_verdicts
      hs_pending_tls]; try done; [apply map_filter_subseteq| |apply map_filter_subseteq].
  intros c Hc. rewrite dom_filter_ids in Hc. apply elem_of_filter in Hc as [Hc _]. unfold own_rows.
  cbn [ht_db ht_names ht_sessions ht_env db_store hs_connections db_states db_verdicts hs_tls_links et_links hs_transport_samples hs_lifecycle_events db_routes
    nt_evidence nt_addresses].
  assert (Hn : filter (fun r => nc_connection_id r.2 = c) (filter (fun r => nc_connection_id r.2 ∉ ids) (nt_evidence (ht_names t))) =
    filter (fun r => nc_connection_id r.2 = c) (nt_evidence (ht_names t))) by (apply filter_keep; by intros x _ ->).
  rewrite !lookup_filter_ids, Hn by done. repeat match goal with |- (_, _) = (_, _) => f_equal end; try done; apply filter_keep; try by intros x _ ->.
  intros a _ (r & E & [Hr Hin]%list_elem_of_filter)%list_elem_of_fmap. rewrite E.
  apply list_elem_of_fmap_2, list_elem_of_filter. by rewrite Hr.
Qed.

Lemma with_env_prunes f t :
  et_links (f (ht_env t)) = et_links (ht_env t) -> et_hosts (f (ht_env t)) `sublist_of` et_hosts (ht_env t) ->
  et_boots (f (ht_env t)) `sublist_of` et_boots (ht_env t) -> et_environments (f (ht_env t)) `sublist_of` et_environments (ht_env t) -> prunes t (with_env f t).
Proof. intros El H1 H2 H3. split; try done. intros c _. unfold own_rows. cbn [with_env ht_db ht_names ht_sessions ht_env]. by rewrite El. Qed.

Lemma prune_processes_prunes t : prunes t (with_db prune_processes t).
Proof.
  split; try done; [apply sublist_filter|]. intros c r p Hc Hp. apply filter_keep. intros q _ ->. apply list_elem_of_omap. exists (c, r).
  split; [by apply elem_of_map_to_list|done].
Qed.

Lemma prune_tls_prunes t : prunes t (with_db prune_tls t).
Proof. split; try done. apply sublist_filter. Qed.

Lemma prune_baselines_prunes t : prunes t (with_db prune_baselines t).
Proof.
  split; try done; [apply sublist_filter|]. intros b Hb Hor. apply list_elem_of_filter. split; [|done]. destruct Hor as [(c & v & Hv & E)|Hnew].
  - left. rewrite <- E, map_fmap. apply (list_elem_of_fmap_2' _ _ (c, v)); [by apply elem_of_map_to_list|done].
  - right. rewrite Exists_exists. intros (a & Ha & Hn). by destruct (Hnew a Ha).
Qed.

Lemma with_ft_prunes f t :
  ft_instances (f (ht_findings t)) `sublist_of` ft_instances (ht_findings t) -> ft_findings (f (ht_findings t)) `sublist_of` ft_findings (ht_findings t) ->
  (forall p, p ∈ ft_instances (ht_findings t) -> in_exited_at_ns p = None -> p ∈ ft_instances (f (ht_findings t))) -> prunes t (with_ft f t).
Proof. intros H1 H2 H3. by split. Qed.

Lemma nodup_key {A K} (key : A -> K) l x y : NoDup (map key l) -> x ∈ l -> y ∈ l -> key x = key y -> x = y.
Proof.
  intros Hnd [i Hi]%list_elem_of_lookup [j Hj]%list_elem_of_lookup E. assert (i = j) as ->; [|congruence].
  eapply NoDup_lookup; [exact Hnd| |]; rewrite map_fmap, list_lookup_fmap; [by rewrite Hi|rewrite Hj; simpl; by rewrite E].
Qed.

Lemma batch_prunes t : findings_ok (ht_findings t) -> prunes t (delete_batch t).2.
Proof.
  intros Hok. apply with_ft_prunes; [apply sublist_filter|done|]. intros p Hp Hr. apply list_elem_of_filter. split; [|done].
  intros (q & Hq & E & Hu & _)%batch_unreferenced. by rewrite (nodup_key in_process_key _ q p (fo_instances _ Hok) Hq Hp E) in Hu.
Qed.

Lemma instances_prunes t : prunes t (with_ft prune_instances t).
Proof. apply with_ft_prunes; [apply sublist_filter|done|]. intros p Hp Hr. apply list_elem_of_filter. split; [|done]. by intros []. Qed.

Lemma findings_prunes b t : prunes t (delete_old_findings b t).2.
Proof. apply with_ft_prunes; [done|apply sublist_filter|done]. Qed.

(** ** One round *)

Record reduces (t : HistoryTables) (r : nat * HistoryTables) : Prop := {
  rd_ok : history_ok r.2;
  rd_prunes : prunes t r.2;
  rd_count : (removable r.2 + r.1 = removable t)%nat;
  rd_none : r.1 = 0%nat -> r.2 = t }.

Lemma filter_none {A} (P : A -> Prop) `{!forall x, Decision (P x)} (l : list A) : (forall x, x ∈ l -> P x) -> filter P l = l.
Proof.
  induction l as [|x l IH]; intros Hp; [done|]. rewrite filter_cons_True by (apply Hp; set_solver). f_equal. apply IH. intros y Hy. apply Hp. set_solver.
Qed.

Section select.
Context {A K : Type} `{EqDecision K} (key : A -> K).

Lemma oldest_submseteq (R : A -> A -> Prop) `{!RelDecision R} (P : A -> Prop) `{!forall x, Decision (P x)} n (l : list A) :
  take n (merge_sort R (filter P l)) ⊆+ l.
Proof.
  etrans; [apply sublist_submseteq, sublist_take|]. rewrite merge_sort_Permutation. apply sublist_submseteq, sublist_filter.
Qed.

(** Deleting the rows with the keys of some of them leaves the others. *)
Lemma delete_keys_length (l l' : list A) :
  NoDup (map key l) -> l' ⊆+ l -> (length (filter (fun x => key x ∉ map key l') l) + length l' = length l)%nat.
Proof.
  intros Hnd [k Hk]%submseteq_Permutation. rewrite Hk in Hnd |- *. rewrite filter_app, !length_app. rewrite map_app in Hnd. apply NoDup_app in Hnd as (_ & Hd & _).
  rewrite (elem_of_nil_inv (filter _ l')).
  - rewrite (filter_none _ k) by (intros x Hx Hin; destruct (Hd _ Hin); rewrite map_fmap; by apply list_elem_of_fmap_2). simpl. lia.
  - intros x [Hn Hx]%list_elem_of_filter. destruct Hn. rewrite map_fmap. by apply list_elem_of_fmap_2.
Qed.
End select.

Lemma filter_map_none {A} (m : gmap Z A) : filter (fun kv => kv.1 ∉ ([] : list Z)) m = m.
Proof. apply map_eq. intros k. apply lookup_filter_ids. set_solver. Qed.

Lemma delete_no_connections t : history_ok t -> delete_connections [] t = t.
Proof.
  intros [_ (_ & _ & N3) _ _ _ _ _ _ _]. unfold delete_connections. rewrite !filter_map_none.
  rewrite !(filter_none (A := LifecycleRow)), !(filter_none (A := SampleRow)), !(filter_none (A := Z * RouteRow)), !(filter_none (A := Z * NameColumns)),
    !(filter_none (A := Z * TlsColumns)), (filter_none (A := Z * Z * string)) by (intros; set_solver).
  by destruct t as [[[]] [] ? [] ?].
Qed.

Lemma connections_nodup t : NoDup (map fst (map_to_list (connections_of t))).
Proof. apply NoDup_fst_map_to_list. Qed.

Lemma delete_oldest_reduces n wanted t : history_ok t -> reduces t (delete_oldest n wanted t).
Proof.
  intros Hok. unfold delete_oldest. split; cbn [fst snd].
  - by apply delete_connections_ok.
  - apply delete_connections_prunes.
  - unfold removable, oldest_connections. rewrite length_map. set (l' := take n _).
    pose proof (delete_keys_length fst (map_to_list (connections_of t)) l' (connections_nodup t) (oldest_submseteq _ _ _ _)) as Hl.
    assert (E : size (connections_of (delete_connections (map fst l') t)) = length (filter (fun kv => kv.1 ∉ map fst l') (map_to_list (connections_of t)))).
    { rewrite <- length_map_to_list. unfold connections_of, delete_connections. cbn [ht_db db_store hs_connections]. 
      apply Permutation_length, NoDup_Permutation; [apply NoDup_map_to_list|apply NoDup_filter, NoDup_map_to_list|].
      intros [k x]. by rewrite elem_of_map_to_list, list_elem_of_filter, elem_of_map_to_list, map_lookup_filter_Some, (comm (A := Prop) and). }
    rewrite <- (length_map_to_list (connections_of t)). rewrite E. fold l' in Hl. cbn [delete_connections ht_findings]. lia.
  - intros ->%length_zero_iff_nil. by apply delete_no_connections.
Qed.

Lemma findings_reduces b t : history_ok t -> reduces t (delete_old_findings b t).
Proof.
  intros Hok. unfold delete_old_findings. split; cbn [fst snd].
  - apply with_ft_ok; [done|]. apply delete_findings_ok, Hok.
  - apply (findings_prunes b).
  - unfold removable, connections_of. cbn [with_ft ht_db ht_findings delete_findings ft_instances ft_findings]. unfold old_process_findings. rewrite length_map.
    set (l' := if b then _ else _). assert (Hl : l' ⊆+ ft_findings (ht_findings t)).
    { unfold l'. destruct b; [apply oldest_submseteq|]. etrans; [apply sublist_submseteq, sublist_take|]. by rewrite merge_sort_Permutation. }
    pose proof (delete_keys_length fr_finding_id _ l' (fo_ids _ (hk_findings _ Hok)) Hl). lia.
  - intros ->%length_zero_iff_nil. unfold with_ft, delete_findings. rewrite filter_none by set_solver. by destruct t as [? ? ? ? []].
Qed.

Lemma batch_reduces t : history_ok t -> reduces t (delete_batch t).
Proof.
  intros Hok. unfold delete_batch. split; cbn [fst snd].
  - apply with_ft_ok; [done|]. apply delete_instances_ok, Hok.
  - apply batch_prunes, Hok.
  - unfold removable, connections_of. cbn [with_ft ht_db ht_findings delete_instances ft_instances ft_findings]. unfold unreferenced_batch. rewrite length_map.
    pose proof (delete_keys_length in_process_key _ _ (fo_instances _ (hk_findings _ Hok)) (oldest_submseteq (text_before in_updated_at_ns in_process_key)
      (unreferenced (ht_findings t)) 128 (ft_instances (ht_findings t)))). lia.
  - intros ->%length_zero_iff_nil. unfold with_ft, delete_instances. rewrite filter_none by set_solver. by destruct t as [? ? ? ? []].
Qed.

(** ** What goes first *)

#[global] Instance FindingRow_dec : EqDecision FindingRow.
Proof. solve_decision. Defined.

Definition unreported (f : FindingRow) : Prop := is_reported f = false.

Record ordered (t t' : HistoryTables) : Prop := {
  or_anomalous c : c ∈ dom (connections_of t) -> is_anomalous t c = true -> c ∉ dom (connections_of t') ->
    (forall c', c' ∈ dom (connections_of t') -> is_anomalous t c' = true) /\ Forall unreported (ft_findings (ht_findings t'));
  or_findings f : f ∈ ft_findings (ht_findings t) -> unreported f -> f ∉ ft_findings (ht_findings t') ->
    connections_of t' = ∅ /\ Forall unreported (ft_findings (ht_findings t'));
  or_oldest c r c' r' : connections_of t !! c = Some r -> connections_of t' !! c' = Some r' -> is_anomalous t c = is_anomalous t c' ->
    c ∉ dom (connections_of t') -> row_before cr_captured_at_ns (c, r) (c', r') }.

Lemma ordered_same t t' :
  connections_of t' = connections_of t -> ft_findings (ht_findings t) `sublist_of` ft_findings (ht_findings t') -> ordered t t'.
Proof.
  intros E Hf. split.
  - intros c Hc _ Hn. by rewrite E in Hn.
  - intros f Hin _ Hn. destruct Hn. by eapply elem_of_sublist.
  - intros c r c' r' Hc _ _ Hn. rewrite E in Hn. by apply not_elem_of_dom in Hn; rewrite Hc in Hn.
Qed.

Lemma kept_state t t' c : prunes t t' -> c ∈ dom (connections_of t') -> is_anomalous t' c = is_anomalous t c.
Proof. intros P Hc. unfold is_anomalous, states_of. pose proof (pu_own _ _ P c Hc) as E. unfold own_rows in E. by assert (db_states (ht_db t') !! c = db_states (ht_db t) !! c) as -> by congruence. Qed.

Lemma Forall_sub {A} (P : A -> Prop) l l' : l' `sublist_of` l -> Forall P l -> Forall P l'.
Proof. intros Hs. rewrite !Forall_forall. intros HP x Hx. eapply HP, elem_of_sublist; eassumption. Qed.

Lemma ordered_trans t u v : prunes t u -> prunes u v -> ordered t u -> ordered u v -> ordered t v.
Proof.
  intros P Q [A1 A2 A3] [B1 B2 B3]. pose proof (subseteq_dom _ _ (pu_connections _ _ Q)) as Hd. split.
  - intros c Hc Ha Hn. destruct (decide (c ∈ dom (connections_of u))) as [Hu|Hu].
    + destruct (B1 c Hu) as [C1 C2]; [by rewrite (kept_state t u)|done|]. split; [|done]. intros c' Hc'. rewrite <- (kept_state t u c' P) by set_solver. by apply C1.
    + destruct (A1 c Hc Ha Hu) as [C1 C2]. split; [intros c' Hc'; apply C1; set_solver|]. eapply Forall_sub; [apply Q|done].
  - intros f Hf Hr Hn. destruct (decide (f ∈ ft_findings (ht_findings u))) as [Hu|Hu]; [by apply (B2 f)|]. destruct (A2 f Hf Hr Hu) as [E C2].
    split; [|eapply Forall_sub; [apply Q|done]]. apply map_empty. intros i. destruct (connections_of v !! i) as [x|] eqn:Hx; [|done].
    pose proof (lookup_weaken _ _ _ _ Hx (pu_connections _ _ Q)) as Hi. by rewrite E in Hi.
  - intros c r c' r' Hc Hc' E Hn. assert (Hc'u : connections_of u !! c' = Some r') by (eapply lookup_weaken; [exact Hc'|apply Q]).
    destruct (decide (c ∈ dom (connections_of u))) as [Hu|Hu]; [|by eapply A3].
    apply B3; try done.
    + apply elem_of_dom in Hu as [x Hx]. rewrite Hx. rewrite <- Hc. symmetry. eapply lookup_weaken; [exact Hx|apply P].
    + rewrite !(kept_state t u) by (try done; by eapply elem_of_dom_2). done.
Qed.

(** The oldest of the rows that are wanted come before those that stay. *)
Lemma oldest_first {A} (R : A -> A -> Prop) `{!RelDecision R} `{!Transitive R} `{!Total R} n (l : list A) x y :
  x ∈ take n (merge_sort R l) -> y ∈ l -> y ∉ take n (merge_sort R l) -> R x y.
Proof.
  intros Hx Hy Hn. pose proof (Sorted_StronglySorted _ _ (Sorted_merge_sort R l)) as Hs. rewrite <- (take_drop n (merge_sort R l)) in Hs.
  rewrite <- (merge_sort_Permutation R), <- (take_drop n (merge_sort R l)), elem_of_app in Hy. destruct Hy as [|Hy]; [done|].
  by eapply StronglySorted_app_1_elem_of.
Qed.

Lemma oldest_elem n wanted t c :
  c ∈ oldest_connections n wanted t ->
  exists r, (c, r) ∈ take n (merge_sort (row_before cr_captured_at_ns) (filter (fun kv => is_anomalous t kv.1 = wanted) (map_to_list (connections_of t)))) /\
    connections_of t !! c = Some r /\ is_anomalous t c = wanted.
Proof.
  unfold oldest_connections. rewrite map_fmap. intros ([c' r] & E & Hin)%list_elem_of_fmap. simpl in E. subst c'. exists r. split; [done|].
  assert (Hf : (c, r) ∈ filter (fun kv => is_anomalous t kv.1 = wanted) (map_to_list (connections_of t))).
  { rewrite <- (merge_sort_Permutation (row_before cr_captured_at_ns)). eapply elem_of_sublist; [exact Hin|apply sublist_take]. }
  apply list_elem_of_filter in Hf as [Ha Hm%elem_of_map_to_list]. done.
Qed.

Lemma dom_deleted ids t c : c ∈ dom (connections_of t) -> c ∉ dom (connections_of (delete_connections ids t)) -> c ∈ ids.
Proof.
  unfold connections_of. cbn [delete_connections ht_db db_store hs_connections]. rewrite dom_filter_ids, elem_of_filter. intros Hc Hn.
  destruct (decide (c ∈ ids)); [done|]. by destruct Hn.
Qed.

(** A round that removes connections of one class. *)
Lemma delete_oldest_ordered n wanted t :
  (wanted = true -> (forall c, c ∈ dom (connections_of t) -> is_anomalous t c = true) /\ Forall unreported (ft_findings (ht_findings t))) ->
  ordered t (delete_oldest n wanted t).2.
Proof.
  intros Hall. unfold delete_oldest. cbn [snd]. set (ids := oldest_connections n wanted t).
  assert (Hsub : connections_of (delete_connections ids t) ⊆ connections_of t) by apply (pu_connections _ _ (delete_connections_prunes ids t)). split.
  - intros c Hc Ha Hn. pose proof (dom_deleted ids t c Hc Hn) as Hin. apply oldest_elem in Hin as (r & _ & _ & Hw). rewrite Ha in Hw.
    destruct (Hall (eq_sym Hw)) as [H1 H2]. split; [|done]. intros c' Hc'. apply H1. by eapply subseteq_dom.
  - intros f Hf _ Hn. by destruct Hn.
  - intros c r c' r' Hc Hc' E Hn. pose proof (dom_deleted ids t c (elem_of_dom_2 _ _ _ Hc) Hn) as Hin. apply oldest_elem in Hin as (r0 & Hin & Hr0 & Hw).
    assert (r0 = r) as -> by congruence. pose proof (lookup_weaken _ _ _ _ Hc' Hsub) as Hc't.
    eapply (oldest_first (row_before cr_captured_at_ns) n); [exact Hin| |].
    + apply list_elem_of_filter. split; [simpl; congruence|]. by apply elem_of_map_to_list.
    + intros Hin'. revert Hc'. unfold connections_of. cbn [delete_connections ht_db db_store hs_connections].
      intros [_ Hni]%map_lookup_filter_Some. destruct Hni. unfold ids, oldest_connections. rewrite map_fmap. by apply (list_elem_of_fmap_2' _ _ (c', r')).
Qed.

(** What a stage that removes nothing says. *)
Lemma take_sorted_nil {A} (R : A -> A -> Prop) `{!RelDecision R} n (l : list A) : (0 < n)%nat -> length (take n (merge_sort R l)) = 0%nat -> l = [].
Proof.
  intros Hn E. apply Permutation_nil_r. rewrite <- (merge_sort_Permutation R). destruct (merge_sort R l); [done|]. destruct n; [lia|done].
Qed.

Lemma no_connections n wanted t :
  (0 < n)%nat -> (delete_oldest n wanted t).1 = 0%nat -> forall c, c ∈ dom (connections_of t) -> is_anomalous t c = negb wanted.
Proof.
  unfold delete_oldest, oldest_connections. cbn [fst]. rewrite length_map. intros Hn E%take_sorted_nil c [r Hr]%elem_of_dom; [|done].
  destruct (decide (is_anomalous t c = wanted)) as [Hw|]; [|by destruct wanted, (is_anomalous t c)].
  assert (Hin : (c, r) ∈ filter (fun kv => is_anomalous t kv.1 = wanted) (map_to_list (connections_of t))).
  { apply list_elem_of_filter. split; [done|]. by apply elem_of_map_to_list. }
  rewrite E in Hin. by apply not_elem_of_nil in Hin.
Qed.

Lemma no_batch t : (delete_batch t).1 = 0%nat -> forall p, p ∈ ft_instances (ht_findings t) -> ~ unreferenced (ht_findings t) p.
Proof.
  unfold delete_batch, unreferenced_batch. cbn [fst]. rewrite length_map. intros E%take_sorted_nil p Hp Hu; [|lia].
  assert (Hin : p ∈ filter (unreferenced (ht_findings t)) (ft_instances (ht_findings t))) by by apply list_elem_of_filter.
  rewrite E in Hin. by apply not_elem_of_nil in Hin.
Qed.

Lemma no_reported t : (delete_old_findings true t).1 = 0%nat -> Forall unreported (ft_findings (ht_findings t)).
Proof.
  unfold delete_old_findings, old_process_findings. cbn [fst]. rewrite length_map. intros E%take_sorted_nil; [|lia]. apply Forall_forall. intros f Hf.
  unfold unreported. destruct (is_reported f) eqn:Er; [|done].
  assert (Hin : f ∈ filter (fun f => is_reported f = true) (ft_findings (ht_findings t))) by by apply list_elem_of_filter.
  rewrite E in Hin. by apply not_elem_of_nil in Hin.
Qed.

Lemma no_findings t : (delete_old_findings false t).1 = 0%nat -> ft_findings (ht_findings t) = [].
Proof.
  unfold delete_old_findings, old_process_findings. cbn [fst]. rewrite length_map. intros E. apply take_sorted_nil in E; [done|lia].
Qed.

(** The findings that go are those that were reported, unless it is the last resort. *)
Lemma findings_ordered b t : history_ok t -> (b = false -> connections_of t = ∅ /\ Forall unreported (ft_findings (ht_findings t))) ->
  ordered t (delete_old_findings b t).2.
Proof.
  intros Hok Hlast. unfold delete_old_findings. cbn [snd]. split.
  - intros c Hc _ Hn. by destruct Hn.
  - intros f Hf Hu Hn. destruct b; [exfalso|destruct (Hlast eq_refl) as [H1 H2]; split; [done|]; eapply Forall_sub; [apply sublist_filter|done]].
    cbn [with_ft ht_findings delete_findings ft_findings] in Hn. apply Hn, list_elem_of_filter. split; [|done]. unfold old_process_findings. rewrite map_fmap.
    intros (g & E & Hg)%list_elem_of_fmap.
    assert (Hg' : g ∈ filter (fun f => is_reported f = true) (ft_findings (ht_findings t))).
    { rewrite <- (merge_sort_Permutation (text_before fr_last_seen_ns fr_finding_id)). eapply elem_of_sublist; [exact Hg|apply sublist_take]. }
    apply list_elem_of_filter in Hg' as [Hr Hin]. rewrite <- (nodup_key fr_finding_id _ f g (fo_ids _ (hk_findings _ Hok)) Hf Hin E) in Hr. congruence.
  - intros c r c' r' Hc _ _ Hn. destruct Hn. by eapply elem_of_dom_2.
Qed.

Definition nothing_left (t : HistoryTables) : Prop :=
  connections_of t = ∅ /\ ft_findings (ht_findings t) = [] /\ forall p, p ∈ ft_instances (ht_findings t) -> in_exited_at_ns p = None.

(** ** A run *)

(** What every statement of a run leaves. *)
Record pruned (t t' : HistoryTables) : Prop := { pd_ok : history_ok t'; pd_prunes : prunes t t'; pd_ordered : ordered t t' }.

Lemma pruned_trans t u v : pruned t u -> pruned u v -> pruned t v.
Proof. intros [A1 A2 A3] [B1 B2 B3]. split; [done|by eapply prunes_trans|by eapply ordered_trans]. Qed.

Lemma pruned_refl t : history_ok t -> pruned t t.
Proof. intros. split; [done|apply prunes_refl|by apply ordered_same]. Qed.

Lemma prunes_removable t t' : prunes t t' -> (removable t' <= removable t)%nat.
Proof.
  intros P. unfold removable. pose proof (map_subseteq_size _ _ (pu_connections _ _ P)).
  pose proof (sublist_length _ _ (pu_instances _ _ P)). pose proof (sublist_length _ _ (pu_findings _ _ P)). lia.
Qed.

(** A statement that removes what nothing refers to. *)
Definition spares (f : HistoryTables -> HistoryTables) : Prop := forall t, history_ok t -> pruned t (f t).

Lemma spares_db f :
  (forall d, db_ok d -> db_ok (f d)) -> (forall t, prunes t (with_db f t)) -> (forall d, hs_connections (db_store (f d)) = hs_connections (db_store d)) ->
  (forall d, db_verdicts (f d) = db_verdicts d) -> spares (with_db f).
Proof. intros H1 H2 H3 H4 t Hok. split; [apply with_db_ok; auto; by apply H1, Hok|done|]. apply ordered_same; [apply H3|done]. Qed.

Lemma spares_env f :
  (forall e, env_ok e -> env_ok (f e)) ->
  (forall e, et_links (f e) = et_links e /\ et_hosts (f e) `sublist_of` et_hosts e /\ et_boots (f e) `sublist_of` et_boots e /\
     et_environments (f e) `sublist_of` et_environments e) -> spares (with_env f).
Proof.
  intros H1 H2 t Hok. destruct (H2 (ht_env t)) as (E1 & E2 & E3 & E4). split; [apply with_env_ok; auto; by apply H1, Hok|by apply with_env_prunes|by apply ordered_same].
Qed.

Lemma spares_instances : spares (with_ft prune_instances).
Proof. intros t Hok. split; [by apply with_ft_ok, prune_instances_ok, Hok|apply instances_prunes|by apply ordered_same]. Qed.

Section runs.
Context (B : string -> Prop).

(** However a statement fails, what is left was pruned from [t]. *)
Definition runs {A} (t : HistoryTables) (P : HistoryTables -> Prop) (m : IO HistoryTables A) (Q : A -> HistoryTables -> Prop) : Prop :=
  blame B P m Q (fun e u => B e /\ pruned t u) (pruned t).

Definition left (t : HistoryTables) (n : nat) (u : HistoryTables) : Prop := pruned t u /\ (removable u <= n)%nat.

Lemma runs_bind {A A'} t P (m : IO HistoryTables A) (k : A -> IO HistoryTables A') Q R :
  runs t P m Q -> (forall a, runs t (Q a) (k a) R) -> runs t P (bind m k) R.
Proof. apply blame_bind. Qed.

(** What is known of the tables may be used. *)
Lemma runs_from {A} t P (m : IO HistoryTables A) Q : (forall u, P u -> runs t (eq u) m Q) -> runs t P m Q.
Proof. intros H fs u Hb Hp. by apply (H u Hp). Qed.

Lemma runs_weaken {A} t u (m : IO HistoryTables A) P P' (Q Q' : A -> HistoryTables -> Prop) :
  runs u P' m Q' -> pruned t u -> (forall v, P v -> P' v) -> (forall a v, Q' a v -> Q a v) -> runs t P m Q.
Proof.
  intros Hm Hu H1 H2. eapply blame_weaken; [exact Hm|done|done| |]; [intros e v [? ?]; split; [done|]|intros v ?]; by eapply pruned_trans.
Qed.

Lemma runs_step t n : runs t (left t n) io_step (fun _ => left t n).
Proof. apply blame_step; [intros e u He [? _]|intros u [? _]]; done. Qed.

Lemma runs_spares f t n : spares f -> runs t (left t n) (io_update f) (fun _ => left t n).
Proof.
  intros Hf. assert (Hs : forall u, left t n u -> left t n (f u)).
  { intros u [Hp Hn]. pose proof (Hf u (pd_ok _ _ Hp)) as Hu. split; [by eapply pruned_trans|]. pose proof (prunes_removable _ _ (pd_prunes _ _ Hu)). lia. }
  apply blame_update; [done|intros e u He [? _]; done|]. intros u Hu. split; [apply Hu|by apply Hs].
Qed.

Lemma compact_runs mode i t n : runs t (left t n) (compact mode i) (fun _ => left t n).
Proof.
  assert (Hstep := runs_step t n). unfold compact, prune_orphans, prune_environment_orphans, prune_process_orphans, table_exists.
  assert (Hs : forall f, spares f -> runs t (left t n) (io_update f) (fun _ => left t n)) by (intros; by apply runs_spares).
  repeat match goal with
  | |- forall _, _ => intros
  | |- runs _ _ (bind _ _) _ => eapply runs_bind
  | |- runs _ _ (if ?b then _ else _) _ => destruct b
  | |- runs _ _ io_step _ => exact Hstep
  | |- runs _ _ (io_update _) _ => apply Hs
  end.
  - by apply spares_db; [apply prune_processes_ok|apply prune_processes_prunes|..].
  - by apply spares_db; [apply prune_tls_ok|apply prune_tls_prunes|..].
  - by apply spares_db; [apply prune_baselines_ok|apply prune_baselines_prunes|..].
  - apply spares_env; [apply prune_environments_ok|]. intros e. split_and!; try done. apply sublist_filter.
  - apply spares_env; [apply prune_boots_ok|]. intros e. split_and!; try done. apply sublist_filter.
  - apply spares_env; [apply prune_hosts_ok|]. intros e. split_and!; try done. apply sublist_filter.
  - apply spares_instances.
Qed.

(** ** One round *)

(** Either something was removed, or the tables are as before and [F] is known of them. *)
Definition stage (t : HistoryTables) (F : Prop) (n : nat) (u : HistoryTables) : Prop :=
  pruned t u /\ (removable u + n = removable t)%nat /\ (n = 0%nat -> u = t /\ F).

Lemma stage_change t (f : HistoryTables -> nat * HistoryTables) (F : Prop) :
  history_ok t -> reduces t (f t) -> ordered t (f t).2 -> ((f t).1 = 0%nat -> F) -> runs t (eq t) (io_change f) (stage t F).
Proof.
  intros Hok [H1 H2 H3 H4] Ho HF. assert (Hp : pruned t (f t).2) by done.
  apply blame_change; [intros u <-|intros e u He <-|intros u <-]; [|by split; [|apply pruned_refl]|by split; [apply pruned_refl|]].
  split; [done|]. split; [done|]. auto.
Qed.

Lemma stage_query t (m : IO HistoryTables nat) Q : history_ok t -> runs t (eq t) m Q -> runs t (eq t) (let* _ := table_exists in m) Q.
Proof.
  intros Hok Hm. eapply (runs_bind _ _ _ _ (fun _ => eq t)); [|done].
  apply blame_step; [intros e u He <-; split; [done|]|intros u <-]; by apply pruned_refl.
Qed.

Lemma stage_next t F F' removed next : (F -> runs t (eq t) next (stage t F')) -> runs t (stage t F removed) (or_else removed next) (stage t F').
Proof.
  intros Hn. apply runs_from. intros u (H1 & H2 & H3). destruct removed as [|n]; [|apply blame_ret; by intros v <-].
  destruct (H3 eq_refl) as [-> HF]. by apply Hn.
Qed.

Lemma prune_round_runs t : history_ok t -> runs t (eq t) prune_round (stage t (nothing_left t)).
Proof.
  intros Hok. unfold prune_round, prune_unreferenced_process_batch, prune_old_process_findings.
  set (F1 := forall c, c ∈ dom (connections_of t) -> is_anomalous t c = true).
  set (F2 := forall p, p ∈ ft_instances (ht_findings t) -> ~ unreferenced (ht_findings t) p).
  set (F3 := Forall unreported (ft_findings (ht_findings t))).
  eapply (runs_bind _ _ _ _ (stage t F1)).
  { apply stage_change; [done|by apply delete_oldest_reduces|by apply delete_oldest_ordered|]. exact (no_connections 64 false t ltac:(lia)). }
  intros n1. eapply (runs_bind _ _ _ _ (stage t (F1 /\ F2))).
  { apply stage_next. intros HF1. do 2 (apply stage_query; [done|]). apply stage_change; [done|by apply batch_reduces|by apply ordered_same|].
    intros E. split; [done|exact (no_batch t E)]. }
  intros n2. eapply (runs_bind _ _ _ _ (stage t (F1 /\ F2 /\ F3))).
  { apply stage_next. intros [HF1 HF2]. apply stage_query; [done|]. apply stage_change; [done|by apply findings_reduces|by apply findings_ordered|].
    intros E. split_and!; [done|done|by apply no_reported]. }
  intros n3. eapply (runs_bind _ _ _ _ (stage t (F2 /\ F3 /\ connections_of t = ∅))).
  { apply stage_next. intros (HF1 & HF2 & HF3). apply stage_change; [done|by apply delete_oldest_reduces|by apply delete_oldest_ordered|].
    intros E. split_and!; [done|done|]. apply dom_empty_inv_L, set_eq. intros c. split; [|set_solver]. intros Hc.
    pose proof (HF1 c Hc) as H1. by rewrite (no_connections 8 true t ltac:(lia) E c Hc) in H1. }
  intros n4. apply stage_next. intros (HF2 & HF3 & Hc). apply stage_query; [done|].
  apply stage_change; [done|by apply findings_reduces|by apply findings_ordered|]. intros E%no_findings. split_and!; [done|done|].
  intros p Hp. destruct (in_exited_at_ns p) eqn:Ex; [|done]. destruct (HF2 p Hp). split; [by rewrite Ex|]. rewrite E. by apply not_elem_of_nil.
Qed.

(** ** The loop *)

(** The measurements [first], ... before [last] are over the target. *)
Definition over (sizes : nat -> Z) (target : Z) (first last : nat) : Prop := forall k, (first <= k < last)%nat -> target < sizes k.

Lemma prune_loop_runs sizes mode target t fuel n i :
  (n < fuel)%nat ->
  runs t (left t n) (prune_loop sizes mode fuel target i)
    (fun r u => pruned t u /\ exists j, r = Some j /\ (i <= j <= i + n)%nat /\ over sizes target i j /\ (sizes j <= target \/ target < sizes j /\ nothing_left u)).
Proof.
  revert n i. induction fuel as [|fuel IH]; intros n i Hn; [lia|]. cbn [prune_loop]. destruct (Z.leb_spec (sizes i) target) as [Hle|Hgt].
  { apply blame_ret. intros u [Hu _]. split; [done|]. exists i. split_and!; try lia; [done|unfold over; lia]. }
  eapply (runs_bind _ _ _ _ (fun m u => pruned t u /\ (removable u + m <= n)%nat /\ (m = 0%nat -> nothing_left u))).
  { apply runs_from. intros u [Hu Hr]. eapply runs_weaken; [apply (prune_round_runs u), Hu|done|done|]. intros m v (H1 & H2 & H3).
    split_and!; [by eapply pruned_trans|lia|]. intros Hm. by destruct (H3 Hm) as [-> ?]. }
  intros [|m].
  { apply blame_ret. intros u (Hu & _ & Hleft). split; [done|]. exists i. split_and!; try lia; [done|unfold over; lia|auto]. }
  apply runs_from. intros u (Hu & Hr & _). apply (runs_bind _ _ _ _ (fun _ => left t (n - 1))).
  { intros fs v Hb <-. apply compact_runs; [done|]. split; [done|lia]. }
  intros _. eapply blame_weaken; [apply (IH (n - 1)%nat (S i)); lia|done| |done|done]. intros r v (Hv & j & -> & Hj & Ho & He). split; [done|]. exists j.
  split_and!; [done|lia|lia| |done]. intros k Hk. destruct (decide (k = i)) as [->|]; [done|]. apply Ho. lia.
Qed.
End runs.

(** How a run ends: [j] is its last measurement. *)
Definition ended (sizes : nat -> Z) (max : Z) (t : HistoryTables) (j : nat) : Prop :=
  (j <= removable t + 2)%nat /\ ((0 < j)%nat -> max < sizes 0%nat) /\ over sizes (max - max / 10) 1 j.

Lemma ended_first sizes max t : ended sizes max t 0.
Proof. split_and!; [lia|lia|unfold over; lia]. Qed.

Lemma prune_spec sizes mode max B t : history_ok t -> 0 <= max ->
  blame B (eq t) (prune_to_budget sizes mode max)
    (fun r u => pruned t u /\ r = Some tt /\
       (max = 0 /\ u = t \/ exists j, ended sizes max t j /\ (j = 0%nat /\ sizes j <= max /\ u = t \/ sizes j <= max - max / 10 \/ sizes j <= max /\ nothing_left u)))
    (fun e u => pruned t u /\ (B e \/ e = cap_unmet /\ exists j, ended sizes max t j /\ max < sizes j /\ nothing_left u))
    (pruned t).
Proof.
  intros Hok Hmax. pose proof (pruned_refl t Hok) as Hr. unfold prune_to_budget. destruct (Z.eqb_spec max 0); [apply blame_ret; intros u <-; auto|].
  destruct (Z.leb_spec (sizes 0%nat) max).
  { apply blame_ret. intros u <-. split_and!; try done. right. exists 0%nat. split; [apply ended_first|by left]. }
  cbv zeta. set (target := max - max / 10). assert (Ht : target <= max) by (unfold target; pose proof (Z.div_pos max 10); lia).
  assert (Hin : forall A (m : IO HistoryTables A) P Q, runs B t P m Q -> blame B P m Q
    (fun e u => pruned t u /\ (B e \/ e = cap_unmet /\ exists j, ended sizes max t j /\ max < sizes j /\ nothing_left u)) (pruned t)).
  { intros A m P Q Hm. eapply blame_weaken; [exact Hm|done|done| |done]. intros e u []. auto. }
  eapply (blame_bind _ _ _ _ (fun _ => eq t)).
  { apply blame_step; [intros e u He <-|intros u <-]; auto. }
  intros _. destruct (Z.leb_spec (sizes 1%nat) target) as [|H1].
  { apply blame_ret. intros u <-. split_and!; try done. right. exists 1%nat. split; [|auto]. split_and!; [lia|done|unfold over; lia]. }
  eapply (blame_bind _ _ _ _ (fun _ => left t (removable t))).
  { apply Hin. intros fs u Hb <-. apply compact_runs; [done|]. by split. }
  intros _. eapply (blame_bind _ _ _ _ (fun r u => pruned t u /\ exists j, r = Some j /\ ended sizes max t j /\ (2 <= j)%nat /\
    (sizes j <= target \/ target < sizes j /\ nothing_left u))).
  { intros fs u Hb [Hu Hle]. apply (Hin _ (prune_loop sizes mode (S (removable u)) target 2) (left t (removable u))); [|done|by split].
    eapply blame_weaken; [apply (prune_loop_runs B sizes mode target t (S (removable u)) (removable u) 2); lia|done| |done|done].
    intros r v (Hv & j & -> & Hj & Ho & He). split; [done|]. exists j. split_and!; try done; [|lia]. split_and!; [lia|done|].
    intros k Hk. fold target. destruct (decide (k = 1%nat)) as [->|]; [done|]. apply Ho. lia. }
  intros r fs u Hb (Hu & j & -> & Hj & H2 & He). destruct (Z.ltb_spec max (sizes j)) as [Hlt|Hge].
  - apply (blame_raise cap_unmet B (eq u)); [|done|done]. intros v <-. split; [done|]. right. split; [done|]. exists j. split_and!; try done. destruct He as [|[_ ?]]; [lia|done].
  - apply (blame_ret (Some tt) B (eq u)); [|done|done]. intros v <-. split_and!; try done. right. exists j. split; [done|].
    destruct He as [|[_ ?]]; auto.
Qed.

(** Whatever the end. *)
Lemma prune_pruned sizes mode max faults t : history_ok t -> 0 <= max -> pruned t (prune_to_budget sizes mode max faults t).2.
Proof.
  intros Hok Hmax. destruct (prune_spec sizes mode max (fun _ => True) t Hok Hmax faults t) as [_ H]; [done|done|].
  destruct (prune_to_budget sizes mode max faults t) as [[[r|e|] fs] u]; [apply H..|done].
Qed.

(** ** What is read of a connection that is kept *)

Lemma find_filter {A} (f : A -> bool) (P : A -> Prop) `{!forall x, Decision (P x)} (l : list A) :
  (forall x, f x = true <-> P x) -> List.find f l = head (filter P l).
Proof.
  intros Hf. induction l as [|x l IH]; [done|]. cbn [List.find]. rewrite filter_cons. specialize (Hf x).
  destruct (f x), (decide (P x)); naive_solver.
Qed.

Lemma find_id_sublist {A} (l l' : list (Z * A)) i :
  NoDup (map fst l) -> l' `sublist_of` l -> i ∈ map fst l' -> List.find (fun r => r.1 =? i) l' = List.find (fun r => r.1 =? i) l.
Proof.
  intros Hnd Hs Hi. apply list_elem_of_fmap in Hi as (r & -> & Hr). assert (Hall : forall k, k `sublist_of` l -> r ∈ k -> List.find (fun x => x.1 =? r.1) k = Some r).
  { intros k Hk Hin. destruct (List.find _ k) as [x|] eqn:E.
    - apply List.find_some in E as [Hx E%Z.eqb_eq]. f_equal. apply (nodup_key fst l); [done| | |done]; eapply elem_of_sublist; try exact Hk; [|done].
      by apply list_elem_of_In.
    - pose proof (List.find_none _ _ E r (proj1 (list_elem_of_In _ _) Hin)) as Hn. cbv beta in Hn. by rewrite Z.eqb_refl in Hn. }
  rewrite !Hall; try done. by eapply elem_of_sublist.
Qed.

Lemma row_by_id_sublist {A K} (key : A -> K) (l l' : list (Z * A)) i :
  rows_ok key l -> l' `sublist_of` l -> is_Some (row_by_id i l') -> row_by_id i l' = row_by_id i l.
Proof. intros [Hnd _] Hs Hi. unfold row_by_id. f_equal. by apply find_id_sublist, row_by_id_is_some. Qed.

Section kept.
Context (t t' : HistoryTables) (Hok : history_ok t) (Hok' : history_ok t') (P : prunes t t').

Lemma kept_baseline host port : baseline_for host port (ht_db t') = baseline_for host port (ht_db t).
Proof.
  pose proof (ok_baselines _ (hk_db _ Hok)) as Hrows. unfold baseline_for. f_equal.
  destruct (last (merge_sort (row_before bl_created_ns) (filter _ (db_baselines (ht_db t))))) as [r|] eqn:E.
  - apply (last_sorted _) in E as [[Ht Hr]%list_elem_of_filter Hmax].
    assert (Hr' : r ∈ db_baselines (ht_db t')).
    { apply (pu_needed _ _ P r Hr). right. intros a Ha (E1 & E2 & E3). destruct Ht as [T1 T2].
      assert (Hin : row_before bl_created_ns a r) by (apply Hmax, list_elem_of_filter; split; [split; congruence|done]). unfold row_before in Hin. lia. }
    destruct (last (merge_sort (row_before bl_created_ns) (filter _ (db_baselines (ht_db t'))))) as [r'|] eqn:E'.
    + apply (last_sorted _) in E' as [[Ht' Hin']%list_elem_of_filter Hmax']. f_equal. pose proof (elem_of_sublist _ _ _ Hin' (pu_baselines _ _ P)) as Hr't.
      apply (id_unique bl_sha256 _ _ _ Hrows Hr't Hr). specialize (Hmax r' ltac:(by apply list_elem_of_filter)). specialize (Hmax' r ltac:(by apply list_elem_of_filter)).
      unfold row_before in *. lia.
    + apply last_sorted_none in E'. assert (Hf : r ∈ filter (fun r => bl_target_host r.2 = c_str host /\ bl_target_port r.2 = port) (db_baselines (ht_db t')))
        by by apply list_elem_of_filter. rewrite E' in Hf. by apply not_elem_of_nil in Hf.
  - apply last_sorted_none in E. replace (filter _ (db_baselines (ht_db t'))) with ([] : list (Z * Baseline)); [done|]. symmetry. apply elem_of_nil_inv.
    intros r [Ht Hr]%list_elem_of_filter.
    assert (Hf : r ∈ filter (fun r => bl_target_host r.2 = c_str host /\ bl_target_port r.2 = port) (db_baselines (ht_db t)))
      by (apply list_elem_of_filter; split; [done|]; eapply elem_of_sublist; [exact Hr|apply P]).
    rewrite E in Hf. by apply not_elem_of_nil in Hf.
Qed.

Lemma kept_hash c v : db_verdicts (ht_db t') !! c = Some v ->
  List.find (fun r => bool_decide (bl_sha256 r.2 = c_str (vr_baseline_hash v))) (db_baselines (ht_db t')) =
  List.find (fun r => bool_decide (bl_sha256 r.2 = c_str (vr_baseline_hash v))) (db_baselines (ht_db t)).
Proof.
  intros Hv. pose proof (hk_hashes _ Hok' c v Hv) as Hh. unfold text_ok in Hh. rewrite Hh. pose proof (ok_baselines _ (hk_db _ Hok)) as Hrows.
  set (h := vr_baseline_hash v) in *. destruct (List.find _ (db_baselines (ht_db t))) as [r|] eqn:E.
  - apply (find_key_some bl_sha256) in E as [Hr Hk]. assert (Hr' : r ∈ db_baselines (ht_db t')) by (apply (pu_needed _ _ P r Hr); left; eauto).
    destruct (List.find _ (db_baselines (ht_db t'))) as [r'|] eqn:E'; [|by destruct (find_key_none bl_sha256 _ _ _ E' Hr')].
    apply (find_key_some bl_sha256) in E' as [Hin' Hk']. f_equal. apply (key_unique bl_sha256 _ _ _ Hrows); [eapply elem_of_sublist; [exact Hin'|apply P]|done|congruence].
  - destruct (List.find _ (db_baselines (ht_db t'))) as [r'|] eqn:E'; [|done]. apply (find_key_some bl_sha256) in E' as [Hin' Hk'].
    by destruct (find_key_none bl_sha256 _ _ _ E (elem_of_sublist _ _ _ Hin' (pu_baselines _ _ P))).
Qed.

Lemma kept_process c r : connections_of t' !! c = Some r -> process_of_row (ht_db t') (cr_process_id r) = process_of_row (ht_db t) (cr_process_id r).
Proof.
  intros Hc. unfold process_of_row. destruct (cr_process_id r) as [p|] eqn:Ep; [|done].
  rewrite !(find_filter _ (fun q => pr_id q = p)) by (intros; apply Z.eqb_eq). by rewrite (pu_process _ _ P c r p Hc Ep).
Qed.

(** Everything the history can tell of a connection that is kept. *)
Lemma kept_export c : c ∈ dom (connections_of t') -> export_data c (ht_db t') = export_data c (ht_db t).
Proof.
  intros Hc. pose proof (pu_own _ _ P c Hc) as Eown. unfold own_rows in Eown. injection Eown as Ec Es Ev El _ Esm Eev Er _ _ _.
  apply elem_of_dom in Hc as [r Hr]. unfold connections_of in Hr. rewrite Hr in Ec. unfold export_data, connection. rewrite Hr, <- Ec. cbn [fmap option_fmap option_map].
  replace (summary_of (ht_db t') c r) with (summary_of (ht_db t) c r) by (unfold summary_of, states_of; by rewrite Es, (kept_process c r Hr)).
  do 2 f_equal.
  - unfold samples_for_connection. by rewrite Esm.
  - unfold lifecycle_events_for_connection. by rewrite Eev.
  - unfold route_for_connection. by rewrite !(find_filter _ (fun r => rt_connection_id r.2 = c)), Er by (intros; apply Z.eqb_eq).
  - assert (Elk : linked_tls c (ht_db t') = linked_tls c (ht_db t)) by (unfold linked_tls; by rewrite Ev, El). rewrite <- Elk.
    destruct (linked_tls c (ht_db t')) as [i|] eqn:Ei; [|done]. cbn [mbind option_bind]. f_equal.
    apply find_id_sublist; [apply (ok_tls _ (hk_db _ Hok))|apply P|]. unfold linked_tls in Ei.
    destruct (db_verdicts (ht_db t') !! c) as [[? ? ? ? ? ? ? ? ? [k|]]|] eqn:Hv.
    + injection Ei as ->. by apply (proj2 (ok_verdicts _ (hk_db _ Hok') c _ Hv)).
    + by apply (ok_links _ (hk_db _ Hok') c i).
    + by apply (ok_links _ (hk_db _ Hok') c i).
  - unfold verdict_for_connection. rewrite <- Ev. destruct (db_verdicts (ht_db t') !! c) as [v|] eqn:Hv; [|done]. simpl. case_bool_decide; [done|]. f_equal.
    by eapply kept_hash.
  - unfold verdict_for_connection. by rewrite Ev.
Qed.

Lemma kept_names c : c ∈ dom (connections_of t') ->
  name_resolution_evidence_for_connection c (ht_names t') = name_resolution_evidence_for_connection c (ht_names t).
Proof.
  intros Hc. pose proof (pu_own _ _ P c Hc) as Eown. unfold own_rows in Eown. injection Eown as _ _ _ _ _ _ _ _ En Ea _.
  unfold name_resolution_evidence_for_connection. rewrite En. apply map_ext_in. intros r Hr%list_elem_of_In. rewrite merge_sort_Permutation in Hr.
  f_equal. unfold addresses_for. do 2 f_equal. rewrite En in Ea. set (ids := map fst _) in Ea.
  rewrite <- (filter_keep (fun a => a.1.1 = r.1) (fun a => a.1.1 ∈ ids) (nt_addresses (ht_names t'))), Ea, filter_keep; [done| |];
    intros a _ ->; unfold ids; rewrite map_fmap; by apply list_elem_of_fmap_2.
Qed.

Lemma kept_sessions c : c ∈ dom (connections_of t') -> tls_session_evidence_for_connection c (ht_sessions t') = tls_session_evidence_for_connection c (ht_sessions t).
Proof.
  intros Hc. pose proof (pu_own _ _ P c Hc) as Eown. unfold own_rows in Eown. injection Eown as _ _ _ _ _ _ _ _ _ _ Ese.
  unfold tls_session_evidence_for_connection. by rewrite Ese.
Qed.

Lemma kept_environment c : c ∈ dom (connections_of t') ->
  host_network_environment_for_connection c (ht_env t') = host_network_environment_for_connection c (ht_env t).
Proof.
  intros Hc. pose proof (pu_own _ _ P c Hc) as Eown. unfold own_rows in Eown. injection Eown as _ _ _ _ Ee _ _ _ _ _ _.
  destruct (hk_env _ Hok) as [E1 E2 E3 _ _ _]. destruct (hk_env _ Hok') as [_ _ _ E4 E5 E6].
  unfold host_network_environment_for_connection. rewrite <- Ee. destruct (et_links (ht_env t') !! c) as [l|] eqn:Hl; [|done]. cbn [mbind option_bind].
  rewrite <- (row_by_id_sublist _ _ (et_environments (ht_env t')) _ E3 (pu_environments _ _ P) (E6 c l Hl)).
  destruct (row_by_id _ (et_environments (ht_env t'))) as [n|] eqn:Hn; [|done]. cbn [mbind option_bind]. apply row_by_id_some in Hn.
  pose proof (row_by_id_sublist _ _ (et_boots (ht_env t')) _ E2 (pu_boots _ _ P) (E5 _ Hn)) as Eb. cbn [snd] in Eb. rewrite <- Eb.
  destruct (row_by_id _ (et_boots (ht_env t'))) as [b|] eqn:Hb; [|done]. cbn [mbind option_bind]. apply row_by_id_some in Hb.
  pose proof (row_by_id_sublist _ _ (et_hosts (ht_env t')) _ E1 (pu_hosts _ _ P) (E4 _ Hb)) as Eh. cbn [snd] in Eh. by rewrite <- Eh.
Qed.
End kept.


(** C24: Pruning never thins out what it keeps: whatever the sizes of the files, and wherever the run fails or
    is killed, all that the history tells of a connection that is still stored is read as before the run - the
    export with its process, samples, events, route, TLS observation, baseline and verdict, the name and TLS
    session evidence, the host environment -, the baseline in force is the same for every target, and no
    running process is forgotten. *)
Theorem prune_keeps_evidence sizes mode max_bytes faults t r rest t' :
  history_ok t -> 0 <= max_bytes -> prune_to_budget sizes mode max_bytes faults t = (r, rest, t') ->
  (forall c, c ∈ dom (connections_of t') ->
     connections_of t' !! c = connections_of t !! c /\ export_data c (ht_db t') = export_data c (ht_db t) /\
     name_resolution_evidence_for_connection c (ht_names t') = name_resolution_evidence_for_connection c (ht_names t) /\
     tls_session_evidence_for_connection c (ht_sessions t') = tls_session_evidence_for_connection c (ht_sessions t) /\
     host_network_environment_for_connection c (ht_env t') = host_network_environment_for_connection c (ht_env t)) /\
  (forall host port, baseline_for host port (ht_db t') = baseline_for host port (ht_db t)) /\
  forall p, p ∈ ft_instances (ht_findings t) -> in_exited_at_ns p = None -> p ∈ ft_instances (ht_findings t').
Proof.
  intros Hok Hmax E. pose proof (prune_pruned sizes mode max_bytes faults t Hok Hmax) as Hp. rewrite E in Hp. destruct Hp as [Hok' P _]. cbn [snd] in Hok', P. split_and!.
  - intros c Hc. pose proof (pu_own _ _ P c Hc) as Eown. unfold own_rows in Eown. split_and!;
      [by unfold connections_of; congruence|by apply kept_export|by apply kept_names|by apply kept_sessions|by apply kept_environment].
  - intros host port. by apply kept_baseline.
  - apply (pu_running _ _ P).
Qed.


(** ** When it runs *)

(** After a run that succeeded none happens before the interval is over; nothing runs before it is due. *)
Lemma maintenance_spaced sizes mode now m faults t r rest t' :
  run_if_due sizes mode now m faults t = (Done (Some r), rest, t') ->
  match r with
  | (true, m') => sm_next_run m <= now /\ forall sizes' later faults' t2, later < now + sm_interval m ->
      run_if_due sizes' mode later m' faults' t2 = (Done (Some (false, m')), faults', t2)
  | (false, m') => now < sm_next_run m /\ m' = m /\ t' = t
  end.
Proof.
  unfold run_if_due at 1. destruct (Z.ltb_spec now (sm_next_run m)); [by intros [= <- <- <-]|].
  unfold bind. destruct (prune_to_budget _ _ _ faults t) as [[[[[]|]| |] u] v]; [|done..]. intros [= <- <- <-]. split; [done|].
  intros sizes' later faults' t2 Hl. unfold run_if_due. cbn [sm_next_run]. by destruct (Z.ltb_spec later (now + sm_interval m)); [|lia].
Qed.

(** ** Witnesses *)

(** One connection that is being observed, without anything else. *)
Definition one_connection : HistoryTables := MkTables begun (MkNameTables [] []) [] (MkEnvTables [] [] [] ∅) (MkFindingTables [] []).

(** Tables with a history database and nothing else. *)
Lemma tables_of_db_ok d :
  db_ok d -> map_Forall (fun _ v => text_ok (vr_baseline_hash v)) (db_verdicts d) ->
  history_ok (MkTables d (MkNameTables [] []) [] (MkEnvTables [] [] [] ∅) (MkFindingTables [] [])).
Proof.
  intros Hd Hh. split; cbn [ht_db ht_names ht_sessions ht_env ht_findings nt_evidence nt_addresses et_links]; [done| | | | | | | |exact Hh].
  - split_and!; [split; constructor|constructor|]. intros a Ha. by apply not_elem_of_nil in Ha.
  - intros r Hr. by apply not_elem_of_nil in Hr.
  - split; constructor.
  - intros r Hr. by apply not_elem_of_nil in Hr.
  - split; cbn [et_hosts et_boots et_environments et_links]; try (split; constructor).
    + intros b Hb. by apply not_elem_of_nil in Hb.
    + intros n Hn. by apply not_elem_of_nil in Hn.
    + intros c l Hl. by rewrite lookup_empty in Hl.
  - set_solver.
  - split; cbn [ft_instances ft_findings map]; try constructor. intros f Hf. by apply not_elem_of_nil in Hf.
Qed.


(** The files stay over the budget until the connection is gone. *)
Definition shrinking (i : nat) : Z := if Nat.leb i 2 then 500 else 50.


(** A degraded connection and one without a verdict: the second goes, the first is kept with all its evidence. *)
Definition two_connections : HistoryTables :=
  MkTables (db_begin_connection record_socket None "example.net" 1500 Outbound judged).2 (MkNameTables [] []) [] (MkEnvTables [] [] [] ∅) (MkFindingTables [] []).

Lemma two_connections_ok : history_ok two_connections.
Proof.
  apply tables_of_db_ok.
  - apply (reachable_ok (H := sum_digest) 2000). eapply rtc_r; [apply (judged_reachable (H := sum_digest))|apply step_write, step_begin].
  - apply (bool_decide_unpack _). vm_compute. exact I.
Qed.

Lemma prune_keeps_evidence_witness :
  exists t', prune_to_budget shrinking (fun _ => 2) 100 [] two_connections = (Done (Some tt), [], t') /\ 2 ∉ dom (connections_of t') /\
    export_data 1 (ht_db t') = export_data 1 (ht_db two_connections).
Proof.
  assert (Hb : match prune_to_budget shrinking (fun _ => 2) 100 [] two_connections with
    | (Done (Some _), [], t') => bool_decide (1 ∈ dom (connections_of t')) && bool_decide (2 ∉ dom (connections_of t'))
    | _ => false end = true) by (vm_compute; reflexivity).
  destruct (prune_to_budget shrinking (fun _ => 2) 100 [] two_connections) as [[[[[]|]|e|] [|f fs]] t'] eqn:E; try discriminate Hb.
  apply andb_true_iff in Hb as [H1%bool_decide_eq_true H2%bool_decide_eq_true]. exists t'. split; [reflexivity|]. split; [exact H2|].
  refine (proj1 (proj2 (proj1 (prune_keeps_evidence shrinking (fun _ => 2) 100 [] two_connections (Done (Some tt)) [] t' two_connections_ok _ E) 1 H1))).
  lia.
Defined.


(** The run does not ask whether a connection is still observed: the only one, which is active, is deleted, and the next sample of the
    tracker then fails on the foreign key. *)
Example active_connection_pruned :
  match hs_connections (db_store begun) !! 1 with Some r => bool_decide (cr_lifecycle_state r = "ACTIVE") | None => false end = true /\
  match prune_to_budget shrinking (fun _ => 2) 100 [] one_connection with
  | (Done (Some _), _, t') => match db_add_tcp_sample (H := sum_digest) 1 (so_transport record_socket) (ht_db t') with Throw e => bool_decide (e = foreign_key_failed) | Ok _ => false end
  | _ => false
  end = true.
Proof. split; vm_compute; reflexivity. Qed.
