(* ===== verification/Artifacts.v ===== *)
(** Evidence about executed artifacts ([src/core/antimalware.cpp], [src/core/exec_antimalware_monitor.cpp], and
    [scan_executed_artifact] of [src/core/process_finding_runtime.cpp]).

    A provider is a function of the artifact that may throw; what the file system says about a file when an event is handled is a
    [FileView].  The evidence is stored per content, provider and rule set; scans are cached per content for the life of the process.

    The theorems: recording keeps the keys unique and counts every observation ([record_counts], [record_all_counts]); a content is
    scanned at most once and every later event with it records the evidence of that scan ([monitor_scans_once]); the tags of the
    matches are stored and never read ([recent_without_tags]). *)

From stdpp Require Import sorting.
From S2P Require Import Prelude Text StringMap Wire Crypto Model History NameResolution TlsSession Verdict HistoryEvidence HistoryRecords.

#[local] Arguments String.append !_ _ /.

Inductive AntimalwareScanState := Match | NoMatch | ScanError | Unsupported | Inconclusive | NotScanned.

Definition scan_state_to_string (state : AntimalwareScanState) : string :=
  match state with
  | Match => "MATCH" | NoMatch => "NO_MATCH" | ScanError => "SCAN_ERROR" | Unsupported => "UNSUPPORTED" | Inconclusive => "INCONCLUSIVE"
  | NotScanned => "NOT_SCANNED"
  end.

Record ArtifactIdentity := MkArtifact { ar_path : string; ar_sha256 : option string; ar_size : option Z }.
Record AntimalwareMatch := MkMatch { mt_rule_name : string; mt_rule_namespace : string; mt_tags : list string }.
Record AntimalwareEvidence := MkAntimalware {
  ae_provider_name : string; ae_provider_version : string; ae_ruleset_id : string; ae_ruleset_sha256 : string; ae_state : AntimalwareScanState;
  ae_matches : list AntimalwareMatch; ae_detail : string }.

Definition Provider := ArtifactIdentity -> result AntimalwareEvidence.

Fixpoint scan_all (providers : list Provider) (artifact : ArtifactIdentity) : result (list AntimalwareEvidence) :=
  match providers with
  | [] => Ok []
  | p :: providers => let? e := p artifact in let? rest := scan_all providers artifact in Ok (e :: rest)
  end.

(** ** The store *)

Fixpoint escape_tag (tag : string) : string :=
  match tag with
  | EmptyString => ""
  | String c tag => (if Ascii.eqb c "\" || Ascii.eqb c "034" then String "\" (String c "") else String c "") +:+ escape_tag tag
  end.

Definition artifact_tags_json (tags : list string) : string :=
  "[" +:+ String.concat "," (map (fun t => String "034" (escape_tag t) +:+ String "034" "") tags) +:+ "]".

Record EvidenceRow := MkEvidenceRow {
  er_artifact_sha256 : string; er_artifact_path : string; er_artifact_size : option Z; er_provider_name : string; er_provider_version : string;
  er_ruleset_id : string; er_ruleset_sha256 : string; er_scan_state : string; er_detail : string; er_first_observed_ns : Z;
  er_last_observed_ns : Z; er_observation_count : Z }.
Record MatchRow := MkMatchRow {
  mr_artifact_sha256 : string; mr_provider_name : string; mr_ruleset_sha256 : string; mr_rule_name : string; mr_rule_namespace : string;
  mr_tags_json : string }.
Record ArtifactTables := MkArtifactTables { at_evidence : list EvidenceRow; at_matches : list MatchRow }.

Definition evidence_key (r : EvidenceRow) : string * string * string := (er_artifact_sha256 r, er_provider_name r, er_ruleset_sha256 r).
Definition match_key (r : MatchRow) : string * string * string * string * string :=
  (mr_artifact_sha256 r, mr_provider_name r, mr_ruleset_sha256 r, mr_rule_name r, mr_rule_namespace r).

(** [INSERT ... ON CONFLICT(key) DO UPDATE] of a table without an id. *)
Definition merge_row {A K} `{EqDecision K} (key : A -> K) (update : A -> A -> A) (row : A) (rows : list A) : list A :=
  if existsb (fun r => bool_decide (key r = key row)) rows
  then map (fun r => if bool_decide (key r = key row) then update r row else r) rows
  else rows ++ [row].

Definition update_evidence (old new : EvidenceRow) : EvidenceRow :=
  MkEvidenceRow (er_artifact_sha256 old) (er_artifact_path new) (er_artifact_size new) (er_provider_name old) (er_provider_version new)
    (er_ruleset_id new) (er_ruleset_sha256 old) (er_scan_state new) (er_detail new) (er_first_observed_ns old) (er_last_observed_ns new)
    (er_observation_count old + 1).

Definition bind_evidence (sha256 : string) (artifact : ArtifactIdentity) (e : AntimalwareEvidence) (observed_at_ns : Z) : EvidenceRow :=
  MkEvidenceRow (c_str sha256) (c_str (ar_path artifact)) (wrap_s 64 <$> ar_size artifact) (c_str (ae_provider_name e))
    (c_str (ae_provider_version e)) (c_str (ae_ruleset_id e)) (c_str (ae_ruleset_sha256 e)) (scan_state_to_string (ae_state e)) (c_str (ae_detail e))
    (wrap_s 64 observed_at_ns) (wrap_s 64 observed_at_ns) 1.

Definition bind_match (sha256 : string) (e : AntimalwareEvidence) (m : AntimalwareMatch) : MatchRow :=
  MkMatchRow (c_str sha256) (c_str (ae_provider_name e)) (c_str (ae_ruleset_sha256 e)) (c_str (mt_rule_name m)) (c_str (mt_rule_namespace m))
    (c_str (artifact_tags_json (mt_tags m))).

Definition update_match (old new : MatchRow) : MatchRow :=
  MkMatchRow (mr_artifact_sha256 old) (mr_provider_name old) (mr_ruleset_sha256 old) (mr_rule_name old) (mr_rule_namespace old) (mr_tags_json new).

Definition record (artifact : ArtifactIdentity) (e : AntimalwareEvidence) (observed_at_ns : Z) (t : ArtifactTables) : ArtifactTables :=
  match ar_sha256 artifact with
  | None => t
  | Some sha256 =>
      if bool_decide (sha256 = "") then t
      else MkArtifactTables (merge_row evidence_key update_evidence (bind_evidence sha256 artifact e observed_at_ns) (at_evidence t))
             (fold_left (fun rows m => merge_row match_key update_match (bind_match sha256 e m) rows) (ae_matches e) (at_matches t))
  end.

(** ** What is read back *)

Record StoredArtifactEvidence := MkStoredArtifact {
  sa_artifact_sha256 : string; sa_artifact_path : string; sa_artifact_size : Z; sa_provider_name : string; sa_provider_version : string;
  sa_ruleset_id : string; sa_ruleset_sha256 : string; sa_state : string; sa_detail : string; sa_first_observed_ns : Z; sa_last_observed_ns : Z;
  sa_observation_count : Z; sa_matches : list AntimalwareMatch }.

(** [ORDER BY rule_namespace,rule_name] *)
Definition match_before (a b : MatchRow) : Prop :=
  (mr_rule_namespace a <> mr_rule_namespace b /\ String.le (mr_rule_namespace a) (mr_rule_namespace b)) \/
  (mr_rule_namespace a = mr_rule_namespace b /\ String.le (mr_rule_name a) (mr_rule_name b)).
#[global] Instance match_before_dec : RelDecision match_before.
Proof. intros a b. unfold match_before. apply _. Defined.

Definition stored_of_row (matches : list MatchRow) (r : EvidenceRow) : StoredArtifactEvidence :=
  MkStoredArtifact (er_artifact_sha256 r) (er_artifact_path r) (wrap_u 64 (value_or (er_artifact_size r) 0)) (er_provider_name r)
    (er_provider_version r) (er_ruleset_id r) (er_ruleset_sha256 r) (er_scan_state r) (er_detail r) (wrap_u 64 (er_first_observed_ns r))
    (wrap_u 64 (er_last_observed_ns r)) (wrap_u 64 (er_observation_count r))
    (map (fun m => MkMatch (mr_rule_name m) (mr_rule_namespace m) [])
       (merge_sort match_before (filter (fun m => mr_artifact_sha256 m = er_artifact_sha256 r /\ mr_provider_name m = er_provider_name r /\
                                                  mr_ruleset_sha256 m = er_ruleset_sha256 r) matches))).

(** [ORDER BY last_observed_ns DESC LIMIT ?] *)
Definition recent (limit : Z) (t : ArtifactTables) : list StoredArtifactEvidence :=
  map (stored_of_row (at_matches t)) (sql_limit (wrap_s 64 limit) (rev (order_by er_last_observed_ns (at_evidence t)))).

(** ** Scanning what is executed *)

(** [file_size] without an error, and how [sha256_file_hex] ends. *)
Record FileView := MkFileView { fv_size : option Z; fv_sha256 : result string }.

#[local] Notation Cache := (gmap string (list AntimalwareEvidence)).

Definition scan_cached (providers : list Provider) (artifact : ArtifactIdentity) (sha256 : string) (cache : Cache) :
    result (list AntimalwareEvidence * bool * Cache) :=
  match cache !! sha256 with
  | Some evidence => Ok (evidence, true, cache)
  | None => let? evidence := scan_all providers artifact in Ok (evidence, false, <[sha256 := evidence]> cache)
  end.

Definition record_all (artifact : ArtifactIdentity) (evidence : list AntimalwareEvidence) (t : Z) (tables : ArtifactTables) : ArtifactTables :=
  fold_left (fun tables e => record artifact e t tables) evidence tables.

(** [ProcessFindingRuntime::scan_executed_artifact]: a file that cannot be hashed is passed over. *)
Definition scan_executed_artifact (providers : list Provider) (event : ProcessExecEvent) (view : FileView) (cache : Cache) (t : ArtifactTables) :
    result (Cache * ArtifactTables) :=
  if negb (bool_decide (pe_type event = Start)) || bool_decide (pe_executable_path event = "") || (length providers =? 0)%nat then Ok (cache, t)
  else
    match fv_sha256 view with
    | Throw _ => Ok (cache, t)
    | Ok sha256 =>
        let artifact := MkArtifact (pe_executable_path event) (Some sha256) (fv_size view) in
        let? scanned := scan_cached providers artifact sha256 cache in
        let '(evidence, _, cache) := scanned : list AntimalwareEvidence * bool * Cache in
        Ok (cache, record_all artifact evidence (pe_timestamp_ns event) t)
    end.

Record ExecAntimalwareResult := MkExecResult {
  xr_exec : ProcessExecEvent; xr_artifact : ArtifactIdentity; xr_evidence : list AntimalwareEvidence; xr_cache_hit : bool }.

Definition hash_error (what : string) : AntimalwareEvidence := MkAntimalware "neta-artifact" "" "" "" ScanError [] what.

(** [ExecAntimalwareMonitor::poll] on the events that were polled; [stored] says whether there is an evidence store. *)
Fixpoint poll (providers : list Provider) (stored : bool) (events : list (ProcessExecEvent * FileView)) (cache : Cache) (t : ArtifactTables) :
    result (list ExecAntimalwareResult * Cache * ArtifactTables) :=
  match events with
  | [] => Ok ([], cache, t)
  | (event, view) :: events =>
      if negb (bool_decide (pe_type event = Start)) || bool_decide (pe_executable_path event = "") then poll providers stored events cache t
      else
        let artifact sha256 := MkArtifact (pe_executable_path event) sha256 (fv_size view) in
        match fv_sha256 view with
        | Throw what =>
            let? rest := poll providers stored events cache t in
            let '(results, cache, t) := rest : list ExecAntimalwareResult * Cache * ArtifactTables in
            Ok (MkExecResult event (artifact None) [hash_error what] false :: results, cache, t)
        | Ok sha256 =>
            let? scanned := scan_cached providers (artifact (Some sha256)) sha256 cache in
            let '(evidence, hit, cache) := scanned : list AntimalwareEvidence * bool * Cache in
            let t := if stored then record_all (artifact (Some sha256)) evidence (pe_timestamp_ns event) t else t in
            let? rest := poll providers stored events cache t in
            let '(results, cache, t) := rest : list ExecAntimalwareResult * Cache * ArtifactTables in
            Ok (MkExecResult event (artifact (Some sha256)) evidence hit :: results, cache, t)
        end
  end.

(** ** Recording counts *)

Record artifacts_ok (t : ArtifactTables) : Prop := {
  ao_evidence : NoDup (map evidence_key (at_evidence t));
  ao_matches : NoDup (map match_key (at_matches t)) }.

(** How often a content was observed with a provider and a rule set. *)
Definition observations (k : string * string * string) (t : ArtifactTables) : Z :=
  match List.find (fun r => bool_decide (evidence_key r = k)) (at_evidence t) with Some r => er_observation_count r | None => 0 end.

Section merge.
Context {A K : Type} `{EqDecision K} (key : A -> K) (update : A -> A -> A).
Context (Hkey : forall old new, key (update old new) = key old).

Lemma merge_row_keys row rows :
  map key (merge_row key update row rows) = (if bool_decide (key row ∈ map key rows) then map key rows else map key rows ++ [key row]).
Proof.
  unfold merge_row. assert (E : existsb (fun r => bool_decide (key r = key row)) rows = bool_decide (key row ∈ map key rows)).
  { apply Bool.eq_iff_eq_true. rewrite existsb_exists, bool_decide_eq_true, map_fmap, list_elem_of_fmap. split.
    - intros (x & Hx & E%bool_decide_eq_true). exists x. split; [done|by apply list_elem_of_In].
    - intros (x & E & Hx). exists x. split; [by apply list_elem_of_In|by apply bool_decide_eq_true]. }
  rewrite E. case_bool_decide; [|by rewrite map_app]. rewrite map_map. apply map_ext. intros x. by case_bool_decide.
Qed.

Lemma merge_row_nodup row rows : NoDup (map key rows) -> NoDup (map key (merge_row key update row rows)).
Proof.
  intros Hn. rewrite merge_row_keys. case_bool_decide; [done|]. apply NoDup_app. split_and!; [done| |apply NoDup_singleton].
  intros x Hx E%list_elem_of_singleton. by subst x.
Qed.

Lemma find_updated k row rows :
  List.find (fun r => bool_decide (key r = k)) (map (fun r => if bool_decide (key r = key row) then update r row else r) rows) =
  (fun r => if bool_decide (key r = key row) then update r row else r) <$> List.find (fun r => bool_decide (key r = k)) rows.
Proof.
  induction rows as [|r rows IH]; [done|]. simpl. replace (key (if bool_decide (key r = key row) then update r row else r)) with (key r)
    by (by case_bool_decide). case_bool_decide; [done|exact IH].
Qed.

Lemma find_merged k row rows :
  List.find (fun r => bool_decide (key r = k)) (merge_row key update row rows) =
    match List.find (fun r => bool_decide (key r = k)) rows with
    | Some r => Some (if bool_decide (k = key row) then update r row else r)
    | None => if bool_decide (k = key row) then Some row else None
    end.
Proof.
  assert (Hsome : forall r, List.find (fun r => bool_decide (key r = k)) rows = Some r -> key r = k)
    by (intros r [_ Hr]%List.find_some; by apply bool_decide_eq_true in Hr).
  unfold merge_row. destruct (existsb _ rows) eqn:E.
  - rewrite find_updated. destruct (List.find _ rows) as [r|] eqn:Hf; simpl; [by rewrite (Hsome r)|].
    case_bool_decide as Hk; [|done]. exfalso. apply existsb_exists in E as (x & Hx & Hxk). pose proof (List.find_none _ _ Hf _ Hx) as Hn.
    simpl in Hn. rewrite Hk in Hn. congruence.
  - rewrite find_past. destruct (List.find _ rows) as [r|] eqn:Hf; simpl.
    + case_bool_decide as Hk; [|done]. exfalso. apply List.find_some in Hf as [Hx Hr]. assert (existsb (fun r => bool_decide (key r = key row)) rows = true) as E'
        by (apply existsb_exists; exists r; rewrite <- Hk; done). congruence.
    + repeat case_bool_decide; congruence.
Qed.
End merge.

Lemma record_ok a e ns t : artifacts_ok t -> artifacts_ok (record a e ns t).
Proof.
  intros [He Hm]. unfold record. destruct (ar_sha256 a) as [s|]; [|done]. case_bool_decide; [done|]. split; cbn [at_evidence at_matches].
  - by apply merge_row_nodup.
  - clear He. revert Hm. generalize (at_matches t). induction (ae_matches e) as [|m l IH]; intros rows Hm; [done|]. simpl.
    apply IH. by apply merge_row_nodup.
Qed.

(** The key under which the evidence about an artifact is stored, if it is stored. *)
Definition recorded_key (a : ArtifactIdentity) (e : AntimalwareEvidence) : option (string * string * string) :=
  match ar_sha256 a with
  | Some s => if bool_decide (s = "") then None else Some (c_str s, c_str (ae_provider_name e), c_str (ae_ruleset_sha256 e))
  | None => None
  end.

Lemma record_counts a e ns t k :
  observations k (record a e ns t) = observations k t + (if bool_decide (recorded_key a e = Some k) then 1 else 0).
Proof.
  unfold record, recorded_key. destruct (ar_sha256 a) as [s|]; [|by rewrite Z.add_0_r]. case_bool_decide; [by rewrite Z.add_0_r|].
  unfold observations. cbn [at_evidence]. rewrite find_merged by done.
  change (evidence_key (bind_evidence s a e ns)) with (c_str s, c_str (ae_provider_name e), c_str (ae_ruleset_sha256 e)).
  set (key := (c_str s, _, _)). destruct (decide (k = key)) as [->|Hne].
  - rewrite !bool_decide_true by done. destruct (List.find _ _); simpl; lia.
  - rewrite !bool_decide_false by congruence. destruct (List.find _ _); lia.
Qed.

Lemma record_all_counts a es ns t k : artifacts_ok t -> artifacts_ok (record_all a es ns t) /\
  observations k (record_all a es ns t) = observations k t + Z.of_nat (length (filter (fun e => recorded_key a e = Some k) es)).
Proof.
  unfold record_all. revert t. induction es as [|e es IH]; intros t Hok; simpl; [split; [done|lia]|].
  destruct (IH _ (record_ok a e ns t Hok)) as [Hok' ->]. split; [done|]. rewrite record_counts, filter_cons.
  destruct (decide (recorded_key a e = Some k)); [rewrite bool_decide_true by done|rewrite bool_decide_false by done]; cbn [length]; lia.
Qed.

(** ** The tags of a match *)

Lemma recent_without_tags limit t a m : a ∈ recent limit t -> m ∈ sa_matches a -> mt_tags m = [].
Proof.
  unfold recent. rewrite map_fmap. intros (r & -> & _)%list_elem_of_fmap. unfold stored_of_row. cbn [sa_matches]. rewrite map_fmap.
  by intros (x & -> & _)%list_elem_of_fmap.
Qed.

(** ** Scans are cached *)

Lemma scan_cached_spec providers a s cache evidence hit cache' :
  scan_cached providers a s cache = Ok (evidence, hit, cache') ->
  cache' !! s = Some evidence /\ (forall x ev, cache !! x = Some ev -> cache' !! x = Some ev) /\
  (hit = false -> cache !! s = None /\ scan_all providers a = Ok evidence).
Proof.
  unfold scan_cached. destruct (cache !! s) as [ev|] eqn:E.
  - intros [= <- <- <-]. done.
  - destruct (scan_all providers a) as [ev|] eqn:Es; [|done]. cbn [rbind]. intros [= <- <- <-]. split_and!; [by rewrite lookup_insert_eq| |done].
    intros x ev' Hx. destruct (decide (x = s)) as [->|]; [congruence|by rewrite lookup_insert_ne].
Qed.

Definition missed (r : ExecAntimalwareResult) : option string := if xr_cache_hit r then None else ar_sha256 (xr_artifact r).

(** A poll of the monitor: every content is scanned once, its evidence is then taken from the cache, which never loses an entry; there is one
    result for every start of an executable with a path, in order, and the tables keep their keys. *)
Theorem monitor_scans_once providers stored events cache t results cache' t' :
  poll providers stored events cache t = Ok (results, cache', t') ->
  (forall s ev, cache !! s = Some ev -> cache' !! s = Some ev) /\
  (forall r s, r ∈ results -> ar_sha256 (xr_artifact r) = Some s -> cache' !! s = Some (xr_evidence r)) /\
  (forall r s, r ∈ results -> missed r = Some s -> cache !! s = None /\ scan_all providers (xr_artifact r) = Ok (xr_evidence r)) /\
  NoDup (omap missed results) /\
  map xr_exec results = map fst (filter (fun e => pe_type e.1 = Start /\ pe_executable_path e.1 <> "") events) /\
  (artifacts_ok t -> artifacts_ok t') /\ (stored = false -> t' = t).
Proof.
  revert cache t results. induction events as [|[event view] events IH]; intros cache t results; cbn [poll].
  { intros [= <- <- <-]. split_and!; try done; try constructor; intros; by apply not_elem_of_nil in H. }
  destruct (bool_decide (pe_type event = Start)) eqn:Hty; cbn [negb orb]; rewrite filter_cons; cbn [fst].
  2:{ apply bool_decide_eq_false in Hty. rewrite decide_False by (by intros [? _]). apply IH. }
  apply bool_decide_eq_true in Hty. destruct (bool_decide (pe_executable_path event = "")) eqn:Hpath.
  { apply bool_decide_eq_true in Hpath. rewrite decide_False by (by intros [_ ?]). apply IH. }
  apply bool_decide_eq_false in Hpath. rewrite decide_True by done. destruct (fv_sha256 view) as [s|what].
  - set (a := MkArtifact _ (Some s) _). destruct (scan_cached providers a s cache) as [[[evidence hit] cache1]|] eqn:Es; [|done]. cbn [rbind].
    apply scan_cached_spec in Es as (Hs & Hkeep & Hmiss).
    set (t1 := if stored then _ else _). destruct (poll providers stored events cache1 t1) as [[[rest cache2] t2]|] eqn:Ep; [|done].
    cbn [rbind]. intros E. assert (results = MkExecResult event a evidence hit :: rest) as -> by congruence.
    assert (cache2 = cache' /\ t2 = t') as [-> ->] by (split; congruence). clear E.
    destruct (IH _ _ _ Ep) as (I1 & I2 & I3 & I4 & I5 & I6 & I7). split_and!.
    + intros x ev Hx. by apply I1, Hkeep.
    + intros r x [->|Hr]%elem_of_cons; [|by apply I2]. simpl. intros [= <-]. by apply I1.
    + intros r x [->|Hr]%elem_of_cons.
      * unfold missed. cbn [xr_cache_hit xr_artifact xr_evidence]. destruct hit; [done|]. intros [= <-]. by apply Hmiss.
      * intros Hm. destruct (I3 r x Hr Hm) as [Hn Hsc]. split; [|done]. destruct (cache !! x) eqn:Ex; [|done]. by rewrite (Hkeep _ _ Ex) in Hn.
    + simpl. unfold missed at 1. cbn [xr_cache_hit xr_artifact]. destruct hit; [done|]. simpl. apply NoDup_cons. split; [|done].
      intros (r & Hr & Hm)%list_elem_of_omap. destruct (I3 r s Hr Hm) as [Hn _]. congruence.
    + simpl. by rewrite I5.
    + intros Hok. apply I6. unfold t1. destruct stored; [|done]. by apply (record_all_counts a evidence _ t ("", "", "")).
    + intros ->. unfold t1 in I7. by apply I7.
  - destruct (poll providers stored events cache t) as [[[rest cache2] t2]|] eqn:Ep; [|done]. cbn [rbind]. intros E.
    assert (results = MkExecResult event (MkArtifact (pe_executable_path event) None (fv_size view)) [hash_error what] false :: rest) as -> by congruence.
    assert (cache2 = cache' /\ t2 = t') as [-> ->] by (split; congruence). clear E.
    destruct (IH _ _ _ Ep) as (I1 & I2 & I3 & I4 & I5 & I6 & I7). split_and!; try done.
    + intros r x [->|Hr]%elem_of_cons; [done|by apply I2].
    + intros r x [->|Hr]%elem_of_cons; [done|by apply I3].
    + simpl. by rewrite I5.
Qed.
