(* ===== verification/Transfer.v ===== *)
(** Transfer assurance ([include/neta/transfer_assurance.hpp]): how many bytes a connection has moved,
    and findings about large downloads.

    The evidence table keeps one row per connection, updated by a conflict clause; [Rows] is the table
    and the connections of the history are an argument.  SQLite compares signed numbers, so that the
    columns hold 64-bit counters as signed ones.

    The theorems: over any sequence of observations the table holds the largest counters, and a finding
    appears exactly when the largest number of received bytes reaches the minimum
    ([large_ingress_exact]); a process name with a control character makes the line in the findings
    file unreadable ([control_character_unreadable]). *)

From stdpp Require Import gmap.
From S2P Require Import Prelude Text Wire StringMap Doubles Json JsonGrammar Crypto Model History NapSequence OutboundQueue Dispatcher Rules RuleUpdate JsonPrint Announcement.

#[local] Arguments String.append !_ _ /.

(** ** Evidence *)

Record ConnectionTransferEvidence := MkTransferEvidence {
  te_connection_id : Z; te_observed_ns : Z; te_bytes_sent : Z; te_bytes_received : Z; te_source : string; te_fidelity : EvidenceFidelity }.

(** A row of [connection_transfer_evidence]. *)
Record TransferRow := MkTransferRow {
  tw_observed_ns : Z; tw_bytes_sent : Z; tw_bytes_received : Z; tw_source : string; tw_fidelity : string }.

Abbreviation Rows := (gmap Z TransferRow).

(** The conflict clause. *)
Definition merge_row (old new : TransferRow) : TransferRow :=
  MkTransferRow (if tw_observed_ns old <? tw_observed_ns new then tw_observed_ns new else tw_observed_ns old)
    (if tw_bytes_sent old <? tw_bytes_sent new then tw_bytes_sent new else tw_bytes_sent old)
    (if tw_bytes_received old <? tw_bytes_received new then tw_bytes_received new else tw_bytes_received old)
    (tw_source new) (tw_fidelity new).

(** [TransferEvidenceStore::observe]; [known] are the ids of the table of connections, to which the
    foreign key refers. *)
Definition transfer_observe (known : Z -> bool) (connection_id : Z) (sample : TcpSnapshot) (rows : Rows) : result Rows :=
  match ts_bytes_sent sample, ts_bytes_received sample with
  | Some sent, Some received =>
      if bool_decide (ts_transfer_source sample = "") then Ok rows
      else
        let row := MkTransferRow (wrap_s 64 (ts_observed_ns sample)) (wrap_s 64 sent) (wrap_s 64 received)
                     (c_str (ts_transfer_source sample)) (fidelity_to_string (ts_transfer_fidelity sample)) in
        match rows !! connection_id with
        | Some old => Ok (<[connection_id := merge_row old row]> rows)
        | None => if known connection_id then Ok (<[connection_id := row]> rows) else Throw "FOREIGN KEY constraint failed"
        end
  | _, _ => Ok rows
  end.

Definition fidelity_of_text (fidelity : string) : EvidenceFidelity :=
  if bool_decide (fidelity = "EXACT") then Exact
  else if bool_decide (fidelity = "STRONGLY_CORRELATED") then StronglyCorrelated
  else if bool_decide (fidelity = "SUPPORTING") then Supporting
  else Contextual.

Definition latest (connection_id : Z) (rows : Rows) : option ConnectionTransferEvidence :=
  (fun row => MkTransferEvidence connection_id (wrap_u 64 (tw_observed_ns row)) (wrap_u 64 (tw_bytes_sent row))
                (wrap_u 64 (tw_bytes_received row)) (tw_source row) (fidelity_of_text (tw_fidelity row))) <$> rows !! connection_id.

(** ** Sampling *)

Record TransferSampler := MkSampler { sm_minimum_interval_ns : Z; sm_last_capture : option Z }.

Definition same_tuple (socket : SocketObservation) (connection : ConnectionSummary) : bool :=
  bool_decide (cs_local_ip connection = so_local_ip socket) && (cs_local_port connection =? so_local_port socket) &&
  bool_decide (cs_remote_ip connection = so_remote_ip socket) && (cs_remote_port connection =? so_remote_port socket).

(** The newest of the recent connections with the addresses of the socket, the first one listed among
    equally new ones. *)
Definition sampler_match (recent : list ConnectionSummary) (socket : SocketObservation) : option ConnectionSummary :=
  fold_left (fun best connection =>
    if negb (same_tuple socket connection) then best
    else match best with
         | Some b => if cs_first_seen_ns b <? cs_first_seen_ns connection then Some connection else best
         | None => Some connection
         end) recent None.

Fixpoint sample_sockets (known : Z -> bool) (recent : list ConnectionSummary) (sockets : list SocketObservation) (rows : Rows) : result Rows :=
  match sockets with
  | [] => Ok rows
  | socket :: sockets =>
      let? rows :=
        match ts_bytes_sent (so_transport socket), ts_bytes_received (so_transport socket) with
        | Some _, Some _ =>
            if negb (bool_decide (so_endpoint_kind socket = Connection)) then Ok rows
            else match sampler_match recent socket with
                 | Some connection => transfer_observe known (cs_id connection) (so_transport socket) rows
                 | None => Ok rows
                 end
        | _, _ => Ok rows
        end in
      sample_sockets known recent sockets rows
  end.

(** [recent] and [sockets] are what [recent_connections(1024)] and [snapshot()] return. *)
Definition capture (known : Z -> bool) (now : Z) (force : bool) (recent : list ConnectionSummary) (sockets : list SocketObservation)
    (sampler : TransferSampler) (rows : Rows) : TransferSampler * result Rows :=
  let early := match sm_last_capture sampler with Some last => now - last <? sm_minimum_interval_ns sampler | None => false end in
  if negb force && early then (sampler, Ok rows)
  else (MkSampler (sm_minimum_interval_ns sampler) (Some now), sample_sockets known recent sockets rows).

(** ** Large downloads *)

Definition bytes_per_mib : Z := 1024 * 1024.

(** [std::stoull(value, &consumed, 10)] with [consumed == value.size()]. *)
Definition stoull_whole (value : string) : result Z :=
  let? n := stoull value in
  let s := drop_while isspace value in
  let s := match s with String c s' => if (code c =? 45) || (code c =? 43) then s' else s | EmptyString => s end in
  if bool_decide (drop_while isdigit s = "") then Ok n else Throw "invalid range".

(** [raw] is the environment variable [NETA_LARGE_INGRESS_MIN_MIB]. *)
Definition configured_large_ingress_minimum_bytes (raw : option string) : result Z :=
  match raw with
  | None | Some EmptyString => Ok (256 * bytes_per_mib)
  | Some value =>
      match stoull_whole value with
      | Ok mib => if u64_max / bytes_per_mib <? mib then Throw "NETA_LARGE_INGRESS_MIN_MIB must be a non-negative whole number of MiB"
                  else Ok (mib * bytes_per_mib)
      | Throw _ => Throw "NETA_LARGE_INGRESS_MIN_MIB must be a non-negative whole number of MiB"
      end
  end.

Record LargeIngressFinding := MkIngress {
  lf_type : string; lf_severity : string; lf_confidence : spec_float; lf_malicious_intent : string; lf_connection_id : Z;
  lf_process_name : string; lf_process_identity : string; lf_host : string; lf_port : Z; lf_bytes_sent : Z; lf_bytes_received : Z;
  lf_source : string; lf_fidelity : EvidenceFidelity; lf_finding_key : string; lf_finding_id : string; lf_evidence_root : string;
  lf_interpretation : string; lf_rule_id : string; lf_semantic_type : string; lf_rule_set_id : string; lf_rule_set_version : string;
  lf_rule_set_revision : Z; lf_minimum_bytes_received : Z }.

Definition nonempty (s : string) : bool := negb (bool_decide (s = "")).

Definition ingress_identity (connection : ConnectionSummary) : string :=
  if nonempty (pi_executable_path (cs_process connection)) then "exe=" +:+ pi_executable_path (cs_process connection)
  else if nonempty (pi_comm (cs_process connection)) then "comm=" +:+ pi_comm (cs_process connection) else "unknown".

Definition ingress_confidence (fidelity : EvidenceFidelity) : spec_float :=
  match fidelity with Exact => decimal_value false 1 0 | StronglyCorrelated => decimal_value false 9 (-1) | _ => decimal_value false 7 (-1) end.

Section detect.
Context `{Sha256}.

Definition ingress_evidence (connection_id : Z) (t : ConnectionTransferEvidence) : string :=
  "LARGE_INGRESS_TRANSFER" +:+ "|connection=" +:+ to_string connection_id +:+ "|received=" +:+ to_string (te_bytes_received t) +:+
  "|sent=" +:+ to_string (te_bytes_sent t) +:+ "|source=" +:+ te_source t.

Definition ingress_finding (connection : ConnectionSummary) (connection_id : Z) (t : ConnectionTransferEvidence) : LargeIngressFinding :=
  let host := if nonempty (cs_target_host connection) then cs_target_host connection else cs_remote_ip connection in
  let evidence_root := "sha256:" +:+ sha256_hex (ingress_evidence connection_id t) in
  MkIngress "LARGE_INGRESS_TRANSFER" "LOW" (ingress_confidence (te_fidelity t)) "UNKNOWN" connection_id
    (if nonempty (pi_comm (cs_process connection)) then pi_comm (cs_process connection) else pi_executable_path (cs_process connection))
    (ingress_identity connection) host (cs_remote_port connection) (te_bytes_sent t) (te_bytes_received t) (te_source t) (te_fidelity t)
    ("sha256:" +:+ sha256_hex ("LARGE_INGRESS_TRANSFER" +:+ "|" +:+ ingress_identity connection +:+ "|" +:+ host +:+ ":" +:+ to_string (cs_remote_port connection)))
    ("FINDING-TRANSFER-" +:+ substr (substr_from evidence_root 7) 0 12) evidence_root
    ("A process received a large volume of TCP data from a remote endpoint during a single " +:+
     "connection. Malicious intent is not established.")
    "" "LARGE_INGRESS_TRANSFER" "" "" 0 0.

(** [connection] is what [history.connection(connection_id)] returns. *)
Definition detect_large_ingress (connection : option ConnectionSummary) (rows : Rows) (connection_id minimum_bytes_received : Z) :
    option LargeIngressFinding :=
  if minimum_bytes_received =? 0 then None
  else
    match connection with
    | None => None
    | Some connection =>
        if negb (bool_decide (cs_direction connection = Outbound)) then None
        else
          match latest connection_id rows with
          | None => None
          | Some transfer =>
              if te_bytes_received transfer <? minimum_bytes_received then None
              else Some (ingress_finding connection connection_id transfer)
          end
    end.

End detect.

(** ** Texts *)

(** [transfer_detail::json_escape] *)
Definition transfer_escape_char (c : ascii) : string :=
  if Ascii.eqb c "\" then "\\"
  else if Ascii.eqb c "034" then "\" +:+ quote
  else if code c =? 10 then "\n"
  else if code c =? 13 then "\r"
  else if code c =? 9 then "\t"
  else String c "".
Fixpoint transfer_escape (s : string) : string :=
  match s with EmptyString => "" | String c s => transfer_escape_char c +:+ transfer_escape s end.

(** The members of the line in order; [raw] are printed as they are. *)
Definition ingress_members (f : LargeIngressFinding) (created_epoch : Z) : list (string * string) :=
  let text s := quoted (transfer_escape s) in
  [("finding_id", text (lf_finding_id f)); ("finding_key", text (lf_finding_key f)); ("type", quoted (lf_type f));
   ("severity", quoted (lf_severity f)); ("confidence", general_text 6 (lf_confidence f)); ("malicious_intent", quoted (lf_malicious_intent f));
   ("process", text (lf_process_name f)); ("host", text (lf_host f)); ("port", to_string (lf_port f));
   ("connection_id", to_string (lf_connection_id f)); ("bytes_sent", to_string (lf_bytes_sent f));
   ("bytes_received", to_string (lf_bytes_received f)); ("transfer_source", text (lf_source f));
   ("transfer_fidelity", quoted (fidelity_to_string (lf_fidelity f))); ("evidence_root", quoted (lf_evidence_root f));
   ("interpretation", text (lf_interpretation f)); ("rule_id", text (lf_rule_id f)); ("semantic_type", text (lf_semantic_type f));
   ("rule_set_id", text (lf_rule_set_id f)); ("rule_set_version", text (lf_rule_set_version f));
   ("rule_set_revision", to_string (lf_rule_set_revision f)); ("minimum_bytes_received", to_string (lf_minimum_bytes_received f));
   ("created_epoch", to_string created_epoch)].

(** The line [persist] appends. *)
Definition ingress_line (f : LargeIngressFinding) (created_epoch : Z) : string :=
  "{" +:+ String.concat "," (map (fun '(k, v) => field k v) (ingress_members f created_epoch)) +:+ "}" +:+ newline.

Definition ingress_announcement (f : LargeIngressFinding) : FindingAnnouncementInput :=
  MkFinding (lf_finding_id f) (lf_finding_key f) (lf_host f) (lf_port f) "tcp" "" "" None None "" "" "" "" (lf_rule_id f)
    (lf_rule_set_id f) (lf_rule_set_version f) ""
    ["Finding type: " +:+ lf_type f; "Severity: " +:+ lf_severity f; "Confidence: " +:+ fixed_text 2 (lf_confidence f);
     "Malicious intent: " +:+ lf_malicious_intent f; "Process: " +:+ lf_process_name f; "Connection: CONN-" +:+ to_string (lf_connection_id f);
     "Bytes received: " +:+ to_string (lf_bytes_received f); "Bytes sent: " +:+ to_string (lf_bytes_sent f);
     "Transfer source: " +:+ lf_source f; "Transfer fidelity: " +:+ fidelity_to_string (lf_fidelity f); lf_interpretation f]
    "INSUFFICIENT_EVIDENCE" "UNVERIFIED" (lf_evidence_root f).

(** ** What the table holds *)

Fixpoint observe_all (known : Z -> bool) (ops : list (Z * TcpSnapshot)) (rows : Rows) : result Rows :=
  match ops with
  | [] => Ok rows
  | (id, sample) :: ops => let? rows := transfer_observe known id sample rows in observe_all known ops rows
  end.

(** The samples of a connection that carry both counters and name their source. *)
Definition usable (sample : TcpSnapshot) : bool :=
  has (ts_bytes_sent sample) && has (ts_bytes_received sample) && nonempty (ts_transfer_source sample).
Definition samples_of (id : Z) (ops : list (Z * TcpSnapshot)) : list TcpSnapshot :=
  map snd (passing (fun op => (op.1 =? id) && usable op.2) ops).

Definition sent (sample : TcpSnapshot) : Z := value_or (ts_bytes_sent sample) 0.
Definition received (sample : TcpSnapshot) : Z := value_or (ts_bytes_received sample) 0.
Definition peak (f : TcpSnapshot -> Z) (samples : list TcpSnapshot) : Z := fold_left Z.max (map f samples) 0.

Definition row_of (samples : list TcpSnapshot) : option TransferRow :=
  (fun s => MkTransferRow (peak ts_observed_ns samples) (peak sent samples) (peak received samples)
              (c_str (ts_transfer_source s)) (fidelity_to_string (ts_transfer_fidelity s))) <$> last samples.

Lemma peak_snoc f l s : peak f (l ++ [s]) = Z.max (peak f l) (f s).
Proof. unfold peak. by rewrite map_app, fold_left_app. Qed.

Lemma max_if a b : (if a <? b then b else a) = Z.max a b.
Proof. destruct (a <? b) eqn:E; to_prop; lia. Qed.

Lemma samples_of_snoc id ops id' s :
  samples_of id (ops ++ [(id', s)]) = samples_of id ops ++ (if (id' =? id) && usable s then [s] else []).
Proof. unfold samples_of, passing. rewrite filter_app, map_app. f_equal. cbn. destruct ((id' =? id) && usable s); done. Qed.

Lemma observe_all_app known ops ops' rows :
  observe_all known (ops ++ ops') rows = rbind (observe_all known ops rows) (observe_all known ops').
Proof.
  revert rows. induction ops as [|[id s] ops IH]; intros rows; [done|]. cbn [observe_all app].
  destruct (transfer_observe known id s rows); cbn [rbind]; [apply IH|done].
Qed.

(** The row of one sample, and the row after one more. *)
Definition plain_row (s : TcpSnapshot) : TransferRow :=
  MkTransferRow (ts_observed_ns s) (sent s) (received s) (c_str (ts_transfer_source s)) (fidelity_to_string (ts_transfer_fidelity s)).
Definition next_row (old : option TransferRow) (s : TcpSnapshot) : TransferRow :=
  match old with Some old => merge_row old (plain_row s) | None => plain_row s end.

Definition sample_ok (s : TcpSnapshot) : Prop := 0 <= ts_observed_ns s < 2 ^ 63 /\ 0 <= sent s < 2 ^ 63 /\ 0 <= received s < 2 ^ 63.

Lemma row_of_snoc l s : sample_ok s -> row_of (l ++ [s]) = Some (next_row (row_of l) s).
Proof.
  intros (Ho & Hs & Hr). unfold row_of. rewrite last_snoc, !peak_snoc. cbn [fmap option_fmap option_map]. f_equal.
  destruct (last l) as [t|] eqn:El.
  - unfold next_row, merge_row. cbn. by rewrite !max_if.
  - apply last_None in El as ->. unfold next_row, plain_row, peak. cbn. f_equal; lia.
Qed.

Lemma observe_usable known id s rows :
  sample_ok s -> known id = true ->
  transfer_observe known id s rows = Ok (if usable s then <[id := next_row (rows !! id) s]> rows else rows).
Proof.
  intros (Ho & Hs & Hr) Hk. unfold transfer_observe, usable, next_row, plain_row, nonempty, sent, received in *.
  destruct (ts_bytes_sent s) as [n|], (ts_bytes_received s) as [r|]; try done. cbn in *. case_bool_decide; [done|].
  rewrite !wrap_s_id by (done || unfold in_s; cbn in *; lia). rewrite Hk. by destruct (rows !! id).
Qed.

Lemma observe_all_rows known ops :
  Forall (fun op => sample_ok op.2) ops -> Forall (fun op => known op.1 = true) ops ->
  exists rows, observe_all known ops ∅ = Ok rows /\ forall id, rows !! id = row_of (samples_of id ops).
Proof.
  induction ops as [|[id s] ops IH] using rev_ind; intros Hc Hk; [exists ∅; split; [done|intros id; by rewrite lookup_empty]|].
  apply Forall_app in Hc as [Hc [Hs _]%Forall_cons]. apply Forall_app in Hk as [Hk [Hid _]%Forall_cons]. cbn [fst snd] in *.
  destruct (IH Hc Hk) as (rows & E & Hrows). rewrite observe_all_app, E. cbn [rbind observe_all]. rewrite observe_usable by done. cbn [rbind].
  eexists. split; [reflexivity|]. intros id'. rewrite samples_of_snoc. destruct (usable s); [|by rewrite andb_false_r, app_nil_r]. rewrite andb_true_r.
  destruct (id =? id') eqn:Ei; to_prop; [subst id'; by rewrite lookup_insert_eq, row_of_snoc, Hrows|].
  by rewrite lookup_insert_ne, app_nil_r.
Qed.

Lemma fidelity_text f : fidelity_of_text (fidelity_to_string f) = f.
Proof. by destruct f. Qed.

Lemma peak_range f l : Forall (fun s => 0 <= f s < 2 ^ 63) l -> 0 <= peak f l < 2 ^ 63.
Proof. induction l as [|s l IH] using rev_ind; intros Hl; [unfold peak; cbn; lia|]. rewrite peak_snoc. apply Forall_app in Hl as [Hl [Hs _]%Forall_cons]. specialize (IH Hl). cbn in *. lia. Qed.

(** What the table says of a connection: the peaks, under the source of the last sample. *)
Definition transfer_summary (id : Z) (samples : list TcpSnapshot) : option ConnectionTransferEvidence :=
  (fun s => MkTransferEvidence id (peak ts_observed_ns samples) (peak sent samples) (peak received samples)
              (c_str (ts_transfer_source s)) (ts_transfer_fidelity s)) <$> last samples.

Lemma samples_ok id ops : Forall (fun op => sample_ok op.2) ops -> Forall sample_ok (samples_of id ops).
Proof.
  intros Ho. unfold samples_of, passing. apply Forall_map, Forall_forall. intros op [_ Hin]%list_elem_of_filter. rewrite Forall_forall in Ho. by apply Ho.
Qed.

Lemma latest_summary id ops rows :
  Forall (fun op => sample_ok op.2) ops -> rows !! id = row_of (samples_of id ops) -> latest id rows = transfer_summary id (samples_of id ops).
Proof.
  intros Ho Hr. unfold latest, transfer_summary. rewrite Hr. unfold row_of. pose proof (samples_ok id ops Ho) as Hs.
  destruct (last (samples_of id ops)) as [s|]; [|done]. cbn. rewrite fidelity_text. do 2 f_equal.
  all: apply wrap_u_id; unfold in_u; match goal with |- context [peak ?f _] => enough (0 <= peak f (samples_of id ops) < 2 ^ 63) by lia end.
  all: apply peak_range; eapply Forall_impl; [exact Hs|]; unfold sample_ok; intuition.
Qed.

(** C23: Large downloads.  Whatever samples were observed of connections that are stored, in whatever
    order, as long as their counters and times are below 2^63: all are recorded, the evidence of a
    connection is the peak of each counter over its usable samples, with the source and fidelity of the
    last one; and an outbound connection gets a finding exactly when the minimum is not zero and the
    peak of the received bytes reaches it, and the finding names these numbers. *)
Theorem large_ingress_exact `{Sha256} known ops :
  Forall (fun op => sample_ok op.2) ops -> Forall (fun op => known op.1 = true) ops ->
  exists rows, observe_all known ops ∅ = Ok rows /\ forall id,
    latest id rows = transfer_summary id (samples_of id ops) /\
    forall c minimum, 0 <= minimum ->
      match detect_large_ingress (Some c) rows id minimum with
      | None => cs_direction c <> Outbound \/ minimum = 0 \/ samples_of id ops = [] \/ peak received (samples_of id ops) < minimum
      | Some f => cs_direction c = Outbound /\ 0 < minimum /\ samples_of id ops <> [] /\ minimum <= peak received (samples_of id ops) /\
          lf_connection_id f = id /\ lf_bytes_received f = peak received (samples_of id ops) /\ lf_bytes_sent f = peak sent (samples_of id ops)
      end.
Proof.
  intros Ho Hk. destruct (observe_all_rows known ops Ho Hk) as (rows & E & Hrows). exists rows. split; [done|]. intros id.
  pose proof (latest_summary id ops rows Ho (Hrows id)) as Hl. split; [done|]. intros c minimum Hm. unfold detect_large_ingress. rewrite Hl. unfold transfer_summary.
  destruct (minimum =? 0) eqn:E0; to_prop; [by right; left|]. case_bool_decide as Ed; cbn [negb]; [|by left].
  destruct (last (samples_of id ops)) as [s|] eqn:Es; cbn [fmap option_fmap option_map]; [|apply last_None in Es; by right; right; left].
  cbn. assert (samples_of id ops <> []) by (intros En; by rewrite En in Es).
  destruct (_ <? minimum) eqn:Em; to_prop; [by right; right; right|]. split_and!; try done. lia.
Qed.

(** ** Lines that cannot be read *)

(** Control characters that are not white space. *)
Definition control (c : ascii) : bool := (code c <? 32) && negb (isspace c).
Definition clean : string -> bool := string_all (fun c => negb (control c)).

Lemma clean_app a b : clean (a +:+ b) = clean a && clean b.
Proof. apply string_all_app. Qed.

Lemma clean_impl p s : (forall c, p c = true -> control c = false) -> string_all p s = true -> clean s = true.
Proof. intros Hp. apply string_all_impl. intros c Hc. by rewrite Hp. Qed.

Lemma isdigit_clean c : isdigit c = true -> control c = false.
Proof. unfold isdigit, control. intros H. to_prop. rewrite (proj2 (Z.ltb_ge _ _)) by lia. done. Qed.

Lemma isspace_clean c : isspace c = true -> control c = false.
Proof. unfold control. intros ->. by rewrite andb_false_r. Qed.

Lemma escaped_clean e z : simple_escape e = Some z -> control e = false.
Proof. by destruct e as [[] [] [] [] [] [] [] []]. Qed.

Lemma hex_clean h v : Json.hex_value h = Some v -> control h = false.
Proof. by destruct h as [[] [] [] [] [] [] [] []]. Qed.

Lemma high_clean c : 32 <= code c -> control c = false.
Proof. intros Hc. unfold control. by rewrite (proj2 (Z.ltb_ge _ _)). Qed.

Lemma chars_clean t s : json_chars t s -> clean t = true.
Proof.
  unfold clean. induction 1 as [|ch t s H1 _ _ _ IH|b e z t s Hb He _ IH|b u h1 h2 h3 h4 v1 v2 v3 v4 t s Hb Hu E1 E2 E3 E4 _ _ IH]; cbn [string_all].
  - done.
  - by rewrite high_clean, IH.
  - rewrite IH, (high_clean b), (escaped_clean e z) by (done || lia). done.
  - rewrite IH, (high_clean b), (high_clean u), (hex_clean h1 v1), (hex_clean h2 v2), (hex_clean h3 v3), (hex_clean h4 v4) by (done || lia). done.
Qed.

Lemma number_clean t d : json_number t d -> clean t = true.
Proof.
  intros (negative & int & fraction & frac & etext & exponent & -> & Hi & Hf & He & _). rewrite !clean_app.
  assert (Hd : forall x, digits1 x -> clean x = true) by (intros x [Hx _]; exact (clean_impl isdigit x isdigit_clean Hx)).
  apply andb_true_iff. split; [by destruct negative|]. apply andb_true_iff. split; [destruct Hi as [->|[Hi _]]; [reflexivity|by apply Hd]|].
  apply andb_true_iff. split; [destruct Hf as [[-> _]|[-> Hf]]; [done|rewrite clean_app; cbn; by apply Hd]|].
  destruct He as [[-> _]|(e & sign & digits & neg & -> & He & Hs & Hx & _)]; [done|]. rewrite !clean_app, (Hd digits Hx).
  destruct He as [->| ->]; destruct Hs as [[-> _]|[[->| ->] _]]; done.
Qed.

Lemma ws_clean w : ws w -> clean w = true.
Proof. exact (clean_impl isspace w isspace_clean). Qed.

Lemma grammar_clean :
  (forall t v, json_value t v -> clean t = true) /\ (forall t vs, json_elements t vs -> clean t = true) /\
  (forall t ms, json_members t ms -> clean t = true).
Proof.
  apply (json_grammar_ind (fun t _ _ => clean t = true) (fun t _ _ => clean t = true) (fun t _ _ => clean t = true)); intros.
  all: rewrite ?clean_app;
    repeat match goal with
    | H : ws ?w |- _ => apply ws_clean in H; rewrite ?H
    | H : json_chars _ _ |- _ => apply chars_clean in H; rewrite ?H
    | H : clean _ = true |- _ => rewrite ?H; clear H
    end; try done.
  by eapply number_clean.
Qed.

(** A text with a control character is no JSON document. *)
Lemma control_not_json text : clean text = false -> exists m, parse text = Throw m.
Proof.
  intros Hc. pose proof (parse_sound text) as Hp. destruct (parse text) as [v|m]; [|by exists m].
  destruct Hp as (w & t & w' & -> & Hw & Hv & Hw'). rewrite !clean_app, (ws_clean w), (ws_clean w') in Hc by done.
  by rewrite (proj1 grammar_clean t v Hv) in Hc.
Qed.

Lemma transfer_escape_clean s : clean (transfer_escape s) = clean s.
Proof.
  induction s as [|c s IH]; [done|]. cbn [transfer_escape]. rewrite clean_app, IH. unfold clean at 3. cbn [string_all]. f_equal.
  by destruct c as [[] [] [] [] [] [] [] []].
Qed.

Lemma concat_clean l t : t ∈ l -> clean t = false -> clean (String.concat "," l) = false.
Proof.
  intros Hin Ht. induction l as [|x l IH]; [by apply not_elem_of_nil in Hin|]. rewrite JsonPrint.concat_comma, clean_app.
  apply elem_of_cons in Hin as [->|Hin]; [by rewrite Ht|]. destruct l as [|y l]; [by apply not_elem_of_nil in Hin|].
  rewrite clean_app, IH by done. by rewrite !andb_false_r.
Qed.

(** The findings file.  A finding about a process whose name, which the process itself chooses,
    contains a control character that is not white space is appended as a line that no JSON parser
    accepts: [transfer_detail::json_escape] passes such characters through unescaped. *)
Theorem control_character_unreadable f created_epoch :
  clean (lf_process_name f) = false -> exists m, parse (ingress_line f created_epoch) = Throw m.
Proof.
  intros Hc. apply control_not_json. unfold ingress_line. rewrite !clean_app.
  rewrite (concat_clean _ (field "process" (quoted (transfer_escape (lf_process_name f))))).
  - by rewrite andb_false_r.
  - apply list_elem_of_fmap. exists ("process", quoted (transfer_escape (lf_process_name f))). split; [done|]. unfold ingress_members. do 6 right. by left.
  - unfold field, quoted. rewrite !clean_app, transfer_escape_clean, Hc. by rewrite !andb_false_r.
Qed.

Definition demo_sample (observed n r : Z) : TcpSnapshot :=
  MkTcpSnapshot observed 1 0 0 0 0 0 0 0 0 0 0 0 (Some n) (Some r) "sock_diag" Exact.
Definition demo_samples : list (Z * TcpSnapshot) := [(1, demo_sample 10 5 300); (2, demo_sample 11 1 2); (1, demo_sample 9 7 200)].

Lemma large_ingress_exact_witness :
  exists rows, observe_all (fun _ => true) demo_samples ∅ = Ok rows /\ latest 1 rows = Some (MkTransferEvidence 1 10 7 300 "sock_diag" Exact).
Proof.
  destruct (large_ingress_exact (H := sum_digest) (fun _ => true) demo_samples) as (rows & E & Hr).
  - repeat (apply Forall_cons; split; [unfold sample_ok, sent, received; cbn; lia|]). by apply Forall_nil.
  - by repeat (apply Forall_cons; split; [done|]); apply Forall_nil.
  - exists rows. split; [exact E|]. exact (proj1 (Hr 1)).
Defined.

Definition demo_ingress : LargeIngressFinding :=
  MkIngress "T" "LOW" (decimal_value false 1 0) "UNKNOWN" 1 (String "001" "x") "exe=x" "h" 443 1 2 "s" Exact "k" "i" "r" "" "" "T" "" "" 0 0.

Lemma control_character_unreadable_witness : exists m, parse (ingress_line demo_ingress 5) = Throw m.
Proof. apply control_character_unreadable. reflexivity. Defined.
