(* ===== verification/Reporting.v ===== *)
(** Reporting findings ([fleet_reporting.hpp], [transfer_assurance.hpp], [behavior_reporting.hpp],
    [rm2_reporting.hpp]): which verdicts, transfers, periodic connections and context rules are written
    to the findings file and announced to the coordinator.

    A reporter runs over a [World]: the files, the outbox with its delivery state, and the reporter's
    own counters, cooldown map and [changed] flag, which survive an exception as the variables of the
    code do.  [wd_log] is a ghost: the announcements the coordinator acknowledged.  Streams report an
    error by their state and not by an exception.  What the history answers is an argument
    ([ReportStore]), as are the clock and the environment of every submission.

    The theorem: two acknowledged announcements of the same finding are at least the cooldown apart,
    over any number of calls of any reporters, and of restarts ([announcements_spaced]). *)

From stdpp Require Import gmap.
From S2P Require Import Prelude Text Wire Faults StringMap Doubles Json Crypto Model NameResolution TlsSession NapSequence OutboundQueue Dispatcher Rules Verdict ContextRules Behavior RuleUpdate JsonPrint Announcement Cooldown Transfer.

#[local] Arguments String.append !_ _ /.
#[local] Open Scope io_scope.

(** ** Policies and results *)

Inductive FleetReportingMode := ReportingOff | SignificantOnly | AllFindings.
#[global] Instance FleetReportingMode_eq_dec : EqDecision FleetReportingMode.
Proof. solve_decision. Defined.

Record FleetReportingPolicy := MkReportingPolicy {
  rp_mode : FleetReportingMode; rp_minimum_confidence : spec_float; rp_cooldown : Z; rp_state_dir : string }.

(** [FleetReportingResult] has no [detected] and [persisted]; its reporters leave them zero. *)
Record ReportingResult := MkReporting {
  rr_considered : Z; rr_detected : Z; rr_persisted : Z; rr_announced : Z; rr_suppressed_policy : Z; rr_suppressed_cooldown : Z; rr_failed : Z }.
Definition no_reports : ReportingResult := MkReporting 0 0 0 0 0 0 0.

Inductive counter := Considered | Detected | Persisted | Announced | SuppressedPolicy | SuppressedCooldown | FailedReports.
Definition bump (c : counter) (r : ReportingResult) : ReportingResult :=
  let '(MkReporting a b d e f g h) := r in
  match c with
  | Considered => MkReporting (a + 1) b d e f g h
  | Detected => MkReporting a (b + 1) d e f g h
  | Persisted => MkReporting a b (d + 1) e f g h
  | Announced => MkReporting a b d (e + 1) f g h
  | SuppressedPolicy => MkReporting a b d e (f + 1) g h
  | SuppressedCooldown => MkReporting a b d e f (g + 1) h
  | FailedReports => MkReporting a b d e f g (h + 1)
  end.

(** ** The world of a reporter *)

Record World := MkWorld {
  wd_files : gmap string string;
  wd_dispatch : DispatcherState;
  wd_log : list (string * string * Z);
  wd_result : ReportingResult;
  wd_cooldowns : Cooldowns;
  wd_changed : bool }.

Definition set_files (f : gmap string string -> gmap string string) (w : World) : World :=
  MkWorld (f (wd_files w)) (wd_dispatch w) (wd_log w) (wd_result w) (wd_cooldowns w) (wd_changed w).
Definition set_dispatch (d : DispatcherState) (w : World) : World :=
  MkWorld (wd_files w) d (wd_log w) (wd_result w) (wd_cooldowns w) (wd_changed w).
Definition set_result (f : ReportingResult -> ReportingResult) (w : World) : World :=
  MkWorld (wd_files w) (wd_dispatch w) (wd_log w) (f (wd_result w)) (wd_cooldowns w) (wd_changed w).
Definition start_locals (cooldowns : Cooldowns) (w : World) : World :=
  MkWorld (wd_files w) (wd_dispatch w) (wd_log w) (wd_result w) cooldowns false.
(** [cooldowns[key] = now; changed = true;] after the coordinator has acknowledged the finding. *)
Definition record_announcement (state_path key : string) (now : Z) (w : World) : World :=
  MkWorld (wd_files w) (wd_dispatch w) (wd_log w ++ [(state_path, key, now)]) (wd_result w) (<[key := now]> (wd_cooldowns w)) true.

Abbreviation M := (IO World).
Definition modify (f : World -> World) : M unit := fun fs w => (Done tt, fs, f w).
Definition get {A} (f : World -> A) : M A := fun fs w => (Done (f w), fs, w).
Definition count (c : counter) : M unit := modify (set_result (bump c)).

(** ** Streams *)

Definition file_text (w : World) (p : string) : string := value_or (wd_files w !! p) "".

(** Reading a whole stream; an error in the middle ends it early, a missing file is empty. *)
Definition read_stream (p : string) : M string := fun fs w =>
  match next_fault fs with
  | (IoDone, fs') => (Done (file_text w p), fs', w)
  | (IoThrows _ kept, fs') => (Done (substr (file_text w p) 0 (value_or kept 0%nat)), fs', w)
  | (IoCrashes _, fs') => (Crashed, fs', w)
  end.

(** [std::ofstream output(p, mode)]; whether it could be opened. *)
Definition opened (truncate : bool) (p : string) (w : World) : World :=
  set_files (<[p := if truncate then "" else file_text w p]>) w.
Definition open_stream (truncate : bool) (p : string) : M bool := fun fs w =>
  match next_fault fs with
  | (IoDone, fs') => (Done true, fs', opened truncate p w)
  | (IoThrows _ _, fs') => (Done false, fs', w)
  | (IoCrashes None, fs') => (Crashed, fs', w)
  | (IoCrashes (Some _), fs') => (Crashed, fs', opened truncate p w)
  end.

Definition appended (p text : string) (kept : option nat) (w : World) : World :=
  match kept with None => w | Some n => set_files (<[p := file_text w p +:+ substr text 0 n]>) w end.

(** The buffered text reaches the file; whether all of it did. *)
Definition write_stream (p text : string) : M bool := fun fs w =>
  match next_fault fs with
  | (IoDone, fs') => (Done true, fs', set_files (<[p := file_text w p +:+ text]>) w)
  | (IoThrows _ kept, fs') => (Done false, fs', appended p text kept w)
  | (IoCrashes kept, fs') => (Crashed, fs', appended p text kept w)
  end.

(** Formatting into the buffer; a text that does not fit is partly written, which can fail. *)
Definition buffer_stream (p text : string) : M bool := fun fs w =>
  match next_fault fs with
  | (IoDone, fs') => (Done true, fs', w)
  | (IoThrows _ kept, fs') => (Done false, fs', appended p text kept w)
  | (IoCrashes kept, fs') => (Crashed, fs', appended p text kept w)
  end.

Definition renamed (from to : string) (w : World) : World :=
  match wd_files w !! from with
  | Some text => set_files (fun files => <[to := text]> (delete from files)) w
  | None => w
  end.

(** [remove(p, ignored)] *)
Definition remove_quietly (p : string) : M unit := catch (io_update (set_files (delete p))) (fun _ => ret tt).

(** ** Cooldown files *)

Section save.
Context `{BucketOrder}.

(** The four [save_cooldowns] differ in whether they look at the stream after closing it and whether
    they remove the old file first. *)
Definition save_cooldowns (checks removes : bool) (open_message flush_message state_path : string) (cooldowns : Cooldowns) : M unit :=
  let temp := state_path +:+ ".tmp" in
  let* is_open := open_stream true temp in
  if negb is_open then raise open_message
  else
    let* complete := write_stream temp (save_text cooldowns) in
    if checks && negb complete then raise flush_message
    else
      let* _ := if removes : bool then remove_quietly state_path else ret tt in
      io_update (renamed temp state_path).

Definition fleet_save : string -> Cooldowns -> M unit :=
  save_cooldowns false false "cannot write fleet reporting cooldown state" "".
Definition transfer_save : string -> Cooldowns -> M unit :=
  save_cooldowns false true "cannot write transfer cooldown state" "".
Definition behavior_save : string -> Cooldowns -> M unit :=
  save_cooldowns true true "cannot write periodic behavior cooldown state" "cannot flush periodic behavior cooldown state".
Definition rm2_save : string -> Cooldowns -> M unit :=
  save_cooldowns true true "cannot write RM2 rule cooldown state" "cannot flush RM2 rule cooldown state".

(** [if (changed) save_cooldowns(path, cooldowns);] *)
Definition save_changed (save : string -> Cooldowns -> M unit) (state_path : string) : M unit :=
  let* changed := get wd_changed in
  if changed then let* cooldowns := get wd_cooldowns in save state_path cooldowns else ret tt.

Definition load_cooldowns (state_path : string) : M unit :=
  let* text := read_stream state_path in modify (start_locals (load_text text)).
End save.

(** ** The findings file *)

(** [output << ...; if (!output) throw ...;] and the destructor, which flushes without a check. *)
Definition append_line (open_message flush_message path line : string) : M unit :=
  let* is_open := open_stream false path in
  if negb is_open then raise open_message
  else
    let* buffered := buffer_stream path line in
    if negb buffered then raise flush_message
    else let* _ := write_stream path line in ret tt.

Definition persist_ingress (path : string) (f : LargeIngressFinding) (created_epoch : Z) : M unit :=
  append_line "cannot persist transfer finding" "cannot flush transfer finding" path (ingress_line f created_epoch).

Definition max_log_bytes : Z := 1024 * 1024.

Definition rotate_if_needed (path : string) : M unit :=
  let* present := catch (io_read (fun w => has (wd_files w !! path))) (fun _ => ret false) in
  if negb present then ret tt
  else
    let* size := catch (let* n := io_read (fun w => Z.of_nat (String.length (file_text w path))) in ret (Some n)) (fun _ => ret None) in
    match size with
    | None => ret tt
    | Some size =>
        if size <? max_log_bytes then ret tt
        else
          let previous := path +:+ ".1" in
          let* _ := remove_quietly previous in
          catch (io_update (renamed path previous)) (fun _ => raise "cannot rotate periodic behavior finding log")
    end.

Definition connection_ids_text (f : PeriodicOutboundFinding) : string := String.concat "," (map to_string (po_connection_ids f)).

Definition periodic_members (f : PeriodicOutboundFinding) (created_epoch : Z) : list (string * string) :=
  let text s := quoted (json_escape s) in
  [("finding_id", text (po_finding_id f)); ("finding_key", text (po_finding_key f)); ("type", quoted (po_type f));
   ("severity", quoted (po_severity f)); ("confidence", general_text 6 (po_confidence f)); ("malicious_intent", quoted (po_malicious_intent f));
   ("process", text (po_process_name f)); ("process_identity", text (po_process_identity f)); ("host", text (po_host f));
   ("port", to_string (po_port f)); ("connection_count", to_string (Z.of_nat (length (po_connection_ids f))));
   ("median_interval_ms", to_string (po_median_interval_ns f / 1000000)); ("regular_interval_fraction", general_text 6 (po_regular_interval_fraction f));
   ("connections", quoted (connection_ids_text f)); ("evidence_root", quoted (po_evidence_root f)); ("interpretation", text (po_interpretation f));
   ("created_epoch", to_string created_epoch)].

Definition periodic_line (f : PeriodicOutboundFinding) (created_epoch : Z) : string :=
  "{" +:+ String.concat "," (map (fun '(k, v) => field k v) (periodic_members f created_epoch)) +:+ "}" +:+ newline.

Definition persist_finding (path : string) (f : PeriodicOutboundFinding) (created_epoch : Z) : M unit :=
  let* _ := rotate_if_needed path in
  append_line "cannot persist periodic behavior finding" "cannot flush periodic behavior finding" path (periodic_line f created_epoch).

Definition announcement_from_finding (f : PeriodicOutboundFinding) : FindingAnnouncementInput :=
  MkFinding (po_finding_id f) (po_finding_key f) (po_host f) (po_port f) "tcp" "" "" None None "" "" "" "" "" "" "" ""
    ["Finding type: " +:+ po_type f; "Severity: " +:+ po_severity f; "Confidence: " +:+ fixed_text 6 (po_confidence f);
     "Malicious intent: " +:+ po_malicious_intent f; "Process: " +:+ po_process_name f;
     "Observed connections: " +:+ to_string (Z.of_nat (length (po_connection_ids f)));
     "Median interval ms: " +:+ to_string (po_median_interval_ns f / 1000000);
     "Regular interval fraction: " +:+ fixed_text 6 (po_regular_interval_fraction f);
     "Evidence connections: " +:+ connection_ids_text f; po_interpretation f]
    "INSUFFICIENT_EVIDENCE" "UNVERIFIED" (po_evidence_root f).

(** ** What the history answers *)

(** The parts of [ExportData] that reports read. *)
Record ExportData := MkExport { ed_connection : ConnectionSummary; ed_baseline : option Baseline; ed_verdict : option AssuranceVerdict }.

(** The reads of [HistoryStore], each of which may throw. *)
Record ReportStore := MkReportStore {
  st_export_data : Z -> result ExportData;
  st_connection : Z -> result (option ConnectionSummary);
  st_recent_connections : Z -> result (list ConnectionSummary);
  st_samples : Z -> result (list TcpSnapshot);
  st_baseline_for : string -> Z -> result (option Baseline);
  st_names : Z -> result (list NameResolutionEvidence);
  st_tls : Z -> result (list TlsSessionEvidence);
  st_route : Z -> result (option RouteObservation) }.

(** ** Findings about connections *)

Section fleet.
Context `{Sha256}.

Definition with_sha256_prefix (hash : string) : string :=
  if bool_decide (hash = "") then "" else if starts_with "sha256:" hash then hash else "sha256:" +:+ hash.

Definition normalized_address (address : string) : string :=
  if starts_with "::ffff:" address then substr_from address 7 else address.

Definition stable_finding_key (data : ExportData) (f : FindingAnnouncementInput) : string :=
  "sha256:" +:+ sha256_hex
    ("direction=" +:+ direction_to_string (cs_direction (ed_connection data)) +:+ "|target=" +:+ fa_host f +:+ ":" +:+ to_string (fa_port f) +:+
     "|transport=" +:+ fa_transport f +:+ "|performance=" +:+ fa_performance_verdict f +:+ "|trust=" +:+ fa_trust_verdict f +:+
     match ed_verdict data with
     | Some v => "|performance_hypothesis=" +:+ av_performance_hypothesis v +:+ "|trust_hypothesis=" +:+ av_trust_hypothesis v
     | None => ""
     end).

Definition performance_issue (v : AssuranceVerdict) : bool :=
  bool_decide (av_performance v = Degraded) || bool_decide (av_performance v = Failed).

(** Whether [attribute_connection_finding] names a rule. *)
Definition path_degradation (v : AssuranceVerdict) : bool :=
  performance_issue v && bool_decide (av_performance_hypothesis v = "NETWORK_PATH_DEGRADATION").

(** The loop over the TLS evidence: the first exact one that identifies the peer, else the first exact
    one. *)
Fixpoint preferred_tls (inbound : bool) (evidence : list TlsSessionEvidence) (preferred : option TlsSessionEvidence) : option TlsSessionEvidence :=
  match evidence with
  | [] => preferred
  | item :: evidence =>
      if negb (bool_decide (tv_correlation_fidelity item = Exact)) then preferred_tls inbound evidence preferred
      else if inbound && bool_decide (tv_relation item = InboundClientIdentity) then Some item
      else if negb inbound && bool_decide (tv_relation item = OutboundServerIdentity) then Some item
      else preferred_tls inbound evidence (match preferred with None => Some item | Some _ => preferred end)
  end.

Definition root_suffix (evidence_root : string) : string :=
  substr (if starts_with "sha256:" evidence_root then substr_from evidence_root 7 else evidence_root) 0 12.

(** The changes that an authenticated inbound client adds. *)
Definition inbound_changes (inbound : bool) (data : ExportData) (preferred : option TlsSessionEvidence) : list string :=
  match preferred with
  | Some item =>
      if inbound && bool_decide (tv_relation item = InboundClientIdentity) && to_peer_authenticated (tv_observation item) then
        "Authenticated inbound TLS client identity observed" ::
        match ed_baseline data with
        | Some b => if negb (bool_decide (bl_accepted_spki_sha256 b = "")) && bool_decide (bl_accepted_spki_sha256 b = to_spki_sha256 (tv_observation item))
                    then ["Client SPKI matches accepted inbound baseline"] else []
        | None => []
        end
      else []
  | None => []
  end.

Definition finding_from_connection (store : ReportStore) (connection_id : Z) : result FindingAnnouncementInput :=
  let? data := st_export_data store connection_id in
  match ed_verdict data with
  | None => Throw "connection has no finalized assurance verdict"
  | Some v =>
      let c := ed_connection data in
      let inbound := bool_decide (cs_direction c = Inbound) in
      let host := if inbound : bool then normalized_address (cs_local_ip c)
                  else if nonempty (cs_target_host c) then cs_target_host c else normalized_address (cs_remote_ip c) in
      let port := if inbound : bool then cs_local_port c else cs_remote_port c in
      let performance := performance_to_string (av_performance v) in
      let trust := trust_to_string (av_trust v) in
      let? tls := st_tls store connection_id in
      let preferred := preferred_tls inbound tls None in
      let? evidence_root :=
        match preferred with
        | Some item => Ok (with_sha256_prefix (tls_session_evidence_hash item))
        | None => if nonempty (av_input_hash v) then Ok (with_sha256_prefix (av_input_hash v))
                  else Throw "connection has no stable evidence hash to announce"
        end in
      let bare := MkFinding "" "" host port "tcp" "" "" None None "" "" "" "" "" "" "" "" [] performance trust evidence_root in
      let changes :=
        ["Stored connection assurance observation"; "Performance verdict: " +:+ performance; "Trust verdict: " +:+ trust] ++
        (if nonempty (av_performance_hypothesis v) then ["Performance hypothesis: " +:+ av_performance_hypothesis v] else []) ++
        (if nonempty (av_trust_hypothesis v) then ["Trust hypothesis: " +:+ av_trust_hypothesis v] else []) ++
        (if path_degradation v then ["Attributed rule: PERF-001"] else []) ++ inbound_changes inbound data preferred in
      let? _ := throw_if (bool_decide (host = "") || (port =? 0)) "connection does not contain a usable service endpoint" in
      Ok (MkFinding ("FINDING-CONN-" +:+ to_string connection_id +:+ "-" +:+ root_suffix evidence_root) (stable_finding_key data bare)
            host port "tcp" "" "" None None "" "" "" (if path_degradation v then "MEDIUM" else "") (if path_degradation v then "PERF-001" else "")
            "" "" (if path_degradation v then "Network path degradation" else "") changes performance trust evidence_root)
  end.

Definition finding_matches_reporting_policy (data : ExportData) (policy : FleetReportingPolicy) : bool :=
  match rp_mode policy, ed_verdict data with
  | ReportingOff, _ | _, None => false
  | AllFindings, Some _ => true
  | SignificantOnly, Some v =>
      (bool_decide (av_trust v = Changed) || bool_decide (av_trust v = Suspicious)) ||
      (performance_issue v && double_geb (av_rule_confidence v) (rp_minimum_confidence policy))
  end.

End fleet.

(** ** The reporters *)

(** What one call finds: the time, and what each submission in it meets, by its place in the loop. *)
Record CallEnv := MkCallEnv { ce_now : Z; ce_submit : nat -> SubmitEnv }.

Fixpoint each {A} (body : nat -> A -> M unit) (i : nat) (l : list A) : M unit :=
  match l with
  | [] => ret tt
  | a :: l => let* _ := body i a in each body (S i) l
  end.

Section reporters.
Context `{Sha256} `{BucketOrder} `{CastUndefined} `{LongDouble}.
Context (database : string) (path : SeqFile -> string) (windows : bool).
Context (store : ReportStore) (rows : Rows) (policy : FleetReportingPolicy) (env : CallEnv).

Definition fleet_state_path : string := path_join (rp_state_dir policy) "reporting.state".
Definition transfer_state_path : string := database +:+ ".transfer.state".
Definition periodic_state_path : string := database +:+ ".periodic.state".
Definition rm2_state_path : string := database +:+ ".rm2-rules.state".
Definition findings_path : string := database +:+ ".findings.jsonl".

Definition identity_present : M bool := io_read (fun w => has (wd_files w !! path_join (rp_state_dir policy) "identity.conf")).

Definition submit (i : nat) (f : FindingAnnouncementInput) : M bool := fun fs w =>
  let '(acknowledged, d) := submit_finding path windows (ce_submit env i) f (wd_dispatch w) in (acknowledged, fs, set_dispatch d w).

Definition announce (i : nat) (state_path key : string) (f : FindingAnnouncementInput) (message : string) : M unit :=
  let* acknowledged := submit i f in
  if negb acknowledged then raise message else modify (record_announcement state_path key (ce_now env)).

Definition allowed (key : string) : M bool :=
  let* cooldowns := get wd_cooldowns in ret (cooldown_allows key cooldowns (ce_now env) (rp_cooldown policy)).

(** [mode == Off || confidence < minimum || !exists(identity.conf)]; context rules have no confidence. *)
Definition not_reported (confidence : option spec_float) : M bool :=
  if bool_decide (rp_mode policy = ReportingOff) ||
     match confidence with Some d => double_ltb d (rp_minimum_confidence policy) | None => false end then ret true
  else let* present := identity_present in ret (negb present).

Definition failed_report (_ : string) : M unit := count FailedReports.

(** *** [auto_report_connections] *)

Definition report_connection (i : nat) (connection_id : Z) : M unit :=
  catch
    (let* data := lift (st_export_data store connection_id) in
     if negb (has (ed_verdict data)) then ret tt
     else
       let* _ := count Considered in
       if negb (finding_matches_reporting_policy data policy) then count SuppressedPolicy
       else
         let* f := lift (finding_from_connection store connection_id) in
         let* fresh := allowed (fa_finding_key f) in
         if negb fresh then count SuppressedCooldown
         else
           let* _ := announce i fleet_state_path (fa_finding_key f) f "finding retained in outbound queue awaiting ACK" in
           count Announced)
    failed_report.

Definition auto_report_connections (connection_ids : list Z) : M ReportingResult :=
  let* _ := modify (set_result (fun _ => no_reports)) in
  let* present := if bool_decide (rp_mode policy = ReportingOff) then ret false else identity_present in
  if negb present then get wd_result
  else
    let* _ := load_cooldowns fleet_state_path in
    let* _ := each report_connection 0 connection_ids in
    let* _ := save_changed fleet_save fleet_state_path in
    get wd_result.

(** *** Findings that are also written to the findings file *)

(** From the cooldown on: write, ask the policy, announce. *)
Definition deliver (i : nat) (state_path key : string) (persist : M unit) (confidence : spec_float)
    (f : FindingAnnouncementInput) (message : string) (recorded : M unit) : M unit :=
  let* fresh := allowed key in
  if negb fresh then count SuppressedCooldown
  else
    let* _ := persist in
    let* _ := count Persisted in
    let* suppressed := not_reported (Some confidence) in
    if suppressed then count SuppressedPolicy
    else
      let* _ := announce i state_path key f message in
      let* _ := recorded in
      count Announced.

(** [minimum] is [detector_policy.minimum_bytes_received]. *)
Definition auto_report_large_ingress (connection_id minimum : Z) : M ReportingResult :=
  let* _ := modify (set_result (fun _ => bump Considered no_reports)) in
  let* _ := catch
    (let* connection := (if minimum =? 0 then ret None else lift (st_connection store connection_id)) in
     match detect_large_ingress connection rows connection_id minimum with
     | None => ret tt
     | Some f =>
         let* _ := count Detected in
         let* _ := load_cooldowns transfer_state_path in
         deliver 0 transfer_state_path (lf_finding_key f) (persist_ingress findings_path f (ce_now env)) (lf_confidence f)
           (ingress_announcement f) "transfer finding retained in outbound queue awaiting ACK"
           (let* cooldowns := get wd_cooldowns in transfer_save transfer_state_path cooldowns)
     end) failed_report in
  get wd_result.

Definition auto_report_periodic_behavior (trigger_connection_id : Z) (detector_policy : PeriodicOutboundPolicy) : M ReportingResult :=
  let* _ := modify (set_result (fun _ => bump Considered no_reports)) in
  let* _ := catch
    (let* recent := lift (st_recent_connections store (pp_recent_connection_limit detector_policy)) in
     match detect_periodic_outbound recent trigger_connection_id detector_policy with
     | None => ret tt
     | Some f =>
         let* _ := count Detected in
         let* _ := load_cooldowns periodic_state_path in
         deliver 0 periodic_state_path (po_finding_key f) (persist_finding findings_path f (ce_now env)) (po_confidence f)
           (announcement_from_finding f) "behavior finding retained in outbound queue awaiting ACK"
           (let* cooldowns := get wd_cooldowns in behavior_save periodic_state_path cooldowns)
     end) failed_report in
  get wd_result.

(** *** Rules *)

Definition target_host (connection : ConnectionSummary) : string :=
  if nonempty (cs_target_host connection) then cs_target_host connection else cs_remote_ip connection.

Definition periodic_policy (rule : RuleDefinition) : result PeriodicOutboundPolicy :=
  let ms d := wrap_u 64 (cast_u64 d * 1000000) in
  let? minimum_connections := numeric rule "minimum_connections" in
  let? window_ms := numeric rule "window_ms" in
  let? minimum_interval_ms := numeric rule "minimum_interval_ms" in
  let? maximum_interval_ms := numeric rule "maximum_interval_ms" in
  let? interval_tolerance_ratio := numeric rule "interval_tolerance_ratio" in
  let? minimum_regular_fraction := numeric rule "minimum_regular_fraction" in
  let? recent_connection_limit := numeric rule "recent_connection_limit" in
  Ok (MkPolicy (cast_u64 minimum_connections) (ms window_ms) (ms minimum_interval_ms) (ms maximum_interval_ms)
        interval_tolerance_ratio minimum_regular_fraction (cast_u64 recent_connection_limit)).

Definition prevalence (target : ConnectionSummary) : result Z :=
  let host := target_host target in
  if bool_decide (host = "") then Ok 0
  else
    let? recent := st_recent_connections store 512 in
    Ok (Z.of_nat (length (passing (fun c => bool_decide (cs_direction c = Outbound) && bool_decide (target_host c = host)) recent))).

Definition domains_for_connection (id : Z) : result (list string) :=
  let? names := st_names store id in Ok (correlated_domains names).

Definition excluded_for_connection (rule : RuleDefinition) (id : Z) : result bool :=
  let? connection := st_connection store id in
  match connection with
  | None => Ok false
  | Some connection => let? domains := domains_for_connection id in Ok (excludes_connection (rd_exclude rule) connection domains None)
  end.

Definition rule_key (rule_id identity host : string) (port : Z) : string :=
  "sha256:" +:+ sha256_hex (rule_id +:+ "|" +:+ identity +:+ "|" +:+ host +:+ ":" +:+ to_string port).

(** The finding under the name of a rule. *)
Definition rule_periodic (rule : RuleDefinition) (f : PeriodicOutboundFinding) : PeriodicOutboundFinding :=
  MkPeriodic (po_type f) (uppercase (rd_severity rule)) (po_confidence f) (po_malicious_intent f) (po_process_identity f) (po_process_name f)
    (po_host f) (po_port f) (po_first_seen_ns f) (po_last_seen_ns f) (po_median_interval_ns f) (po_regular_interval_fraction f) (po_connection_ids f)
    (rule_key (rd_id rule) (po_process_identity f) (po_host f) (po_port f))
    ("FINDING-BEHAVIOR-" +:+ rd_id rule +:+ "-" +:+ substr (substr_from (po_evidence_root f) 7) 0 12) (po_evidence_root f) (po_interpretation f).

Definition rule_ingress (set : RuleSet) (rule : RuleDefinition) (minimum : Z) (f : LargeIngressFinding) : LargeIngressFinding :=
  MkIngress (lf_type f) (uppercase (rd_severity rule)) (lf_confidence f) (lf_malicious_intent f) (lf_connection_id f) (lf_process_name f)
    (lf_process_identity f) (lf_host f) (lf_port f) (lf_bytes_sent f) (lf_bytes_received f) (lf_source f) (lf_fidelity f)
    (rule_key (rd_id rule) (lf_process_identity f) (lf_host f) (lf_port f))
    ("FINDING-TRANSFER-" +:+ rd_id rule +:+ "-" +:+ substr (substr_from (lf_evidence_root f) 7) 0 12) (lf_evidence_root f) (lf_interpretation f)
    (rd_id rule) (lf_semantic_type f) (rs_id set) (rs_version set) (rs_revision set) minimum.

(** The announcement of [f] with its severity and interpretation, and the rule it is attributed to. *)
Definition attributed (f : FindingAnnouncementInput) (severity rule_id rule_set_id rule_set_version interpretation : string) : FindingAnnouncementInput :=
  MkFinding (fa_finding_id f) (fa_finding_key f) (fa_host f) (fa_port f) (fa_transport f) (fa_subject_type f) (fa_subject_id f) (fa_subject_pid f)
    (fa_subject_parent_pid f) (fa_subject_image f) (fa_subject_parent_image f) (fa_subject_command_line f) severity rule_id rule_set_id rule_set_version
    interpretation (fa_changes f) (fa_performance_verdict f) (fa_trust_verdict f) (fa_evidence_root f).

(** The loop over the rules of an engine; the exclusions are looked up outside the [try]. *)
Definition for_rules (engine : string) (connection_id : Z) (body : nat -> RuleDefinition -> M unit) (i : nat) (rule : RuleDefinition) : M unit :=
  if negb (rd_enabled rule) || negb (bool_decide (rd_engine_rule_id rule = engine)) then ret tt
  else
    let* excluded := lift (excluded_for_connection rule connection_id) in
    if excluded then ret tt
    else let* _ := count Considered in catch (body i rule) failed_report.

(** A whole call of a reporter that uses the rules' cooldown file. *)
Definition rm2_session {A} (body : nat -> A -> M unit) (l : list A) : M ReportingResult :=
  let* _ := load_cooldowns rm2_state_path in
  let* _ := each body 0 l in
  let* _ := save_changed rm2_save rm2_state_path in
  get wd_result.

Definition auto_report_rule_periodic_behavior (set : RuleSet) (trigger_connection_id : Z) : M ReportingResult :=
  let* _ := modify (set_result (fun _ => no_reports)) in
  rm2_session (for_rules "BEH-001" trigger_connection_id (fun i rule =>
    let* detector_policy := lift (periodic_policy rule) in
    let* recent := lift (st_recent_connections store (pp_recent_connection_limit detector_policy)) in
    match detect_periodic_outbound recent trigger_connection_id detector_policy with
    | None => ret tt
    | Some f =>
        let* _ := count Detected in
        let f := rule_periodic rule f in
        deliver i rm2_state_path (po_finding_key f) (persist_finding findings_path f (ce_now env)) (po_confidence f)
          (attributed (announcement_from_finding f) (po_severity f) (rd_id rule) (rs_id set) (rs_version set) (po_interpretation f))
          "behavior finding retained in outbound queue awaiting ACK" (ret tt)
    end)) (rs_definitions set).

Definition auto_report_rule_large_ingress (set : RuleSet) (connection_id : Z) : M ReportingResult :=
  let* _ := modify (set_result (fun _ => no_reports)) in
  rm2_session (for_rules "NET-001" connection_id (fun i rule =>
    let* minimum := lift (numeric rule "minimum_bytes_received") in
    let minimum := cast_u64 minimum in
    let* connection := (if minimum =? 0 then ret None else lift (st_connection store connection_id)) in
    match detect_large_ingress connection rows connection_id minimum with
    | None => ret tt
    | Some f =>
        let* _ := count Detected in
        let f := rule_ingress set rule minimum f in
        let a := ingress_announcement f in
        deliver i rm2_state_path (lf_finding_key f) (persist_ingress findings_path f (ce_now env)) (lf_confidence f)
          (attributed a (lf_severity f) (fa_rule_id a) (fa_rule_set_id a) (fa_rule_set_version a) (lf_interpretation f))
          "transfer finding retained in outbound queue awaiting ACK" (ret tt)
    end)) (rs_definitions set).

(** *** Context rules *)

Definition context_evidence_root (c : ConnectionRuleContext) : string :=
  let connection := cc_connection c in
  "sha256:" +:+ sha256_hex
    ("connection=" +:+ to_string (cs_id connection) +:+ "|direction=" +:+ direction_to_string (cs_direction connection) +:+
     "|remote=" +:+ cs_remote_ip connection +:+ ":" +:+ to_string (cs_remote_port connection) +:+ "|host=" +:+ cs_target_host connection +:+
     "|rtt=" +:+ to_string (am_observed_rtt_us (cc_metrics c)) +:+ "|rttvar=" +:+ to_string (am_observed_rttvar_us (cc_metrics c)) +:+
     "|retrans=" +:+ to_string (am_retransmission_delta (cc_metrics c)) +:+
     match cc_route c with Some route => "|route=" +:+ ro_sha256 route | None => "" end +:+
     (if bool_decide (cc_tls_sessions c = []) then "" else "|tls=" +:+ tls_session_evidence_set_hash (cc_tls_sessions c)) +:+
     (if bool_decide (cc_name_resolution c = []) then "" else "|dns=" +:+ name_resolution_evidence_set_hash (cc_name_resolution c)) +:+
     match cc_bytes_sent c with Some n => "|sent=" +:+ to_string n | None => "" end +:+
     match cc_bytes_received c with Some n => "|received=" +:+ to_string n | None => "" end).

Definition context_announcement (m : ContextRuleMatch) (c : ConnectionRuleContext) (set : RuleSet) : FindingAnnouncementInput :=
  let connection := cc_connection c in
  let inbound := bool_decide (cs_direction connection = Inbound) in
  let host := if inbound : bool then cs_local_ip connection else target_host connection in
  let port := if inbound : bool then cs_local_port connection else cs_remote_port connection in
  let severity := uppercase (cm_severity m) in
  let evidence_root := context_evidence_root c in
  let process := if nonempty (pi_executable_path (cs_process connection)) then pi_executable_path (cs_process connection)
                 else pi_comm (cs_process connection) in
  MkFinding ("FINDING-RULE-" +:+ cm_rule_id m +:+ "-" +:+ substr (substr_from evidence_root 7) 0 12) (rule_key (cm_rule_id m) process host port)
    host port "tcp" "" "" None None "" "" "" severity (cm_rule_id m) (rs_id set) (rs_version set) (cm_interpretation m)
    ["Rule: " +:+ cm_rule_id m; "Trusted engine: " +:+ cm_engine_rule_id m; "Finding type: " +:+ cm_semantic_type m; "Severity: " +:+ severity; cm_summary m]
    "INSUFFICIENT_EVIDENCE" "UNVERIFIED" evidence_root.

(** Everything the history knows about a connection. *)
Definition gather_context (connection_id : Z) (connection : ConnectionSummary) : result ConnectionRuleContext :=
  let? samples := st_samples store connection_id in
  let? exported := st_export_data store connection_id in
  let? baseline :=
    match ed_baseline exported with
    | Some b => Ok (Some b)
    | None => if bool_decide (cs_direction connection = Outbound) then st_baseline_for store (target_host connection) (cs_remote_port connection)
              else Ok None
    end in
  let? names := st_names store connection_id in
  let? tls := st_tls store connection_id in
  let? route := st_route store connection_id in
  let transfer := latest connection_id rows in
  let? seen := prevalence connection in
  Ok (MkContext connection (aggregate_metrics samples) baseline names tls route (te_bytes_sent <$> transfer) (te_bytes_received <$> transfer) (Some seen)).

Definition report_match (c : ConnectionRuleContext) (set : RuleSet) (i : nat) (m : ContextRuleMatch) : M unit :=
  let* _ := count Considered in
  catch
    (let f := context_announcement m c set in
     let* fresh := allowed (fa_finding_key f) in
     if negb fresh then count SuppressedCooldown
     else
       let* suppressed := not_reported None in
       if suppressed then count SuppressedPolicy
       else
         let* _ := announce i rm2_state_path (fa_finding_key f) f "context finding retained in outbound queue awaiting ACK" in
         count Announced)
    failed_report.

Definition auto_report_context_rules (set : RuleSet) (connection_id : Z) : M ReportingResult :=
  let* _ := modify (set_result (fun _ => no_reports)) in
  let* connection := lift (st_connection store connection_id) in
  match connection with
  | None => get wd_result
  | Some connection =>
      let* c := lift (gather_context connection_id connection) in
      let* matches := lift (evaluate_context set c) in
      rm2_session (report_match c set) matches
  end.

End reporters.

(** ** Calls that meet no file error

    [quiet P m Q E]: with files that work, [m] takes [P] to [Q], or to [E] when it throws; the
    coordinator and the outbox may do anything. *)

Section quiet.
Context {A : Type}.

Definition quiet (P : World -> Prop) (m : M A) (Q : A -> World -> Prop) (E : World -> Prop) : Prop :=
  forall w, P w ->
    match m [] w with
    | (Done a, fs, w') => fs = [] /\ Q a w'
    | (Threw _, fs, w') => fs = [] /\ E w'
    | (Crashed, _, _) => True
    end.
End quiet.

Lemma quiet_ret {A} (a : A) (P : World -> Prop) (Q : A -> World -> Prop) E : (forall w, P w -> Q a w) -> quiet P (ret a) Q E.
Proof. intros HQ w Hw. split; [done|by apply HQ]. Qed.

Lemma quiet_raise {A} message (P E : World -> Prop) (Q : A -> World -> Prop) : (forall w, P w -> E w) -> quiet P (raise message) Q E.
Proof. intros HE w Hw. split; [done|by apply HE]. Qed.

Lemma quiet_bind {A B} (m : M A) (k : A -> M B) P Q R E :
  quiet P m Q E -> (forall a, quiet (Q a) (k a) R E) -> quiet P (bind m k) R E.
Proof.
  intros H1 H2 w Hw. specialize (H1 w Hw). unfold bind. destruct (m [] w) as [[[a|e|] fs] w']; [|done|done].
  destruct H1 as [-> Hq]. by apply H2.
Qed.

Lemma quiet_catch {A} (m : M A) h P Q E E' :
  quiet P m Q E' -> (forall e, quiet E' (h e) Q E) -> quiet P (catch m h) Q E.
Proof.
  intros H1 H2 w Hw. specialize (H1 w Hw). unfold catch. destruct (m [] w) as [[[a|e|] fs] w']; [done| |done].
  destruct H1 as [-> Hq]. by apply H2.
Qed.

Lemma quiet_weaken {A} (m : M A) (P P' : World -> Prop) (Q Q' : A -> World -> Prop) (E E' : World -> Prop) :
  quiet P' m Q' E' -> (forall w, P w -> P' w) -> (forall a w, Q' a w -> Q a w) -> (forall w, E' w -> E w) -> quiet P m Q E.
Proof.
  intros H H1 H2 H3 w Hw. specialize (H w (H1 w Hw)). destruct (m [] w) as [[[a|e|] fs] w']; [|naive_solver..]. naive_solver.
Qed.

Lemma quiet_modify f (P : World -> Prop) (Q : unit -> World -> Prop) E : (forall w, P w -> Q tt (f w)) -> quiet P (modify f) Q E.
Proof. intros H w Hw. by split; [|apply H]. Qed.

Lemma quiet_get {A} (f : World -> A) (P : World -> Prop) E : quiet P (get f) (fun a w => P w /\ a = f w) E.
Proof. intros w Hw. by split. Qed.

Lemma quiet_update f (P Q : World -> Prop) E : (forall w, P w -> Q (f w)) -> quiet P (io_update f) (fun _ => Q) E.
Proof. intros H w Hw. by split; [|apply H]. Qed.

Lemma quiet_lift {A} (r : result A) (P : World -> Prop) : quiet P (lift r) (fun _ => P) P.
Proof. intros w Hw. by destruct r. Qed.

Lemma quiet_read {A} (f : World -> A) (P : World -> Prop) E : quiet P (io_read f) (fun a w => P w /\ a = f w) E.
Proof. intros w Hw. by split. Qed.

(** [m] keeps [P], also when it throws. *)
Definition keeps {A} (P : World -> Prop) (m : M A) : Prop := quiet P m (fun _ => P) P.

Lemma keeps_bind {A B} (m : M A) (k : A -> M B) P : keeps P m -> (forall a, keeps P (k a)) -> keeps P (bind m k).
Proof. apply quiet_bind. Qed.

Lemma keeps_catch {A} (m : M A) h P : keeps P m -> (forall e, keeps P (h e)) -> keeps P (catch m h).
Proof. apply quiet_catch. Qed.

Lemma keeps_ret {A} (a : A) P : keeps P (ret a).
Proof. by apply quiet_ret. Qed.

Lemma keeps_raise {A} e P : keeps P (@raise _ A e).
Proof. by apply quiet_raise. Qed.

Lemma keeps_lift {A} (r : result A) P : keeps P (lift r).
Proof. apply quiet_lift. Qed.

Lemma keeps_read {A} (f : World -> A) P : keeps P (io_read f).
Proof. intros w Hw. by split. Qed.

Lemma keeps_get {A} (f : World -> A) P : keeps P (get f).
Proof. intros w Hw. by split. Qed.

Lemma keeps_modify f (P : World -> Prop) : (forall w, P w -> P (f w)) -> keeps P (modify f).
Proof. intros H w Hw. split; [done|by apply H]. Qed.

Lemma keeps_update f (P : World -> Prop) : (forall w, P w -> P (f w)) -> keeps P (io_update f).
Proof. intros H w Hw. split; [done|by apply H]. Qed.

Lemma keeps_if {A} (b : bool) (m1 m2 : M A) P : keeps P m1 -> keeps P m2 -> keeps P (if b then m1 else m2).
Proof. by destruct b. Qed.

Lemma keeps_each {A} (body : nat -> A -> M unit) P l i : (forall i a, keeps P (body i a)) -> keeps P (each body i l).
Proof. intros Hb. revert i. induction l as [|a l IH]; intros i; [apply keeps_ret|]. apply keeps_bind; [apply Hb|]. intros _. apply IH. Qed.

Create HintDb quiet.
#[export] Hint Resolve keeps_bind keeps_catch keeps_ret keeps_raise keeps_lift keeps_read keeps_get keeps_if keeps_each : quiet.

(** ** The invariant of the cooldown files *)

Section spacing.
Context `{Sha256} `{BucketOrderLaws} `{CastUndefined} `{LongDouble}.
Context (database state_dir : string) (cooldown : Z) (path : SeqFile -> string) (windows : bool).
Context (Hcooldown : 0 <= cooldown).

Definition state_paths : list string :=
  [path_join state_dir "reporting.state"; database +:+ ".transfer.state"; database +:+ ".periodic.state"; database +:+ ".rm2-rules.state"].

(** *** Names *)

Lemma tails_differ a b s t : String.length s = String.length t -> s <> t -> a +:+ s <> b +:+ t.
Proof.
  intros Hl Hn E. apply Hn. assert (Hab : String.length a = String.length b).
  { apply (f_equal String.length) in E. rewrite !string_length_app in E. lia. }
  revert b E Hab. induction a as [|c a IH]; intros [|d b] E Hab; try done. injection E as _ E. apply (IH b E). cbn in Hab. lia.
Qed.

Lemma join_tail p : exists x, path_join p "reporting.state" = x +:+ "tate".
Proof.
  unfold path_join. cbn [starts_with String.prefix]. change (starts_with "/" "reporting.state") with false. destruct (back p) as [c|]; [|by exists "reporting.s"].
  destruct (code c =? 47); [exists (p +:+ "reporting.s")|exists (p +:+ "/reporting.s")]; by rewrite string_app_assoc.
Qed.

Lemma state_path_tail p : p ∈ state_paths -> exists x, p = x +:+ "tate".
Proof.
  unfold state_paths. rewrite !elem_of_cons, elem_of_nil. intros [->|[->|[->|[->|[]]]]]; [apply join_tail|..].
  - exists (database +:+ ".transfer.s"). by rewrite string_app_assoc.
  - exists (database +:+ ".periodic.s"). by rewrite string_app_assoc.
  - exists (database +:+ ".rm2-rules.s"). by rewrite string_app_assoc.
Qed.

Lemma other_path a s : String.length s = 4%nat -> s <> "tate" -> a +:+ s ∉ state_paths.
Proof. intros Hl Hs Hin. apply state_path_tail in Hin as [x E]. by apply (tails_differ a x s "tate") in E. Qed.

Lemma temp_not_state p : p +:+ ".tmp" ∉ state_paths.
Proof. by apply other_path. Qed.

Lemma findings_not_state : findings_path database ∉ state_paths.
Proof. unfold findings_path. change ".findings.jsonl" with (".findings.j" +:+ "sonl"). rewrite <- string_app_assoc. by apply other_path. Qed.

Lemma rotated_not_state : findings_path database +:+ ".1" ∉ state_paths.
Proof.
  unfold findings_path. rewrite string_app_assoc. change (".findings.jsonl" +:+ ".1") with (".findings.jso" +:+ "nl.1").
  rewrite <- string_app_assoc. by apply other_path.
Qed.

(** *** Announcements so far *)

Definition spaced (log : list (string * string * Z)) : Prop :=
  forall i j p k t1 t2, (i < j)%nat -> log !! i = Some (p, k, t1) -> log !! j = Some (p, k, t2) -> cooldown <= t2 - t1.

(** The cooldowns [m] know of every announcement that is recorded in the file [p]. *)
Definition tracked (p : string) (m : Cooldowns) (w : World) : Prop :=
  forall k t, (p, k, t) ∈ wd_log w -> exists previous, m !! k = Some previous /\ t <= previous.

Definition saved (p : string) (w : World) : Cooldowns := load_text (file_text w p).

(** Between calls. *)
Definition settled (w : World) : Prop :=
  spaced (wd_log w) /\ forall p, p ∈ state_paths -> tracked p (saved p w) w.

(** In a call that uses the file [p]. *)
Definition running (p : string) (w : World) : Prop :=
  spaced (wd_log w) /\ storable (wd_cooldowns w) /\ tracked p (wd_cooldowns w) w /\
  (forall q, q ∈ state_paths -> q <> p -> tracked q (saved q w) w) /\
  (wd_changed w = false -> wd_cooldowns w = saved p w).

(** Nothing announced yet. *)
Definition unchanged (p : string) (w : World) : Prop := running p w /\ wd_changed w = false.

(** The finding [key] may be announced now. *)
Definition allows (key : string) (now : Z) (w : World) : Prop := cooldown_allows key (wd_cooldowns w) now cooldown = true.

Lemma spaced_snoc log p k t :
  spaced log -> (forall t', (p, k, t') ∈ log -> cooldown <= t - t') -> spaced (log ++ [(p, k, t)]).
Proof.
  intros Hs Hn i j p' k' t1 t2 Hij Hi Hj. rewrite lookup_app in Hj. destruct (log !! j) as [e|] eqn:Ej.
  - injection Hj as ->. apply (Hs i j p' k' t1 t2 Hij); [|done]. rewrite lookup_app in Hi. destruct (log !! i) eqn:Ei; [done|].
    apply lookup_ge_None in Ei. apply lookup_lt_Some in Ej. lia.
  - apply list_lookup_singleton_Some in Hj as [Hj E]. injection E as <- <- <-. apply lookup_ge_None in Ej.
    rewrite lookup_app_l in Hi by lia. by apply Hn, (list_elem_of_lookup_2 _ i).
Qed.

Lemma load_storable s : storable (load_text s).
Proof.
  unfold load_text. assert (Hg : forall fuel s m, storable m -> storable (load_entries fuel s m)); [|by apply Hg, map_Forall_empty].
  clear s. induction fuel as [|fuel IH]; intros s m Hm; [done|]. cbn [load_entries]. destruct (extract_word s) as [[key s1]|] eqn:E1; [|done].
  destruct (extract_int64 s1) as [[z s2]|] eqn:E2; [|done]. apply IH. apply map_Forall_insert_2; [|done]. split.
  - unfold extract_word in E1. case_bool_decide as Ew; [done|]. injection E1 as <- _. split; [done|]. apply take_while_string_all.
  - unfold extract_int64 in E2. cbv zeta in E2.
    match type of E2 with (let '(_, _) := ?x in _) = _ => destruct x as [negative t] end.
    match type of E2 with (if ?b then _ else _) = _ => destruct b eqn:Eb; [done|] end. injection E2 as <- _. unfold in_s.
    apply orb_false_iff in Eb as [Eb Hhi]. apply orb_false_iff in Eb as [_ Hlo]. to_prop. lia.
Qed.

Lemma running_start p w : p ∈ state_paths -> settled w -> unchanged p (start_locals (saved p w) w).
Proof. intros Hp [Hs Ht]. split; [|done]. split_and!; [done|apply load_storable|by apply Ht|by intros q Hq _; apply Ht|done]. Qed.

Lemma unchanged_settled p w : unchanged p w -> settled w.
Proof.
  intros [(Hs & _ & Ht & Ho & Hc) Hf]. split; [done|]. intros q Hq. destruct (decide (q = p)) as [->|]; [rewrite <- Hc by done; done|by apply Ho].
Qed.

Lemma running_record p key now w :
  running p w -> allows key now w -> word key -> in_s 64 now -> running p (record_announcement p key now w).
Proof.
  intros (Hs & Hm & Ht & Ho & _) Ha Hw Hn. assert (Hgap : forall t, (p, key, t) ∈ wd_log w -> cooldown <= now - t).
  { intros t (q & Hq & Hle)%Ht. unfold allows, cooldown_allows in Ha. rewrite Hq in Ha. to_prop. lia. }
  split_and!; cbn.
  - by apply spaced_snoc.
  - by apply map_Forall_insert_2.
  - intros k t [Hin|[= -> ->]%list_elem_of_singleton]%elem_of_app.
    + destruct (decide (k = key)) as [->|Hk]; [exists now; rewrite lookup_insert_eq; split; [done|]|rewrite lookup_insert_ne by done; by apply Ht].
      destruct (Ht key t Hin) as (q & Hq & Hle). unfold allows, cooldown_allows in Ha. rewrite Hq in Ha. to_prop. lia.
    + exists now. by rewrite lookup_insert_eq.
  - intros q Hq Hne k t [Hin|[= -> _ _]%list_elem_of_singleton]%elem_of_app; [by apply (Ho q Hq Hne)|done].
  - done.
Qed.

(** *** What keeps the invariants *)

(** Properties that do not look at the counters, the outbox and other files. *)
Definition stable (I : World -> Prop) : Prop :=
  (forall f w, I w -> I (set_result f w)) /\ (forall d w, I w -> I (set_dispatch d w)) /\
  (forall f w, (forall q, q ∈ state_paths -> f (wd_files w) !! q = wd_files w !! q) -> I w -> I (set_files f w)).

Lemma saved_set_files f w q : q ∈ state_paths -> (forall q, q ∈ state_paths -> f (wd_files w) !! q = wd_files w !! q) -> saved q (set_files f w) = saved q w.
Proof. intros Hq Hf. unfold saved, file_text. cbn. by rewrite Hf. Qed.

Lemma settled_stable : stable settled.
Proof.
  split_and!; [done|done|]. intros f w Hf [Hs Ht]. split; [done|]. intros p Hp. rewrite saved_set_files by done. by apply Ht.
Qed.

Lemma running_stable p : p ∈ state_paths -> stable (running p).
Proof.
  intros Hp. split_and!; [done|done|]. intros f w Hf (Hs & Hm & Ht & Ho & Hc). split_and!; [done|done|done| |].
  - intros q Hq Hne. rewrite saved_set_files by done. by apply Ho.
  - rewrite saved_set_files by done. done.
Qed.

Lemma stable_and (I J : World -> Prop) : stable I -> stable J -> stable (fun w => I w /\ J w).
Proof. intros (I1 & I2 & I3) (J1 & J2 & J3). split_and!; [intros f w []; auto..|]. intros f w Hf []. auto. Qed.

Lemma unchanged_stable p : p ∈ state_paths -> stable (unchanged p).
Proof. intros Hp. apply (stable_and (running p) (fun w => wd_changed w = false)); [by apply running_stable|done]. Qed.

Lemma allows_stable key now : stable (allows key now).
Proof. done. Qed.

Section keeping.
Context (I : World -> Prop) (Hst : stable I).

Lemma keeps_count c : keeps I (count c).
Proof. apply keeps_modify. intros w. apply Hst. Qed.

Lemma keeps_submit env i f : keeps I (submit path windows env i f).
Proof.
  intros w Hw. unfold submit. destruct (submit_finding _ _ _ _ _) as [[a|e|] d]; [|split; [done|by apply Hst]|done]. split; [done|by apply Hst].
Qed.

Lemma stable_insert p t w : p ∉ state_paths -> I w -> I (set_files (<[p := t]>) w).
Proof. intros Hp. apply Hst. intros q Hq. apply lookup_insert_ne. by intros ->. Qed.

Lemma stable_delete p w : p ∉ state_paths -> I w -> I (set_files (delete p) w).
Proof. intros Hp. apply Hst. intros q Hq. apply lookup_delete_ne. by intros ->. Qed.

Lemma keeps_open truncate p : p ∉ state_paths -> keeps I (open_stream truncate p).
Proof. intros Hp w Hw. split; [done|]. by apply stable_insert. Qed.

Lemma keeps_write p t : p ∉ state_paths -> keeps I (write_stream p t).
Proof. intros Hp w Hw. split; [done|]. by apply stable_insert. Qed.

Lemma keeps_buffer p t : keeps I (buffer_stream p t).
Proof. intros w Hw. by split. Qed.

Lemma keeps_append m1 m2 p line : p ∉ state_paths -> keeps I (append_line m1 m2 p line).
Proof.
  intros Hp. unfold append_line. apply keeps_bind; [by apply keeps_open|]. intros []; [|apply keeps_raise]. apply keeps_bind; [apply keeps_buffer|].
  intros []; [|apply keeps_raise]. apply keeps_bind; [by apply keeps_write|]. intros _. apply keeps_ret.
Qed.

Lemma keeps_remove p : p ∉ state_paths -> keeps I (remove_quietly p).
Proof. intros Hp. apply keeps_catch; [|intros _; apply keeps_ret]. apply keeps_update. intros w. by apply stable_delete. Qed.

Lemma keeps_rename p q : p ∉ state_paths -> q ∉ state_paths -> keeps I (io_update (renamed p q)).
Proof.
  intros Hp Hq. apply keeps_update. intros w Hw. unfold renamed. destruct (wd_files w !! p); [|done]. apply Hst; [|done].
  intros r Hr. rewrite lookup_insert_ne, lookup_delete_ne; [done|by intros ->|by intros ->].
Qed.

Lemma keeps_rotate p : p ∉ state_paths -> p +:+ ".1" ∉ state_paths -> keeps I (rotate_if_needed p).
Proof.
  intros Hp Hq. unfold rotate_if_needed. apply keeps_bind; [auto with quiet|]. intros []; cbn [negb]; [|apply keeps_ret].
  apply keeps_bind; [auto with quiet|]. intros [size|]; [|apply keeps_ret]. destruct (size <? max_log_bytes); [apply keeps_ret|].
  apply keeps_bind; [by apply keeps_remove|]. intros _. apply keeps_catch; [by apply keeps_rename|]. intros _. apply keeps_raise.
Qed.

Lemma keeps_not_reported policy confidence : keeps I (not_reported policy confidence).
Proof. unfold not_reported. apply keeps_if; [apply keeps_ret|]. apply keeps_bind; [apply keeps_read|]. intros b. apply keeps_ret. Qed.

Lemma keeps_persist_ingress f now : keeps I (persist_ingress (findings_path database) f now).
Proof. apply keeps_append, findings_not_state. Qed.

Lemma keeps_persist_finding f now : keeps I (persist_finding (findings_path database) f now).
Proof.
  apply keeps_bind; [apply keeps_rotate; [apply findings_not_state|apply rotated_not_state]|]. intros _. apply keeps_append, findings_not_state.
Qed.
End keeping.

(** *** Saving *)

Lemma renamed_settled p w w' :
  p ∈ state_paths -> running p w -> wd_log w' = wd_log w ->
  (forall q, q ∈ state_paths -> q <> p -> wd_files w' !! q = wd_files w !! q) -> wd_files w' !! (p +:+ ".tmp") = Some (save_text (wd_cooldowns w)) ->
  settled (renamed (p +:+ ".tmp") p w').
Proof.
  intros Hp (Hs & Hm & Ht & Ho & _) El Hf Et. unfold renamed. rewrite Et. split; [cbn; by rewrite El|]. intros q Hq.
  unfold tracked, saved, file_text. cbn [set_files wd_files wd_log]. rewrite El. destruct (decide (q = p)) as [->|Hne].
  - rewrite lookup_insert_eq. unfold value_or. cbn [default from_option id]. rewrite load_saved by done. exact Ht.
  - rewrite lookup_insert_ne, lookup_delete_ne by (done || (intros E; rewrite <- E in Hq; by apply (temp_not_state p))). rewrite Hf by done. by apply (Ho q Hq).
Qed.

Lemma saves checks removes m1 m2 p m :
  p ∈ state_paths -> quiet (fun w => running p w /\ wd_cooldowns w = m) (save_cooldowns checks removes m1 m2 p m) (fun _ => settled) settled.
Proof.
  intros Hp w [Hr <-]. pose proof (temp_not_state p) as Htmp. unfold save_cooldowns.
  assert (Hne : forall q, q ∈ state_paths -> p +:+ ".tmp" <> q) by (by intros q Hq <-). set (temp := p +:+ ".tmp") in *.
  erewrite bind_done; [|reflexivity]. cbn [negb]. erewrite bind_done; [|reflexivity]. rewrite andb_false_r.
  set (w1 := set_files _ (opened true temp w)).
  assert (E1 : wd_files w1 !! temp = Some (save_text (wd_cooldowns w))).
  { unfold w1, opened, file_text. cbn [set_files wd_files]. by rewrite !lookup_insert_eq. }
  assert (E2 : forall q, q ∈ state_paths -> wd_files w1 !! q = wd_files w !! q).
  { intros q Hq. unfold w1, opened. cbn [set_files wd_files]. by rewrite !lookup_insert_ne by (by apply Hne). }
  destruct removes; (erewrite bind_done; [|reflexivity]); (split; [done|]); apply (renamed_settled p w); try done.
  - intros q Hq Hqp. cbn [set_files wd_files]. rewrite lookup_delete_ne by done. by apply E2.
  - cbn [set_files wd_files]. rewrite lookup_delete_ne; [done|]. intros E. by apply (Hne p).
  - intros q Hq _. by apply E2.
Qed.

Lemma saves_changed p (save : string -> Cooldowns -> M unit) :
  (forall m, quiet (fun w => running p w /\ wd_cooldowns w = m) (save p m) (fun _ => settled) settled) ->
  quiet (running p) (save_changed save p) (fun _ => settled) settled.
Proof.
  intros Hsave. eapply quiet_bind; [apply quiet_get|]. intros [].
  - eapply quiet_bind; [apply quiet_get|]. intros m. eapply quiet_weaken; [apply (Hsave m)|naive_solver|done|done].
  - apply quiet_ret. intros w [Hr E]. apply (unchanged_settled p). by split.
Qed.

(** *** Announcing *)

Lemma quiet_allowed policy env key (I : World -> Prop) E :
  rp_cooldown policy = cooldown -> quiet I (allowed policy env key) (fun b w => I w /\ (b = true -> allows key (ce_now env) w)) E.
Proof. intros Hc w Hw. split; [done|]. split; [done|]. unfold allows. by rewrite <- Hc. Qed.

Lemma announces policy env (I : World -> Prop) i p key f message :
  p ∈ state_paths -> stable I -> (forall w, I w -> running p w) -> word key -> in_s 64 (ce_now env) -> rp_cooldown policy = cooldown ->
  quiet (fun w => I w /\ allows key (ce_now env) w) (announce path windows env i p key f message) (fun _ w => running p w /\ wd_changed w = true) I.
Proof.
  intros Hp Hst Hrun Hw Hn Hc. eapply quiet_bind.
  - eapply quiet_weaken; [apply (keeps_submit (fun w => I w /\ allows key (ce_now env) w)); apply stable_and; [done|apply allows_stable]|done|done|by intros w []].
  - intros []; cbn [negb].
    + apply quiet_modify. intros w [Hi Ha]. split; [|done]. by apply running_record; [apply Hrun|..].
    + apply quiet_raise. by intros w [].
Qed.

Lemma delivers policy env (I S : World -> Prop) i p key persist confidence f message recorded :
  p ∈ state_paths -> stable I -> stable S -> (forall w, I w -> running p w) -> (forall w, I w -> S w) ->
  word key -> in_s 64 (ce_now env) -> rp_cooldown policy = cooldown -> (forall J, stable J -> keeps J persist) ->
  quiet (fun w => running p w /\ wd_changed w = true) recorded (fun _ => S) S ->
  quiet I (deliver path windows policy env i p key persist confidence f message recorded) (fun _ => S) S.
Proof.
  intros Hp HI HS Hrun HIS Hw Hn Hc Hpersist Hrec. eapply quiet_bind; [by apply quiet_allowed|]. intros [].
  2: { eapply quiet_weaken; [apply (keeps_count I HI)|by intros w []|auto|auto]. }
  set (J := fun w => I w /\ allows key (ce_now env) w). assert (HJ : stable J) by (apply stable_and; [done|apply allows_stable]).
  assert (HJS : forall w, J w -> S w) by (intros w []; auto).
  assert (Hlift : forall A (m : M A), keeps J m -> quiet J m (fun _ => J) S) by (intros A m Hm; eapply quiet_weaken; [exact Hm|done|done|done]).
  eapply (quiet_weaken _ _ J (fun _ => S) (fun _ => S) S S); [|intros w [? Ha]; split; [done|by apply Ha]|done|done].
  cbn [negb]. apply (quiet_bind _ _ J (fun _ => J) _ S); [apply Hlift, Hpersist, HJ|intros []].
  apply (quiet_bind _ _ J (fun _ => J) _ S); [apply Hlift, keeps_count, HJ|intros []].
  apply (quiet_bind _ _ J (fun _ => J) _ S); [apply Hlift, keeps_not_reported|intros []].
  - eapply quiet_weaken; [apply (keeps_count J HJ)|done|auto|auto].
  - eapply quiet_bind; [eapply quiet_weaken; [by apply (announces policy env I)|done|done|auto]|]. intros [].
    eapply quiet_bind; [exact Hrec|]. intros []. apply (keeps_count S HS).
Qed.

(** *** Keys *)

Lemma digest_word s : word ("sha256:" +:+ sha256_hex s).
Proof.
  split; [done|]. rewrite string_all_app. apply andb_true_iff. split; [done|].
  eapply string_all_impl; [|apply (finalize_hex_shape (sha256_digest s))]. intros c. by destruct c as [[] [] [] [] [] [] [] []].
Qed.

Lemma ingress_key connection rows id minimum f : detect_large_ingress connection rows id minimum = Some f -> word (lf_finding_key f).
Proof.
  unfold detect_large_ingress. intros E. repeat (case_match; try done). injection E as <-. apply digest_word.
Qed.

Lemma periodic_key recent id dp f : detect_periodic_outbound recent id dp = Some f -> word (po_finding_key f).
Proof.
  unfold detect_periodic_outbound. intros E. repeat (case_match; try done). injection E as <-. apply digest_word.
Qed.

Lemma connection_key store id f : finding_from_connection store id = Ok f -> word (fa_finding_key f).
Proof.
  unfold finding_from_connection. intros E. apply rbind_ok in E as (data & _ & E). destruct (ed_verdict data) as [v|]; [|done]. cbv zeta in E.
  do 3 apply rbind_ok in E as (? & _ & E). injection E as <-. apply digest_word.
Qed.

(** *** Calls *)

Inductive ReportCall :=
| ReportConnections (ids : list Z)
| ReportLargeIngress (id minimum : Z)
| ReportPeriodic (id : Z) (detector_policy : PeriodicOutboundPolicy)
| ReportRulePeriodic (set : RuleSet) (id : Z)
| ReportRuleIngress (set : RuleSet) (id : Z)
| ReportContextRules (set : RuleSet) (id : Z).

Record Call := MkCall {
  cl_call : ReportCall; cl_store : ReportStore; cl_rows : Rows; cl_mode : FleetReportingMode; cl_minimum_confidence : spec_float; cl_env : CallEnv }.

Definition run_call (c : Call) : M ReportingResult :=
  let policy := MkReportingPolicy (cl_mode c) (cl_minimum_confidence c) cooldown state_dir in
  match cl_call c with
  | ReportConnections ids => auto_report_connections path windows (cl_store c) policy (cl_env c) ids
  | ReportLargeIngress id minimum => auto_report_large_ingress database path windows (cl_store c) (cl_rows c) policy (cl_env c) id minimum
  | ReportPeriodic id dp => auto_report_periodic_behavior database path windows (cl_store c) policy (cl_env c) id dp
  | ReportRulePeriodic set id => auto_report_rule_periodic_behavior database path windows (cl_store c) policy (cl_env c) set id
  | ReportRuleIngress set id => auto_report_rule_large_ingress database path windows (cl_store c) (cl_rows c) policy (cl_env c) set id
  | ReportContextRules set id => auto_report_context_rules database path windows (cl_store c) (cl_rows c) policy (cl_env c) set id
  end.

Section call.
Context (store : ReportStore) (rows : Rows) (policy : FleetReportingPolicy) (env : CallEnv).
Context (Hc : rp_cooldown policy = cooldown) (Hd : rp_state_dir policy = state_dir) (Hn : in_s 64 (ce_now env)).

Lemma fleet_in : fleet_state_path policy ∈ state_paths.
Proof. unfold fleet_state_path, state_paths. rewrite Hd. by left. Qed.
Lemma transfer_in : transfer_state_path database ∈ state_paths.
Proof. right. by left. Qed.
Lemma periodic_in : periodic_state_path database ∈ state_paths.
Proof. right. right. by left. Qed.
Lemma rm2_in : rm2_state_path database ∈ state_paths.
Proof. right. right. right. by left. Qed.

Lemma loads p E : p ∈ state_paths -> quiet settled (load_cooldowns p) (fun _ => unchanged p) E.
Proof. intros Hp w Hw. split; [done|]. by apply running_start. Qed.

Lemma quiet_lift_eq {A} (r : result A) (P : World -> Prop) : quiet P (lift r) (fun a w => P w /\ r = Ok a) P.
Proof. intros w Hw. by destruct r. Qed.

(** A finding that is announced without being written to the findings file. *)
Lemma announces_counted p key i f message :
  p ∈ state_paths -> word key ->
  quiet (fun w => running p w /\ allows key (ce_now env) w)
    (let* _ := announce path windows env i p key f message in count Announced) (fun _ => running p) (running p).
Proof.
  intros Hp Hw. pose proof (running_stable p Hp) as Hst. eapply quiet_bind; [by apply (announces policy env (running p))|]. intros [].
  eapply quiet_weaken; [apply (keeps_count _ Hst)|by intros w []|done|done].
Qed.

Lemma keeps_report_connection i id : keeps (running (fleet_state_path policy)) (report_connection path windows store policy env i id).
Proof.
  pose proof fleet_in as Hp. pose proof (running_stable _ Hp) as Hst. apply keeps_catch; [|intros e; by apply keeps_count].
  apply keeps_bind; [apply keeps_lift|]. intros data. apply keeps_if; [apply keeps_ret|]. apply keeps_bind; [by apply keeps_count|]. intros [].
  apply keeps_if; [by apply keeps_count|]. eapply quiet_bind; [apply quiet_lift_eq|]. intros f.
  eapply quiet_bind; [by apply quiet_allowed|]. intros []; cbn [negb].
  - intros w [[Hr Hf] Ha]. apply connection_key in Hf. by apply (announces_counted _ (fa_finding_key f) i); [..|split; [|apply Ha]].
  - eapply quiet_weaken; [by apply (keeps_count _ Hst)|by intros w [[] _]|done|done].
Qed.

Definition any (_ : World) : Prop := True.

Lemma session {A} p (save : string -> Cooldowns -> M unit) (body : nat -> A -> M unit) l :
  p ∈ state_paths -> (forall i a, keeps (running p) (body i a)) ->
  (forall m, quiet (fun w => running p w /\ wd_cooldowns w = m) (save p m) (fun _ => settled) settled) ->
  quiet settled (let* _ := load_cooldowns p in let* _ := each body 0 l in let* _ := save_changed save p in get wd_result) (fun _ => settled) any.
Proof.
  intros Hp Hb Hs. eapply quiet_bind; [by apply loads|]. intros [].
  apply (quiet_bind _ _ _ (fun _ => running p)).
  { eapply quiet_weaken; [apply (keeps_each body (running p) l 0 Hb)|by intros w []|done|done]. }
  intros []. apply (quiet_bind _ _ _ (fun _ => settled)); [eapply quiet_weaken; [by apply saves_changed|done|done|done]|].
  intros []. eapply quiet_weaken; [apply (keeps_get wd_result settled)|done|done|done].
Qed.

(** The result is reset first. *)
Lemma resets {A} f (m : M A) : quiet settled m (fun _ => settled) any -> quiet settled (let* _ := modify (set_result f) in m) (fun _ => settled) any.
Proof. intros Hm. apply (quiet_bind _ _ _ (fun _ => settled)); [apply quiet_modify; intros w; apply settled_stable|by intros []]. Qed.

Lemma quiet_any {A} (m : M A) (P : World -> Prop) (Q : A -> World -> Prop) E : quiet P m Q E -> quiet P m Q any.
Proof. intros Hm. by eapply quiet_weaken. Qed.

Lemma connections_settle ids : quiet settled (auto_report_connections path windows store policy env ids) (fun _ => settled) any.
Proof.
  apply resets. apply (quiet_bind _ _ _ (fun _ => settled)); [apply (quiet_any _ _ _ settled), keeps_if; [apply keeps_ret|apply keeps_read]|].
  intros []; cbn [negb]; [|apply (quiet_any _ _ _ settled), keeps_get].
  apply session; [apply fleet_in|apply keeps_report_connection|]. intros m. apply saves, fleet_in.
Qed.

(** *** Reporters that write the findings file *)

Lemma single_settles (m : M unit) : quiet settled m (fun _ => settled) settled ->
  quiet settled (let* _ := modify (set_result (fun _ => bump Considered no_reports)) in let* _ := catch m failed_report in get wd_result) (fun _ => settled) any.
Proof.
  intros Hm. apply resets, (quiet_any _ _ _ settled). apply keeps_bind; [|intros []; apply keeps_get].
  eapply quiet_catch; [exact Hm|]. intros e. apply keeps_count, settled_stable.
Qed.

(** Detected, loaded, delivered and saved at once. *)
Lemma delivers_settled p key persist confidence f message (save : string -> Cooldowns -> M unit) :
  p ∈ state_paths -> word key -> (forall J, stable J -> keeps J persist) ->
  (forall m, quiet (fun w => running p w /\ wd_cooldowns w = m) (save p m) (fun _ => settled) settled) ->
  quiet settled (let* _ := count Detected in let* _ := load_cooldowns p in
    deliver path windows policy env 0 p key persist confidence f message (let* cooldowns := get wd_cooldowns in save p cooldowns)) (fun _ => settled) settled.
Proof.
  intros Hp Hw Hpersist Hs. apply keeps_bind; [apply keeps_count, settled_stable|]. intros []. eapply quiet_bind; [by apply loads|]. intros [].
  apply (delivers policy env (unchanged p) settled); try done.
  - by apply unchanged_stable.
  - apply settled_stable.
  - by intros w [].
  - apply unchanged_settled.
  - eapply quiet_bind; [apply quiet_get|]. intros m. eapply quiet_weaken; [apply (Hs m)|by intros w [[] ->]|done|done].
Qed.

Lemma ingress_settles id minimum : quiet settled (auto_report_large_ingress database path windows store rows policy env id minimum) (fun _ => settled) any.
Proof.
  apply single_settles. apply keeps_bind; [apply keeps_if; [apply keeps_ret|apply keeps_lift]|]. intros connection.
  destruct (detect_large_ingress connection rows id minimum) as [f|] eqn:E; [|apply keeps_ret].
  apply delivers_settled; [apply transfer_in|by eapply ingress_key|intros J HJ; by apply keeps_persist_ingress|intros m; apply saves, transfer_in].
Qed.

Lemma periodic_settles id dp : quiet settled (auto_report_periodic_behavior database path windows store policy env id dp) (fun _ => settled) any.
Proof.
  apply single_settles. apply keeps_bind; [apply keeps_lift|]. intros recent.
  destruct (detect_periodic_outbound recent id dp) as [f|] eqn:E; [|apply keeps_ret].
  apply delivers_settled; [apply periodic_in|by eapply periodic_key|intros J HJ; by apply keeps_persist_finding|intros m; apply saves, periodic_in].
Qed.

(** *** Reporters that follow the rules *)

Lemma keeps_for_rules engine id body i rule :
  (forall i rule, keeps (running (rm2_state_path database)) (body i rule)) ->
  keeps (running (rm2_state_path database)) (for_rules store engine id body i rule).
Proof.
  intros Hb. pose proof (running_stable _ rm2_in) as Hst. unfold for_rules. apply keeps_if; [apply keeps_ret|].
  apply keeps_bind; [apply keeps_lift|]. intros excluded. apply keeps_if; [apply keeps_ret|]. apply keeps_bind; [by apply keeps_count|]. intros [].
  apply keeps_catch; [apply Hb|]. intros e. by apply keeps_count.
Qed.

Lemma keeps_deliver p key persist confidence f message i :
  p ∈ state_paths -> word key -> (forall J, stable J -> keeps J persist) ->
  keeps (running p) (let* _ := count Detected in deliver path windows policy env i p key persist confidence f message (ret tt)).
Proof.
  intros Hp Hw Hpersist. pose proof (running_stable _ Hp) as Hst. apply keeps_bind; [by apply keeps_count|]. intros [].
  apply (delivers policy env (running p) (running p)); try done. apply quiet_ret. by intros w [].
Qed.

Lemma rule_periodic_settles set id :
  quiet settled (auto_report_rule_periodic_behavior database path windows store policy env set id) (fun _ => settled) any.
Proof.
  apply resets, session; [apply rm2_in| |intros m; apply saves, rm2_in]. intros i rule. apply keeps_for_rules. clear i rule. intros i rule.
  apply keeps_bind; [apply keeps_lift|]. intros dp. apply keeps_bind; [apply keeps_lift|]. intros recent.
  destruct (detect_periodic_outbound recent id dp) as [f|] eqn:E; [|apply keeps_ret].
  apply keeps_deliver; [apply rm2_in|apply digest_word|intros J HJ; by apply keeps_persist_finding].
Qed.

Lemma rule_ingress_settles set id :
  quiet settled (auto_report_rule_large_ingress database path windows store rows policy env set id) (fun _ => settled) any.
Proof.
  apply resets, session; [apply rm2_in| |intros m; apply saves, rm2_in]. intros i rule. apply keeps_for_rules. clear i rule. intros i rule.
  apply keeps_bind; [apply keeps_lift|]. intros minimum. apply keeps_bind; [apply keeps_if; [apply keeps_ret|apply keeps_lift]|]. intros connection.
  destruct (detect_large_ingress connection rows id _) as [f|] eqn:E; [|apply keeps_ret].
  apply keeps_deliver; [apply rm2_in|apply digest_word|intros J HJ; by apply keeps_persist_ingress].
Qed.

Lemma keeps_report_match c set i m : keeps (running (rm2_state_path database)) (report_match database path windows policy env c set i m).
Proof.
  pose proof rm2_in as Hp. pose proof (running_stable _ Hp) as Hst. apply keeps_bind; [by apply keeps_count|]. intros [].
  apply keeps_catch; [|intros e; by apply keeps_count]. eapply quiet_bind; [by apply quiet_allowed|]. intros []; cbn [negb].
  2: { eapply quiet_weaken; [by apply (keeps_count _ Hst)|by intros w []|done|done]. }
  set (key := fa_finding_key _). set (J := fun w => running (rm2_state_path database) w /\ allows key (ce_now env) w).
  assert (HJ : stable J) by (apply stable_and; [done|apply allows_stable]).
  apply (quiet_bind _ _ _ (fun _ => J)).
  { eapply quiet_weaken; [apply (keeps_not_reported J)|intros w [? Ha]; split; [done|by apply Ha]|done|by intros w []]. }
  intros [].
  - eapply quiet_weaken; [apply (keeps_count J HJ)|done|by intros [] w []|by intros w []].
  - apply announces_counted; [done|apply digest_word].
Qed.

Lemma context_settles set id : quiet settled (auto_report_context_rules database path windows store rows policy env set id) (fun _ => settled) any.
Proof.
  apply resets. apply (quiet_bind _ _ _ (fun _ => settled)); [apply (quiet_any _ _ _ settled), keeps_lift|]. intros [connection|]; [|apply (quiet_any _ _ _ settled), keeps_get].
  apply (quiet_bind _ _ _ (fun _ => settled)); [apply (quiet_any _ _ _ settled), keeps_lift|]. intros c.
  apply (quiet_bind _ _ _ (fun _ => settled)); [apply (quiet_any _ _ _ settled), keeps_lift|]. intros matches.
  apply session; [apply rm2_in|apply keeps_report_match|intros m; apply saves, rm2_in].
Qed.
End call.

Lemma call_settles c : in_s 64 (ce_now (cl_env c)) -> quiet settled (run_call c) (fun _ => settled) any.
Proof.
  intros Hn. unfold run_call. destruct (cl_call c); [by apply connections_settle|by apply ingress_settles|by apply periodic_settles|
    by apply rule_periodic_settles|by apply rule_ingress_settles|by apply context_settles].
Qed.

(** Calls one after the other, in one process or in several. *)
Fixpoint run_calls (calls : list Call) (w : World) : option World :=
  match calls with
  | [] => Some w
  | c :: calls => match run_call c [] w with (Done _, _, w') => run_calls calls w' | _ => None end
  end.

Lemma run_calls_settled calls w w' :
  Forall (fun c => in_s 64 (ce_now (cl_env c))) calls -> settled w -> run_calls calls w = Some w' -> settled w'.
Proof.
  revert w. induction calls as [|c calls IH]; intros w Hn Hw E; [by injection E as <-|]. apply Forall_cons in Hn as [Hc Hn]. cbn in E.
  pose proof (call_settles c Hc w Hw) as Hs. destruct (run_call c [] w) as [[[r|e|] fs] w1]; [|done|done]. destruct Hs as [_ Hs]. by apply (IH w1).
Qed.

End spacing.

(** A disk that fills up while cooldowns are saved.  The connection and transfer reporters never
    look at the stream after closing it: they return normally, and the cooldown file is replaced by the
    part that was written, so that the other cooldowns are lost, and with none written all of them.
    The behaviour and rule reporters do look, throw, and leave their cooldown file as it was. *)
Theorem unchecked_save_truncates `{BucketOrder} state_path m e k w :
  Forall (fun save : string -> Cooldowns -> M unit => exists w', save state_path m [IoDone; IoThrows e (Some k)] w = (Done tt, [], w') /\
    wd_files w' !! state_path = Some (substr (save_text m) 0 k)) [fleet_save; transfer_save] /\
  Forall (fun save : string -> Cooldowns -> M unit => exists message w', save state_path m [IoDone; IoThrows e (Some k)] w = (Threw message, [], w') /\
    wd_files w' !! state_path = wd_files w !! state_path) [behavior_save; rm2_save].
Proof.
  assert (Hne : state_path +:+ ".tmp" <> state_path) by (intros E; apply (f_equal String.length) in E; rewrite string_length_app in E; cbn in E; lia).
  rewrite !Forall_cons, !Forall_nil. split; split_and!; try done.
  1,2: eexists; unfold fleet_save, transfer_save, save_cooldowns; do 2 (erewrite bind_done; [|reflexivity]; cbn [negb andb]);
    (erewrite bind_done; [|reflexivity]); split; [reflexivity|]; unfold renamed, appended, opened, file_text; cbn [set_files wd_files];
    rewrite ?lookup_delete_ne, !lookup_insert_eq by done; cbn [set_files wd_files]; by rewrite lookup_insert_eq.
  all: eexists _, _; unfold behavior_save, rm2_save, save_cooldowns; do 2 (erewrite bind_done; [|reflexivity]; cbn [negb andb]); split; [reflexivity|];
    unfold appended, opened; cbn [set_files wd_files]; by rewrite !lookup_insert_ne.
Qed.

(** C22: Announcements are spaced.  Over any sequence of calls of the six reporters, whatever the
    history, the rules, the coordinator and the outbox do, two acknowledged announcements of the same
    finding that are recorded in the same cooldown file are at least the cooldown apart, also when the
    clock is set back and when the process is restarted between the calls; the files work and every
    call returns. *)
Theorem announcements_spaced `{Sha256} `{BucketOrderLaws} `{CastUndefined} `{LongDouble} database state_dir cooldown path windows calls w w' :
  0 <= cooldown -> Forall (fun c => in_s 64 (ce_now (cl_env c))) calls -> wd_log w = [] ->
  run_calls database state_dir cooldown path windows calls w = Some w' -> spaced cooldown (wd_log w').
Proof.
  intros Hc Hn Hl E. apply (run_calls_settled database state_dir cooldown path windows Hc calls w w' Hn) in E; [by destruct E|].
  split; [rewrite Hl; by intros i j p k t1 t2 _ [=]|]. intros p _ k t. rewrite Hl. by intros ?%not_elem_of_nil.
Qed.

(** ** A concrete run: a changed identity is reported, suppressed, and reported again *)

#[local] Existing Instance sum_digest.
#[local] Existing Instance list_order.
#[local] Existing Instance list_order_laws.
#[local] Instance demo_cast : CastUndefined := fun _ => 0.
#[local] Existing Instance long_double_x87.

Definition demo_connection : ConnectionSummary :=
  MkConnectionSummary 1 10 20 None Outbound 0 0 None (MkProcessIdentity 7 0 None "curl" "/usr/bin/curl") "10.0.0.1" 40000 "203.0.113.5" 443 "example.org" "CLOSED" Normal Changed.
Definition demo_verdict : AssuranceVerdict := MkVerdict Normal Changed "" "PEER_IDENTITY_CHANGED" (decimal_value false 9 (-1)) "" "" "" "abc".
Definition demo_store : ReportStore :=
  MkReportStore (fun _ => Ok (MkExport demo_connection None (Some demo_verdict))) (fun _ => Ok (Some demo_connection)) (fun _ => Ok [demo_connection])
    (fun _ => Ok []) (fun _ _ => Ok None) (fun _ => Ok []) (fun _ => Ok []) (fun _ => Ok None).

Definition demo_announced : result FindingAnnouncementInput := finding_from_connection demo_store 1.
Definition demo_digest : string :=
  match demo_announced with Ok f => match finding_payload (Ok demo_rules) f with Ok text => payload_digest text | Throw _ => "" end | Throw _ => "" end.
Definition demo_reply : string :=
  "{" +:+ text_field "protocol" "neta-agent/1" +:+ "," +:+ field "schemaVersion" "1" +:+ "," +:+
  text_field "messageType" "Ack" +:+ "," +:+ field "ackVersion" "1" +:+ "," +:+
  text_field "messageId" "00000000-0000-4000-8000-000000000000" +:+ "," +:+ field "sequence" " 42" +:+ "," +:+
  text_field "idempotencyKey" "agent:1" +:+ "," +:+ text_field "payloadHash" demo_digest +:+ "," +:+
  text_field "status" "ACCEPTED" +:+ "," +:+ text_field "receivedAt" "2026-01-01" +:+ "}".
Definition demo_submit : SubmitEnv :=
  MkSubmitEnv (Ok (MkFleetIdentity "agent" "ab")) None (Ok demo_rules) 1700000000123000000 1700000000123000000
    (fun _ => MkAttemptEnv 1700000000123000000 (Ok (MkFleetIdentity "agent" "ab")) (Some (repeat "000"%byte 16)) [] (fun _ => PostOk demo_reply) 1700000001000000000).
Definition demo_call (now : Z) : Call :=
  MkCall (ReportConnections [1]) demo_store ∅ SignificantOnly (decimal_value false 8 (-1)) (MkCallEnv now (fun _ => demo_submit)).
Definition demo_calls : list Call := [demo_call 1000; demo_call 1050; demo_call 1200].
Definition demo_world : World :=
  MkWorld {[ "/s/identity.conf" := "agent" ]} (MkDispatcherState initialize_schema (legacy_only 41)) [] no_reports ∅ false.

Lemma announcements_spaced_witness :
  exists w, run_calls "/db" "/s" 100 seq_path false demo_calls demo_world = Some w /\ spaced 100 (wd_log w) /\ map snd (wd_log w) = [1000; 1200].
Proof.
  pose proof (fun w => announcements_spaced "/db" "/s" 100 seq_path false demo_calls demo_world w) as T.
  destruct (run_calls "/db" "/s" 100 seq_path false demo_calls demo_world) as [w|] eqn:E; [|vm_compute in E; discriminate E].
  exists w. split; [reflexivity|]. split.
  - apply T; [lia|repeat (apply Forall_cons; split; [unfold in_s; cbn; lia|]); by apply Forall_nil|reflexivity|reflexivity].
  - vm_compute in E. injection E as <-. reflexivity.
Defined.
