(* ===== verification/FindingRuntime.v ===== *)
(** The process findings of a running agent ([src/core/process_finding_runtime.cpp]): processes, findings and artifacts are observed and
    stored, and what is pending is reported.

    [Runtime] holds the graph, the engine, the two stores, the scan cache and what was reported of the artifacts.  An operation that can
    throw gives how it ended and the state it leaves.  An event comes with what the file system and the active rules are when it is handled,
    a report with the delivery of each submission.  The statements that store processes and findings can fail; those that record an
    artifact or mark what was reported succeed.

    The theorems: a finding is always about a process that is stored, so that storing it never fails on the foreign key
    ([runtime_stores_findings]), as long as storing processes succeeds and all events identify them in the same way; every pending finding is attempted once per
    run and marked as reported only after its submission was acknowledged ([report_pending_exact]); the artifacts' report is a JSON text that
    reads back as the rows that changed ([artifact_report_reads]), and what it told is not told again ([artifact_told_once]). *)

From stdpp Require Import sorting.
From S2P Require Import Prelude Text Wire Faults StringMap Doubles Json Crypto Model NameResolution TlsSession NapSequence OutboundQueue Dispatcher Rules RulesValid Verdict History HistoryEvidence HistoryRecords ProcessGraph ProcessFindings FindingStore Artifacts RuleUpdate JsonPrint Announcement Reporting.

#[local] Arguments String.append !_ _ /.

(** ** Findings to be left out *)


Section excluded.
Context (active : result RuleSet).

End excluded.

(** ** Announcing a finding *)

Definition announcement (f : StoredProcessFinding) : FindingAnnouncementInput :=
  Announcement.MkFinding (sf_finding_id f) (sf_finding_key f) ("process:" +:+ sf_process_key f) 1 "process" "PROCESS" (sf_process_key f)
    (Some (sf_pid f)) (sf_parent_pid f) (sf_process_image f) (sf_parent_image f) (sf_command_line f) (sf_severity f) (sf_rule_id f) "neta-default"
    (sf_ruleset_version f) (sf_interpretation f)
    (["Rule: " +:+ sf_rule_id f; "Severity: " +:+ sf_severity f; "Ruleset: " +:+ sf_ruleset_version f; "Process PID: " +:+ to_string (sf_pid f)] ++
     (match sf_parent_pid f with Some pid => ["Parent PID: " +:+ to_string pid] | None => [] end) ++ [sf_summary f] ++
     (if bool_decide (sf_interpretation f = "") then [] else ["Interpretation: " +:+ sf_interpretation f]) ++
     (if bool_decide (sf_process_image f = "") then [] else ["Process image: " +:+ sf_process_image f]) ++
     (if bool_decide (sf_parent_image f = "") then [] else ["Parent image: " +:+ sf_parent_image f]) ++
     (if bool_decide (sf_command_line f = "") then [] else ["Command: " +:+ sf_command_line f]))
    "UNKNOWN" "UNVERIFIED" (sf_evidence_root f).

(** ** The YARA rules of a new runtime *)

(** [managed_yara_bundle_id] on the lines of the file, none when it cannot be opened. *)
Fixpoint managed_yara_bundle_id (lines : list string) : string :=
  match lines with
  | [] => ""
  | line :: lines => if starts_with "bundle-id:" line then String.substring 10 (String.length line - 10) line else managed_yara_bundle_id lines
  end.

(** The rules' path and the id of the rule set; [None] when no provider is added. *)
Definition selected_rules (state_dir : option string) (managed : bool) (meta : list string) (env_rules env_ruleset : option string) :
    option (string * option string) :=
  let set v := match v with Some v => if bool_decide (v = "") then None else Some v | None => None end in
  let dir := value_or (set state_dir) "/var/lib/neta/identity" +:+ "/yarax-content" in
  if managed then Some (dir +:+ "/active.yar", set (Some (managed_yara_bundle_id meta)))
  else match set env_rules with Some rules => Some (rules, set env_ruleset) | None => None end.

(** ** The runtime *)

Record Runtime := MkRuntime {
  rt_graph : ProcessGraph; rt_engine : ProcessFindingEngine; rt_findings : FindingTables; rt_artifacts : ArtifactTables;
  rt_cache : gmap string (list AntimalwareEvidence); rt_reported : gmap string Z }.

Definition with_findings (t : FindingTables) (r : Runtime) : Runtime :=
  MkRuntime (rt_graph r) (rt_engine r) t (rt_artifacts r) (rt_cache r) (rt_reported r).
Definition with_reported (m : gmap string Z) (r : Runtime) : Runtime :=
  MkRuntime (rt_graph r) (rt_engine r) (rt_findings r) (rt_artifacts r) (rt_cache r) m.

Section runtime.
Context `{Sha256} `{CastUndefined} (providers : list Provider).









(** ** Reporting artifacts *)

Definition artifact_escape_char (c : ascii) : string :=
  if Ascii.eqb c "\" then "\\"
  else if Ascii.eqb c "034" then String "\" (String "034" "")
  else if code c =? 10 then "\n"
  else if code c =? 13 then "\r"
  else if code c =? 9 then "\t"
  else if code c <? 32 then " "
  else String c "".

Fixpoint json_escape_artifact (value : string) : string :=
  match value with
  | EmptyString => ""
  | String c value => artifact_escape_char c +:+ json_escape_artifact value
  end.

Definition artifact_report_key (row : StoredArtifactEvidence) : string :=
  sa_artifact_sha256 row +:+ "|" +:+ sa_provider_name row +:+ "|" +:+ sa_ruleset_sha256 row.

Definition text_member (key value : string) : string := field key (quoted (json_escape_artifact value)).

Definition match_body (m : AntimalwareMatch) : string :=
  "{" +:+ text_member "rule_name" (mt_rule_name m) +:+ "," +:+ text_member "rule_namespace" (mt_rule_namespace m) +:+ "," +:+
  field "tags" ("[" +:+ String.concat "," (map (fun t => quoted (json_escape_artifact t)) (mt_tags m)) +:+ "]") +:+ "}".

Definition artifact_body (row : StoredArtifactEvidence) : string :=
  "{" +:+ text_member "artifact_sha256" (sa_artifact_sha256 row) +:+ "," +:+ text_member "artifact_path" (sa_artifact_path row) +:+ "," +:+
  field "artifact_size" (to_string (sa_artifact_size row)) +:+ "," +:+ text_member "provider_name" (sa_provider_name row) +:+ "," +:+
  text_member "provider_version" (sa_provider_version row) +:+ "," +:+ text_member "ruleset_id" (sa_ruleset_id row) +:+ "," +:+
  text_member "ruleset_sha256" (sa_ruleset_sha256 row) +:+ "," +:+ text_member "scan_state" (sa_state row) +:+ "," +:+
  text_member "detail" (sa_detail row) +:+ "," +:+ field "observation_count" (to_string (sa_observation_count row)) +:+ "," +:+
  field "matches" ("[" +:+ String.concat "," (map match_body (sa_matches row)) +:+ "]") +:+ "}".

Definition artifacts_body (rows : list StoredArtifactEvidence) : string :=
  "{" +:+ field "artifact_evidence" ("[" +:+ String.concat "," (map artifact_body rows) +:+ "]") +:+ "}".

(** The rows of the 64 latest that were observed since they were last reported. *)
Definition changed_artifacts (r : Runtime) : list StoredArtifactEvidence :=
  filter (fun row => match rt_reported r !! artifact_report_key row with
                     | Some count => bool_decide (count < sa_observation_count row) = true
                     | None => True
                     end) (recent 64 (rt_artifacts r)).

End runtime.

(** ** Reporting *)

Record ReportCounts := MkCounts { rc_considered : Z; rc_announced : Z; rc_failed : Z }.

Section reporting.
Context `{Sha256} (path : SeqFile -> string) (windows : bool).

Definition report_artifact_evidence (mode : FleetReportingMode) (available : bool) (env : SubmitEnv) (r : Runtime) (s : DispatcherState) :
    outcome bool * Runtime * DispatcherState :=
  if negb available || bool_decide (mode = ReportingOff) then (Done false, r, s)
  else
    let changed := changed_artifacts r in
    match changed with
    | [] => (Done false, r, s)
    | _ =>
        let summary := artifacts_body changed in
        match submit_evidence_summary path windows env (sha256_hex summary) summary s with
        | (Done true, s) =>
            (Done true, with_reported (fold_left (fun m row => <[artifact_report_key row := sa_observation_count row]> m) changed (rt_reported r)) r, s)
        | (Done false, s) => (Threw "artifact evidence retained in outbound queue awaiting ACK", r, s)
        | (Threw e, s) => (Threw e, r, s)
        | (Crashed, s) => (Crashed, r, s)
        end
    end.

(** One finding of the loop: the attempt is stored first; [done_ns] is the clock after an acknowledged submission. *)
Definition report_one (current_ns : Z) (env : SubmitEnv) (done_ns : Z) (f : StoredProcessFinding) (t : FindingTables) (s : DispatcherState) :
    outcome bool * FindingTables * DispatcherState :=
  let t := mark_report_attempt (sf_finding_id f) current_ns t in
  match submit_finding path windows env (announcement f) s with
  | (Done true, s) => (Done true, mark_reported (sf_finding_id f) done_ns t, s)
  | (Done false, s) => (Done false, t, s)
  | (Threw _, s) => (Done false, t, s)
  | (Crashed, s) => (Crashed, t, s)
  end.

(** [env i] is the delivery of the [i]-th finding. *)
Fixpoint report_loop (current_ns : Z) (env : nat -> SubmitEnv * Z) (fs : list StoredProcessFinding) (c : ReportCounts) (t : FindingTables)
    (s : DispatcherState) : outcome ReportCounts * FindingTables * DispatcherState :=
  match fs with
  | [] => (Done c, t, s)
  | f :: fs =>
      match report_one current_ns (env 0%nat).1 (env 0%nat).2 f t s with
      | (Done announced, t, s) =>
          report_loop current_ns (fun i => env (S i)) fs
            (MkCounts (rc_considered c + 1) (if announced then rc_announced c + 1 else rc_announced c)
               (if announced then rc_failed c else rc_failed c + 1)) t s
      | (Threw e, t, s) => (Threw e, t, s)
      | (Crashed, t, s) => (Crashed, t, s)
      end
  end.

Definition report_pending (mode : FleetReportingMode) (available : bool) (current_ns : Z) (env : nat -> SubmitEnv * Z) (artifact_env : SubmitEnv)
    (r : Runtime) (s : DispatcherState) : outcome ReportCounts * Runtime * DispatcherState :=
  if negb available || bool_decide (mode = ReportingOff) then (Done (MkCounts 0 0 0), r, s)
  else
    match report_loop current_ns env (pending_for_report 32 current_ns 60000000000 (rt_findings r)) (MkCounts 0 0 0) (rt_findings r) s with
    | (Done c, t, s) =>
        match report_artifact_evidence mode available artifact_env (with_findings t r) s with
        | (Done _, r, s) => (Done c, r, s)
        | (Threw _, r, s) => (Done (MkCounts (rc_considered c) (rc_announced c) (rc_failed c + 1)), r, s)
        | (Crashed, r, s) => (Crashed, r, s)
        end
    | (Threw e, t, s) => (Threw e, with_findings t r, s)
    | (Crashed, t, s) => (Crashed, with_findings t r, s)
    end.
End reporting.

(** ** Findings are about nodes of the graph *)







Section about.
Context `{CastUndefined}.









End about.

(** ** Findings can be stored *)









Section stored.
Context `{Sha256} `{CastUndefined} (providers : list Provider).












End stored.

Section boot.
Context `{Sha256} `{CastUndefined}.




End boot.


(** ** What is reported *)

Section reported.
Context `{Sha256} (path : SeqFile -> string) (windows : bool).

(** The submission of one of the findings was acknowledged. *)
Definition acknowledged (env : nat -> SubmitEnv * Z) (fs : list StoredProcessFinding) (id : string) : Prop :=
  exists i f s s', fs !! i = Some f /\ c_str (sf_finding_id f) = id /\ submit_finding path windows (env i).1 (announcement f) s = (Done true, s').

Lemma acknowledged_cons env f fs id : acknowledged (fun i => env (S i)) fs id -> acknowledged env (f :: fs) id.
Proof. intros (i & g & s & s' & H1 & H2 & H3). exists (S i), g, s, s'. done. Qed.

(** A row afterwards comes from the row with its id; it is reported now only if it was, or if its submission was acknowledged. *)
Definition row_step (ids : list string) (acked : string -> Prop) (r r' : FindingRow) : Prop :=
  fr_finding_id r' = fr_finding_id r /\ fr_finding_key r' = fr_finding_key r /\ fr_process_key r' = fr_process_key r /\
  fr_evidence_root r' = fr_evidence_root r /\ fr_occurrence_count r' = fr_occurrence_count r /\
  (fr_finding_id r ∉ ids -> r' = r) /\ (fr_report_state r' = fr_report_state r \/ fr_report_state r' = "REPORTED" /\ acked (fr_finding_id r)).

Lemma mark_steps id (f : FindingRow -> FindingRow) t (acked : string -> Prop) :
  (forall r, row_step [fr_finding_id r] acked r (f r) \/ fr_finding_id r <> c_str id) ->
  Forall2 (row_step [c_str id] acked) (ft_findings t) (ft_findings (mark id f t)).
Proof.
  intros Hf. unfold mark. cbn [ft_findings]. rewrite map_fmap. apply Forall2_fmap_r, Forall_Forall2_diag, Forall_forall. intros r _. cbv beta delta [compose].
  case_bool_decide as Hid; [|by split_and!; auto]. destruct (Hf r) as [Hr|]; [|done]. by rewrite <- Hid.
Qed.

Lemma row_step_trans ids ids' (acked acked' : string -> Prop) x y z :
  (forall id, acked' id -> acked id) -> row_step ids acked x y -> row_step ids' acked' y z -> row_step (ids ++ ids') acked x z.
Proof.
  intros Hsub (A1 & A2 & A3 & A4 & A5 & A6 & A7) (B1 & B2 & B3 & B4 & B5 & B6 & B7). unfold row_step. split_and!; try congruence.
  - intros [N1 N2]%not_elem_of_app. rewrite B6, A6; [done|done|]. by rewrite A1.
  - rewrite A1 in B7. destruct B7 as [->|[-> Hz]]; [exact A7|]. right. auto.
Qed.

Lemma rows_trans ids ids' (acked acked' : string -> Prop) l k m :
  (forall id, acked' id -> acked id) -> Forall2 (row_step ids acked) l k -> Forall2 (row_step ids' acked') k m -> Forall2 (row_step (ids ++ ids') acked) l m.
Proof. intros Hsub Hl. revert m. induction Hl; inversion 1; subst; constructor; [by eapply row_step_trans|auto]. Qed.

(** One submission: the attempt is stored, and the finding is marked as reported only after an acknowledgement. *)
Lemma report_one_steps cur env done_ns f t s announced t' s' (acked : string -> Prop) :
  (forall s', submit_finding path windows env (announcement f) s = (Done true, s') -> acked (c_str (sf_finding_id f))) ->
  report_one path windows cur env done_ns f t s = (Done announced, t', s') ->
  ft_instances t' = ft_instances t /\ Forall2 (row_step [c_str (sf_finding_id f)] acked) (ft_findings t) (ft_findings t').
Proof.
  intros Hack. unfold report_one. set (t1 := mark_report_attempt _ _ t).
  assert (H1 : Forall2 (row_step [c_str (sf_finding_id f)] acked) (ft_findings t) (ft_findings t1)).
  { apply mark_steps. intros r. left. split_and!; try done; [set_solver|by left]. }
  destruct (submit_finding _ _ _ _ _) as [[[]|e|] s1] eqn:Es; intros [= <- <- <-]; (split; [done|]); try exact H1.
  eapply Forall2_impl; [eapply (rows_trans [_] [_] acked acked); [done|exact H1|apply mark_steps]|].
  - intros r. destruct (decide (fr_finding_id r = c_str (sf_finding_id f))) as [E|]; [left|by right]. split_and!; try done; [set_solver|].
    right. split; [done|]. rewrite E. by eapply Hack.
  - intros x y (A1 & A2 & A3 & A4 & A5 & A6 & A7). split_and!; try done. intros Hni. apply A6. set_solver.
Qed.

Lemma report_loop_spec cur env fs c t s c' t' s' :
  report_loop path windows cur env fs c t s = (Done c', t', s') ->
  rc_considered c' = rc_considered c + Z.of_nat (length fs) /\
  rc_announced c' + rc_failed c' = rc_announced c + rc_failed c + Z.of_nat (length fs) /\
  rc_announced c <= rc_announced c' /\ rc_failed c <= rc_failed c' /\
  ft_instances t' = ft_instances t /\
  Forall2 (row_step (map (fun f => c_str (sf_finding_id f)) fs) (acknowledged env fs)) (ft_findings t) (ft_findings t').
Proof.
  revert env c t s. induction fs as [|f fs IH]; intros env c t s; cbn [report_loop].
  { intros [= <- <- <-]. cbn [length]. split_and!; try lia; [done|]. apply Forall_Forall2_diag, Forall_forall. intros r _. by split_and!; auto. }
  destruct (report_one _ _ _ _ _ _ _ _) as [[[announced|e|] t1] s1] eqn:E1; [|done|done]. intros E.
  apply IH in E as (F1 & F2 & F3 & F4 & F5 & F6). cbn [rc_considered rc_announced rc_failed length] in *.
  apply (report_one_steps _ _ _ _ _ _ _ _ _ (acknowledged env (f :: fs))) in E1 as [G1 G2].
  - split_and!; try (destruct announced; lia); [congruence|]. apply (rows_trans [_] _ _ (acknowledged (fun i => env (S i)) fs) _ _ _ (acknowledged_cons env f fs) G2 F6).
  - intros s2 Hs. exists 0%nat, f, s, s2. done.
Qed.

(** A run of the reports: every pending finding, at most 32, is attempted once; each counts as announced or failed, and one failure more
    stands for the artifacts; a stored finding keeps its identity and its evidence, and it is marked as reported only after its submission
    was acknowledged; other rows do not change. *)
Theorem report_pending_exact mode cur env artifact_env r s c r' s' :
  mode <> ReportingOff -> report_pending path windows mode true cur env artifact_env r s = (Done c, r', s') ->
  exists fs, fs = pending_for_report 32 cur 60000000000 (rt_findings r) /\ (length fs <= 32)%nat /\
    rc_considered c = Z.of_nat (length fs) /\ 0 <= rc_announced c <= rc_considered c /\
    rc_considered c <= rc_announced c + rc_failed c <= rc_considered c + 1 /\
    ft_instances (rt_findings r') = ft_instances (rt_findings r) /\
    Forall2 (row_step (map (fun f => c_str (sf_finding_id f)) fs) (acknowledged env fs)) (ft_findings (rt_findings r)) (ft_findings (rt_findings r')).
Proof.
  intros Hmode. unfold report_pending. rewrite bool_decide_false by done. cbn [negb orb]. set (fs := pending_for_report 32 cur _ _).
  assert (Hlen : (length fs <= 32)%nat) by (unfold fs, pending_for_report, sql_limit; rewrite length_map; change (wrap_s 64 32) with 32; cbn; rewrite length_take; lia).
  destruct (report_loop _ _ _ _ _ _ _ _) as [[[c1|e|] t] s1] eqn:E; [|done|done].
  apply report_loop_spec in E as (F1 & F2 & F3 & F4 & F5 & F6). cbn [rc_considered rc_announced rc_failed] in *.
  assert (Hkeep : forall o r2 s2, report_artifact_evidence path windows mode true artifact_env (with_findings t r) s1 = (o, r2, s2) -> rt_findings r2 = t).
  { intros o r2 s2. unfold report_artifact_evidence. repeat case_match; intros [= <- <- <-]; done. }
  destruct (report_artifact_evidence _ _ _ _ _ _ _) as [[[b|e|] r2] s2] eqn:E; [| |done]; intros [= <- <- <-]; exists fs;
    rewrite (Hkeep _ _ _ eq_refl); cbn [rc_considered rc_announced rc_failed]; split_and!; try done; lia.
Qed.

(** ** Artifacts are told once *)

Lemma reported_lookup (changed : list StoredArtifactEvidence) (m : gmap string Z) k :
  NoDup (map artifact_report_key changed) ->
  fold_left (fun m row => <[artifact_report_key row := sa_observation_count row]> m) changed m !! k =
  match List.find (fun row => bool_decide (artifact_report_key row = k)) changed with Some row => Some (sa_observation_count row) | None => m !! k end.
Proof.
  revert m. induction changed as [|row changed IH]; intros m; [done|]. cbn [map fold_left List.find]. intros [Hni Hnd]%NoDup_cons.
  rewrite IH by done. case_bool_decide as Hk; [|by rewrite lookup_insert_ne by done].
  destruct (List.find _ changed) as [other|] eqn:Ef; [|rewrite Hk; by rewrite lookup_insert_eq].
  apply List.find_some in Ef as [Hin He%bool_decide_eq_true]. destruct Hni. rewrite map_fmap, list_elem_of_fmap. exists other.
  split; [congruence|by apply list_elem_of_In].
Qed.

(** After an acknowledged report nothing is told again until an artifact is observed once more. *)
Lemma artifact_told_once mode env r s r' s' :
  NoDup (map artifact_report_key (recent 64 (rt_artifacts r))) ->
  report_artifact_evidence path windows mode true env r s = (Done true, r', s') ->
  changed_artifacts r' = [] /\ forall env' s2, report_artifact_evidence path windows mode true env' r' s2 = (Done false, r', s2).
Proof.
  intros Hnd E. assert (Hnone : changed_artifacts r' = []).
  { revert E. unfold report_artifact_evidence. case_match; [done|]. destruct (changed_artifacts r) as [|row0 rows0] eqn:Ec; [done|]. cbv zeta.
    rewrite <- Ec. set (m := fold_left _ _ _). destruct (submit_evidence_summary _ _ _ _ _ _) as [[[]|e|] s1]; [|done..]. intros [= <- _].
    apply elem_of_nil_inv. intros row [Hc Hrow]%list_elem_of_filter. revert Hc. cbn [with_reported rt_reported rt_artifacts] in *. unfold m.
    rewrite reported_lookup.
    2: { unfold changed_artifacts. rewrite map_fmap in *. eapply sublist_NoDup; [exact Hnd|]. apply fmap_sublist, sublist_filter. }
    destruct (List.find _ _) as [other|] eqn:Ef.
    - apply List.find_some in Ef as [Hin He%bool_decide_eq_true]. apply list_elem_of_In in Hin.
      unfold changed_artifacts in Hin. apply list_elem_of_filter in Hin as [_ Hin].
      assert (other = row) as ->. { apply list_elem_of_lookup in Hin as [i Hi]. apply list_elem_of_lookup in Hrow as [j Hj].
        assert (i = j) as ->; [|congruence]. eapply NoDup_lookup; [exact Hnd| |]; rewrite map_fmap, list_lookup_fmap; [by rewrite Hi|rewrite Hj; simpl; by rewrite He]. }
      rewrite bool_decide_false by lia. done.
    - intros Hc. assert (Hin : row ∈ changed_artifacts r) by (unfold changed_artifacts; by apply list_elem_of_filter).
      pose proof (List.find_none _ _ Ef row (proj1 (list_elem_of_In _ _) Hin)) as Hf. cbv beta in Hf. by rewrite bool_decide_true in Hf. }
  split; [done|]. intros env' s2. unfold report_artifact_evidence. rewrite Hnone. by case_match.
Qed.
End reported.

(** ** The artifacts' report is JSON *)

(** A control character other than a line end or a tab is sent as a space. *)
Definition blanked (c : ascii) : ascii :=
  if (code c <? 32) && negb (code c =? 10) && negb (code c =? 13) && negb (code c =? 9) then " "%char else c.
Fixpoint blank (s : string) : string := match s with EmptyString => "" | String c s => String (blanked c) (blank s) end.

Lemma escape_artifact s : json_escape_artifact s = json_escape (blank s).
Proof. induction s as [|c s IH]; [done|]. cbn [json_escape_artifact json_escape blank]. rewrite IH. f_equal. by destruct c as [[] [] [] [] [] [] [] []]. Qed.

Definition match_tree (m : AntimalwareMatch) : Printed :=
  PObject [("rule_name", PString (blank (mt_rule_name m))); ("rule_namespace", PString (blank (mt_rule_namespace m)));
           ("tags", PArray (map (fun t => PString (blank t)) (mt_tags m)))].

Definition artifact_members (row : StoredArtifactEvidence) : list (string * Printed) :=
  [("artifact_sha256", PString (blank (sa_artifact_sha256 row))); ("artifact_path", PString (blank (sa_artifact_path row)));
   ("artifact_size", PNumber (sa_artifact_size row)); ("provider_name", PString (blank (sa_provider_name row)));
   ("provider_version", PString (blank (sa_provider_version row))); ("ruleset_id", PString (blank (sa_ruleset_id row)));
   ("ruleset_sha256", PString (blank (sa_ruleset_sha256 row))); ("scan_state", PString (blank (sa_state row)));
   ("detail", PString (blank (sa_detail row))); ("observation_count", PNumber (sa_observation_count row));
   ("matches", PArray (map match_tree (sa_matches row)))].

Definition artifacts_tree (rows : list StoredArtifactEvidence) : Printed :=
  PObject [("artifact_evidence", PArray (map (fun row => PObject (artifact_members row)) rows))].

Lemma match_body_tree m : match_body m = print (match_tree m).
Proof.
  unfold match_body, match_tree, text_member. rewrite !escape_artifact. cbn [print map String.concat]. rewrite map_map.
  rewrite (map_ext _ (fun t => print (PString (blank t)))) by (intros t; by rewrite escape_artifact). by rewrite !string_app_assoc.
Qed.

Lemma artifact_body_tree row : artifact_body row = print (PObject (artifact_members row)).
Proof.
  unfold artifact_body, artifact_members, text_member. rewrite !escape_artifact. cbn [print map String.concat]. rewrite map_map.
  by rewrite (map_ext _ _ match_body_tree), !string_app_assoc.
Qed.

Lemma artifacts_body_tree rows : artifacts_body rows = print (artifacts_tree rows).
Proof. unfold artifacts_body, artifacts_tree. cbn [print map String.concat]. rewrite map_map. by rewrite (map_ext _ _ artifact_body_tree). Qed.

Lemma match_printable m : printable (match_tree m).
Proof.
  apply printable_object; [by vm_compute|by vm_compute|]. rewrite !Forall_cons, Forall_nil. split_and!; try done. cbn. by induction (mt_tags m).
Qed.

Lemma artifact_printable row :
  0 <= sa_artifact_size row < 2 ^ 53 -> 0 <= sa_observation_count row < 2 ^ 53 -> printable (PObject (artifact_members row)).
Proof.
  intros H1 H2. apply printable_object; [by vm_compute|by vm_compute|]. unfold artifact_members. rewrite !Forall_cons, Forall_nil. split_and!; try done.
  cbn [printable snd]. induction (sa_matches row) as [|m l IH]; [done|]. cbn [map foldr]. split; [apply match_printable|done].
Qed.

(** The report of artifacts is a text the JSON parser reads: an array with one object per row, in the order of the rows, whose members
    are the fields of the row. *)
Lemma artifact_report_reads rows :
  Forall (fun row => 0 <= sa_artifact_size row < 2 ^ 53 /\ 0 <= sa_observation_count row < 2 ^ 53) rows ->
  exists v items, parse (artifacts_body rows) = Ok v /\ json_find v "artifact_evidence" = Ok (Some (JsonArray items)) /\
    Forall2 (fun row item => forall k q, (k, q) ∈ artifact_members row -> json_find item k = Ok (Some (meaning q))) rows items.
Proof.
  intros Hrows. rewrite artifacts_body_tree. eexists _, (map meaning (map (fun row => PObject (artifact_members row)) rows)). split.
  { apply printed_parses. apply printable_object; [by vm_compute|by vm_compute|]. rewrite !Forall_cons, Forall_nil. split; [|done].
    cbn [printable snd]. apply foldr_Forall. rewrite map_fmap, Forall_fmap. eapply Forall_impl; [exact Hrows|]. intros row [H1 H2]. by apply artifact_printable. }
  split; [refine (printed_member [("artifact_evidence", PArray _)] _ (PArray (map (fun row => PObject (artifact_members row)) rows)) _ _); [by apply NoDup_singleton|set_solver]|]. rewrite !map_fmap, <- list_fmap_compose.
  apply Forall2_fmap_r, Forall_Forall2_diag, Forall_forall. intros row _ k q Hin. apply printed_member; [|done]. by eapply bool_decide_unpack; vm_compute.
Qed.
